(* ===== verification/_CoqProject ===== *)
-Q . S2P
Prelude.v
Base64.v
Sha2.v
GoStrings.v
NetUrl.v
Json.v
AuthData.v
ClientData.v
Origin.v
ExtValue.v
Types.v
Extension.v
ExtHandlers.v
Attestation.v
Asn1.v
X509.v
Formats.v
AndroidKey.v
Tpm.v
Standard.v
Cbor.v
Ceremony.v
ExtVerify.v
State.v
Registration.v
Authentication.v
RelyingParty.v
Preset.v
StoreValue.v
GoTime.v
JsonText.v
Storage.v
SafetyNet.v
Browser.v
BrowserOptions.v
Transport.v
Concurrent.v
Memory.v
Application.v
HttpServer.v
QuickStart.v
HttpExample.v
E2eStore.v
JsonRaw.v
E2eApp.v
Examples.v
