(* ===== verification/Prelude.v ===== *)
(** * A verified model of a WebAuthn relying-party library

    The program is a Go library (under [src/]) with which a web server runs the
    two WebAuthn ceremonies.  Registration: the server starts a ceremony with a
    challenge, stores a state, and later checks the browser's response before it
    stores a credential record.  Authentication: the same with an assertion
    signed by the credential's key, ending in a conditional update of the stored
    record.  The library keeps no state of its own and does no I/O: what it
    checks depends on the caller's stored state, the untrusted response and
    injected adapters (CBOR decoders, signature verifier, attestation verifiers,
    trust policies, clock and random source).

    ** The files

    Language and standard library, as far as the code uses them:
    - [Prelude] (this file): bytes, slices, error values with [errors.Is], the
      result monad of fallible code, interface values (nil, typed nil,
      implementation; [internal/interfaceutil]), contexts, big-endian integers,
      Go maps with an unspecified iteration order ([MapOrder]), byte-wise string
      order, and the automation ([res_inv], [run], the databases [guards], [go]).
    - [Base64], [Sha2], [GoStrings], [NetUrl], [Json], [JsonText], [JsonRaw],
      [GoTime], [Asn1]: base64, SHA-2, package [strings]/[strconv], [net/url] and
      [net/netip] for origins, reading and writing JSON and the raw text of its
      members, RFC 3339 times, and the part of [encoding/asn1] that certificates
      need, each executable.
    - [Concurrent], [HttpServer]: request handlers as programs of critical
      sections over a shared store, their interleavings, and a rely-guarantee
      calculus for them; requests, replies and cookies of [net/http].

    Components, one file each, in the order of the calls between them:
    - [AuthData]: [protocol/bytes.go], [protocol/authenticator_data.go] and
      identifiers.  Parsing is the inverse of the binary layout.
    - [ClientData]: [protocol/client_data.go].  Round trip with the browser's
      serialization; canonical challenges.
    - [Origin]: [origin.go].  RP ID grammar, canonical origins, and the scope of
      the allowed origins.
    - [ExtValue], [Extension], [ExtHandlers]: package [extension].  Values with
      copy budgets, typed handlers erased into a registry of bindings, and the
      seven handlers.  Go's dynamic [any] values are the type [value]; a type of
      another package is [VOpaque], with its methods in the class [CustomTypes].
    - [Types]: [protocol/types.go] and [codec/codec.go].
    - [Attestation]: package [attestation] (registry, evidence, trust policies)
      with the formats none and compound as the modules [None] and [Compound].
    - [X509]: the helpers under [attestation/internal]: statement fields
      ([AttStmt]), signatures ([AttCrypto]), names, extensions and public keys of
      certificates ([X509Util]), and the profile checks shared by formats.
    - [Formats] (modules [Packed], [FidoU2F], [Apple]), [AndroidKey], [Tpm]: the
      attestation formats, one package each; [SafetyNet]: [androidsafetynet].
    - [Standard]: [crypto/standard], the signature verifier.
    - [Cbor]: [codec/cbor], attestation objects, extension maps and COSE keys.
    - [Ceremony]: [ceremony.go].  Client data checks, lifetimes, parameters.
    - [ExtVerify]: [extension_verification.go].  Preparing, pinning and verifying
      the extensions of a ceremony.
    - [State]: the stored states and the credential record with the invariants of
      [validation.go].
    - [Registration]: [registration_start.go], [registration.go].
    - [Authentication]: [authentication.go], [credential_update.go].
    - [RelyingParty]: [config.go], [relying_party.go].
    - [Preset]: [preset/passkey.go], the decoder, the verifier, the none format
      and the extension registry composed into a configuration.
    - [StoreValue], [Storage]: [storage/json], the values of extensions and the
      envelopes of states and records.
    - [Browser], [BrowserOptions]: package [browser], responses from and options
      to JSON.
    - [Transport]: [transport/http], bounded reads and written replies.
    - [Memory], [Application]: [examples/integration], the stores and handlers of
      a complete application.
    - [QuickStart], [HttpExample]: the servers under [examples/quickstart] and
      [examples/http].
    - [E2eStore], [E2eApp]: [internal/e2eapp], a store whose credential records
      are shared by two indexes (an explicit heap) and the server over it.
    - [Examples]: [examples/manual], [examples/passkey], [examples/attestation]
      and [tools/checklicenses].

    Code outside the repository that is not modelled enters as a class: the
    certificate parser ([X509]), the cryptographic primitives ([Primitives]), the
    CBOR library ([CborLibrary], with its documented contract [FirstItem]), the
    text of floating-point numbers ([FloatText]), the marshalling methods of
    foreign types ([MarshalMethods]) and media types ([MediaTypes]).

    A Go struct is a record, a pointer an [option], a function a definition of
    the same name (a method is [Type_Method] where the name alone is ambiguous),
    an early return with an error a step of the result monad, a loop a fixpoint
    on its list or [for_each]/[map_res].  The state of a ceremony is passed
    explicitly from its start to its finish.

    ** What is shown

    - The two finish operations refine a specification: they succeed exactly when
      [registration_verified] or [authentication_verified] holds, stated on the
      decoded data; every error path is covered by the equivalence.
    - Start and finish fit together: started states are valid at finish, carry
      the registry's extension bindings, and agree with the browser's options in
      every value, extension inputs included; a relying party starts and finishes
      exactly the ceremonies its caller's configuration describes, and
      configuration accepted by [New] leaves no later configuration error.
    - What is stored stays valid: registration yields valid records,
      authentication yields an update that is a compare-and-set on the record,
      with its outcome on any record the store may hold by then, never lost among
      concurrent ones, and with the counter policy as documented.
    - The parsers: authenticator data, client data, challenges, origins, RP IDs,
      RSA material and user-verification entries are characterized exactly, with
      bounds and round trips.
    - Extensions: registries are well formed, results are complete, sorted and
      never accept the unrequested or unknown; PRF and largeBlob outputs answer
      their inputs; copies stay within their budgets.
    - Attestation formats: packed, FIDO U2F, Apple, Android key and TPM each
      succeed exactly on the statements their specification describes (statement
      fields, certificate profile, key and signature, nonce or key description,
      public area and certify info).  The specifications give the bytes of the
      TPM structures and the DER values of the Android key description, not the
      parsers of the code; the trial division of the TPM exponent check is
      primality.
    - Keys and signatures: COSE keys decode exactly from the canonical encodings
      of well-formed keys; a decoded key is never malformed for the verifier, which
      accepts exactly what the primitive of the registered scheme accepts.
    - The passkey preset composes them: its configuration is always usable, its
      registrations yield user-verified credentials with well-formed keys, its
      authentications a verified signature of the stored key.
    - Storage: states and records round trip through their JSON text (times
      before the year 10000; a large blob input that is typed or plain data),
      whatever bytes are read give only valid values within their bounds, and a
      stored extension input means what the original meant.
    - The browser: response JSON is accepted exactly when it has the members of
      the specification, options are sent exactly as their dictionaries say, the
      issued challenge comes back; HTTP bodies are read within their limit and
      replies delivered whole.
    - Applications, for every interleaving of requests: a session, or a success
      answer, is only given after a pending ceremony of the same server was
      consumed, once, its response verified and the store updated; no credential
      update is lost; stores stay within their limits; the indexes of the
      end-to-end store agree with its records, and its hand-written update, which
      validates nothing, does what the library's [ApplyTo] does on every record
      that the application can come to store.
    - Trust: no attestation is trusted without a policy that accepts it; all-of,
      any-of and compound do what their names say.

    Recursion is structural or on fuel.  JSON is read with twice the length of
    the text and two more, and [Json.parse_enough_fuel] proves that any larger
    fuel gives the same result; hash blocks and UTF-8 validation have the length
    of their input, of which each step consumes at least a byte; the groups of an
    IPv6 address are at most eight and have nine; the decimal digits of a 64-bit
    integer at most twenty ([GoStrings.nat_digits_spec]).  DER items are read
    with the length of the input ([X509.der_items_terminate]) and the exponent
    loop with the square root of the exponent ([Tpm.tpm_exponent_prime]).  Values
    of extensions are copied with fuel 34 for a depth limit of 32, stored values
    decoded with one more than the 10000 levels JSON may have; the values of a
    JSON stream with one more than its length ([decode_values_fuel]).

    ** Bounds of the model

    Copies are equal values, so aliasing of slices is not modelled.  A
    [time.Time] is an integer number of nanoseconds since the zero time and has
    no upper bound.  Error values keep the wrapping structure that [errors.Is]
    sees; message texts are kept where they distinguish errors.  A context is
    the sequence of answers to its polls.  Adapters are arbitrary functions, so
    every theorem holds for all of them; a hypothesis on one ([full_reader],
    [registry_adapted], [standard_large_blob]) is stated where it is needed.
    [ExtensionInput] types of other packages are opaque.

    A critical section of a handler is one atomic step with one reading of the
    clock and the random source; between sections other requests may run, in any
    number and order.  A mutex is thus the sections it protects; a panic, a
    deadlock or a lost connection of the server is not modelled.

    Not modelled: the listeners and TLS setup of the servers ([main] functions,
    [selfSignedTLSConfig]) and the embedded pages, [internal/testceremony], which
    signs fixtures with fresh keys for the tests, and [tools/checkinstall], which
    runs commands against the network. *)
From Stdlib Require Export ZArith Lia.
From Stdlib Require Export Strings.Byte.
From stdpp Require Export base tactics option list gmap strings fin_maps sorting.

Set Default Goal Selector "!".

(** ** Bytes and byte slices *)

Abbreviation byte := Init.Byte.byte.

#[export] Instance byte_eq_dec : EqDecision byte := Byte.byte_eq_dec.

(** The unsigned 8-bit value of a byte. *)
Definition byte_val (b : byte) : Z := Z.of_N (Byte.to_N b).

(** Truncation of an integer to its low eight bits, Go's [byte(x)]. *)
Definition byte_of_Z (z : Z) : byte :=
  match Byte.of_N (Z.to_N (z mod 256)) with Some b => b | None => x00 end.

Lemma byte_val_bound b : (0 <= byte_val b < 256)%Z.
Proof.
  unfold byte_val. pose proof (Byte.to_N_bounded b). lia.
Qed.

Lemma byte_of_val b : byte_of_Z (byte_val b) = b.
Proof.
  unfold byte_of_Z. rewrite Z.mod_small by apply byte_val_bound.
  unfold byte_val. rewrite N2Z.id, Byte.of_to_N. done.
Qed.

Lemma byte_val_of z : byte_val (byte_of_Z z) = (z mod 256)%Z.
Proof.
  unfold byte_of_Z.
  pose proof (Z.mod_pos_bound z 256 ltac:(lia)) as Hb.
  destruct (Byte.of_N _) as [b|] eqn:E.
  - apply Byte.to_of_N in E. unfold byte_val. rewrite E. lia.
  - apply Byte.of_N_None_iff in E. lia.
Qed.

Lemma byte_val_inj a b : byte_val a = byte_val b → a = b.
Proof. intros H. rewrite <-(byte_of_val a), H. apply byte_of_val. Qed.

(** A Go slice: [None] is the nil slice, which some checks of the code
    distinguish from the empty slice. *)
Abbreviation slice A := (option (list A)).

Definition slice_list {A} (s : slice A) : list A := default [] s.
Definition slice_len {A} (s : slice A) : Z := Z.of_nat (length (slice_list s)).

Definition bytes_of_string (s : string) : list byte := String.list_byte_of_string s.
Definition string_of_bytes (l : list byte) : string := String.string_of_list_byte l.

Lemma string_of_bytes_of_string s : string_of_bytes (bytes_of_string s) = s.
Proof. apply String.string_of_list_byte_of_string. Qed.
Lemma bytes_of_string_of_bytes l : bytes_of_string (string_of_bytes l) = l.
Proof. apply String.list_byte_of_string_of_list_byte. Qed.
Lemma bytes_of_string_inj s t : bytes_of_string s = bytes_of_string t → s = t.
Proof. intros H. rewrite <-(string_of_bytes_of_string s), H. apply string_of_bytes_of_string. Qed.

(** [len] of a Go string, in bytes. *)
Definition string_len (s : string) : Z := Z.of_nat (String.length s).

Lemma length_bytes_of_string s : length (bytes_of_string s) = String.length s.
Proof.
  unfold bytes_of_string, String.list_byte_of_string.
  rewrite length_map. induction s as [|a s IH]; simpl; congruence.
Qed.

(** ** Errors

    A Go error value.  [Sentinel] is a package-level [errors.New] variable and
    is named by its qualified identifier; [ErrorNew] is an anonymous
    [errors.New] (or [fmt.Errorf] without [%w]); the next three constructors
    are the shapes of [fmt.Errorf] the code uses; the last two are the error
    structs of package [protocol]. *)
Inductive error : Type :=
| Sentinel (name : string)
| ErrorNew (msg : string)
| ErrorWrap (outer inner : error)
| ErrorText (outer : error) (text : string)
| TextWrap (text : string) (inner : error)
| ValueError (field value : string)
| ByteLengthError (field : string) (len min max : Z).

#[export] Instance error_eq_dec : EqDecision error.
Proof. solve_decision. Defined.

Definition ErrUnsupportedValue : error := Sentinel "protocol.ErrUnsupportedValue".

(** [errors.Is]: the target is in the tree of wrapped errors. *)
Fixpoint errors_is (e target : error) : bool :=
  bool_decide (e = target) ||
  match e with
  | ErrorWrap outer inner => errors_is outer target || errors_is inner target
  | ErrorText outer _ => errors_is outer target
  | TextWrap _ inner => errors_is inner target
  | ValueError _ _ => bool_decide (ErrUnsupportedValue = target)
  | _ => false
  end.

(** ** Fallible computations: Go's [(T, error)] results *)
Inductive result (A : Type) : Type :=
| Ok (a : A)
| Err (e : error).
Arguments Ok {A} a.
Arguments Err {A} e.

#[export] Instance result_ret : MRet result := λ A a, Ok a.
#[export] Instance result_bind : MBind result := λ A B f r,
  match r with Ok a => f a | Err e => Err e end.

Definition is_ok {A} (r : result A) : bool :=
  match r with Ok _ => true | Err _ => false end.

(** [if cond { return ..., err }] *)
Definition fail_if (cond : bool) (e : error) : result () :=
  if cond then Err e else Ok ().

(** [if err != nil { return ..., f(err) }] *)
Definition map_err {A} (f : error → error) (r : result A) : result A :=
  match r with Ok a => Ok a | Err e => Err (f e) end.

(** [fmt.Errorf("%w: %w", outer, err)] on the error of a call. *)
Definition wrap_err {A} (outer : error) (r : result A) : result A :=
  map_err (ErrorWrap outer) r.

(** A call whose error is replaced by a fixed one. *)
Definition or_err {A} (e : error) (r : result A) : result A :=
  map_err (λ _, e) r.

(** The comma-ok idiom: [v, ok := ...; if !ok { return err }]. *)
Definition of_option {A} (e : error) (o : option A) : result A :=
  match o with Some a => Ok a | None => Err e end.

(** [for _, x := range xs { if err := f(x); err != nil { return err } }] *)
Fixpoint for_each {A} (f : A → result ()) (xs : list A) : result () :=
  match xs with
  | [] => Ok ()
  | x :: xs => f x ≫= λ _, for_each f xs
  end.

(** A loop that appends [f x] for every element and stops at the first error. *)
Fixpoint map_res {A B} (f : A → result B) (xs : list A) : result (list B) :=
  match xs with
  | [] => Ok []
  | x :: xs => f x ≫= λ y, map_res f xs ≫= λ ys, Ok (y :: ys)
  end.

Section Results.
Context {A B : Type}.
Implicit Types (r : result A) (f : A → result B).

Lemma bind_Ok r f b : r ≫= f = Ok b ↔ ∃ a, r = Ok a ∧ f a = Ok b.
Proof. destruct r; simpl; naive_solver. Qed.
Lemma bind_Err r f e : r ≫= f = Err e ↔ r = Err e ∨ ∃ a, r = Ok a ∧ f a = Err e.
Proof. destruct r; simpl; naive_solver. Qed.
Lemma Ok_inj (a b : A) : Ok a = Ok b → a = b.
Proof. by intros [=]. Qed.
Lemma ret_Ok (a b : A) : mret a = Ok b ↔ a = b.
Proof. unfold mret, result_ret. naive_solver. Qed.
Lemma fail_if_Ok b e u : fail_if b e = Ok u ↔ b = false.
Proof. destruct b, u; simpl; naive_solver. Qed.
Lemma fail_if_Err b e e' : fail_if b e = Err e' ↔ b = true ∧ e = e'.
Proof. destruct b; simpl; naive_solver. Qed.
Lemma map_err_Ok g r a : map_err g r = Ok a ↔ r = Ok a.
Proof. destruct r; simpl; naive_solver. Qed.
Lemma map_err_Err g r e : map_err g r = Err e ↔ ∃ e', r = Err e' ∧ g e' = e.
Proof. destruct r; simpl; naive_solver. Qed.
Lemma wrap_err_Ok e r a : wrap_err e r = Ok a ↔ r = Ok a.
Proof. apply map_err_Ok. Qed.
Lemma or_err_Ok e r a : or_err e r = Ok a ↔ r = Ok a.
Proof. apply map_err_Ok. Qed.
Lemma of_option_Ok e (o : option A) a : of_option e o = Ok a ↔ o = Some a.
Proof. destruct o; simpl; naive_solver. Qed.

Lemma for_each_Ok (g : A → result ()) xs u :
  for_each g xs = Ok u ↔ Forall (λ x, g x = Ok ()) xs.
Proof.
  destruct u. induction xs as [|x xs IH]; simpl.
  - split; [constructor|done].
  - rewrite Forall_cons. destruct (g x) as [[]|]; simpl; naive_solver.
Qed.

Lemma for_each_Err (g : A → result ()) xs e :
  for_each g xs = Err e → ∃ x, x ∈ xs ∧ g x = Err e.
Proof.
  induction xs as [|x xs IH]; simpl; [done|].
  destruct (g x) as [[]|] eqn:E; simpl; intros H; simplify_eq.
  - destruct IH as (y & ? & ?); [done|]. exists y. by rewrite elem_of_cons; eauto.
  - exists x. rewrite elem_of_cons. eauto.
Qed.
End Results.

Lemma map_res_Ok {A B} (f : A → result B) xs ys : map_res f xs = Ok ys ↔ Forall2 (λ x y, f x = Ok y) xs ys.
Proof.
  revert ys. induction xs as [|x xs IH]; intros ys; simpl; split.
  - intros [= <-]. constructor.
  - by intros ->%Forall2_nil_inv_l.
  - rewrite bind_Ok. intros (y & Hy & H). destruct (map_res f xs) as [zs|]; simplify_eq/=.
    constructor; [done|]. by apply IH.
  - intros (y & zs & Hy & Hzs & ->)%Forall2_cons_inv_l.
    apply IH in Hzs. by rewrite Hy; simpl; rewrite Hzs.
Qed.

(** Turns a hypothesis that a monadic computation returned [Ok] into the facts
    that each of its steps returned. *)
Ltac res_step H :=
  lazymatch type of H with
  | _ ≫= _ = Ok _ =>
      let a := fresh "a" in let H1 := fresh "Hok" in
      apply bind_Ok in H as (a & H1 & H); cbn beta in H; try res_step H1
  | fail_if _ _ = Ok _ => apply fail_if_Ok in H
  | wrap_err _ _ = Ok _ => apply wrap_err_Ok in H; try res_step H
  | or_err _ _ = Ok _ => apply or_err_Ok in H; try res_step H
  | map_err _ _ = Ok _ => apply map_err_Ok in H; try res_step H
  | of_option _ _ = Ok _ => apply of_option_Ok in H
  | mret _ = Ok _ => apply ret_Ok in H
  | for_each _ _ = Ok _ => apply for_each_Ok in H
  | Ok _ = Ok _ => apply Ok_inj in H; try (first [subst | done])
  | Err _ = Ok _ => discriminate H
  end.
Ltac res_inv := repeat match goal with H : _ = Ok _ |- _ => progress res_step H end.

(** Runs a computation whose next step has been rewritten to its result. *)
Ltac run := cbn [wrap_err or_err map_err of_option negb orb fail_if mbind result_bind].

(** ** Automation

    [guards] turns the boolean conditions of guards into propositions; the
    database [go] holds the facts on lengths and ranges that close side
    conditions. *)
#[export] Hint Rewrite orb_false_iff andb_true_iff negb_false_iff negb_true_iff bool_decide_eq_true
  bool_decide_eq_false Z.eqb_neq Z.eqb_eq Z.ltb_ge Z.ltb_lt eqb_true_iff : guards.
Tactic Notation "guards" "in" hyp(H) := autorewrite with guards in H.
Tactic Notation "guards" := autorewrite with guards.

Create HintDb go discriminated.
#[export] Hint Resolve byte_val_bound : go.
#[export] Hint Extern 4 (_ <= _)%Z => lia : go.
#[export] Hint Extern 4 (_ < _)%Z => lia : go.
#[export] Hint Extern 4 (_ ≠ _)%Z => lia : go.

(** ** Interface values: nil, typed nil, or an implementation *)
Inductive iface (A : Type) : Type :=
| NilIface
| TypedNil
| Iface (impl : A).
Arguments NilIface {A}.
Arguments TypedNil {A}.
Arguments Iface {A} impl.

(** [interfaceutil.IsNil]: nil or a typed nil. *)
Definition IsNil {A} (v : iface A) : bool :=
  match v with Iface _ => false | _ => true end.

(** The run-time panic of a method call through a nil interface; no code of the
    library creates this error value. *)
Definition NilDereference : error := Sentinel "panic: nil dereference".

(** ** Contexts

    A [context.Context] is observed through [ctx.Err] (or [ctx.Done]): the
    function gives the answer to the n-th poll of the function of that name, so
    a context may be cancelled between any two polls.  [None] for the context
    itself is a nil context. *)
Definition context : Type := string → nat → option error.
Definition background : context := λ _ _, None.

(** [value == nil] *)
Definition iface_eq_nil {A} (v : iface A) : bool :=
  match v with NilIface => true | _ => false end.

(** ** Bitwise and big-endian arithmetic *)

(** [binary.BigEndian.UintN] on a slice of exactly N/8 bytes. *)
Definition be_uint (l : list byte) : Z := foldl (λ acc b, acc * 256 + byte_val b)%Z 0%Z l.

(** [binary.BigEndian.PutUintN] as a fresh slice of [n] bytes. *)
Fixpoint put_be (n : nat) (z : Z) : list byte :=
  match n with
  | O => []
  | S n => byte_of_Z (z / 256 ^ Z.of_nat n) :: put_be n z
  end.

Lemma length_put_be n z : length (put_be n z) = n.
Proof. induction n; simpl; congruence. Qed.

Lemma be_uint_acc l acc :
  foldl (λ acc b, acc * 256 + byte_val b)%Z acc l = (acc * 256 ^ Z.of_nat (length l) + be_uint l)%Z.
Proof.
  unfold be_uint. revert acc. induction l as [|b l IH]; intros acc; cbn [foldl length].
  - lia.
  - rewrite IH, (IH (0 * 256 + _)%Z), Nat2Z.inj_succ, Z.pow_succ_r by lia. ring.
Qed.

Lemma be_uint_cons b l : be_uint (b :: l) = (byte_val b * 256 ^ Z.of_nat (length l) + be_uint l)%Z.
Proof. unfold be_uint at 1. cbn [foldl]. by rewrite be_uint_acc. Qed.

Lemma be_uint_bound l : (0 <= be_uint l < 256 ^ Z.of_nat (length l))%Z.
Proof.
  induction l as [|b l IH]; [done|].
  rewrite be_uint_cons. cbn [length]. rewrite Nat2Z.inj_succ, Z.pow_succ_r by lia.
  pose proof (byte_val_bound b). nia.
Qed.

Lemma put_be_mod n z : put_be n (z mod 256 ^ Z.of_nat n) = put_be n z.
Proof.
  induction n as [|n IH] in z |- *; [done|].
  cbn [put_be]. rewrite Nat2Z.inj_succ, Z.pow_succ_r by lia.
  assert (0 < 256 ^ Z.of_nat n)%Z by (apply Z.pow_pos_nonneg; lia).
  f_equal.
  - apply byte_val_inj. rewrite !byte_val_of, (Z.mul_comm 256), Z.rem_mul_r by lia.
    rewrite (Z.mul_comm (256 ^ _)), Z.div_add by lia.
    rewrite (Z.div_small (_ mod _)) by (apply Z.mod_pos_bound; lia).
    by rewrite Z.add_0_l, Z.mod_mod by lia.
  - rewrite <-(IH z), <-IH. f_equal.
    rewrite (Z.mul_comm 256), Z.rem_mul_r by lia.
    rewrite (Z.mul_comm (256 ^ _)), Z.mod_add by lia. apply Z.mod_mod. lia.
Qed.

Lemma put_be_uint l : put_be (length l) (be_uint l) = l.
Proof.
  induction l as [|b l IH]; [done|].
  cbn [length put_be]. rewrite be_uint_cons.
  pose proof (be_uint_bound l).
  rewrite Z.div_add_l, Z.div_small, Z.add_0_r by lia.
  rewrite byte_of_val. f_equal.
  by rewrite <-put_be_mod, Z.add_comm, Z.mod_add, put_be_mod by lia.
Qed.

Lemma be_uint_put n z : (0 <= z < 256 ^ Z.of_nat n)%Z → be_uint (put_be n z) = z.
Proof.
  induction n as [|n IH] in z |- *; intros Hz; [rewrite Z.pow_0_r in Hz; cbn; lia|].
  cbn [put_be]. rewrite be_uint_cons, length_put_be, byte_val_of.
  rewrite Nat2Z.inj_succ, Z.pow_succ_r in Hz by lia.
  assert (0 < 256 ^ Z.of_nat n)%Z by (apply Z.pow_pos_nonneg; lia).
  rewrite <-put_be_mod, IH by (apply Z.mod_pos_bound; lia).
  rewrite Z.mod_small.
  - rewrite Z.mul_comm. symmetry. apply Z.div_mod. lia.
  - split; [apply Z.div_pos; lia|]. apply Z.div_lt_upper_bound; lia.
Qed.

(** ** Maps

    Go maps with string keys are [gmap string].  A [range] loop over a map
    visits its entries in an order the language leaves open: an instance of
    [MapOrder] fixes one such order, and everything is proved for all of them. *)
Class MapOrder : Type := {
  range_list : ∀ {A : Type}, gmap string A → list (string * A);
  range_list_perm : ∀ {A : Type} (m : gmap string A), range_list m ≡ₚ map_to_list m;
}.

(** One order, used to evaluate the definitions on concrete inputs. *)
Definition default_order : MapOrder.
Proof. refine {| range_list := λ A m, map_to_list m |}. done. Defined.

Section Maps.
Context {Ord : MapOrder} {A : Type}.
Implicit Types (m : gmap string A).

Definition range_keys m : list string := (range_list m).*1.

(** [slices.Sorted(maps.Keys(m))] *)
Definition sorted_keys m : list string := merge_sort String.le (range_keys m).

Definition map_len m : Z := Z.of_nat (size m).

Lemma elem_of_range_list m k v : (k, v) ∈ range_list m ↔ m !! k = Some v.
Proof. by rewrite range_list_perm, elem_of_map_to_list. Qed.

Lemma elem_of_range_keys m k : k ∈ range_keys m ↔ is_Some (m !! k).
Proof.
  unfold range_keys. rewrite list_elem_of_fmap. split.
  - intros ([k' v] & -> & H%elem_of_range_list). eauto.
  - intros [v Hv]. exists (k, v). by rewrite elem_of_range_list.
Qed.

Lemma NoDup_range_keys m : NoDup (range_keys m).
Proof. unfold range_keys. rewrite range_list_perm. apply NoDup_fst_map_to_list. Qed.

Lemma sorted_keys_perm m : sorted_keys m ≡ₚ range_keys m.
Proof. apply merge_sort_Permutation. Qed.

Lemma elem_of_sorted_keys m k : k ∈ sorted_keys m ↔ is_Some (m !! k).
Proof. by rewrite sorted_keys_perm, elem_of_range_keys. Qed.

Lemma NoDup_sorted_keys m : NoDup (sorted_keys m).
Proof. rewrite sorted_keys_perm. apply NoDup_range_keys. Qed.

Lemma StronglySorted_sorted_keys m : StronglySorted String.le (sorted_keys m).
Proof. apply StronglySorted_merge_sort; apply _. Qed.

Lemma length_sorted_keys m : Z.of_nat (length (sorted_keys m)) = map_len m.
Proof.
  rewrite sorted_keys_perm. unfold range_keys, map_len.
  by rewrite length_fmap, range_list_perm, length_map_to_list.
Qed.
End Maps.

(** ** Loops over sorted, duplicate-free lists of identifiers *)

Definition string_lt (s t : string) : Prop := String.le s t ∧ s ≠ t.

Lemma string_lt_trans s t u : string_lt s t → string_lt t u → string_lt s u.
Proof.
  intros [H1 N1] [H2 N2]. split; [by etrans|].
  intros ->. apply N1. by apply (anti_symm String.le).
Qed.

Lemma string_lt_irrefl s : ¬ string_lt s s.
Proof. by intros []. Qed.

Lemma StronglySorted_lt (l : list string) :
  StronglySorted String.le l → NoDup l → StronglySorted string_lt l.
Proof.
  induction 1 as [|x l Hl IH Hx]; intros Hd; [constructor|].
  apply NoDup_cons in Hd as [Hnin Hd]. constructor; [by apply IH|].
  apply Forall_forall. intros y Hy. rewrite Forall_forall in Hx.
  split; [by apply Hx|]. by intros ->.
Qed.

(** Two strictly sorted lists with the same elements are equal. *)
Lemma StronglySorted_lt_ext (l1 l2 : list string) :
  StronglySorted string_lt l1 → StronglySorted string_lt l2 →
  (∀ x, x ∈ l1 ↔ x ∈ l2) → l1 = l2.
Proof.
  intros H1. revert l2. induction H1 as [|x l1 Hl1 IH Hx]; intros l2 H2 Heq.
  - destruct l2 as [|y l2]; [done|]. exfalso. destruct (Heq y) as [_ H].
    specialize (H (list_elem_of_here _ _)). by apply not_elem_of_nil in H.
  - destruct H2 as [|y l2 Hl2 Hy].
    { exfalso. destruct (Heq x) as [H _]. specialize (H (list_elem_of_here _ _)).
      by apply not_elem_of_nil in H. }
    rewrite Forall_forall in Hx, Hy.
    assert (x = y) as <-.
    { destruct (Heq x) as [Hxy _]. destruct (Heq y) as [_ Hyx].
      specialize (Hxy (list_elem_of_here _ _)). specialize (Hyx (list_elem_of_here _ _)).
      rewrite elem_of_cons in Hxy, Hyx. destruct Hxy as [|Hxy]; [done|].
      destruct Hyx as [|Hyx]; [done|].
      exfalso. eapply string_lt_irrefl, string_lt_trans; [by apply Hx|by apply Hy]. }
    f_equal. apply IH; [done|]. intros z. specialize (Heq z). rewrite !elem_of_cons in Heq.
    split; intros Hz.
    + destruct Heq as [[->|?] _]; [by right| |done]. exfalso. by apply (string_lt_irrefl x), Hx.
    + destruct Heq as [_ [->|?]]; [by right| |done]. exfalso. by apply (string_lt_irrefl x), Hy.
Qed.
