(* ===== verification/Base64.v ===== *)
(** * Unpadded base64url

    The part of Go's [encoding/base64] the library uses:
    [base64.RawURLEncoding.EncodeToString] and the [DecodeString] of
    [base64.RawURLEncoding.Strict()].  The decoder skips carriage returns and
    line feeds wherever they occur, rejects every other byte outside the
    alphabet (there is no padding character), rejects a final quantum of one
    character, and, being strict, rejects non-zero trailing bits.  Decoding
    errors carry no offset here: [None] stands for [CorruptInputError]. *)
From S2P Require Import Prelude.
Set Default Goal Selector "!".
Local Open Scope Z_scope.

Definition alphabet : list byte :=
  bytes_of_string "ABCDEFGHIJKLMNOPQRSTUVWXYZabcdefghijklmnopqrstuvwxyz0123456789-_".

Definition enc_char (n : Z) : byte := nth (Z.to_nat n) alphabet x00.

Definition dec_char (c : byte) : option Z :=
  let v := byte_val c in
  if (65 <=? v) && (v <=? 90) then Some (v - 65)
  else if (97 <=? v) && (v <=? 122) then Some (v - 71)
  else if (48 <=? v) && (v <=? 57) then Some (v + 4)
  else if v =? 45 then Some 62
  else if v =? 95 then Some 63
  else None.

Definition is_newline (c : byte) : bool :=
  (byte_val c =? 10) || (byte_val c =? 13).

Fixpoint encode_bytes (l : list byte) : list byte :=
  match l with
  | [] => []
  | [a] =>
      let v := byte_val a * 65536 in
      [enc_char (v / 262144); enc_char (v / 4096 mod 64)]
  | [a; b] =>
      let v := byte_val a * 65536 + byte_val b * 256 in
      [enc_char (v / 262144); enc_char (v / 4096 mod 64); enc_char (v / 64 mod 64)]
  | a :: b :: c :: rest =>
      let v := byte_val a * 65536 + byte_val b * 256 + byte_val c in
      enc_char (v / 262144) :: enc_char (v / 4096 mod 64) ::
      enc_char (v / 64 mod 64) :: enc_char (v mod 64) :: encode_bytes rest
  end.

(** The decoding loop, on the sextets of the input with newlines removed. *)
Fixpoint decode_sextets (l : list Z) : option (list byte) :=
  match l with
  | [] => Some []
  | [_] => None
  | [p; q] =>
      let v := p * 262144 + q * 4096 in
      if v mod 65536 =? 0 then Some [byte_of_Z (v / 65536)] else None
  | [p; q; r] =>
      let v := p * 262144 + q * 4096 + r * 64 in
      if v mod 256 =? 0 then Some [byte_of_Z (v / 65536); byte_of_Z (v / 256)] else None
  | p :: q :: r :: s :: rest =>
      let v := p * 262144 + q * 4096 + r * 64 + s in
      tail ← decode_sextets rest;
      Some (byte_of_Z (v / 65536) :: byte_of_Z (v / 256) :: byte_of_Z v :: tail)
  end.

Definition decode_bytes (l : list byte) : option (list byte) :=
  sextets ← mapM dec_char (List.filter (λ c, negb (is_newline c)) l);
  decode_sextets sextets.

(** [base64.RawURLEncoding.EncodeToString] *)
Definition EncodeToString (l : list byte) : string := string_of_bytes (encode_bytes l).

(** [base64.RawURLEncoding.Strict().DecodeString] *)
Definition DecodeString (s : string) : option (list byte) := decode_bytes (bytes_of_string s).

(** [base64.StdEncoding]: the standard alphabet, padded to quanta of four. *)
Definition std_char (c : byte) : byte := if decide (c = x2d) then x2b else if decide (c = x5f) then x2f else c.
Definition url_char (c : byte) : byte :=
  if decide (c = x2b) then x2d else if decide (c = x2f) then x5f
  else if bool_decide (c ∈ [x2d; x5f]) then x00 else c.
Definition padding (l : list byte) : list byte :=
  match Z.of_nat (length l) mod 3 with 1 => [x3d; x3d] | 2 => [x3d] | _ => [] end.
Definition std_encode (l : list byte) : list byte := (std_char <$> encode_bytes l) ++ padding l.

(** The text without up to two padding characters at its end. *)
Definition strip_padding (l : list byte) : list byte :=
  match rev l with
  | c :: d :: r => if decide (c = x3d) then if decide (d = x3d) then rev r else rev (d :: r) else l
  | _ => l
  end.

(** [base64.StdEncoding.Strict().DecodeString] *)
Definition std_decode (l : list byte) : option (list byte) :=
  let l := List.filter (λ c, negb (is_newline c)) l in
  if Z.of_nat (length l) mod 4 =? 0 then decode_bytes (url_char <$> strip_padding l) else None.

Definition StdEncodeToString (l : list byte) : string := string_of_bytes (std_encode l).
Definition StdDecodeString (s : string) : option (list byte) := std_decode (bytes_of_string s).

(** ** The alphabet *)

Lemma dec_char_enc_char n : 0 <= n < 64 → dec_char (enc_char n) = Some n.
Proof.
  intros Hn.
  assert (Forall (λ k, dec_char (enc_char (Z.of_nat k)) = Some (Z.of_nat k)) (seq 0 64)) as HF
    by (apply (bool_decide_unpack _); vm_compute; exact I).
  rewrite Forall_forall in HF. specialize (HF (Z.to_nat n)).
  rewrite Z2Nat.id in HF by lia. apply HF, elem_of_seq. lia.
Qed.

Lemma dec_char_Some c n : dec_char c = Some n → 0 <= n < 64 ∧ enc_char n = c.
Proof. destruct c; vm_compute; intros H; simplify_eq; (split; [split|]); done. Qed.

Lemma enc_char_not_newline n : 0 <= n < 64 → is_newline (enc_char n) = false.
Proof.
  intros Hn. pose proof (dec_char_enc_char n Hn) as H.
  destruct (enc_char n); vm_compute in H |- *; congruence.
Qed.

(** ** Round trips *)

Lemma list_ind3 {A} (P : list A → Prop) :
  P [] → (∀ a, P [a]) → (∀ a b, P [a; b]) →
  (∀ a b c l, P l → P (a :: b :: c :: l)) → ∀ l, P l.
Proof.
  intros H0 H1 H2 H3. fix IH 1.
  intros [|a [|b [|c l]]]; [exact H0|exact (H1 a)|exact (H2 a b)|exact (H3 a b c l (IH l))].
Qed.

Lemma list_ind4 {A} (P : list A → Prop) :
  P [] → (∀ a, P [a]) → (∀ a b, P [a; b]) → (∀ a b c, P [a; b; c]) →
  (∀ a b c d l, P l → P (a :: b :: c :: d :: l)) → ∀ l, P l.
Proof.
  intros H0 H1 H2 H3 H4. fix IH 1.
  intros [|a [|b [|c [|d l]]]];
    [exact H0|exact (H1 a)|exact (H2 a b)|exact (H3 a b c)|exact (H4 a b c d l (IH l))].
Qed.

(** The sextets that [encode_bytes] writes. *)
Fixpoint sextets (l : list byte) : list Z :=
  match l with
  | [] => []
  | [a] => let v := byte_val a * 65536 in [v / 262144; v / 4096 mod 64]
  | [a; b] =>
      let v := byte_val a * 65536 + byte_val b * 256 in
      [v / 262144; v / 4096 mod 64; v / 64 mod 64]
  | a :: b :: c :: rest =>
      let v := byte_val a * 65536 + byte_val b * 256 + byte_val c in
      v / 262144 :: v / 4096 mod 64 :: v / 64 mod 64 :: v mod 64 :: sextets rest
  end.

Lemma encode_bytes_sextets l : encode_bytes l = enc_char <$> sextets l.
Proof.
  induction l as [| | |a b c l IH] using list_ind3; [done..|].
  cbn [encode_bytes sextets]. rewrite IH. done.
Qed.

Lemma sextets_bound l : Forall (λ n, 0 <= n < 64) (sextets l).
Proof.
  induction l as [|a|a b|a b c l IH] using list_ind3; cbn [sextets]; repeat constructor; auto;
    try apply Z.mod_pos_bound; try (apply Z.div_pos); try apply Z.div_lt_upper_bound;
    try pose proof (byte_val_bound a); try pose proof (byte_val_bound b);
    try pose proof (byte_val_bound c); lia.
Qed.

Lemma decode_sextets_sextets l : decode_sextets (sextets l) = Some l.
Proof.
  induction l as [|a|a b|a b c l IH] using list_ind3; cbn [sextets decode_sextets].
  - done.
  - pose proof (byte_val_bound a).
    replace (byte_val a * 65536 / 262144 * 262144 + (byte_val a * 65536 / 4096) mod 64 * 4096)
      with (byte_val a * 65536) by (Z.div_mod_to_equations; lia).
    by rewrite Z.mod_mul, Z.eqb_refl, Z.div_mul, byte_of_val by lia.
  - pose proof (byte_val_bound a). pose proof (byte_val_bound b).
    set (v := byte_val a * 65536 + byte_val b * 256).
    replace (v / 262144 * 262144 + (v / 4096) mod 64 * 4096 + (v / 64) mod 64 * 64)
      with v by (subst v; Z.div_mod_to_equations; lia).
    replace (v mod 256) with 0 by (subst v; Z.div_mod_to_equations; lia). rewrite Z.eqb_refl.
    do 2 f_equal.
    + rewrite <-(byte_of_val a). f_equal. subst v. Z.div_mod_to_equations; lia.
    + f_equal. apply byte_val_inj. rewrite byte_val_of. subst v. Z.div_mod_to_equations; lia.
  - rewrite IH. cbn [mbind option_bind].
    pose proof (byte_val_bound a). pose proof (byte_val_bound b). pose proof (byte_val_bound c).
    set (v := byte_val a * 65536 + byte_val b * 256 + byte_val c).
    replace (v / 262144 * 262144 + (v / 4096) mod 64 * 4096 + (v / 64) mod 64 * 64 + v mod 64)
      with v by (subst v; Z.div_mod_to_equations; lia).
    f_equal. f_equal; [|f_equal; [|f_equal]].
    + rewrite <-(byte_of_val a). f_equal. subst v. Z.div_mod_to_equations; lia.
    + apply byte_val_inj. rewrite byte_val_of. subst v. Z.div_mod_to_equations; lia.
    + apply byte_val_inj. rewrite byte_val_of. subst v. Z.div_mod_to_equations; lia.
Qed.

Lemma sextets_decode_sextets s l :
  Forall (λ n, 0 <= n < 64) s → decode_sextets s = Some l → sextets l = s.
Proof.
  revert l. induction s as [|p|p q|p q r|p q r t s IH] using list_ind4;
    intros l Hs H; cbn [decode_sextets] in H; simplify_eq/=.
  - done.
  - rewrite !Forall_cons in Hs. destruct Hs as (Hp & Hq & _).
    destruct (Z.eqb_spec ((p * 262144 + q * 4096) mod 65536) 0) as [E|]; simplify_eq/=.
    rewrite byte_val_of. repeat f_equal; Z.div_mod_to_equations; lia.
  - rewrite !Forall_cons in Hs. destruct Hs as (Hp & Hq & Hr & _).
    destruct (Z.eqb_spec ((p * 262144 + q * 4096 + r * 64) mod 256) 0) as [E|]; simplify_eq/=.
    rewrite !byte_val_of. repeat f_equal; Z.div_mod_to_equations; lia.
  - rewrite !Forall_cons in Hs. destruct Hs as (Hp & Hq & Hr & Ht & Hs).
    destruct (decode_sextets s) as [tl|] eqn:E; simplify_eq/=.
    rewrite (IH tl Hs eq_refl), !byte_val_of.
    repeat f_equal; Z.div_mod_to_equations; lia.
Qed.

Lemma decode_bytes_encode_bytes l : decode_bytes (encode_bytes l) = Some l.
Proof.
  unfold decode_bytes. rewrite encode_bytes_sextets.
  pose proof (sextets_bound l) as Hb.
  replace (List.filter (λ c, negb (is_newline c)) (enc_char <$> sextets l))
    with (enc_char <$> sextets l).
  - replace (mapM dec_char (enc_char <$> sextets l)) with (Some (sextets l)).
    + apply decode_sextets_sextets.
    + symmetry. apply mapM_Some. induction Hb; simpl; constructor; auto using dec_char_enc_char.
  - induction Hb as [|n s Hn Hs IH]; [done|].
    rewrite fmap_cons. cbn [List.filter]. rewrite enc_char_not_newline by done.
    cbn [negb]. by rewrite <-IH.
Qed.

Lemma encode_bytes_decode_bytes s l :
  decode_bytes s = Some l →
  encode_bytes l = List.filter (λ c, negb (is_newline c)) s.
Proof.
  unfold decode_bytes. intros (x & Hx & Hd)%bind_Some.
  apply mapM_Some in Hx. rewrite encode_bytes_sextets.
  assert (Forall (λ n, 0 <= n < 64) x ∧ enc_char <$> x = List.filter (λ c, negb (is_newline c)) s)
    as [Hb <-].
  { clear Hd. induction Hx as [|c n cs ns Hc Hcs [IH1 IH2]]; [by split; [constructor|]|].
    rewrite fmap_cons.
    apply dec_char_Some in Hc as [? Hc]. split; [by constructor|]. by rewrite Hc, IH2. }
  by rewrite (sextets_decode_sextets x l).
Qed.

Lemma decode_encode l : DecodeString (EncodeToString l) = Some l.
Proof.
  unfold DecodeString, EncodeToString.
  by rewrite bytes_of_string_of_bytes, decode_bytes_encode_bytes.
Qed.

Lemma EncodeToString_inj l1 l2 : EncodeToString l1 = EncodeToString l2 → l1 = l2.
Proof.
  intros H. enough (Some l1 = Some l2) by congruence.
  by rewrite <-(decode_encode l1), H, decode_encode.
Qed.

(** The only canonical spelling: re-encoding a decoded string gives the string
    back exactly when the string is the encoder's output. *)
Lemma decode_canonical s l :
  DecodeString s = Some l ∧ EncodeToString l = s ↔ s = EncodeToString l.
Proof.
  split; [by intros [_ <-]|]. intros ->. split; [apply decode_encode|done].
Qed.

Lemma filter_all {A} (f : A → bool) (l : list A) : Forall (λ x, f x = true) l → List.filter f l = l.
Proof. induction 1 as [|x l Hx _ IH]; [done|]. cbn. by rewrite Hx, IH. Qed.

(** *** Padded standard base64 *)
Lemma std_char_spec n : 0 <= n < 64 →
  url_char (std_char (enc_char n)) = enc_char n ∧ is_newline (std_char (enc_char n)) = false ∧ std_char (enc_char n) ≠ x3d.
Proof.
  intros Hn. assert (Forall (λ n, url_char (std_char (enc_char n)) = enc_char n ∧ is_newline (std_char (enc_char n)) = false ∧
    std_char (enc_char n) ≠ x3d) (seqZ 0 64)) as H by (apply (bool_decide_unpack _); vm_compute; exact I).
  rewrite Forall_forall in H. apply H, elem_of_seqZ. lia.
Qed.

Lemma padding_cons3 a b c l : padding (a :: b :: c :: l) = padding l.
Proof. unfold padding. cbn [length]. replace (Z.of_nat (S (S (S (length l))))) with (Z.of_nat (length l) + 1 * 3) by lia. by rewrite Z.mod_add. Qed.

Lemma padding_app l : ∃ k, padding l = replicate k x3d ∧ (k <= 2)%nat ∧ (Z.of_nat (length (encode_bytes l)) + Z.of_nat k) mod 4 = 0.
Proof.
  induction l as [|a|a b|a b c l IH] using list_ind3; [by exists 0%nat; split_and!; [|lia|]|by exists 2%nat; split_and!; [|lia|]|by exists 1%nat; split_and!; [|lia|]|].
  destruct IH as (k & Hp & Hk & Hm). exists k. rewrite padding_cons3. split_and!; try done. cbn [encode_bytes length].
  replace (Z.of_nat (S (S (S (S (length (encode_bytes l)))))) + Z.of_nat k) with (Z.of_nat (length (encode_bytes l)) + Z.of_nat k + 1 * 4) by lia.
  by rewrite Z.mod_add.
Qed.

Lemma strip_padding_app x k : Forall (λ c, c ≠ x3d) x → (k <= 2)%nat → (0 < length x)%nat ∨ k = 0%nat → strip_padding (x ++ replicate k x3d) = x.
Proof.
  intros Hx Hk Hlen. unfold strip_padding. rewrite rev_app_distr.
  destruct k as [|[|[|k]]]; [| | |lia]; cbn [replicate rev app].
  - rewrite app_nil_r. destruct (rev x) as [|c [|d r]] eqn:E; try done.
    rewrite decide_False; [done|]. rewrite Forall_forall in Hx. apply Hx, list_elem_of_In, in_rev. rewrite E. by left.
  - destruct Hlen as [Hlen|?]; [|done]. destruct (rev x) as [|d r] eqn:E; [apply (f_equal (@rev _)) in E; rewrite rev_involutive in E; subst x; cbn in Hlen; lia|].
    rewrite decide_True by done. rewrite decide_False; [change (rev (d :: r) = x); rewrite <-E; apply rev_involutive|].
    rewrite Forall_forall in Hx. apply Hx, list_elem_of_In, in_rev. rewrite E. by left.
  - rewrite !decide_True by done. apply rev_involutive.
Qed.

Lemma std_decode_encode l : std_decode (std_encode l) = Some l.
Proof.
  pose proof (sextets_bound l) as Hb. destruct (padding_app l) as (k & Hp & Hk & Hm).
  unfold std_decode, std_encode. rewrite Hp.
  assert (∀ s, Forall (λ n, 0 <= n < 64) s → Forall (λ c, is_newline c = false ∧ c ≠ x3d) (std_char <$> (enc_char <$> s)) ∧
    url_char <$> (std_char <$> (enc_char <$> s)) = enc_char <$> s) as Hs.
  { induction 1 as [|n s Hn _ [IH1 IH2]]; [done|]. rewrite !fmap_cons. destruct (std_char_spec n Hn) as (H1 & H2 & H3).
    split; [by constructor|]. by rewrite H1, IH2. }
  destruct (Hs _ Hb) as [Hc Hu]. rewrite <-encode_bytes_sextets in Hc, Hu.
  rewrite filter_all.
  - rewrite length_app, length_fmap, length_replicate, Nat2Z.inj_add, Hm. change (0 =? 0) with true. cbv iota.
    rewrite strip_padding_app; [rewrite Hu; apply decode_bytes_encode_bytes| |done|].
    + eapply Forall_impl; [exact Hc|]. by intros c [_ ?].
    + rewrite length_fmap. destruct l as [|? [|? [|? ?]]]; cbn; try lia. right. destruct k as [|[|[|k]]]; try lia; vm_compute in Hp; discriminate Hp.
  - apply Forall_app. split; [eapply Forall_impl; [exact Hc|]; intros c [-> _]; done|]. apply Forall_replicate. done.
Qed.

Lemma std_canonical s l : StdDecodeString s = Some l ∧ StdEncodeToString l = s ↔ s = StdEncodeToString l.
Proof.
  split; [by intros [_ <-]|]. intros ->. split; [|done]. unfold StdDecodeString, StdEncodeToString.
  by rewrite bytes_of_string_of_bytes, std_decode_encode.
Qed.

Example std_vector :
  StdEncodeToString [xfb; xff; x10; x83] = "+/8Qgw==" ∧ StdDecodeString "+/8Qgw==" = Some [xfb; xff; x10; x83] ∧
  StdDecodeString "+/8Qgw=" = None ∧ StdDecodeString "+/8Qgw" = None ∧ StdDecodeString "-_8Qgw==" = None.
Proof. by vm_compute. Qed.

Example encode_vector :
  EncodeToString [x00; xff; x10; x83] = "AP8Qgw" ∧ DecodeString "AP8Qgw" = Some [x00; xff; x10; x83].
Proof. by vm_compute. Qed.

(** A strict decoder still skips newlines, hence is not injective by itself. *)
Example decode_skips_newline :
  DecodeString (string_of_bytes (bytes_of_string "AP8" ++ [x0a] ++ bytes_of_string "Qgw"))
  = Some [x00; xff; x10; x83].
Proof. by vm_compute. Qed.
