(* ===== verification/Sha2.v ===== *)
(** * SHA-2

    Go's [crypto/sha256] and [crypto/sha512]: the functions [sha256.Sum256],
    [sha512.Sum384] and [sha512.Sum512] on whole messages (FIPS 180-4).  One
    definition of the compression loop serves both word sizes; words are
    integers reduced modulo [2 ^ bits]. *)
From S2P Require Import Prelude.
Set Default Goal Selector "!".
Local Open Scope Z_scope.

(** The parameters that separate the 32-bit and the 64-bit hash functions. *)
Record sha2 := {
  bits : Z;                 (* word size *)
  block : nat;              (* block size in bytes *)
  len_bytes : nat;          (* bytes of the message length at the end of the padding *)
  round_constants : list Z;
  big0 : Z * Z * Z;  big1 : Z * Z * Z;      (* rotations of the round functions *)
  small0 : Z * Z * Z;  small1 : Z * Z * Z;  (* two rotations and a shift of the schedule *)
}.

Section Hash.
Context (P : sha2).

Definition word (z : Z) : Z := z mod 2 ^ bits P.
Definition rotr (n x : Z) : Z := Z.lor (Z.shiftr x n) (word (Z.shiftl x (bits P - n))).
Definition Sigma (r : Z * Z * Z) (x : Z) : Z :=
  let '(a, b, c) := r in Z.lxor (Z.lxor (rotr a x) (rotr b x)) (rotr c x).
Definition sigma (r : Z * Z * Z) (x : Z) : Z :=
  let '(a, b, c) := r in Z.lxor (Z.lxor (rotr a x) (rotr b x)) (Z.shiftr x c).
Definition choose (x y z : Z) : Z := Z.lxor (Z.land x y) (Z.land (Z.lxor x (2 ^ bits P - 1)) z).
Definition majority (x y z : Z) : Z :=
  Z.lxor (Z.lxor (Z.land x y) (Z.land x z)) (Z.land y z).

(** Message padding: 0x80, zeros, and the length in bits. *)
Definition pad (m : list byte) : list byte :=
  let n := length m in
  let zeros := Z.to_nat ((Z.of_nat (block P) - (Z.of_nat (n + 1 + len_bytes P))) mod Z.of_nat (block P)) in
  m ++ [x80] ++ repeat x00 zeros ++ put_be (len_bytes P) (8 * Z.of_nat n).

Fixpoint words (fuel : nat) (l : list byte) : list Z :=
  match fuel, l with
  | S fuel, _ :: _ => be_uint (take (Z.to_nat (bits P / 8)) l) :: words fuel (drop (Z.to_nat (bits P / 8)) l)
  | _, _ => []
  end.

(** The schedule is kept newest word first. *)
Fixpoint extend (n : nat) (w : list Z) : list Z :=
  match n with
  | O => w
  | S n =>
      let x := word (sigma (small1 P) (nth 1 w 0) + nth 6 w 0 + sigma (small0 P) (nth 14 w 0) + nth 15 w 0) in
      extend n (x :: w)
  end.

Definition round (s : list Z) (kw : Z * Z) : list Z :=
  match s with
  | [a; b; c; d; e; f; g; h] =>
      let t1 := h + Sigma (big1 P) e + choose e f g + kw.1 + kw.2 in
      let t2 := Sigma (big0 P) a + majority a b c in
      [word (t1 + t2); a; b; c; word (d + t1); e; f; g]
  | _ => s
  end.

Definition compress (s : list Z) (chunk : list byte) : list Z :=
  let w := rev (extend (length (round_constants P) - 16) (rev (words 16 chunk))) in
  zip_with (λ x y, word (x + y)) s (foldl round s (zip (round_constants P) w)).

Fixpoint blocks (fuel : nat) (s : list Z) (l : list byte) : list Z :=
  match fuel, l with
  | S fuel, _ :: _ => blocks fuel (compress s (take (block P) l)) (drop (block P) l)
  | _, _ => s
  end.

(** The digest before truncation. *)
Definition digest (init : list Z) (m : list byte) : list byte :=
  let p := pad m in
  concat (put_be (Z.to_nat (bits P / 8)) <$> blocks (length p) init p).
End Hash.

(** The constants of FIPS 180-4: the first 64 bits of the fractional parts of
    the cube roots of the first eighty primes, and of the square roots of the
    first eight.  The 32-bit functions use the high halves. *)
Definition cube_roots : list Z := [
  0x428a2f98d728ae22; 0x7137449123ef65cd; 0xb5c0fbcfec4d3b2f; 0xe9b5dba58189dbbc;
  0x3956c25bf348b538; 0x59f111f1b605d019; 0x923f82a4af194f9b; 0xab1c5ed5da6d8118;
  0xd807aa98a3030242; 0x12835b0145706fbe; 0x243185be4ee4b28c; 0x550c7dc3d5ffb4e2;
  0x72be5d74f27b896f; 0x80deb1fe3b1696b1; 0x9bdc06a725c71235; 0xc19bf174cf692694;
  0xe49b69c19ef14ad2; 0xefbe4786384f25e3; 0x0fc19dc68b8cd5b5; 0x240ca1cc77ac9c65;
  0x2de92c6f592b0275; 0x4a7484aa6ea6e483; 0x5cb0a9dcbd41fbd4; 0x76f988da831153b5;
  0x983e5152ee66dfab; 0xa831c66d2db43210; 0xb00327c898fb213f; 0xbf597fc7beef0ee4;
  0xc6e00bf33da88fc2; 0xd5a79147930aa725; 0x06ca6351e003826f; 0x142929670a0e6e70;
  0x27b70a8546d22ffc; 0x2e1b21385c26c926; 0x4d2c6dfc5ac42aed; 0x53380d139d95b3df;
  0x650a73548baf63de; 0x766a0abb3c77b2a8; 0x81c2c92e47edaee6; 0x92722c851482353b;
  0xa2bfe8a14cf10364; 0xa81a664bbc423001; 0xc24b8b70d0f89791; 0xc76c51a30654be30;
  0xd192e819d6ef5218; 0xd69906245565a910; 0xf40e35855771202a; 0x106aa07032bbd1b8;
  0x19a4c116b8d2d0c8; 0x1e376c085141ab53; 0x2748774cdf8eeb99; 0x34b0bcb5e19b48a8;
  0x391c0cb3c5c95a63; 0x4ed8aa4ae3418acb; 0x5b9cca4f7763e373; 0x682e6ff3d6b2b8a3;
  0x748f82ee5defb2fc; 0x78a5636f43172f60; 0x84c87814a1f0ab72; 0x8cc702081a6439ec;
  0x90befffa23631e28; 0xa4506cebde82bde9; 0xbef9a3f7b2c67915; 0xc67178f2e372532b;
  0xca273eceea26619c; 0xd186b8c721c0c207; 0xeada7dd6cde0eb1e; 0xf57d4f7fee6ed178;
  0x06f067aa72176fba; 0x0a637dc5a2c898a6; 0x113f9804bef90dae; 0x1b710b35131c471b;
  0x28db77f523047d84; 0x32caab7b40c72493; 0x3c9ebe0a15c9bebc; 0x431d67c49c100d4c;
  0x4cc5d4becb3e42b6; 0x597f299cfc657e2a; 0x5fcb6fab3ad6faec; 0x6c44198c4a475817].

Definition init384 : list Z := [
  0xcbbb9d5dc1059ed8; 0x629a292a367cd507; 0x9159015a3070dd17; 0x152fecd8f70e5939;
  0x67332667ffc00b31; 0x8eb44a8768581511; 0xdb0c2e0d64f98fa7; 0x47b5481dbefa4fa4].
Definition init512 : list Z := [
  0x6a09e667f3bcc908; 0xbb67ae8584caa73b; 0x3c6ef372fe94f82b; 0xa54ff53a5f1d36f1;
  0x510e527fade682d1; 0x9b05688c2b3e6c1f; 0x1f83d9abfb41bd6b; 0x5be0cd19137e2179].
Definition init256 : list Z := (λ k, Z.shiftr k 32) <$> init512.

Definition sha256_params : sha2 := {|
  bits := 32; block := 64; len_bytes := 8;
  round_constants := (λ k, Z.shiftr k 32) <$> take 64 cube_roots;
  big0 := (2, 13, 22); big1 := (6, 11, 25);
  small0 := (7, 18, 3); small1 := (17, 19, 10);
|}.

Definition sha512_params : sha2 := {|
  bits := 64; block := 128; len_bytes := 16;
  round_constants := cube_roots;
  big0 := (28, 34, 39); big1 := (14, 18, 41);
  small0 := (1, 8, 7); small1 := (19, 61, 6);
|}.

Definition Sum256 (m : list byte) : list byte := digest sha256_params init256 m.
Definition Sum384 (m : list byte) : list byte := take 48 (digest sha512_params init384 m).
Definition Sum512 (m : list byte) : list byte := digest sha512_params init512 m.

(** ** Test vectors *)
Definition hex (l : list byte) : Z := be_uint l.

Example sum256_abc : hex (Sum256 (bytes_of_string "abc")) =
  0xba7816bf8f01cfea414140de5dae2223b00361a396177a9cb410ff61f20015ad.
Proof. by vm_compute. Qed.
Example sum256_long : hex (Sum256 (repeat x61 200)) =
  0xc2a908d98f5df987ade41b5fce213067efbcc21ef2240212a41e54b5e7c28ae5.
Proof. by vm_compute. Qed.
Example sum384_abc : hex (Sum384 (bytes_of_string "abc")) =
  0xcb00753f45a35e8bb5a03d699ac65007272c32ab0eded1631a8b605a43ff5bed8086072ba1e7cc2358baeca134c825a7.
Proof. by vm_compute. Qed.
Example sum512_long : hex (Sum512 (repeat x61 200)) =
  0x4b11459c33f52a22ee8236782714c150a3b2c60994e9acee17fe68947a3e6789f31e7668394592da7bef827cddca88c4e6f86e4df7ed1ae6cba71f3e98faee9f.
Proof. by vm_compute. Qed.

(** ** Digest sizes *)

Lemma length_compress P s chunk :
  length s = 8%nat → length (compress P s chunk) = 8%nat.
Proof.
  intros Hs. unfold compress. rewrite length_zip_with, Hs.
  enough (length (foldl (round P) s (zip (round_constants P)
    (rev (extend P (length (round_constants P) - 16) (rev (words P 16 chunk)))))) = 8%nat) by lia.
  generalize (zip (round_constants P)
    (rev (extend P (length (round_constants P) - 16) (rev (words P 16 chunk))))).
  intros kws. revert s Hs. induction kws as [|kw kws IH]; intros s Hs; [done|].
  cbn [foldl]. apply IH.
  destruct s as [|? [|? [|? [|? [|? [|? [|? [|? [|]]]]]]]]]; try discriminate Hs. done.
Qed.

Lemma length_blocks P fuel s l :
  length s = 8%nat → length (blocks P fuel s l) = 8%nat.
Proof.
  revert s l. induction fuel as [|fuel IH]; intros s [|b l] Hs; try done.
  cbn [blocks]. apply IH. by apply length_compress.
Qed.

Lemma length_digest P init m :
  length init = 8%nat →
  length (digest P init m) = (8 * Z.to_nat (bits P / 8))%nat.
Proof.
  intros Hi. unfold digest.
  rewrite <-(length_blocks P (length (pad P m)) init (pad P m)) by done.
  generalize (blocks P (length (pad P m)) init (pad P m)). intros l.
  induction l as [|x l IH]; [done|]. cbn [fmap list_fmap concat].
  rewrite length_app, length_put_be. cbn [length]. lia.
Qed.

Lemma length_Sum256 m : length (Sum256 m) = 32%nat.
Proof. unfold Sum256. by rewrite length_digest. Qed.
Lemma length_Sum384 m : length (Sum384 m) = 48%nat.
Proof. unfold Sum384. by rewrite length_take, length_digest. Qed.
Lemma length_Sum512 m : length (Sum512 m) = 64%nat.
Proof. unfold Sum512. by rewrite length_digest. Qed.
