(* ===== verification/GoStrings.v ===== *)
(** * Go strings

    The functions of Go's [strings] and [strconv] packages that the library
    calls, on the bytes of a string.  [to_lower] and [trim_space] are exact on
    ASCII; every caller also requires its argument to pass [validDNSName] or to
    be an IP literal, which no string with a byte above 0x7f does. *)
From S2P Require Import Prelude.
Set Default Goal Selector "!".
Local Open Scope Z_scope.

Implicit Types (c : byte) (l : list byte).

Fixpoint has_prefix (p l : list byte) : bool :=
  match p, l with
  | [], _ => true
  | x :: p, y :: l => bool_decide (x = y) && has_prefix p l
  | _, _ => false
  end.
Definition has_suffix (p l : list byte) : bool := has_prefix (rev p) (rev l).

Definition contains_byte c l : bool := existsb (λ x, bool_decide (x = c)) l.
Definition contains_any (cs l : list byte) : bool := existsb (λ x, bool_decide (x ∈ cs)) l.

(** [strings.Cut(l, string(c))] *)
Fixpoint cut c l : option (list byte * list byte) :=
  match l with
  | [] => None
  | x :: l => if decide (x = c) then Some ([], l)
              else '(before, after) ← cut c l; Some (x :: before, after)
  end.

(** [strings.CutLast(l, string(c))] *)
Fixpoint cut_last c l : option (list byte * list byte) :=
  match l with
  | [] => None
  | x :: l => match cut_last c l with
              | Some (before, after) => Some (x :: before, after)
              | None => if decide (x = c) then Some ([], l) else None
              end
  end.

(** [strings.Split(l, string(c))] *)
Fixpoint split c l : list (list byte) :=
  match l with
  | [] => [[]]
  | x :: l => if decide (x = c) then [] :: split c l
              else match split c l with
                   | [] => [[x]]
                   | p :: ps => (x :: p) :: ps
                   end
  end.

Definition in_range (lo hi : Z) c : bool := (lo <=? byte_val c) && (byte_val c <=? hi).
Definition is_digit c : bool := in_range 48 57 c.
Definition is_lower c : bool := in_range 97 122 c.
Definition is_upper c : bool := in_range 65 90 c.

Definition to_lower_byte c : byte := if is_upper c then byte_of_Z (byte_val c + 32) else c.
Definition to_lower l : list byte := to_lower_byte <$> l.

Definition is_space c : bool := in_range 9 13 c || (byte_val c =? 32).
Fixpoint trim_left l : list byte :=
  match l with x :: l' => if is_space x then trim_left l' else l | [] => [] end.
Definition trim_space l : list byte := rev (trim_left (rev (trim_left l))).

(** [bytes.TrimPrefix] *)
Definition trim_prefix (p l : list byte) : list byte :=
  if has_prefix p l then drop (length p) l else l.

(** ** Decimal numbers *)
Definition digits_val l : Z := foldl (λ acc c, acc * 10 + (byte_val c - 48)) 0 l.

Definition max_int : Z := 2 ^ 63 - 1.
Definition min_int : Z := - 2 ^ 63.

(** [strconv.Atoi]; [None] is a syntax or range error. *)
Definition atoi l : option Z :=
  let '(neg, ds) := match l with
    | x :: l' => if decide (x = x2d) then (true, l') else if decide (x = x2b) then (false, l') else (false, l)
    | [] => (false, [])
    end in
  if bool_decide (ds = []) || negb (forallb is_digit ds) then None
  else let v := if neg : bool then - digits_val ds else digits_val ds in
       if (min_int <=? v) && (v <=? max_int) then Some v else None.

Fixpoint nat_digits (fuel : nat) (z : Z) (acc : list byte) : list byte :=
  match fuel with
  | O => acc
  | S fuel =>
      let acc := byte_of_Z (48 + z mod 10) :: acc in
      if z <? 10 then acc else nat_digits fuel (z / 10) acc
  end.

(** [strconv.Itoa]; 20 digits are enough for a 64-bit integer. *)
Definition itoa (z : Z) : list byte :=
  if z <? 0 then x2d :: nat_digits 20 (- z) [] else nat_digits 20 z [].

(** ** Specifications *)

Lemma has_prefix_spec p l : has_prefix p l = true ↔ ∃ k, l = p ++ k.
Proof.
  revert l. induction p as [|x p IH]; intros l; simpl; [naive_solver|].
  destruct l as [|y l]; simpl.
  - split; [done|]. by intros [k Hk].
  - rewrite andb_true_iff, bool_decide_eq_true, IH. naive_solver.
Qed.

Lemma has_suffix_spec p l : has_suffix p l = true ↔ ∃ k, l = k ++ p.
Proof.
  unfold has_suffix. rewrite has_prefix_spec. split.
  - intros [k Hk]. exists (rev k).
    rewrite <-(rev_involutive l), Hk, rev_app_distr, rev_involutive. done.
  - intros [k ->]. exists (rev k). by rewrite rev_app_distr.
Qed.

Lemma contains_byte_spec c l : contains_byte c l = true ↔ c ∈ l.
Proof.
  unfold contains_byte. rewrite existsb_exists, list_elem_of_In.
  setoid_rewrite bool_decide_eq_true. naive_solver.
Qed.

Lemma cut_Some c l before after :
  cut c l = Some (before, after) ↔ l = before ++ c :: after ∧ c ∉ before.
Proof.
  revert before. induction l as [|x l IH]; intros before; simpl.
  - split; [done|]. intros [H _]. by destruct before.
  - destruct (decide (x = c)) as [->|Hne].
    + split; [intros [= <- <-]; split; [done|apply not_elem_of_nil]|].
      intros [H Hn]. destruct before as [|y before]; simplify_eq/=; [done|].
      exfalso. apply Hn, list_elem_of_here.
    + rewrite bind_Some. split.
      * intros ([b a] & Hc & [= <- <-]). apply IH in Hc as [-> Hb]. split; [done|].
        rewrite not_elem_of_cons. split; [congruence|done].
      * intros [H Hn]. destruct before as [|y before]; simplify_eq/=.
        exists (before, after). rewrite not_elem_of_cons in Hn. split; [|done].
        apply IH. naive_solver.
Qed.

Lemma cut_None c l : cut c l = None ↔ c ∉ l.
Proof.
  induction l as [|x l IH]; simpl; [split; [intros _; apply not_elem_of_nil|done]|].
  rewrite not_elem_of_cons. destruct (decide (x = c)) as [->|]; [naive_solver|].
  destruct (cut c l) as [[]|]; simpl; naive_solver.
Qed.

Lemma cut_last_None c l : cut_last c l = None ↔ c ∉ l.
Proof.
  induction l as [|x l IH]; simpl; [split; [intros _; apply not_elem_of_nil|done]|].
  rewrite not_elem_of_cons. destruct (cut_last c l) as [[]|]; [naive_solver|].
  destruct (decide (x = c)); naive_solver.
Qed.

Lemma cut_last_Some c l before after :
  cut_last c l = Some (before, after) → l = before ++ c :: after ∧ c ∉ after.
Proof.
  revert before. induction l as [|x l IH]; intros before; simpl; [done|].
  destruct (cut_last c l) as [[b a]|] eqn:E; intros H; simplify_eq.
  - destruct (IH b eq_refl) as [-> Hn]. done.
  - apply cut_last_None in E. destruct (decide (x = c)); by simplify_eq.
Qed.

(** [strings.Join(parts, string(c))] *)
Fixpoint join c (ps : list (list byte)) : list byte :=
  match ps with
  | [] => []
  | [p] => p
  | p :: ps => p ++ c :: join c ps
  end.

Lemma split_not_nil c l : split c l ≠ [].
Proof.
  destruct l as [|x l]; simpl; [done|].
  destruct (decide (x = c)); [done|]. by destruct (split c l).
Qed.

Lemma split_spec c l : join c (split c l) = l ∧ Forall (λ p, c ∉ p) (split c l).
Proof.
  induction l as [|x l [IHj IHf]]; simpl.
  - split; [done|]. by repeat constructor; apply not_elem_of_nil.
  - pose proof (split_not_nil c l) as Hn. destruct (decide (x = c)) as [->|].
    + split; [|by constructor; [apply not_elem_of_nil|]].
      destruct (split c l) as [|p ps]; [done|]. simpl in *. by rewrite IHj.
    + destruct (split c l) as [|p ps]; [done|]. apply Forall_cons in IHf as [Hp Hps].
      split.
      * destruct ps; simpl in *; congruence.
      * constructor; [|done]. by rewrite not_elem_of_cons.
Qed.

Lemma split_cons_prefix c p l : c ∉ p → split c (p ++ c :: l) = p :: split c l.
Proof.
  induction p as [|x p IH]; intros Hn; simpl; [by rewrite decide_True|].
  apply not_elem_of_cons in Hn as [Hx Hp]. rewrite decide_False by done. by rewrite IH.
Qed.

Example itoa_vectors :
  itoa 8080 = bytes_of_string "8080" ∧ itoa 0 = bytes_of_string "0" ∧ itoa (-12) = bytes_of_string "-12"
  ∧ atoi (bytes_of_string "+443") = Some 443 ∧ atoi (bytes_of_string "44x") = None.
Proof. by vm_compute. Qed.

Lemma cut_last_app c a b : c ∉ b → cut_last c (a ++ c :: b) = Some (a, b).
Proof.
  intros Hb. induction a as [|x a IH]; simpl; [|by rewrite IH].
  by rewrite (proj2 (cut_last_None c b)), decide_True.
Qed.

(** ** Printing and reading decimal numbers *)

Lemma digits_val_snoc l c : digits_val (l ++ [c]) = digits_val l * 10 + (byte_val c - 48).
Proof. unfold digits_val. by rewrite foldl_app. Qed.

Lemma digit_char z : 0 <= z < 10 →
  is_digit (byte_of_Z (48 + z)) = true ∧ byte_val (byte_of_Z (48 + z)) = 48 + z.
Proof.
  intros Hz. unfold is_digit, in_range. rewrite byte_val_of, Z.mod_small by lia.
  rewrite andb_true_iff, !Z.leb_le. lia.
Qed.

Lemma nat_digits_spec fuel z acc :
  0 <= z < 10 ^ Z.of_nat fuel → (0 < fuel)%nat →
  ∃ ds, nat_digits fuel z acc = ds ++ acc ∧ ds ≠ [] ∧
        Forall (λ c, is_digit c = true) ds ∧ digits_val ds = z.
Proof.
  revert z acc. induction fuel as [|fuel IH]; intros z acc Hz Hf; [lia|]. cbn [nat_digits].
  pose proof (Z.mod_pos_bound z 10 ltac:(lia)) as Hm. destruct (digit_char _ Hm) as [Hd Hv].
  destruct (Z.ltb_spec z 10) as [Hlt|Hge].
  - exists [byte_of_Z (48 + z mod 10)]. split_and!; [done|done|by constructor|].
    unfold digits_val. cbn [foldl]. rewrite Hv, Z.mod_small by lia. lia.
  - rewrite Nat2Z.inj_succ, Z.pow_succ_r in Hz by lia.
    assert (fuel ≠ 0%nat) by (intros ->; cbn in Hz; lia).
    destruct (IH (z / 10) (byte_of_Z (48 + z mod 10) :: acc)) as (ds & -> & Hne & Hds & Hval).
    + split; [apply Z.div_pos; lia|]. apply Z.div_lt_upper_bound; lia.
    + lia.
    + exists (ds ++ [byte_of_Z (48 + z mod 10)]). rewrite <-app_assoc. split_and!; [done| | |].
      * by destruct ds.
      * apply Forall_app. split; [done|]. by constructor.
      * rewrite digits_val_snoc, Hval, Hv. rewrite (Z.div_mod z 10) at 3 by lia. lia.
Qed.

Lemma itoa_digits z : 0 <= z <= max_int →
  itoa z ≠ [] ∧ Forall (λ c, is_digit c = true) (itoa z) ∧ digits_val (itoa z) = z.
Proof.
  intros Hz. unfold itoa. rewrite (proj2 (Z.ltb_ge _ _)) by lia.
  destruct (nat_digits_spec 20 z []) as (ds & -> & ? & ? & ?); [|lia|by rewrite app_nil_r].
  split; [lia|]. transitivity (2 ^ 63); [unfold max_int in Hz; lia|reflexivity].
Qed.

Lemma atoi_itoa z : 0 <= z <= max_int → atoi (itoa z) = Some z.
Proof.
  intros Hz. destruct (itoa_digits z Hz) as (Hne & Hd & Hv). unfold atoi.
  destruct (itoa z) as [|c l]; [done|]. pose proof (Forall_inv Hd) as Hc.
  rewrite !decide_False by (by intros ->).
  rewrite bool_decide_eq_false_2 by done. cbn [orb].
  assert (forallb is_digit (c :: l) = true) as ->.
  { apply forallb_forall. intros x Hx%list_elem_of_In. rewrite Forall_forall in Hd. by apply Hd. }
  cbn [negb]. rewrite Hv. unfold min_int, max_int in *. rewrite !(proj2 (Z.leb_le _ _)) by lia. done.
Qed.
