(* ===== verification/NetUrl.v ===== *)
(** * URLs and IP addresses

    The parts of Go's [net/url], [net] and [net/netip] that origin validation
    uses, with the behaviour of Go 1.26 and later (bracketed hosts only at the
    start of the authority, at most one colon in an unbracketed host):
    [url.Parse], the fields of [url.URL] that are read, [URL.Hostname],
    [URL.String] for URLs with a scheme and a host only, [net.ParseIP],
    [IP.String] and [IP.IsLoopback].  All functions work on the bytes of the
    Go strings. *)
From S2P Require Import Prelude GoStrings.
Set Default Goal Selector "!".
Local Open Scope Z_scope.

Implicit Types (c : byte) (l : list byte).

(** ** IP addresses *)
Module IP.

(** A 4-byte or an 8-group address; [net.ParseIP] returns both in 16 bytes and
    [To4] recovers the first. *)
Inductive addr := V4 (octets : list Z) | V6 (groups : list Z).

(** A decimal octet without leading zeros. *)
Definition octet l : option Z :=
  if bool_decide (l = []) || negb (forallb is_digit l) || (3 <? Z.of_nat (length l))
     || (bool_decide (hd x00 l = x30) && (1 <? Z.of_nat (length l)))
  then None
  else let v := digits_val l in if v <=? 255 then Some v else None.

Definition parse_v4 l : option (list Z) :=
  os ← mapM octet (split x2e l);
  if decide (length os = 4%nat) then Some os else None.

Definition hex_val c : option Z :=
  let v := byte_val c in
  if is_digit c then Some (v - 48)
  else if in_range 97 102 c then Some (v - 87)
  else if in_range 65 70 c then Some (v - 55)
  else None.

(** The longest prefix of hexadecimal digits, with its value; a fifth digit is
    an error. *)
Fixpoint hex_prefix (fuel : nat) (n : Z) (acc : Z) l : option (Z * Z * list byte) :=
  match fuel, l with
  | S fuel, c :: l' =>
      match hex_val c with
      | Some v => if 3 <? n then None else hex_prefix fuel (n + 1) (acc * 16 + v) l'
      | None => Some (n, acc, l)
      end
  | _, _ => Some (n, acc, l)
  end.

(** The loop of [netip.parseIPv6]: [ip] collects groups in reverse order and
    [ell] is the number of groups before the ellipsis. *)
Fixpoint parse_v6_loop (fuel : nat) (ip : list Z) (ell : option nat) l
  : option (list Z * option nat * list byte) :=
  if (8 <=? length ip)%nat then Some (ip, ell, l) else
  match fuel with
  | O => None
  | S fuel =>
      '(n, acc, rest) ← hex_prefix (S (length l)) 0 0 l;
      if n =? 0 then None else
      match rest with
      | c :: _ =>
          if decide (c = x2e) then
            (* embedded IPv4, only as the last two groups *)
            if bool_decide (ell = None) && negb (Nat.eqb (length ip) 6) then None
            else if (6 <? length ip)%nat then None
            else match parse_v4 l with
                 | Some [a; b; c; d] => Some (c * 256 + d :: a * 256 + b :: ip, ell, [])
                 | _ => None
                 end
          else if decide (c = x3a) then
            let ip := acc :: ip in
            match rest with
            | [_] => None
            | _ :: c2 :: rest2 =>
                if decide (c2 = x3a) then
                  match ell with
                  | Some _ => None
                  | None =>
                      match rest2 with
                      | [] => Some (ip, Some (length ip), [])
                      | _ => parse_v6_loop fuel ip (Some (length ip)) rest2
                      end
                  end
                else parse_v6_loop fuel ip ell (c2 :: rest2)
            | [] => None
            end
          else None
      | [] => Some (acc :: ip, ell, [])
      end
  end.

Definition parse_v6 l : option (list Z) :=
  let '(ell, l') := match l with
    | a :: b :: r => if bool_decide (a = x3a) && bool_decide (b = x3a) then (Some 0%nat, r) else (None, l)
    | _ => (None, l)
    end in
  if bool_decide (ell = Some 0%nat) && bool_decide (l' = []) then Some (repeat 0 8) else
  '(ip, ell, rest) ← parse_v6_loop 9 [] ell l';
  if negb (bool_decide (rest = [])) then None else
  let ip := rev ip in
  match ell with
  | None => if Nat.eqb (length ip) 8 then Some ip else None
  | Some k => if (length ip <? 8)%nat
              then Some (take k ip ++ repeat 0 (8 - length ip) ++ drop k ip)
              else None
  end.

(** [net.ParseIP]: the first of '.', ':' and '%' selects the syntax; a zone is
    refused. *)
Fixpoint first_sep l : option byte :=
  match l with
  | [] => None
  | c :: l => if bool_decide (c ∈ [x2e; x3a; x25]) then Some c else first_sep l
  end.

Definition ParseIP l : option addr :=
  match first_sep l with
  | Some c =>
      if decide (c = x2e) then V4 <$> parse_v4 l
      else if decide (c = x3a) then if contains_byte x25 l then None else V6 <$> parse_v6 l
      else None
  | None => None
  end.

(** [ip.To4] sees through the IPv4-mapped range. *)
Definition to4 (a : addr) : option (list Z) :=
  match a with
  | V4 os => Some os
  | V6 [0; 0; 0; 0; 0; 65535; a; b] => Some [a / 256; a mod 256; b / 256; b mod 256]
  | V6 _ => None
  end.

Definition v4_string (os : list Z) : list byte := join x2e (itoa <$> os).

Definition hex_digit (z : Z) : byte := byte_of_Z (if z <? 10 then 48 + z else 87 + z).
Definition hex_group (z : Z) : list byte :=
  if z <? 16 then [hex_digit z]
  else if z <? 256 then [hex_digit (z / 16); hex_digit (z mod 16)]
  else if z <? 4096 then [hex_digit (z / 256); hex_digit (z / 16 mod 16); hex_digit (z mod 16)]
  else [hex_digit (z / 4096); hex_digit (z / 256 mod 16); hex_digit (z / 16 mod 16); hex_digit (z mod 16)].

Fixpoint zero_run (l : list Z) : nat :=
  match l with 0 :: l => S (zero_run l) | _ => 0%nat end.

(** Start and length of the first longest run of at least two zero groups. *)
Fixpoint longest_run (i : nat) (l : list Z) (best : nat * nat) : nat * nat :=
  match l with
  | [] => best
  | _ :: tl => let n := zero_run l in
               longest_run (S i) tl (if (2 <=? n)%nat && (best.2 <? n)%nat then (i, n) else best)
  end.

Definition v6_string (g : list Z) : list byte :=
  let '(start, n) := longest_run 0 g (0%nat, 0%nat) in
  if (n =? 0)%nat then join x3a (hex_group <$> g)
  else join x3a (hex_group <$> take start g) ++ [x3a; x3a] ++ join x3a (hex_group <$> drop (start + n) g).

(** [IP.String] *)
Definition String (a : addr) : list byte :=
  match to4 a, a with
  | Some os, _ => v4_string os
  | None, V6 g => v6_string g
  | None, V4 os => v4_string os
  end.

(** [IP.IsLoopback] *)
Definition IsLoopback (a : addr) : bool :=
  match to4 a, a with
  | Some os, _ => hd 0 os =? 127
  | None, V6 g => bool_decide (g = [0; 0; 0; 0; 0; 0; 0; 1])
  | None, V4 _ => false
  end.

Example ip_vectors :
  ParseIP (bytes_of_string "127.0.0.1") = Some (V4 [127; 0; 0; 1])
  ∧ ParseIP (bytes_of_string "127.0.0.01") = None
  ∧ String <$> ParseIP (bytes_of_string "2001:DB8:0:0:1:0:0:1") = Some (bytes_of_string "2001:db8::1:0:0:1")
  ∧ String <$> ParseIP (bytes_of_string "::1") = Some (bytes_of_string "::1")
  ∧ String <$> ParseIP (bytes_of_string "::ffff:1.2.3.4") = Some (bytes_of_string "1.2.3.4")
  ∧ String <$> ParseIP (bytes_of_string "::") = Some (bytes_of_string "::")
  ∧ String <$> ParseIP (bytes_of_string "1::") = Some (bytes_of_string "1::")
  ∧ ParseIP (bytes_of_string "1:2:3:4:5:6:7") = None ∧ ParseIP (bytes_of_string "1::2::3") = None
  ∧ ParseIP (bytes_of_string "fe80::1%eth0") = None ∧ ParseIP (bytes_of_string "example.org") = None.
Proof. by vm_compute. Qed.
End IP.

(** ** URLs *)

Record URL := {
  Scheme : list byte;
  Opaque : list byte;
  User : bool;             (* [parsed.User != nil] *)
  Host : list byte;
  Path : list byte;
  ForceQuery : bool;
  RawQuery : list byte;
  Fragment : list byte;
}.

Inductive mode := encodePath | encodeHost | encodeZone | encodeFragment.

Definition is_alnum c : bool := is_lower c || is_upper c || is_digit c.

(** [shouldEscape] for the host modes. *)
Definition host_safe c : bool :=
  is_alnum c || bool_decide (c ∈ bytes_of_string "!$&'()*+,;=:[]<>-_.~") || bool_decide (c = x22).

(** [unescape]: percent decoding, refusing what the mode does not allow. *)
Fixpoint unescape (m : mode) l : option (list byte) :=
  match l with
  | [] => Some []
  | c :: rest =>
      if decide (c = x25) then
        match rest with
        | h1 :: h2 :: rest' =>
            match IP.hex_val h1, IP.hex_val h2 with
            | Some v1, Some v2 =>
                let v := v1 * 16 + v2 in
                let refused := match m with
                  | encodeHost => (v1 <? 8) && negb (v =? 37)
                  | encodeZone => negb (v =? 37) && negb (v =? 32) && (v <? 128) && negb (host_safe (byte_of_Z v))
                  | _ => false
                  end in
                if refused : bool then None
                else tail ← unescape m rest'; Some (byte_of_Z v :: tail)
            | _, _ => None
            end
        | _ => None
        end
      else
        match m with
        | encodeHost | encodeZone =>
            if (byte_val c <? 128) && negb (host_safe c) then None
            else tail ← unescape m rest; Some (c :: tail)
        | _ => tail ← unescape m rest; Some (c :: tail)
        end
  end.

(** [escape(h, encodeHost)] *)
Definition hex_upper (z : Z) : byte := byte_of_Z (if z <? 10 then 48 + z else 55 + z).
Fixpoint escape_host l : list byte :=
  match l with
  | [] => []
  | c :: l => (if host_safe c then [c] else [x25; hex_upper (byte_val c / 16); hex_upper (byte_val c mod 16)])
              ++ escape_host l
  end.

(** A colon followed by digits, or nothing. *)
Definition validOptionalPort l : bool :=
  match l with
  | [] => true
  | c :: l => bool_decide (c = x3a) && forallb is_digit l
  end.

(** [getScheme]: [None] is an error; otherwise scheme and rest. *)
Fixpoint scheme_prefix (acc l : list byte) (whole : list byte) : option (list byte * list byte) :=
  match l with
  | [] => Some ([], whole)
  | c :: l =>
      if is_lower c || is_upper c then scheme_prefix (c :: acc) l whole
      else if is_digit c || bool_decide (c ∈ bytes_of_string "+-.") then
        if bool_decide (acc = []) then Some ([], whole) else scheme_prefix (c :: acc) l whole
      else if decide (c = x3a) then
        if bool_decide (acc = []) then None else Some (rev acc, l)
      else Some ([], whole)
  end.
Definition getScheme l : option (list byte * list byte) := scheme_prefix [] l l.

(** [strings.Index(l, "%25")] splits off a zone. *)
Fixpoint cut_zone l : option (list byte * list byte) :=
  if has_prefix [x25; x32; x35] l then Some ([], l)
  else match l with
       | [] => None
       | c :: l => '(a, b) ← cut_zone l; Some (c :: a, b)
       end.

Definition parseHost l : option (list byte) :=
  match cut_last x5b l with
  | Some (_ :: _, _) => None
  | Some ([], inner) =>
      '(hostname, colonPort) ← cut_last x5d inner;
      if negb (validOptionalPort colonPort) then None else
      port ← unescape encodeHost colonPort;
      name ← match cut_zone hostname with
             | Some (h, z) => h' ← unescape encodeHost h; z' ← unescape encodeZone z; Some (h' ++ z')
             | None => unescape encodeHost hostname
             end;
      let literal := match cut x25 name with Some (a, _) => a | None => name end in
      match IP.ParseIP literal with
      | Some (IP.V6 _) => Some ([x5b] ++ name ++ [x5d] ++ port)
      | _ => None
      end
  | None =>
      match cut x3a l with
      | Some (_, rest) => if contains_byte x3a rest || negb (forallb is_digit rest) then None
                          else unescape encodeHost l
      | None => unescape encodeHost l
      end
  end.

(** User information is present or the authority is refused; both exclude an
    origin, and its contents are not read. *)
Definition parseAuthority l : option (bool * list byte) :=
  match cut_last x40 l with
  | None => host ← parseHost l; Some (false, host)
  | Some (_, rest) => host ← parseHost rest; Some (true, host)
  end.

Definition is_ctl c : bool := (byte_val c <? 32) || (byte_val c =? 127).

Definition parse_nofrag l : option URL :=
  if existsb is_ctl l then None else
  if bool_decide (l = [x2a]) then
    Some {| Scheme := []; Opaque := []; User := false; Host := []; Path := [x2a];
            ForceQuery := false; RawQuery := []; Fragment := [] |} else
  '(scheme, rest) ← getScheme l;
  let scheme := to_lower scheme in
  let '(force, rest, query) := match cut x3f rest with
    | Some (before, []) => (true, before, [])
    | Some (before, q) => (false, before, q)
    | None => (false, rest, [])
    end in
  if negb (has_prefix [x2f] rest) && negb (bool_decide (scheme = [])) then
    Some {| Scheme := scheme; Opaque := rest; User := false; Host := []; Path := [];
            ForceQuery := force; RawQuery := query; Fragment := [] |} else
  if negb (has_prefix [x2f] rest)
     && contains_byte x3a (match cut x2f rest with Some (seg, _) => seg | None => rest end)
  then None else
  '(user, host, path) ←
    (if (negb (bool_decide (scheme = [])) || negb (has_prefix [x2f; x2f; x2f] rest))
        && has_prefix [x2f; x2f] rest then
       let authority := drop 2 rest in
       let '(authority, path) := match cut x2f authority with
         | Some (a, b) => (a, x2f :: b)
         | None => (authority, [])
         end in
       '(user, host) ← parseAuthority authority; Some (user, host, path)
     else Some (false, [], rest));
  path ← unescape encodePath path;
  Some {| Scheme := scheme; Opaque := []; User := user; Host := host; Path := path;
          ForceQuery := force; RawQuery := query; Fragment := [] |}.

(** [url.Parse] *)
Definition Parse l : option URL :=
  match cut x23 l with
  | None => parse_nofrag l
  | Some (before, frag) =>
      u ← parse_nofrag before;
      f ← unescape encodeFragment frag;
      Some {| Scheme := Scheme u; Opaque := Opaque u; User := User u; Host := Host u;
              Path := Path u; ForceQuery := ForceQuery u; RawQuery := RawQuery u; Fragment := f |}
  end.

(** [URL.Hostname]: strips a valid port, then square brackets. *)
Definition strip_port l : list byte :=
  match cut_last x3a l with
  | Some (h, p) => if validOptionalPort (x3a :: p) then h else l
  | None => l
  end.
Definition strip_brackets l : list byte :=
  if has_prefix [x5b] l && has_suffix [x5d] l then removelast (tl l) else l.
Definition Hostname (u : URL) : list byte := strip_brackets (strip_port (Host u)).

(** [URL.String] of a URL whose opaque part, user information, path, query and
    fragment are empty and whose scheme and host are not. *)
Definition origin_string (u : URL) : list byte :=
  Scheme u ++ [x3a; x2f; x2f] ++ escape_host (Host u) ++ (if ForceQuery u then [x3f] else []).

Example url_vectors :
  (Hostname <$> Parse (bytes_of_string "https://login.example.org:8443") = Some (bytes_of_string "login.example.org"))
  ∧ (Hostname <$> Parse (bytes_of_string "http://[::1]:8080") = Some (bytes_of_string "::1"))
  ∧ (Parse (bytes_of_string "https://exa mple.org") = None)
  ∧ (User <$> Parse (bytes_of_string "https://me@example.org") = Some true)
  ∧ (origin_string <$> Parse (bytes_of_string "https://example.org?") = Some (bytes_of_string "https://example.org?"))
  ∧ (Path <$> Parse (bytes_of_string "https://example.org/") = Some (bytes_of_string "/")).
Proof. by vm_compute. Qed.
