(* ===== verification/Json.v ===== *)
(** * JSON text

    The reader of Go's [encoding/json/jsontext] as [encoding/json/v2] uses it by
    default: UTF-8 is validated, object names are unique after unescaping,
    unpaired surrogate escapes are refused, nesting is limited to 10000 levels,
    and a text is one value surrounded by whitespace.  [parse] returns the value
    tree; [None] is a syntactic error.  Fuel bounds the number of calls: one
    value, member or element consumes at least one byte, so twice the length of
    the text and a little more is enough ([parse_enough_fuel]). *)
From S2P Require Import Prelude GoStrings.
Set Default Goal Selector "!".
Local Open Scope Z_scope.

Implicit Types (c : byte) (l : list byte).

Inductive json : Type :=
| JNull
| JBool (b : bool)
| JNumber (raw : list byte)
| JString (s : list byte)
| JArray (elements : list json)
| JObject (members : list (list byte * json)).

(** ** Whitespace and literals *)
Definition is_ws c : bool := bool_decide (c ∈ [x20; x09; x0a; x0d]).

Fixpoint skip_ws l : list byte :=
  match l with c :: l' => if is_ws c then skip_ws l' else l | [] => [] end.

(** ** UTF-8 *)
Definition is_cont c : bool := in_range 128 191 c.

(** The length of the valid multi-byte sequence at the start, if any. *)
Definition utf8_seq l : option nat :=
  match l with
  | a :: b :: rest =>
      if in_range 194 223 a && is_cont b then Some 2%nat
      else match rest with
      | c :: rest =>
          if in_range 224 239 a && is_cont c
             && in_range (if byte_val a =? 224 then 160 else 128) (if byte_val a =? 237 then 159 else 191) b
          then Some 3%nat
          else match rest with
          | d :: _ =>
              if in_range 240 244 a && is_cont c && is_cont d
                 && in_range (if byte_val a =? 240 then 144 else 128) (if byte_val a =? 244 then 143 else 191) b
              then Some 4%nat else None
          | [] => None
          end
      | [] => None
      end
  | _ => None
  end.

(** [utf8.ValidString] *)
Fixpoint utf8_valid (fuel : nat) (l : list byte) : bool :=
  match fuel, l with
  | _, [] => true
  | O, _ => false
  | S fuel, c :: rest =>
      if byte_val c <? 128 then utf8_valid fuel rest
      else match utf8_seq l with Some n => utf8_valid fuel (drop n l) | None => false end
  end.
Definition utf8_ValidString (s : string) : bool := utf8_valid (String.length s) (bytes_of_string s).

Definition encode_rune (r : Z) : list byte :=
  if r <? 128 then [byte_of_Z r]
  else if r <? 2048 then [byte_of_Z (192 + r / 64); byte_of_Z (128 + r mod 64)]
  else if r <? 65536 then
    [byte_of_Z (224 + r / 4096); byte_of_Z (128 + r / 64 mod 64); byte_of_Z (128 + r mod 64)]
  else [byte_of_Z (240 + r / 262144); byte_of_Z (128 + r / 4096 mod 64);
        byte_of_Z (128 + r / 64 mod 64); byte_of_Z (128 + r mod 64)].

Definition hex_val c : option Z :=
  let v := byte_val c in
  if is_digit c then Some (v - 48)
  else if in_range 97 102 c then Some (v - 87)
  else if in_range 65 70 c then Some (v - 55)
  else None.

Definition hex4 (a b c d : byte) : option Z :=
  a ← hex_val a; b ← hex_val b; c ← hex_val c; d ← hex_val d;
  Some (a * 4096 + b * 256 + c * 16 + d).

(** ** Strings: the input starts after the opening quote *)
Definition simple_escape c : option byte :=
  if decide (c = x22) then Some x22 else if decide (c = x5c) then Some x5c
  else if decide (c = x2f) then Some x2f else if decide (c = x62) then Some x08
  else if decide (c = x66) then Some x0c else if decide (c = x6e) then Some x0a
  else if decide (c = x72) then Some x0d else if decide (c = x74) then Some x09 else None.

Definition push (r : list byte) (o : option (list byte * list byte)) : option (list byte * list byte) :=
  '(s, rest) ← o; Some (r ++ s, rest).

Fixpoint parse_string l : option (list byte * list byte) :=
  match l with
  | [] => None
  | c :: l1 =>
      if decide (c = x22) then Some ([], l1)
      else if decide (c = x5c) then
        match l1 with
        | e :: l2 =>
            if decide (e = x75) then
              match l2 with
              | h1 :: h2 :: h3 :: h4 :: l3 =>
                  match hex4 h1 h2 h3 h4 with
                  | None => None
                  | Some r =>
                      if (55296 <=? r) && (r <=? 56319) then
                        match l3 with
                        | b :: u :: g1 :: g2 :: g3 :: g4 :: l4 =>
                            match hex4 g1 g2 g3 g4 with
                            | Some r2 =>
                                if bool_decide (b = x5c) && bool_decide (u = x75)
                                   && (56320 <=? r2) && (r2 <=? 57343)
                                then push (encode_rune (65536 + (r - 55296) * 1024 + (r2 - 56320))) (parse_string l4)
                                else None
                            | None => None
                            end
                        | _ => None
                        end
                      else if (56320 <=? r) && (r <=? 57343) then None
                      else push (encode_rune r) (parse_string l3)
                  end
              | _ => None
              end
            else match simple_escape e with
                 | Some r => push [r] (parse_string l2)
                 | None => None
                 end
        | [] => None
        end
      else if byte_val c <? 32 then None
      else if byte_val c <? 128 then push [c] (parse_string l1)
      else match utf8_seq l, l1 with
           | Some 2%nat, b :: l2 => push [c; b] (parse_string l2)
           | Some 3%nat, b :: d :: l3 => push [c; b; d] (parse_string l3)
           | Some 4%nat, b :: d :: e :: l4 => push [c; b; d; e] (parse_string l4)
           | _, _ => None
           end
  end.

(** ** Numbers *)
Fixpoint take_digits l : list byte * list byte :=
  match l with
  | c :: l' => if is_digit c then let '(d, r) := take_digits l' in (c :: d, r) else ([], l)
  | [] => ([], [])
  end.

Definition parse_exponent l : option (list byte * list byte) :=
  match l with
  | e :: l1 =>
      if bool_decide (e ∈ [x65; x45]) then
        let '(sign, l2) := match l1 with
          | s :: l2 => if bool_decide (s ∈ [x2b; x2d]) then ([s], l2) else ([], l1)
          | [] => ([], []) end in
        let '(ds, rest) := take_digits l2 in
        if bool_decide (ds = []) then None else Some (e :: sign ++ ds, rest)
      else Some ([], l)
  | [] => Some ([], [])
  end.

Definition parse_fraction l : option (list byte * list byte) :=
  match l with
  | d :: l1 =>
      if decide (d = x2e) then
        let '(ds, rest) := take_digits l1 in
        if bool_decide (ds = []) then None else Some (d :: ds, rest)
      else Some ([], l)
  | [] => Some ([], [])
  end.

Definition parse_number l : option (list byte * list byte) :=
  let '(sign, l1) := match l with
    | s :: l1 => if decide (s = x2d) then ([s], l1) else ([], l)
    | [] => ([], []) end in
  '(int, l2) ← match l1 with
    | z :: l2 => if decide (z = x30) then Some ([z], l2)
                 else let '(ds, r) := take_digits l1 in
                      if bool_decide (ds = []) then None else Some (ds, r)
    | [] => None end;
  '(frac, l3) ← parse_fraction l2;
  '(exp, l4) ← parse_exponent l3;
  Some (sign ++ int ++ frac ++ exp, l4).

(** ** Values *)
Definition max_depth : nat := Z.to_nat 10000.

Fixpoint parse_value (fuel depth : nat) l : option (json * list byte) :=
  match fuel with
  | O => None
  | S fuel =>
      match skip_ws l with
      | [] => None
      | c :: l1 =>
          if decide (c = x7b) then
            match depth with
            | O => None
            | S depth =>
                match skip_ws l1 with
                | [] => None
                | d :: l2 =>
                    if decide (d = x7d) then Some (JObject [], l2)
                    else parse_members fuel depth [] (d :: l2)
                end
            end
          else if decide (c = x5b) then
            match depth with
            | O => None
            | S depth =>
                match skip_ws l1 with
                | [] => None
                | d :: l2 =>
                    if decide (d = x5d) then Some (JArray [], l2)
                    else parse_elements fuel depth [] (d :: l2)
                end
            end
          else if decide (c = x22) then '(s, rest) ← parse_string l1; Some (JString s, rest)
          else if has_prefix (bytes_of_string "null") (c :: l1) then Some (JNull, drop 4 (c :: l1))
          else if has_prefix (bytes_of_string "true") (c :: l1) then Some (JBool true, drop 4 (c :: l1))
          else if has_prefix (bytes_of_string "false") (c :: l1) then Some (JBool false, drop 5 (c :: l1))
          else '(n, rest) ← parse_number (c :: l1); Some (JNumber n, rest)
      end
  end
with parse_elements (fuel depth : nat) (acc : list json) l : option (json * list byte) :=
  match fuel with
  | O => None
  | S fuel =>
      '(v, l1) ← parse_value fuel depth l;
      match skip_ws l1 with
      | [] => None
      | c :: l2 =>
          if decide (c = x2c) then parse_elements fuel depth (acc ++ [v]) l2
          else if decide (c = x5d) then Some (JArray (acc ++ [v]), l2)
          else None
      end
  end
with parse_members (fuel depth : nat) (acc : list (list byte * json)) l : option (json * list byte) :=
  match fuel with
  | O => None
  | S fuel =>
      match skip_ws l with
      | [] => None
      | q :: l1 =>
          if negb (bool_decide (q = x22)) then None else
          '(name, l2) ← parse_string l1;
          if bool_decide (name ∈ acc.*1) then None else
          match skip_ws l2 with
          | [] => None
          | c :: l3 =>
              if negb (bool_decide (c = x3a)) then None else
              '(v, l4) ← parse_value fuel depth l3;
              match skip_ws l4 with
              | [] => None
              | e :: l5 =>
                  if decide (e = x2c) then parse_members fuel depth (acc ++ [(name, v)]) l5
                  else if decide (e = x7d) then Some (JObject (acc ++ [(name, v)]), l5)
                  else None
              end
          end
      end
  end.

(** A JSON text: exactly one value. *)
Definition parse l : option json :=
  '(v, rest) ← parse_value (2 * length l + 2) max_depth l;
  if bool_decide (skip_ws rest = []) then Some v else None.

(** The member of an object with a given name. *)
Fixpoint member (name : list byte) (ms : list (list byte * json)) : option json :=
  match ms with
  | [] => None
  | (k, v) :: ms => if decide (k = name) then Some v else member name ms
  end.

Example json_vectors :
  parse (bytes_of_string " { } ") = Some (JObject [])
  ∧ parse (bytes_of_string "[1, -2.5e+3 ,true]")
    = Some (JArray [JNumber (bytes_of_string "1"); JNumber (bytes_of_string "-2.5e+3"); JBool true])
  ∧ parse (bytes_of_string "01") = None ∧ parse (bytes_of_string "[1,]") = None.
Proof. by vm_compute. Qed.

(** ** The fuel of [parse] is enough

    Every reader consumes input, so the nesting of calls is bounded by the
    length of the text. *)
Lemma skip_ws_length l : (length (skip_ws l) <= length l)%nat.
Proof. induction l as [|c l IH]; cbn; [lia|]. destruct (is_ws c); cbn; lia. Qed.

Lemma push_rest r o s rest : push r o = Some (s, rest) → ∃ s', o = Some (s', rest).
Proof. unfold push. destruct o as [[s' r']|]; [|done]. cbn. intros [= <- <-]. by eexists. Qed.

Lemma parse_string_length n : ∀ l s rest,
  (length l <= n)%nat → parse_string l = Some (s, rest) → (length rest < length l)%nat.
Proof.
  induction n as [|n IH]; intros [|c l1] s rest Hn H; try done; [cbn in Hn; lia|].
  cbn [parse_string] in H. cbn [length] in Hn |- *.
  repeat (case_match; try done); simplify_eq; cbn [length] in *;
    try (apply push_rest in H as [? H]; apply IH in H; cbn [length] in *); lia.
Qed.

Lemma take_digits_length l : ∀ d r, take_digits l = (d, r) → length l = (length d + length r)%nat.
Proof.
  induction l as [|c l IH]; intros d r; cbn; [by intros [= <- <-]|].
  destruct (is_digit c); [|by intros [= <- <-]].
  destruct (take_digits l) as [d' r'] eqn:E. intros [= <- <-]. cbn. by rewrite (IH _ _ eq_refl).
Qed.

Ltac digits_length := repeat match goal with
  | E : take_digits _ = (_, _) |- _ => apply take_digits_length in E
  end.

Lemma parse_exponent_length l d r : parse_exponent l = Some (d, r) → (length r <= length l)%nat.
Proof.
  unfold parse_exponent. intros H. repeat (case_match; try done); simplify_eq; digits_length; cbn [length] in *; lia.
Qed.

Lemma parse_fraction_length l d r : parse_fraction l = Some (d, r) → (length r <= length l)%nat.
Proof.
  unfold parse_fraction. intros H. repeat (case_match; try done); simplify_eq; digits_length; cbn [length] in *; lia.
Qed.

Lemma parse_number_length l d r : parse_number l = Some (d, r) → (length r < length l)%nat.
Proof.
  unfold parse_number. intros H.
  destruct (match l with [] => _ | _ => _ end) as [sign l1] eqn:E1.
  assert (length l1 <= length l)%nat by (repeat case_match; simplify_eq; cbn; lia).
  apply bind_Some in H as ([int l2] & H2 & H). apply bind_Some in H as ([fr l3] & H3 & H).
  apply bind_Some in H as ([ex l4] & H4 & H). simplify_eq.
  apply parse_fraction_length in H3. apply parse_exponent_length in H4.
  assert (length l2 < length l1)%nat; [|lia]. clear E1.
  repeat (case_match; try done); simplify_eq; digits_length; cbn [length] in *;
    try match goal with E : bool_decide (?ds = []) = false |- _ => destruct ds; [done|] end; cbn [length] in *; lia.
Qed.

(** A successful reader has consumed at least one byte. *)
Ltac consumed := repeat match goal with
  | E : parse_string ?l = Some (_, _) |- _ => apply (parse_string_length _ _ _ _ (le_n _)) in E
  | E : parse_number _ = Some (_, _) |- _ => apply parse_number_length in E
  | E : skip_ws ?l = _ |- _ => pose proof (skip_ws_length l); rewrite E in *; clear E
  | IH : context [parse_value ?f], E : parse_value ?f _ _ = Some _ |- _ => apply IH in E
  | IH : context [parse_elements ?f], E : parse_elements ?f _ _ _ = Some _ |- _ => apply IH in E
  | IH : context [parse_members ?f], E : parse_members ?f _ _ _ = Some _ |- _ => apply IH in E
  end; rewrite ?length_drop; cbn [length] in *.

Lemma parse_progress fuel :
  (∀ depth l v r, parse_value fuel depth l = Some (v, r) → (length r < length l)%nat)
  ∧ (∀ depth acc l v r, parse_elements fuel depth acc l = Some (v, r) → (length r < length l)%nat)
  ∧ (∀ depth acc l v r, parse_members fuel depth acc l = Some (v, r) → (length r < length l)%nat).
Proof.
  induction fuel as [|fuel (IHv & IHe & IHm)]; [done|]. split_and!.
  - intros depth l v r H. cbn [parse_value] in H.
    repeat first [progress simplify_option_eq | case_match]; consumed; lia.
  - intros depth acc l v r H. cbn [parse_elements] in H.
    apply bind_Some in H as ([w l1] & Hw & H). repeat (case_match; try done); simplify_eq; consumed; lia.
  - intros depth acc l v r H. cbn [parse_members] in H.
    destruct (skip_ws l) as [|q l1] eqn:E; [done|]. destruct (negb _); [done|].
    apply bind_Some in H as ([name l2] & Hw & H). case_bool_decide; [done|].
    destruct (skip_ws l2) as [|c l3] eqn:E2; [done|]. destruct (negb _); [done|].
    apply bind_Some in H as ([w l4] & Hv & H). repeat (case_match; try done); simplify_eq; consumed; lia.
Qed.

(** From twice the length of the text on, the result does not depend on the
    fuel. *)
Lemma parse_fuel f1 : ∀ f2 depth l,
  ((2 * length l + 1 <= f1)%nat → (2 * length l + 1 <= f2)%nat →
   parse_value f1 depth l = parse_value f2 depth l)
  ∧ (∀ acc, (2 * length l + 2 <= f1)%nat → (2 * length l + 2 <= f2)%nat →
   parse_elements f1 depth acc l = parse_elements f2 depth acc l)
  ∧ (∀ acc, (2 * length l + 2 <= f1)%nat → (2 * length l + 2 <= f2)%nat →
   parse_members f1 depth acc l = parse_members f2 depth acc l).
Proof.
  induction f1 as [|f1 IH]; intros [|f2] depth l; split_and!; try (intros; lia).
  - intros H1 H2. cbn [parse_value]. destruct (skip_ws l) as [|c l1] eqn:E; [done|].
    repeat (case_match; try done); consumed; apply IH; cbn [length]; lia.
  - intros acc H1 H2. cbn [parse_elements].
    rewrite (proj1 (IH f2 depth l)) by lia. destruct (parse_value f2 depth l) as [[v l1]|] eqn:Ev; [|done].
    apply (proj1 (parse_progress f2)) in Ev. cbn.
    repeat (case_match; try done); consumed; apply IH; lia.
  - intros acc H1 H2. cbn [parse_members]. destruct (skip_ws l) as [|q l1] eqn:E; [done|].
    destruct (negb _); [done|]. destruct (parse_string l1) as [[name l2]|] eqn:Es; [|done]. cbn.
    case_bool_decide; [done|]. destruct (skip_ws l2) as [|c l3] eqn:E2; [done|]. destruct (negb _); [done|].
    assert (length l3 + 2 <= length l)%nat by (consumed; lia).
    rewrite (proj1 (IH f2 depth l3)) by lia. destruct (parse_value f2 depth l3) as [[v l4]|] eqn:Ev; [|done].
    apply (proj1 (parse_progress f2)) in Ev. cbn. clear E E2 Es.
    repeat (case_match; try done); consumed; apply IH; lia.
Qed.

(** [parse] is the reader without a bound: any larger fuel gives its result. *)
Theorem parse_enough_fuel fuel l :
  (2 * length l + 2 <= fuel)%nat →
  parse l = ('(v, rest) ← parse_value fuel max_depth l;
             if bool_decide (skip_ws rest = []) then Some v else None).
Proof. intros H. unfold parse. by rewrite (proj1 (parse_fuel (2 * length l + 2) fuel max_depth l)) by lia. Qed.
