(* ===== verification/AuthData.v ===== *)
(** * Byte values, identifiers and authenticator data

    Models [src/protocol/bytes.go] (length-checked byte values),
    [src/internal/protocolidentifier/identifier.go] (the identifier grammar)
    and [src/protocol/authenticator_data.go] (the binary authenticator data
    layout), with the theorems that the parser is exactly the inverse of the
    layout it documents. *)
From S2P Require Import Prelude GoStrings.
Set Default Goal Selector "!".
Local Open Scope Z_scope.

(** ** Byte values *)

Definition MinChallengeLength : Z := 16.
Definition RecommendedChallengeLength : Z := 32.
Definition MaxCredentialIDLength : Z := 1023.
Definition MaxUserHandleLength : Z := 64.
Definition MinAuthenticatorDataLength : Z := 37.

Record byteValue := mkByteValue { bv_value : slice byte }.

#[export] Instance byteValue_eq_dec : EqDecision byteValue.
Proof. solve_decision. Defined.

(** The zero value of every wrapper: a nil slice. *)
Definition zeroByteValue : byteValue := mkByteValue None.

Definition newByteValue (field : string) (value : slice byte) (minLength maxLength : Z) : result byteValue :=
  if (slice_len value <? minLength) || ((0 <? maxLength) && (maxLength <? slice_len value))
  then Err (ByteLengthError field (slice_len value) minLength maxLength)
  else Ok (mkByteValue value).

(** [bytes] and [Bytes]: a defensive copy keeps nil nil. *)
Definition bv_bytes (v : byteValue) : slice byte := bv_value v.
Definition bv_appendTo (v : byteValue) (out : list byte) : list byte := out ++ slice_list (bv_value v).
Definition bv_len (v : byteValue) : Z := slice_len (bv_value v).
(** [subtle.ConstantTimeCompare(x, y) == 1]: same length and same bytes. *)
Definition bv_equalBytes (v : byteValue) (other : slice byte) : bool :=
  bool_decide (slice_list (bv_value v) = slice_list other).
Definition bv_Equal (v other : byteValue) : bool := bv_equalBytes v (bv_value other).
Definition bv_IsNil (v : byteValue) : bool := bool_decide (bv_value v = None).

Definition Challenge : Type := byteValue.
Definition CredentialID : Type := byteValue.
Definition UserHandle : Type := byteValue.
Definition RawID : Type := byteValue.
Definition AuthenticatorData : Type := byteValue.
Definition ClientDataJSON : Type := byteValue.
Definition AttestationObject : Type := byteValue.
Definition Signature : Type := byteValue.

Definition NewChallenge (value : slice byte) : result Challenge :=
  newByteValue "challenge" value MinChallengeLength 0.
Definition NewCredentialID (value : slice byte) : result CredentialID :=
  newByteValue "credential id" value 1 MaxCredentialIDLength.
Definition NewUserHandle (value : slice byte) : result UserHandle :=
  newByteValue "user handle" value 1 MaxUserHandleLength.
Definition NewRawID (value : slice byte) : result RawID :=
  newByteValue "raw id" value 1 MaxCredentialIDLength.
Definition NewAuthenticatorData (value : slice byte) : result AuthenticatorData :=
  newByteValue "authenticator data" value MinAuthenticatorDataLength 0.
Definition NewClientDataJSON (value : slice byte) : result ClientDataJSON :=
  newByteValue "client data json" value 1 0.
Definition NewAttestationObject (value : slice byte) : result AttestationObject :=
  newByteValue "attestation object" value 1 0.
Definition NewSignature (value : slice byte) : result Signature :=
  newByteValue "signature" value 1 0.

(** [CredentialID.EqualRawID] *)
Definition EqualRawID (id : CredentialID) (other : RawID) : bool := bv_equalBytes id (bv_value other).

Lemma bv_equalBytes_spec v o : bv_equalBytes v o = true ↔ slice_list (bv_value v) = slice_list o.
Proof. apply bool_decide_eq_true. Qed.

Lemma bv_Equal_spec v w : bv_Equal v w = true ↔ slice_list (bv_value v) = slice_list (bv_value w).
Proof. apply bv_equalBytes_spec. Qed.

Lemma bv_len_nonneg v : 0 <= bv_len v.
Proof. unfold bv_len, slice_len. lia. Qed.

Lemma bv_len_0 v : bv_len v = 0 ↔ slice_list (bv_value v) = [].
Proof.
  unfold bv_len, slice_len. destruct (slice_list (bv_value v)); simpl; [done|].
  split; [lia|done].
Qed.

Lemma newByteValue_Ok field value lo hi v :
  newByteValue field value lo hi = Ok v ↔
  v = mkByteValue value ∧ lo <= slice_len value ∧ (0 < hi → slice_len value <= hi).
Proof.
  unfold newByteValue.
  destruct (Z.ltb_spec (slice_len value) lo), (Z.ltb_spec 0 hi), (Z.ltb_spec hi (slice_len value));
    simpl; split; intros; destruct_and?; simplify_eq; try lia;
    repeat split; try done; lia.
Qed.

(** ** Identifiers *)

Definition maxIdentifierLength : Z := 32.

Definition identifier_octet (c : byte) : bool :=
  negb ((byte_val c <? 33) || (126 <? byte_val c) || bool_decide (c = x22) || bool_decide (c = x5c)).

Definition protocolidentifier_Valid (value : string) : bool :=
  if (string_len value =? 0) || (maxIdentifierLength <? string_len value) then false
  else forallb identifier_octet (bytes_of_string value).

(** ** Authenticator data *)

Definition AAGUIDLength : Z := 16.
Definition RPIDHashLength : Z := 32.

Definition authDataFlagUP : Z := 0x01.
Definition authDataFlagUV : Z := 0x04.
Definition authDataFlagBE : Z := 0x08.
Definition authDataFlagBS : Z := 0x10.
Definition authDataFlagAT : Z := 0x40.
Definition authDataFlagED : Z := 0x80.
Definition authDataRFUMask : Z := 0x22.

Definition ErrMalformedAuthenticatorData : error := Sentinel "protocol.ErrMalformedAuthenticatorData".
Definition ErrAttestedCredentialDataMissing : error := Sentinel "protocol.ErrAttestedCredentialDataMissing".

(** [[16]byte], as the list of its bytes. *)
Definition AAGUID : Type := list byte.
Definition AAGUID_EqualBytes (a : AAGUID) (other : slice byte) : bool := bool_decide (a = slice_list other).

Definition AuthenticatorFlags : Type := byte.
Definition has_flag (f : AuthenticatorFlags) (mask : Z) : bool := negb (Z.land (byte_val f) mask =? 0).
Definition UserPresent f := has_flag f authDataFlagUP.
Definition UserVerified f := has_flag f authDataFlagUV.
Definition BackupEligible f := has_flag f authDataFlagBE.
Definition BackupState f := has_flag f authDataFlagBS.
Definition HasAttestedCredentialData f := has_flag f authDataFlagAT.
Definition HasExtensionData f := has_flag f authDataFlagED.

Record AttestedCredentialData := mkAttested {
  acd_AAGUID : AAGUID;
  acd_CredentialID : CredentialID;
  CredentialPublicKeyAndExtensions : list byte;
}.

Record ParsedAuthenticatorData := mkParsed {
  pad_Raw : AuthenticatorData;
  RPIDHash : list byte;
  Flags : AuthenticatorFlags;
  pad_SignCount : Z;
  pad_Attested : option AttestedCredentialData;
  ExtensionData : slice byte;
}.

Definition parseAttestedCredentialData (data : list byte) : result AttestedCredentialData :=
  let len := Z.of_nat (length data) in
  _ ← fail_if (len <? AAGUIDLength + 2) ErrMalformedAuthenticatorData;
  let aaguid := take 16 data in
  let credentialIDLength := be_uint (take 2 (drop 16 data)) in
  let credentialIDEnd := AAGUIDLength + 2 + credentialIDLength in
  _ ← fail_if ((credentialIDLength =? 0) || (len <? credentialIDEnd)) ErrMalformedAuthenticatorData;
  _ ← fail_if (len =? credentialIDEnd) ErrMalformedAuthenticatorData;
  credentialID ← NewCredentialID (Some (take (Z.to_nat credentialIDLength) (drop 18 data)));
  Ok (mkAttested aaguid credentialID (drop (Z.to_nat credentialIDEnd) data)).

Definition ParseAuthenticatorData (raw : AuthenticatorData) : result ParsedAuthenticatorData :=
  let bytes := slice_list (bv_value raw) in
  _ ← fail_if (Z.of_nat (length bytes) <? MinAuthenticatorDataLength) ErrMalformedAuthenticatorData;
  let rpIDHash := take 32 bytes in
  let flags := nth 32 bytes x00 in
  let signCount := be_uint (take 4 (drop 33 bytes)) in
  _ ← fail_if (has_flag flags authDataRFUMask) ErrMalformedAuthenticatorData;
  let rest := drop 37 bytes in
  if negb (HasAttestedCredentialData flags) then
    if HasExtensionData flags && bool_decide (rest = []) then Err ErrMalformedAuthenticatorData
    else if HasExtensionData flags then Ok (mkParsed raw rpIDHash flags signCount None (Some rest))
    else if negb (bool_decide (rest = [])) then Err ErrMalformedAuthenticatorData
    else Ok (mkParsed raw rpIDHash flags signCount None None)
  else
    attested ← parseAttestedCredentialData rest;
    Ok (mkParsed raw rpIDHash flags signCount (Some attested) None).

(** *** The layout, written out as an encoder

    WebAuthn's authenticator data: rpIdHash, flags, big-endian sign count,
    then attested credential data (AAGUID, big-endian ID length, ID, public key
    and extensions) or extension data. *)
Definition encodeAttested (a : AttestedCredentialData) : list byte :=
  acd_AAGUID a ++ put_be 2 (bv_len (acd_CredentialID a))
  ++ slice_list (bv_value (acd_CredentialID a)) ++ CredentialPublicKeyAndExtensions a.

Definition encodeAuthData (rpIDHash : list byte) (flags : byte) (signCount : Z)
    (attested : option AttestedCredentialData) (ext : slice byte) : list byte :=
  rpIDHash ++ [flags] ++ put_be 4 signCount
  ++ match attested with Some a => encodeAttested a | None => [] end ++ slice_list ext.

(** What a parsed value satisfies: the sizes of its parts, the reserved bits
    are clear, and the optional parts are present exactly as the flags say. *)
Definition wf_attested (a : AttestedCredentialData) : Prop :=
  length (acd_AAGUID a) = 16%nat ∧ bv_value (acd_CredentialID a) ≠ None ∧
  1 <= bv_len (acd_CredentialID a) <= MaxCredentialIDLength ∧ CredentialPublicKeyAndExtensions a ≠ [].

Definition wf_parsed (p : ParsedAuthenticatorData) : Prop :=
  length (RPIDHash p) = 32%nat ∧ 0 <= pad_SignCount p < 2 ^ 32 ∧
  has_flag (Flags p) authDataRFUMask = false ∧
  match pad_Attested p with
  | Some a => HasAttestedCredentialData (Flags p) = true ∧ wf_attested a ∧ ExtensionData p = None
  | None => HasAttestedCredentialData (Flags p) = false ∧
            match ExtensionData p with
            | Some e => HasExtensionData (Flags p) = true ∧ e ≠ []
            | None => HasExtensionData (Flags p) = false
            end
  end.

(** ** The parser inverts the layout *)

Lemma take_drop_split {A} (n m : nat) (l : list A) : take n (drop m l) ++ drop (m + n) l = drop m l.
Proof. rewrite <-(take_drop n (drop m l)) at 2. by rewrite drop_drop. Qed.

Lemma put_be_take (n m : nat) (l : list byte) :
  (m + n <= length l)%nat → put_be n (be_uint (take n (drop m l))) = take n (drop m l).
Proof.
  intros H. pose proof (put_be_uint (take n (drop m l))) as E.
  by rewrite length_take, length_drop, Nat.min_l in E by lia.
Qed.

Lemma parseAttestedCredentialData_sound data a :
  parseAttestedCredentialData data = Ok a → wf_attested a ∧ data = encodeAttested a.
Proof.
  unfold parseAttestedCredentialData, AAGUIDLength. intros H. res_inv.
  apply orb_false_iff in Hok0 as [Hz Hlen].
  rewrite Z.ltb_ge in Hok, Hlen. rewrite Z.eqb_neq in Hz, Hok1.
  apply newByteValue_Ok in Hok2 as (-> & _ & Hmax).
  pose proof (be_uint_bound (take 2 (drop 16 data))) as Hb.
  set (n := be_uint (take 2 (drop 16 data))) in *.
  unfold slice_len in Hmax. cbn [slice_list from_option id] in Hmax.
  rewrite length_take, length_drop, Nat.min_l in Hmax by lia.
  specialize (Hmax ltac:(done)).
  unfold wf_attested, encodeAttested, bv_len, slice_len. cbn [acd_AAGUID acd_CredentialID bv_value
    slice_list from_option id CredentialPublicKeyAndExtensions].
  rewrite !length_take, length_drop, Nat.min_l, Nat.min_l by lia. rewrite Z2Nat.id by lia.
  split; [split; [reflexivity|split; [discriminate|split; [split; lia|]]]|].
  - intros Hnil. apply (f_equal length) in Hnil. rewrite length_drop in Hnil. simpl in Hnil. lia.
  - subst n. rewrite put_be_take by lia.
    set (n := be_uint (take 2 (drop 16 data))) in *.
    replace (Z.to_nat (16 + 2 + n)) with (18 + Z.to_nat n)%nat by lia.
    rewrite (take_drop_split (Z.to_nat n) 18). change 18%nat with (16 + 2)%nat.
    rewrite (take_drop_split 2 16). by rewrite take_drop.
Qed.

Lemma parseAttestedCredentialData_complete a :
  wf_attested a → parseAttestedCredentialData (encodeAttested a) = Ok a.
Proof.
  destruct a as [guid [[cid|]] rest]; intros (Hg & Hid & Hlen & Hrest); [|done]. simpl in *.
  unfold encodeAttested, parseAttestedCredentialData, AAGUIDLength.
  unfold bv_len, slice_len in *. cbn [acd_AAGUID acd_CredentialID bv_value slice_list from_option id
    CredentialPublicKeyAndExtensions] in *. unfold MaxCredentialIDLength in Hlen.
  assert (length rest ≠ 0%nat) by (by destruct rest).
  rewrite !length_app, length_put_be, Hg.
  replace (take 2 (drop 16 _)) with (put_be 2 (Z.of_nat (length cid))); last first.
  { rewrite drop_app_length' by done. by rewrite take_app_length' by (by rewrite length_put_be). }
  rewrite be_uint_put by (split; [lia|]; change (256 ^ Z.of_nat 2) with 65536; lia).
  rewrite (proj2 (Z.ltb_ge _ _)) by lia. cbn [fail_if mbind result_bind].
  rewrite (proj2 (Z.eqb_neq _ _)) by lia. rewrite (proj2 (Z.ltb_ge _ _)) by lia.
  cbn [orb fail_if mbind result_bind].
  rewrite (proj2 (Z.eqb_neq _ _)) by lia. cbn [fail_if mbind result_bind].
  replace (drop 18 _) with (cid ++ rest); last first.
  { rewrite app_assoc. rewrite drop_app_length' by (rewrite length_app, length_put_be; lia). done. }
  rewrite Nat2Z.id, take_app_length.
  assert (NewCredentialID (Some cid) = Ok (mkByteValue (Some cid))) as ->.
  { unfold NewCredentialID. apply newByteValue_Ok. unfold slice_len, MaxCredentialIDLength.
    simpl. split_and!; [done|lia|lia]. }
  cbn [orb fail_if mbind result_bind]. do 2 f_equal.
  - by rewrite take_app_length' by done.
  - rewrite !app_assoc. rewrite drop_app_length'; [done|].
    rewrite !length_app, length_put_be. lia.
Qed.

Lemma parse_authdata_sound raw p :
  ParseAuthenticatorData raw = Ok p →
  wf_parsed p ∧ pad_Raw p = raw ∧
  slice_list (bv_value raw) =
    encodeAuthData (RPIDHash p) (Flags p) (pad_SignCount p) (pad_Attested p) (ExtensionData p).
Proof.
  unfold ParseAuthenticatorData. set (bytes := slice_list (bv_value raw)).
  intros H. apply bind_Ok in H as ([] & Hlen & H). apply bind_Ok in H as ([] & Hrfu & H).
  apply fail_if_Ok in Hlen, Hrfu. unfold MinAuthenticatorDataLength in Hlen. apply Z.ltb_ge in Hlen.
  pose proof (be_uint_bound (take 4 (drop 33 bytes))) as Hb.
  rewrite length_take, length_drop, Nat.min_l in Hb by lia. change (256 ^ Z.of_nat 4) with (2 ^ 32) in Hb.
  assert (bytes = take 32 bytes ++ [nth 32 bytes x00]
            ++ put_be 4 (be_uint (take 4 (drop 33 bytes))) ++ drop 37 bytes) as Hsplit.
  { rewrite put_be_take by lia. rewrite (take_drop_split 4 33).
    rewrite <-(take_drop 32 bytes) at 1. f_equal.
    destruct (drop 32 bytes) as [|x l] eqn:E.
    - apply (f_equal length) in E. rewrite length_drop in E. simpl in E. lia.
    - change 33%nat with (32 + 1)%nat. rewrite <-drop_drop, E. simpl. rewrite drop_0. f_equal.
      rewrite <-(take_drop 32 bytes), E. rewrite app_nth2; rewrite length_take, Nat.min_l by lia; [|lia].
      done. }
  assert (length (take 32 bytes) = 32%nat) by (rewrite length_take; lia).
  destruct (HasAttestedCredentialData _) eqn:Hat; cbn [negb] in H.
  - apply bind_Ok in H as (a & Ha & [= <-]).
    apply parseAttestedCredentialData_sound in Ha as [Hwf Henc].
    split_and!; cbn [RPIDHash Flags pad_SignCount pad_Attested ExtensionData pad_Raw]; try done.
    unfold encodeAuthData. cbn [slice_list from_option id]. by rewrite app_nil_r, <-Henc.
  - destruct (HasExtensionData _) eqn:Hed; cbn [andb] in H;
      case_bool_decide as Hrest; cbn [negb] in H; simplify_eq;
      (split_and!; cbn [RPIDHash Flags pad_SignCount pad_Attested ExtensionData pad_Raw]; try done).
    unfold encodeAuthData. cbn [slice_list from_option id]. by rewrite Hrest in Hsplit.
Qed.

Lemma parse_authdata_complete raw p :
  wf_parsed p → pad_Raw p = raw →
  slice_list (bv_value raw) =
    encodeAuthData (RPIDHash p) (Flags p) (pad_SignCount p) (pad_Attested p) (ExtensionData p) →
  ParseAuthenticatorData raw = Ok p.
Proof.
  destruct p as [raw' h f n att ext]. simpl. intros (Hh & Hn & Hrfu & Hwf) -> Henc.
  cbn [RPIDHash Flags pad_SignCount pad_Attested ExtensionData] in *.
  unfold ParseAuthenticatorData. rewrite Henc. unfold encodeAuthData.
  set (tl := match att with Some a => encodeAttested a | None => [] end ++ slice_list ext).
  rewrite !length_app, length_put_be, Hh. unfold MinAuthenticatorDataLength.
  rewrite (proj2 (Z.ltb_ge _ _)) by (simpl; lia). cbn [fail_if mbind result_bind].
  rewrite take_app_length' by done.
  rewrite app_nth2 by lia. rewrite Hh. change (32 - 32)%nat with 0%nat. cbn [app nth].
  rewrite Hrfu. cbn [fail_if mbind result_bind].
  replace (drop 33 _) with (put_be 4 n ++ tl)
    by (rewrite drop_app, Hh, drop_ge by lia; done).
  replace (drop 37 _) with tl
    by (rewrite drop_app, Hh, drop_ge by lia; done).
  rewrite take_app_length' by (by rewrite length_put_be).
  rewrite be_uint_put by (change (256 ^ Z.of_nat 4) with (2 ^ 32); lia).
  subst tl. destruct att as [a|].
  - destruct Hwf as (-> & Ha & ->). cbn [negb slice_list from_option id]. rewrite app_nil_r.
    by rewrite parseAttestedCredentialData_complete.
  - destruct Hwf as [-> Hext]. cbn [negb app]. destruct ext as [e|]; cbn [slice_list from_option id].
    + destruct Hext as [-> He]. by rewrite bool_decide_eq_false_2 by done.
    + rewrite Hext. by rewrite bool_decide_eq_true_2.
Qed.

(** ** Properties *)

(** C15: parsing authenticator data is exactly the inverse of its binary layout.
    A byte string is accepted with fields [p] if and only if [p] is well formed
    (32-byte RP ID hash, 32-bit counter, reserved flag bits clear, 16-byte
    AAGUID, 1 to 1023 byte credential ID, attested data and extensions present
    as the flags announce) and the bytes are those fields laid out one after
    the other with nothing in between and nothing left over. *)
Theorem authenticator_data_roundtrip (raw : AuthenticatorData) (p : ParsedAuthenticatorData) :
  ParseAuthenticatorData raw = Ok p ↔
  wf_parsed p ∧ pad_Raw p = raw ∧
  slice_list (bv_value raw) =
    encodeAuthData (RPIDHash p) (Flags p) (pad_SignCount p) (pad_Attested p) (ExtensionData p).
Proof.
  split; [apply parse_authdata_sound|]. intros (? & ? & ?). by apply parse_authdata_complete.
Qed.

(** Every rejection of authenticator data is reported as malformed data,
    except an otherwise well-framed credential ID that is longer than 1023
    bytes, which is reported with its length. *)
Theorem authenticator_data_errors (raw : AuthenticatorData) (e : error)
    (H : ParseAuthenticatorData raw = Err e) :
  e = ErrMalformedAuthenticatorData ∨
  ∃ n, 1023 < n < 65536 ∧ e = ByteLengthError "credential id" n 1 1023.
Proof.
  unfold ParseAuthenticatorData in H.
  apply bind_Err in H as [[_ <-]%fail_if_Err|(_ & _ & H)]; [by left|].
  apply bind_Err in H as [[_ <-]%fail_if_Err|(_ & _ & H)]; [by left|].
  destruct (negb _).
  { repeat case_match; simplify_eq; by left. }
  apply bind_Err in H as [H|(? & _ & [=])].
  unfold parseAttestedCredentialData in H.
  apply bind_Err in H as [[_ <-]%fail_if_Err|(? & Hl & H)]; [by left|].
  apply bind_Err in H as [[_ <-]%fail_if_Err|(? & Hk & H)]; [by left|].
  apply bind_Err in H as [[_ <-]%fail_if_Err|(_ & _ & H)]; [by left|].
  apply bind_Err in H as [H|(? & _ & [=])]. right.
  apply fail_if_Ok, orb_false_iff in Hk as [Hz Hk]. apply fail_if_Ok in Hl.
  unfold AAGUIDLength in *. apply Z.ltb_ge in Hl, Hk. apply Z.eqb_neq in Hz.
  set (d := drop 37 (slice_list (bv_value raw))) in *.
  pose proof (be_uint_bound (take 2 (drop 16 d))) as Hb.
  rewrite length_take, length_drop, Nat.min_l in Hb by lia. change (256 ^ Z.of_nat 2) with 65536 in Hb.
  unfold NewCredentialID, newByteValue, slice_len, MaxCredentialIDLength in H. simpl slice_list in H.
  rewrite length_take, length_drop, Nat.min_l, Z2Nat.id in H by lia.
  rewrite (proj2 (Z.ltb_ge _ 1)) in H by lia. cbn [orb andb Z.ltb] in H.
  destruct (1023 <? be_uint (take 2 (drop 16 d))) eqn:E; cbn in H; [|done].
  injection H as <-. apply Z.ltb_lt in E. eauto with lia.
Qed.

Lemma authenticator_data_errors_witness :
  ParseAuthenticatorData (mkByteValue (Some [x00])) = Err ErrMalformedAuthenticatorData ∧
  (ErrMalformedAuthenticatorData = ErrMalformedAuthenticatorData ∨
   ∃ n, 1023 < n < 65536 ∧ ErrMalformedAuthenticatorData = ByteLengthError "credential id" n 1 1023).
Proof.
  split; [reflexivity|].
  apply (authenticator_data_errors (mkByteValue (Some [x00]))). reflexivity.
Defined.
