(* ===== verification/ClientData.v ===== *)
(** * Collected client data

    Models [src/protocol/client_data.go] and the client data types of
    [src/protocol/types.go]: decoding of [clientDataJSON], the ceremony type
    check, and the canonical base64url challenge.  JSON decoding is
    [Json.parse] followed by the member-by-member decoding that
    [json.Unmarshal] performs for the anonymous struct of the source. *)
From S2P Require Import Prelude GoStrings Base64 Json AuthData.
Set Default Goal Selector "!".
Local Open Scope Z_scope.

Definition ClientDataType : Type := string.
Definition ClientDataTypeCreate : ClientDataType := "webauthn.create".
Definition ClientDataTypeGet : ClientDataType := "webauthn.get".
Definition ClientDataType_Known (t : ClientDataType) : bool :=
  bool_decide (t = ClientDataTypeCreate) || bool_decide (t = ClientDataTypeGet).

Record TokenBinding := mkTokenBinding { tb_Status : string; tb_ID : string }.

Record CollectedClientData := mkClientData {
  cd_Type : ClientDataType;
  cd_Challenge : string;
  cd_Origin : string;
  cd_CrossOrigin : option bool;
  cd_TopOrigin : string;
  cd_TokenBinding : option TokenBinding;
  cd_Raw : ClientDataJSON;
  cd_topOriginSet : bool;
}.

Definition HasTopOrigin (d : CollectedClientData) : bool := cd_topOriginSet d.

Definition ValidateType (d : CollectedClientData) (expected : ClientDataType) : result () :=
  fail_if (negb (bool_decide (cd_Type d = expected))) (ValueError "client data type" (cd_Type d)).

Definition ErrMalformedClientData : error := Sentinel "protocol.ErrMalformedClientData".

(** Any error of [json.Unmarshal]; its text is not observed. *)
Definition errUnmarshal : error := ErrorNew "json: cannot unmarshal".

(** Decoding of a Go string field: absent and null leave the zero value. *)
Definition unmarshal_string (v : option json) : result string :=
  match v with
  | None | Some JNull => Ok ""
  | Some (JString s) => Ok (string_of_bytes s)
  | Some _ => Err errUnmarshal
  end.

Definition unmarshal_bool (v : json) : result bool :=
  match v with
  | JBool b => Ok b
  | JNull => Ok false
  | _ => Err errUnmarshal
  end.

Record rawClientData := {
  raw_Type : string; raw_Challenge : string; raw_Origin : string;
  raw_CrossOrigin : option json; raw_TopOrigin : option json;
  raw_TokenBinding : option TokenBinding;
}.

Definition unmarshal_tokenBinding (v : option json) : result (option TokenBinding) :=
  match v with
  | None | Some JNull => Ok None
  | Some (JObject ms) =>
      status ← unmarshal_string (member (bytes_of_string "status") ms);
      id ← unmarshal_string (member (bytes_of_string "id") ms);
      Ok (Some (mkTokenBinding status id))
  | Some _ => Err errUnmarshal
  end.

(** [json.Unmarshal(jsonText, &decoded)] *)
Definition unmarshal_clientData (text : list byte) : result rawClientData :=
  v ← of_option errUnmarshal (Json.parse text);
  ms ← match v with JObject ms => Ok ms | JNull => Ok [] | _ => Err errUnmarshal end;
  typ ← unmarshal_string (member (bytes_of_string "type") ms);
  challenge ← unmarshal_string (member (bytes_of_string "challenge") ms);
  origin ← unmarshal_string (member (bytes_of_string "origin") ms);
  binding ← unmarshal_tokenBinding (member (bytes_of_string "tokenBinding") ms);
  Ok {| raw_Type := typ; raw_Challenge := challenge; raw_Origin := origin;
        raw_CrossOrigin := member (bytes_of_string "crossOrigin") ms;
        raw_TopOrigin := member (bytes_of_string "topOrigin") ms;
        raw_TokenBinding := binding |}.

Definition byteOrderMark : list byte := [xef; xbb; xbf].

Definition ParseCollectedClientData (raw : ClientDataJSON) : result CollectedClientData :=
  let jsonText := trim_prefix byteOrderMark (slice_list (bv_value raw)) in
  decoded ← unmarshal_clientData jsonText;
  _ ← fail_if (bool_decide (raw_Type decoded = "") || bool_decide (raw_Challenge decoded = "")
               || bool_decide (raw_Origin decoded = "")) ErrMalformedClientData;
  crossOrigin ← match raw_CrossOrigin decoded with
    | None => Ok None
    | Some JNull => Err ErrMalformedClientData
    | Some v => b ← or_err ErrMalformedClientData (unmarshal_bool v); Ok (Some b)
    end;
  topOrigin ← match raw_TopOrigin decoded with
    | None => Ok ""
    | Some JNull => Err ErrMalformedClientData
    | Some v => s ← or_err ErrMalformedClientData (unmarshal_string (Some v));
                _ ← fail_if (bool_decide (s = "")) ErrMalformedClientData; Ok s
    end;
  Ok {| cd_Type := raw_Type decoded; cd_Challenge := raw_Challenge decoded;
        cd_Origin := raw_Origin decoded; cd_CrossOrigin := crossOrigin;
        cd_TopOrigin := topOrigin; cd_TokenBinding := raw_TokenBinding decoded;
        cd_Raw := raw; cd_topOriginSet := bool_decide (raw_TopOrigin decoded ≠ None) |}.

(** The error value of a failed base64 decoding. *)
Definition errCorruptInput : error := ErrorNew "illegal base64 data".

Definition ChallengeBytes (d : CollectedClientData) : result (list byte) :=
  challenge ← of_option errCorruptInput (DecodeString (cd_Challenge d));
  _ ← fail_if (negb (bool_decide (EncodeToString challenge = cd_Challenge d))) ErrMalformedClientData;
  Ok challenge.

(** ** Lemmas *)

Lemma ChallengeBytes_Ok d b : ChallengeBytes d = Ok b ↔ cd_Challenge d = EncodeToString b.
Proof.
  unfold ChallengeBytes. rewrite bind_Ok. setoid_rewrite bind_Ok. setoid_rewrite of_option_Ok.
  setoid_rewrite fail_if_Ok. setoid_rewrite negb_false_iff. setoid_rewrite bool_decide_eq_true. split.
  - intros (c & Hc & u & Henc & [= ->]). done.
  - intros ->. exists b. rewrite decode_encode. split; [done|]. by exists ().
Qed.

Lemma ValidateType_Ok d t u : ValidateType d t = Ok u ↔ cd_Type d = t.
Proof.
  unfold ValidateType. by rewrite fail_if_Ok, negb_false_iff, bool_decide_eq_true.
Qed.

(** Fields of an accepted client data are never empty, and [topOrigin] is
    recorded as present exactly when it is not empty. *)
Lemma ParseCollectedClientData_fields raw d :
  ParseCollectedClientData raw = Ok d →
  cd_Raw d = raw ∧ cd_Type d ≠ "" ∧ cd_Challenge d ≠ "" ∧ cd_Origin d ≠ "" ∧
  (HasTopOrigin d = true ↔ cd_TopOrigin d ≠ "").
Proof.
  unfold ParseCollectedClientData, HasTopOrigin. intros H.
  apply bind_Ok in H as (dec & _ & H). apply bind_Ok in H as (? & Hne & H).
  apply bind_Ok in H as (co & _ & H). apply bind_Ok in H as (top & Htop & [= <-]).
  cbn [cd_Raw cd_Type cd_Challenge cd_Origin cd_topOriginSet cd_TopOrigin].
  apply fail_if_Ok in Hne. rewrite !orb_false_iff, !bool_decide_eq_false in Hne.
  destruct Hne as [[? ?] ?]. split_and!; try done.
  rewrite bool_decide_eq_true. destruct (raw_TopOrigin dec) as [v|].
  - assert (top ≠ "").
    { destruct v; try discriminate Htop; res_inv; by rewrite bool_decide_eq_false in Hok0. }
    naive_solver.
  - simplify_eq. naive_solver.
Qed.

(** ** A browser's serialization is read back field by field *)

(** Characters a JSON string contains unescaped: printable ASCII other than the
    quote and the backslash. *)
Definition plain_char (c : byte) : bool :=
  negb (bool_decide (c = x22)) && negb (bool_decide (c = x5c)) && in_range 32 127 c.

Lemma parse_string_plain s rest :
  Forall (λ c, plain_char c = true) s → parse_string (s ++ x22 :: rest) = Some (s, rest).
Proof.
  induction 1 as [|c s Hc Hs IH]; [done|].
  unfold plain_char, in_range in Hc. rewrite !andb_true_iff, !negb_true_iff, !bool_decide_eq_false in Hc.
  destruct Hc as [[Hq Hb] [Hlo Hhi]]. cbn [app parse_string].
  rewrite !decide_False by done.
  apply Z.leb_le in Hlo, Hhi. rewrite (proj2 (Z.ltb_ge _ 32)), (proj2 (Z.ltb_lt _ 128)) by lia.
  by rewrite IH.
Qed.

(** One object member, its value already known to parse. *)
Lemma parse_members_step fuel depth acc name text v sep rest :
  Forall (λ c, plain_char c = true) name → name ∉ acc.*1 →
  parse_value fuel depth (text ++ sep :: rest) = Some (v, sep :: rest) →
  is_ws sep = false →
  parse_members (S fuel) depth acc (x22 :: name ++ x22 :: x3a :: text ++ sep :: rest) =
    if decide (sep = x2c) then parse_members fuel depth (acc ++ [(name, v)]) rest
    else if decide (sep = x7d) then Some (JObject (acc ++ [(name, v)]), rest) else None.
Proof.
  intros Hn Hfresh Hv Hsep. cbn [parse_members skip_ws].
  change (is_ws x22) with false. cbn iota. rewrite bool_decide_eq_true_2 by done. cbn [negb].
  rewrite (parse_string_plain name) by done. cbn [mbind option_bind].
  rewrite bool_decide_eq_false_2 by done. cbn [skip_ws].
  change (is_ws x3a) with false. cbn iota. rewrite bool_decide_eq_true_2 by done. cbn [negb].
  rewrite Hv. cbn [mbind option_bind skip_ws]. by rewrite Hsep.
Qed.

Lemma parse_value_string fuel depth s rest :
  Forall (λ c, plain_char c = true) s →
  parse_value (S fuel) depth ((x22 :: s ++ [x22]) ++ rest) = Some (JString s, rest).
Proof.
  intros Hs. rewrite <-app_comm_cons, <-app_assoc. cbn [parse_value skip_ws].
  change (is_ws x22) with false. cbn iota. rewrite !decide_False by done. rewrite decide_True by done.
  change ([x22] ++ rest) with (x22 :: rest). by rewrite parse_string_plain.
Qed.

Definition quoted (s : string) : list byte := x22 :: bytes_of_string s ++ [x22].
Definition plain (s : string) : Prop := Forall (λ c, plain_char c = true) (bytes_of_string s).

Lemma plain_check s : forallb plain_char (bytes_of_string s) = true → plain s.
Proof. intros H. apply Forall_forall. rewrite forallb_forall in H. intros x Hx. by apply H, list_elem_of_In. Qed.

(** The text of an object without insignificant whitespace, from its member
    names and the texts of their values. *)
Fixpoint members_text (ms : list (string * list byte)) : list byte :=
  match ms with
  | [] => []
  | [(k, t)] => quoted k ++ x3a :: t ++ [x7d]
  | (k, t) :: ms => quoted k ++ x3a :: t ++ x2c :: members_text ms
  end.

Definition object_text (ms : list (string * list byte)) : list byte := x7b :: members_text ms.

(** [t] is read as [v] whatever follows it, with at least one step of fuel. *)
Definition reads_as (t : list byte) (v : json) : Prop :=
  ∀ fuel depth rest, (0 < fuel)%nat → parse_value fuel depth (t ++ rest) = Some (v, rest).

Lemma reads_as_quoted s : plain s → reads_as (quoted s) (JString (bytes_of_string s)).
Proof. intros H [|fuel] depth rest Hf; [lia|]. by apply parse_value_string. Qed.

Definition bool_text (b : bool) : list byte :=
  if b then bytes_of_string "true" else bytes_of_string "false".

Lemma reads_as_bool b : reads_as (bool_text b) (JBool b).
Proof. intros [|fuel] depth rest Hf; [lia|]. by destruct b. Qed.

Lemma parse_members_text depth rest ms vs :
  Forall2 (λ m v, plain m.1 ∧ bytes_of_string m.1 = v.1 ∧ reads_as m.2 v.2) ms vs → ms ≠ [] →
  ∀ acc fuel, NoDup (acc.*1 ++ vs.*1) → (length ms < fuel)%nat →
  parse_members fuel depth acc (members_text ms ++ rest) = Some (JObject (acc ++ vs), rest).
Proof.
  induction 1 as [|[k t] [k' v] ms vs (Hk & Hkv & Ht) Hms IH]; [done|]. intros _ acc fuel Hnd Hfuel.
  cbn [fst snd] in *. subst k'. destruct fuel as [|fuel]; [cbn in Hfuel; lia|]. cbn [length] in Hfuel.
  assert (bytes_of_string k ∉ acc.*1) as Hfresh.
  { cbn in Hnd. apply NoDup_app in Hnd as (_ & Hd & _). intros Hin. apply (Hd _ Hin). by left. }
  destruct ms as [|m ms].
  - apply Forall2_nil_inv_l in Hms as ->. cbn [members_text quoted].
    replace ((quoted k ++ x3a :: t ++ [x7d]) ++ rest)
      with (x22 :: bytes_of_string k ++ x22 :: x3a :: t ++ x7d :: rest)
      by (unfold quoted; cbn; by rewrite <-!app_assoc; cbn; rewrite <-!app_assoc).
    rewrite (parse_members_step _ _ _ _ _ v) by (done || apply Ht; lia). done.
  - replace (members_text ((k, t) :: m :: ms) ++ rest)
      with (x22 :: bytes_of_string k ++ x22 :: x3a :: t ++ x2c :: members_text (m :: ms) ++ rest)
      by (cbn [members_text]; unfold quoted; cbn [app]; by rewrite <-!app_assoc; cbn [app]; rewrite <-!app_assoc).
    rewrite (parse_members_step _ _ _ _ _ v) by (done || apply Ht; cbn in Hfuel; lia).
    rewrite decide_True by done. rewrite IH; [by rewrite <-app_assoc|done| |cbn in *; lia].
    rewrite fmap_app, <-app_assoc. done.
Qed.

Lemma length_members_text ms : (length ms <= length (members_text ms))%nat.
Proof.
  induction ms as [|[k t] ms IH]; [done|]; destruct ms as [|m ms];
    cbn [members_text]; rewrite !length_app; cbn [length] in *; rewrite length_app; cbn [length members_text] in *; lia.
Qed.

Lemma parse_object_text ms vs :
  Forall2 (λ m v, plain m.1 ∧ bytes_of_string m.1 = v.1 ∧ reads_as m.2 v.2) ms vs → ms ≠ [] →
  NoDup vs.*1 → Json.parse (object_text ms) = Some (JObject vs).
Proof.
  intros Hms Hne Hnd. pose proof (parse_members_text (max_depth - 1) [] _ _ Hms Hne []) as H.
  rewrite app_nil_r in H. unfold Json.parse, object_text.
  pose proof (length_members_text ms).
  replace (2 * length (x7b :: members_text ms) + 2)%nat
    with (S (2 * length (members_text ms) + 3)) by (cbn; lia).
  change max_depth with (S (max_depth - 1)).
  remember (max_depth - 1)%nat as d. remember (2 * length (members_text ms) + 3)%nat as f.
  cbn [parse_value skip_ws]. change (is_ws x7b) with false. cbn iota. rewrite decide_True by done.
  destruct ms as [|[k t] ms]; [done|].
  destruct (members_text ((k, t) :: ms)) as [|c l] eqn:E; [by destruct ms|].
  assert (c = x22) as -> by (by destruct ms; cbn in E; simplify_eq).
  cbn [skip_ws]. change (is_ws x22) with false. cbn iota. rewrite decide_False by done.
  rewrite H by (done || lia). done.
Qed.

(** A serialized challenge is made of characters that need no escaping. *)
Lemma plain_enc_char n : 0 <= n < 64 → plain_char (enc_char n) = true.
Proof.
  intros Hn. rewrite <-(Z2Nat.id n) by lia. assert (Z.to_nat n < 64)%nat as Hlt by lia.
  revert Hlt. generalize (Z.to_nat n). intros k Hk.
  do 64 (destruct k as [|k]; [reflexivity|]). lia.
Qed.

Lemma plain_EncodeToString l : plain (EncodeToString l).
Proof.
  unfold plain, EncodeToString. rewrite bytes_of_string_of_bytes, encode_bytes_sextets.
  apply Forall_fmap, (Forall_impl _ _ _ (sextets_bound l)). apply plain_enc_char.
Qed.

Lemma EncodeToString_empty l : EncodeToString l = "" → l = [].
Proof. intros H. apply EncodeToString_inj. by rewrite H. Qed.

(** The members WebAuthn 5.8.1.1 serializes for an ordinary ceremony, in order. *)
Definition ceremony_members (typ origin : string) (challenge : list byte) (crossOrigin : bool) :
    list (string * list byte) :=
  [("type", quoted typ); ("challenge", quoted (EncodeToString challenge));
   ("origin", quoted origin); ("crossOrigin", bool_text crossOrigin)].

Lemma unmarshal_ceremony typ origin challenge crossOrigin :
  plain typ → plain origin →
  unmarshal_clientData (object_text (ceremony_members typ origin challenge crossOrigin)) =
  Ok {| raw_Type := typ; raw_Challenge := EncodeToString challenge; raw_Origin := origin;
        raw_CrossOrigin := Some (JBool crossOrigin); raw_TopOrigin := None; raw_TokenBinding := None |}.
Proof.
  intros Ht Ho. unfold unmarshal_clientData.
  rewrite (parse_object_text _
    [(bytes_of_string "type", JString (bytes_of_string typ));
     (bytes_of_string "challenge", JString (bytes_of_string (EncodeToString challenge)));
     (bytes_of_string "origin", JString (bytes_of_string origin));
     (bytes_of_string "crossOrigin", JBool crossOrigin)]).
  - simpl. by rewrite !string_of_bytes_of_string.
  - unfold ceremony_members.
    repeat (apply Forall2_cons; split; [split; [by repeat constructor|split; [done|]]|]);
      [apply reads_as_quoted, Ht|apply reads_as_quoted, plain_EncodeToString
      |apply reads_as_quoted, Ho|apply reads_as_bool|done].
  - done.
  - by apply (bool_decide_unpack _).
Qed.

Lemma object_text_no_BOM ms : trim_prefix byteOrderMark (object_text ms) = object_text ms.
Proof. done. Qed.

Lemma trim_BOM l : trim_prefix byteOrderMark (byteOrderMark ++ l) = l.
Proof. done. Qed.

(** ** Properties *)

(** The client data a browser serializes for a ceremony (type, base64url
    challenge, origin, crossOrigin, with or without a leading byte-order mark)
    is always accepted, and every member, the challenge bytes included, is read
    back exactly; the bytes to be hashed are kept verbatim. *)
Theorem client_data_roundtrip (bom : bool) (typ origin : string) (challenge : list byte) (crossOrigin : bool)
    (Htyp : ClientDataType_Known typ = true) (Horigin : plain origin) (Hne : origin ≠ "") (Hc : challenge ≠ []) :
  let text := (if bom then byteOrderMark else [])
              ++ object_text (ceremony_members typ origin challenge crossOrigin) in
  ∃ d, ParseCollectedClientData (mkByteValue (Some text)) = Ok d ∧
       ValidateType d typ = Ok () ∧ ChallengeBytes d = Ok challenge ∧ cd_Origin d = origin ∧
       cd_CrossOrigin d = Some crossOrigin ∧ HasTopOrigin d = false ∧ cd_TokenBinding d = None ∧
       bv_value (cd_Raw d) = Some text.
Proof.
  intros text. unfold ParseCollectedClientData. cbn [bv_value slice_list from_option id].
  assert (plain typ ∧ typ ≠ "") as [Hpt Hnt].
  { unfold ClientDataType_Known in Htyp. apply orb_true_iff in Htyp.
    rewrite !bool_decide_eq_true in Htyp. by destruct Htyp as [-> | ->]; (split; [by apply plain_check|]). }
  assert (trim_prefix byteOrderMark text = object_text (ceremony_members typ origin challenge crossOrigin)) as ->.
  { subst text. destruct bom; [apply trim_BOM|apply object_text_no_BOM]. }
  rewrite unmarshal_ceremony by done. cbn.
  rewrite !bool_decide_eq_false_2 by (done || by intros ?%EncodeToString_empty). cbn.
  eexists. split; [reflexivity|]. rewrite ValidateType_Ok, ChallengeBytes_Ok. done.
Qed.

Lemma client_data_roundtrip_witness :
  ∃ d, ParseCollectedClientData (mkByteValue (Some (byteOrderMark
         ++ object_text (ceremony_members "webauthn.get" "https://example.com" [x01; x02] false)))) = Ok d ∧
       ChallengeBytes d = Ok [x01; x02].
Proof.
  destruct (client_data_roundtrip true "webauthn.get" "https://example.com" [x01; x02] false)
    as (d & Hd & _ & Hc & _); [reflexivity|by apply plain_check|discriminate|discriminate|].
  exists d. split; [exact Hd|exact Hc].
Defined.

(** The challenge of client data decodes to given bytes exactly when it is
    their canonical unpadded base64url text, so no two different texts stand
    for one challenge. *)
Theorem challenge_bytes_canonical (d : CollectedClientData) (b : list byte) :
  ChallengeBytes d = Ok b ↔ cd_Challenge d = EncodeToString b.
Proof. apply ChallengeBytes_Ok. Qed.
