(* ===== verification/Origin.v ===== *)
(** * Origins and RP IDs

    Models [src/origin.go]: validation of configured origins and RP IDs, the
    scoping of origins to the RP ID, and the check of a client's reported
    origin against the policy.  URLs and IP addresses are those of [NetUrl].
    [strings.ToLower] is exact on ASCII; hosts with other bytes are refused by
    [validDNSName] whatever their case. *)
From S2P Require Import Prelude GoStrings NetUrl AuthData ClientData.
Set Default Goal Selector "!".
Local Open Scope Z_scope.

Definition ErrOriginMismatch : error := Sentinel "webauthn.ErrOriginMismatch".

Record OriginPolicy := mkOriginPolicy {
  AllowedOrigins : list string;
  AllowedTopOrigins : list string;
  AllowCrossOriginWithoutTopOrigin : bool;
  AllowRelatedOrigins : bool;
}.

#[export] Instance OriginPolicy_eq_dec : EqDecision OriginPolicy.
Proof. solve_decision. Defined.

(** [OriginPolicy.clone]: slices are values here, so the copy is equal. *)
Definition OriginPolicy_clone (p : OriginPolicy) : OriginPolicy :=
  {| AllowedOrigins := AllowedOrigins p; AllowedTopOrigins := AllowedTopOrigins p;
     AllowCrossOriginWithoutTopOrigin := AllowCrossOriginWithoutTopOrigin p;
     AllowRelatedOrigins := AllowRelatedOrigins p |}.

Definition dns_char (c : byte) : bool := is_lower c || is_digit c || bool_decide (c = x2d).

Definition valid_label (label : list byte) : bool :=
  negb (bool_decide (label = []) || (63 <? Z.of_nat (length label))
        || has_prefix [x2d] label || has_suffix [x2d] label)
  && forallb dns_char label.

Definition validDNSName (value : list byte) : bool :=
  if bool_decide (value = []) || (253 <? Z.of_nat (length value)) || has_prefix [x2e] value
     || has_suffix [x2e] value || contains_any (bytes_of_string "/:@?#") value
  then false
  else forallb valid_label (split x2e value).

Definition validRPID (value : list byte) : bool :=
  bool_decide (value = to_lower value) && bool_decide (trim_space value = value)
  && bool_decide (IP.ParseIP value = None) && validDNSName value.

Definition canonicalOriginHost (hostname : list byte) : bool :=
  match IP.ParseIP hostname with
  | Some address => bool_decide (IP.String address = hostname)
  | None => validDNSName hostname
  end.

(** [(port, explicit, ok)] *)
Definition canonicalOriginPort (host : list byte) : Z * bool * bool :=
  let checked (rawPort : list byte) :=
    match atoi rawPort with
    | Some port => if (port <? 1) || (65535 <? port) || negb (bool_decide (itoa port = rawPort))
                   then (0, true, false) else (port, true, true)
    | None => (0, true, false)
    end in
  if has_prefix [x5b] host then
    match cut_last x5d host with
    | None => (0, false, false)
    | Some (_, suffix) =>
        if bool_decide (suffix = []) then (0, false, true)
        else if negb (has_prefix [x3a] suffix) then (0, false, false)
        else checked (tl suffix)
    end
  else match cut_last x3a host with
  | Some (before, after) => if contains_byte x3a before then (0, false, false) else checked after
  | None => (0, false, true)
  end.

Definition validateWebAuthnOrigin (value : string) : result () :=
  let v := bytes_of_string value in
  _ ← fail_if (bool_decide (value = "")) (ErrorNew "origin is empty");
  let notCanonical := ErrorNew "origin must be a canonical scheme and authority" in
  parsed ← of_option notCanonical (NetUrl.Parse v);
  _ ← fail_if (negb (bool_decide (Opaque parsed = [])) || bool_decide (Scheme parsed = [])
               || bool_decide (Host parsed = []) || User parsed || negb (bool_decide (Path parsed = []))
               || negb (bool_decide (RawQuery parsed = [])) || negb (bool_decide (Fragment parsed = [])))
              notCanonical;
  let hostname := Hostname parsed in
  _ ← fail_if (bool_decide (hostname = []) || negb (bool_decide (hostname = to_lower hostname))
               || negb (bool_decide (origin_string parsed = v)) || negb (canonicalOriginHost hostname))
              (ErrorNew "origin is not canonical");
  let '(port, explicitPort, ok) := canonicalOriginPort (Host parsed) in
  let https := bool_decide (Scheme parsed = bytes_of_string "https") in
  let http := bool_decide (Scheme parsed = bytes_of_string "http") in
  _ ← fail_if (negb ok || (explicitPort && ((https && (port =? 443)) || (http && (port =? 80)))))
              (ErrorNew "origin port is not canonical");
  if https then Ok ()
  else if http && (bool_decide (hostname = bytes_of_string "localhost")
                   || match IP.ParseIP hostname with
                      | Some address => IP.IsLoopback address | None => false end)
  then Ok ()
  else Err (ErrorNew "origin must use https or loopback http").

Definition validateOriginPolicy (policy : OriginPolicy) : result () :=
  _ ← fail_if (bool_decide (AllowedOrigins policy = [])) (ErrorNew "allowed origins are required");
  _ ← for_each (λ origin, map_err (TextWrap "allowed origin") (validateWebAuthnOrigin origin))
        (AllowedOrigins policy);
  for_each (λ origin, map_err (TextWrap "allowed top origin") (validateWebAuthnOrigin origin))
    (AllowedTopOrigins policy).

Definition validateRPIDOriginPolicy (rpID : string) (policy : OriginPolicy) : result () :=
  let id := bytes_of_string rpID in
  _ ← fail_if (negb (validRPID id)) (ErrorNew "rp id is invalid");
  if AllowRelatedOrigins policy then Ok ()
  else for_each (λ origin,
    parsed ← of_option (ErrorNew "allowed origin is invalid") (NetUrl.Parse (bytes_of_string origin));
    let host := to_lower (Hostname parsed) in
    fail_if (negb (bool_decide (host = id)) && negb (has_suffix (x2e :: id) host))
            (ErrorNew "allowed origin is not scoped to rp id")) (AllowedOrigins policy).

Definition verifyCollectedClientOrigin (policy : OriginPolicy) (clientData : CollectedClientData) : result () :=
  _ ← fail_if (negb (bool_decide (cd_Origin clientData ∈ AllowedOrigins policy))) ErrOriginMismatch;
  let crossOrigin := bool_decide (cd_CrossOrigin clientData = Some true) in
  if HasTopOrigin clientData then
    _ ← fail_if (negb crossOrigin) ErrOriginMismatch;
    fail_if (negb (bool_decide (cd_TopOrigin clientData ∈ AllowedTopOrigins policy))) ErrOriginMismatch
  else fail_if (crossOrigin && negb (AllowCrossOriginWithoutTopOrigin policy)) ErrOriginMismatch.

Definition origin_ok (s : string) : bool := is_ok (validateWebAuthnOrigin s).
Example origin_vectors :
  forallb origin_ok ["https://example.com"; "https://a.example.com:8443"; "http://localhost";
    "http://127.0.0.1:3000"; "http://[::1]:8080"; "https://[2001:db8::1]"] = true
  ∧ existsb origin_ok ["https://example.com/"; "https://example.com:443"; "http://example.com"; "https://EXAMPLE.com";
      "https://u@example.com"; "ftp://example.com"; "https://example.com#"; "https://exa_mple.com";
      "http://localhost:80"; "https://example.com:080"; "https://example.com."; ""; "example.com"] = false.
Proof. by vm_compute. Qed.

(** ** DNS names *)

(** A label: 1 to 63 lower-case letters, digits and hyphens, not at its ends. *)
Definition dns_label (l : list byte) : Prop :=
  1 <= Z.of_nat (length l) <= 63 ∧ Forall (λ c, dns_char c = true) l ∧
  head l ≠ Some x2d ∧ last l ≠ Some x2d.

Lemma has_prefix_single c l : has_prefix [c] l = true ↔ head l = Some c.
Proof. destruct l as [|x l]; simpl; [done|]. rewrite andb_true_r, bool_decide_eq_true. naive_solver. Qed.

Lemma has_suffix_single c l : has_suffix [c] l = true ↔ last l = Some c.
Proof. unfold has_suffix. change (rev [c]) with [c]. rewrite has_prefix_single. rewrite <-head_reverse. unfold reverse. by rewrite rev_alt. Qed.

Lemma forallb_Forall {A} (f : A → bool) l : forallb f l = true ↔ Forall (λ x, f x = true) l.
Proof. rewrite forallb_forall, Forall_forall. by setoid_rewrite list_elem_of_In. Qed.

Lemma valid_label_spec l : valid_label l = true ↔ dns_label l.
Proof.
  unfold valid_label, dns_label.
  rewrite andb_true_iff, negb_true_iff, !orb_false_iff, bool_decide_eq_false, Z.ltb_ge, forallb_Forall.
  rewrite <-!not_true_iff_false, has_prefix_single, has_suffix_single.
  destruct l; simpl; [split; [by intros [(((? & ?) & ?) & ?) ?]|lia]|].
  split; intros; destruct_and?; split_and?; try done; lia.
Qed.

Lemma split_join c ps : ps ≠ [] → Forall (λ p, c ∉ p) ps → split c (join c ps) = ps.
Proof.
  intros Hne. induction 1 as [|p ps Hp Hps IH]; [done|]. destruct ps as [|q ps].
  - simpl. clear -Hp. induction p as [|x p IHp]; [done|]. apply not_elem_of_cons in Hp as [Hx Hp].
    simpl. rewrite decide_False by done. by rewrite IHp.
  - change (join c (p :: q :: ps)) with (p ++ c :: join c (q :: ps)).
    rewrite split_cons_prefix by done. by rewrite IH.
Qed.

Lemma dns_char_not c d : dns_char c = true → d ∈ bytes_of_string "./:@?#[]%" → c ≠ d.
Proof. intros Hc Hd ->. vm_compute in Hd. revert Hc. repeat (apply elem_of_cons in Hd as [->|Hd]; [done|]). by apply not_elem_of_nil in Hd. Qed.

Lemma elem_of_join c ps x : x ∈ join c ps → x = c ∨ ∃ p, p ∈ ps ∧ x ∈ p.
Proof.
  induction ps as [|p ps IH]; [by intros ?%not_elem_of_nil|]. destruct ps as [|q ps].
  - simpl. intros H. right. exists p. split; [by left|done].
  - change (join c (p :: q :: ps)) with (p ++ c :: join c (q :: ps)).
    rewrite elem_of_app, elem_of_cons. intros [H|[H|H]]; [right; exists p; split; [by left|done]|by left|].
    destruct (IH H) as [?|(r & Hr & Hx)]; [by left|]. right. exists r. split; [by right|done].
Qed.

Definition name_char (c : byte) : bool := dns_char c || bool_decide (c = x2e).

Lemma dns_join_chars labels : Forall dns_label labels → Forall (λ c, name_char c = true) (join x2e labels).
Proof.
  intros H. apply Forall_forall. intros x [->|(p & Hp & Hx)]%elem_of_join; [done|].
  rewrite Forall_forall in H. destruct (H p Hp) as (_ & Hd & _). rewrite Forall_forall in Hd.
  unfold name_char. by rewrite (Hd x Hx).
Qed.

Lemma join_head c ps p : head (join c (p :: ps)) = match p with [] => head (match ps with [] => [] | _ => [c] end) | x :: _ => Some x end.
Proof. destruct ps as [|q ps], p; done. Qed.

Lemma join_last c ps : last ps ≠ None → Forall (λ p, p ≠ []) ps →
  last (join c ps) = last ps ≫= last.
Proof.
  intros Hl. induction 1 as [|p ps Hp Hps IH]; [done|]. destruct ps as [|q ps]; [done|].
  change (join c (p :: q :: ps)) with (p ++ c :: join c (q :: ps)).
  change (last (p :: q :: ps)) with (last (q :: ps)) in *. rewrite last_app, last_cons.
  rewrite IH by done. destruct (last (q :: ps)) as [r|] eqn:E; [|done]. simpl.
  apply last_Some in E as [l' E]. assert (r ∈ q :: ps) as Hr by (rewrite E, elem_of_app; right; by left).
  rewrite Forall_forall in Hps. specialize (Hps r Hr).
  destruct (last r) eqn:Er; [done|]. by apply last_None in Er.
Qed.

Lemma validDNSName_labels v :
  validDNSName v = true ↔
  Z.of_nat (length v) <= 253 ∧ ∃ labels, labels ≠ [] ∧ Forall dns_label labels ∧ v = join x2e labels.
Proof.
  unfold validDNSName. destruct (_ || _) eqn:E.
  - split; [done|]. intros (Hlen & labels & Hne & Hl & ->). exfalso.
    assert (Forall (λ p, p ≠ []) labels) as Hnn.
    { eapply Forall_impl; [done|]. intros p (Hp & _) ->. simpl in Hp. lia. }
    apply orb_true_iff in E as [E|E].
    + rewrite !orb_true_iff, bool_decide_eq_true, has_prefix_single, has_suffix_single, Z.ltb_lt in E.
      destruct labels as [|p labels]; [done|].
      pose proof (Forall_inv Hl) as (Hp1 & Hpc & Hp2 & Hp3). pose proof (Forall_inv Hnn) as Hpn.
      destruct E as [[[E|E]|E]|E].
      * destruct labels, p; done.
      * lia.
      * rewrite join_head in E. destruct p as [|x p]; [done|]. apply Forall_inv in Hpc.
        injection E as ->. done.
      * rewrite join_last in E by (done || by intros ?%last_None).
        destruct (last (p :: labels)) as [r|] eqn:Er; [|done]. simpl in E.
        apply last_Some in Er as [l' Er]. apply last_Some in E as [r' ->].
        rewrite Er in Hl. apply Forall_app in Hl as [_ Hl]. apply Forall_inv in Hl as (_ & Hc & _).
        apply Forall_app in Hc as [_ Hc]. by apply Forall_inv in Hc.
    + unfold contains_any in E. apply existsb_exists in E as (x & Hx & Hin). apply bool_decide_eq_true in Hin.
      apply list_elem_of_In in Hx. pose proof (dns_join_chars _ Hl) as Hc. rewrite Forall_forall in Hc.
      specialize (Hc x Hx). clear -Hin Hc. vm_compute in Hin. revert Hc.
      repeat (apply elem_of_cons in Hin as [->|Hin]; [done|]). by apply not_elem_of_nil in Hin.
  - rewrite !orb_false_iff, Z.ltb_ge in E. destruct E as [[[[_ Hlen] _] _] _].
    rewrite forallb_Forall. setoid_rewrite valid_label_spec.
    destruct (split_spec x2e v) as [Hj Hs]. split.
    + intros H. split; [done|]. exists (split x2e v). split; [apply split_not_nil|]. by split.
    + intros (_ & labels & Hne & Hl & ->). rewrite split_join; [done|done|].
      eapply Forall_impl; [exact Hl|]. intros p (_ & Hc & _) Hin. rewrite Forall_forall in Hc.
      by apply Hc in Hin.
Qed.

(** ** URLs made of a scheme and an authority *)

Definition auth_char (c : byte) : bool := name_char c || bool_decide (c = x3a).

Lemma auth_char_safe c : auth_char c = true → host_safe c = true ∧ is_ctl c = false ∧
  c ∉ bytes_of_string "#?/@[]%".
Proof.
  intros H. assert (∀ b : bool, b = true → Is_true b) as Hb by (by intros []).
  destruct c; try discriminate H; (split_and!; [vm_compute; reflexivity..|]);
    apply (bool_decide_unpack _); vm_compute; exact I.
Qed.

Lemma auth_not_in c a : Forall (λ c, auth_char c = true) a → c ∈ bytes_of_string "#?/@[]%" → c ∉ a.
Proof. intros Ha Hc Hin. rewrite Forall_forall in Ha. by apply Ha, auth_char_safe in Hin as (_ & _ & ?). Qed.

Lemma unescape_auth a : Forall (λ c, auth_char c = true) a → unescape encodeHost a = Some a.
Proof.
  induction 1 as [|c a Hc Ha IH]; [done|]. apply auth_char_safe in Hc as (Hs & _ & Hn).
  cbn [unescape]. rewrite decide_False by (intros ->; apply Hn; apply (bool_decide_unpack _); vm_compute; exact I).
  rewrite Hs. cbn [negb]. rewrite andb_false_r, IH. done.
Qed.

Lemma escape_auth a : Forall (λ c, auth_char c = true) a → escape_host a = a.
Proof.
  induction 1 as [|c a Hc Ha IH]; [done|]. apply auth_char_safe in Hc as (Hs & _ & _).
  simpl. by rewrite Hs, IH.
Qed.

(** A host name, or a host name and a decimal port. *)
Lemma parseHost_name a : Forall (λ c, name_char c = true) a → parseHost a = Some a.
Proof.
  intros Ha. assert (Forall (λ c, auth_char c = true) a) as Hau.
  { eapply Forall_impl; [exact Ha|]. intros c Hc. unfold auth_char. by rewrite Hc. }
  unfold parseHost. rewrite (proj2 (cut_last_None _ _)).
  - rewrite (proj2 (cut_None _ _)); [by apply unescape_auth|].
    intros Hin. rewrite Forall_forall in Ha. by apply Ha in Hin.
  - apply auth_not_in; [done|]. by apply (bool_decide_unpack _).
Qed.

Lemma digit_auth c : is_digit c = true → auth_char c = true ∧ c ≠ x3a.
Proof. intros H. destruct c; try discriminate H; done. Qed.

Lemma parseHost_port a p :
  Forall (λ c, name_char c = true) a → Forall (λ c, is_digit c = true) p →
  parseHost (a ++ x3a :: p) = Some (a ++ x3a :: p).
Proof.
  intros Ha Hp. assert (Forall (λ c, auth_char c = true) (a ++ x3a :: p)) as Hau.
  { apply Forall_app. split; [|constructor; [done|]].
    - eapply Forall_impl; [exact Ha|]. intros c Hc. unfold auth_char. by rewrite Hc.
    - eapply Forall_impl; [exact Hp|]. intros c Hc. by apply digit_auth. }
  unfold parseHost. rewrite (proj2 (cut_last_None _ _)).
  - rewrite (proj2 (cut_Some _ _ a p)).
    + replace (contains_byte x3a p) with false; last first.
      { symmetry. apply not_true_iff_false. rewrite contains_byte_spec. intros Hin.
        rewrite Forall_forall in Hp. by apply Hp, digit_auth in Hin as [_ ?]. }
      rewrite (proj2 (forallb_Forall _ _)) by done. by apply unescape_auth.
    + split; [done|]. intros Hin. rewrite Forall_forall in Ha. by apply Ha in Hin.
  - apply auth_not_in; [done|]. by apply (bool_decide_unpack _).
Qed.

Lemma Parse_https a :
  Forall (λ c, auth_char c = true) a → parseHost a = Some a →
  NetUrl.Parse (bytes_of_string "https://" ++ a) =
    Some {| Scheme := bytes_of_string "https"; Opaque := []; User := false; Host := a; Path := [];
            ForceQuery := false; RawQuery := []; Fragment := [] |}.
Proof.
  intros Ha Hp.
  assert (∀ c, c ∈ bytes_of_string "#?/@[]%" → c ∉ a) as Hn by (intros; by apply auth_not_in).
  assert (∀ c, c ∈ bytes_of_string "#?@[]%" → c ∉ bytes_of_string "https://" ++ a) as Hn'.
  { intros c Hc. rewrite not_elem_of_app. split.
    - assert (Forall (λ d, d ∉ bytes_of_string "https://") (bytes_of_string "#?@[]%")) as HF
        by (apply (bool_decide_unpack _); vm_compute; exact I).
      rewrite Forall_forall in HF. by apply HF.
    - assert (Forall (λ d, d ∈ bytes_of_string "#?/@[]%") (bytes_of_string "#?@[]%")) as HF
        by (apply (bool_decide_unpack _); vm_compute; exact I).
      rewrite Forall_forall in HF. by apply Hn, HF. }
  unfold NetUrl.Parse. rewrite (proj2 (cut_None _ _)) by (apply Hn'; by apply (bool_decide_unpack _)).
  unfold parse_nofrag. replace (existsb is_ctl _) with false; last first.
  { symmetry. apply not_true_iff_false. rewrite existsb_exists. intros (c & Hin%list_elem_of_In & Hc).
    apply elem_of_app in Hin as [Hin|Hin].
    - vm_compute in Hin. revert Hc. repeat (apply elem_of_cons in Hin as [->|Hin]; [done|]). by apply not_elem_of_nil in Hin.
    - rewrite Forall_forall in Ha. apply Ha, auth_char_safe in Hin as (_ & Hctl & _). congruence. }
  rewrite bool_decide_eq_false_2 by done.
  change (getScheme (bytes_of_string "https://" ++ a)) with (Some (bytes_of_string "https", x2f :: x2f :: a)).
  cbn [mbind option_bind]. change (to_lower (bytes_of_string "https")) with (bytes_of_string "https").
  rewrite (proj2 (cut_None x3f (x2f :: x2f :: a))).
  2: { rewrite !not_elem_of_cons. split_and!; [done|done|]. apply Hn. by apply (bool_decide_unpack _). }
  cbn -[cut parseHost unescape]. change (bool_decide (x2f = x2f)) with true. cbn [andb negb].
  rewrite drop_0, (proj2 (cut_None x2f a)) by (apply Hn; by apply (bool_decide_unpack _)).
  unfold parseAuthority. rewrite (proj2 (cut_last_None x40 a)) by (apply Hn; by apply (bool_decide_unpack _)).
  rewrite Hp. done.
Qed.

(** ** Accepted values *)

Lemma to_lower_name v : Forall (λ c, name_char c = true) v → to_lower v = v.
Proof.
  unfold to_lower. induction 1 as [|c v Hc Hv IH]; [done|]. rewrite fmap_cons, IH. f_equal.
  destruct c; try discriminate Hc; done.
Qed.

Lemma trim_left_name v : Forall (λ c, name_char c = true) v → trim_left v = v.
Proof. destruct 1 as [|c v Hc Hv]; [done|]. simpl. destruct c; try discriminate Hc; done. Qed.

Lemma trim_space_name v : Forall (λ c, name_char c = true) v → trim_space v = v.
Proof.
  intros Hv. unfold trim_space. rewrite (trim_left_name v) by done.
  rewrite trim_left_name; [apply rev_involutive|]. rewrite rev_alt. by apply Forall_reverse.
Qed.

Lemma validRPID_Ok v :
  validRPID v = true ↔
  IP.ParseIP v = None ∧ Z.of_nat (length v) <= 253 ∧
  ∃ labels, labels ≠ [] ∧ Forall dns_label labels ∧ v = join x2e labels.
Proof.
  unfold validRPID. rewrite !andb_true_iff, !bool_decide_eq_true, validDNSName_labels. split.
  - intros [[[_ _] ?] ?]. done.
  - intros (Hip & Hlen & labels & Hne & Hl & ->). split_and!; try done; [| |by exists labels].
    + symmetry. by apply to_lower_name, dns_join_chars.
    + by apply trim_space_name, dns_join_chars.
Qed.

Lemma port_digits p : 1 <= p <= 65535 →
  atoi (itoa p) = Some p ∧ Forall (λ c, is_digit c = true) (itoa p).
Proof.
  intros Hp. assert (0 <= p <= max_int) by (unfold max_int; lia).
  split; [by apply atoi_itoa|by apply itoa_digits].
Qed.

Lemma colon_not_in_port p : 1 <= p <= 65535 → x3a ∉ itoa p.
Proof.
  intros Hp Hin. destruct (port_digits p Hp) as (_ & Hd). rewrite Forall_forall in Hd.
  by apply Hd, digit_auth in Hin as [_ ?].
Qed.

(** The port suffix of an authority. *)
Definition port_suffix (port : option Z) : list byte :=
  match port with Some p => x3a :: itoa p | None => [] end.

Lemma not_bracketed c v : name_char c = true → strip_brackets (c :: v) = c :: v.
Proof. intros Hc. unfold strip_brackets. destruct c; try discriminate Hc; done. Qed.

Lemma Hostname_of_authority host port u :
  Forall (λ c, name_char c = true) host → host ≠ [] →
  (∀ p, port = Some p → 1 <= p <= 65535) →
  Host u = host ++ port_suffix port → Hostname u = host.
Proof.
  intros Hh Hne Hp Hu. unfold Hostname, strip_port. rewrite Hu.
  assert (strip_brackets host = host) as Hb.
  { destruct Hh as [|c host Hc Hh]; [done|]. by apply not_bracketed. }
  assert (x3a ∉ host) as Hcolon by (intros Hin; rewrite Forall_forall in Hh; by apply Hh in Hin).
  destruct port as [p|]; simpl.
  - rewrite cut_last_app by (by apply colon_not_in_port, Hp).
    by rewrite (proj2 (forallb_Forall _ _)) by (by apply port_digits, Hp).
  - rewrite app_nil_r. by rewrite (proj2 (cut_last_None _ _)).
Qed.

Lemma canonicalOriginPort_suffix host port :
  Forall (λ c, name_char c = true) host → host ≠ [] →
  (∀ p, port = Some p → 1 <= p <= 65535) →
  canonicalOriginPort (host ++ port_suffix port) =
    match port with Some p => (p, true, true) | None => (0, false, true) end.
Proof.
  intros Hh Hne Hp. unfold canonicalOriginPort.
  assert (has_prefix [x5b] (host ++ port_suffix port) = false) as ->.
  { destruct Hh as [|c host Hc Hh]; [done|]. simpl. destruct c; try discriminate Hc; done. }
  assert (x3a ∉ host) as Hcolon by (intros Hin; rewrite Forall_forall in Hh; by apply Hh in Hin).
  destruct port as [p|]; simpl; [|rewrite app_nil_r; by rewrite (proj2 (cut_last_None _ _))].
  specialize (Hp p eq_refl). rewrite cut_last_app by (by apply colon_not_in_port).
  assert (contains_byte x3a host = false) as ->
    by (apply not_true_iff_false; by rewrite contains_byte_spec).
  rewrite (proj1 (port_digits p Hp)). rewrite (proj2 (Z.ltb_ge _ 1)), (proj2 (Z.ltb_ge 65535 _)) by lia.
  by rewrite bool_decide_eq_true_2.
Qed.

Lemma validateWebAuthnOrigin_https host port :
  Forall (λ c, name_char c = true) host → host ≠ [] → canonicalOriginHost host = true →
  (∀ p, port = Some p → 1 <= p <= 65535 ∧ p ≠ 443) →
  validateWebAuthnOrigin (string_of_bytes (bytes_of_string "https://" ++ host ++ port_suffix port)) = Ok ().
Proof.
  intros Hh Hne Hc Hp.
  assert (∀ p, port = Some p → 1 <= p <= 65535) as Hp' by (intros p ->; by apply Hp).
  assert (parseHost (host ++ port_suffix port) = Some (host ++ port_suffix port)) as Hparse.
  { destruct port as [p|]; simpl; [apply parseHost_port; [done|]; by apply port_digits, Hp'|].
    rewrite app_nil_r. by apply parseHost_name. }
  assert (Forall (λ c, auth_char c = true) (host ++ port_suffix port)) as Hauth.
  { apply Forall_app. split.
    - eapply Forall_impl; [exact Hh|]. intros c Hcc. unfold auth_char. by rewrite Hcc.
    - destruct port as [p|]; simpl; [|constructor]. constructor; [done|].
      eapply Forall_impl; [by apply port_digits, Hp'|]. intros c ?. by apply digit_auth. }
  unfold validateWebAuthnOrigin. rewrite bytes_of_string_of_bytes, bool_decide_eq_false_2 by done.
  rewrite Parse_https by done. set (a := host ++ port_suffix port) in *.
  assert (a ≠ []) by (subst a; by destruct host).
  cbn [of_option mbind result_bind fail_if]. set (u := {| Scheme := _ |}).
  assert (Hostname u = host) as -> by (by eapply Hostname_of_authority).
  rewrite to_lower_name, Hc by done.
  assert (origin_string u = bytes_of_string "https://" ++ a) as ->
    by (unfold origin_string; cbn [Scheme Host ForceQuery u]; by rewrite escape_auth, app_nil_r).
  rewrite !(bool_decide_eq_true_2 (_ ++ _ = _)) by done. rewrite (bool_decide_eq_true_2 (host = host)) by done.
  rewrite (bool_decide_eq_false_2 (host = [])) by done.
  cbn -[canonicalOriginPort]. rewrite (bool_decide_eq_false_2 (a = [])) by done. subst a.
  rewrite canonicalOriginPort_suffix by done. destruct port as [p|]; [|done].
  destruct (Hp p eq_refl) as [_ Hne443]. cbn. by rewrite (proj2 (Z.eqb_neq _ _)).
Qed.

(** ** The text of an accepted origin *)

(** The characters of an IP address literal. *)
Definition ip_char (c : byte) : bool :=
  bool_decide (is_Some (IP.hex_val c)) || bool_decide (c = x2e) || bool_decide (c = x3a).

Lemma ip_char_safe c : ip_char c = true → host_safe c = true.
Proof. intros H. destruct c; try discriminate H; reflexivity. Qed.

Lemma digit_ip c : is_digit c = true → ip_char c = true.
Proof. intros H. destruct c; try discriminate H; reflexivity. Qed.

Lemma parse_v4_chars l os : IP.parse_v4 l = Some os → Forall (λ c, ip_char c = true) l.
Proof.
  unfold IP.parse_v4. intros (ps & Hm & _)%bind_Some.
  destruct (split_spec x2e l) as [<- _]. apply Forall_forall.
  intros x [->|(p & Hp & Hx)]%elem_of_join; [done|].
  apply mapM_Some in Hm. apply list_elem_of_lookup in Hp as [i Hp].
  destruct (Forall2_lookup_l _ _ _ _ _ Hm Hp) as (z & _ & Hz). unfold IP.octet in Hz.
  destruct (_ || _) eqn:E in Hz; [done|]. rewrite !orb_false_iff, negb_false_iff, forallb_Forall in E.
  destruct E as [[[_ Hd] _] _]. rewrite Forall_forall in Hd. by apply digit_ip, Hd.
Qed.

Lemma hex_prefix_chars fuel n acc l n' acc' rest :
  IP.hex_prefix fuel n acc l = Some (n', acc', rest) →
  ∃ pre, l = pre ++ rest ∧ Forall (λ c, ip_char c = true) pre.
Proof.
  revert n acc l. induction fuel as [|fuel IH]; intros n acc l; [intros [= _ _ <-]; by exists []|].
  destruct l as [|c l]; cbn [IP.hex_prefix]; [intros [= _ _ <-]; by exists []|].
  destruct (IP.hex_val c) as [v|] eqn:Hv; [|intros [= _ _ <-]; by exists []].
  destruct (3 <? n); [done|]. intros (pre & -> & Hpre)%IH. exists (c :: pre). split; [done|].
  constructor; [|done]. unfold ip_char. rewrite Hv. by rewrite bool_decide_eq_true_2.
Qed.

Lemma parse_v6_loop_chars fuel ip ell l r :
  IP.parse_v6_loop fuel ip ell l = Some (r, []) → Forall (λ c, ip_char c = true) l.
Proof.
  revert ip ell l. induction fuel as [|fuel IH]; intros ip ell l; cbn [IP.parse_v6_loop];
    (destruct (_ <=? _)%nat; [by intros [= _ ->]|]); [done|].
  intros ([[n acc] rest] & Hh & H)%bind_Some. destruct (n =? 0); [done|].
  destruct (hex_prefix_chars _ _ _ _ _ _ _ Hh) as (pre & -> & Hpre).
  destruct rest as [|c rest]; [by rewrite app_nil_r|].
  destruct (decide (c = x2e)) as [->|_].
  { destruct (_ && _); [done|]. destruct (_ <? _)%nat; [done|].
    destruct (IP.parse_v4 _) eqn:E in H; [|done]. by eapply parse_v4_chars. }
  destruct (decide (c = x3a)) as [->|_]; [|done]. apply Forall_app. split; [done|]. constructor; [done|].
  destruct rest as [|c2 rest2]; [done|]. destruct (decide (c2 = x3a)) as [->|_]; [|by apply IH in H].
  constructor; [done|]. destruct ell; [done|]. destruct rest2; [done|]. by apply IH in H.
Qed.

Lemma ParseIP_chars l a : IP.ParseIP l = Some a → Forall (λ c, ip_char c = true) l.
Proof.
  unfold IP.ParseIP. destruct (IP.first_sep l) as [c|]; [|done]. destruct (decide (c = x2e)).
  { intros (os & Hos & _)%fmap_Some. by eapply parse_v4_chars. }
  destruct (decide (c = x3a)); [|done]. destruct (contains_byte x25 l); [done|].
  intros (g & Hg & _)%fmap_Some. revert Hg. unfold IP.parse_v6.
  destruct (match l with [] => _ | _ => _ end) as [ell l'] eqn:El.
  assert (Forall (λ c, ip_char c = true) l' → Forall (λ c, ip_char c = true) l) as Hl.
  { destruct l as [|x [|y r]]; [by injection El as _ <-|by injection El as _ <-|].
    destruct (bool_decide (x = x3a)) eqn:Ex; [|by injection El as _ <-].
    destruct (bool_decide (y = x3a)) eqn:Ey; [|by injection El as _ <-]. injection El as _ <-.
    apply bool_decide_eq_true in Ex as ->. apply bool_decide_eq_true in Ey as ->. intros ?. by repeat constructor. }
  destruct (_ && _) eqn:E.
  { apply andb_true_iff in E as [_ E%bool_decide_eq_true]. intros _. apply Hl. by rewrite E. }
  intros ([[ip ell2] rest] & Hloop & H)%bind_Some. destruct (bool_decide (rest = [])) eqn:Er; [|done].
  apply bool_decide_eq_true in Er as ->. by eapply Hl, parse_v6_loop_chars.
Qed.

Lemma ParseIP_V6_colon l g : IP.ParseIP l = Some (IP.V6 g) → x3a ∈ l.
Proof.
  unfold IP.ParseIP. destruct (IP.first_sep l) as [c|] eqn:E; [|done].
  destruct (decide (c = x2e)); [by destruct (IP.parse_v4 l)|]. destruct (decide (c = x3a)) as [->|]; [|done].
  intros _. revert E. induction l as [|x l IH]; [done|]. cbn [IP.first_sep].
  destruct (bool_decide _); [intros [= ->]; by left|]. intros ?. right. by apply IH.
Qed.

(** An address with a colon in it, which a URL writes in brackets. *)
Definition is_ipv6 (host : list byte) : bool :=
  match IP.ParseIP host with Some (IP.V6 _) => true | _ => false end.

(** [scheme://host], [scheme://host:port], and either with an empty query. *)
Definition origin_text (scheme host : list byte) (port : option Z) (empty_query : bool) : list byte :=
  scheme ++ bytes_of_string "://" ++ (if is_ipv6 host then x5b :: host ++ [x5d] else host)
  ++ port_suffix port ++ (if empty_query then [x3f] else []).

(** A host in canonical form: an IP address as Go prints it, or a DNS name of
    lower-case labels. *)
Definition canonical_host (host : list byte) : Prop :=
  (∃ address, IP.ParseIP host = Some address ∧ IP.String address = host) ∨
  (IP.ParseIP host = None ∧ Z.of_nat (length host) <= 253 ∧
   ∃ labels, labels ≠ [] ∧ Forall dns_label labels ∧ host = join x2e labels).

(** The local machine, the only host plain http may name. *)
Definition local_host (host : list byte) : Prop :=
  host = bytes_of_string "localhost" ∨
  ∃ address, IP.ParseIP host = Some address ∧ IP.IsLoopback address = true.

(** What an accepted origin is: https, or http to the local machine, with a
    canonical host and a port that is written only when it is not the default. *)
Definition canonical_origin (value : string) (host : list byte) : Prop :=
  ∃ scheme port empty_query,
    bytes_of_string value = origin_text scheme host port empty_query ∧ canonical_host host ∧
    (scheme = bytes_of_string "https" ∧ port ≠ Some 443 ∨
     scheme = bytes_of_string "http" ∧ port ≠ Some 80 ∧ local_host host) ∧
    (∀ p, port = Some p → 1 <= p <= 65535).

Lemma canonicalOriginHost_host host : canonicalOriginHost host = true ↔ canonical_host host.
Proof.
  unfold canonicalOriginHost, canonical_host. destruct (IP.ParseIP host) as [a|] eqn:E.
  - rewrite bool_decide_eq_true. split; [intros H; left; by exists a|naive_solver].
  - rewrite validDNSName_labels. naive_solver.
Qed.

Lemma canonical_host_safe host : canonical_host host → Forall (λ c, host_safe c = true) host ∧ x25 ∉ host.
Proof.
  intros [(a & Ha & _)|(_ & _ & labels & _ & Hl & ->)].
  - apply ParseIP_chars in Ha. split; [eapply Forall_impl; [exact Ha|]; apply ip_char_safe|].
    intros Hin. rewrite Forall_forall in Ha. by apply Ha in Hin.
  - apply dns_join_chars in Hl. split.
    + eapply Forall_impl; [exact Hl|]. intros c Hc. apply auth_char_safe. unfold auth_char. by rewrite Hc.
    + intros Hin. rewrite Forall_forall in Hl. by apply Hl in Hin.
Qed.

Lemma bracketed_safe host : canonical_host host →
  Forall (λ c, host_safe c = true) (if is_ipv6 host then x5b :: host ++ [x5d] else host).
Proof.
  intros [Hs _]%canonical_host_safe. destruct (is_ipv6 host); [|done].
  constructor; [done|]. apply Forall_app. by repeat constructor.
Qed.

Lemma escape_safe l : Forall (λ c, host_safe c = true) l → escape_host l = l.
Proof. induction 1 as [|c l Hc Hl IH]; [done|]. simpl. by rewrite Hc, IH. Qed.

(** The authority that the port check accepts, taken apart. *)
Lemma checked_port rawPort port :
  match atoi rawPort with
  | Some port => if (port <? 1) || (65535 <? port) || negb (bool_decide (itoa port = rawPort))
                 then (0, true, false) else (port, true, true)
  | None => (0, true, false)
  end = (port, true, true) → rawPort = itoa port ∧ 1 <= port <= 65535.
Proof.
  destruct (atoi rawPort) as [p|]; [|done]. destruct (_ || _) eqn:E; [done|]. intros [= ->].
  rewrite !orb_false_iff, negb_false_iff, bool_decide_eq_true, !Z.ltb_ge in E. destruct E as [[? ?] ?]. by split.
Qed.

Definition explicit_port (port : Z) (explicit : bool) : option Z := if explicit then Some port else None.

Lemma strip_port_port before p : 1 <= p <= 65535 → strip_port (before ++ x3a :: itoa p) = before.
Proof.
  intros Hp. unfold strip_port. rewrite cut_last_app by (by apply colon_not_in_port).
  cbn. by rewrite (proj2 (forallb_Forall _ _)) by (by apply port_digits).
Qed.

Lemma strip_brackets_bracketed inner : strip_brackets (x5b :: inner ++ [x5d]) = inner.
Proof.
  unfold strip_brackets.
  assert (has_prefix [x5b] (x5b :: inner ++ [x5d]) = true) as -> by (by apply has_prefix_spec; eexists).
  assert (has_suffix [x5d] (x5b :: inner ++ [x5d]) = true) as -> by (apply has_suffix_spec; by exists (x5b :: inner)).
  cbn [andb tl]. apply removelast_last.
Qed.

Lemma unbracketed_authority h port explicit :
  has_prefix [x5b] h = false → canonicalOriginPort h = (port, explicit, true) →
  h = strip_brackets (strip_port h) ++ port_suffix (explicit_port port explicit) ∧
  x3a ∉ strip_brackets (strip_port h) ∧ (∀ p, explicit_port port explicit = Some p → 1 <= p <= 65535).
Proof.
  intros Hb H. unfold canonicalOriginPort in H. rewrite Hb in H.
  destruct (cut_last x3a h) as [[before after]|] eqn:Ec.
  - apply cut_last_Some in Ec as [-> _]. destruct (contains_byte x3a before) eqn:Hc; [done|].
    assert (explicit = true) as ->.
    { destruct (atoi after); [destruct (_ || _ || _)|]; by injection H. }
    apply checked_port in H as [-> Hp]. rewrite strip_port_port by done.
    assert (strip_brackets before = before) as ->.
    { unfold strip_brackets. destruct before as [|x before]; [done|]. change (has_prefix [x5b] (x :: before)) with (has_prefix [x5b] ((x :: before) ++ x3a :: itoa port)). by rewrite Hb. }
    split_and!; [done|by rewrite <-contains_byte_spec, Hc|by intros p [= <-]].
  - injection H as <- <-. unfold strip_port. rewrite Ec. apply cut_last_None in Ec.
    unfold strip_brackets. rewrite Hb. cbn. by rewrite app_nil_r.
Qed.

Lemma bracketed_authority inner suffix port explicit :
  x5d ∉ suffix → canonicalOriginPort (x5b :: inner ++ x5d :: suffix) = (port, explicit, true) →
  suffix = port_suffix (explicit_port port explicit) ∧
  strip_brackets (strip_port (x5b :: inner ++ x5d :: suffix)) = inner ∧
  (∀ p, explicit_port port explicit = Some p → 1 <= p <= 65535).
Proof.
  intros Hs H. unfold canonicalOriginPort in H.
  change (has_prefix [x5b] (x5b :: inner ++ x5d :: suffix)) with true in H. cbv iota in H.
  assert (cut_last x5d (x5b :: inner ++ x5d :: suffix) = Some (x5b :: inner, suffix)) as Hcut
    by (by apply (cut_last_app x5d (x5b :: inner))).
  rewrite Hcut in H. clear Hcut.
  destruct suffix as [|c suffix].
  - change (bool_decide ([] = [])) with true in H. injection H as <- <-. split_and!; [done| |done].
    unfold strip_port. destruct (cut_last x3a _) as [[a b]|] eqn:Ec; [|apply strip_brackets_bracketed].
    destruct (validOptionalPort (x3a :: b)) eqn:Ev; [|apply strip_brackets_bracketed]. exfalso.
    apply cut_last_Some in Ec as [Ec _]. change (forallb is_digit b = true) in Ev. rewrite forallb_Forall in Ev.
    apply (f_equal last) in Ec. rewrite app_comm_cons, !last_app, !last_cons in Ec.
    destruct (last b) as [z|] eqn:Hl; [|discriminate Ec]. injection Ec as <-.
    apply last_Some in Hl as [b' ->]. apply Forall_app in Ev as [_ Ev]. by apply Forall_inv in Ev.
  - rewrite bool_decide_eq_false_2 in H by done.
    destruct (has_prefix [x3a] (c :: suffix)) eqn:Hc; [|done]. cbn [negb tl] in H.
    apply has_prefix_single in Hc as [= ->].
    assert (explicit = true) as ->.
    { destruct (atoi suffix); [destruct (_ || _ || _)|]; by injection H. }
    apply checked_port in H as [-> Hp]. split_and!; [done| |by intros p [= <-]].
    replace (x5b :: inner ++ x5d :: x3a :: itoa port) with ((x5b :: inner ++ [x5d]) ++ x3a :: itoa port)
      by (cbn; by rewrite <-app_assoc).
    rewrite strip_port_port by done. apply strip_brackets_bracketed.
Qed.

(** Percent-decoding a host never produces a bracket. *)
Lemma unescape_host_bracket l h : unescape encodeHost l = Some h → x5b ∉ l → x5b ∉ h.
Proof.
  remember (length l) as n eqn:Hn. revert l h Hn. induction (lt_wf n) as [n _ IH]. intros l h ->.
  destruct l as [|c rest]; cbn [unescape]; [intros [= <-] _; apply not_elem_of_nil|].
  rewrite not_elem_of_cons. intros H [Hc Hr]. destruct (decide (c = x25)).
  - destruct rest as [|h1 [|h2 rest]]; [done|done|].
    destruct (IP.hex_val h1) as [v1|] eqn:E1; [|done]. destruct (IP.hex_val h2) as [v2|] eqn:E2; [|done].
    destruct (_ && _) eqn:Er; [done|]. apply bind_Some in H as (tail & Ht & [= <-]).
    rewrite !not_elem_of_cons in Hr. apply not_elem_of_cons. split; [|eapply IH; [|done|exact Ht|naive_solver]; cbn; lia].
    intros Hv. clear -E1 E2 Er Hv. destruct h1; try discriminate E1; injection E1 as <-; cbn in Er;
    destruct h2; try discriminate E2; injection E2 as <-; vm_compute in Er, Hv; discriminate.
  - destruct (_ && _); [done|]. apply bind_Some in H as (tail & Ht & [= <-]).
    apply not_elem_of_cons. split; [done|]. eapply IH; [|done|exact Ht|done]. cbn. lia.
Qed.

(** A parsed host either has no opening bracket or is a bracketed IPv6 literal. *)
Lemma parseHost_shape l h : parseHost l = Some h →
  has_prefix [x5b] h = false ∨
  ∃ name suffix, h = x5b :: name ++ x5d :: suffix ∧ x5d ∉ suffix ∧ (x25 ∉ name → is_ipv6 name = true).
Proof.
  unfold parseHost. destruct (cut_last x5b l) as [[[|x a] inner]|] eqn:Ec; [|done|].
  - intros ([hostname colonPort] & Hcut & H)%bind_Some. destruct (validOptionalPort colonPort) eqn:Ev; [|done].
    cbn [negb] in H. apply bind_Some in H as (port & Hport & H). apply bind_Some in H as (name & _ & H).
    right. exists name, port.
    assert (port = colonPort) as ->.
    { assert (unescape encodeHost colonPort = Some colonPort) as Hu; [|congruence]. apply unescape_auth.
      destruct colonPort as [|c p]; [done|]. apply andb_true_iff in Ev as [->%bool_decide_eq_true Ev].
      rewrite forallb_Forall in Ev. constructor; [done|]. eapply Forall_impl; [exact Ev|]. intros c ?. by apply digit_auth. }
    apply cut_last_Some in Hcut as [_ Hn]. unfold is_ipv6.
    destruct (cut x25 name) as [[lit z]|] eqn:Hz.
    + apply cut_Some in Hz as [-> _]. destruct (IP.ParseIP lit) as [[]|]; [done| |done].
      injection H as <-. split_and!; [done|done|]. intros []. apply elem_of_app. right. by left.
    + destruct (IP.ParseIP name) as [[]|]; [done| |done]. by injection H as <-.
  - apply cut_last_None in Ec. intros H. left. apply not_true_iff_false. rewrite has_prefix_single. intros Hh.
    assert (unescape encodeHost l = Some h) as Hu by (destruct (cut x3a l) as [[? ?]|]; [destruct (_ || _)|]; done).
    apply (unescape_host_bracket _ _ Hu Ec). destruct h; [done|]. injection Hh as ->. by left.
Qed.

Lemma Parse_host l u : NetUrl.Parse l = Some u → Host u = [] ∨ ∃ a, parseHost a = Some (Host u).
Proof.
  assert (∀ l u, parse_nofrag l = Some u → Host u = [] ∨ ∃ a, parseHost a = Some (Host u)) as Hnf.
  { clear. intros l u. unfold parse_nofrag. destruct (existsb is_ctl l); [done|].
    destruct (bool_decide (l = _)); [intros [= <-]; by left|]. intros ([scheme rest] & _ & H)%bind_Some.
    destruct (match cut x3f rest with Some _ => _ | None => _ end) as [[force rest'] query].
    destruct (_ && _); [injection H as <-; by left|]. destruct (_ && _); [done|].
    apply bind_Some in H as ([[user host] path] & Ha & H). apply bind_Some in H as (p & _ & [= <-]). cbn [Host].
    destruct (_ && _); [|injection Ha as _ <- _; by left].
    destruct (match cut x2f _ with Some _ => _ | None => _ end) as [auth pth].
    apply bind_Some in Ha as ([us ho] & Hauth & [= -> -> ->]). right. unfold parseAuthority in Hauth.
    destruct (cut_last x40 auth) as [[? r]|]; apply bind_Some in Hauth as (h & Hh & [= _ <-]); by eexists. }
  unfold NetUrl.Parse. destruct (cut x23 l) as [[before frag]|]; [|apply Hnf].
  intros (u' & Hu & H)%bind_Some. apply bind_Some in H as (f & _ & [= <-]). cbn [Host]. by eapply Hnf.
Qed.

(** The parsed authority is the canonical host, bracketed when it is an IPv6
    address, and its port. *)
Lemma parsed_authority l u port explicit :
  NetUrl.Parse l = Some u → Host u ≠ [] → canonical_host (Hostname u) →
  canonicalOriginPort (Host u) = (port, explicit, true) →
  Host u = (if is_ipv6 (Hostname u) then x5b :: Hostname u ++ [x5d] else Hostname u)
           ++ port_suffix (explicit_port port explicit) ∧
  (∀ p, explicit_port port explicit = Some p → 1 <= p <= 65535).
Proof.
  intros [?|(a & Ha)]%Parse_host Hne Hc Hp; [done|]. unfold Hostname in *.
  apply parseHost_shape in Ha as [Hb|(name & suffix & Hh & Hs & H6)].
  - destruct (unbracketed_authority _ _ _ Hb Hp) as (Hh & Hcolon & Hport). split; [|done].
    assert (is_ipv6 (strip_brackets (strip_port (Host u))) = false) as ->; [|done].
    unfold is_ipv6. destruct (IP.ParseIP _) as [[]|] eqn:E; [done| |done]. exfalso.
    apply Hcolon. by eapply ParseIP_V6_colon.
  - rewrite Hh in Hp, Hc |- *. destruct (bracketed_authority _ _ _ _ Hs Hp) as (Hsuf & Hstrip & Hport).
    rewrite Hstrip in Hc |- *. split; [|done]. rewrite H6 by (by apply canonical_host_safe).
    rewrite Hsuf. cbn. by rewrite <-app_assoc.
Qed.

Lemma validateWebAuthnOrigin_sound value r :
  validateWebAuthnOrigin value = Ok r →
  ∃ u, NetUrl.Parse (bytes_of_string value) = Some u ∧ to_lower (Hostname u) = Hostname u ∧
       canonical_origin value (Hostname u).
Proof.
  unfold validateWebAuthnOrigin. intros H.
  apply bind_Ok in H as (? & _ & H). apply bind_Ok in H as (u & Hu%of_option_Ok & H).
  apply bind_Ok in H as (? & H1%fail_if_Ok & H). apply bind_Ok in H as (? & H2%fail_if_Ok & H).
  exists u. rewrite !orb_false_iff, !negb_false_iff, !bool_decide_eq_true in H1.
  rewrite !orb_false_iff, !negb_false_iff, !bool_decide_eq_true in H2.
  destruct H1 as [[[[[[_ _] Hhost%bool_decide_eq_false] _] _] _] _].
  destruct H2 as [[[_ Hl] Ho] Hc%canonicalOriginHost_host].
  do 2 (split; [done|]).
  destruct (canonicalOriginPort (Host u)) as [[port ex] ok] eqn:Ep.
  apply bind_Ok in H as (? & H3%fail_if_Ok & H).
  apply orb_false_iff in H3 as [->%negb_false_iff H3].
  destruct (parsed_authority _ _ _ _ Hu Hhost Hc Ep) as (Hauth & Hrange).
  exists (Scheme u), (explicit_port port ex), (ForceQuery u). split_and!; [|done| |done].
  - rewrite <-Ho. unfold origin_string, origin_text. rewrite Hauth at 1. rewrite escape_safe.
    { by rewrite <-!app_assoc. }
    apply Forall_app. split; [by apply bracketed_safe|].
    destruct (explicit_port port ex) as [p|]; [|constructor]. constructor; [done|].
    eapply Forall_impl; [by apply port_digits, Hrange|]. intros c ?. by apply auth_char_safe, digit_auth.
  - case_bool_decide as Hs.
    { left. split; [done|]. destruct ex; [|done]. rewrite andb_true_l, orb_false_iff, andb_true_l, Z.eqb_neq in H3. naive_solver. }
    right. destruct (bool_decide (Scheme u = bytes_of_string "http")) eqn:E; [|done].
    split; [by apply bool_decide_eq_true in E|]. split.
    { destruct ex; [|done]. cbn in H3. rewrite Z.eqb_neq in H3. naive_solver. }
    destruct (bool_decide (Hostname u = _)) eqn:E2; [left; by apply bool_decide_eq_true in E2|]. right.
    destruct (IP.ParseIP (Hostname u)) as [a|]; [|done]. destruct (IP.IsLoopback a) eqn:E3; [|done]. by exists a.
Qed.

Lemma verifyCollectedClientOrigin_Ok policy d u :
  verifyCollectedClientOrigin policy d = Ok u ↔
  cd_Origin d ∈ AllowedOrigins policy ∧
  if HasTopOrigin d
  then cd_CrossOrigin d = Some true ∧ cd_TopOrigin d ∈ AllowedTopOrigins policy
  else cd_CrossOrigin d = Some true → AllowCrossOriginWithoutTopOrigin policy = true.
Proof.
  destruct u. unfold verifyCollectedClientOrigin.
  destruct (decide (cd_Origin d ∈ AllowedOrigins policy)) as [Ho|Ho];
    [rewrite (bool_decide_eq_true_2 _ Ho)|rewrite (bool_decide_eq_false_2 _ Ho); by split; [intros [=]|intros [? _]]].
  cbn [negb fail_if mbind result_bind]. destruct (HasTopOrigin d).
  - destruct (bool_decide (cd_CrossOrigin d = _)) eqn:E; cbn [negb fail_if mbind result_bind].
    + apply bool_decide_eq_true in E. rewrite fail_if_Ok, negb_false_iff, bool_decide_eq_true. naive_solver.
    + apply bool_decide_eq_false in E. naive_solver.
  - rewrite fail_if_Ok, andb_false_iff, negb_false_iff, bool_decide_eq_false.
    split.
    + intros [?|?]; (split; [done|]); intros ?; [by exfalso|done].
    + intros [_ H]. destruct (AllowCrossOriginWithoutTopOrigin policy); [by right|].
      left. intros Hc. by specialize (H Hc).
Qed.

(** ** Properties *)

(** An RP ID is accepted exactly when it is a DNS name in canonical form:
    at most 253 bytes, dot-separated labels of 1 to 63 lower-case letters,
    digits and inner hyphens, and not an IP address literal. *)
Theorem rp_id_grammar (v : list byte) :
  validRPID v = true ↔
  IP.ParseIP v = None ∧ Z.of_nat (length v) <= 253 ∧
  ∃ labels, labels ≠ [] ∧ Forall dns_label labels ∧ v = join x2e labels.
Proof. apply validRPID_Ok. Qed.

(** Every https origin written as a canonical DNS name, alone or with an
    explicit port other than 443, is accepted. *)
Theorem https_origin_accepted (labels : list (list byte)) (port : option Z)
    (Hne : labels ≠ []) (Hlabels : Forall dns_label labels)
    (Hlen : Z.of_nat (length (join x2e labels)) <= 253)
    (Hip : IP.ParseIP (join x2e labels) = None)
    (Hport : ∀ p, port = Some p → 1 <= p <= 65535 ∧ p ≠ 443) :
  validateWebAuthnOrigin
    (string_of_bytes (bytes_of_string "https://" ++ join x2e labels ++ port_suffix port)) = Ok ().
Proof.
  apply validateWebAuthnOrigin_https; [by apply dns_join_chars| | |done].
  - destruct labels as [|l labels]; [done|]. apply Forall_inv in Hlabels as (Hl & _).
    destruct l as [|c l]; [cbn in Hl; lia|]. by destruct labels.
  - unfold canonicalOriginHost. rewrite Hip. apply validDNSName_labels. by eauto.
Qed.

Lemma https_origin_accepted_witness :
  validateWebAuthnOrigin "https://login.example.com:8443" = Ok ().
Proof.
  apply (https_origin_accepted [bytes_of_string "login"; bytes_of_string "example"; bytes_of_string "com"] (Some 8443)).
  - discriminate.
  - apply Forall_forall. intros l Hl. apply valid_label_spec. revert l Hl. apply Forall_forall.
    apply (bool_decide_unpack _). vm_compute. exact I.
  - vm_compute. discriminate.
  - vm_compute. reflexivity.
  - intros p [= <-]. lia.
Defined.


(** C38: a validated policy that does not allow related origins admits origins
    of the RP itself only.  The text of each allowed origin is a scheme, a
    canonical host and possibly a port, with no user, path, query value or
    fragment: https, or http to the local machine; the port, when written, is
    a number from 1 to 65535 in plain decimal and not the scheme's default; and
    the host is the RP ID or a subdomain of it, the RP ID being a DNS name.
    The one text that may follow is the question mark of an empty query. *)
Theorem allowed_origins_scoped (rpID : string) (policy : OriginPolicy) (origin : string)
    (Hpolicy : validateOriginPolicy policy = Ok ())
    (Hscope : validateRPIDOriginPolicy rpID policy = Ok ())
    (Hrel : AllowRelatedOrigins policy = false) (Hin : origin ∈ AllowedOrigins policy) :
  validRPID (bytes_of_string rpID) = true ∧
  ∃ scheme host port empty_query,
    bytes_of_string origin =
      scheme ++ bytes_of_string "://" ++ (if is_ipv6 host then x5b :: host ++ [x5d] else host)
      ++ match port with Some p => x3a :: itoa p | None => [] end
      ++ (if empty_query : bool then [x3f] else []) ∧
    canonical_host host ∧
    (scheme = bytes_of_string "https" ∧ port ≠ Some 443 ∨
     scheme = bytes_of_string "http" ∧ port ≠ Some 80 ∧ local_host host) ∧
    (∀ p, port = Some p → 1 <= p <= 65535) ∧
    (host = bytes_of_string rpID ∨ ∃ sub, host = sub ++ x2e :: bytes_of_string rpID).
Proof.
  unfold validateOriginPolicy in Hpolicy. res_inv. rewrite Forall_forall in Hok0.
  specialize (Hok0 _ Hin). res_inv. apply validateWebAuthnOrigin_sound in Hok0 as (u & Hparse & Hlow & Hu).
  unfold validateRPIDOriginPolicy in Hscope. rewrite Hrel in Hscope. res_inv.
  split; [by apply negb_false_iff|].
  rewrite Forall_forall in Hscope. specialize (Hscope _ Hin). rewrite Hparse in Hscope.
  cbn -[has_suffix] in Hscope. rewrite Hlow in Hscope. apply fail_if_Ok in Hscope.
  rewrite andb_false_iff, !negb_false_iff, bool_decide_eq_true, has_suffix_spec in Hscope.
  destruct Hu as (scheme & port & empty & Ht & Hh & Hs & Hp). exists scheme, (Hostname u), port, empty.
  do 4 (split; [done|]). destruct Hscope as [?|[k ?]]; [by left|]. right. by exists k.
Qed.

Definition example_policy : OriginPolicy :=
  {| AllowedOrigins := ["https://example.com"; "https://login.example.com:8443"]; AllowedTopOrigins := [];
     AllowCrossOriginWithoutTopOrigin := false; AllowRelatedOrigins := false |}.

(** A subdomain of the RP ID with an explicit port. *)
Lemma allowed_origins_scoped_witness :
  "https://login.example.com:8443" ∈ AllowedOrigins example_policy ∧
  validRPID (bytes_of_string "example.com") = true ∧
  ∃ scheme host port empty_query,
    bytes_of_string "https://login.example.com:8443" =
      scheme ++ bytes_of_string "://" ++ (if is_ipv6 host then x5b :: host ++ [x5d] else host)
      ++ match port with Some p => x3a :: itoa p | None => [] end
      ++ (if empty_query : bool then [x3f] else []) ∧
    canonical_host host ∧
    (scheme = bytes_of_string "https" ∧ port ≠ Some 443 ∨
     scheme = bytes_of_string "http" ∧ port ≠ Some 80 ∧ local_host host) ∧
    (∀ p, port = Some p → 1 <= p <= 65535) ∧
    (host = bytes_of_string "example.com" ∨ ∃ sub, host = sub ++ x2e :: bytes_of_string "example.com").
Proof.
  assert ("https://login.example.com:8443" ∈ AllowedOrigins example_policy) as Hin
    by (apply (bool_decide_unpack _); vm_compute; exact I).
  split; [exact Hin|].
  apply (allowed_origins_scoped "example.com" example_policy);
    [vm_compute; reflexivity|vm_compute; reflexivity|reflexivity|exact Hin].
Defined.

(** A client's reported origin passes the policy exactly when the origin is
    listed and, for a cross-origin ceremony, the top-level origin is listed too
    (or is absent and the policy tolerates that); a top-level origin without
    cross-origin use never passes. *)
Theorem client_origin_check (policy : OriginPolicy) (d : CollectedClientData) :
  verifyCollectedClientOrigin policy d = Ok () ↔
  cd_Origin d ∈ AllowedOrigins policy ∧
  if HasTopOrigin d
  then cd_CrossOrigin d = Some true ∧ cd_TopOrigin d ∈ AllowedTopOrigins policy
  else cd_CrossOrigin d = Some true → AllowCrossOriginWithoutTopOrigin policy = true.
Proof. apply verifyCollectedClientOrigin_Ok. Qed.

(** An origin with an empty query, which no browser reports, passes validation:
    the query is empty and the URL prints back with its question mark. *)
Theorem origin_empty_query_accepted : validateWebAuthnOrigin "https://example.com?" = Ok ().
Proof. vm_compute. reflexivity. Qed.
