(* ===== verification/ExtValue.v ===== *)
(** * Extension values

    Models the untyped values of package [extension]: the Go values that occur
    as extension inputs and outputs ([value]), [src/extension/value.go] (the
    bounded defensive copy), the [RawValue] part of
    [src/extension/extension.go] and the input wrappers of
    [src/extension/input.go].

    A Go [any] is modelled by its dynamic type and contents.  Composite values
    of unnamed or named slice, array and map type carry their type; the entries
    of a map are listed in the order a [range] loop visits them, so a statement
    about all values covers all iteration orders.  A type declared outside the
    package is an [opaque] value whose methods are given by an instance of
    [CustomTypes].  Copies are equal values: aliasing is not represented. *)
From S2P Require Import Prelude AuthData.
Set Default Goal Selector "!".
Local Open Scope Z_scope.

(** ** The typed inputs and outputs of the built-in extensions *)

Record PRFValues := mkPRFValues { First : slice byte; Second : slice byte }.

Record PRFInput := mkPRFInput {
  prf_Eval : option PRFValues;
  prf_EvalByCredential : option (gmap string PRFValues);
  prf_AllowCredentials : list string;
}.

Record PRFResult := mkPRFResult {
  prfr_Eval : option PRFValues;
  prfr_EvalByCredential : option (gmap string PRFValues);
  prfr_Enabled : option bool;
  prfr_Results : option PRFValues;
}.

Record LargeBlobInput := mkLargeBlobInput { lb_Support : string; lb_Read : option bool; lb_Write : slice byte }.

Record LargeBlobResult := mkLargeBlobResult {
  lbr_Support : string; lbr_Read : option bool; lbr_Write : slice byte;
  lbr_Supported : option bool; lbr_Blob : slice byte; lbr_Written : option bool;
}.

Record CredentialPropertiesResult := mkCredProps { ResidentKey : option bool }.
Record UVMEntry := mkUVMEntry { UserVerificationMethod : Z; KeyProtectionType : Z; MatcherProtectionType : Z }.
Record UVMResult := mkUVMResult { Entries : list UVMEntry }.
Record AppIDResult := mkAppIDResult { ar_AppID : string; ar_Used : bool }.
Record AppIDExcludeResult := mkAppIDExcludeResult { aer_AppID : string; ActedUpon : bool }.
Record RemoteClientDataJSONResult := mkRemoteResult { rr_Used : bool }.

#[export] Instance PRFValues_eq_dec : EqDecision PRFValues.
Proof. solve_decision. Defined.
#[export] Instance UVMEntry_eq_dec : EqDecision UVMEntry.
Proof. solve_decision. Defined.

(** ** Dynamic types and values *)

(** [TBasic] names every type that is not a slice, array, map or one of the two
    interface types that occur as element types. *)
Inductive gotype : Type :=
| TAny
| TExtensionInput
| TBasic (name : string)
| TSlice (name : string) (elem : gotype)
| TArray (name : string) (len : Z) (elem : gotype)
| TMap (name : string) (key elem : gotype).

#[export] Instance gotype_eq_dec : EqDecision gotype.
Proof. solve_decision. Defined.

(** A finite double [m * 2^e], an infinity, or not a number. *)
Inductive float := FNaN | FInf (neg : bool) | FFinite (m e : Z).

(** A value of a type this package does not know. *)
Record opaque := mkOpaque { op_type : string; op_nil : bool; op_data : Z }.

#[export] Instance opaque_eq_dec : EqDecision opaque.
Proof. solve_decision. Defined.

(** Keys of a generic map. *)
Inductive mapkey :=
| KNil
| KString (s : string)
| KNamedString (type : string) (s : string)
| KScalar (type : string) (z : Z)
| KOther (o : opaque) (immutable : bool).

#[export] Instance mapkey_eq_dec : EqDecision mapkey.
Proof. solve_decision. Defined.

Inductive value : Type :=
| VNil
| VBool (b : bool)
| VString (s : string)
| VInt (kind : string) (z : Z)
| VFloat (kind : string) (f : float)
| VBytes (b : slice byte)
| VBoolInput (b : bool)
| VStringInput (s : string)
| VStringInputPtr (p : option string)
| VRawInput (present : bool) (v : value)
| VPRFInput (i : PRFInput)
| VPRFValues (v : PRFValues)
| VPRFValuesPtr (p : option PRFValues)
| VPRFResult (r : PRFResult)
| VLargeBlobInput (i : LargeBlobInput)
| VLargeBlobResult (r : LargeBlobResult)
| VCredProps (r : CredentialPropertiesResult)
| VUVMResult (r : UVMResult)
| VUVMEntries (es : list UVMEntry)
| VAppIDResult (r : AppIDResult)
| VAppIDExcludeResult (r : AppIDExcludeResult)
| VRemoteResult (r : RemoteClientDataJSONResult)
| VSeq (type : gotype) (items : list value)
| VMap (type : gotype) (entries : list (mapkey * value))
| VOpaque (o : opaque).

Definition type_of (v : value) : option gotype :=
  match v with
  | VNil => None
  | VBool _ => Some (TBasic "bool")
  | VString _ => Some (TBasic "string")
  | VInt kind _ | VFloat kind _ => Some (TBasic kind)
  | VBytes _ => Some (TSlice "" (TBasic "uint8"))
  | VBoolInput _ => Some (TBasic "protocol.BoolInput")
  | VStringInput _ => Some (TBasic "protocol.StringInput")
  | VStringInputPtr _ => Some (TBasic "*protocol.StringInput")
  | VRawInput _ _ => Some (TBasic "extension.RawInput")
  | VPRFInput _ => Some (TBasic "extension.PRFInput")
  | VPRFValues _ => Some (TBasic "extension.PRFValues")
  | VPRFValuesPtr _ => Some (TBasic "*extension.PRFValues")
  | VPRFResult _ => Some (TBasic "extension.PRFResult")
  | VLargeBlobInput _ => Some (TBasic "extension.LargeBlobInput")
  | VLargeBlobResult _ => Some (TBasic "extension.LargeBlobResult")
  | VCredProps _ => Some (TBasic "extension.CredentialPropertiesResult")
  | VUVMResult _ => Some (TBasic "extension.UVMResult")
  | VUVMEntries _ => Some (TSlice "" (TBasic "extension.UVMEntry"))
  | VAppIDResult _ => Some (TBasic "extension.AppIDResult")
  | VAppIDExcludeResult _ => Some (TBasic "extension.AppIDExcludeResult")
  | VRemoteResult _ => Some (TBasic "extension.RemoteClientDataJSONResult")
  | VSeq ty _ | VMap ty _ => Some ty
  | VOpaque o => Some (TBasic (op_type o))
  end.

Definition map_string_any : gotype := TMap "" (TBasic "string") TAny.
Definition slice_any : gotype := TSlice "" TAny.

(** The methods of types outside the package: [CloneExtensionInput], present
    when the type implements [protocol.ExtensionInput], and [Clone() T]. *)
Class CustomTypes : Type := {
  custom_CloneExtensionInput : opaque → option (result value);
  custom_Clone : opaque → option opaque;
}.

(** No such methods: used to evaluate the definitions on concrete inputs. *)
Definition no_custom_types : CustomTypes :=
  {| custom_CloneExtensionInput := λ _, None; custom_Clone := λ _, None |}.

(** [interfaceutil.IsNil] on a dynamic value. *)
Definition nilLike (v : value) : bool :=
  match v with
  | VNil | VStringInputPtr None | VPRFValuesPtr None | VBytes None => true
  | VOpaque o => op_nil o
  | _ => false
  end.

(** ** Errors *)

Definition ErrInvalidID : error := Sentinel "extension.ErrInvalidID".
Definition ErrDuplicateID : error := Sentinel "extension.ErrDuplicateID".
Definition ErrUnknownID : error := Sentinel "extension.ErrUnknownID".
Definition ErrInvalidOperation : error := Sentinel "extension.ErrInvalidOperation".
Definition ErrInvalidRequest : error := Sentinel "extension.ErrInvalidRequest".
Definition ErrInvalidRevision : error := Sentinel "extension.ErrInvalidRevision".
Definition ErrBindingMismatch : error := Sentinel "extension.ErrBindingMismatch".
Definition ErrTooManyEntries : error := Sentinel "extension.ErrTooManyEntries".

Definition invalidRequest (reason : string) : error := ErrorText ErrInvalidRequest reason.

(** ** Defensive copies of the typed values *)

Definition clonePRFValues (v : PRFValues) : PRFValues := {| First := First v; Second := Second v |}.
Definition clonePRFValuesPtr (v : option PRFValues) : option PRFValues := clonePRFValues <$> v.
Definition clonePRFValuesMap (m : option (gmap string PRFValues)) : option (gmap string PRFValues) :=
  match m with Some m => Some (clonePRFValues <$> m) | None => None end.
Definition clonePRFInput (i : PRFInput) : PRFInput :=
  {| prf_Eval := clonePRFValuesPtr (prf_Eval i);
     prf_EvalByCredential := clonePRFValuesMap (prf_EvalByCredential i);
     prf_AllowCredentials := prf_AllowCredentials i |}.
Definition cloneBoolPtr (p : option bool) : option bool := p.
Definition clonePRFResult (r : PRFResult) : PRFResult :=
  {| prfr_Eval := clonePRFValuesPtr (prfr_Eval r);
     prfr_EvalByCredential := clonePRFValuesMap (prfr_EvalByCredential r);
     prfr_Enabled := cloneBoolPtr (prfr_Enabled r); prfr_Results := clonePRFValuesPtr (prfr_Results r) |}.
Definition cloneLargeBlobInput (i : LargeBlobInput) : LargeBlobInput :=
  {| lb_Support := lb_Support i; lb_Read := cloneBoolPtr (lb_Read i); lb_Write := lb_Write i |}.
Definition cloneLargeBlobResult (r : LargeBlobResult) : LargeBlobResult :=
  {| lbr_Support := lbr_Support r; lbr_Read := cloneBoolPtr (lbr_Read r); lbr_Write := lbr_Write r;
     lbr_Supported := cloneBoolPtr (lbr_Supported r); lbr_Blob := lbr_Blob r;
     lbr_Written := cloneBoolPtr (lbr_Written r) |}.
Definition cloneUVMEntries (es : list UVMEntry) : list UVMEntry := es.

(** ** Bounded copy of arbitrary values *)

Record CloneLimits := mkCloneLimits { MaxDepth : Z; MaxNodes : Z; MaxBytes : Z }.
Record cloneBudget := mkCloneBudget { cb_limits : CloneLimits; cb_nodes : Z; cb_bytes : Z }.

Definition DefaultMaxCloneDepth : Z := 32.
Definition DefaultMaxCloneNodes : Z := 4096.
Definition DefaultMaxCloneBytes : Z := 1048576.

Definition normalizeCloneLimits (l : CloneLimits) : CloneLimits :=
  {| MaxDepth := if MaxDepth l =? 0 then DefaultMaxCloneDepth else MaxDepth l;
     MaxNodes := if MaxNodes l =? 0 then DefaultMaxCloneNodes else MaxNodes l;
     MaxBytes := if MaxBytes l =? 0 then DefaultMaxCloneBytes else MaxBytes l |}.

Definition consume (budget : cloneBudget) (nodes bytes : Z) : result cloneBudget :=
  let limits := cb_limits budget in
  if (nodes <? 0) || (bytes <? 0) || (MaxNodes limits - nodes <? cb_nodes budget)
     || (MaxBytes limits - bytes <? cb_bytes budget)
  then Err (invalidRequest "extension value exceeds clone budget")
  else Ok {| cb_limits := limits; cb_nodes := cb_nodes budget + nodes; cb_bytes := cb_bytes budget + bytes |}.

Definition prfValues_bytes (v : PRFValues) : Z := slice_len (First v) + slice_len (Second v).

Definition evalByCredential_cost (m : option (gmap string PRFValues)) : Z * Z :=
  foldr (λ '(k, v) '(nodes, bytes), (nodes + 2, bytes + string_len k + prfValues_bytes v))
    (0, 0) (map_to_list (default ∅ m)).

Definition prfInput_cost (i : PRFInput) : Z * Z :=
  let '(mapNodes, mapBytes) := evalByCredential_cost (prf_EvalByCredential i) in
  let '(evalNodes, evalBytes) := match prf_Eval i with Some v => (2, prfValues_bytes v) | None => (0, 0) end in
  (1 + Z.of_nat (length (prf_AllowCredentials i)) + map_len (default ∅ (prf_EvalByCredential i))
     + evalNodes + mapNodes,
   evalBytes + foldr (λ s acc, string_len s + acc) 0 (prf_AllowCredentials i) + mapBytes).

(** Nodes and bytes charged for a value itself, without its elements. *)
Definition directCloneCost (v : value) : Z * Z :=
  match v with
  | VString s | VStringInput s | VStringInputPtr (Some s) => (1, string_len s)
  | VBytes b => (1, slice_len b)
  | VPRFValues v => (3, prfValues_bytes v)
  | VPRFInput i => prfInput_cost i
  | VPRFResult r =>
      let '(nodes, bytes) := prfInput_cost (mkPRFInput (prfr_Eval r) (prfr_EvalByCredential r) []) in
      match prfr_Results r with
      | Some v => (nodes + 2, bytes + prfValues_bytes v)
      | None => (nodes, bytes)
      end
  | VLargeBlobInput i => (3, slice_len (lb_Write i))
  | VLargeBlobResult r => (6, slice_len (lbr_Write r) + slice_len (lbr_Blob r))
  | VUVMResult r => (1 + Z.of_nat (length (Entries r)), 0)
  | VUVMEntries es => (1 + Z.of_nat (length es), 0)
  | _ => (1, 0)
  end.

Definition mapKeyByteSize (k : mapkey) : Z :=
  match k with KString s | KNamedString _ s => string_len s | _ => 0 end.

(** Keys are immutable values, so the copy is the key. *)
Definition cloneMapKey (k : mapkey) : result mapkey :=
  match k with
  | KOther _ false => Err (invalidRequest "extension map key type")
  | _ => Ok k
  end.

Definition elem_type (ty : gotype) : gotype :=
  match ty with TSlice _ t | TArray _ _ t | TMap _ _ t => t | _ => ty end.

(** Types whose zero value is nil. *)
Definition nilable (ty : gotype) : bool :=
  match ty with TAny | TExtensionInput | TSlice _ _ | TMap _ _ _ => true | _ => false end.

Section Clone.
Context {Custom : CustomTypes}.

Definition implements_ExtensionInput (v : value) : bool :=
  match v with
  | VBoolInput _ | VStringInput _ | VStringInputPtr _ | VRawInput _ _ | VPRFInput _ | VLargeBlobInput _ => true
  | VOpaque o => bool_decide (is_Some (custom_CloneExtensionInput o))
  | _ => false
  end.

(** [setClonedValue]: may a copied element populate an element of type [target]? *)
Definition setClonedValue (target : gotype) (v : value) : result () :=
  match type_of v with
  | None => fail_if (negb (nilable target)) (invalidRequest "nil cannot populate")
  | Some ty =>
      fail_if (negb (bool_decide (target = TAny) || bool_decide (ty = target)
                     || (bool_decide (target = TExtensionInput) && implements_ExtensionInput v)))
              (invalidRequest "cloned type cannot populate")
  end.

Definition unsupported_type : error := invalidRequest "extension value type".

(** The part of [cloneValueAt] after the budget check for values that are not
    sequences or maps. *)
Definition clone_leaf (v : value) : result value :=
  match v with
  | VBoolInput b => Ok (VBool b)
  | VStringInput s => Ok (VString s)
  | VNil | VBool _ | VString _ | VInt _ _ | VFloat _ _ | VBytes _ => Ok v
  | VPRFInput i => Ok (VPRFInput (clonePRFInput i))
  | VPRFValues v => Ok (VPRFValues (clonePRFValues v))
  | VPRFResult r => Ok (VPRFResult (clonePRFResult r))
  | VLargeBlobInput i => Ok (VLargeBlobInput (cloneLargeBlobInput i))
  | VLargeBlobResult r => Ok (VLargeBlobResult (cloneLargeBlobResult r))
  | VCredProps r => Ok (VCredProps (mkCredProps (cloneBoolPtr (ResidentKey r))))
  | VUVMResult r => Ok (VUVMResult (mkUVMResult (cloneUVMEntries (Entries r))))
  | VUVMEntries es => Ok (VUVMEntries (cloneUVMEntries es))
  | VAppIDResult _ | VAppIDExcludeResult _ | VRemoteResult _ => Ok v
  | VStringInputPtr None => Err ErrInvalidRequest
  | VStringInputPtr (Some s) => Ok (VStringInput s)
  | VOpaque o =>
      match custom_CloneExtensionInput o with
      | Some r => if op_nil o then Err ErrInvalidRequest else r
      | None =>
          match (if op_nil o then None else custom_Clone o) with
          | Some o' => Ok (VOpaque o')
          | None => Err unsupported_type
          end
      end
  | _ => Err unsupported_type
  end.

(** The loops over elements and entries; [cloneItem] copies one element. *)
Section Containers.
Context (cloneItem : value → cloneBudget → result (value * cloneBudget)) (elem : gotype).

Fixpoint cloneSequence (items : list value) (budget : cloneBudget) : result (list value * cloneBudget) :=
  match items with
  | [] => Ok ([], budget)
  | x :: items =>
      '(item, budget) ← cloneItem x budget;
      _ ← setClonedValue elem item;
      '(rest, budget) ← cloneSequence items budget;
      Ok (item :: rest, budget)
  end.

Fixpoint cloneMap (entries : list (mapkey * value)) (budget : cloneBudget) :
    result (list (mapkey * value) * cloneBudget) :=
  match entries with
  | [] => Ok ([], budget)
  | (k, x) :: entries =>
      budget ← consume budget 1 (mapKeyByteSize k);
      key ← cloneMapKey k;
      '(item, budget) ← cloneItem x budget;
      _ ← setClonedValue elem item;
      '(rest, budget) ← cloneMap entries budget;
      Ok ((key, item) :: rest, budget)
  end.
End Containers.

Fixpoint cloneValueAt (v : value) (depth : Z) (budget : cloneBudget) {struct v} : result (value * cloneBudget) :=
  match v with
  | VRawInput _ inner => cloneValueAt inner depth budget
  | _ =>
      _ ← fail_if (MaxDepth (cb_limits budget) <? depth) (invalidRequest "extension value nesting too deep");
      let '(nodes, byteCount) := directCloneCost v in
      budget ← consume budget nodes byteCount;
      match v with
      | VSeq ty items =>
          '(out, budget) ← cloneSequence (λ x, cloneValueAt x (depth + 1)) (elem_type ty) items budget;
          Ok (VSeq ty out, budget)
      | VMap ty entries =>
          '(out, budget) ← cloneMap (λ x, cloneValueAt x (depth + 1)) (elem_type ty) entries budget;
          Ok (VMap ty out, budget)
      | _ => cloned ← clone_leaf v; Ok (cloned, budget)
      end
  end.

Definition CloneValueWithLimits (v : value) (limits : CloneLimits) : result value :=
  _ ← fail_if ((MaxDepth limits <? 0) || (MaxNodes limits <? 0) || (MaxBytes limits <? 0))
        (invalidRequest "clone limits must not be negative");
  '(cloned, _) ← cloneValueAt v 0 (mkCloneBudget (normalizeCloneLimits limits) 0 0);
  Ok cloned.

Definition CloneValue (v : value) : result value := CloneValueWithLimits v (mkCloneLimits 0 0 0).

(** ** Raw values *)

Record RawValue := mkRawValue { rv_present : bool; rv_value : value }.

(** The zero [RawValue]: an absent member. *)
Definition absent : RawValue := mkRawValue false VNil.

Definition NewRawValue (v : value) : result RawValue :=
  cloned ← CloneValue v; Ok (mkRawValue true cloned).

Definition Present (v : RawValue) : bool := rv_present v.
Definition is_nil (v : value) : bool := match v with VNil => true | _ => false end.
Definition Null (v : RawValue) : bool := rv_present v && is_nil (rv_value v).

Definition RawValue_Clone (v : RawValue) : result value :=
  if negb (rv_present v) then Ok VNil else CloneValue (rv_value v).

(** [As[bool]] and [As[string]] *)
Definition As {T} (cast : value → option T) (v : RawValue) : option T :=
  if negb (rv_present v) || is_nil (rv_value v) then None
  else match CloneValue (rv_value v) with Ok cloned => cast cloned | Err _ => None end.

Definition as_bool (v : value) : option bool := match v with VBool b => Some b | _ => None end.
Definition as_string (v : value) : option string := match v with VString s => Some s | _ => None end.
Definition as_bytes (v : value) : option (slice byte) := match v with VBytes b => Some b | _ => None end.

(** [rawValue] *)
Definition rawValue (v : RawValue) : result value :=
  _ ← fail_if (negb (Present v)) (invalidRequest "extension value is absent");
  RawValue_Clone v.

Definition cloneRawValue (v : RawValue) : result RawValue :=
  if negb (Present v) then Ok absent
  else cloned ← RawValue_Clone v; Ok (mkRawValue true cloned).

(** ** Extension inputs *)

Definition raw_of_input (present : bool) (v : value) : RawValue := mkRawValue present v.

(** [NewRawInput], as the wrapped value. *)
Definition NewRawInput (v : value) : result value :=
  raw ← NewRawValue v; Ok (VRawInput (rv_present raw) (rv_value raw)).

(** The [CloneExtensionInput] methods; called only on non-nil inputs. *)
Definition CloneExtensionInput (v : value) : result value :=
  match v with
  | VBoolInput _ | VStringInput _ => Ok v
  | VStringInputPtr (Some s) => Ok (VStringInput s)
  | VRawInput present inner => cloned ← RawValue_Clone (raw_of_input present inner); NewRawInput cloned
  | VPRFInput i => _ ← CloneValue v; Ok (VPRFInput (clonePRFInput i))
  | VLargeBlobInput i => _ ← CloneValue v; Ok (VLargeBlobInput (cloneLargeBlobInput i))
  | VOpaque o => match custom_CloneExtensionInput o with Some r => r | None => Err ErrInvalidRequest end
  | _ => Err ErrInvalidRequest
  end.

Definition CloneInput (input : value) : result value :=
  _ ← fail_if (nilLike input) ErrInvalidRequest;
  cloned ← CloneExtensionInput input;
  _ ← fail_if (nilLike cloned) ErrInvalidRequest;
  match cloned with
  | VStringInput _ => _ ← CloneValue cloned; Ok cloned
  | _ => Ok cloned
  end.

Definition NormalizeInput (v : value) : result value :=
  if implements_ExtensionInput v then CloneInput v
  else match v with
       | VBool b => Ok (VBoolInput b)
       | VString s => CloneInput (VStringInput s)
       | _ => NewRawInput v
       end.

Definition InputValue (input : value) : result value :=
  _ ← fail_if (nilLike input) ErrInvalidRequest;
  match input with
  | VBoolInput b => Ok (VBool b)
  | VStringInput _ => CloneValue input
  | VRawInput present inner => RawValue_Clone (raw_of_input present inner)
  | _ => CloneInput input
  end.
End Clone.

(** ** Induction on values *)

Section ValueInd.
Context (P : value → Prop).
Context (Hleaf : ∀ v, match v with VRawInput _ _ | VSeq _ _ | VMap _ _ => False | _ => True end → P v).
Context (Hraw : ∀ present v, P v → P (VRawInput present v)).
Context (Hseq : ∀ ty items, Forall P items → P (VSeq ty items)).
Context (Hmap : ∀ ty entries, Forall (λ e, P e.2) entries → P (VMap ty entries)).

Fixpoint value_ind' (v : value) : P v :=
  match v with
  | VRawInput present v => Hraw present v (value_ind' v)
  | VSeq ty items =>
      Hseq ty items ((fix go (l : list value) : Forall P l :=
        match l with [] => Forall_nil_2 _ | x :: l => Forall_cons_2 _ _ _ (value_ind' x) (go l) end) items)
  | VMap ty entries =>
      Hmap ty entries ((fix go (l : list (mapkey * value)) : Forall (λ e, P e.2) l :=
        match l with [] => Forall_nil_2 _ | x :: l => Forall_cons_2 _ _ _ (value_ind' x.2) (go l) end) entries)
  | v => Hleaf v I
  end.
End ValueInd.

(** ** Copies of typed values are equal values *)

Lemma clonePRFValues_id v : clonePRFValues v = v.
Proof. by destruct v. Qed.
Lemma clonePRFValuesPtr_id v : clonePRFValuesPtr v = v.
Proof. destruct v; simpl; [by rewrite clonePRFValues_id|done]. Qed.
Lemma clonePRFValuesMap_id m : clonePRFValuesMap m = m.
Proof.
  destruct m as [m|]; [|done]. simpl. f_equal. rewrite <-(map_fmap_id m) at 2.
  apply map_fmap_ext. intros. apply clonePRFValues_id.
Qed.
Lemma clonePRFInput_id i : clonePRFInput i = i.
Proof. destruct i. unfold clonePRFInput. simpl. by rewrite clonePRFValuesPtr_id, clonePRFValuesMap_id. Qed.
Lemma clonePRFResult_id r : clonePRFResult r = r.
Proof. destruct r. unfold clonePRFResult. simpl. by rewrite !clonePRFValuesPtr_id, clonePRFValuesMap_id. Qed.
Lemma cloneLargeBlobInput_id i : cloneLargeBlobInput i = i.
Proof. by destruct i. Qed.
Lemma cloneLargeBlobResult_id r : cloneLargeBlobResult r = r.
Proof. by destruct r. Qed.

(** ** Decoded wire data *)

(** The values a JSON or CBOR decoder produces: scalars, byte strings, generic
    arrays and string-keyed objects. *)
Fixpoint data_value (v : value) : bool :=
  match v with
  | VNil | VBool _ | VString _ | VInt _ _ | VFloat _ _ | VBytes _ => true
  | VSeq ty items => bool_decide (ty = slice_any) && forallb data_value items
  | VMap ty entries =>
      bool_decide (ty = map_string_any)
      && forallb (λ '(k, v), match k with KString _ => data_value v | _ => false end) entries
  | _ => false
  end.

Fixpoint value_nodes (v : value) : Z :=
  match v with
  | VSeq _ items => 1 + foldr (λ x acc, value_nodes x + acc) 0 items
  | VMap _ entries => 1 + foldr (λ e acc, 1 + value_nodes e.2 + acc) 0 entries
  | _ => 1
  end.

Fixpoint value_bytes (v : value) : Z :=
  match v with
  | VString s => string_len s
  | VBytes b => slice_len b
  | VSeq _ items => foldr (λ x acc, value_bytes x + acc) 0 items
  | VMap _ entries => foldr (λ e acc, mapKeyByteSize e.1 + value_bytes e.2 + acc) 0 entries
  | _ => 0
  end.

Fixpoint value_depth (v : value) : Z :=
  match v with
  | VSeq _ items => foldr (λ x acc, Z.max (1 + value_depth x) acc) 0 items
  | VMap _ entries => foldr (λ e acc, Z.max (1 + value_depth e.2) acc) 0 entries
  | _ => 0
  end.

(** What is left to spend is enough for [nodes] nodes and [bytes] bytes. *)
Definition affordable (budget : cloneBudget) (nodes bytes : Z) : Prop :=
  cb_nodes budget + nodes <= MaxNodes (cb_limits budget) ∧ cb_bytes budget + bytes <= MaxBytes (cb_limits budget).
Definition spend (budget : cloneBudget) (nodes bytes : Z) : cloneBudget :=
  {| cb_limits := cb_limits budget; cb_nodes := cb_nodes budget + nodes; cb_bytes := cb_bytes budget + bytes |}.

Lemma spend_0 b : spend b 0 0 = b.
Proof. destruct b. unfold spend. simpl. f_equal; lia. Qed.
Lemma spend_spend b n1 y1 n2 y2 : spend (spend b n1 y1) n2 y2 = spend b (n1 + n2) (y1 + y2).
Proof. unfold spend. simpl. f_equal; lia. Qed.

Lemma consume_Ok b nodes bytes b' : 0 <= nodes → 0 <= bytes →
  consume b nodes bytes = Ok b' ↔ affordable b nodes bytes ∧ b' = spend b nodes bytes.
Proof.
  intros Hn Hb. unfold consume, affordable, spend.
  rewrite (proj2 (Z.ltb_ge nodes 0)), (proj2 (Z.ltb_ge bytes 0)) by lia. cbn [orb].
  destruct (Z.ltb_spec (MaxNodes (cb_limits b) - nodes) (cb_nodes b)),
    (Z.ltb_spec (MaxBytes (cb_limits b) - bytes) (cb_bytes b)); cbn [orb];
    (split; [intros [=]; subst|intros [[? ?] ->]]); try lia; try (split; [lia|done]); done.
Qed.

Lemma string_len_nonneg s : 0 <= string_len s.
Proof. unfold string_len. lia. Qed.
Lemma slice_len_nonneg {A} (s : slice A) : 0 <= slice_len s.
Proof. unfold slice_len. lia. Qed.
Lemma mapKeyByteSize_nonneg k : 0 <= mapKeyByteSize k.
Proof. destruct k; simpl; try lia; apply string_len_nonneg. Qed.

Lemma value_size_nonneg v : 0 < value_nodes v ∧ 0 <= value_bytes v ∧ 0 <= value_depth v.
Proof.
  induction v as [v Hv|p v IH|ty items IH|ty entries IH] using value_ind'.
  - destruct v; simpl; try done; split_and!; try lia; try apply string_len_nonneg; apply slice_len_nonneg.
  - simpl. lia.
  - cbn. induction IH as [|x items Hx Hitems IHl]; simpl; lia.
  - cbn. induction IH as [|[k x] entries Hx Hitems IHl]; simpl in *; [lia|].
    pose proof (mapKeyByteSize_nonneg k). lia.
Qed.

Section DataValues.
Context {Custom : CustomTypes}.

(** The copy of [v] at depth [d] succeeds exactly when it fits, and returns [v]. *)
Definition clones_to_itself (v : value) : Prop := ∀ d b w b',
  cloneValueAt v d b = Ok (w, b') ↔
  w = v ∧ b' = spend b (value_nodes v) (value_bytes v) ∧
  d + value_depth v <= MaxDepth (cb_limits b) ∧ affordable b (value_nodes v) (value_bytes v).

Lemma setClonedValue_any v : setClonedValue TAny v = Ok ().
Proof. unfold setClonedValue. by destruct (type_of v). Qed.

Definition items_nodes (items : list value) : Z := foldr (λ x acc, value_nodes x + acc) 0 items.
Definition items_bytes (items : list value) : Z := foldr (λ x acc, value_bytes x + acc) 0 items.
Definition items_depth (items : list value) : Z := foldr (λ x acc, Z.max (1 + value_depth x) acc) 0 items.

Lemma items_nonneg items : 0 <= items_nodes items ∧ 0 <= items_bytes items ∧ 0 <= items_depth items.
Proof.
  induction items as [|x items IH]; simpl; [lia|].
  pose proof (value_size_nonneg x). lia.
Qed.

Lemma cloneSequence_data d items : Forall clones_to_itself items → ∀ b out b',
  d <= MaxDepth (cb_limits b) → affordable b 0 0 →
  cloneSequence (λ x, cloneValueAt x (d + 1)) TAny items b = Ok (out, b') ↔
  out = items ∧ b' = spend b (items_nodes items) (items_bytes items) ∧
  d + items_depth items <= MaxDepth (cb_limits b) ∧ affordable b (items_nodes items) (items_bytes items).
Proof.
  induction 1 as [|x items Hx Hitems IH]; intros b out b' Hd Haff; cbn [cloneSequence].
  - rewrite spend_0. simpl. split; [intros [= <- <-]; split_and!; try done; lia|by intros (-> & -> & _)].
  - pose proof (value_size_nonneg x) as (Hn & Hb & Hdp). pose proof (items_nonneg items) as (Hin & Hib & Hid).
    unfold affordable in *. simpl in *. split.
    + intros H. apply bind_Ok in H as ([item b1] & H1 & H). apply Hx in H1 as (-> & -> & Hdep & Ha).
      unfold affordable in Ha.
      apply bind_Ok in H as ([] & _ & H). apply bind_Ok in H as ([rest b2] & H2 & [= <- <-]).
      apply IH in H2 as (-> & -> & Hdep' & Ha'); [|simpl in *; lia..]. simpl in *.
      rewrite spend_spend. split_and!; try done; lia.
    + intros (-> & -> & Hdep & Ha).
      rewrite (proj2 (Hx (d + 1) b x _)) by (split_and!; try done; unfold affordable; lia).
      cbn [mbind result_bind]. rewrite setClonedValue_any. cbn [mbind result_bind].
      rewrite (proj2 (IH (spend b (value_nodes x) (value_bytes x)) items _ ltac:(simpl; lia) ltac:(simpl; lia)))
        by (split_and!; try done; simpl; lia).
      cbn [mbind result_bind]. by rewrite spend_spend.
Qed.

Definition entries_nodes (es : list (mapkey * value)) : Z := foldr (λ e acc, 1 + value_nodes e.2 + acc) 0 es.
Definition entries_bytes (es : list (mapkey * value)) : Z :=
  foldr (λ e acc, mapKeyByteSize e.1 + value_bytes e.2 + acc) 0 es.
Definition entries_depth (es : list (mapkey * value)) : Z := foldr (λ e acc, Z.max (1 + value_depth e.2) acc) 0 es.

Lemma entries_nonneg es : 0 <= entries_nodes es ∧ 0 <= entries_bytes es ∧ 0 <= entries_depth es.
Proof.
  induction es as [|[k x] es IH]; simpl; [lia|].
  pose proof (value_size_nonneg x). pose proof (mapKeyByteSize_nonneg k). lia.
Qed.

Lemma cloneMap_data d es : Forall (λ e, clones_to_itself e.2 ∧ ∃ s, e.1 = KString s) es → ∀ b out b',
  d <= MaxDepth (cb_limits b) → affordable b 0 0 →
  cloneMap (λ x, cloneValueAt x (d + 1)) TAny es b = Ok (out, b') ↔
  out = es ∧ b' = spend b (entries_nodes es) (entries_bytes es) ∧
  d + entries_depth es <= MaxDepth (cb_limits b) ∧ affordable b (entries_nodes es) (entries_bytes es).
Proof.
  induction 1 as [|[k x] es [Hx [s Hs]] Hes IH]; intros b out b' Hd Haff; cbn [cloneMap].
  - rewrite spend_0. simpl. split; [intros [= <- <-]; split_and!; try done; lia|by intros (-> & -> & _)].
  - simpl in Hs, Hx. subst k.
    pose proof (value_size_nonneg x) as (Hn & Hb & Hdp). pose proof (entries_nonneg es) as (Hin & Hib & Hid).
    pose proof (mapKeyByteSize_nonneg (KString s)) as Hk. unfold affordable in *. simpl in *. split.
    + intros H. apply bind_Ok in H as (b1 & [Ha1 ->]%consume_Ok & H); [|lia..]. unfold affordable in Ha1.
      cbn [mbind result_bind cloneMapKey] in H.
      apply bind_Ok in H as ([item b2] & H1 & H). apply Hx in H1 as (-> & -> & Hdep & Ha).
      apply bind_Ok in H as ([] & _ & H). apply bind_Ok in H as ([rest b3] & H2 & [= <- <-]).
      unfold affordable in Ha. simpl in *.
      apply IH in H2 as (-> & -> & Hdep' & Ha'); [|simpl in *; lia..]. simpl in *.
      rewrite !spend_spend. split_and!; try done; try lia; f_equal; lia.
    + intros (-> & -> & Hdep & Ha).
      rewrite (proj2 (consume_Ok b 1 (string_len s) _ ltac:(lia) ltac:(lia)))
        by (split; [unfold affordable; lia|done]).
      cbn [mbind result_bind cloneMapKey].
      rewrite (proj2 (Hx (d + 1) _ x _)) by (split_and!; try done; unfold affordable; simpl; lia).
      cbn [mbind result_bind]. rewrite setClonedValue_any. cbn [mbind result_bind].
      rewrite (proj2 (IH (spend (spend b 1 (string_len s)) (value_nodes x) (value_bytes x)) es _ ltac:(simpl; lia) ltac:(simpl; lia)))
        by (split_and!; try done; simpl; lia).
      cbn [mbind result_bind]. rewrite !spend_spend. do 3 f_equal; lia.
Qed.
Lemma clone_step_Ok d b nodes bytes (k : cloneBudget → result (value * cloneBudget)) w b' :
  0 <= nodes → 0 <= bytes →
  (_ ← fail_if (MaxDepth (cb_limits b) <? d) (invalidRequest "extension value nesting too deep");
   budget ← consume b nodes bytes; k budget) = Ok (w, b') ↔
  d <= MaxDepth (cb_limits b) ∧ affordable b nodes bytes ∧ k (spend b nodes bytes) = Ok (w, b').
Proof.
  intros Hn Hb. rewrite bind_Ok. setoid_rewrite bind_Ok. setoid_rewrite fail_if_Ok. setoid_rewrite Z.ltb_ge.
  setoid_rewrite (consume_Ok b nodes bytes); [|done..]. split.
  - intros ([] & ? & b1 & [? ->] & ?). done.
  - intros (? & ? & ?). exists (). split; [done|]. exists (spend b nodes bytes). done.
Qed.

Lemma clone_data v : data_value v = true → clones_to_itself v.
Proof.
  induction v as [v Hv|p v IH|ty items IH|ty es IH] using value_ind'; intros Hdata; [|done| |].
  - intros d b w b'. unfold value_nodes, value_bytes, value_depth.
    destruct v; try done; cbn [cloneValueAt directCloneCost];
      (rewrite clone_step_Ok; [|lia|first [lia|apply string_len_nonneg|apply slice_len_nonneg]]);
      cbn [clone_leaf mbind result_bind]; rewrite Z.add_0_r;
      (split; [intros (? & ? & [= <- <-]); done|intros (-> & -> & ? & ?); done]).
  - cbn [data_value] in Hdata. apply andb_true_iff in Hdata as [->%bool_decide_eq_true Hd].
    assert (Forall clones_to_itself items) as Hitems.
    { rewrite Forall_forall in IH |- *. intros x Hx. apply IH; [done|].
      rewrite forallb_forall in Hd. by apply Hd, list_elem_of_In. }
    intros d b w b'. cbn [cloneValueAt directCloneCost elem_type slice_any].
    rewrite clone_step_Ok by lia. rewrite bind_Ok.
    change (value_nodes (VSeq slice_any items)) with (1 + items_nodes items).
    change (value_bytes (VSeq slice_any items)) with (items_bytes items).
    change (value_depth (VSeq slice_any items)) with (items_depth items).
    pose proof (items_nonneg items). unfold affordable. split.
    + intros (Hdep & Ha & [out b1] & H1 & [= <- <-]). apply cloneSequence_data in H1; [|done|done|simpl; unfold affordable; simpl; lia].
      destruct H1 as (-> & -> & ? & ?). unfold affordable in *. simpl in *. rewrite spend_spend. split_and!; try done; lia.
    + intros (-> & -> & ? & ?). split; [lia|]. split; [lia|].
      exists (items, spend (spend b 1 0) (items_nodes items) (items_bytes items)). rewrite spend_spend. split; [|done].
      rewrite <-spend_spend. apply cloneSequence_data; simpl; unfold affordable; simpl; split_and?; try done; lia.
  - cbn [data_value] in Hdata. apply andb_true_iff in Hdata as [->%bool_decide_eq_true Hd].
    assert (Forall (λ e, clones_to_itself e.2 ∧ ∃ s, e.1 = KString s) es) as Hes.
    { rewrite Forall_forall in IH |- *. intros [k x] Hx. rewrite forallb_forall in Hd.
      pose proof (Hd _ (proj1 (list_elem_of_In _ _) Hx)) as Hkx. destruct k; try done.
      split; [apply IH; done|by eexists]. }
    intros d b w b'. cbn [cloneValueAt directCloneCost elem_type map_string_any].
    rewrite clone_step_Ok by lia. rewrite bind_Ok.
    change (value_nodes (VMap map_string_any es)) with (1 + entries_nodes es).
    change (value_bytes (VMap map_string_any es)) with (entries_bytes es).
    change (value_depth (VMap map_string_any es)) with (entries_depth es).
    pose proof (entries_nonneg es). unfold affordable. split.
    + intros (Hdep & Ha & [out b1] & H1 & [= <- <-]). apply cloneMap_data in H1; [|done|done|simpl; unfold affordable; simpl; lia].
      destruct H1 as (-> & -> & ? & ?). unfold affordable in *. simpl in *. rewrite spend_spend. split_and!; try done; lia.
    + intros (-> & -> & ? & ?). split; [lia|]. split; [lia|].
      exists (es, spend (spend b 1 0) (entries_nodes es) (entries_bytes es)). rewrite spend_spend. split; [|done].
      rewrite <-spend_spend. apply cloneMap_data; simpl; unfold affordable; simpl; split_and?; try done; lia.
Qed.

(** Sizes within the package limits. *)
Definition within_limits (v : value) : Prop :=
  value_depth v <= DefaultMaxCloneDepth ∧ value_nodes v <= DefaultMaxCloneNodes ∧
  value_bytes v <= DefaultMaxCloneBytes.

Lemma CloneValue_data v w : data_value v = true → CloneValue v = Ok w ↔ w = v ∧ within_limits v.
Proof.
  intros Hd. unfold CloneValue, CloneValueWithLimits. cbn [MaxDepth MaxNodes MaxBytes Z.ltb Z.compare orb fail_if].
  rewrite bind_Ok. setoid_rewrite bind_Ok. unfold within_limits.
  pose proof (clone_data v Hd 0 (mkCloneBudget (normalizeCloneLimits (mkCloneLimits 0 0 0)) 0 0)) as H.
  unfold affordable in H. simpl in H. split.
  - intros ([] & _ & [w' b'] & H1 & [= <-]). apply H in H1 as (? & _ & ? & ? & ?). split_and!; try done; lia.
  - intros (-> & ? & ? & ?). exists (). split; [done|]. eexists (_, _). split; [|done].
    apply H. split_and!; try done; lia.
Qed.
End DataValues.

(** ** Properties *)

(** The defensive copy of decoded wire data accepts exactly the values of at
    most 32 levels, 4096 nodes and 1 MiB, and then returns an equal value: the
    bounds are exact, and neither the order in which a map is visited nor the
    shape of the value matters beyond these totals. *)
Theorem clone_value_budget {Custom : CustomTypes} (v w : value) (Hdata : data_value v = true) :
  CloneValue v = Ok w ↔
  w = v ∧ value_depth v <= 32 ∧ value_nodes v <= 4096 ∧ value_bytes v <= 1048576.
Proof. exact (CloneValue_data v w Hdata). Qed.

Definition example_data : value :=
  VMap map_string_any [(KString "first", VBytes (Some [x01; x02])); (KString "list", VSeq slice_any [VBool true; VNil])].

Lemma clone_value_budget_witness :
  data_value example_data = true ∧ @CloneValue no_custom_types example_data = Ok example_data.
Proof.
  split; [reflexivity|]. apply (@clone_value_budget no_custom_types example_data example_data); [reflexivity|].
  split; [reflexivity|]. vm_compute. repeat split; discriminate.
Defined.
