(* ===== verification/Types.v ===== *)
(** * Protocol types

    Models [src/protocol/types.go] (the DOMString enumerations, dictionaries and
    their validation), [src/protocol/extension_input.go] through [ExtValue],
    and [src/codec/codec.go] (decoded keys and attestation objects).
    DOMString types are strings with their [Known] predicates, a
    [COSEAlgorithmIdentifier] is its 64-bit value. *)
From S2P Require Import Prelude GoStrings AuthData ClientData ExtValue.
Set Default Goal Selector "!".
Local Open Scope Z_scope.

(** ** Enumerations *)

Definition one_of (v : string) (vs : list string) : bool := bool_decide (v ∈ vs).

Definition CredentialTypePublicKey : string := "public-key".
Definition PublicKeyCredentialType_Known (t : string) : bool := bool_decide (t = CredentialTypePublicKey).
Definition PublicKeyCredentialType_Validate (t : string) : result () :=
  fail_if (negb (PublicKeyCredentialType_Known t)) (ValueError "credential type" t).

Definition AuthenticatorTransport_Known (t : string) : bool :=
  one_of t ["usb"; "nfc"; "ble"; "smart-card"; "hybrid"; "internal"].
Definition PublicKeyCredentialHint_Known (h : string) : bool :=
  one_of h ["security-key"; "client-device"; "hybrid"].

Definition AttestationNone : string := "none".
Definition AttestationConveyancePreference_Known (p : string) : bool :=
  one_of p [AttestationNone; "indirect"; "direct"; "enterprise"].

Definition UserVerificationRequired : string := "required".
Definition UserVerificationPreferred : string := "preferred".
Definition UserVerificationDiscouraged : string := "discouraged".
Definition UserVerificationRequirement_Known (r : string) : bool :=
  one_of r [UserVerificationRequired; UserVerificationPreferred; UserVerificationDiscouraged].

Definition AuthenticatorAttachment_Known (a : string) : bool := one_of a ["platform"; "cross-platform"].
Definition ResidentKeyRequired : string := "required".
Definition ResidentKeyRequirement_Known (r : string) : bool :=
  one_of r ["discouraged"; "preferred"; ResidentKeyRequired].

Definition ClientCapability_Known (c : string) : bool :=
  one_of c ["conditionalCreate"; "conditionalGet"; "hybridTransport"; "passkeyPlatformAuthenticator";
    "userVerifyingPlatformAuthenticator"; "relatedOrigins"; "signalAllAcceptedCredentials";
    "signalCurrentUserDetails"; "signalUnknownCredential"].

(** ** Algorithms *)

Definition AlgorithmEdDSA : Z := -8.
Definition AlgorithmES256 : Z := -7.
Definition AlgorithmESP256 : Z := -9.
Definition AlgorithmES384 : Z := -35.
Definition AlgorithmESP384 : Z := -51.
Definition AlgorithmES512 : Z := -36.
Definition AlgorithmESP512 : Z := -52.
Definition AlgorithmEd448 : Z := -53.
Definition AlgorithmRS256 : Z := -257.
Definition AlgorithmRS384 : Z := -258.
Definition AlgorithmRS512 : Z := -259.
Definition AlgorithmPS256 : Z := -37.
Definition AlgorithmPS384 : Z := -38.
Definition AlgorithmPS512 : Z := -39.
Definition AlgorithmEd25519 : Z := -19.

Definition minCOSEAlgorithmIdentifier : Z := - 2 ^ 31.
Definition maxCOSEAlgorithmIdentifier : Z := 2 ^ 31 - 1.

Definition COSEAlgorithmIdentifier_Validate (a : Z) : result () :=
  fail_if ((a <? minCOSEAlgorithmIdentifier) || (maxCOSEAlgorithmIdentifier <? a))
    (ValueError "COSE algorithm" (string_of_bytes (itoa a))).

Record CredentialParameter := mkParameter { cp_Type : string; cp_Algorithm : Z }.

#[export] Instance CredentialParameter_eq_dec : EqDecision CredentialParameter.
Proof. solve_decision. Defined.

Definition RecommendedLevel3CredentialParameters : list CredentialParameter :=
  [mkParameter CredentialTypePublicKey AlgorithmEdDSA; mkParameter CredentialTypePublicKey AlgorithmES256;
   mkParameter CredentialTypePublicKey AlgorithmRS256].

Definition CredentialParameter_Validate (p : CredentialParameter) : result () :=
  _ ← fail_if (bool_decide (cp_Type p = "")) (ValueError "credential type" "");
  COSEAlgorithmIdentifier_Validate (cp_Algorithm p).

(** ** Entities and descriptors *)

Record RPEntity := mkRPEntity { rp_ID : string; rp_Name : string }.
Definition RPEntity_Validate (e : RPEntity) : result () :=
  _ ← fail_if (bool_decide (rp_ID e = "")) (ErrorNew "rp id is required");
  fail_if (bool_decide (rp_Name e = "")) (ErrorNew "rp name is required").

Record UserEntity := mkUserEntity { user_ID : UserHandle; user_Name : string; user_DisplayName : string }.
Definition UserEntity_Validate (e : UserEntity) : result () :=
  _ ← fail_if (bv_len (user_ID e) =? 0) (ErrorNew "user id is required");
  fail_if (bool_decide (user_Name e = "")) (ErrorNew "user name is required").

Record CredentialDescriptor := mkDescriptor {
  cdr_Type : string; cdr_ID : CredentialID; cdr_Transports : list string }.

#[export] Instance CredentialDescriptor_eq_dec : EqDecision CredentialDescriptor.
Proof. solve_decision. Defined.

Definition CredentialDescriptor_Validate (d : CredentialDescriptor) : result () :=
  _ ← PublicKeyCredentialType_Validate (cdr_Type d);
  fail_if (bv_len (cdr_ID d) =? 0) (ErrorNew "credential id is required").

Definition CredentialDescriptor_Clone (d : CredentialDescriptor) : CredentialDescriptor :=
  {| cdr_Type := cdr_Type d; cdr_ID := mkByteValue (bv_bytes (cdr_ID d)); cdr_Transports := cdr_Transports d |}.

Record AuthenticatorSelectionCriteria := mkSelection {
  sel_AuthenticatorAttachment : string; sel_ResidentKey : string;
  sel_RequireResidentKey : bool; sel_UserVerification : string }.

Definition AuthenticatorSelectionCriteria_Validate (c : option AuthenticatorSelectionCriteria) : result () :=
  match c with
  | None => Ok ()
  | Some c =>
      for_each (λ '(name, value, known),
          fail_if (negb (bool_decide (value = "")) && negb known) (ValueError name value))
        [("authenticatorAttachment", sel_AuthenticatorAttachment c,
            AuthenticatorAttachment_Known (sel_AuthenticatorAttachment c));
         ("residentKey", sel_ResidentKey c, ResidentKeyRequirement_Known (sel_ResidentKey c));
         ("userVerification", sel_UserVerification c, UserVerificationRequirement_Known (sel_UserVerification c))]
  end.

Definition AuthenticatorSelectionCriteria_Clone (c : option AuthenticatorSelectionCriteria) :
    option AuthenticatorSelectionCriteria :=
  match c with
  | None => None
  | Some c => Some {| sel_AuthenticatorAttachment := sel_AuthenticatorAttachment c;
                      sel_ResidentKey := sel_ResidentKey c; sel_RequireResidentKey := sel_RequireResidentKey c;
                      sel_UserVerification := sel_UserVerification c |}
  end.

(** ** Options *)

(** An absent member and an explicit nil map behave alike. *)
Definition ExtensionInputs : Type := gmap string value.

Record PublicKeyCredentialCreationOptions := mkCreationOptions {
  co_RP : RPEntity;
  co_User : UserEntity;
  co_Challenge : Challenge;
  co_PubKeyCredParams : list CredentialParameter;
  co_TimeoutMilliseconds : Z;
  co_ExcludeCredentials : list CredentialDescriptor;
  co_AuthenticatorSelection : option AuthenticatorSelectionCriteria;
  co_Hints : list string;
  co_Attestation : string;
  co_AttestationFormats : list string;
  co_Extensions : ExtensionInputs;
}.

Definition CreationOptions_Validate (o : PublicKeyCredentialCreationOptions) : result () :=
  _ ← AuthenticatorSelectionCriteria_Validate (co_AuthenticatorSelection o);
  _ ← RPEntity_Validate (co_RP o);
  _ ← UserEntity_Validate (co_User o);
  _ ← fail_if (bv_len (co_Challenge o) =? 0) (ErrorNew "challenge is required");
  _ ← for_each CredentialParameter_Validate (co_PubKeyCredParams o);
  let hasSupportedCredentialType :=
    bool_decide (co_PubKeyCredParams o = [])
    || existsb (λ p, bool_decide (cp_Type p = CredentialTypePublicKey)) (co_PubKeyCredParams o) in
  _ ← fail_if (negb hasSupportedCredentialType) (ErrorNew "no supported public key credential parameters");
  _ ← for_each (λ format, fail_if (negb (protocolidentifier_Valid format))
                  (ErrorNew "attestation format identifier is invalid")) (co_AttestationFormats o);
  for_each CredentialDescriptor_Validate (co_ExcludeCredentials o).

Record PublicKeyCredentialRequestOptions := mkRequestOptions {
  ro_Challenge : Challenge;
  ro_TimeoutMilliseconds : Z;
  ro_RPID : string;
  ro_AllowCredentials : list CredentialDescriptor;
  ro_UserVerification : string;
  ro_Hints : list string;
  ro_Extensions : ExtensionInputs;
}.

Definition RequestOptions_Validate (o : PublicKeyCredentialRequestOptions) : result () :=
  _ ← fail_if (bv_len (ro_Challenge o) =? 0) (ErrorNew "challenge is required");
  for_each CredentialDescriptor_Validate (ro_AllowCredentials o).

(** ** Decoded keys (package [codec]) *)

Definition MaxCredentialPublicKeyBytes : Z := 64 * 1024.
Definition ErrInvalidCredentialPublicKey : error := Sentinel "codec.ErrInvalidCredentialPublicKey".

Record EC2PublicKeyMaterial := mkEC2 { ec2_Curve : string; ec2_X : list byte; ec2_Y : list byte }.
Record RSAPublicKeyMaterial := mkRSA { rsa_Modulus : list byte; rsa_Exponent : Z }.
Record OKPPublicKeyMaterial := mkOKP { okp_Curve : string; okp_X : list byte }.

Definition EC2CurveP256 : string := "P-256".
Definition EC2CurveP384 : string := "P-384".
Definition EC2CurveP521 : string := "P-521".
Definition OKPCurveEd25519 : string := "Ed25519".
Definition OKPCurveEd448 : string := "Ed448".
Definition MinRSAModulusBits : Z := 2048.
Definition MaxRSAModulusBits : Z := 16384.

Record CredentialPublicKeyMaterial := mkMaterial {
  mat_EC2 : option EC2PublicKeyMaterial; mat_RSA : option RSAPublicKeyMaterial; mat_OKP : option OKPPublicKeyMaterial }.

Definition CredentialPublicKeyMaterial_clone (m : CredentialPublicKeyMaterial) : CredentialPublicKeyMaterial :=
  {| mat_EC2 := match mat_EC2 m with Some k => Some (mkEC2 (ec2_Curve k) (ec2_X k) (ec2_Y k)) | None => None end;
     mat_RSA := match mat_RSA m with Some k => Some (mkRSA (rsa_Modulus k) (rsa_Exponent k)) | None => None end;
     mat_OKP := match mat_OKP m with Some k => Some (mkOKP (okp_Curve k) (okp_X k)) | None => None end |}.

Record CredentialPublicKey := mkPublicKey {
  pk_Algorithm : Z; pk_raw : list byte; pk_material : CredentialPublicKeyMaterial }.

#[export] Instance EC2_eq_dec : EqDecision EC2PublicKeyMaterial.
Proof. solve_decision. Defined.
#[export] Instance RSA_eq_dec : EqDecision RSAPublicKeyMaterial.
Proof. solve_decision. Defined.
#[export] Instance OKP_eq_dec : EqDecision OKPPublicKeyMaterial.
Proof. solve_decision. Defined.
#[export] Instance Material_eq_dec : EqDecision CredentialPublicKeyMaterial.
Proof. solve_decision. Defined.
#[export] Instance PublicKey_eq_dec : EqDecision CredentialPublicKey.
Proof. solve_decision. Defined.

Definition NewCredentialPublicKey (algorithm : Z) (raw : list byte) (material : CredentialPublicKeyMaterial) :
    CredentialPublicKey :=
  mkPublicKey algorithm raw (CredentialPublicKeyMaterial_clone material).

Definition NewCredentialPublicKeyWithU2F (algorithm : Z) (raw u2fRaw : list byte) : CredentialPublicKey :=
  let material :=
    if (Z.of_nat (length u2fRaw) =? 65) && bool_decide (head u2fRaw = Some x04)
    then mkMaterial (Some (mkEC2 EC2CurveP256 (take 32 (drop 1 u2fRaw)) (drop 33 u2fRaw))) None None
    else mkMaterial None None None in
  NewCredentialPublicKey algorithm raw material.

Definition Raw (k : CredentialPublicKey) : list byte := pk_raw k.

(** [None] is the nil result. *)
Definition U2FPublicKey (k : CredentialPublicKey) : slice byte :=
  match mat_EC2 (pk_material k) with
  | Some m =>
      if negb (pk_Algorithm k =? AlgorithmES256) || negb (bool_decide (ec2_Curve m = EC2CurveP256))
         || negb (Z.of_nat (length (ec2_X m)) =? 32) || negb (Z.of_nat (length (ec2_Y m)) =? 32)
      then None else Some (x04 :: ec2_X m ++ ec2_Y m)
  | None => None
  end.

Definition PublicKeyMaterial (k : CredentialPublicKey) : CredentialPublicKeyMaterial :=
  CredentialPublicKeyMaterial_clone (pk_material k).

Definition CredentialPublicKey_Validate (k : CredentialPublicKey) : result () :=
  let len := Z.of_nat (length (pk_raw k)) in
  _ ← fail_if ((pk_Algorithm k =? 0) || (len =? 0) || (MaxCredentialPublicKeyBytes <? len))
        ErrInvalidCredentialPublicKey;
  COSEAlgorithmIdentifier_Validate (pk_Algorithm k).

(** [bits.Len8] *)
Definition Len8 (b : byte) : Z := if byte_val b =? 0 then 0 else Z.log2 (byte_val b) + 1.

Definition RSA_Valid (m : option RSAPublicKeyMaterial) : bool :=
  match m with
  | None => false
  | Some m =>
      match rsa_Modulus m with
      | [] => false
      | b :: _ =>
          if (byte_val b =? 0) || (byte_val (default x00 (last (rsa_Modulus m))) mod 2 =? 0)
             || (rsa_Exponent m <? 3) || (rsa_Exponent m mod 2 =? 0)
          then false
          else let modulusBits := (Z.of_nat (length (rsa_Modulus m)) - 1) * 8 + Len8 b in
               (MinRSAModulusBits <=? modulusBits) && (modulusBits <=? MaxRSAModulusBits)
      end
  end.

(** Statements and maps decoded from CBOR. *)
Definition CompoundSubStatementsKey : string := "statements".
Definition ExtensionMap : Type := gmap string value.

(** ** Lemmas *)

Lemma CredentialPublicKeyMaterial_clone_id m : CredentialPublicKeyMaterial_clone m = m.
Proof. by destruct m as [[[]|] [[]|] [[]|]]. Qed.

Lemma CredentialDescriptor_Clone_id d : CredentialDescriptor_Clone d = d.
Proof. by destruct d as [? [] ?]. Qed.

Lemma AuthenticatorSelectionCriteria_Clone_id c : AuthenticatorSelectionCriteria_Clone c = c.
Proof. by destruct c as [[]|]. Qed.

Lemma PublicKeyCredentialType_Validate_Ok t u :
  PublicKeyCredentialType_Validate t = Ok u ↔ t = CredentialTypePublicKey.
Proof.
  unfold PublicKeyCredentialType_Validate, PublicKeyCredentialType_Known.
  by rewrite fail_if_Ok, negb_false_iff, bool_decide_eq_true.
Qed.

Lemma COSEAlgorithmIdentifier_Validate_Ok a u :
  COSEAlgorithmIdentifier_Validate a = Ok u ↔ - 2 ^ 31 <= a < 2 ^ 31.
Proof.
  unfold COSEAlgorithmIdentifier_Validate, minCOSEAlgorithmIdentifier, maxCOSEAlgorithmIdentifier.
  rewrite fail_if_Ok, orb_false_iff, !Z.ltb_ge. lia.
Qed.

Lemma CredentialPublicKey_Validate_Ok k u :
  CredentialPublicKey_Validate k = Ok u ↔
  pk_Algorithm k ≠ 0 ∧ - 2 ^ 31 <= pk_Algorithm k < 2 ^ 31 ∧
  pk_raw k ≠ [] ∧ Z.of_nat (length (pk_raw k)) <= 65536.
Proof.
  assert (Z.of_nat (length (pk_raw k)) ≠ 0 ↔ pk_raw k ≠ []) as Hne.
  { destruct (pk_raw k); cbn; split; try done; lia. }
  unfold CredentialPublicKey_Validate, MaxCredentialPublicKeyBytes. rewrite bind_Ok. split.
  - intros ([] & H%fail_if_Ok & Ha%COSEAlgorithmIdentifier_Validate_Ok).
    rewrite !orb_false_iff, !Z.eqb_neq, Z.ltb_ge, Hne in H. tauto.
  - intros (? & ? & ? & ?). exists (). rewrite fail_if_Ok, COSEAlgorithmIdentifier_Validate_Ok.
    rewrite !orb_false_iff, !Z.eqb_neq, Z.ltb_ge, Hne. tauto.
Qed.

Lemma CredentialDescriptor_Validate_Ok d u :
  CredentialDescriptor_Validate d = Ok u ↔ cdr_Type d = CredentialTypePublicKey ∧ bv_len (cdr_ID d) ≠ 0.
Proof.
  unfold CredentialDescriptor_Validate. rewrite bind_Ok. split.
  - intros ([] & ?%PublicKeyCredentialType_Validate_Ok & H%fail_if_Ok). by apply Z.eqb_neq in H.
  - intros [? ?]. exists (). by rewrite PublicKeyCredentialType_Validate_Ok, fail_if_Ok, Z.eqb_neq.
Qed.

(** The number of bits of a big-endian number without leading zero. *)
Lemma be_uint_log2 b l : byte_val b ≠ 0 →
  Z.log2 (be_uint (b :: l)) = 8 * Z.of_nat (length l) + Z.log2 (byte_val b).
Proof.
  intros Hb. pose proof (byte_val_bound b) as Hbb. pose proof (be_uint_bound l) as Hl.
  rewrite be_uint_cons. change 256 with (2 ^ 8) in *. rewrite <-Z.pow_mul_r in * by lia.
  set (k := 8 * Z.of_nat (length l)) in *. assert (0 <= k) by lia.
  pose proof (Z.log2_spec (byte_val b) ltac:(lia)) as [Hlo Hhi].
  assert (0 < 2 ^ k) by (apply Z.pow_pos_nonneg; lia).
  pose proof (Z.log2_nonneg (byte_val b)).
  apply Z.log2_unique; [lia|]. rewrite Z.pow_succ_r, !Z.pow_add_r by lia.
  rewrite Z.pow_succ_r in Hhi by lia. nia.
Qed.

Lemma be_uint_mod2 l b : be_uint (l ++ [b]) mod 2 = byte_val b mod 2.
Proof.
  unfold be_uint. rewrite foldl_app. cbn [foldl].
  rewrite Z.add_comm, <-(Z.mul_1_l (_ + _)), Z.mul_1_l.
  replace (foldl (λ acc c, acc * 256 + byte_val c) 0 l * 256)
    with ((foldl (λ acc c, acc * 256 + byte_val c) 0 l * 128) * 2) by ring.
  by rewrite Z.mod_add by lia.
Qed.

Lemma log2_range n lo hi : 0 < n → (lo <= Z.log2 n + 1 <= hi ↔ 2 ^ (lo - 1) <= n < 2 ^ hi).
Proof.
  intros Hn. rewrite Z.log2_lt_pow2 by lia. pose proof (Z.log2_nonneg n).
  destruct (decide (lo <= 0)); [rewrite (Z.pow_neg_r 2 (lo - 1)) by lia; lia|].
  rewrite Z.log2_le_pow2 by lia. lia.
Qed.

Lemma be_uint_pos b l : byte_val b ≠ 0 → 0 < be_uint (b :: l).
Proof.
  intros Hb. rewrite be_uint_cons. pose proof (be_uint_bound l). pose proof (byte_val_bound b).
  assert (0 < 256 ^ Z.of_nat (length l)) by (apply Z.pow_pos_nonneg; lia). nia.
Qed.

Lemma RSA_Valid_bits m :
  RSA_Valid (Some m) = true ↔
  (∃ b l, rsa_Modulus m = b :: l ∧ byte_val b ≠ 0) ∧
  be_uint (rsa_Modulus m) mod 2 = 1 ∧ 2048 <= Z.log2 (be_uint (rsa_Modulus m)) + 1 <= 16384 ∧
  3 <= rsa_Exponent m ∧ rsa_Exponent m mod 2 = 1.
Proof.
  destruct m as [n e]. unfold RSA_Valid. cbn [rsa_Modulus rsa_Exponent].
  destruct n as [|b l]; [split; [done|]; intros [(? & ? & [=] & _) _]|].
  destruct (Z.eqb_spec (byte_val b) 0) as [Hb|Hb].
  { split; [done|]. intros [(? & ? & [= -> ->] & ?) _]. done. }
  pose proof (byte_val_bound b) as Hbb. cbn [orb].
  assert (byte_val (default x00 (last (b :: l))) mod 2 = be_uint (b :: l) mod 2) as ->.
  { destruct (last (b :: l)) as [z|] eqn:E; [|by apply last_None in E].
    apply last_Some in E as [l' ->]. by rewrite be_uint_mod2. }
  assert (Len8 b = Z.log2 (byte_val b) + 1) as -> by (unfold Len8; by rewrite (proj2 (Z.eqb_neq _ _))).
  assert ((Z.of_nat (length (b :: l)) - 1) * 8 + (Z.log2 (byte_val b) + 1) = Z.log2 (be_uint (b :: l)) + 1) as ->.
  { rewrite be_uint_log2 by done. cbn [length]. lia. }
  pose proof (Z.mod_pos_bound (be_uint (b :: l)) 2 ltac:(lia)). pose proof (Z.mod_pos_bound e 2 ltac:(lia)).
  unfold MinRSAModulusBits, MaxRSAModulusBits.
  destruct (Z.eqb_spec (be_uint (b :: l) mod 2) 0) as [Ho|Ho]; cbn [orb].
  { split; [done|]. intros (_ & ? & _). lia. }
  destruct (Z.ltb_spec e 3) as [He|He]; cbn [orb].
  { split; [done|]. intros (_ & _ & _ & ? & _). lia. }
  destruct (Z.eqb_spec (e mod 2) 0) as [He2|He2].
  { split; [done|]. intros (_ & _ & _ & _ & ?). lia. }
  rewrite andb_true_iff, !Z.leb_le. split.
  - intros (? & ?). split_and!; try lia. by exists b, l.
  - intros (_ & _ & ? & _). lia.
Qed.

(** ** Properties *)

(** RSA key material is accepted exactly when its modulus, read as a
    big-endian number, is minimally encoded, odd and of 2048 to 16384 bits, and
    its exponent is odd and at least 3. *)
Theorem rsa_material_valid (m : RSAPublicKeyMaterial) :
  RSA_Valid (Some m) = true ↔
  (∃ b l, rsa_Modulus m = b :: l ∧ byte_val b ≠ 0) ∧
  be_uint (rsa_Modulus m) mod 2 = 1 ∧ 2 ^ (2048 - 1) <= be_uint (rsa_Modulus m) < 2 ^ 16384 ∧
  3 <= rsa_Exponent m ∧ rsa_Exponent m mod 2 = 1.
Proof.
  rewrite RSA_Valid_bits. generalize 2048, 16384. intros lo hi.
  split; intros ((b & l & Hm & Hb) & ? & Hn & ? & ?); rewrite Hm in *;
    (split; [by exists b, l|]); split_and!; try done;
    by apply (log2_range (be_uint (b :: l)) lo hi (be_uint_pos b l Hb)) in Hn as [? ?].
Qed.

(** An uncompressed P-256 point stored for U2F is given back unchanged,
    and any other byte string yields a key without a U2F form. *)
Theorem u2f_key_roundtrip (raw u : list byte) :
  U2FPublicKey (NewCredentialPublicKeyWithU2F AlgorithmES256 raw u) =
  if decide (length u = 65%nat ∧ head u = Some x04) then Some u else None.
Proof.
  unfold NewCredentialPublicKeyWithU2F, U2FPublicKey, NewCredentialPublicKey. cbn [pk_material pk_Algorithm].
  rewrite CredentialPublicKeyMaterial_clone_id. case_decide as H.
  - destruct H as [Hlen Hh]. rewrite Hlen, bool_decide_eq_true_2 by done.
    change (Z.of_nat 65 =? 65) with true. cbn [andb mat_EC2 ec2_Curve ec2_X ec2_Y].
    rewrite length_take, !length_drop, Hlen. change (negb (AlgorithmES256 =? AlgorithmES256)) with false.
    rewrite bool_decide_eq_true_2 by done. cbn [negb orb]. rewrite !Z.eqb_refl || idtac.
    destruct u as [|c u]; [done|]. injection Hh as ->. cbn [drop].
    change (Z.of_nat (32 `min` (65 - 1)) =? 32) with true. change (Z.of_nat (65 - 33) =? 32) with true.
    cbn [negb orb]. rewrite drop_0. by rewrite take_drop.
  - destruct (Z.eqb_spec (Z.of_nat (length u)) 65) as [Hlen|]; [|done].
    case_bool_decide; [|done]. exfalso. apply H. split; [lia|done].
Qed.
