(* ===== verification/Extension.v ===== *)
(** * The extension registry

    Models [src/extension/extension.go] and [src/extension/client_outputs.go]:
    typed handlers, their type-erased form, the registry with its frozen
    bindings, and the results that carry verified or preserved outputs.

    [GoType] is the interface between the typed handlers and the untyped
    registry: a Go type as a set of dynamic values. *)
From S2P Require Import Prelude AuthData ExtValue.
Set Default Goal Selector "!".
Local Open Scope Z_scope.

Definition RevisionLevel3Recommendation : string := "webauthn-3-20260825".
Definition RevisionRemoteClientDataJSON : string := "webauthn-ed-20260730".
Definition MaxEntries : Z := 64.

Definition Operation : Type := string.
Definition OperationRegistration : Operation := "registration".
Definition OperationAuthentication : Operation := "authentication".

(** ** Go types as subsets of the dynamic values *)

Class GoType (T : Type) : Type := {
  inject : T → value;
  project : value → option T;
  project_inject : ∀ t, project (inject t) = Some t;
}.

#[export] Instance GoType_bool : GoType bool.
Proof. refine {| inject := VBool; project := as_bool |}. done. Defined.
#[export] Instance GoType_string : GoType string.
Proof. refine {| inject := VString; project := as_string |}. done. Defined.
#[export] Instance GoType_PRFInput : GoType PRFInput.
Proof. refine {| inject := VPRFInput; project := λ v, match v with VPRFInput i => Some i | _ => None end |}. done. Defined.
#[export] Instance GoType_PRFResult : GoType PRFResult.
Proof. refine {| inject := VPRFResult; project := λ v, match v with VPRFResult r => Some r | _ => None end |}. done. Defined.
#[export] Instance GoType_LargeBlobInput : GoType LargeBlobInput.
Proof. refine {| inject := VLargeBlobInput; project := λ v, match v with VLargeBlobInput i => Some i | _ => None end |}. done. Defined.
#[export] Instance GoType_LargeBlobResult : GoType LargeBlobResult.
Proof. refine {| inject := VLargeBlobResult; project := λ v, match v with VLargeBlobResult r => Some r | _ => None end |}. done. Defined.
#[export] Instance GoType_CredProps : GoType CredentialPropertiesResult.
Proof. refine {| inject := VCredProps; project := λ v, match v with VCredProps r => Some r | _ => None end |}. done. Defined.
#[export] Instance GoType_UVMResult : GoType UVMResult.
Proof. refine {| inject := VUVMResult; project := λ v, match v with VUVMResult r => Some r | _ => None end |}. done. Defined.
#[export] Instance GoType_AppIDResult : GoType AppIDResult.
Proof. refine {| inject := VAppIDResult; project := λ v, match v with VAppIDResult r => Some r | _ => None end |}. done. Defined.
#[export] Instance GoType_AppIDExcludeResult : GoType AppIDExcludeResult.
Proof. refine {| inject := VAppIDExcludeResult; project := λ v, match v with VAppIDExcludeResult r => Some r | _ => None end |}. done. Defined.
#[export] Instance GoType_RemoteResult : GoType RemoteClientDataJSONResult.
Proof. refine {| inject := VRemoteResult; project := λ v, match v with VRemoteResult r => Some r | _ => None end |}. done. Defined.

(** ** Requests and results *)

Record InputRequest := mkInputRequest { ir_Operation : Operation; ir_ID : string; ir_Input : RawValue }.

Record OutputRequest (I : Type) := mkOutputRequest {
  or_Operation : Operation;
  or_ID : string;
  or_Requested : bool;
  or_SelectedCredentialID : CredentialID;
  or_ClientInput : I;
  or_ClientOutput : RawValue;
  or_AuthenticatorOutput : RawValue;
}.
Arguments mkOutputRequest {I}.
Arguments or_Operation {I}.
Arguments or_ID {I}.
Arguments or_Requested {I}.
Arguments or_SelectedCredentialID {I}.
Arguments or_ClientInput {I}.
Arguments or_ClientOutput {I}.
Arguments or_AuthenticatorOutput {I}.

Definition hasClientOutput {I} (r : OutputRequest I) : bool := Present (or_ClientOutput r).
Definition hasAuthenticatorOutput {I} (r : OutputRequest I) : bool := Present (or_AuthenticatorOutput r).

(** The type-erased request is the one whose input is a raw value. *)
Definition RawOutputRequest : Type := OutputRequest RawValue.

Record Verification (O : Type) := mkVerification {
  vf_Accepted : bool; vf_Deprecated : bool; vf_Output : O; vf_Warnings : list string }.
Arguments mkVerification {O}.
Arguments vf_Accepted {O}.
Arguments vf_Deprecated {O}.
Arguments vf_Output {O}.
Arguments vf_Warnings {O}.

Record RawResult := mkRawResult {
  raw_Requested : bool; raw_ClientInput : RawValue; raw_ClientOutput : RawValue; raw_AuthenticatorOutput : RawValue }.

(** The [output] field: a handler's typed output or a preserved raw result. *)
Inductive output := OTyped (v : value) | ORaw (r : RawResult).

Record Result := mkResult {
  res_ID : string;
  res_Accepted : bool;
  res_Deprecated : bool;
  res_Warnings : list string;
  res_output : output;
  res_raw : bool;
  res_revision : string;
}.

Definition Results : Type := list Result.

Record TypedResult (O : Type) := mkTypedResult {
  tr_ID : string; tr_Accepted : bool; tr_Deprecated : bool; tr_Output : O; tr_Warnings : list string }.
Arguments mkTypedResult {O}.
Arguments tr_ID {O}.
Arguments tr_Accepted {O}.
Arguments tr_Output {O}.

(** ** Handlers *)

Record Handler (I O : Type) := mkHandler {
  h_ID : string;
  h_Revision : string;
  h_ValidateInput : InputRequest → result I;
  h_VerifyOutput : context → OutputRequest I → result (Verification O);
}.
Arguments mkHandler {I O}.
Arguments h_ID {I O}.
Arguments h_Revision {I O}.
Arguments h_ValidateInput {I O}.
Arguments h_VerifyOutput {I O}.

Record erasedHandler := mkErased {
  eh_ID : string;
  eh_Revision : string;
  eh_Valid : bool;
  eh_ValidateInput : InputRequest → result RawValue;
  eh_VerifyOutput : context → RawOutputRequest → result Result;
}.

Record Binding := mkBinding { b_ID : string; b_Revision : string }.

#[export] Instance Binding_eq_dec : EqDecision Binding.
Proof. solve_decision. Defined.

Definition Binding_Valid (b : Binding) : bool :=
  protocolidentifier_Valid (b_ID b) && protocolidentifier_Valid (b_Revision b).

Definition IDAppID : string := "appid".
Definition IDAppIDExclude : string := "appidExclude".
Definition IDUVM : string := "uvm".
Definition IDCredProps : string := "credProps".
Definition IDLargeBlob : string := "largeBlob".
Definition IDPRF : string := "prf".
Definition IDRemoteClientDataJSON : string := "remoteClientDataJSON".

Definition BuiltInBinding (id : string) : option Binding :=
  if bool_decide (id ∈ [IDAppID; IDAppIDExclude; IDUVM; IDCredProps; IDLargeBlob; IDPRF])
  then Some (mkBinding id RevisionLevel3Recommendation)
  else if bool_decide (id = IDRemoteClientDataJSON)
  then Some (mkBinding id RevisionRemoteClientDataJSON)
  else None.

Record registryHandler := mkRegistryHandler { rh_binding : Binding; rh_handler : erasedHandler }.

(** A [*Registry]: [None] is the nil pointer. *)
Definition Registry : Type := option (gmap string registryHandler).
Definition registry_map (r : Registry) : gmap string registryHandler := default ∅ r.

Definition registry_step (handlers : gmap string registryHandler) (entry : option erasedHandler) :
    result (gmap string registryHandler) :=
  handler ← of_option ErrInvalidID entry;
  _ ← fail_if (negb (eh_Valid handler)) ErrInvalidID;
  let id := eh_ID handler in
  _ ← fail_if (negb (protocolidentifier_Valid id)) ErrInvalidID;
  let revision := eh_Revision handler in
  _ ← fail_if (negb (protocolidentifier_Valid revision)) ErrInvalidRevision;
  _ ← fail_if (match BuiltInBinding id with
               | Some expected => negb (bool_decide (revision = b_Revision expected))
               | None => false end) (ErrorText ErrInvalidRevision "reserved extension");
  _ ← fail_if (bool_decide (is_Some (handlers !! id))) (ErrorText ErrDuplicateID id);
  Ok (<[id := mkRegistryHandler (mkBinding id revision) handler]> handlers).

Fixpoint registry_loop (handlers : gmap string registryHandler) (entries : list (option erasedHandler)) :
    result (gmap string registryHandler) :=
  match entries with
  | [] => Ok handlers
  | entry :: entries => handlers ← registry_step handlers entry; registry_loop handlers entries
  end.

Definition NewRegistry (entries : list (option erasedHandler)) : result Registry :=
  _ ← fail_if (MaxEntries <? Z.of_nat (length entries)) ErrTooManyEntries;
  handlers ← registry_loop ∅ entries;
  Ok (Some handlers).

Definition Registry_Binding (r : Registry) (id : string) : option Binding := rh_binding <$> registry_map r !! id.
Definition Registry_Contains (r : Registry) (id : string) : bool := bool_decide (is_Some (registry_map r !! id)).
Definition Registry_lookup (r : Registry) (id : string) : option erasedHandler := rh_handler <$> registry_map r !! id.

Definition Registry_ValidateInput (r : Registry) (request : InputRequest) : result RawValue :=
  handler ← of_option (ErrorText ErrUnknownID (ir_ID request)) (Registry_lookup r (ir_ID request));
  eh_ValidateInput handler request.

Definition Registry_VerifyOutput (r : Registry) (ctx : context) (request : RawOutputRequest) : result Result :=
  entry ← of_option (ErrorText ErrUnknownID (or_ID request)) (registry_map r !! or_ID request);
  res ← eh_VerifyOutput (rh_handler entry) ctx request;
  Ok (mkResult (res_ID res) (res_Accepted res) (res_Deprecated res) (res_Warnings res)
        (res_output res) (res_raw res) (b_Revision (rh_binding entry))).

Section Erasure.
Context {Custom : CustomTypes}.

Definition cloneRawResult (raw : RawResult) : result RawResult :=
  clientInput ← cloneRawValue (raw_ClientInput raw);
  clientOutput ← cloneRawValue (raw_ClientOutput raw);
  authenticatorOutput ← cloneRawValue (raw_AuthenticatorOutput raw);
  Ok (mkRawResult (raw_Requested raw) clientInput clientOutput authenticatorOutput).

Definition PreserveRaw (id : string) (raw : RawResult) (warnings : list string) : result Result :=
  _ ← fail_if (negb (protocolidentifier_Valid id)) ErrInvalidID;
  cloned ← cloneRawResult raw;
  Ok (mkResult id false false warnings (ORaw cloned) true "").

Definition adapter_ValidateInput {I O} `{GoType I} (h : Handler I O) (request : InputRequest) : result RawValue :=
  input ← h_ValidateInput h request;
  NewRawValue (inject input).

Definition adapter_VerifyOutput {I O} `{GoType I, GoType O} (h : Handler I O) (ctx : context)
    (request : RawOutputRequest) : result Result :=
  input ← h_ValidateInput h (mkInputRequest (or_Operation request) (or_ID request) (or_ClientInput request));
  verification ← h_VerifyOutput h ctx
    (mkOutputRequest (or_Operation request) (or_ID request) (or_Requested request)
       (or_SelectedCredentialID request) input (or_ClientOutput request) (or_AuthenticatorOutput request));
  out ← CloneValue (inject (vf_Output verification));
  typed ← of_option (invalidRequest "handler output changed type while cloning") (project (T:=O) out);
  Ok (mkResult (or_ID request) (vf_Accepted verification) (vf_Deprecated verification)
        (vf_Warnings verification) (OTyped (inject typed)) false "").

(** [Register] and the adapter it builds; a nil handler gives an invalid entry. *)
Definition Register {I O} `{GoType I, GoType O} (handler : iface (Handler I O)) : erasedHandler :=
  match handler with
  | Iface h => mkErased (h_ID h) (h_Revision h) true (adapter_ValidateInput h) (adapter_VerifyOutput h)
  | _ => mkErased "" "" false (λ _, Err NilDereference) (λ _ _, Err NilDereference)
  end.

(** The map is updated in place: the result is its new content; [None] is a nil map. *)
Definition SetInput {I O} `{GoType I} (inputs : option (gmap string value)) (handler : iface (Handler I O)) (v : I) :
    result (gmap string value) :=
  match inputs, handler with
  | Some inputs, Iface h => input ← NormalizeInput (inject v); Ok (<[h_ID h := input]> inputs)
  | _, _ => Err ErrInvalidRequest
  end.

Definition Find {I O} `{GoType O} (results : Results) (handler : iface (Handler I O)) : option (TypedResult O) :=
  match handler with
  | Iface h =>
      (fix go (rs : Results) : option (TypedResult O) :=
        match rs with
        | [] => None
        | r :: rs =>
            if negb (bool_decide (res_ID r = h_ID h)) || negb (bool_decide (res_revision r = h_Revision h)) || res_raw r
            then go rs
            else match res_output r with
                 | OTyped v =>
                     match CloneValue v with
                     | Ok out => match project (T:=O) out with
                                 | Some typed => Some (mkTypedResult (res_ID r) (res_Accepted r) (res_Deprecated r) typed (res_Warnings r))
                                 | None => None
                                 end
                     | Err _ => None
                     end
                 | ORaw _ => None
                 end
        end) results
  | _ => None
  end.

Fixpoint FindRaw (results : Results) (id : string) : option (TypedResult RawResult) :=
  match results with
  | [] => None
  | r :: rs =>
      if negb (bool_decide (res_ID r = id)) || negb (res_raw r) then FindRaw rs id
      else match res_output r with
           | ORaw raw =>
               match cloneRawResult raw with
               | Ok cloned => Some (mkTypedResult (res_ID r) (res_Accepted r) (res_Deprecated r) cloned (res_Warnings r))
               | Err _ => None
               end
           | OTyped _ => None
           end
  end.

(** ** Client outputs *)

Definition ClientOutputs : Type := gmap string RawValue.

Definition ClientOutputsFromRaw {Ord : MapOrder} (values : gmap string value) : result ClientOutputs :=
  _ ← fail_if (MaxEntries <? map_len values) ErrTooManyEntries;
  entries ← map_res (λ '(id, v), raw ← NewRawValue v; Ok (id, raw)) (range_list values);
  Ok (list_to_map entries).
End Erasure.

(** ** The registry *)

(** What [NewRegistry] demands of an entry. *)
Definition entry_ok (h : erasedHandler) : Prop :=
  eh_Valid h = true ∧ protocolidentifier_Valid (eh_ID h) = true ∧
  protocolidentifier_Valid (eh_Revision h) = true ∧
  (∀ b, BuiltInBinding (eh_ID h) = Some b → eh_Revision h = b_Revision b).

Definition registry_entry (h : erasedHandler) : string * registryHandler :=
  (eh_ID h, mkRegistryHandler (mkBinding (eh_ID h) (eh_Revision h)) h).

Lemma registry_entries_cons h hs :
  list_to_map (M:=gmap string registryHandler) (registry_entry <$> h :: hs) =
  <[eh_ID h := (registry_entry h).2]> (list_to_map (registry_entry <$> hs)).
Proof. done. Qed.

Lemma registry_entries_fresh h hs : eh_ID h ∉ eh_ID <$> hs →
  list_to_map (M:=gmap string registryHandler) (registry_entry <$> hs) !! eh_ID h = None.
Proof. intros H. apply not_elem_of_list_to_map_1. by rewrite <-list_fmap_compose. Qed.

Lemma registry_step_Ok m e m' :
  registry_step m e = Ok m' ↔
  ∃ h, e = Some h ∧ entry_ok h ∧ m !! eh_ID h = None ∧
       m' = <[eh_ID h := (registry_entry h).2]> m.
Proof.
  unfold registry_step, entry_ok. split.
  - intros H. apply bind_Ok in H as (h & ->%of_option_Ok & H).
    apply bind_Ok in H as (? & H1%fail_if_Ok & H). apply bind_Ok in H as (? & H2%fail_if_Ok & H).
    apply bind_Ok in H as (? & H3%fail_if_Ok & H). apply bind_Ok in H as (? & H4%fail_if_Ok & H).
    apply bind_Ok in H as (? & H5%fail_if_Ok & [= <-]).
    rewrite negb_false_iff in H1, H2, H3. apply bool_decide_eq_false in H5.
    exists h. split_and!; try done.
    + intros b Hb. rewrite Hb in H4. by apply negb_false_iff, bool_decide_eq_true in H4.
    + by apply eq_None_not_Some.
  - intros (h & -> & (H1 & H2 & H3 & H4) & H5 & ->). cbn [of_option mbind result_bind].
    rewrite H1, H2, H3. cbn [negb fail_if mbind result_bind].
    replace (match BuiltInBinding (eh_ID h) with Some _ => _ | None => _ end) with false.
    + cbn [negb fail_if mbind result_bind]. rewrite bool_decide_eq_false_2 by (by rewrite H5; intros []). done.
    + destruct (BuiltInBinding (eh_ID h)) as [b|]; [|done].
      by rewrite bool_decide_eq_true_2 by (by apply H4).
Qed.

Lemma registry_loop_Ok entries m m' :
  registry_loop m entries = Ok m' ↔
  ∃ hs, entries = Some <$> hs ∧ Forall entry_ok hs ∧ NoDup (eh_ID <$> hs) ∧
        Forall (λ h, m !! eh_ID h = None) hs ∧ m' = list_to_map (registry_entry <$> hs) ∪ m.
Proof.
  revert m. induction entries as [|e entries IH]; intros m; cbn [registry_loop].
  - split.
    + intros [= <-]. exists []. cbn. rewrite (left_id_L ∅ (∪)). split_and!; try done; constructor.
    + intros (hs & Hhs & _ & _ & _ & ->). destruct hs; [|done]. cbn. by rewrite (left_id_L ∅ (∪)).
  - rewrite bind_Ok. setoid_rewrite IH. setoid_rewrite registry_step_Ok. split.
    + intros (m1 & (h & -> & Hok & Hnone & ->) & hs & -> & Hoks & Hnd & Hfresh & ->).
      assert (eh_ID h ∉ eh_ID <$> hs) as Hnin.
      { rewrite list_elem_of_fmap. intros (h' & Heq & Hin).
        rewrite Forall_forall in Hfresh. specialize (Hfresh _ Hin).
        rewrite <-Heq, lookup_insert_eq in Hfresh. done. }
      exists (h :: hs). split_and!; [done|by constructor|by apply NoDup_cons| |].
      * constructor; [done|]. eapply Forall_impl; [exact Hfresh|]. intros h' Hh'.
        by apply lookup_insert_None in Hh' as [? _].
      * rewrite registry_entries_cons, <-insert_union_l, insert_union_r; [done|].
        by apply registry_entries_fresh.
    + intros (hs & Hhs & Hoks & Hnd & Hfresh & ->). destruct hs as [|h hs]; [done|].
      rewrite fmap_cons in Hhs. injection Hhs as -> ->.
      apply Forall_cons in Hoks as [Hok Hoks]. apply Forall_cons in Hfresh as [Hnone Hfresh].
      rewrite fmap_cons in Hnd. apply NoDup_cons in Hnd as [Hnin Hnd].
      exists (<[eh_ID h := (registry_entry h).2]> m). split; [by exists h|].
      exists hs. split_and!; try done.
      * rewrite Forall_forall in Hfresh |- *. intros h' Hin. rewrite lookup_insert_ne; [by apply Hfresh|].
        intros Heq. apply Hnin. apply list_elem_of_fmap. by exists h'.
      * rewrite registry_entries_cons, <-insert_union_l, insert_union_r; [done|].
        by apply registry_entries_fresh.
Qed.

Lemma NewRegistry_Ok entries r :
  NewRegistry entries = Ok r ↔
  Z.of_nat (length entries) <= 64 ∧
  ∃ hs, entries = Some <$> hs ∧ Forall entry_ok hs ∧ NoDup (eh_ID <$> hs) ∧
        r = Some (list_to_map (registry_entry <$> hs)).
Proof.
  unfold NewRegistry, MaxEntries. rewrite bind_Ok. setoid_rewrite bind_Ok. setoid_rewrite registry_loop_Ok. split.
  - intros ([] & H%fail_if_Ok%Z.ltb_ge & m & (hs & -> & ? & ? & _ & ->) & [= <-]).
    split; [done|]. exists hs. by rewrite (right_id_L ∅ (∪)).
  - intros (Hlen & hs & -> & Hok & Hnd & ->). exists (). split; [by apply fail_if_Ok, Z.ltb_ge|].
    exists (list_to_map (registry_entry <$> hs)). split; [|done]. exists hs. split_and!; try done.
    + apply Forall_true. intros. apply lookup_empty.
    + by rewrite (right_id_L ∅ (∪)).
Qed.

(** The invariant of every constructed registry. *)
Definition registry_wf (r : Registry) : Prop :=
  map_Forall (λ id entry,
    id = b_ID (rh_binding entry) ∧ eh_ID (rh_handler entry) = id ∧
    eh_Revision (rh_handler entry) = b_Revision (rh_binding entry) ∧ entry_ok (rh_handler entry)) (registry_map r) ∧
  map_len (registry_map r) <= 64.

Lemma NewRegistry_wf entries r : NewRegistry entries = Ok r → registry_wf r.
Proof.
  intros (Hlen & hs & -> & Hok & Hnd & ->)%NewRegistry_Ok. unfold registry_wf. cbn [registry_map from_option id].
  assert (NoDup (registry_entry <$> hs).*1) as Hnd' by (by rewrite <-list_fmap_compose).
  split.
  - intros k entry Hk. apply elem_of_list_to_map in Hk; [|done].
    apply list_elem_of_fmap in Hk as (h & [= -> ->] & Hin). rewrite Forall_forall in Hok. cbn.
    split_and!; try done. by apply Hok.
  - unfold map_len. rewrite <-length_map_to_list, map_to_list_to_map, length_fmap by done.
    by rewrite length_fmap in Hlen.
Qed.

Lemma registry_wf_binding r id b : registry_wf r → Registry_Binding r id = Some b →
  b_ID b = id ∧ Binding_Valid b = true ∧ (∀ e, BuiltInBinding id = Some e → b = e).
Proof.
  intros [Hwf _] Hb. unfold Registry_Binding in Hb. apply fmap_Some in Hb as (entry & Hl & ->).
  destruct (Hwf _ _ Hl) as (-> & Hid & Hrev & (_ & Hv1 & Hv2 & Hbi)).
  split_and!; [done| |].
  - unfold Binding_Valid. by rewrite <-Hid, <-Hrev, Hv1, Hv2.
  - intros e He. rewrite <-Hid in He. specialize (Hbi _ He).
    unfold BuiltInBinding in He. destruct (rh_binding entry). cbn in *. subst.
    repeat case_match; simplify_eq; by f_equal.
Qed.

Lemma Registry_Contains_Binding r id : Registry_Contains r id = true ↔ is_Some (Registry_Binding r id).
Proof. unfold Registry_Contains, Registry_Binding. by rewrite bool_decide_eq_true, fmap_is_Some. Qed.

(** ** Properties *)

(** A registry is built exactly from at most 64 non-nil handlers with
    distinct, well-formed identifiers and well-formed revisions, where a
    reserved identifier carries its own revision; the registry then maps each
    identifier to its handler and to the binding of its identifier and
    revision. *)
Theorem registry_construction (entries : list (option erasedHandler)) (r : Registry) :
  NewRegistry entries = Ok r ↔
  Z.of_nat (length entries) <= 64 ∧
  ∃ hs, entries = Some <$> hs ∧ Forall entry_ok hs ∧ NoDup (eh_ID <$> hs) ∧
        r = Some (list_to_map (registry_entry <$> hs)).
Proof. apply NewRegistry_Ok. Qed.
