(* ===== verification/ExtHandlers.v ===== *)
(** * The built-in extension handlers

    Models [src/extension/level2.go] (appid, appidExclude, credProps and the
    generic readers of decoded values), [src/extension/level3.go] (prf),
    [src/extension/largeblob.go], [src/extension/uvm.go] and
    [src/extension/remote_client_data.go], with the properties of what each
    handler accepts. *)
From S2P Require Import Prelude GoStrings Base64 Json AuthData ClientData ExtValue Extension.
Set Default Goal Selector "!".
Local Open Scope Z_scope.

Section Handlers.
Context {Ord : MapOrder} {Custom : CustomTypes}.

(** ** Readers of decoded values *)

Definition requireInputOperation (request : InputRequest) (allowed : list Operation) : result () :=
  fail_if (negb (bool_decide (ir_Operation request ∈ allowed))) (ErrorText ErrInvalidOperation (ir_ID request)).

Definition requireOperation {I} (request : OutputRequest I) (allowed : list Operation) : result () :=
  fail_if (negb (bool_decide (or_Operation request ∈ allowed))) (ErrorText ErrInvalidOperation (or_ID request)).

Definition requiredStringValue (v : value) (id : string) : result string :=
  match as_string v with
  | Some s => _ ← fail_if (bool_decide (s = "")) (invalidRequest (id +:+ " input must be a non-empty string")); Ok s
  | None => Err (invalidRequest (id +:+ " input must be a non-empty string"))
  end.

Definition requiredTrueValue (v : value) (id : string) : result () :=
  fail_if (negb (bool_decide (as_bool v = Some true))) (invalidRequest (id +:+ " input must be true")).

Definition string_entries (entries : list (mapkey * value)) : list (string * value) :=
  omap (λ '(k, v), match k with KString s => Some (s, v) | _ => None end) entries.

Definition objectFields (v : value) : option (list (string * value)) :=
  match v with
  | VMap ty entries =>
      if bool_decide (ty ∈ [map_string_any; TMap "" (TBasic "string") (TBasic "string");
                            TMap "" (TBasic "string") (TBasic "bool")])
      then Some (string_entries entries) else None
  | _ => None
  end.

(** [raw, ok := fields[name]] *)
Fixpoint field (name : string) (fields : list (string * value)) : option value :=
  match fields with
  | [] => None
  | (k, v) :: fields => if decide (k = name) then Some v else field name fields
  end.

Definition anySlice (v : value) : option (list value) :=
  match v with
  | VSeq ty items =>
      if bool_decide (ty ∈ [slice_any; TSlice "" (TBasic "uint"); TSlice "" (TBasic "uint16");
           TSlice "" (TBasic "uint32"); TSlice "" (TBasic "uint64"); TSlice "" (TBasic "int");
           TSlice "" (TBasic "int64"); TSlice "" (TBasic "float64")])
      then Some items else None
  | VBytes b => Some ((λ c, VInt "uint8" (byte_val c)) <$> slice_list b)
  | _ => None
  end.

Definition unsignedInRange (n max : Z) : option Z := if max <? n then None else Some n.

Definition unsignedValue (v : value) (max : Z) : option Z :=
  match v with
  | VInt kind n =>
      if bool_decide (kind ∈ ["uint"; "uint8"; "uint16"; "uint32"; "uint64"]) then unsignedInRange n max
      else if bool_decide (kind ∈ ["int"; "int64"]) then if n <? 0 then None else unsignedInRange n max
      else None
  | VFloat kind (FFinite m e) =>
      if negb (bool_decide (kind = "float64")) then None
      else if m <? 0 then None
      else if 0 <=? e then (if max <? m * 2 ^ e then None else Some (m * 2 ^ e))
      else if negb (m mod 2 ^ (- e) =? 0) then None
      else if max <? m / 2 ^ (- e) then None else Some (m / 2 ^ (- e))
  | _ => None
  end.

(** ** appid *)

Definition boolPtr (b : bool) : option bool := Some b.

Definition AppID_ValidateInput (request : InputRequest) : result string :=
  _ ← requireInputOperation request [OperationAuthentication];
  input ← rawValue (ir_Input request);
  requiredStringValue input IDAppID.

Definition AppID_VerifyOutput (_ : context) (request : OutputRequest string) : result (Verification AppIDResult) :=
  _ ← requireOperation request [OperationAuthentication];
  _ ← fail_if (negb (or_Requested request)) (invalidRequest "appid must be requested");
  _ ← fail_if (hasAuthenticatorOutput request) (invalidRequest "appid has no authenticator output");
  if negb (hasClientOutput request)
  then Ok (mkVerification false false (mkAppIDResult (or_ClientInput request) false) [])
  else used ← of_option (invalidRequest "appid client output must be boolean") (As as_bool (or_ClientOutput request));
       Ok (mkVerification true false (mkAppIDResult (or_ClientInput request) used) []).

Definition AppIDHandler : Handler string AppIDResult :=
  mkHandler IDAppID RevisionLevel3Recommendation AppID_ValidateInput AppID_VerifyOutput.

(** ** appidExclude *)

Definition AppIDExclude_ValidateInput (request : InputRequest) : result string :=
  _ ← requireInputOperation request [OperationRegistration];
  input ← rawValue (ir_Input request);
  requiredStringValue input IDAppIDExclude.

Definition AppIDExclude_VerifyOutput (_ : context) (request : OutputRequest string) :
    result (Verification AppIDExcludeResult) :=
  _ ← requireOperation request [OperationRegistration];
  _ ← fail_if (negb (or_Requested request)) (invalidRequest "appidExclude must be requested");
  _ ← fail_if (hasAuthenticatorOutput request) (invalidRequest "appidExclude has no authenticator output");
  if negb (hasClientOutput request)
  then Ok (mkVerification false false (mkAppIDExcludeResult (or_ClientInput request) false) [])
  else _ ← fail_if (negb (bool_decide (As as_bool (or_ClientOutput request) = Some true)))
             (invalidRequest "appidExclude client output must be true");
       Ok (mkVerification true false (mkAppIDExcludeResult (or_ClientInput request) true) []).

Definition AppIDExcludeHandler : Handler string AppIDExcludeResult :=
  mkHandler IDAppIDExclude RevisionLevel3Recommendation AppIDExclude_ValidateInput AppIDExclude_VerifyOutput.

(** ** credProps *)

Definition CredProps_ValidateInput (request : InputRequest) : result bool :=
  _ ← requireInputOperation request [OperationRegistration];
  input ← rawValue (ir_Input request);
  _ ← requiredTrueValue input IDCredProps;
  Ok true.

Definition parseCredentialPropertiesOutput (v : value) : result CredentialPropertiesResult :=
  match v with
  | VCredProps r => Ok (mkCredProps (cloneBoolPtr (ResidentKey r)))
  | _ =>
      fields ← of_option (invalidRequest "credProps client output must be an object") (objectFields v);
      match field "rk" fields with
      | Some raw =>
          residentKey ← of_option (invalidRequest "credProps rk must be boolean") (as_bool raw);
          Ok (mkCredProps (boolPtr residentKey))
      | None => Ok (mkCredProps None)
      end
  end.

Definition CredProps_VerifyOutput (_ : context) (request : OutputRequest bool) :
    result (Verification CredentialPropertiesResult) :=
  _ ← requireOperation request [OperationRegistration];
  _ ← fail_if (negb (or_Requested request)) (invalidRequest "credProps must be requested");
  _ ← fail_if (hasAuthenticatorOutput request) (invalidRequest "credProps has no authenticator output");
  if negb (hasClientOutput request) then Ok (mkVerification false false (mkCredProps None) [])
  else raw ← RawValue_Clone (or_ClientOutput request);
       out ← parseCredentialPropertiesOutput raw;
       Ok (mkVerification true false out []).

Definition CredPropsHandler : Handler bool CredentialPropertiesResult :=
  mkHandler IDCredProps RevisionLevel3Recommendation CredProps_ValidateInput CredProps_VerifyOutput.

(** ** uvm *)

Definition validateUVMEntryCount (count : Z) : result () :=
  fail_if ((count <? 1) || (3 <? count)) (invalidRequest "uvm output must contain one to three entries").

Definition parseUVMEntry (rawEntry : value) : result UVMEntry :=
  match anySlice rawEntry with
  | Some [a; b; c] =>
      method ← of_option (invalidRequest "uvm method must be uint32") (unsignedValue a (2 ^ 32 - 1));
      keyProtection ← of_option (invalidRequest "uvm key protection must be uint16") (unsignedValue b (2 ^ 16 - 1));
      matcherProtection ← of_option (invalidRequest "uvm matcher protection must be uint16") (unsignedValue c (2 ^ 16 - 1));
      Ok (mkUVMEntry method keyProtection matcherProtection)
  | _ => Err (invalidRequest "uvm entry must contain three integers")
  end.

Definition parseUVMEntries (v : value) : result (list UVMEntry) :=
  match v with
  | VUVMEntries es => _ ← validateUVMEntryCount (Z.of_nat (length es)); Ok (cloneUVMEntries es)
  | VUVMResult r => _ ← validateUVMEntryCount (Z.of_nat (length (Entries r))); Ok (cloneUVMEntries (Entries r))
  | _ =>
      rawEntries ← of_option (invalidRequest "uvm output must be an array") (anySlice v);
      _ ← validateUVMEntryCount (Z.of_nat (length rawEntries));
      map_res parseUVMEntry rawEntries
  end.

Definition uvmEntriesEqual (a b : list UVMEntry) : bool := bool_decide (a = b).

Definition UVM_ValidateInput (request : InputRequest) : result bool :=
  _ ← requireInputOperation request [OperationRegistration; OperationAuthentication];
  input ← rawValue (ir_Input request);
  _ ← requiredTrueValue input IDUVM;
  Ok true.

(** The entries of one output, if it is present. *)
Definition uvm_output (v : RawValue) : result (option (list UVMEntry)) :=
  if Present v then raw ← RawValue_Clone v; es ← parseUVMEntries raw; Ok (Some es) else Ok None.

Definition UVM_VerifyOutput (_ : context) (request : OutputRequest bool) : result (Verification UVMResult) :=
  _ ← requireOperation request [OperationRegistration; OperationAuthentication];
  _ ← fail_if (negb (or_Requested request)) (invalidRequest "uvm must be requested");
  client ← uvm_output (or_ClientOutput request);
  authenticator ← uvm_output (or_AuthenticatorOutput request);
  entries ← match client, authenticator with
    | Some a, Some b =>
        _ ← fail_if (negb (uvmEntriesEqual a b)) (invalidRequest "uvm client and authenticator outputs differ");
        Ok (Some b)
    | _, Some b => Ok (Some b)
    | a, None => Ok a
    end;
  Ok (mkVerification (bool_decide (is_Some entries)) true (mkUVMResult (cloneUVMEntries (default [] entries))) []).

Definition UVMHandler : Handler bool UVMResult :=
  mkHandler IDUVM RevisionLevel3Recommendation UVM_ValidateInput UVM_VerifyOutput.

(** ** largeBlob *)

Definition LargeBlobSupportRequired : string := "required".
Definition LargeBlobSupportPreferred : string := "preferred".

Record largeBlobInputPresence := mkLBIP { lbip_support : bool; lbip_read : bool; lbip_write : bool }.
Record largeBlobOutputPresence := mkLBOP { lbop_supported : bool; lbop_blob : bool; lbop_written : bool }.

Definition is_some {A} (o : option A) : bool := match o with Some _ => true | None => false end.

Definition input_presence (i : LargeBlobInput) : largeBlobInputPresence :=
  mkLBIP (negb (bool_decide (lb_Support i = ""))) (is_some (lb_Read i)) (is_some (lb_Write i)).

(** An optional member of an object, with the reader of its type. *)
Definition optional_field {T} (read : value → option T) (reason : string) (raw : option value) : result (option T) :=
  match raw with
  | Some v => t ← of_option (invalidRequest reason) (read v); Ok (Some t)
  | None => Ok None
  end.

Definition largeBlobInputFromFields (fields : list (string * value)) :
    result (LargeBlobInput * largeBlobInputPresence) :=
  support ← optional_field as_string "largeBlob support must be a string" (field "support" fields);
  read ← optional_field as_bool "largeBlob read must be boolean" (field "read" fields);
  write ← optional_field as_bytes "largeBlob write must be bytes" (field "write" fields);
  Ok (mkLargeBlobInput (default "" support) read (mjoin write),
      mkLBIP (is_some support) (is_some read) (is_some write)).

Definition parseLargeBlobInput (v : value) : result (LargeBlobInput * largeBlobInputPresence) :=
  match v with
  | VLargeBlobInput i => Ok (cloneLargeBlobInput i, input_presence i)
  | _ => match objectFields v with
         | Some fields => largeBlobInputFromFields fields
         | None => Err (invalidRequest "largeBlob input must be an object")
         end
  end.

Definition validateLargeBlobInput (operation : Operation) (input : LargeBlobInput)
    (presence : largeBlobInputPresence) : result () :=
  _ ← fail_if (lbip_support presence && negb (bool_decide (lb_Support input = LargeBlobSupportRequired))
               && negb (bool_decide (lb_Support input = LargeBlobSupportPreferred)))
        (invalidRequest "largeBlob support must be required or preferred");
  if bool_decide (operation = OperationRegistration) then
    fail_if (lbip_read presence || lbip_write presence)
      (invalidRequest "largeBlob read and write are authentication-only inputs")
  else if bool_decide (operation = OperationAuthentication) then
    _ ← fail_if (lbip_support presence) (invalidRequest "largeBlob support is registration-only input");
    fail_if (lbip_read presence && lbip_write presence)
      (invalidRequest "largeBlob read and write are mutually exclusive")
  else Ok ().

Definition LargeBlob_ValidateInput (request : InputRequest) : result LargeBlobInput :=
  _ ← requireInputOperation request [OperationRegistration; OperationAuthentication];
  raw ← rawValue (ir_Input request);
  '(input, presence) ← parseLargeBlobInput raw;
  _ ← validateLargeBlobInput (ir_Operation request) input presence;
  Ok input.

Definition validateLargeBlobOutput (operation : Operation) (input : LargeBlobInput)
    (inputPresence : largeBlobInputPresence) (outputPresence : largeBlobOutputPresence)
    (out : LargeBlobResult) : result () :=
  if bool_decide (operation = OperationRegistration) then
    _ ← fail_if (lbop_blob outputPresence || lbop_written outputPresence)
          (invalidRequest "largeBlob blob and written are authentication-only outputs");
    _ ← fail_if (negb (lbop_supported outputPresence))
          (invalidRequest "largeBlob registration output must contain supported");
    fail_if (lbip_support inputPresence && bool_decide (lb_Support input = LargeBlobSupportRequired)
             && bool_decide (lbr_Supported out = Some false))
      (invalidRequest "largeBlob required support was not provided")
  else if bool_decide (operation = OperationAuthentication) then
    _ ← fail_if (lbop_supported outputPresence) (invalidRequest "largeBlob supported is registration-only output");
    let readRequested := lbip_read inputPresence && bool_decide (lb_Read input = Some true) in
    _ ← fail_if (lbop_blob outputPresence && negb readRequested) (invalidRequest "largeBlob blob requires read input");
    _ ← fail_if (lbop_written outputPresence && negb (lbip_write inputPresence))
          (invalidRequest "largeBlob written requires write input");
    fail_if (lbip_write inputPresence && negb (lbop_written outputPresence))
      (invalidRequest "largeBlob write output must contain written")
  else Ok ().

Definition largeBlobResultFromInput (i : LargeBlobInput) : LargeBlobResult :=
  mkLargeBlobResult (lb_Support i) (cloneBoolPtr (lb_Read i)) (lb_Write i) None None None.

Definition parseLargeBlobOutput (operation : Operation) (input : LargeBlobInput)
    (presence : largeBlobInputPresence) (v : value) (out : LargeBlobResult) : result LargeBlobResult :=
  match v with
  | VLargeBlobResult r =>
      let typed := cloneLargeBlobResult r in
      let outputPresence := mkLBOP (is_some (lbr_Supported typed)) (is_some (lbr_Blob typed)) (is_some (lbr_Written typed)) in
      let out := mkLargeBlobResult (lbr_Support out) (cloneBoolPtr (lbr_Read out)) (lbr_Write out)
                   (lbr_Supported typed) (lbr_Blob typed) (lbr_Written typed) in
      _ ← validateLargeBlobOutput operation input presence outputPresence out;
      Ok out
  | _ =>
      fields ← of_option (invalidRequest "largeBlob client output must be an object") (objectFields v);
      supported ← optional_field as_bool "largeBlob supported must be boolean" (field "supported" fields);
      blob ← optional_field as_bytes "largeBlob blob must be bytes" (field "blob" fields);
      written ← optional_field as_bool "largeBlob written must be boolean" (field "written" fields);
      let outputPresence := mkLBOP (is_some supported) (is_some blob) (is_some written) in
      let out := mkLargeBlobResult (lbr_Support out) (lbr_Read out) (lbr_Write out)
                   (match supported with Some b => boolPtr b | None => lbr_Supported out end)
                   (match blob with Some b => b | None => lbr_Blob out end)
                   (match written with Some b => boolPtr b | None => lbr_Written out end) in
      _ ← validateLargeBlobOutput operation input presence outputPresence out;
      Ok out
  end.

Definition LargeBlob_VerifyOutput (_ : context) (request : OutputRequest LargeBlobInput) :
    result (Verification LargeBlobResult) :=
  _ ← requireOperation request [OperationRegistration; OperationAuthentication];
  _ ← fail_if (negb (or_Requested request)) (invalidRequest "largeBlob must be requested");
  let input := or_ClientInput request in
  let presence := input_presence input in
  _ ← fail_if (hasAuthenticatorOutput request) (invalidRequest "largeBlob has no authenticator output");
  let out := largeBlobResultFromInput input in
  if negb (hasClientOutput request) then Ok (mkVerification false false out [])
  else raw ← RawValue_Clone (or_ClientOutput request);
       out ← parseLargeBlobOutput (or_Operation request) input presence raw out;
       Ok (mkVerification true false out []).

Definition LargeBlobHandler : Handler LargeBlobInput LargeBlobResult :=
  mkHandler IDLargeBlob RevisionLevel3Recommendation LargeBlob_ValidateInput LargeBlob_VerifyOutput.
End Handlers.

(** ** prf *)

Section PRF.
Context {Ord : MapOrder} {Custom : CustomTypes}.

Definition validatePRFValues (v : PRFValues) (requireOutputLength : bool) : result () :=
  _ ← fail_if (bool_decide (First v = None)) (invalidRequest "prf first is required");
  if requireOutputLength then
    _ ← fail_if (negb (slice_len (First v) =? 32)) (invalidRequest "prf first result must be 32 bytes");
    fail_if (is_some (Second v) && negb (slice_len (Second v) =? 32))
      (invalidRequest "prf second result must be 32 bytes")
  else Ok ().

Definition validatePRFResult (v : option PRFValues) : result () :=
  match v with None => Ok () | Some v => validatePRFValues v true end.

Definition requiredBytesField (fields : list (string * value)) (name : string) : result (slice byte) :=
  raw ← of_option (invalidRequest ("prf " +:+ name +:+ " is required")) (field name fields);
  of_option (invalidRequest ("prf " +:+ name +:+ " must be bytes")) (as_bytes raw).

Definition parsePRFValues (v : value) (requireOutputLength : bool) : result PRFValues :=
  match v with
  | VPRFValues vs | VPRFValuesPtr (Some vs) =>
      let out := clonePRFValues vs in
      _ ← validatePRFValues out requireOutputLength; Ok out
  | VPRFValuesPtr None => Err (invalidRequest "prf values must be an object")
  | _ =>
      fields ← of_option (invalidRequest "prf values must be an object") (objectFields v);
      first ← requiredBytesField fields "first";
      second ← optional_field as_bytes "prf second must be bytes" (field "second" fields);
      let out := mkPRFValues first (mjoin second) in
      _ ← validatePRFValues out requireOutputLength; Ok out
  end.

(** A loop body over the entries of [evalByCredential]. *)
Definition prfEntry (e : string * value) : result (string * PRFValues) :=
  vs ← parsePRFValues e.2 false; Ok (e.1, vs).

Definition prfInputFromFields (fields : list (string * value)) : result PRFInput :=
  eval ← match field "eval" fields with
    | Some raw => vs ← parsePRFValues raw false; Ok (Some vs)
    | None => Ok None
    end;
  evalByCredential ← match field "evalByCredential" fields with
    | None => Ok None
    | Some (VMap ty entries) =>
        if bool_decide (ty = map_string_any)
        then pairs ← map_res prfEntry (string_entries entries); Ok (Some (list_to_map (M:=gmap string PRFValues) pairs))
        else Err (invalidRequest "prf evalByCredential must be an object")
    | Some _ => Err (invalidRequest "prf evalByCredential must be an object")
    end;
  allowCredentials ← match field "allowCredentials" fields with
    | None => Ok []
    | Some (VSeq ty items) =>
        if bool_decide (ty ∈ [TSlice "" (TBasic "string"); slice_any])
        then map_res (λ v, of_option (invalidRequest "prf allowCredentials must be strings") (as_string v)) items
        else Err (invalidRequest "prf allowCredentials must be strings")
    | Some _ => Err (invalidRequest "prf allowCredentials must be strings")
    end;
  Ok (mkPRFInput eval evalByCredential allowCredentials).

Definition parsePRFInput (v : value) : result PRFInput :=
  match v with
  | VPRFInput input =>
      _ ← match prf_Eval input with Some vs => validatePRFValues vs false | None => Ok () end;
      _ ← for_each (λ e : string * PRFValues, validatePRFValues e.2 false)
            (range_list (default ∅ (prf_EvalByCredential input)));
      Ok (clonePRFInput input)
  | VMap ty entries =>
      if bool_decide (ty = map_string_any) then prfInputFromFields (string_entries entries)
      else Err (invalidRequest "prf input must be an object")
  | _ => Err (invalidRequest "prf input must be an object")
  end.

(** The credential-specific inputs of an authentication request. *)
Definition validateEvalByCredential (input : PRFInput) : result () :=
  let evals := default ∅ (prf_EvalByCredential input) in
  if map_len evals =? 0 then Ok () else
  _ ← fail_if (bool_decide (prf_AllowCredentials input = []))
        (invalidRequest "prf evalByCredential requires allowCredentials");
  for_each (λ id,
    _ ← fail_if (bool_decide (id = "") || negb (bool_decide (id ∈ prf_AllowCredentials input)))
          (invalidRequest "prf evalByCredential credential is not allowed");
    fail_if (match DecodeString id with
             | Some decoded => negb (bool_decide (EncodeToString decoded = id))
             | None => true end)
      (invalidRequest "prf evalByCredential credential must be base64url")) (range_keys evals).

Definition PRF_ValidateInput (request : InputRequest) : result PRFInput :=
  _ ← requireInputOperation request [OperationRegistration; OperationAuthentication];
  raw ← rawValue (ir_Input request);
  input ← parsePRFInput raw;
  _ ← fail_if (bool_decide (ir_Operation request = OperationRegistration) && is_some (prf_EvalByCredential input))
        (invalidRequest "prf evalByCredential is authentication-only");
  _ ← if bool_decide (ir_Operation request = OperationAuthentication)
      then validateEvalByCredential input else Ok ();
  Ok input.

Record prfOutputPresence := mkPRFOP { prfop_enabled : bool; prfop_results : bool }.

Definition selectedPRFInput (input : PRFInput) (selectedCredentialID : CredentialID) : option PRFValues :=
  let evals := default ∅ (prf_EvalByCredential input) in
  if negb (map_len evals =? 0) && (bv_len selectedCredentialID =? 0) then None
  else
    match (if negb (map_len evals =? 0)
           then evals !! EncodeToString (bv_appendTo selectedCredentialID []) else None) with
    | Some vs => Some vs
    | None => prf_Eval input
    end.

Definition prfResultCardinalityMatches (input res : PRFValues) : bool :=
  Bool.eqb (is_some (Second input)) (is_some (Second res)).

Definition prfResultMatchesInput (input res : PRFValues) : bool :=
  if negb (prfResultCardinalityMatches input res) then false
  else negb (is_some (Second input))
       || negb (bool_decide (slice_list (First input) = slice_list (Second input)))
       || bool_decide (slice_list (First res) = slice_list (Second res)).

Definition matches_input (input : option PRFValues) (results : option PRFValues) : bool :=
  match input, results with
  | Some i, Some r => prfResultMatchesInput i r
  | _, _ => false
  end.

Definition validatePRFOutput (operation : Operation) (input : PRFInput) (selectedCredentialID : CredentialID)
    (presence : prfOutputPresence) (out : PRFResult) : result () :=
  _ ← validatePRFResult (prfr_Results out);
  if bool_decide (operation = OperationRegistration) then
    _ ← fail_if (negb (prfop_enabled presence)) (invalidRequest "prf registration output must contain enabled");
    _ ← fail_if (prfop_results presence && bool_decide (prfr_Enabled out = Some false))
          (invalidRequest "prf disabled output cannot contain results");
    fail_if (prfop_results presence && negb (matches_input (prf_Eval input) (prfr_Results out)))
      (invalidRequest "prf results do not match registration inputs")
  else if bool_decide (operation = OperationAuthentication) then
    _ ← fail_if (prfop_enabled presence) (invalidRequest "prf enabled is registration-only");
    fail_if (prfop_results presence
             && negb (matches_input (selectedPRFInput input selectedCredentialID) (prfr_Results out)))
      (invalidRequest "prf results do not match selected credential input")
  else Ok ().

Definition parsePRFOutput (operation : Operation) (input : PRFInput) (selectedCredentialID : CredentialID)
    (v : value) (out : PRFResult) : result PRFResult :=
  match v with
  | VPRFResult r =>
      let typed := clonePRFResult r in
      let out := mkPRFResult (prfr_Eval out) (prfr_EvalByCredential out) (prfr_Enabled typed) (prfr_Results typed) in
      _ ← validatePRFOutput operation input selectedCredentialID
            (mkPRFOP (is_some (prfr_Enabled typed)) (is_some (prfr_Results typed))) out;
      Ok out
  | _ =>
      fields ← of_option (invalidRequest "prf client output must be an object") (objectFields v);
      enabled ← optional_field as_bool "prf enabled must be boolean" (field "enabled" fields);
      results ← match field "results" fields with
        | Some raw => vs ← parsePRFValues raw true; Ok (Some vs)
        | None => Ok None
        end;
      let out := mkPRFResult (prfr_Eval out) (prfr_EvalByCredential out)
                   (match enabled with Some b => boolPtr b | None => prfr_Enabled out end)
                   (match results with Some vs => Some vs | None => prfr_Results out end) in
      _ ← validatePRFOutput operation input selectedCredentialID (mkPRFOP (is_some enabled) (is_some results)) out;
      Ok out
  end.

Definition PRF_VerifyOutput (_ : context) (request : OutputRequest PRFInput) : result (Verification PRFResult) :=
  _ ← requireOperation request [OperationRegistration; OperationAuthentication];
  _ ← fail_if (negb (or_Requested request)) (invalidRequest "prf must be requested");
  _ ← fail_if (hasAuthenticatorOutput request) (invalidRequest "prf has no authenticator output");
  let input := or_ClientInput request in
  let out := mkPRFResult (clonePRFValuesPtr (prf_Eval input)) (clonePRFValuesMap (prf_EvalByCredential input)) None None in
  if negb (hasClientOutput request) then Ok (mkVerification false false out [])
  else raw ← RawValue_Clone (or_ClientOutput request);
       out ← parsePRFOutput (or_Operation request) input (or_SelectedCredentialID request) raw out;
       Ok (mkVerification true false out []).

Definition PRFHandler : Handler PRFInput PRFResult :=
  mkHandler IDPRF RevisionLevel3Recommendation PRF_ValidateInput PRF_VerifyOutput.

(** [PRFInputWithCredentials] *)
Definition PRFInputWithCredentials (input : value) (credentials : list string) : result PRFInput :=
  raw ← InputValue input;
  parsed ← parsePRFInput raw;
  Ok (mkPRFInput (prf_Eval parsed) (prf_EvalByCredential parsed) credentials).

(** ** remoteClientDataJSON *)

Definition Remote_ValidateInput (request : InputRequest) : result string :=
  _ ← requireInputOperation request [OperationRegistration; OperationAuthentication];
  let invalid := invalidRequest "remoteClientDataJSON input must be a non-empty UTF-8 string" in
  input ← of_option invalid (As as_string (ir_Input request));
  _ ← fail_if (bool_decide (input = "") || negb (utf8_ValidString input)) invalid;
  raw ← or_err (invalidRequest "remoteClientDataJSON input is invalid")
          (NewClientDataJSON (Some (bytes_of_string input)));
  clientData ← or_err (invalidRequest "remoteClientDataJSON input must contain valid client data")
                 (ParseCollectedClientData raw);
  let expectedType := if bool_decide (ir_Operation request = OperationAuthentication)
                      then ClientDataTypeGet else ClientDataTypeCreate in
  _ ← or_err (invalidRequest "remoteClientDataJSON ceremony type is invalid") (ValidateType clientData expectedType);
  Ok input.

Definition Remote_VerifyOutput (_ : context) (request : OutputRequest string) :
    result (Verification RemoteClientDataJSONResult) :=
  _ ← requireOperation request [OperationRegistration; OperationAuthentication];
  _ ← fail_if (negb (or_Requested request)) (invalidRequest "remoteClientDataJSON must be requested");
  _ ← fail_if (hasAuthenticatorOutput request) (invalidRequest "remoteClientDataJSON has no authenticator output");
  _ ← fail_if (negb (hasClientOutput request)) (invalidRequest "remoteClientDataJSON client output must be true");
  _ ← fail_if (negb (bool_decide (As as_bool (or_ClientOutput request) = Some true)))
        (invalidRequest "remoteClientDataJSON client output must be true");
  Ok (mkVerification true false (mkRemoteResult true) []).

Definition RemoteClientDataJSONHandler : Handler string RemoteClientDataJSONResult :=
  mkHandler IDRemoteClientDataJSON RevisionRemoteClientDataJSON Remote_ValidateInput Remote_VerifyOutput.

(** ** The standard registries *)

Definition Level2Handlers : list (option erasedHandler) :=
  [Some (Register (Iface AppIDHandler)); Some (Register (Iface AppIDExcludeHandler));
   Some (Register (Iface UVMHandler)); Some (Register (Iface CredPropsHandler));
   Some (Register (Iface LargeBlobHandler))].
Definition NewLevel2Registry : result Registry := NewRegistry Level2Handlers.

Definition Level3Handlers : list (option erasedHandler) :=
  [Some (Register (Iface AppIDHandler)); Some (Register (Iface AppIDExcludeHandler));
   Some (Register (Iface CredPropsHandler)); Some (Register (Iface LargeBlobHandler));
   Some (Register (Iface PRFHandler))].
Definition NewLevel3Registry : result Registry := NewRegistry Level3Handlers.

Definition Level3HandlersWithDeprecated : list (option erasedHandler) :=
  Level3Handlers ++ [Some (Register (Iface UVMHandler))].
Definition NewLevel3RegistryWithDeprecated : result Registry := NewRegistry Level3HandlersWithDeprecated.
End PRF.

(** ** Lemmas *)

Section Lemmas.
Context {Ord : MapOrder} {Custom : CustomTypes}.

Lemma Level3_entries_ok :
  Forall entry_ok [Register (Iface AppIDHandler); Register (Iface AppIDExcludeHandler);
    Register (Iface CredPropsHandler); Register (Iface LargeBlobHandler);
    Register (Iface PRFHandler); Register (Iface UVMHandler)].
Proof.
  repeat constructor; intros b Hb; by vm_compute in Hb; injection Hb as <-.
Qed.

Lemma NewLevel3RegistryWithDeprecated_Ok : ∃ r, NewLevel3RegistryWithDeprecated = Ok r ∧
  ∀ id, Registry_Contains r id = true ↔ id ∈ [IDAppID; IDAppIDExclude; IDCredProps; IDLargeBlob; IDPRF; IDUVM].
Proof.
  eexists. split.
  - apply NewRegistry_Ok. split; [vm_compute; discriminate|].
    eexists [_; _; _; _; _; _]. split; [reflexivity|]. split; [apply Level3_entries_ok|].
    split; [|reflexivity]. apply (bool_decide_unpack _). vm_compute. exact I.
  - intros id. unfold Registry_Contains. cbn [registry_map from_option Datatypes.id].
    rewrite bool_decide_eq_true. rewrite <-elem_of_dom, dom_list_to_map_L, elem_of_list_to_set. done.
Qed.

Lemma range_values_Forall {A} (P : A → Prop) (m : gmap string A) :
  Forall (λ e, P e.2) (range_list m) ↔ map_Forall (λ _ v, P v) m.
Proof.
  rewrite Forall_forall. split.
  - intros H k v Hk. apply (H (k, v)). by apply elem_of_range_list.
  - intros H [k v] Hin%elem_of_range_list. by apply (H k v).
Qed.

Lemma validateEvalByCredential_Ok input u :
  validateEvalByCredential input = Ok u ↔
  map_Forall (λ id _, id ∈ prf_AllowCredentials input ∧ ∃ bytes, bytes ≠ [] ∧ id = EncodeToString bytes)
    (default ∅ (prf_EvalByCredential input)).
Proof.
  destruct u. unfold validateEvalByCredential. set (m := default ∅ (prf_EvalByCredential input)).
  destruct (Z.eqb_spec (map_len m) 0) as [Hz|Hz].
  { split; [|done]. intros _. unfold map_len in Hz. assert (m = ∅) as ->; [|by apply map_Forall_empty].
    apply map_size_empty_inv. lia. }
  rewrite bind_Ok. setoid_rewrite for_each_Ok. setoid_rewrite Forall_forall.
  assert (∀ id, (_ ← fail_if (bool_decide (id = "") || negb (bool_decide (id ∈ prf_AllowCredentials input)))
            (invalidRequest "prf evalByCredential credential is not allowed");
         fail_if (match DecodeString id with Some d => negb (bool_decide (EncodeToString d = id)) | None => true end)
           (invalidRequest "prf evalByCredential credential must be base64url")) = Ok () ↔
         id ∈ prf_AllowCredentials input ∧ ∃ bytes, bytes ≠ [] ∧ id = EncodeToString bytes) as Hbody.
  { intros id. rewrite bind_Ok. split.
    - intros ([] & H1%fail_if_Ok & H2%fail_if_Ok).
      rewrite orb_false_iff, negb_false_iff, bool_decide_eq_false, bool_decide_eq_true in H1. destruct H1 as [Hne Hin].
      split; [done|]. destruct (DecodeString id) as [d|]; [|done].
      apply negb_false_iff, bool_decide_eq_true in H2. exists d. split; [|done].
      intros ->. apply Hne. by rewrite <-H2.
    - intros (Hin & bytes & Hne & ->). exists (). rewrite !fail_if_Ok, decode_encode.
      rewrite (bool_decide_eq_false_2 (_ = "")) by (by intros ?%EncodeToString_empty).
      by rewrite !bool_decide_eq_true_2. }
  split.
  - intros ([] & _ & H) id v Hid. apply Hbody, H. apply elem_of_range_keys. by exists v.
  - intros H. exists (). rewrite fail_if_Ok, bool_decide_eq_false. split.
    + intros Hnil. assert (∃ id v, m !! id = Some v) as (id & v & Hid).
      { destruct (map_choose m) as (id & v & Hid); [|by eauto]. intros Hm. apply Hz. by rewrite Hm. }
      destruct (H id v Hid) as [Hin _]. rewrite Hnil in Hin. by apply not_elem_of_nil in Hin.
    + intros id [v Hv]%elem_of_range_keys. by apply Hbody, (H id v).
Qed.

Lemma parseUVMEntry_bounds v e : parseUVMEntry v = Ok e →
  UserVerificationMethod e <= 2 ^ 32 - 1 ∧ KeyProtectionType e <= 2 ^ 16 - 1 ∧ MatcherProtectionType e <= 2 ^ 16 - 1.
Proof.
  assert (∀ v max n, unsignedValue v max = Some n → n <= max) as Hu.
  { intros v0 max n. unfold unsignedValue, unsignedInRange. intros H.
    repeat case_match; simplify_eq; try done; lia. }
  unfold parseUVMEntry. destruct (anySlice v) as [[|a [|b [|c [|]]]]|]; try done. intros H. res_inv.
  cbn. split_and!; by eapply Hu.
Qed.

Lemma parseUVMEntries_data v es : data_value v = true → parseUVMEntries v = Ok es →
  1 <= Z.of_nat (length es) <= 3 ∧
  Forall (λ e, UserVerificationMethod e <= 2 ^ 32 - 1 ∧ KeyProtectionType e <= 2 ^ 16 - 1
               ∧ MatcherProtectionType e <= 2 ^ 16 - 1) es.
Proof.
  intros Hd H.
  assert (∃ raws, anySlice v = Some raws ∧ validateUVMEntryCount (Z.of_nat (length raws)) = Ok ()
                  ∧ map_res parseUVMEntry raws = Ok es) as (raws & _ & Hc & Hes).
  { assert ((rawEntries ← of_option (invalidRequest "uvm output must be an array") (anySlice v);
             _ ← validateUVMEntryCount (Z.of_nat (length rawEntries)); map_res parseUVMEntry rawEntries) = Ok es) as H'
      by (by destruct v).
    apply bind_Ok in H' as (raws & ?%of_option_Ok & H'). apply bind_Ok in H' as ([] & ? & ?). by exists raws. }
  apply map_res_Ok in Hes. apply fail_if_Ok in Hc. rewrite orb_false_iff, !Z.ltb_ge in Hc.
  rewrite <-(Forall2_length _ _ _ Hes). split; [lia|].
  induction Hes as [|x e xs es' He Hes IH] in Hc |- *; [constructor|]. constructor; [by eapply parseUVMEntry_bounds|].
  clear -Hes. induction Hes; constructor; [by eapply parseUVMEntry_bounds|done].
Qed.
End Lemmas.

Section OutputLemmas.
Context {Ord : MapOrder} {Custom : CustomTypes}.

Lemma registration_not_authentication : OperationRegistration ≠ OperationAuthentication.
Proof. done. Qed.

(** A result that corresponds to the request it answers: 32-byte values, a
    second one exactly when two were requested, equal outputs for equal inputs. *)
Definition prf_answers (i r : PRFValues) : Prop :=
  slice_len (First r) = 32 ∧ (Second r = None ↔ Second i = None) ∧
  (Second r ≠ None → slice_len (Second r) = 32) ∧
  (Second i ≠ None → slice_list (First i) = slice_list (Second i) → slice_list (First r) = slice_list (Second r)).

Lemma prf_answers_intro i r u :
  validatePRFValues r true = Ok u → prfResultMatchesInput i r = true → prf_answers i r.
Proof.
  intros H Hm. unfold validatePRFValues in H. res_inv.
  apply negb_false_iff, Z.eqb_eq in Hok0. unfold prf_answers.
  unfold prfResultMatchesInput, prfResultCardinalityMatches in Hm.
  destruct (Second i) as [si|], (Second r) as [sr|]; cbn in Hm, H |- *; try done.
  apply negb_false_iff, Z.eqb_eq in H. split_and!; try done. intros _ Heq.
  rewrite Heq, bool_decide_eq_true_2 in Hm by done. by apply bool_decide_eq_true in Hm.
Qed.

Lemma validatePRFOutput_authentication input sel e out u :
  validatePRFOutput OperationAuthentication input sel (mkPRFOP e (is_some (prfr_Results out))) out = Ok u →
  e = false ∧ ∀ r, prfr_Results out = Some r →
    ∃ i, selectedPRFInput input sel = Some i ∧ prf_answers i r.
Proof.
  unfold validatePRFOutput. rewrite bool_decide_eq_false_2, bool_decide_eq_true_2 by done. cbn [prfop_enabled prfop_results].
  intros H. apply bind_Ok in H as ([] & Hv & H). apply bind_Ok in H as ([] & ->%fail_if_Ok & H%fail_if_Ok).
  split; [done|]. intros r Hr. rewrite Hr in H, Hv. cbn in H, Hv. apply negb_false_iff in H.
  destruct (selectedPRFInput input sel) as [i|]; [|done]. exists i. split; [done|]. by eapply prf_answers_intro.
Qed.

Lemma parsePRFOutput_authentication input sel v out0 out :
  prfr_Results out0 = None → prfr_Enabled out0 = None →
  parsePRFOutput OperationAuthentication input sel v out0 = Ok out →
  prfr_Enabled out = None ∧ ∀ r, prfr_Results out = Some r →
    ∃ i, selectedPRFInput input sel = Some i ∧ prf_answers i r.
Proof.
  intros Hr0 He0 H. unfold parsePRFOutput in H.
  assert (∃ e, prfr_Enabled out = e ∧
     validatePRFOutput OperationAuthentication input sel (mkPRFOP (is_some e) (is_some (prfr_Results out))) out = Ok ())
    as (e & He & Hv).
  { destruct v; try (apply bind_Ok in H as (fields & _ & H); apply bind_Ok in H as (enabled & _ & H);
      apply bind_Ok in H as (results & _ & H); apply bind_Ok in H as ([] & Hv & H);
      apply Ok_inj in H; subst out; cbn in Hv |- *; rewrite ?Hr0, ?He0 in *;
      eexists; split; [reflexivity|]; by destruct enabled, results).
    apply bind_Ok in H as ([] & Hv & H). apply Ok_inj in H. subst out. by eexists. }
  apply validatePRFOutput_authentication in Hv as [Hfalse Hres]. split; [|done].
  rewrite He. by destruct e.
Qed.

Lemma validateLargeBlobOutput_authentication input out u supported blob written :
  validateLargeBlobOutput OperationAuthentication input (input_presence input)
    (mkLBOP supported blob written) out = Ok u →
  supported = false ∧ (blob = true → lb_Read input = Some true) ∧ (written = true ↔ lb_Write input ≠ None).
Proof.
  intros H. unfold validateLargeBlobOutput in H. rewrite bool_decide_eq_false_2, bool_decide_eq_true_2 in H by done.
  unfold input_presence in H. cbn [lbop_supported lbop_blob lbop_written lbip_read lbip_write] in H. res_inv.
  split; [done|].
  assert (is_some (lb_Write input) = true ↔ lb_Write input ≠ None) as Hw by (by destruct (lb_Write input)).
  split.
  - intros ->. apply negb_false_iff, andb_true_iff in Hok0 as [_ Hr]. by apply bool_decide_eq_true in Hr.
  - rewrite <-Hw. destruct written, (is_some (lb_Write input)); done.
Qed.

Lemma validateLargeBlobOutput_registration input out u supported blob written :
  validateLargeBlobOutput OperationRegistration input (input_presence input)
    (mkLBOP supported blob written) out = Ok u →
  supported = true ∧ blob = false ∧ written = false ∧
  (lb_Support input = LargeBlobSupportRequired → lbr_Supported out ≠ Some false).
Proof.
  intros H. unfold validateLargeBlobOutput in H. rewrite bool_decide_eq_true_2 in H by done.
  unfold input_presence in H. cbn [lbop_supported lbop_blob lbop_written lbip_support] in H. res_inv.
  apply orb_false_iff in Hok as [-> ->]. apply negb_false_iff in Hok0. split_and!; try done.
  intros Hs Hf. rewrite Hs, Hf in H. done.
Qed.
End OutputLemmas.

(** What largeBlob outputs may accompany an input. *)
Definition largeBlob_answers (operation : Operation) (input : LargeBlobInput) (out : LargeBlobResult) : Prop :=
  if decide (operation = OperationRegistration) then
    is_Some (lbr_Supported out) ∧ lbr_Blob out = None ∧ lbr_Written out = None ∧
    (lb_Support input = LargeBlobSupportRequired → lbr_Supported out = Some true)
  else
    lbr_Supported out = None ∧ (lbr_Blob out ≠ None → lb_Read input = Some true) ∧
    (is_Some (lbr_Written out) ↔ lb_Write input ≠ None).

Section LargeBlobOutput.
Context {Ord : MapOrder} {Custom : CustomTypes}.

Lemma largeBlob_presence_answers operation input out u blob :
  operation ∈ [OperationRegistration; OperationAuthentication] →
  (blob = false → lbr_Blob out = None) →
  validateLargeBlobOutput operation input (input_presence input)
    (mkLBOP (is_some (lbr_Supported out)) blob (is_some (lbr_Written out))) out = Ok u →
  largeBlob_answers operation input out.
Proof.
  intros Hop Hblob H. unfold largeBlob_answers.
  assert (∀ A (o : option A), is_some o = true ↔ is_Some o) as Hs
    by (by intros A []; split).
  assert (∀ A (o : option A), is_some o = false ↔ o = None) as Hn by (intros A []; done).
  case_decide as E.
  - subst operation. apply validateLargeBlobOutput_registration in H as (Hsup & -> & Hw & Hreq).
    apply Hs in Hsup as [b Hb]. apply Hn in Hw. split_and!; [by eexists|by apply Hblob|done|].
    intros Hr. specialize (Hreq Hr). rewrite Hb in *. by destruct b.
  - rewrite !elem_of_cons in Hop. destruct Hop as [->|[->|[]%not_elem_of_nil]]; [done|].
    apply validateLargeBlobOutput_authentication in H as (Hsup & Hb & Hw). apply Hn in Hsup.
    split_and!; [done| |by rewrite <-Hs].
    intros Hne. apply Hb. destruct blob; [done|]. by rewrite Hblob in Hne.
Qed.

Lemma parseLargeBlobOutput_answers operation input v out0 out :
  operation ∈ [OperationRegistration; OperationAuthentication] →
  lbr_Supported out0 = None → lbr_Blob out0 = None → lbr_Written out0 = None →
  parseLargeBlobOutput operation input (input_presence input) v out0 = Ok out →
  largeBlob_answers operation input out.
Proof.
  intros Hop H1 H2 H3 H. unfold parseLargeBlobOutput in H.
  assert (∃ blob, (blob = false → lbr_Blob out = None) ∧
    validateLargeBlobOutput operation input (input_presence input)
      (mkLBOP (is_some (lbr_Supported out)) blob (is_some (lbr_Written out))) out = Ok ()) as (blob & Hb & Hv).
  { destruct v; try (apply bind_Ok in H as (fields & _ & H); apply bind_Ok in H as (supported & _ & H);
      apply bind_Ok in H as (blob & _ & H); apply bind_Ok in H as (written & _ & H);
      apply bind_Ok in H as ([] & Hv & H); apply Ok_inj in H; subst out; cbn in Hv |- *; rewrite H1, H2, H3 in *;
      exists (is_some blob); split; [by destruct blob|by destruct supported, written]).
    apply bind_Ok in H as ([] & Hv & H). apply Ok_inj in H. subst out. cbn in Hv |- *.
    eexists. split; [|exact Hv]. by destruct (lbr_Blob r). }
  by eapply largeBlob_presence_answers.
Qed.
End LargeBlobOutput.

(** ** Properties *)

(** A PRF result is only accepted in authentication if it answers the input
    of the credential that was used: the credential-specific input when there is
    one, otherwise the general one; both values are 32 bytes, the second is
    present exactly when it was asked for, and equal inputs have equal results. *)
Theorem prf_results_answer_input {Ord : MapOrder} {Custom : CustomTypes} (ctx : context)
    (request : OutputRequest PRFInput) (v : Verification PRFResult) (r : PRFValues)
    (Hop : or_Operation request = OperationAuthentication)
    (Hv : PRF_VerifyOutput ctx request = Ok v) (Hr : prfr_Results (vf_Output v) = Some r) :
  or_Requested request = true ∧ prfr_Enabled (vf_Output v) = None ∧
  ∃ i, selectedPRFInput (or_ClientInput request) (or_SelectedCredentialID request) = Some i ∧ prf_answers i r.
Proof.
  unfold PRF_VerifyOutput in Hv. rewrite Hop in Hv.
  apply bind_Ok in Hv as ([] & _ & Hv). apply bind_Ok in Hv as ([] & Hreq%fail_if_Ok & Hv).
  apply bind_Ok in Hv as ([] & _ & Hv). apply negb_false_iff in Hreq.
  destruct (negb (hasClientOutput request)); [apply Ok_inj in Hv; by subst v|].
  apply bind_Ok in Hv as (raw & _ & Hv). apply bind_Ok in Hv as (out & Hout & Hv). apply Ok_inj in Hv. subst v.
  cbn in Hr |- *. apply parsePRFOutput_authentication in Hout as [? Hres]; [|done|done].
  split_and!; [done|done|]. by apply Hres.
Qed.

Definition example_prf_request : OutputRequest PRFInput :=
  mkOutputRequest OperationAuthentication IDPRF true zeroByteValue
    (mkPRFInput (Some (mkPRFValues (Some [x01]) None)) None [])
    (mkRawValue true (VPRFResult (mkPRFResult None None None (Some (mkPRFValues (Some (replicate 32 x02)) None)))))
    absent.

Lemma prf_results_answer_input_witness :
  ∃ i, selectedPRFInput (or_ClientInput example_prf_request) (or_SelectedCredentialID example_prf_request) = Some i
       ∧ prf_answers i (mkPRFValues (Some (replicate 32 x02)) None).
Proof.
  refine (proj2 (proj2 (@prf_results_answer_input default_order no_custom_types background example_prf_request
    (mkVerification true false (mkPRFResult (Some (mkPRFValues (Some [x01]) None)) None None
       (Some (mkPRFValues (Some (replicate 32 x02)) None))) []) (mkPRFValues (Some (replicate 32 x02)) None) _ _ _)));
    [reflexivity|vm_compute; reflexivity|reflexivity].
Defined.

(** For authentication a PRF input passes its credential check exactly when
    every credential it names is the canonical base64url text of a non-empty ID
    in the allow list, whatever order the map is visited in. *)
Theorem prf_credentials_allowed {Ord : MapOrder} (input : PRFInput) :
  validateEvalByCredential input = Ok () ↔
  map_Forall (λ id _, id ∈ prf_AllowCredentials input ∧ ∃ bytes, bytes ≠ [] ∧ id = EncodeToString bytes)
    (default ∅ (prf_EvalByCredential input)).
Proof. apply validateEvalByCredential_Ok. Qed.

(** A verified largeBlob output fits the request.  At registration it
    reports support, and positively if support was required; at authentication a
    blob only answers a read and a write status is present exactly for a write. *)
Theorem large_blob_output_fits {Ord : MapOrder} {Custom : CustomTypes} (ctx : context)
    (request : OutputRequest LargeBlobInput) (v : Verification LargeBlobResult)
    (Hv : LargeBlob_VerifyOutput ctx request = Ok v) (Ha : vf_Accepted v = true) :
  or_Requested request = true ∧ largeBlob_answers (or_Operation request) (or_ClientInput request) (vf_Output v).
Proof.
  unfold LargeBlob_VerifyOutput in Hv.
  apply bind_Ok in Hv as ([] & Hop & Hv). apply bind_Ok in Hv as ([] & Hreq%fail_if_Ok & Hv).
  apply bind_Ok in Hv as ([] & _ & Hv). apply negb_false_iff in Hreq. split; [done|].
  destruct (negb (hasClientOutput request)); [apply Ok_inj in Hv; by subst v|].
  apply bind_Ok in Hv as (raw & _ & Hv). apply bind_Ok in Hv as (out & Hout & Hv). apply Ok_inj in Hv. subst v.
  unfold requireOperation in Hop. apply fail_if_Ok, negb_false_iff, bool_decide_eq_true in Hop.
  eapply parseLargeBlobOutput_answers; [done| | | |exact Hout]; done.
Qed.

Definition example_blob_request : OutputRequest LargeBlobInput :=
  mkOutputRequest OperationRegistration IDLargeBlob true zeroByteValue
    (mkLargeBlobInput LargeBlobSupportRequired None None)
    (mkRawValue true (VMap map_string_any [(KString "supported", VBool true)])) absent.

Lemma large_blob_output_fits_witness :
  largeBlob_answers OperationRegistration (mkLargeBlobInput LargeBlobSupportRequired None None)
    (mkLargeBlobResult LargeBlobSupportRequired None None (Some true) None None).
Proof.
  refine (proj2 (@large_blob_output_fits default_order no_custom_types background example_blob_request
    (mkVerification true false (mkLargeBlobResult LargeBlobSupportRequired None None (Some true) None None) []) _ _));
    [vm_compute; reflexivity|reflexivity].
Defined.

(** The user verification entries read from decoded wire data are one to
    three triples of a 32-bit method and 16-bit protection types, so the
    conversions to their fixed widths lose nothing. *)
Theorem uvm_entries_bounded {Custom : CustomTypes} (v : value) (es : list UVMEntry)
    (Hdata : data_value v = true) (Hv : parseUVMEntries v = Ok es) :
  1 <= Z.of_nat (length es) <= 3 ∧
  Forall (λ e, UserVerificationMethod e <= 2 ^ 32 - 1 ∧ KeyProtectionType e <= 2 ^ 16 - 1
               ∧ MatcherProtectionType e <= 2 ^ 16 - 1) es.
Proof. by eapply parseUVMEntries_data. Qed.

Lemma uvm_entries_bounded_witness : 1 <= Z.of_nat (length [mkUVMEntry 2 4 1]) <= 3.
Proof.
  refine (proj1 (@uvm_entries_bounded no_custom_types
    (VSeq slice_any [VSeq slice_any [VInt "uint64" 2; VFloat "float64" (FFinite 1 2); VInt "int64" 1]])
    [mkUVMEntry 2 4 1] _ _)); vm_compute; reflexivity.
Defined.

(** The Level 3 registry with deprecated extensions is always built, and
    knows exactly the six extensions of the Recommendation. *)
Theorem level3_registry {Ord : MapOrder} {Custom : CustomTypes} :
  ∃ r, NewLevel3RegistryWithDeprecated = Ok r ∧
  ∀ id, Registry_Contains r id = true ↔ id ∈ [IDAppID; IDAppIDExclude; IDCredProps; IDLargeBlob; IDPRF; IDUVM].
Proof. apply NewLevel3RegistryWithDeprecated_Ok. Qed.
