(* ===== verification/Attestation.v ===== *)
(** * Attestation: verifiers, registry and trust policies

    Models [src/attestation/attestation.go], [src/attestation/evidence.go],
    [src/attestation/policy.go], [src/attestation/none/none.go],
    [src/attestation/compound/compound.go] and the adapter contracts of
    [src/crypto/crypto.go].  Verifiers, policies, metadata and certificate
    services are injected interfaces: functions wrapped in [iface].  A context
    handed to an adapter is passed on unchanged. *)
From S2P Require Import Prelude AuthData ClientData ExtValue Types.
Set Default Goal Selector "!".
Local Open Scope Z_scope.

Definition ErrInvalidFormat : error := Sentinel "attestation.ErrInvalidFormat".
Definition ErrDuplicateFormat : error := Sentinel "attestation.ErrDuplicateFormat".
Definition ErrTrustPolicyConfiguration : error := Sentinel "attestation.ErrTrustPolicyConfiguration".

Definition TypeNone : string := "none".
Definition TypeSelf : string := "self".
Definition TypeBasic : string := "basic".
Definition TypeAttCA : string := "attca".
Definition TypeAnonymizationCA : string := "anonymization-ca".
Definition TypeUncertain : string := "uncertain".
Definition Type_Known (t : string) : bool :=
  one_of t [TypeNone; TypeSelf; TypeBasic; TypeAttCA; TypeAnonymizationCA; TypeUncertain].

Definition TrustPathNone : string := "none".
Definition TrustPathX509 : string := "x5c".
Definition TrustPathRaw : string := "raw".
Definition TrustPathCompound : string := "compound".
Definition TrustPathKind_Known (k : string) : bool :=
  one_of k [TrustPathNone; TrustPathX509; TrustPathRaw; TrustPathCompound].

(** ** Statements *)

(** The values of a decoded statement map: generic decoded values, or the
    normalized sub-statements of a compound statement, whose own statement map
    may be nil. *)
Inductive stmt_value : Type :=
| SValue (v : value)
| SCompound (subs : list (string * option (gmap string stmt_value))).

Definition AttestationStatement : Type := gmap string stmt_value.

Record DecodedAttestationObject := mkDecoded {
  do_Format : string;
  do_AuthenticatorData : AuthenticatorData;
  do_Statement : AttestationStatement;
  do_Raw : AttestationObject;
}.

(** ** Signatures *)

Record SignatureInput := mkSignatureInput {
  si_Algorithm : Z;
  si_PublicKey : CredentialPublicKeyMaterial;
  si_RawCredentialPublicKey : list byte;
  si_Signed : list byte;
  si_Signature : Signature;
}.
Definition SignatureVerifier : Type := iface (context → SignatureInput → result ()).

(** ** Results *)

Definition Certificate : Type := list byte.
Definition CertificateChain : Type := list Certificate.

(** The evidence type of package [androidsafetynet]. *)
Record SafetyNetEvidence := mkSafetyNetEvidence {
  sne_Version : string; sne_Timestamp : Z; sne_APKPackageName : string; sne_APKCertificateSHA256 : list (list byte);
  sne_CTSProfileMatch : bool; sne_BasicIntegrity : bool }.
Definition CloneSafetyNetEvidence (e : SafetyNetEvidence) : SafetyNetEvidence :=
  mkSafetyNetEvidence (sne_Version e) (sne_Timestamp e) (sne_APKPackageName e) (sne_APKCertificateSHA256 e)
    (sne_CTSProfileMatch e) (sne_BasicIntegrity e).

(** Evidence attached by a format; [EvOpaque] is a type of another package. *)
Inductive Evidence :=
| EvNil
| EvTypedNil
| EvCompound (SuccessfulStatements RequiredStatements : Z)
| EvSafetyNet (e : SafetyNetEvidence)
| EvOpaque (o : opaque).

Class CustomEvidence : Type := { custom_CloneEvidence : opaque → Evidence }.
Definition plain_evidence : CustomEvidence := {| custom_CloneEvidence := EvOpaque |}.

Record TrustPath (R : Type) := mkTrustPath {
  tp_Kind : string; tp_Certificates : CertificateChain; tp_Raw : slice byte; tp_Statements : slice R }.
Arguments mkTrustPath {R}.
Arguments tp_Kind {R}.
Arguments tp_Certificates {R}.
Arguments tp_Raw {R}.
Arguments tp_Statements {R}.

Inductive VerificationResult : Type := mkVR {
  vr_Type : string;
  vr_TrustPath : TrustPath VerificationResult;
  vr_CryptographicallyValid : bool;
  vr_Warnings : list string;
  vr_Evidence : Evidence;
}.

Record TrustResult := mkTrustResult { ts_Accepted : bool; ts_Reason : string; ts_Warnings : list string }.
Definition TrustResult_Clone (r : TrustResult) : TrustResult :=
  mkTrustResult (ts_Accepted r) (ts_Reason r) (ts_Warnings r).

Record VerificationRequest := mkVerificationRequest {
  vq_Format : string;
  vq_ConveyancePreference : string;
  vq_AuthenticatorData : AuthenticatorData;
  vq_ClientDataHash : list byte;
  vq_Statement : AttestationStatement;
  vq_CredentialPublicKey : CredentialPublicKey;
  vq_RawAttestationObject : AttestationObject;
}.

Record TrustRequest := mkTrustRequest {
  tq_Format : string;
  tq_Result : VerificationResult;
  tq_AAGUID : AAGUID;
  tq_AuthenticatorData : AuthenticatorData;
  tq_CredentialPublicKey : CredentialPublicKey;
  tq_RawAttestationObject : AttestationObject;
}.

Record Verifier := mkVerifier {
  v_Format : string;
  v_VerifyAttestation : context → VerificationRequest → result VerificationResult;
}.

Definition TrustPolicy : Type := iface (context → TrustRequest → result TrustResult).

Section Cloning.
Context {CE : CustomEvidence}.

Definition cloneEvidence (e : Evidence) : Evidence :=
  match e with
  | EvNil | EvTypedNil => EvNil
  | EvCompound s r => EvCompound s r
  | EvSafetyNet e => EvSafetyNet (CloneSafetyNetEvidence e)
  | EvOpaque o => if op_nil o then EvNil else custom_CloneEvidence o
  end.

Fixpoint VerificationResult_Clone (r : VerificationResult) : VerificationResult :=
  let path := vr_TrustPath r in
  mkVR (vr_Type r)
    (mkTrustPath (tp_Kind path) (tp_Certificates path) (tp_Raw path)
       (match tp_Statements path with
        | Some rs => Some (List.map VerificationResult_Clone rs)
        | None => None
        end))
    (vr_CryptographicallyValid r) (vr_Warnings r) (cloneEvidence (vr_Evidence r)).

Definition cloneTrustPath (path : TrustPath VerificationResult) : TrustPath VerificationResult :=
  mkTrustPath (tp_Kind path) (tp_Certificates path) (tp_Raw path)
    (match tp_Statements path with Some rs => Some (List.map VerificationResult_Clone rs) | None => None end).

Definition cloneTrustRequest (q : TrustRequest) : TrustRequest :=
  mkTrustRequest (tq_Format q) (VerificationResult_Clone (tq_Result q)) (tq_AAGUID q)
    (tq_AuthenticatorData q) (tq_CredentialPublicKey q) (tq_RawAttestationObject q).
End Cloning.

(** ** The registry *)

Definition attRegistry : Type := option (gmap string Verifier).
Definition attRegistry_map (r : attRegistry) : gmap string Verifier := default ∅ r.

Definition attRegistry_step (verifiers : gmap string Verifier) (verifier : iface Verifier) :
    result (gmap string Verifier) :=
  match verifier with
  | Iface v =>
      _ ← fail_if (negb (protocolidentifier_Valid (v_Format v))) ErrInvalidFormat;
      _ ← fail_if (bool_decide (is_Some (verifiers !! v_Format v))) (ErrorText ErrDuplicateFormat (v_Format v));
      Ok (<[v_Format v := v]> verifiers)
  | _ => Err ErrInvalidFormat
  end.

Fixpoint attRegistry_loop (verifiers : gmap string Verifier) (l : list (iface Verifier)) :
    result (gmap string Verifier) :=
  match l with
  | [] => Ok verifiers
  | v :: l => verifiers ← attRegistry_step verifiers v; attRegistry_loop verifiers l
  end.

Definition NewAttRegistry (verifiers : list (iface Verifier)) : result attRegistry :=
  m ← attRegistry_loop ∅ verifiers; Ok (Some m).

Definition Lookup (r : attRegistry) (format : string) : option Verifier := attRegistry_map r !! format.

(** ** The none format *)

Module None.
Definition format : string := "none".
Definition ErrInvalidStatement : error := Sentinel "none.ErrInvalidStatement".

Definition VerifyAttestation (_ : context) (request : VerificationRequest) : result VerificationResult :=
  if negb (bool_decide (vq_Format request = format)) || negb (map_len (vq_Statement request) =? 0)
  then Err ErrInvalidStatement
  else Ok (mkVR TypeNone (mkTrustPath TrustPathNone [] None None) true [] EvNil).

Definition New : Verifier := mkVerifier format VerifyAttestation.
End None.

(** ** The compound format *)

Module Compound.
Definition Format : string := "compound".
Definition DefaultMaxStatements : Z := 16.
Definition maxConfiguredStatements : Z := 64.
Definition ErrInvalidStatement : error := Sentinel "compound.ErrInvalidStatement".
Definition ErrVerifier : error := Sentinel "compound.ErrVerifier".
Definition ErrInsufficientStatements : error := Sentinel "compound.ErrInsufficientStatements".

Record Policy := mkPolicy { MinimumSuccessful : Z; RequireAll : bool; MaxStatements : Z }.
Record CompoundVerifier := mkCompound { cv_registry : attRegistry; cv_policy : Policy }.

Definition compoundSubStatements (statement : AttestationStatement) :
    result (list (string * AttestationStatement)) :=
  _ ← fail_if (negb (map_len statement =? 1)) ErrInvalidStatement;
  match statement !! CompoundSubStatementsKey with
  | Some (SCompound subs) =>
      _ ← fail_if (Z.of_nat (length subs) <? 2) ErrInvalidStatement;
      map_res (λ '(fmt, st),
        match st with
        | Some st => _ ← fail_if (negb (protocolidentifier_Valid fmt)) ErrInvalidStatement; Ok (fmt, st)
        | None => Err ErrInvalidStatement
        end) subs
  | _ => Err ErrInvalidStatement
  end.

Definition requiredSuccesses (v : CompoundVerifier) (total : Z) : result Z :=
  let policy := cv_policy v in
  _ ← fail_if (total <? 2) ErrInvalidStatement;
  let maximum := if MaxStatements policy =? 0 then DefaultMaxStatements else MaxStatements policy in
  _ ← fail_if ((maximum <? 2) || (maxConfiguredStatements <? maximum) || (maximum <? total)) ErrInvalidStatement;
  if RequireAll policy || (MinimumSuccessful policy =? 0) then Ok total
  else _ ← fail_if ((MinimumSuccessful policy <? 0) || (total <? MinimumSuccessful policy)) ErrInvalidStatement;
       Ok (MinimumSuccessful policy).

Definition usable (r : VerificationResult) : bool :=
  vr_CryptographicallyValid r && Type_Known (vr_Type r) && TrustPathKind_Known (tp_Kind (vr_TrustPath r)).

Section Verify.
Context {CE : CustomEvidence} (v : CompoundVerifier) (ctx : context) (request : VerificationRequest).

Definition sub_request (fmt : string) (st : AttestationStatement) : VerificationRequest :=
  mkVerificationRequest fmt (vq_ConveyancePreference request) (vq_AuthenticatorData request)
    (vq_ClientDataHash request) st (vq_CredentialPublicKey request) (vq_RawAttestationObject request).

(** The loop over the sub-statements; [i] numbers the polls of the context. *)
Fixpoint verifyStatements (i : nat) (statements : list (string * AttestationStatement)) :
    result (list VerificationResult * list string) :=
  match statements with
  | [] => Ok ([], [])
  | (fmt, st) :: rest =>
      match ctx "compound.VerifyAttestation" i with
      | Some e => Err e
      | None =>
          if bool_decide (fmt = Format) then Err ErrInvalidStatement
          else match Lookup (cv_registry v) fmt with
          | None =>
              '(results, warnings) ← verifyStatements (S i) rest;
              Ok (results, ("compound sub-statement verifier missing: " +:+ fmt) :: warnings)
          | Some verifier =>
              match v_VerifyAttestation verifier ctx (sub_request fmt st) with
              | Err _ =>
                  '(results, warnings) ← verifyStatements (S i) rest;
                  Ok (results, ("compound sub-statement failed: " +:+ fmt) :: warnings)
              | Ok r =>
                  if negb (usable r) then
                    '(results, warnings) ← verifyStatements (S i) rest;
                    Ok (results, ("compound sub-statement invalid: " +:+ fmt) :: warnings)
                  else
                    '(results, warnings) ← verifyStatements (S i) rest;
                    Ok (VerificationResult_Clone r :: results, warnings)
              end
          end
      end
  end.

Definition VerifyAttestation : result VerificationResult :=
  _ ← fail_if (negb (bool_decide (vq_Format request = Format))) ErrInvalidStatement;
  _ ← fail_if (bool_decide (cv_registry v = None)) ErrVerifier;
  statements ← compoundSubStatements (vq_Statement request);
  required ← requiredSuccesses v (Z.of_nat (length statements));
  '(results, warnings) ← verifyStatements 0 statements;
  let successes := Z.of_nat (length results) in
  _ ← fail_if (successes <? required) (ErrorText ErrInsufficientStatements "");
  Ok (mkVR TypeUncertain (mkTrustPath TrustPathCompound [] None (Some results)) true warnings
        (EvCompound successes required)).
End Verify.
End Compound.

(** ** Trust policies *)

Record MetadataRequest := mkMetadataRequest {
  mq_Format : string; mq_Type : string; mq_AAGUID : AAGUID;
  mq_TrustPath : TrustPath VerificationResult; mq_Evidence : Evidence }.
Record MetadataResult := mkMetadataResult {
  mr_Found : bool; mr_Trusted : bool; mr_Reason : string; mr_Warnings : list string }.
Definition MetadataProvider : Type := iface (context → MetadataRequest → result MetadataResult).

Definition CertificateStatusGood : string := "good".
Definition CertificateStatusRevoked : string := "revoked".
Definition CertificateStatusUnknown : string := "unknown".
Definition CertificateStatusUnavailable : string := "unavailable".

Record CertificateStatusRequest := mkStatusRequest {
  sq_Format : string; sq_Type : string; sq_AAGUID : AAGUID;
  sq_TrustPath : TrustPath VerificationResult; sq_Certificates : CertificateChain; sq_Evidence : Evidence }.
Record CertificateStatusResult := mkStatusResult { sr_Status : string; sr_Reason : string; sr_Warnings : list string }.
Definition CertificateStatusProvider : Type := iface (context → CertificateStatusRequest → result CertificateStatusResult).

Record CertificateVerificationContext := mkVerificationContext {
  cvc_DNSName : string; cvc_CurrentTime : Z; cvc_Roots : CertificateChain }.
Record CertificateVerification := mkCertificateVerification { cv_Trusted : bool; cv_Warnings : list string }.
Definition CertificateVerifier : Type :=
  iface (context → CertificateChain → CertificateVerificationContext → result CertificateVerification).

Definition trustResult (accepted : bool) (reason : string) (warnings : list string) : TrustResult :=
  mkTrustResult accepted reason warnings.
Definition accepted (reason : string) : TrustResult := trustResult true reason [].
Definition rejected (reason : string) : TrustResult := trustResult false reason [].
Definition reasonOrDefault (reason fallback : string) : string :=
  if bool_decide (reason = "") then fallback else reason.

(** [typeSet], [formatSet], [certificateStatusSet] and [aaguidSet] *)
Definition stringSet (l : list string) : gset string := list_to_set l.
Definition aaguidSet (l : list AAGUID) : list AAGUID := l.

Section Policies.
Context {CE : CustomEvidence}.

Definition allowTypesPolicy (allowed : gset string) (acceptReason rejectReason : string) : TrustPolicy :=
  Iface (λ _ request, Ok (if bool_decide (vr_Type (tq_Result request) ∈ allowed)
                          then accepted acceptReason else rejected rejectReason)).
Definition rejectTypesPolicy (refused : gset string) (acceptReason rejectReason : string) : TrustPolicy :=
  Iface (λ _ request, Ok (if bool_decide (vr_Type (tq_Result request) ∈ refused)
                          then rejected rejectReason else accepted acceptReason)).
Definition allowFormatsPolicy (allowed : gset string) (acceptReason rejectReason : string) : TrustPolicy :=
  Iface (λ _ request, Ok (if bool_decide (tq_Format request ∈ allowed)
                          then accepted acceptReason else rejected rejectReason)).

Definition AcceptNone : TrustPolicy :=
  allowTypesPolicy (stringSet [TypeNone]) "none attestation accepted by policy" "none attestation required by policy".
Definition RejectNone : TrustPolicy :=
  rejectTypesPolicy (stringSet [TypeNone]) "non-none attestation accepted by policy" "none attestation rejected by policy".
Definition AcceptSelf : TrustPolicy :=
  allowTypesPolicy (stringSet [TypeSelf]) "self attestation accepted by policy" "self attestation required by policy".
Definition RejectSelf : TrustPolicy :=
  rejectTypesPolicy (stringSet [TypeSelf]) "non-self attestation accepted by policy" "self attestation rejected by policy".
Definition AllowTypes (types : list string) : TrustPolicy :=
  allowTypesPolicy (stringSet types) "attestation type accepted by policy" "attestation type rejected by policy".
Definition AllowFormats (formats : list string) : TrustPolicy :=
  allowFormatsPolicy (stringSet formats) "attestation format accepted by policy" "attestation format rejected by policy".
Definition RequireAAGUID (aaguids : list AAGUID) : TrustPolicy :=
  Iface (λ _ request, Ok (if bool_decide (tq_AAGUID request ∈ aaguidSet aaguids)
                          then accepted "aaguid accepted by policy" else rejected "aaguid rejected by policy")).

Definition has_x5c (request : TrustRequest) : bool :=
  bool_decide (tp_Kind (vr_TrustPath (tq_Result request)) = TrustPathX509)
  && negb (bool_decide (tp_Certificates (vr_TrustPath (tq_Result request)) = [])).

Definition RequireTrustedRoots (verifier : CertificateVerifier) (vctx : CertificateVerificationContext) : TrustPolicy :=
  Iface (λ ctx request,
    match verifier with
    | Iface verify =>
        if negb (has_x5c request) then Ok (rejected "x5c trust path required by policy")
        else verification ← verify ctx (tp_Certificates (vr_TrustPath (tq_Result request))) vctx;
             Ok (if cv_Trusted verification
                 then trustResult true "x5c trust path accepted by policy" (cv_Warnings verification)
                 else trustResult false "x5c trust path rejected by policy" (cv_Warnings verification))
    | _ => Err ErrTrustPolicyConfiguration
    end).

Definition RequireTrustedMetadata (provider : MetadataProvider) : TrustPolicy :=
  Iface (λ ctx request,
    match provider with
    | Iface lookup =>
        metadata ← lookup ctx (mkMetadataRequest (tq_Format request) (vr_Type (tq_Result request)) (tq_AAGUID request)
                                 (cloneTrustPath (vr_TrustPath (tq_Result request)))
                                 (cloneEvidence (vr_Evidence (tq_Result request))));
        Ok (if negb (mr_Found metadata)
            then trustResult false (reasonOrDefault (mr_Reason metadata) "attestation metadata not found") (mr_Warnings metadata)
            else if negb (mr_Trusted metadata)
            then trustResult false (reasonOrDefault (mr_Reason metadata) "attestation metadata rejected by policy") (mr_Warnings metadata)
            else trustResult true (reasonOrDefault (mr_Reason metadata) "attestation metadata accepted by policy") (mr_Warnings metadata))
    | _ => Err ErrTrustPolicyConfiguration
    end).

(** [%q] of a text without characters to escape. *)
Definition quote (s : string) : string := string_of_bytes ([x22] ++ bytes_of_string s ++ [x22]).

Definition RequireCertificateStatus (provider : CertificateStatusProvider) (allowed : list string) : TrustPolicy :=
  let allowed := stringSet (if bool_decide (allowed = []) then [CertificateStatusGood] else allowed) in
  Iface (λ ctx request,
    match provider with
    | Iface check =>
        if negb (has_x5c request) then Ok (rejected "x5c trust path required by policy")
        else
          let trustPath := cloneTrustPath (vr_TrustPath (tq_Result request)) in
          res ← check ctx (mkStatusRequest (tq_Format request) (vr_Type (tq_Result request)) (tq_AAGUID request)
                             trustPath (tp_Certificates trustPath) (cloneEvidence (vr_Evidence (tq_Result request))));
          let status := if bool_decide (sr_Status res = "") then CertificateStatusUnknown else sr_Status res in
          Ok (if bool_decide (status ∈ allowed)
              then trustResult true (reasonOrDefault (sr_Reason res) ("certificate status " +:+ quote status +:+ " accepted by policy")) (sr_Warnings res)
              else trustResult false (reasonOrDefault (sr_Reason res) ("certificate status " +:+ quote status +:+ " rejected by policy")) (sr_Warnings res))
    | _ => Err ErrTrustPolicyConfiguration
    end).

Definition errNilPolicy : error := ErrorText ErrTrustPolicyConfiguration "nil policy".

Fixpoint allOf_loop (ctx : context) (request : TrustRequest) (warnings : list string) (policies : list TrustPolicy) :
    result TrustResult :=
  match policies with
  | [] => Ok (trustResult true "all trust policies accepted" warnings)
  | Iface policy :: policies =>
      r ← policy ctx (cloneTrustRequest request);
      let warnings := warnings ++ ts_Warnings r in
      if negb (ts_Accepted r) then Ok (mkTrustResult (ts_Accepted r) (ts_Reason r) warnings)
      else allOf_loop ctx request warnings policies
  | _ :: _ => Err errNilPolicy
  end.

Definition AllOf (policies : list TrustPolicy) : TrustPolicy :=
  Iface (λ ctx request,
    _ ← fail_if (match policies with [] => true | _ => false end)
          (ErrorText ErrTrustPolicyConfiguration "all-of policy requires at least one child policy");
    allOf_loop ctx request [] policies).

Fixpoint anyOf_loop (ctx : context) (request : TrustRequest) (warnings : list string) (policies : list TrustPolicy) :
    result TrustResult :=
  match policies with
  | [] => Ok (trustResult false "no trust policy accepted attestation" warnings)
  | Iface policy :: policies =>
      r ← policy ctx (cloneTrustRequest request);
      if ts_Accepted r then Ok r else anyOf_loop ctx request (warnings ++ ts_Warnings r) policies
  | _ :: _ => Err errNilPolicy
  end.

Definition AnyOf (policies : list TrustPolicy) : TrustPolicy :=
  Iface (λ ctx request,
    _ ← fail_if (match policies with [] => true | _ => false end)
          (ErrorText ErrTrustPolicyConfiguration "any-of policy requires at least one child policy");
    anyOf_loop ctx request [] policies).

(** [policy.EvaluateAttestationTrust] through the interface value. *)
Definition evaluate (policy : TrustPolicy) (ctx : context) (request : TrustRequest) : result TrustResult :=
  match policy with Iface f => f ctx request | _ => Err ErrTrustPolicyConfiguration end.

(** ** Lemmas *)

Definition child_accepts (ctx : context) (request : TrustRequest) (p : TrustPolicy) : Prop :=
  ∃ f r, p = Iface f ∧ f ctx (cloneTrustRequest request) = Ok r ∧ ts_Accepted r = true.
Definition child_rejects (ctx : context) (request : TrustRequest) (p : TrustPolicy) : Prop :=
  ∃ f r, p = Iface f ∧ f ctx (cloneTrustRequest request) = Ok r ∧ ts_Accepted r = false.

Lemma allOf_loop_accepts ctx request ps w r :
  allOf_loop ctx request w ps = Ok r → ts_Accepted r = true → Forall (child_accepts ctx request) ps.
Proof.
  revert w. induction ps as [|p ps IH]; intros w H Ha; [constructor|].
  destruct p as [| |f]; try done. cbn [allOf_loop] in H. apply bind_Ok in H as (r1 & H1 & H).
  destruct (ts_Accepted r1) eqn:E; cbn [negb] in H; [|apply Ok_inj in H; subst r; cbn in Ha; congruence].
  constructor; [by exists f, r1|]. by eapply IH.
Qed.

Lemma allOf_loop_complete ctx request ps w :
  Forall (child_accepts ctx request) ps → ∃ r, allOf_loop ctx request w ps = Ok r ∧ ts_Accepted r = true.
Proof.
  intros H. revert w. induction H as [|p ps (f & r & -> & Hf & Ha) Hps IH]; intros w; [by eexists|].
  cbn [allOf_loop]. rewrite Hf. cbn [mbind result_bind]. rewrite Ha. cbn [negb]. apply IH.
Qed.

Lemma anyOf_loop_spec ctx request ps w r :
  anyOf_loop ctx request w ps = Ok r → ts_Accepted r = true →
  ∃ before f after, ps = before ++ Iface f :: after ∧ Forall (child_rejects ctx request) before ∧
    f ctx (cloneTrustRequest request) = Ok r.
Proof.
  revert w. induction ps as [|p ps IH]; intros w H Ha; [apply Ok_inj in H; by subst r|].
  destruct p as [| |f]; try done. cbn [anyOf_loop] in H. apply bind_Ok in H as (r1 & H1 & H).
  destruct (ts_Accepted r1) eqn:E.
  - apply Ok_inj in H. subst r1. exists [], f, ps. split_and!; [done|constructor|done].
  - destruct (IH _ H Ha) as (before & g & after & -> & Hb & Hg).
    exists (Iface f :: before), g, after. split_and!; [done| |done]. constructor; [by exists f, r1|done].
Qed.

Lemma anyOf_loop_complete ctx request before f after r w :
  Forall (child_rejects ctx request) before → f ctx (cloneTrustRequest request) = Ok r → ts_Accepted r = true →
  anyOf_loop ctx request w (before ++ Iface f :: after) = Ok r.
Proof.
  intros H Hf Ha. revert w. induction H as [|p ps (g & r1 & -> & Hg & Hr1) Hps IH]; intros w; cbn [app anyOf_loop].
  - rewrite Hf. cbn [mbind result_bind]. by rewrite Ha.
  - rewrite Hg. cbn [mbind result_bind]. rewrite Hr1. apply IH.
Qed.
End Policies.

Definition att_entry (v : Verifier) : string * Verifier := (v_Format v, v).
Definition verifier_ok (v : Verifier) : Prop := protocolidentifier_Valid (v_Format v) = true.

Lemma att_entries_fresh v vs : v_Format v ∉ v_Format <$> vs →
  list_to_map (M:=gmap string Verifier) (att_entry <$> vs) !! v_Format v = None.
Proof. intros H. apply not_elem_of_list_to_map_1. by rewrite <-list_fmap_compose. Qed.

Lemma attRegistry_step_Ok m e m' :
  attRegistry_step m e = Ok m' ↔
  ∃ v, e = Iface v ∧ verifier_ok v ∧ m !! v_Format v = None ∧ m' = <[v_Format v := v]> m.
Proof.
  unfold attRegistry_step, verifier_ok. split.
  - destruct e as [| |v]; try done. intros H. apply bind_Ok in H as ([] & H1%fail_if_Ok%negb_false_iff & H).
    apply bind_Ok in H as ([] & H2%fail_if_Ok%bool_decide_eq_false & [= <-]). exists v. split_and!; try done.
    by apply eq_None_not_Some.
  - intros (v & -> & -> & Hn & ->). cbn. rewrite bool_decide_eq_false_2 by (by rewrite Hn; intros []). done.
Qed.

Lemma attRegistry_loop_Ok l m m' :
  attRegistry_loop m l = Ok m' ↔
  ∃ vs, l = Iface <$> vs ∧ Forall verifier_ok vs ∧ NoDup (v_Format <$> vs) ∧
        Forall (λ v, m !! v_Format v = None) vs ∧ m' = list_to_map (att_entry <$> vs) ∪ m.
Proof.
  revert m. induction l as [|e l IH]; intros m; cbn [attRegistry_loop].
  - split.
    + intros [= <-]. exists []. cbn. rewrite (left_id_L ∅ (∪)). split_and!; try done; constructor.
    + intros (vs & Hvs & _ & _ & _ & ->). destruct vs; [|done]. cbn. by rewrite (left_id_L ∅ (∪)).
  - rewrite bind_Ok. setoid_rewrite IH. setoid_rewrite attRegistry_step_Ok. split.
    + intros (m1 & (v & -> & Hok & Hnone & ->) & vs & -> & Hoks & Hnd & Hfresh & ->).
      assert (v_Format v ∉ v_Format <$> vs) as Hnin.
      { rewrite list_elem_of_fmap. intros (v' & Heq & Hin). rewrite Forall_forall in Hfresh.
        specialize (Hfresh _ Hin). by rewrite <-Heq, lookup_insert_eq in Hfresh. }
      exists (v :: vs). split_and!; [done|by constructor|by apply NoDup_cons| |].
      * constructor; [done|]. eapply Forall_impl; [exact Hfresh|]. intros v' Hv'.
        by apply lookup_insert_None in Hv' as [? _].
      * change (list_to_map (att_entry <$> v :: vs)) with (<[v_Format v := v]> (list_to_map (M:=gmap string Verifier) (att_entry <$> vs))).
        rewrite <-insert_union_l, insert_union_r; [done|]. by apply att_entries_fresh.
    + intros (vs & Hvs & Hoks & Hnd & Hfresh & ->). destruct vs as [|v vs]; [done|].
      rewrite fmap_cons in Hvs. injection Hvs as -> ->.
      apply Forall_cons in Hoks as [Hok Hoks]. apply Forall_cons in Hfresh as [Hnone Hfresh].
      rewrite fmap_cons in Hnd. apply NoDup_cons in Hnd as [Hnin Hnd].
      exists (<[v_Format v := v]> m). split; [by exists v|]. exists vs. split_and!; try done.
      * rewrite Forall_forall in Hfresh |- *. intros v' Hin. rewrite lookup_insert_ne; [by apply Hfresh|].
        intros Heq. apply Hnin, list_elem_of_fmap. by exists v'.
      * change (list_to_map (att_entry <$> v :: vs)) with (<[v_Format v := v]> (list_to_map (M:=gmap string Verifier) (att_entry <$> vs))).
        rewrite <-insert_union_l, insert_union_r; [done|]. by apply att_entries_fresh.
Qed.

Lemma NewAttRegistry_Ok l r :
  NewAttRegistry l = Ok r ↔
  ∃ vs, l = Iface <$> vs ∧ Forall verifier_ok vs ∧ NoDup (v_Format <$> vs) ∧
        r = Some (list_to_map (att_entry <$> vs)).
Proof.
  unfold NewAttRegistry. rewrite bind_Ok. setoid_rewrite attRegistry_loop_Ok. split.
  - intros (m & (vs & -> & ? & ? & _ & ->) & [= <-]). exists vs. by rewrite (right_id_L ∅ (∪)).
  - intros (vs & -> & Hok & Hnd & ->). eexists. split; [|done]. exists vs. split_and!; try done.
    + apply Forall_true. intros. apply lookup_empty.
    + by rewrite (right_id_L ∅ (∪)).
Qed.

Section CompoundLemmas.
Import Compound.
Context {CE : CustomEvidence}.

(** The outcome of one sub-statement that counts as a success. *)
Definition sub_result (v : CompoundVerifier) (ctx : context) (request : VerificationRequest)
    (s : string * AttestationStatement) : option VerificationResult :=
  match Lookup (cv_registry v) s.1 with
  | Some verifier =>
      match v_VerifyAttestation verifier ctx (sub_request request s.1 s.2) with
      | Ok r => if usable r then Some (VerificationResult_Clone r) else None
      | Err _ => None
      end
  | None => None
  end.

Lemma verifyStatements_spec v ctx request sts i results warnings :
  verifyStatements v ctx request i sts = Ok (results, warnings) →
  results = omap (sub_result v ctx request) sts ∧ Forall (λ s, s.1 ≠ Format) sts ∧
  (length results + length warnings = length sts)%nat.
Proof.
  revert i results warnings. induction sts as [|[fmt st] sts IH]; intros i results warnings H; cbn [verifyStatements] in H.
  { apply Ok_inj in H. simplify_eq. done. }
  destruct (ctx _ _); [done|]. case_bool_decide as Hf; [done|].
  assert (∃ rs ws, verifyStatements v ctx request (S i) sts = Ok (rs, ws) ∧
    results = match sub_result v ctx request (fmt, st) with Some r => r :: rs | None => rs end ∧
    length warnings = match sub_result v ctx request (fmt, st) with Some _ => length ws | None => S (length ws) end)
    as (rs & ws & Hrec & -> & Hw).
  { unfold sub_result. cbn [fst snd].
    destruct (Lookup (cv_registry v) fmt) as [w|];
      [destruct (v_VerifyAttestation w ctx _) as [r|]; [destruct (usable r)|]|];
      cbn [negb] in H; apply bind_Ok in H as ([rs ws] & Hrec & H); apply Ok_inj in H; injection H as <- <-;
      by exists rs, ws. }
  destruct (IH _ _ _ Hrec) as (-> & Hall & Hlen). cbn [omap list_omap].
  destruct (sub_result v ctx request (fmt, st)); cbn [length]; (split_and!; [done|by constructor|lia]).
Qed.

Lemma requiredSuccesses_Ok v total n :
  requiredSuccesses v total = Ok n →
  2 <= total <= 64 ∧ 1 <= n <= total ∧
  (RequireAll (cv_policy v) = true ∨ MinimumSuccessful (cv_policy v) = 0 → n = total).
Proof.
  unfold requiredSuccesses, maxConfiguredStatements. intros H.
  apply bind_Ok in H as ([] & H1%fail_if_Ok%Z.ltb_ge & H). apply bind_Ok in H as ([] & H2%fail_if_Ok & H).
  rewrite !orb_false_iff, !Z.ltb_ge in H2.
  destruct (RequireAll (cv_policy v) || (MinimumSuccessful (cv_policy v) =? 0)) eqn:E.
  - apply Ok_inj in H. subst n. lia.
  - apply orb_false_iff in E as [E1 E2]. apply Z.eqb_neq in E2.
    apply bind_Ok in H as ([] & H3%fail_if_Ok & H). apply Ok_inj in H. subst n.
    rewrite orb_false_iff, !Z.ltb_ge in H3. split; [lia|]. split; [lia|].
    intros [?|?]; [congruence|done].
Qed.
End CompoundLemmas.

(** ** Properties *)

(** An all-of policy accepts exactly when it has children and every child,
    asked about the same evidence, exists and accepts. *)
Theorem all_of_accepts {CE : CustomEvidence} (policies : list TrustPolicy) (ctx : context) (request : TrustRequest) :
  (∃ r, evaluate (AllOf policies) ctx request = Ok r ∧ ts_Accepted r = true) ↔
  policies ≠ [] ∧ Forall (child_accepts ctx request) policies.
Proof.
  unfold evaluate, AllOf. destruct policies as [|p ps].
  - split; [by intros (? & ? & _)|by intros [? _]].
  - cbn [fail_if mbind result_bind]. split.
    + intros (r & H & Ha). split; [done|]. by eapply allOf_loop_accepts.
    + intros [_ H]. by apply allOf_loop_complete.
Qed.

(** An any-of policy accepts with result [r] exactly when some child accepts
    with [r] and all children before it answered without accepting; a child that
    fails or is nil before the first acceptance is never skipped. *)
Theorem any_of_accepts {CE : CustomEvidence} (policies : list TrustPolicy) (ctx : context) (request : TrustRequest)
    (r : TrustResult) :
  evaluate (AnyOf policies) ctx request = Ok r ∧ ts_Accepted r = true ↔
  ∃ before f after, policies = before ++ Iface f :: after ∧ Forall (child_rejects ctx request) before ∧
    f ctx (cloneTrustRequest request) = Ok r ∧ ts_Accepted r = true.
Proof.
  unfold evaluate, AnyOf. split.
  - intros [H Ha]. apply bind_Ok in H as ([] & _ & H).
    destruct (anyOf_loop_spec _ _ _ _ _ H Ha) as (b & f & a & ? & ? & ?). by exists b, f, a.
  - intros (before & f & after & -> & Hb & Hf & Ha). split; [|done].
    apply bind_Ok. exists (). split; [by destruct before|]. by apply anyOf_loop_complete.
Qed.

(** An accepted compound statement has 2 to 64 sub-statements, none of them
    compound; its trust path lists exactly the results of the sub-statements that
    verified, in order, and at least the required number did (all of them unless
    the policy sets a smaller positive number). *)
Theorem compound_threshold {CE : CustomEvidence} (v : Compound.CompoundVerifier) (ctx : context)
    (request : VerificationRequest) (res : VerificationResult)
    (H : Compound.VerifyAttestation v ctx request = Ok res) :
  ∃ sts required,
    Compound.compoundSubStatements (vq_Statement request) = Ok sts ∧
    2 <= Z.of_nat (length sts) <= 64 ∧ Forall (λ s, s.1 ≠ Compound.Format) sts ∧
    let results := omap (sub_result v ctx request) sts in
    tp_Statements (vr_TrustPath res) = Some results ∧ vr_Type res = TypeUncertain ∧
    1 <= required <= Z.of_nat (length results) ∧
    (Compound.RequireAll (Compound.cv_policy v) = true ∨ Compound.MinimumSuccessful (Compound.cv_policy v) = 0 →
     required = Z.of_nat (length sts)).
Proof.
  unfold Compound.VerifyAttestation in H. apply bind_Ok in H as ([] & _ & H). apply bind_Ok in H as ([] & _ & H).
  apply bind_Ok in H as (sts & Hs & H). apply bind_Ok in H as (required & Hreq & H).
  apply bind_Ok in H as ([results warnings] & Hres & H). apply bind_Ok in H as ([] & Hle%fail_if_Ok%Z.ltb_ge & H).
  apply Ok_inj in H. subst res. apply verifyStatements_spec in Hres as (-> & Hf & _).
  apply requiredSuccesses_Ok in Hreq as (? & ? & ?).
  exists sts, required. cbn. split_and!; try done; lia.
Qed.

Definition example_compound : Compound.CompoundVerifier :=
  Compound.mkCompound (Some {[ "none" := None.New ]}) (Compound.mkPolicy 0 false 0).
Definition example_compound_request : VerificationRequest :=
  mkVerificationRequest "compound" "direct" zeroByteValue []
    {[ CompoundSubStatementsKey := SCompound [("none", Some ∅); ("none", Some ∅)] ]}
    (mkPublicKey AlgorithmES256 [x01] (mkMaterial None None None)) zeroByteValue.

Lemma compound_threshold_witness :
  ∃ sts required, Compound.compoundSubStatements (vq_Statement example_compound_request) = Ok sts ∧
    2 <= Z.of_nat (length sts) <= 64 ∧ required = Z.of_nat (length sts).
Proof.
  destruct (@compound_threshold plain_evidence example_compound background example_compound_request
    (mkVR TypeUncertain (mkTrustPath TrustPathCompound [] None
       (Some [mkVR TypeNone (mkTrustPath TrustPathNone [] None None) true [] EvNil;
              mkVR TypeNone (mkTrustPath TrustPathNone [] None None) true [] EvNil])) true [] (EvCompound 2 2)))
    as (sts & required & Hs & Hlen & _ & _ & _ & _ & Hall); [vm_compute; reflexivity|].
  exists sts, required. split; [exact Hs|]. split; [exact Hlen|]. apply Hall. right. reflexivity.
Defined.

(** An attestation registry is built exactly from verifiers with distinct,
    well-formed formats, and finds each of them under its own format only. *)
Theorem attestation_registry_construction (l : list (iface Verifier)) (r : attRegistry) :
  NewAttRegistry l = Ok r ↔
  ∃ vs, l = Iface <$> vs ∧ Forall verifier_ok vs ∧ NoDup (v_Format <$> vs) ∧
        r = Some (list_to_map (att_entry <$> vs)).
Proof. apply NewAttRegistry_Ok. Qed.
