(* ===== verification/Asn1.v ===== *)
(** * DER values

    The part of Go's [encoding/asn1] that the attestation verifiers use:
    [Unmarshal] into a [RawValue], an octet string, an integer, an enumerated
    value, an object identifier, a string and a slice of raw values, and
    [Marshal] of a pair of non-negative integers.  Each reader returns the value
    and the unread rest; a malformed input is a syntax or structural error.
    [rawItems] reads values until the input is empty with fuel the length of the
    input, of which every value consumes at least two bytes. *)
From S2P Require Import Prelude GoStrings Json.
Set Default Goal Selector "!".
Local Open Scope Z_scope.

Implicit Types (l : list byte).

Definition SyntaxError : error := Sentinel "asn1.SyntaxError".
Definition StructuralError : error := Sentinel "asn1.StructuralError".

Definition ClassUniversal : Z := 0.
Definition ClassContextSpecific : Z := 2.
Definition TagInteger : Z := 2.
Definition TagOctetString : Z := 4.
Definition TagOID : Z := 6.
Definition TagEnum : Z := 10.
Definition TagUTF8String : Z := 12.
Definition TagSequence : Z := 16.
Definition TagSet : Z := 17.
Definition TagNumericString : Z := 18.
Definition TagPrintableString : Z := 19.
Definition TagT61String : Z := 20.
Definition TagIA5String : Z := 22.
Definition TagGeneralString : Z := 27.
Definition TagBMPString : Z := 30.

(** ** Tags and lengths *)

(** [parseBase128Int]; [shifted] counts the bytes read. *)
Fixpoint parseBase128 (shifted ret : Z) l : result (Z * list byte) :=
  match l with
  | [] => Err SyntaxError
  | b :: l =>
      if shifted =? 5 then Err StructuralError
      else if (shifted =? 0) && (byte_val b =? 128) then Err SyntaxError
      else let ret := ret * 128 + byte_val b mod 128 in
           if byte_val b <? 128 then
             if 2 ^ 31 - 1 <? ret then Err StructuralError else Ok (ret, l)
           else parseBase128 (shifted + 1) ret l
  end.
Definition parseBase128Int l : result (Z * list byte) := parseBase128 0 0 l.

(** The bytes of a long-form length. *)
Fixpoint parseLength (n : nat) (length : Z) l : result (Z * list byte) :=
  match n with
  | O => Ok (length, l)
  | S n =>
      match l with
      | [] => Err SyntaxError
      | b :: l =>
          if 2 ^ 23 <=? length then Err StructuralError
          else let length := length * 256 + byte_val b in
               if length =? 0 then Err StructuralError else parseLength n length l
      end
  end.

Record header := mkHeader { h_class : Z; h_tag : Z; h_isCompound : bool; h_length : Z }.

Definition parseTag l : result (Z * Z * bool * list byte) :=
  match l with
  | [] => Err SyntaxError
  | b :: l =>
      let class := byte_val b / 64 in
      let isCompound := negb (Z.land (byte_val b) 32 =? 0) in
      let tag := byte_val b mod 32 in
      if tag =? 31 then
        '(tag, l) ← parseBase128Int l;
        _ ← fail_if (tag <? 31) SyntaxError;
        Ok (class, tag, isCompound, l)
      else Ok (class, tag, isCompound, l)
  end.

Definition parseTagAndLength l : result (header * list byte) :=
  '(class, tag, isCompound, l) ← parseTag l;
  match l with
  | [] => Err SyntaxError
  | b :: l =>
      if byte_val b <? 128 then Ok (mkHeader class tag isCompound (byte_val b), l)
      else
        let numBytes := byte_val b mod 128 in
        _ ← fail_if (numBytes =? 0) SyntaxError;
        '(length, l) ← parseLength (Z.to_nat numBytes) 0 l;
        _ ← fail_if (length <? 128) StructuralError;
        Ok (mkHeader class tag isCompound length, l)
  end.

(** ** Raw values *)

Record RawValue := mkRaw { Class : Z; Tag : Z; IsCompound : bool; Bytes : list byte; FullBytes : list byte }.

(** [Unmarshal] into a [RawValue]. *)
Definition unmarshal_raw l : result (RawValue * list byte) :=
  '(h, body) ← parseTagAndLength l;
  let len := Z.to_nat (h_length h) in
  _ ← fail_if (length body <? len)%nat SyntaxError;
  Ok (mkRaw (h_class h) (h_tag h) (h_isCompound h) (take len body) (take (length l - length body + len) l),
      drop len body).

(** A primitive value of one universal tag: its content and the rest. *)
Definition unmarshal_primitive (tag : Z) l : result (list byte * list byte) :=
  '(h, body) ← parseTagAndLength l;
  _ ← fail_if (negb (h_class h =? ClassUniversal) || negb (h_tag h =? tag) || h_isCompound h) StructuralError;
  let len := Z.to_nat (h_length h) in
  _ ← fail_if (length body <? len)%nat SyntaxError;
  Ok (take len body, drop len body).

Fixpoint raw_items (fuel : nat) l : result (list RawValue) :=
  match l with
  | [] => Ok []
  | _ =>
      match fuel with
      | O => Err SyntaxError
      | S fuel => '(item, rest) ← unmarshal_raw l; items ← raw_items fuel rest; Ok (item :: items)
      end
  end.
Definition rawValues l : result (list RawValue) := raw_items (length l) l.

(** [Unmarshal] into a [[]RawValue]. *)
Definition unmarshal_raws l : result (list RawValue * list byte) :=
  '(h, body) ← parseTagAndLength l;
  _ ← fail_if (negb (h_class h =? ClassUniversal) || negb (h_tag h =? TagSequence) || negb (h_isCompound h)) StructuralError;
  let len := Z.to_nat (h_length h) in
  _ ← fail_if (length body <? len)%nat SyntaxError;
  items ← rawValues (take len body);
  Ok (items, drop len body).

(** ** Integers and octet strings *)

Definition unmarshal_bytes l : result (list byte * list byte) := unmarshal_primitive TagOctetString l.

(** [checkInteger]: minimal two's complement. *)
Definition checkInteger l : result () :=
  match l with
  | [] => Err StructuralError
  | [_] => Ok ()
  | a :: b :: _ =>
      fail_if ((byte_val a =? 0) && (byte_val b <? 128) || (byte_val a =? 255) && (128 <=? byte_val b)) StructuralError
  end.

(** The value of a two's complement integer. *)
Definition signed_be l : Z :=
  match l with
  | [] => 0
  | b :: _ => if byte_val b <? 128 then be_uint l else be_uint l - 256 ^ Z.of_nat (length l)
  end.

Definition parseBigInt l : result Z := _ ← checkInteger l; Ok (signed_be l).
Definition parseInt64 l : result Z :=
  _ ← checkInteger l; _ ← fail_if (8 <? length l)%nat StructuralError; Ok (signed_be l).
Definition parseInt32 l : result Z :=
  z ← parseInt64 l; _ ← fail_if ((z <? - 2 ^ 31) || (2 ^ 31 - 1 <? z)) StructuralError; Ok z.

Definition unmarshal_with {A} (tag : Z) (parse : list byte → result A) l : result (A * list byte) :=
  '(body, rest) ← unmarshal_primitive tag l; z ← parse body; Ok (z, rest).
Definition unmarshal_int l : result (Z * list byte) := unmarshal_with TagInteger parseInt64 l.
Definition unmarshal_big l : result (Z * list byte) := unmarshal_with TagInteger parseBigInt l.
Definition unmarshal_enum l : result (Z * list byte) := unmarshal_with TagEnum parseInt32 l.

(** ** Object identifiers *)

Definition ObjectIdentifier : Type := list Z.

Fixpoint oid_arcs (fuel : nat) l : result (list Z) :=
  match l with
  | [] => Ok []
  | _ => match fuel with
         | O => Err SyntaxError
         | S fuel => '(v, l) ← parseBase128Int l; vs ← oid_arcs fuel l; Ok (v :: vs)
         end
  end.

Definition parseObjectIdentifier l : result ObjectIdentifier :=
  _ ← fail_if (bool_decide (l = [])) SyntaxError;
  '(v, l) ← parseBase128Int l;
  vs ← oid_arcs (length l) l;
  Ok ((if v <? 80 then [v / 40; v mod 40] else [2; v - 80]) ++ vs).

Definition unmarshal_oid l : result (ObjectIdentifier * list byte) := unmarshal_with TagOID parseObjectIdentifier l.

(** ** Strings *)

Definition isPrintable (c : byte) : bool :=
  in_range 97 122 c || in_range 65 90 c || is_digit c || in_range 39 41 c || in_range 43 47 c
  || bool_decide (c ∈ [x20; x3a; x3d; x3f; x2a; x26]).

Fixpoint bmp_points l : result (list byte) :=
  match l with
  | [] => Ok []
  | a :: b :: l =>
      let p := byte_val a * 256 + byte_val b in
      _ ← fail_if ((p =? 0xfffe) || (p =? 0xffff) || (0xfdd0 <=? p) && (p <=? 0xfdef)
                   || (0xd800 <=? p) && (p <=? 0xdfff)) SyntaxError;
      s ← bmp_points l; Ok (encode_rune p ++ s)
  | [_] => Err SyntaxError
  end.

Definition parseBMPString l : result (list byte) :=
  let n := length l in
  bmp_points (if (2 <=? n)%nat && Nat.even n && bool_decide (drop (n - 2) l = [x00; x00]) then take (n - 2) l else l).

(** The content of a string of one of the string types. *)
Definition parse_string_as (tag : Z) l : result (list byte) :=
  if tag =? TagPrintableString then if forallb isPrintable l then Ok l else Err SyntaxError
  else if tag =? TagNumericString then
    if forallb (λ c, is_digit c || bool_decide (c = x20)) l then Ok l else Err SyntaxError
  else if tag =? TagIA5String then if forallb (λ c, byte_val c <? 128) l then Ok l else Err SyntaxError
  else if (tag =? TagT61String) || (tag =? TagGeneralString) then Ok l
  else if tag =? TagUTF8String then if utf8_valid (length l) l then Ok l else Err SyntaxError
  else if tag =? TagBMPString then parseBMPString l
  else Err StructuralError.

(** [Unmarshal] into a [string]: the universal string types are accepted. *)
Definition unmarshal_string l : result (string * list byte) :=
  '(h, body) ← parseTagAndLength l;
  _ ← fail_if (negb (h_class h =? ClassUniversal) || h_isCompound h) StructuralError;
  _ ← fail_if (negb (bool_decide (h_tag h ∈ [TagPrintableString; TagNumericString; TagIA5String; TagT61String;
                                             TagGeneralString; TagUTF8String; TagBMPString]))) StructuralError;
  let len := Z.to_nat (h_length h) in
  _ ← fail_if (length body <? len)%nat SyntaxError;
  s ← parse_string_as (h_tag h) (take len body);
  Ok (string_of_bytes s, drop len body).

(** ** Marshal of [struct{R, S *big.Int}] for non-negative numbers *)

(** The minimal big-endian bytes of a non-negative number: [big.Int.Bytes]. *)
Definition big_Bytes (z : Z) : list byte :=
  if z <=? 0 then [] else put_be (Z.to_nat (Z.log2 z / 8 + 1)) z.

Definition marshal_length (n : Z) : list byte :=
  if n <? 128 then [byte_of_Z n]
  else let b := big_Bytes n in byte_of_Z (128 + Z.of_nat (length b)) :: b.

Definition marshal_tlv (tag : Z) (body : list byte) : list byte :=
  byte_of_Z tag :: marshal_length (Z.of_nat (length body)) ++ body.

Definition marshal_int (z : Z) : list byte :=
  marshal_tlv TagInteger
    (match big_Bytes z with
     | [] => [x00]
     | b :: l => if byte_val b <? 128 then b :: l else x00 :: b :: l
     end).

Definition marshal_pair (r s : Z) : list byte :=
  marshal_tlv (32 + TagSequence) (marshal_int r ++ marshal_int s).

Example asn1_vectors :
  unmarshal_int [x02; x01; xff] = Ok (-1, []) ∧ unmarshal_int [x02; x02; x00; x01] = Err StructuralError
  ∧ unmarshal_oid [x06; x03; x55; x1d; x13] = Ok ([2; 5; 29; 19], [])
  ∧ unmarshal_string [x0c; x02; x41; x42] = Ok ("AB", [])
  ∧ marshal_pair 127 128 = [x30; x07; x02; x01; x7f; x02; x02; x00; x80].
Proof. by vm_compute. Qed.

(** ** What a reader consumes *)

Lemma parseBase128_suffix l : ∀ shifted ret v rest,
  parseBase128 shifted ret l = Ok (v, rest) → ∃ p, l = p ++ rest ∧ p ≠ [].
Proof.
  induction l as [|b l IH]; intros shifted ret v rest H; cbn [parseBase128] in H; [done|].
  repeat (case_match; try done); simplify_eq; [by exists [b]|].
  destruct (IH _ _ _ _ H) as (p & -> & _). by exists (b :: p).
Qed.

Lemma parseLength_suffix n : ∀ acc l v rest, parseLength n acc l = Ok (v, rest) → ∃ p, l = p ++ rest.
Proof.
  induction n as [|n IH]; intros acc l v rest H; cbn [parseLength] in H; [simplify_eq; by exists []|].
  destruct l as [|b l]; [done|]. repeat (case_match; try done).
  destruct (IH _ _ _ _ H) as (p & ->). by exists (b :: p).
Qed.

Lemma parseTag_suffix l c t k rest : parseTag l = Ok (c, t, k, rest) → ∃ p, l = p ++ rest ∧ p ≠ [].
Proof.
  destruct l as [|b l]; [done|]. unfold parseTag. destruct (_ =? 31); intros H.
  - apply bind_Ok in H as ([t' l'] & Hp & H). apply bind_Ok in H as ([] & _ & H). simplify_eq.
    destruct (parseBase128_suffix _ _ _ _ _ Hp) as (p & -> & _). by exists (b :: p).
  - simplify_eq. by exists [b].
Qed.

(** A header has at least a tag and a length byte. *)
Lemma parseTagAndLength_suffix l h rest :
  parseTagAndLength l = Ok (h, rest) → ∃ p, l = p ++ rest ∧ (2 <= length p)%nat.
Proof.
  unfold parseTagAndLength. intros H. apply bind_Ok in H as ([[[c t] k] l1] & Ht & H).
  destruct (parseTag_suffix _ _ _ _ _ Ht) as (p & -> & Hp). destruct l1 as [|b l1]; [done|].
  assert (1 <= length p)%nat by (destruct p; cbn; [done|lia]).
  destruct (byte_val b <? 128); [simplify_eq; exists (p ++ [b]); rewrite length_app, <-app_assoc; cbn; split; [done|lia]|].
  apply bind_Ok in H as ([] & _ & H). apply bind_Ok in H as ([n l2] & Hl & H).
  apply bind_Ok in H as ([] & _ & H). simplify_eq.
  destruct (parseLength_suffix _ _ _ _ _ Hl) as (q & ->).
  exists (p ++ b :: q). rewrite length_app, <-app_assoc. cbn. split; [done|lia].
Qed.

(** A raw value is a header and the content; nothing of the input is lost. *)
Lemma unmarshal_raw_split l v rest :
  unmarshal_raw l = Ok (v, rest) →
  l = FullBytes v ++ rest ∧ ∃ p, FullBytes v = p ++ Bytes v ∧ (2 <= length p)%nat.
Proof.
  unfold unmarshal_raw. intros H. apply bind_Ok in H as ([h body] & Hh & H).
  apply bind_Ok in H as ([] & Hle%fail_if_Ok%Nat.ltb_ge & H). simplify_eq. cbn [FullBytes Bytes].
  destruct (parseTagAndLength_suffix _ _ _ Hh) as (p & -> & Hp). rewrite length_app.
  replace (length p + length body - length body + Z.to_nat (h_length h))%nat
    with (length p + Z.to_nat (h_length h))%nat by lia.
  rewrite take_app_add. rewrite <-app_assoc, take_drop. split; [done|]. by exists p.
Qed.

Lemma unmarshal_raw_progress l v rest : unmarshal_raw l = Ok (v, rest) → (length rest < length l)%nat.
Proof. intros (-> & p & -> & Hp)%unmarshal_raw_split. rewrite !length_app. lia. Qed.

(** Any fuel from the length of the input on gives the same items. *)
Lemma raw_items_fuel f1 : ∀ f2 l, (length l <= f1)%nat → (length l <= f2)%nat → raw_items f1 l = raw_items f2 l.
Proof.
  induction f1 as [|f1 IH]; intros f2 [|b l] H1 H2; try done; [by destruct f2|cbn in H1; lia|by destruct f2|].
  destruct f2 as [|f2]; [cbn in H2; lia|]. cbn [raw_items].
  destruct (unmarshal_raw (b :: l)) as [[v rest]|] eqn:E; [|done]. cbn [mbind result_bind].
  apply unmarshal_raw_progress in E. cbn [length] in *. rewrite (IH f2 rest) by lia. done.
Qed.

(** The items of a sequence are its bytes, cut into values. *)
Lemma rawValues_concat l items : rawValues l = Ok items → l = concat (FullBytes <$> items).
Proof.
  unfold rawValues. generalize (length l) at 1. intros f. revert l items.
  induction f as [|f IH]; intros [|b l] items H; cbn [raw_items] in H; simplify_eq; try done.
  apply bind_Ok in H as ([v rest] & Hv & H). apply bind_Ok in H as (vs & Hvs & H). simplify_eq.
  apply unmarshal_raw_split in Hv as (-> & _). cbn. by rewrite <-(IH _ _ Hvs).
Qed.

(** ** Round trip of a pair of integers *)

Lemma big_Bytes_spec z : 0 <= z →
  be_uint (big_Bytes z) = z ∧ match big_Bytes z with [] => z = 0 | b :: _ => byte_val b ≠ 0 end.
Proof.
  intros Hz. unfold big_Bytes. destruct (Z.leb_spec z 0) as [H|H]; [split; cbn; lia|].
  pose proof (Z.log2_nonneg z) as Hlog. pose proof (Z.log2_spec z H) as [Hlo Hhi].
  set (q := Z.log2 z / 8). assert (0 <= q) by (apply Z.div_pos; lia).
  assert (8 * q <= Z.log2 z < 8 * q + 8) by (unfold q; pose proof (Z.div_mod (Z.log2 z) 8); pose proof (Z.mod_pos_bound (Z.log2 z) 8); lia).
  replace (Z.to_nat (q + 1)) with (S (Z.to_nat q)) by lia.
  assert (256 ^ q = 2 ^ (8 * q)) as Hq by (rewrite Z.pow_mul_r by lia; done).
  assert (2 ^ (8 * q) <= z) by (etrans; [|exact Hlo]; apply Z.pow_le_mono_r; lia).
  assert (z < 2 ^ (8 * q) * 256).
  { eapply Z.lt_le_trans; [exact Hhi|]. change 256 with (2 ^ 8). rewrite <-Z.pow_add_r by lia. apply Z.pow_le_mono_r; lia. }
  assert (0 < 2 ^ (8 * q)) by (apply Z.pow_pos_nonneg; lia). split.
  - apply be_uint_put. rewrite Nat2Z.inj_succ, Z2Nat.id, Z.pow_succ_r, Hq by lia. lia.
  - cbn [put_be]. rewrite byte_val_of, Z2Nat.id, Hq by lia.
    rewrite Z.mod_small; [|split; [apply Z.div_pos; lia|apply Z.div_lt_upper_bound; lia]].
    assert (1 <= z / 2 ^ (8 * q)) by (apply Z.div_le_lower_bound; lia). lia.
Qed.

Lemma length_big_Bytes z n : 0 <= z < 256 ^ Z.of_nat n → (length (big_Bytes z) <= n)%nat.
Proof.
  intros Hz. unfold big_Bytes. destruct (Z.leb_spec z 0) as [H|H]; [cbn; lia|]. rewrite length_put_be.
  assert (Z.log2 z < 8 * Z.of_nat n).
  { apply Z.log2_lt_pow2; [lia|]. rewrite Z.pow_mul_r by lia. change (2 ^ 8) with 256. lia. }
  assert (Z.log2 z / 8 < Z.of_nat n) by (apply Z.div_lt_upper_bound; lia).
  pose proof (Z.div_pos (Z.log2 z) 8 (Z.log2_nonneg z) ltac:(lia)). lia.
Qed.

Lemma parseLength_bytes b : ∀ acc rest,
  0 <= acc → acc * 256 ^ Z.of_nat (length b) + be_uint b < 2 ^ 31 →
  (acc ≠ 0 ∨ match b with [] => True | c :: _ => byte_val c ≠ 0 end) →
  parseLength (length b) acc (b ++ rest) = Ok (acc * 256 ^ Z.of_nat (length b) + be_uint b, rest).
Proof.
  induction b as [|c b IH]; intros acc rest Hacc Hlt Hne; cbn [length parseLength app].
  - change (be_uint []) with 0. by rewrite Z.mul_1_r, Z.add_0_r.
  - rewrite be_uint_cons in *. cbn [length] in Hlt. rewrite Nat2Z.inj_succ, Z.pow_succ_r in * by lia.
    pose proof (be_uint_bound b) as Hb. pose proof (byte_val_bound c) as Hc.
    assert (0 < 256 ^ Z.of_nat (length b)) by lia.
    rewrite (proj2 (Z.leb_gt _ _)) by nia.
    destruct (Z.eqb_spec (acc * 256 + byte_val c) 0); [destruct Hne; lia|].
    rewrite IH; [f_equal; f_equal; ring|lia| |left; done].
    eapply Z.le_lt_trans; [|exact Hlt]. apply Z.eq_le_incl. ring.
Qed.

Definition tlv_header (tag : Z) (body : list byte) : header :=
  mkHeader (tag / 64) (tag mod 32) (negb (Z.land tag 32 =? 0)) (Z.of_nat (length body)).

Lemma parseTagAndLength_tlv tag body rest :
  0 <= tag < 256 → tag mod 32 ≠ 31 → Z.of_nat (length body) < 2 ^ 31 →
  parseTagAndLength (marshal_tlv tag body ++ rest) = Ok (tlv_header tag body, body ++ rest).
Proof.
  intros Ht H31 Hlen. unfold marshal_tlv, parseTagAndLength. cbn [app parseTag].
  rewrite byte_val_of, (Z.mod_small tag) by lia. rewrite (proj2 (Z.eqb_neq _ _) H31). cbn [mbind result_bind].
  unfold marshal_length. set (n := Z.of_nat (length body)) in *. destruct (Z.ltb_spec n 128) as [H|H]; cbn [app].
  - rewrite byte_val_of, Z.mod_small, (proj2 (Z.ltb_lt _ _)) by lia. done.
  - pose proof (length_big_Bytes n 4 ltac:(change (256 ^ Z.of_nat 4) with (2 * 2 ^ 31); lia)) as Hb. pose proof (big_Bytes_spec n ltac:(lia)) as [Hv Hh].
    set (b := big_Bytes n) in *. assert (length b ≠ 0)%nat by (destruct b; [cbn in Hv; lia|done]).
    rewrite byte_val_of, (Z.mod_small (128 + _)), (proj2 (Z.ltb_ge _ _)) by lia.
    replace ((128 + Z.of_nat (length b)) mod 128) with (Z.of_nat (length b))
      by (rewrite <-(Z.mul_1_l 128) at 1; rewrite Z.add_comm, Z.mod_add, Z.mod_small; lia).
    rewrite (proj2 (Z.eqb_neq (Z.of_nat (length b)) 0)), Nat2Z.id by lia. run. rewrite <-app_assoc, parseLength_bytes; [|lia..|destruct b; tauto].
    rewrite Hv. run. by rewrite (proj2 (Z.ltb_ge _ _)) by lia.
Qed.

Lemma unmarshal_primitive_tlv tag body rest :
  0 <= tag < 31 → Z.of_nat (length body) < 2 ^ 31 →
  unmarshal_primitive tag (marshal_tlv tag body ++ rest) = Ok (body, rest).
Proof.
  intros Ht Hlen. unfold unmarshal_primitive.
  rewrite parseTagAndLength_tlv by (try rewrite Z.mod_small; lia). cbn [mbind result_bind].
  unfold tlv_header. cbn [h_class h_tag h_isCompound h_length].
  rewrite Z.div_small, Z.mod_small by lia.
  assert (Z.land tag 32 = 0) as ->.
  { apply Z.bits_inj'. intros i Hi. rewrite Z.land_spec, Z.bits_0. change 32 with (2 ^ 5). rewrite Z.pow2_bits_eqb by lia.
    destruct (Z.eqb_spec 5 i) as [<-|]; [|by rewrite andb_false_r].
    rewrite Z.bits_above_log2; [done|lia|]. destruct (decide (tag = 0)) as [->|]; [done|].
    apply Z.log2_lt_pow2; lia. }
  rewrite (Z.eqb_refl tag). change (0 =? ClassUniversal) with true. run. rewrite Nat2Z.id, length_app, (proj2 (Nat.ltb_ge _ _)) by lia.
  cbn [Z.eqb negb orb fail_if mbind result_bind]. by rewrite take_app_length, drop_app_length.
Qed.

(** The content of a non-negative integer. *)
Definition int_content (z : Z) : list byte :=
  match big_Bytes z with
  | [] => [x00]
  | b :: l => if byte_val b <? 128 then b :: l else x00 :: b :: l
  end.

Lemma parseBigInt_content z : 0 <= z → parseBigInt (int_content z) = Ok z.
Proof.
  intros Hz. unfold int_content. pose proof (big_Bytes_spec z Hz) as [Hv Hh].
  destruct (big_Bytes z) as [|b l]; [by subst z|]. pose proof (byte_val_bound b).
  destruct (Z.ltb_spec (byte_val b) 128) as [H8|H8]; unfold parseBigInt, checkInteger, signed_be.
  - destruct l as [|c l]; rewrite ?(proj2 (Z.eqb_neq _ _) Hh), ?(proj2 (Z.eqb_neq (byte_val b) 255)) by lia;
      cbn [andb orb]; run; by rewrite (proj2 (Z.ltb_lt _ _) H8), Hv.
  - rewrite (proj2 (Z.ltb_ge _ _) H8), (proj2 (Z.leb_le _ _) H8). cbn [andb orb]. run.
    change (byte_val x00) with 0. cbn [Z.eqb Z.ltb Z.compare andb orb fail_if mbind result_bind].
    rewrite be_uint_cons. change (byte_val x00) with 0. by rewrite Z.mul_0_l, Z.add_0_l, Hv.
Qed.

Lemma unmarshal_big_marshal z rest :
  0 <= z → Z.of_nat (length (int_content z)) < 2 ^ 31 → unmarshal_big (marshal_int z ++ rest) = Ok (z, rest).
Proof.
  intros Hz Hlen. unfold unmarshal_big, unmarshal_with, marshal_int. fold (int_content z).
  rewrite unmarshal_primitive_tlv by (unfold TagInteger; lia). run. by rewrite parseBigInt_content.
Qed.

(** A sequence of exactly two integers. *)
Definition unmarshal_pair (l : list byte) : result (Z * Z) :=
  '(v, rest) ← unmarshal_raw l;
  _ ← fail_if (negb (Class v =? ClassUniversal) || negb (Tag v =? TagSequence) || negb (IsCompound v)
               || negb (bool_decide (rest = []))) StructuralError;
  '(r, l1) ← unmarshal_big (Bytes v);
  '(s, l2) ← unmarshal_big l1;
  _ ← fail_if (negb (bool_decide (l2 = []))) StructuralError;
  Ok (r, s).

Lemma length_int_content z n : 0 <= z < 256 ^ Z.of_nat n → (length (int_content z) <= n + 1)%nat.
Proof.
  intros Hz. unfold int_content. pose proof (length_big_Bytes z n Hz) as H.
  destruct (big_Bytes z) as [|b l]; [cbn; lia|]. destruct (_ <? _); cbn [length] in *; lia.
Qed.

Lemma length_marshal_tlv tag body n :
  Z.of_nat (length body) < 256 ^ Z.of_nat n → (length (marshal_tlv tag body) <= length body + n + 2)%nat.
Proof.
  intros Hl. unfold marshal_tlv, marshal_length. cbn [length]. rewrite length_app.
  pose proof (length_big_Bytes (Z.of_nat (length body)) n ltac:(lia)). destruct (_ <? _); cbn [length]; lia.
Qed.

Lemma unmarshal_pair_marshal r s n :
  Z.of_nat n < 100000 → 0 <= r < 256 ^ Z.of_nat n → 0 <= s < 256 ^ Z.of_nat n →
  unmarshal_pair (marshal_pair r s) = Ok (r, s).
Proof.
  intros Hn Hr Hs. pose proof (length_int_content r n Hr). pose proof (length_int_content s n Hs).
  assert (Hb : ∀ z, (length (int_content z) <= n + 1)%nat → (length (marshal_int z) <= n + 6)%nat).
  { intros z Hz. unfold marshal_int. fold (int_content z).
    pose proof (length_marshal_tlv TagInteger (int_content z) 3 ltac:(change (256 ^ Z.of_nat 3) with 16777216; lia)). lia. }
  unfold unmarshal_pair, unmarshal_raw, marshal_pair.
  set (body := marshal_int r ++ marshal_int s).
  assert (length body <= 2 * n + 12)%nat by (unfold body; rewrite length_app; pose proof (Hb r ltac:(done)); pose proof (Hb s ltac:(done)); lia).
  pose proof (parseTagAndLength_tlv (32 + TagSequence) body [] ltac:(done) ltac:(done) ltac:(lia)) as Hp.
  rewrite !app_nil_r in Hp. rewrite Hp. run. change (h_length _) with (Z.of_nat (length body)).
  rewrite Nat2Z.id, Nat.ltb_irrefl. run. rewrite take_ge, drop_ge by lia.
  change (h_class _) with 0. change (h_tag _) with 16. change (h_isCompound _) with true.
  cbn [Class Tag IsCompound Bytes]. change (0 =? ClassUniversal) with true. change (16 =? TagSequence) with true.
  rewrite bool_decide_eq_true_2 by done. run.
  unfold body. rewrite unmarshal_big_marshal by lia. run.
  rewrite <-(app_nil_r (marshal_int s)), unmarshal_big_marshal by lia. run. done.
Qed.
