(* ===== verification/X509.v ===== *)
(** * Statement fields, signatures and certificates

    Models the packages the attestation formats share:
    [src/attestation/internal/attstmt/attstmt.go] (module [AttStmt]),
    [src/attestation/internal/attcrypto/signature.go] (module [AttCrypto]) and
    [src/attestation/internal/x509util/x509util.go] (module [X509Util]).

    The certificate parser of [crypto/x509] is the operation of the class
    [X509]: a parsed certificate is the record of the fields the verifiers read.
    Public keys are those of [crypto/ecdsa], [crypto/rsa] and [crypto/ed25519];
    encoding an ECDSA key checks that the point lies on its curve. *)
From S2P Require Import Prelude GoStrings AuthData ExtValue Types Attestation Asn1.
Set Default Goal Selector "!".
Local Open Scope Z_scope.

(** ** Public keys of the standard library *)

Inductive curve := P224 | P256 | P384 | P521.
#[export] Instance curve_eq_dec : EqDecision curve.
Proof. solve_decision. Defined.

Record ecdsa_PublicKey := mkECDSA { ek_Curve : option curve; ek_X : option Z; ek_Y : option Z }.
Record rsa_PublicKey := mkRSAKey { rk_N : option Z; rk_E : Z }.

(** The dynamic values of [x509.Certificate.PublicKey]; a pointer may be nil. *)
Inductive crypto_PublicKey :=
| KeyECDSA (p : option ecdsa_PublicKey)
| KeyRSA (p : option rsa_PublicKey)
| KeyEd25519 (k : list byte)
| KeyOther.

Definition curve_Name (c : curve) : string :=
  match c with P224 => "P-224" | P256 => "P-256" | P384 => "P-384" | P521 => "P-521" end.
(** Field prime, coefficient [b] of [y^2 = x^3 - 3x + b], bytes of a coordinate. *)
Definition curve_p (c : curve) : Z :=
  match c with
  | P224 => 2 ^ 224 - 2 ^ 96 + 1
  | P256 => 2 ^ 256 - 2 ^ 224 + 2 ^ 192 + 2 ^ 96 - 1
  | P384 => 2 ^ 384 - 2 ^ 128 - 2 ^ 96 + 2 ^ 32 - 1
  | P521 => 2 ^ 521 - 1
  end.
Definition curve_b (c : curve) : Z :=
  match c with
  | P224 => 0xb4050a850c04b3abf54132565044b0b7d7bfd8ba270b39432355ffb4
  | P256 => 0x5ac635d8aa3a93e7b3ebbd55769886bc651d06b0cc53b0f63bce3c3e27d2604b
  | P384 => 0xb3312fa7e23ee7e4988e056be3f82d19181d9c6efe8141120314088f5013875ac656398d8a2ed19d2a85c8edd3ec2aef
  | P521 => 0x51953eb9618e1c9a1f929a21a0b68540eea2da725b99b315f3b8b489918ef109e156193951ec7e937b1652c0bd3bb1bf073573df883d2c34f1ef451fd46b503f00
  end.
Definition curve_bytes (c : curve) : nat := match c with P224 => 28 | P256 => 32 | P384 => 48 | P521 => 66 end.

Definition on_curve (c : curve) (x y : Z) : bool :=
  let p := curve_p c in
  (0 <=? x) && (x <? p) && (0 <=? y) && (y <? p) && ((y * y) mod p =? (x * x * x - 3 * x + curve_b c) mod p).

Definition ErrInvalidPoint : error := Sentinel "ecdsa: invalid public key".

(** [ecdsa.PublicKey.Bytes]: the uncompressed point. *)
Definition ecdsa_Bytes (c : curve) (x y : Z) : result (list byte) :=
  if on_curve c x y then Ok (x04 :: put_be (curve_bytes c) x ++ put_be (curve_bytes c) y) else Err ErrInvalidPoint.

(** The base points lie on their curves. *)
Example curve_vectors :
  forallb (λ '(c, x, y), on_curve c x y)
    [(P224, 0xb70e0cbd6bb4bf7f321390b94a03c1d356c21122343280d6115c1d21, 0xbd376388b5f723fb4c22dfe6cd4375a05a07476444d5819985007e34);
     (P256, 0x6b17d1f2e12c4247f8bce6e563a440f277037d812deb33a0f4a13945d898c296,
            0x4fe342e2fe1a7f9b8ee7eb4a7c0f9e162bce33576b315ececbb6406837bf51f5);
     (P384, 0xaa87ca22be8b05378eb1c71ef320ad746e1d3b628ba79b9859f741e082542a385502f25dbf55296c3a545e3872760ab7,
            0x3617de4a96262c6f5d9e98bf9292dc29f8f41dbd289a147ce9da3113b5f0b8c00a60b1ce1d7e819d7a431d7c90ea0e5f);
     (P521, 0xc6858e06b70404e9cd9e3ecb662395b4429c648139053fb521f828af606b4d3dbaa14b5e77efe75928fe1dc127a2ffa8de3348b3c1856a429bf97e7e31c2e5bd66,
            0x11839296a789a3bc0045c8a5fb42c7d1bd998f54449579b446817afbd17273e662c97ee72995ef42640c550b9013fad0761353c7086a272c24088be94769fd16650)]
  = true.
Proof. by vm_compute. Qed.

Definition BitLen (z : Z) : Z := if z =? 0 then 0 else Z.log2 (Z.abs z) + 1.
Definition ed25519_PublicKeySize : Z := 32.

(** ** Certificates *)

Record pkix_Extension := mkExtension { xe_Id : ObjectIdentifier; xe_Critical : bool; xe_Value : list byte }.

Record pkix_Name := mkName {
  pn_Country : list string; pn_Organization : list string; pn_OrganizationalUnit : list string;
  pn_Locality : list string; pn_Province : list string; pn_StreetAddress : list string;
  pn_PostalCode : list string; pn_SerialNumber : string; pn_CommonName : string;
  pn_Names : list (ObjectIdentifier * string); pn_ExtraNames : list (ObjectIdentifier * string);
}.

#[export] Instance pkix_Name_eq_dec : EqDecision pkix_Name.
Proof. solve_decision. Defined.

Record x509_Certificate := mkCertificate {
  xc_Version : Z;
  xc_RawSubject : list byte;
  xc_Subject : pkix_Name;
  xc_Extensions : list pkix_Extension;
  xc_BasicConstraintsValid : bool;
  xc_IsCA : bool;
  xc_UnknownExtKeyUsage : list ObjectIdentifier;
  xc_PublicKey : crypto_PublicKey;
  xc_DNSNames : list string;
}.

Class X509 : Type := { x509_ParseCertificate : list byte → result x509_Certificate }.

(** ** Fields of a statement *)
Module AttStmt.

(** The value of a field: a missing one is the nil interface. *)
Definition field (statement : AttestationStatement) (key : string) : stmt_value :=
  default (SValue VNil) (statement !! key).

Definition uintAlgorithm (value : Z) (invalid : error) : result Z :=
  if 2 ^ 63 - 1 <? value then Err invalid else Ok value.

(** The integer kinds of the type switch. *)
Definition signed_kinds : list string :=
  ["protocol.COSEAlgorithmIdentifier"; "int"; "int8"; "int16"; "int32"; "int64"; "uint8"; "uint16"; "uint32"].

Definition Algorithm (value : stmt_value) (invalid : error) : result Z :=
  algorithm ← match value with
    | SValue (VInt kind z) =>
        if one_of kind signed_kinds then Ok z
        else if one_of kind ["uint"; "uint64"] then uintAlgorithm z invalid
        else Err (ErrorText invalid "alg field")
    | _ => Err (ErrorText invalid "alg field")
    end;
  _ ← wrap_err invalid (COSEAlgorithmIdentifier_Validate algorithm);
  Ok algorithm.

Definition Bytes (value : stmt_value) (invalid : error) : result (list byte) :=
  match value with
  | SValue (VBytes (Some (b :: l))) => Ok (b :: l)
  | _ => Err (ErrorText invalid "bytes field")
  end.

Definition String (value : stmt_value) (invalid : error) : result string :=
  match value with
  | SValue (VString s) => if bool_decide (s = "") then Err (ErrorText invalid "string field") else Ok s
  | _ => Err (ErrorText invalid "string field")
  end.

Definition slice_bytes : gotype := TSlice "" (TSlice "" (TBasic "uint8")).

(** One element of a chain; in a [[][]byte] the error has no text. *)
Definition x5c_entry (e : error) (v : value) : result (list byte) :=
  match v with VBytes (Some (b :: l)) => Ok (b :: l) | _ => Err e end.

Definition cloneByteSlices (values : list value) (invalid : error) : result (list (list byte)) :=
  _ ← fail_if (bool_decide (length values = 0%nat)) invalid;
  map_res (x5c_entry invalid) values.

Definition X5C (value : stmt_value) (invalid : error) : result (list (list byte)) :=
  match value with
  | SValue (VSeq type items) =>
      if decide (type = slice_bytes) then cloneByteSlices items invalid
      else if decide (type = slice_any) then
        out ← map_res (x5c_entry (ErrorText invalid "x5c entry")) items;
        _ ← fail_if (bool_decide (length out = 0%nat)) invalid;
        Ok out
      else Err (ErrorText invalid "x5c field")
  | _ => Err (ErrorText invalid "x5c field")
  end.

Definition SingleX5C (value : stmt_value) (invalid : error) : result (list byte) :=
  x5c ← X5C value invalid;
  match x5c with [raw] => Ok raw | _ => Err invalid end.

(** The loop of every [parseStatement] over the keys of the statement. *)
Definition known_fields {Ord : MapOrder} (fields : list string) (statement : AttestationStatement) (invalid : error) :
    result () :=
  for_each (λ key, fail_if (negb (one_of key fields)) (ErrorText invalid key)) (range_keys statement).

(** A field that holds a non-empty chain of non-empty certificates. *)
Definition is_chain (v : stmt_value) (x5c : list (list byte)) : Prop :=
  ∃ type, (type = slice_bytes ∨ type = slice_any) ∧ v = SValue (VSeq type ((VBytes ∘ Some) <$> x5c)) ∧
    x5c ≠ [] ∧ Forall (λ c, c ≠ []) x5c.
Definition is_bytes (v : stmt_value) (b : list byte) : Prop := v = SValue (VBytes (Some b)) ∧ b ≠ [].
Definition is_algorithm (v : stmt_value) (a : Z) : Prop :=
  - 2 ^ 31 <= a < 2 ^ 31 ∧ ∃ kind, v = SValue (VInt kind a) ∧ kind ∈ signed_kinds ++ ["uint"; "uint64"].

(** The fields of a statement are exactly the listed ones. *)
Definition fields_are (fields : list string) (statement : AttestationStatement) : Prop :=
  ∀ key, is_Some (statement !! key) ↔ key ∈ fields.

Lemma Bytes_Ok v e b : Bytes v e = Ok b ↔ is_bytes v b.
Proof.
  unfold Bytes, is_bytes. split.
  - intros H. repeat (case_match; try done). by simplify_eq.
  - intros [-> ?]. by destruct b.
Qed.

Lemma String_Ok v e s : String v e = Ok s ↔ v = SValue (VString s) ∧ s ≠ "".
Proof.
  unfold String. split.
  - intros H. repeat (case_match; try done). by case_bool_decide; simplify_eq.
  - intros [-> ?]. by case_bool_decide.
Qed.

Lemma Algorithm_Ok v e a : Algorithm v e = Ok a ↔ is_algorithm v a.
Proof.
  unfold Algorithm, is_algorithm, one_of, uintAlgorithm. rewrite bind_Ok. split.
  - intros (z & Hz & H). apply bind_Ok in H as ([] & Hv%wrap_err_Ok%COSEAlgorithmIdentifier_Validate_Ok & [= ->]).
    split; [lia|]. destruct v as [[]|]; try done. repeat (case_bool_decide; try done).
    + simplify_eq. eexists. split; [done|]. set_solver.
    + case_match; try done. simplify_eq. eexists. split; [done|]. set_solver.
  - intros (Ha & kind & -> & Hk). exists a. split.
    + case_bool_decide; [done|]. rewrite bool_decide_eq_true_2 by set_solver.
      by rewrite (proj2 (Z.ltb_ge _ _)) by lia.
    + run. by rewrite (proj2 (COSEAlgorithmIdentifier_Validate_Ok a ())).
Qed.

Lemma entries_Ok e items x5c :
  map_res (x5c_entry e) items = Ok x5c ↔ items = (VBytes ∘ Some) <$> x5c ∧ Forall (λ c, c ≠ []) x5c.
Proof.
  rewrite map_res_Ok. split.
  - induction 1 as [|v c items x5c H _ [-> IH]]; [done|].
    unfold x5c_entry in H. repeat (case_match; try done). simplify_eq. split; [done|by constructor].
  - intros [-> H]. induction H as [|c x5c Hc _ IH]; constructor; [|done]. by destruct c.
Qed.

Lemma X5C_Ok v e x5c : X5C v e = Ok x5c ↔ is_chain v x5c.
Proof.
  unfold X5C, is_chain, cloneByteSlices.
  assert (Hlen : ∀ {A} (l : list A), bool_decide (length l = 0%nat) = false ↔ l ≠ [])
    by (intros A l; rewrite bool_decide_eq_false; by destruct l).
  split.
  - intros H. destruct v as [[]|]; try done. destruct (decide _); [|destruct (decide _); [|done]];
      apply bind_Ok in H as (u & H1 & H2).
    + apply entries_Ok in H2 as [-> Hne]. apply fail_if_Ok, Hlen in H1.
      exists type. split_and!; [by left|done|by intros ->|done].
    + apply entries_Ok in H1 as [-> Hne]. apply bind_Ok in H2 as ([] & Hl%fail_if_Ok%Hlen & [= ->]).
      exists type. split_and!; [by right|done|done|done].
  - intros (type & Ht & -> & Hne & Hall).
    assert (∀ e, map_res (x5c_entry e) ((VBytes ∘ Some) <$> x5c) = Ok x5c) as Hm by (intros; by apply entries_Ok).
    destruct Ht as [->| ->]; (rewrite decide_True by done) || (rewrite decide_False, decide_True by done).
    + rewrite (proj2 (Hlen _ _)) by (by destruct x5c). run. by rewrite Hm.
    + rewrite Hm. run. by rewrite (proj2 (Hlen _ _)).
Qed.

Lemma SingleX5C_Ok v e raw : SingleX5C v e = Ok raw ↔ is_chain v [raw].
Proof.
  unfold SingleX5C. rewrite bind_Ok. split.
  - intros (x5c & H%X5C_Ok & Hr). repeat (case_match; try done). by simplify_eq.
  - intros H. exists [raw]. by rewrite X5C_Ok.
Qed.

Lemma known_fields_Ok {Ord : MapOrder} fields st e u :
  known_fields fields st e = Ok u ↔ ∀ key, is_Some (st !! key) → key ∈ fields.
Proof.
  unfold known_fields. rewrite for_each_Ok, Forall_forall. unfold one_of.
  split; intros H key Hk; specialize (H key).
  - apply elem_of_range_keys, H in Hk. apply fail_if_Ok in Hk. by guards in Hk.
  - apply fail_if_Ok. guards. by apply H, elem_of_range_keys.
Qed.

Lemma fields_are_size fields st : NoDup fields → fields_are fields st → map_len st = Z.of_nat (length fields).
Proof.
  unfold AttestationStatement, fields_are in *. intros Hnd H. unfold map_len. f_equal.
  rewrite <-(size_dom (D := gset string) st).
  replace (dom st) with (list_to_set (C := gset string) fields); [by apply size_list_to_set|].
  apply set_eq. intros key. by rewrite elem_of_list_to_set, elem_of_dom, H.
Qed.

(** A field with a value is present. *)
Lemma field_present st key v : field st key = v → v ≠ SValue VNil → is_Some (st !! key).
Proof. unfold field. destruct (st !! key) as [w|]; [by eexists|]. by intros <-. Qed.

Lemma fields_present st fields keys :
  (∀ key, is_Some (st !! key) → key ∈ fields) → Forall (λ key, field st key ≠ SValue VNil) keys →
  (∀ key, key ∈ fields → key ∈ keys) → fields_are fields st.
Proof.
  intros Hk Hp Hs key. split; [apply Hk|]. intros Hin%Hs. rewrite Forall_forall in Hp. by eapply field_present; [done|apply Hp].
Qed.
End AttStmt.

(** ** Signatures over statements *)
Module AttCrypto.

Definition SignedData (authenticatorData : AuthenticatorData) (clientDataHash : list byte) : list byte :=
  bv_appendTo authenticatorData [] ++ clientDataHash.

Definition VerifySignature (ctx : context) (verifier : SignatureVerifier) (algorithm : Z)
    (publicKey : CredentialPublicKeyMaterial) (rawCredentialPublicKey signed signature : list byte)
    (malformedSignature invalidSignature : error) : result () :=
  match verifier with
  | Iface verify =>
      protocolSignature ← wrap_err malformedSignature (NewSignature (Some signature));
      wrap_err invalidSignature (verify ctx
        {| si_Algorithm := algorithm; si_PublicKey := publicKey; si_RawCredentialPublicKey := rawCredentialPublicKey;
           si_Signed := signed; si_Signature := protocolSignature |})
  | _ => Err (ErrorText invalidSignature "signature verifier is nil")
  end.

(** The adapter accepted this signature of [signed] by this key. *)
Definition accepts (ctx : context) (verifier : SignatureVerifier) (algorithm : Z)
    (publicKey : CredentialPublicKeyMaterial) (raw signed signature : list byte) : Prop :=
  signature ≠ [] ∧ ∃ verify, verifier = Iface verify ∧
    verify ctx {| si_Algorithm := algorithm; si_PublicKey := publicKey; si_RawCredentialPublicKey := raw;
                  si_Signed := signed; si_Signature := mkByteValue (Some signature) |} = Ok ().

Lemma NewSignature_Ok sig s : NewSignature (Some sig) = Ok s ↔ sig ≠ [] ∧ s = mkByteValue (Some sig).
Proof.
  unfold NewSignature, newByteValue. destruct sig as [|b l]; [by split; [|intros [? _]]|].
  change (slice_len (Some (b :: l))) with (Z.of_nat (length (b :: l))).
  rewrite (proj2 (Z.ltb_ge (Z.of_nat (length (b :: l))) 1)) by (cbn [length]; lia). cbn. split; [by intros [= <-]|by intros [_ ->]].
Qed.

Lemma VerifySignature_Ok ctx v a k raw signed sig e1 e2 u :
  VerifySignature ctx v a k raw signed sig e1 e2 = Ok u ↔ accepts ctx v a k raw signed sig.
Proof.
  destruct u. unfold VerifySignature, accepts. split.
  - destruct v as [| |verify]; try done. intros H. apply bind_Ok in H as (s & Hs%wrap_err_Ok & H%wrap_err_Ok).
    destruct sig as [|b l]; [done|]. split; [done|]. exists verify. split; [done|]. by apply NewSignature_Ok in Hs as [_ ->].
  - intros (Hne & verify & -> & H). apply bind_Ok. eexists. split; [|by apply wrap_err_Ok].
    apply wrap_err_Ok. by apply NewSignature_Ok.
Qed.
End AttCrypto.

(** ** Certificates and names *)
Module X509Util.

Record NameAttribute := mkAttribute { na_Type : ObjectIdentifier; na_Value : string; na_Tag : Z }.

Definition errName : error := Sentinel "invalid x509 name".
Definition errNameSet : error := Sentinel "invalid x509 name set".
Definition errNameAttribute : error := Sentinel "invalid x509 name attribute".
Definition errNameOID : error := Sentinel "invalid x509 name attribute oid".
Definition errNameValue : error := Sentinel "invalid x509 name attribute value".
Definition errNameString : error := Sentinel "invalid x509 name attribute string".
Definition errItems : error := Sentinel "invalid asn1 items".

Definition ParseCertificateChain {X : X509} (rawChain : list (list byte)) (invalid : error) :
    result (CertificateChain * list x509_Certificate) :=
  _ ← fail_if (bool_decide (length rawChain = 0%nat)) invalid;
  certificates ← map_res (λ raw, wrap_err invalid (x509_ParseCertificate raw)) rawChain;
  Ok (rawChain, certificates).

Fixpoint findExtension (extensions : list pkix_Extension) (oid : ObjectIdentifier) : option pkix_Extension :=
  match extensions with
  | [] => None
  | e :: extensions => if decide (xe_Id e = oid) then Some e else findExtension extensions oid
  end.
Definition FindExtension (certificate : x509_Certificate) (oid : ObjectIdentifier) : option pkix_Extension :=
  findExtension (xc_Extensions certificate) oid.
Definition HasExtension (certificate : x509_Certificate) (oid : ObjectIdentifier) : bool :=
  match FindExtension certificate oid with Some _ => true | None => false end.

(** The loop of [rawItems], which the Android key verifier repeats with other
    errors: [wrap] for a malformed item, [stuck] for one that consumes nothing. *)
Fixpoint asn1_items (wrap : error → error) (stuck : error) (fuel : nat) (data : list byte) : result (list RawValue) :=
  match data with
  | [] => Ok []
  | _ =>
      match fuel with
      | O => Err stuck
      | S fuel =>
          '(item, rest) ← map_err wrap (unmarshal_raw data);
          _ ← fail_if (length rest =? length data)%nat stuck;
          items ← asn1_items wrap stuck fuel rest;
          Ok (item :: items)
      end
  end.
Definition rawItems (data : list byte) : result (list RawValue) :=
  asn1_items (λ _, errItems) errItems (length data) data.

Definition is_universal (tag : Z) (v : RawValue) : bool :=
  (Class v =? ClassUniversal) && (Tag v =? tag) && IsCompound v.

Definition parseAttribute (item : RawValue) : result NameAttribute :=
  _ ← fail_if (negb (is_universal TagSequence item)) errNameAttribute;
  '(oid, remainder) ← or_err errNameOID (unmarshal_oid (Bytes item));
  _ ← fail_if (bool_decide (length remainder = 0%nat)) errNameOID;
  '(value, trailing) ← or_err errNameValue (unmarshal_raw remainder);
  _ ← fail_if (negb (bool_decide (length trailing = 0%nat))) errNameValue;
  '(text, trailing) ← or_err errNameString (unmarshal_string (FullBytes value));
  _ ← fail_if (negb (bool_decide (length trailing = 0%nat))) errNameString;
  Ok (mkAttribute oid text (Tag value)).

Definition parseNameSet (set : RawValue) : result (list NameAttribute) :=
  _ ← fail_if (negb (is_universal TagSet set)) errNameSet;
  items ← rawItems (Bytes set);
  map_res parseAttribute items.

Definition ParseNameAttributes (raw : list byte) : result (list NameAttribute) :=
  '(sequence, rest) ← or_err errName (unmarshal_raw raw);
  _ ← fail_if (negb (bool_decide (length rest = 0%nat)) || negb (is_universal TagSequence sequence)) errName;
  sets ← rawItems (Bytes sequence);
  attributes ← map_res parseNameSet sets;
  Ok (concat attributes).

(** *** Public keys *)

Definition curveMaterial (publicKey : option ecdsa_PublicKey) : option (string * nat * curve) :=
  match publicKey with
  | Some {| ek_Curve := Some c |} =>
      match c with
      | P256 => Some (EC2CurveP256, 32%nat, c)
      | P384 => Some (EC2CurveP384, 48%nat, c)
      | P521 => Some (EC2CurveP521, 66%nat, c)
      | P224 => None
      end
  | _ => None
  end.

Definition PublicKeyMaterial (publicKey : crypto_PublicKey) : option CredentialPublicKeyMaterial :=
  match publicKey with
  | KeyECDSA (Some {| ek_X := Some x; ek_Y := Some y; ek_Curve := c |}) =>
      '(name, coordinateLength, c) ← curveMaterial (Some {| ek_X := Some x; ek_Y := Some y; ek_Curve := c |});
      match ecdsa_Bytes c x y with
      | Ok encoded =>
          Some (mkMaterial (Some (mkEC2 name (take coordinateLength (drop 1 encoded)) (drop (1 + coordinateLength) encoded)))
                  None None)
      | Err _ => None
      end
  | KeyRSA (Some {| rk_N := Some n; rk_E := e |}) =>
      if (BitLen n <? MinRSAModulusBits) || (MaxRSAModulusBits <? BitLen n) || (e <? 3) || (e mod 2 =? 0)
         || (2 ^ 32 - 1 <? e)
      then None else Some (mkMaterial None (Some (mkRSA (big_Bytes (Z.abs n)) e)) None)
  | KeyEd25519 k =>
      if negb (Z.of_nat (length k) =? ed25519_PublicKeySize) then None
      else Some (mkMaterial None None (Some (mkOKP OKPCurveEd25519 k)))
  | _ => None
  end.

Definition ValidatePublicKey (publicKey : crypto_PublicKey) (material : CredentialPublicKeyMaterial)
    (unsupported mismatch : error) : result () :=
  match publicKey with
  | KeyECDSA typed =>
      match PublicKeyMaterial (KeyECDSA typed), mat_EC2 material with
      | Some {| mat_EC2 := Some actual |}, Some ec2 =>
          _ ← fail_if (negb (bool_decide (ec2_Curve actual = ec2_Curve ec2))) unsupported;
          fail_if (negb (bool_decide (ec2_X actual = ec2_X ec2)) || negb (bool_decide (ec2_Y actual = ec2_Y ec2))) mismatch
      | _, _ => Err unsupported
      end
  | KeyRSA (Some {| rk_N := Some n; rk_E := e |}) =>
      match mat_RSA material with
      | None => Err unsupported
      | Some rsa =>
          _ ← fail_if (negb (RSA_Valid (Some rsa))) unsupported;
          _ ← fail_if ((BitLen n <? MinRSAModulusBits) || (MaxRSAModulusBits <? BitLen n) || (e <=? 0)
                       || (2 ^ 32 - 1 <? e)) unsupported;
          fail_if (negb (e =? rsa_Exponent rsa) || negb (bool_decide (big_Bytes (Z.abs n) = rsa_Modulus rsa))) mismatch
      end
  | KeyEd25519 k =>
      match mat_OKP material with
      | None => Err unsupported
      | Some okp =>
          _ ← fail_if (negb (Z.of_nat (length k) =? ed25519_PublicKeySize)
                       || bool_decide (is_Some (mat_EC2 material)) || bool_decide (is_Some (mat_RSA material))
                       || negb (bool_decide (okp_Curve okp = OKPCurveEd25519))
                       || negb (Z.of_nat (length (okp_X okp)) =? ed25519_PublicKeySize)) unsupported;
          fail_if (negb (bool_decide (k = okp_X okp))) mismatch
      end
  | _ => Err unsupported
  end.

(** *** Lemmas *)

Lemma asn1_items_Ok wrap stuck fuel data items :
  asn1_items wrap stuck fuel data = Ok items ↔ raw_items fuel data = Ok items.
Proof.
  revert data items. induction fuel as [|fuel IH]; intros [|b l] items; cbn [asn1_items raw_items]; try done.
  rewrite !bind_Ok. split.
  - intros ([v rest] & Hv%map_err_Ok & H). apply bind_Ok in H as ([] & _ & H). apply bind_Ok in H as (vs & Hvs%IH & H).
    exists (v, rest). split; [done|]. apply bind_Ok. by exists vs.
  - intros ([v rest] & Hv & H). apply bind_Ok in H as (vs & Hvs & H).
    exists (v, rest). split; [by apply map_err_Ok|].
    pose proof (unmarshal_raw_progress _ _ _ Hv). rewrite (proj2 (Nat.eqb_neq _ _)) by lia. run.
    apply bind_Ok. exists vs. by rewrite IH.
Qed.

Lemma asn1_items_fuel wrap stuck f1 : ∀ f2 l,
  (length l <= f1)%nat → (length l <= f2)%nat → asn1_items wrap stuck f1 l = asn1_items wrap stuck f2 l.
Proof.
  induction f1 as [|f1 IH]; intros f2 [|b l] H1 H2; try done; [by destruct f2|cbn in H1; lia|by destruct f2|].
  destruct f2 as [|f2]; [cbn in H2; lia|]. cbn [asn1_items].
  destruct (unmarshal_raw (b :: l)) as [[v rest]|] eqn:E; [|done]. run.
  apply unmarshal_raw_progress in E. cbn [length] in *. rewrite (IH f2 rest) by lia. done.
Qed.

Lemma rawItems_Ok data items : rawItems data = Ok items ↔ rawValues data = Ok items.
Proof. apply asn1_items_Ok. Qed.

Lemma ParseCertificateChain_Ok {X : X509} x5c e chain certs :
  ParseCertificateChain x5c e = Ok (chain, certs) ↔
  x5c ≠ [] ∧ chain = x5c ∧ Forall2 (λ raw c, x509_ParseCertificate raw = Ok c) x5c certs.
Proof.
  assert (∀ ys, map_res (λ raw, wrap_err e (x509_ParseCertificate raw)) x5c = Ok ys ↔
                Forall2 (λ raw c, x509_ParseCertificate raw = Ok c) x5c ys) as Hm.
  { intros ys. rewrite map_res_Ok. split; intros H; (eapply Forall2_impl; [exact H|]); intros ??; by rewrite wrap_err_Ok. }
  unfold ParseCertificateChain. split.
  - intros H. apply bind_Ok in H as ([] & Hl%fail_if_Ok & H). apply bind_Ok in H as (cs & Hcs%Hm & [= <- <-]).
    guards in Hl. split_and!; try done. by intros ->.
  - intros (Hne & -> & Hc%Hm). rewrite bool_decide_eq_false_2 by (by destruct x5c). run. by rewrite Hc.
Qed.

Lemma findExtension_Some es oid e :
  findExtension es oid = Some e ↔
  ∃ before after, es = before ++ e :: after ∧ xe_Id e = oid ∧ Forall (λ x, xe_Id x ≠ oid) before.
Proof.
  induction es as [|x es IH]; cbn [findExtension].
  - split; [done|]. by intros ([] & after & ? & _).
  - case_decide as Hx.
    + split; [intros [= ->]; by exists [], es|].
      intros ([|y before] & after & Heq & He & Hall); simplify_eq/=; [done|]. by apply Forall_cons in Hall as [? _].
    + rewrite IH. split.
      * intros (before & after & -> & He & Hall). exists (x :: before), after. split_and!; [done..|by constructor].
      * intros ([|y before] & after & Heq & He & Hall); simplify_eq/=. apply Forall_cons in Hall as [_ Hall]. by exists before, after.
Qed.

Lemma findExtension_None es oid : findExtension es oid = None ↔ Forall (λ x, xe_Id x ≠ oid) es.
Proof.
  induction es as [|x es IH]; cbn [findExtension]; [done|]. rewrite Forall_cons. case_decide; [|tauto].
  split; [done|]. by intros [? _].
Qed.

(** The material of an ECDSA key on a supported curve. *)
Definition ec_material (c : curve) (x y : Z) : EC2PublicKeyMaterial :=
  mkEC2 (curve_Name c) (put_be (curve_bytes c) x) (put_be (curve_bytes c) y).

Lemma PublicKeyMaterial_ec p m :
  PublicKeyMaterial (KeyECDSA p) = Some m ↔
  ∃ c x y, p = Some (mkECDSA (Some c) (Some x) (Some y)) ∧ c ≠ P224 ∧ on_curve c x y = true ∧
           m = mkMaterial (Some (ec_material c x y)) None None.
Proof.
  assert (∀ c x y, take (curve_bytes c) (put_be (curve_bytes c) x ++ put_be (curve_bytes c) y) = put_be (curve_bytes c) x ∧
                   drop (curve_bytes c) (put_be (curve_bytes c) x ++ put_be (curve_bytes c) y) = put_be (curve_bytes c) y) as Hs.
  { intros c x y. set (u := put_be (curve_bytes c) x).
    replace (curve_bytes c) with (length u) by apply length_put_be. by rewrite take_app_length, drop_app_length. }
  unfold PublicKeyMaterial. split.
  - destruct p as [[c [x|] [y|]]|]; try done. unfold curveMaterial. cbn [ek_Curve].
    destruct c as [c|]; [|done]. intros H. destruct c; try done; cbn [mbind option_bind] in H;
      unfold ecdsa_Bytes in H; destruct (on_curve _ x y) eqn:E; try done; apply (inj Some) in H as <-;
      (eexists _, x, y; split_and!; [done|done|done|]; by rewrite <-(proj1 (Hs _ x y)), <-(proj2 (Hs _ x y)) at 1).
  - intros (c & x & y & -> & Hc & Hon & ->). unfold curveMaterial. cbn [ek_Curve].
    destruct c; try done; cbn [mbind option_bind]; unfold ecdsa_Bytes; rewrite Hon; unfold ec_material;
      rewrite <-(proj1 (Hs _ x y)), <-(proj2 (Hs _ x y)) at 1; done.
Qed.

(** The key of a certificate is the credential key. *)
Definition key_matches (key : crypto_PublicKey) (material : CredentialPublicKeyMaterial) : Prop :=
  match key with
  | KeyECDSA p =>
      ∃ c x y, p = Some (mkECDSA (Some c) (Some x) (Some y)) ∧ c ≠ P224 ∧ on_curve c x y = true ∧
               mat_EC2 material = Some (ec_material c x y)
  | KeyRSA p =>
      ∃ n e, p = Some (mkRSAKey (Some n) e) ∧ mat_RSA material = Some (mkRSA (big_Bytes (Z.abs n)) e) ∧
             RSA_Valid (mat_RSA material) = true ∧ e < 2 ^ 32 ∧
             MinRSAModulusBits <= BitLen n <= MaxRSAModulusBits
  | KeyEd25519 k =>
      material = mkMaterial None None (Some (mkOKP OKPCurveEd25519 k)) ∧ Z.of_nat (length k) = ed25519_PublicKeySize
  | KeyOther => False
  end.

Lemma RSA_Valid_exponent m : RSA_Valid (Some m) = true → 3 <= rsa_Exponent m.
Proof. by intros (_ & _ & _ & ? & _)%RSA_Valid_bits. Qed.

Lemma validate_ec_Ok p m e1 e2 u :
  ValidatePublicKey (KeyECDSA p) m e1 e2 = Ok u ↔ key_matches (KeyECDSA p) m.
Proof.
  destruct u. cbn [ValidatePublicKey key_matches]. split.
  - destruct (PublicKeyMaterial (KeyECDSA p)) as [am|] eqn:E; [|done].
    apply PublicKeyMaterial_ec in E as (c & x & y & -> & Hc & Hon & ->). cbn [mat_EC2].
    destruct (mat_EC2 m) as [[n X Y]|]; [|done]. intros H. apply bind_Ok in H as ([] & H1%fail_if_Ok & H2%fail_if_Ok).
    guards in H1. guards in H2. cbn in H1, H2. destruct H2 as [<- <-]. subst n. by exists c, x, y.
  - intros (c & x & y & -> & Hc & Hon & ->).
    rewrite (proj2 (PublicKeyMaterial_ec _ _)) by (by exists c, x, y). cbn [mat_EC2].
    by rewrite !bool_decide_eq_true_2 by done.
Qed.

Lemma ValidatePublicKey_Ok key m e1 e2 u : ValidatePublicKey key m e1 e2 = Ok u ↔ key_matches key m.
Proof.
  destruct u, key as [p|p|k|]; [apply validate_ec_Ok| | |done]; cbn [ValidatePublicKey key_matches].
  - split.
    + destruct p as [[[n|] e]|]; try done. destruct (mat_RSA m) as [rsa|]; [|done]. intros H.
      apply bind_Ok in H as ([] & H1%fail_if_Ok & H). apply bind_Ok in H as ([] & H2%fail_if_Ok & H3%fail_if_Ok).
      guards in H1. guards in H3. destruct rsa as [N E]. cbn in H3. destruct H3 as [-> <-].
      rewrite !orb_false_iff, !Z.ltb_ge, Z.leb_gt in H2. exists n, E. split_and!; try done; lia.
    + intros (n & e & -> & Hm & Hv & He & Hb). rewrite Hm in Hv |- *. rewrite Hv. run.
      apply RSA_Valid_exponent in Hv. cbn in Hv. cbn [rsa_Exponent rsa_Modulus]. rewrite Z.eqb_refl, bool_decide_eq_true_2 by done.
      rewrite !(proj2 (Z.ltb_ge _ _)), (proj2 (Z.leb_gt _ _)) by lia. done.
  - split.
    + destruct (mat_OKP m) as [okp|] eqn:Eo; [|done]. intros H.
      apply bind_Ok in H as ([] & H1%fail_if_Ok & H2%fail_if_Ok). guards in H1. guards in H2.
      destruct m as [ec rsa okp'], okp as [c X]. cbn in *. destruct H1 as ((((? & Hec%eq_None_not_Some) & Hr%eq_None_not_Some) & Hc) & _).
      by subst.
    + intros [-> Hk]. cbn [mat_OKP mat_EC2 mat_RSA okp_Curve okp_X]. rewrite (proj2 (Z.eqb_eq _ _) Hk).
      rewrite !bool_decide_eq_true_2 by done. rewrite !bool_decide_eq_false_2 by (by intros []). done.
Qed.
End X509Util.

(** ** Profiles of certificates

    The subject of a packed certificate and the alternative name of a TPM
    certificate must hold each attribute of a list exactly once with a valid
    value.  The map [required] of the code is the list of the attributes found
    so far; object identifiers serve as keys instead of their dotted form. *)
Module Profile.
Import X509Util.

Section Attributes.
Context (required : list ObjectIdentifier) (valid : NameAttribute → bool).

Fixpoint attributes_loop (found : list ObjectIdentifier) (attributes : list NameAttribute) :
    option (list ObjectIdentifier) :=
  match attributes with
  | [] => Some found
  | attribute :: attributes =>
      if negb (bool_decide (na_Type attribute ∈ required)) then attributes_loop found attributes
      else if bool_decide (na_Type attribute ∈ found) || negb (valid attribute) then None
      else attributes_loop (na_Type attribute :: found) attributes
  end.

Definition attributes_valid (attributes : list NameAttribute) : bool :=
  match attributes_loop [] attributes with
  | Some found => forallb (λ oid, bool_decide (oid ∈ found)) required
  | None => false
  end.

Definition of_type (oid : ObjectIdentifier) (attributes : list NameAttribute) : list NameAttribute :=
  filter (λ a, na_Type a = oid) attributes.

Lemma of_type_cons oid a attributes :
  of_type oid (a :: attributes) = if decide (na_Type a = oid) then a :: of_type oid attributes else of_type oid attributes.
Proof. done. Qed.

Lemma attributes_loop_Some attributes : ∀ found,
  (∃ found', attributes_loop found attributes = Some found' ∧ ∀ oid, oid ∈ required → oid ∈ found') ↔
  ∀ oid, oid ∈ required →
    if bool_decide (oid ∈ found) then of_type oid attributes = []
    else ∃ a, of_type oid attributes = [a] ∧ valid a = true.
Proof.
  induction attributes as [|a attributes IH]; intros found; cbn [attributes_loop].
  - split.
    + intros (f & [= <-] & H) oid Ho. by rewrite bool_decide_eq_true_2 by auto.
    + intros H. exists found. split; [done|]. intros oid Ho. specialize (H oid Ho).
      case_bool_decide; [done|]. by destruct H as (? & ? & _).
  - case_bool_decide as Hr; cbn [negb].
    + destruct (bool_decide (na_Type a ∈ found) || negb (valid a)) eqn:E.
      * split; [by intros (? & ? & _)|]. intros H. specialize (H _ Hr). rewrite of_type_cons, decide_True in H by done.
        case_bool_decide; [done|]. destruct H as (? & [= <- _] & Hv). by rewrite Hv in E.
      * apply orb_false_iff in E as [Hf%bool_decide_eq_false Hv%negb_false_iff]. rewrite IH.
        split; intros H oid Ho; specialize (H oid Ho); rewrite of_type_cons in *;
          destruct (decide (na_Type a = oid)) as [<-|Hne];
          try by (rewrite (bool_decide_ext (oid ∈ na_Type a :: found) (oid ∈ found)) in * by set_solver).
        -- rewrite bool_decide_eq_true_2 in H by set_solver. rewrite bool_decide_eq_false_2, H by done. by exists a.
        -- rewrite bool_decide_eq_false_2 in H by done. destruct H as (x & Hx & _). injection Hx as _ Hnil.
           by rewrite bool_decide_eq_true_2 by set_solver.
    + rewrite IH. split; intros H oid Ho; specialize (H oid Ho); rewrite of_type_cons in *;
        (destruct (decide (na_Type a = oid)) as [<-|Hne]; done).
Qed.

(** Every listed attribute occurs exactly once and is valid. *)
Definition exactly_once (attributes : list NameAttribute) : Prop :=
  ∀ oid, oid ∈ required → ∃ a, of_type oid attributes = [a] ∧ valid a = true.

Lemma attributes_valid_spec attributes : attributes_valid attributes = true ↔ exactly_once attributes.
Proof.
  unfold attributes_valid, exactly_once.
  pose proof (attributes_loop_Some attributes []) as H.
  split.
  - intros Hv oid Ho. destruct (attributes_loop [] attributes) as [found|] eqn:E; [|done].
    rewrite forallb_forall in Hv.
    destruct H as [H _]. assert (∀ oid, oid ∈ required → oid ∈ found) as Hall.
    { intros o Hin. specialize (Hv o). rewrite bool_decide_eq_true in Hv. apply Hv. by apply list_elem_of_In. }
    specialize (H (ex_intro _ found (conj eq_refl Hall)) oid Ho). by rewrite bool_decide_eq_false_2 in H by set_solver.
  - intros Hv. destruct H as [_ H]. destruct H as (found & -> & Hall).
    { intros oid Ho. rewrite bool_decide_eq_false_2 by set_solver. by apply Hv. }
    apply forallb_forall. intros oid Ho%list_elem_of_In. apply bool_decide_eq_true. by apply Hall.
Qed.
End Attributes.

(** The FIDO AAGUID extension, checked the same way by two formats. *)
Definition oidExtensionFIDOAAGUID : ObjectIdentifier := [1; 3; 6; 1; 4; 1; 45724; 1; 1; 4].
Definition oidExtensionBasicConstraints : ObjectIdentifier := [2; 5; 29; 19].

Definition aaguid_extension (requirements : error) (certificate : x509_Certificate) (aaguid : AAGUID) : result () :=
  match FindExtension certificate oidExtensionFIDOAAGUID with
  | None => Ok ()
  | Some extension =>
      _ ← fail_if (xe_Critical extension) requirements;
      '(extensionAAGUID, rest) ← or_err requirements (unmarshal_bytes (xe_Value extension));
      _ ← fail_if (negb (bool_decide (length rest = 0%nat)) || negb (Z.of_nat (length extensionAAGUID) =? AAGUIDLength))
            requirements;
      fail_if (negb (AAGUID_EqualBytes aaguid (Some extensionAAGUID))) requirements
  end.

Definition names_aaguid (certificate : x509_Certificate) (aaguid : AAGUID) : Prop :=
  ∀ extension, FindExtension certificate oidExtensionFIDOAAGUID = Some extension →
    xe_Critical extension = false ∧ unmarshal_bytes (xe_Value extension) = Ok (aaguid, []) ∧ length aaguid = 16%nat.

Lemma aaguid_extension_Ok e certificate aaguid u :
  aaguid_extension e certificate aaguid = Ok u ↔ names_aaguid certificate aaguid.
Proof.
  destruct u. unfold aaguid_extension, names_aaguid. destruct (FindExtension _ _) as [x|]; [|by split].
  unfold AAGUID_EqualBytes. split.
  - intros H ext [= <-]. apply bind_Ok in H as ([] & Hc%fail_if_Ok & H).
    apply bind_Ok in H as ([a rest] & Hu%or_err_Ok & H). apply bind_Ok in H as ([] & Hl%fail_if_Ok & H%fail_if_Ok).
    guards in Hl. guards in H. destruct Hl as [Hr Ha]. apply nil_length_inv in Hr as ->. cbn in H. subst a.
    split_and!; try done. unfold AAGUIDLength in Ha. lia.
  - intros H. destruct (H x eq_refl) as (-> & -> & Hl). run. rewrite bool_decide_eq_true_2 by done. rewrite Hl. run.
    by rewrite bool_decide_eq_true_2.
Qed.

(** An end-entity certificate by its basic constraints. *)
Definition end_entity (certificate : x509_Certificate) : bool :=
  HasExtension certificate oidExtensionBasicConstraints && xc_BasicConstraintsValid certificate
  && negb (xc_IsCA certificate).
End Profile.

(** ** Properties *)

