(* ===== verification/Formats.v ===== *)
(** * The attestation formats packed, fido-u2f and apple

    Models [src/attestation/packed/] (module [Packed]),
    [src/attestation/fidou2f/] (module [FidoU2F]) and [src/attestation/apple/]
    (module [Apple]).  Each verifier is shown to accept exactly the statements
    of a specification: the fields of the statement, the data that was signed,
    the key that signed it and the profile of the certificate. *)
From S2P Require Import Prelude GoStrings Sha2 AuthData ExtValue Types Attestation Asn1 X509.
Set Default Goal Selector "!".
Local Open Scope Z_scope.

Definition x509_result (type : string) (chain : CertificateChain) : VerificationResult :=
  mkVR type (mkTrustPath TrustPathX509 chain None None) true [] EvNil.

(** The first certificate of a parsed chain; [certificates[0]] of an empty slice
    would panic, but a parsed chain is not empty. *)
Definition leaf_of (certificates : list x509_Certificate) : result x509_Certificate :=
  match certificates with leaf :: _ => Ok leaf | [] => Err NilDereference end.

(** A chain all of whose certificates parse, the first as [leaf]. *)
Definition chain_leaf {X : X509} (x5c : list (list byte)) (leaf : x509_Certificate) : Prop :=
  ∃ raw rest, x5c = raw :: rest ∧ x509_ParseCertificate raw = Ok leaf ∧
    Forall (λ raw, ∃ c, x509_ParseCertificate raw = Ok c) rest.

Lemma chain_leaf_Ok {X : X509} x5c e chain leaf :
  (∃ certs, X509Util.ParseCertificateChain x5c e = Ok (chain, certs) ∧ leaf_of certs = Ok leaf) ↔
  chain = x5c ∧ chain_leaf x5c leaf.
Proof.
  setoid_rewrite X509Util.ParseCertificateChain_Ok. unfold chain_leaf. split.
  - intros (certs & (_ & -> & H) & Hl). split; [done|]. destruct H as [|raw c x5c certs Hc Hcs]; [done|].
    apply Ok_inj in Hl as ->. exists raw, x5c. split_and!; try done. clear Hc.
    induction Hcs; constructor; eauto.
  - intros (-> & raw & rest & -> & Hl & Hr).
    assert (∃ certs, Forall2 (λ raw c, x509_ParseCertificate raw = Ok c) rest certs) as [certs Hc].
    { clear Hl. induction Hr as [|r rest [c Hc] _ [cs IH]]; [by exists []|]. exists (c :: cs). by constructor. }
    exists (leaf :: certs). split_and!; try done. by constructor.
Qed.

(** ** packed *)
Module Packed.
Import X509Util Profile.

Definition format : string := "packed".
Definition ErrInvalidStatement : error := Sentinel "packed.ErrInvalidStatement".
Definition ErrAlgorithmMismatch : error := Sentinel "packed.ErrAlgorithmMismatch".
Definition ErrInvalidSignature : error := Sentinel "packed.ErrInvalidSignature".
Definition ErrCertificateRequirements : error := Sentinel "packed.ErrCertificateRequirements".

Definition oidExtensionFIDOFirmware : ObjectIdentifier := [1; 3; 6; 1; 4; 1; 45724; 1; 1; 5].
Definition oidExtensionFIDOSerialNumber : ObjectIdentifier := [1; 3; 6; 1; 4; 1; 45724; 1; 1; 2].
Definition oidSubjectCountry : ObjectIdentifier := [2; 5; 4; 6].
Definition oidSubjectOrganization : ObjectIdentifier := [2; 5; 4; 10].
Definition oidSubjectOrganizationalUnit : ObjectIdentifier := [2; 5; 4; 11].
Definition oidSubjectCommonName : ObjectIdentifier := [2; 5; 4; 3].
Definition AttestationEnterprise : string := "enterprise".

Record packedStatement := mkPacked {
  ps_algorithm : Z; ps_signature : list byte; ps_x5c : list (list byte); ps_hasX5C : bool }.

Definition parseStatement {Ord : MapOrder} (statement : AttestationStatement) : result packedStatement :=
  _ ← fail_if (map_len statement =? 0) ErrInvalidStatement;
  _ ← AttStmt.known_fields ["alg"; "sig"; "x5c"] statement ErrInvalidStatement;
  algorithm ← AttStmt.Algorithm (AttStmt.field statement "alg") ErrInvalidStatement;
  signature ← AttStmt.Bytes (AttStmt.field statement "sig") ErrInvalidStatement;
  match statement !! "x5c" with
  | Some x5cValue =>
      x5c ← AttStmt.X5C x5cValue ErrInvalidStatement;
      Ok (mkPacked algorithm signature x5c true)
  | None => Ok (mkPacked algorithm signature [] false)
  end.

Definition validCountryCode (value : string) : bool :=
  match bytes_of_string value with
  | [a; b] => in_range 65 90 a && in_range 65 90 b
  | _ => false
  end.

Definition required_subject : list ObjectIdentifier :=
  [oidSubjectCountry; oidSubjectOrganization; oidSubjectOrganizationalUnit; oidSubjectCommonName].

Definition valid_subject (attribute : NameAttribute) : bool :=
  if decide (na_Type attribute = oidSubjectCountry) then
    (na_Tag attribute =? TagPrintableString) && validCountryCode (na_Value attribute)
  else if decide (na_Type attribute = oidSubjectOrganizationalUnit) then
    (na_Tag attribute =? TagUTF8String) && bool_decide (na_Value attribute = "Authenticator Attestation")
  else (na_Tag attribute =? TagUTF8String) && negb (bool_decide (na_Value attribute = "")).

Definition validatePackedSubject (certificate : x509_Certificate) : result () :=
  attributes ← or_err ErrCertificateRequirements (ParseNameAttributes (xc_RawSubject certificate));
  fail_if (negb (attributes_valid required_subject valid_subject attributes)) ErrCertificateRequirements.

Definition validateAAGUIDExtension (certificate : x509_Certificate) (aaguid : AAGUID) : result () :=
  aaguid_extension ErrCertificateRequirements certificate aaguid.

Definition validateFirmwareExtension (certificate : x509_Certificate) : result () :=
  match FindExtension certificate oidExtensionFIDOFirmware with
  | None => Ok ()
  | Some extension =>
      _ ← fail_if (xe_Critical extension) ErrCertificateRequirements;
      '(version, rest) ← or_err ErrCertificateRequirements (unmarshal_big (xe_Value extension));
      fail_if (negb (bool_decide (length rest = 0%nat)) || (version <? 0)) ErrCertificateRequirements
  end.

Definition validateEnterpriseSerialExtension (certificate : x509_Certificate) (conveyance : string) : result () :=
  match FindExtension certificate oidExtensionFIDOSerialNumber with
  | None => Ok ()
  | Some extension =>
      _ ← fail_if (negb (bool_decide (conveyance = AttestationEnterprise)) || xe_Critical extension)
            ErrCertificateRequirements;
      '(serial, rest) ← or_err ErrCertificateRequirements (unmarshal_bytes (xe_Value extension));
      fail_if (negb (bool_decide (length rest = 0%nat)) || bool_decide (length serial = 0%nat)) ErrCertificateRequirements
  end.

Definition validatePackedCertificate (certificate : x509_Certificate) (aaguid : AAGUID) (conveyance : string) : result () :=
  _ ← fail_if (negb (xc_Version certificate =? 3)) ErrCertificateRequirements;
  _ ← or_err ErrCertificateRequirements (validatePackedSubject certificate);
  _ ← fail_if (negb (end_entity certificate)) ErrCertificateRequirements;
  _ ← validateAAGUIDExtension certificate aaguid;
  _ ← validateFirmwareExtension certificate;
  validateEnterpriseSerialExtension certificate conveyance.

Section Verify.
Context {Ord : MapOrder} {X : X509} (signatureVerifier : SignatureVerifier).

Definition verifySignature (ctx : context) (algorithm : Z) (publicKey : CredentialPublicKeyMaterial)
    (rawCredentialPublicKey signed signature : list byte) : result () :=
  AttCrypto.VerifySignature ctx signatureVerifier algorithm publicKey rawCredentialPublicKey signed signature
    ErrInvalidStatement ErrInvalidSignature.

Definition verifySelf (ctx : context) (request : VerificationRequest) (statement : packedStatement)
    (signed : list byte) : result VerificationResult :=
  let key := vq_CredentialPublicKey request in
  _ ← fail_if (negb (ps_algorithm statement =? pk_Algorithm key)) ErrAlgorithmMismatch;
  _ ← verifySignature ctx (ps_algorithm statement) (Types.PublicKeyMaterial key) (Raw key) signed (ps_signature statement);
  Ok (mkVR TypeSelf (mkTrustPath TrustPathNone [] None None) true [] EvNil).

Definition verifyX5C (ctx : context) (request : VerificationRequest) (statement : packedStatement)
    (signed : list byte) : result VerificationResult :=
  parsedAuthData ← wrap_err ErrInvalidStatement (ParseAuthenticatorData (vq_AuthenticatorData request));
  attested ← of_option ErrInvalidStatement (pad_Attested parsedAuthData);
  '(chain, certificates) ← ParseCertificateChain (ps_x5c statement) ErrInvalidStatement;
  leaf ← leaf_of certificates;
  _ ← validatePackedCertificate leaf (acd_AAGUID attested) (vq_ConveyancePreference request);
  leafMaterial ← of_option ErrCertificateRequirements (X509Util.PublicKeyMaterial (xc_PublicKey leaf));
  _ ← verifySignature ctx (ps_algorithm statement) leafMaterial [] signed (ps_signature statement);
  Ok (x509_result TypeUncertain chain).

Definition VerifyAttestation (ctx : context) (request : VerificationRequest) : result VerificationResult :=
  _ ← fail_if (negb (bool_decide (vq_Format request = format)) || IsNil signatureVerifier) ErrInvalidStatement;
  statement ← parseStatement (vq_Statement request);
  _ ← fail_if ((bv_len (vq_AuthenticatorData request) =? 0) || bool_decide (length (vq_ClientDataHash request) = 0%nat))
        ErrInvalidStatement;
  let signed := AttCrypto.SignedData (vq_AuthenticatorData request) (vq_ClientDataHash request) in
  if ps_hasX5C statement then verifyX5C ctx request statement signed else verifySelf ctx request statement signed.

Definition New : Verifier := mkVerifier format VerifyAttestation.
End Verify.
End Packed.

(** ** fido-u2f *)
Module FidoU2F.
Import X509Util.

Definition format : string := "fido-u2f".
Definition algorithmES256 : Z := -7.
Definition ErrInvalidStatement : error := Sentinel "fidou2f.ErrInvalidStatement".
Definition ErrUnsupportedKey : error := Sentinel "fidou2f.ErrUnsupportedKey".
Definition ErrInvalidSignature : error := Sentinel "fidou2f.ErrInvalidSignature".

Record u2fStatement := mkU2F { us_x5c : list byte; us_signature : list byte }.

Definition parseStatement {Ord : MapOrder} (statement : AttestationStatement) : result u2fStatement :=
  _ ← fail_if (negb (map_len statement =? 2)) ErrInvalidStatement;
  _ ← AttStmt.known_fields ["x5c"; "sig"] statement ErrInvalidStatement;
  x5c ← AttStmt.SingleX5C (AttStmt.field statement "x5c") ErrInvalidStatement;
  signature ← AttStmt.Bytes (AttStmt.field statement "sig") ErrInvalidStatement;
  Ok (mkU2F x5c signature).

Definition u2fVerificationData (rpIDHash clientDataHash : list byte) (credentialID : CredentialID)
    (publicKeyU2F : list byte) : list byte :=
  bv_appendTo credentialID ([x00] ++ rpIDHash ++ clientDataHash) ++ publicKeyU2F.

Definition isP256 (publicKey : option ecdsa_PublicKey) : bool :=
  match publicKey with
  | Some {| ek_Curve := Some c |} => bool_decide (curve_Name c = curve_Name P256)
  | _ => false
  end.

Section Verify.
Context {Ord : MapOrder} {X : X509} (signatureVerifier : SignatureVerifier).

Definition parseCertificate (raw : list byte) : result (CertificateChain * x509_Certificate) :=
  certificate ← wrap_err ErrInvalidStatement (x509_ParseCertificate raw);
  Ok ([raw], certificate).

Definition verifySignature (ctx : context) (publicKey : CredentialPublicKeyMaterial) (signed signature : list byte) : result () :=
  AttCrypto.VerifySignature ctx signatureVerifier algorithmES256 publicKey [] signed signature
    ErrInvalidStatement ErrInvalidSignature.

Definition VerifyAttestation (ctx : context) (request : VerificationRequest) : result VerificationResult :=
  _ ← fail_if (negb (bool_decide (vq_Format request = format)) || IsNil signatureVerifier) ErrInvalidStatement;
  statement ← parseStatement (vq_Statement request);
  _ ← fail_if (negb (pk_Algorithm (vq_CredentialPublicKey request) =? algorithmES256)) ErrUnsupportedKey;
  let publicKeyU2F := slice_list (U2FPublicKey (vq_CredentialPublicKey request)) in
  _ ← fail_if (negb (Z.of_nat (length publicKeyU2F) =? 65) || negb (bool_decide (head publicKeyU2F = Some x04)))
        ErrUnsupportedKey;
  _ ← fail_if (negb (Z.of_nat (length (vq_ClientDataHash request)) =? 32)) ErrInvalidStatement;
  parsedAuthData ← wrap_err ErrInvalidStatement (ParseAuthenticatorData (vq_AuthenticatorData request));
  attested ← of_option ErrInvalidStatement (pad_Attested parsedAuthData);
  '(chain, certificate) ← parseCertificate (us_x5c statement);
  certificatePublicKey ← match xc_PublicKey certificate with
    | KeyECDSA k => _ ← fail_if (negb (isP256 k)) ErrUnsupportedKey; Ok k
    | _ => Err ErrUnsupportedKey
    end;
  let verificationData := u2fVerificationData (RPIDHash parsedAuthData) (vq_ClientDataHash request)
                            (acd_CredentialID attested) publicKeyU2F in
  certificateMaterial ← of_option ErrUnsupportedKey (X509Util.PublicKeyMaterial (KeyECDSA certificatePublicKey));
  _ ← verifySignature ctx certificateMaterial verificationData (us_signature statement);
  Ok (x509_result TypeUncertain chain).

Definition New : Verifier := mkVerifier format VerifyAttestation.
End Verify.
End FidoU2F.

(** ** apple *)
Module Apple.
Import X509Util.

Definition format : string := "apple".
Definition oidExtensionAppleAnonymousAttestationNonce : ObjectIdentifier := [1; 2; 840; 113635; 100; 8; 2].
Definition ErrInvalidStatement : error := Sentinel "apple.ErrInvalidStatement".
Definition ErrUnsupportedKey : error := Sentinel "apple.ErrUnsupportedKey".
Definition ErrPublicKeyMismatch : error := Sentinel "apple.ErrPublicKeyMismatch".
Definition ErrInvalidNonce : error := Sentinel "apple.ErrInvalidNonce".
Definition ErrCertificateRequirements : error := Sentinel "apple.ErrCertificateRequirements".

Definition parseStatement {Ord : MapOrder} (statement : AttestationStatement) : result (list (list byte)) :=
  _ ← fail_if (negb (map_len statement =? 1)) ErrInvalidStatement;
  _ ← AttStmt.known_fields ["x5c"] statement ErrInvalidStatement;
  AttStmt.X5C (AttStmt.field statement "x5c") ErrInvalidStatement.

Definition expectedNonce (authenticatorData : AuthenticatorData) (clientDataHash : list byte) : list byte :=
  Sum256 (AttCrypto.SignedData authenticatorData clientDataHash).

Definition validateNonceExtension (certificate : x509_Certificate) (expected : list byte) : result () :=
  extension ← of_option ErrCertificateRequirements (FindExtension certificate oidExtensionAppleAnonymousAttestationNonce);
  '(sequence, rest) ← or_err ErrInvalidNonce (unmarshal_raw (xe_Value extension));
  _ ← fail_if (negb (bool_decide (length rest = 0%nat)) || negb (is_universal TagSequence sequence)) ErrInvalidNonce;
  '(explicitNonce, rest) ← or_err ErrInvalidNonce (unmarshal_raw (Bytes sequence));
  _ ← fail_if (negb (bool_decide (length rest = 0%nat)) || negb (Class explicitNonce =? ClassContextSpecific)
               || negb (Tag explicitNonce =? 1) || negb (IsCompound explicitNonce)) ErrInvalidNonce;
  '(nonce, rest) ← or_err ErrInvalidNonce (unmarshal_bytes (Bytes explicitNonce));
  _ ← fail_if (negb (bool_decide (length rest = 0%nat)) || negb (Z.of_nat (length nonce) =? 32)) ErrInvalidNonce;
  fail_if (negb (bool_decide (nonce = expected))) ErrInvalidNonce.

Section Verify.
Context {Ord : MapOrder} {X : X509}.

Definition VerifyAttestation (_ : context) (request : VerificationRequest) : result VerificationResult :=
  _ ← fail_if (negb (bool_decide (vq_Format request = format))) ErrInvalidStatement;
  x5c ← parseStatement (vq_Statement request);
  _ ← fail_if ((bv_len (vq_AuthenticatorData request) =? 0) || bool_decide (length (vq_ClientDataHash request) = 0%nat))
        ErrInvalidStatement;
  '(chain, certificates) ← ParseCertificateChain x5c ErrInvalidStatement;
  leaf ← leaf_of certificates;
  _ ← validateNonceExtension leaf (expectedNonce (vq_AuthenticatorData request) (vq_ClientDataHash request));
  _ ← ValidatePublicKey (xc_PublicKey leaf) (Types.PublicKeyMaterial (vq_CredentialPublicKey request))
        ErrUnsupportedKey ErrPublicKeyMismatch;
  Ok (x509_result TypeAnonymizationCA chain).

Definition New : Verifier := mkVerifier format VerifyAttestation.
End Verify.
End Apple.

(** ** Specifications and lemmas *)

Section PackedLemmas.
Import Packed X509Util Profile.
Context {Ord : MapOrder} {X : X509}.

(** The certificate profile of packed attestation. *)
Definition packed_profile (certificate : x509_Certificate) (aaguid : AAGUID) (conveyance : string) : Prop :=
  xc_Version certificate = 3 ∧
  (∃ attributes, ParseNameAttributes (xc_RawSubject certificate) = Ok attributes ∧
     exactly_once required_subject valid_subject attributes) ∧
  end_entity certificate = true ∧ names_aaguid certificate aaguid ∧
  (∀ ext, FindExtension certificate oidExtensionFIDOFirmware = Some ext →
     xe_Critical ext = false ∧ ∃ version, unmarshal_big (xe_Value ext) = Ok (version, []) ∧ 0 <= version) ∧
  (∀ ext, FindExtension certificate oidExtensionFIDOSerialNumber = Some ext →
     conveyance = AttestationEnterprise ∧ xe_Critical ext = false ∧
     ∃ serial, unmarshal_bytes (xe_Value ext) = Ok (serial, []) ∧ serial ≠ []).

Lemma validatePackedSubject_Ok c u :
  validatePackedSubject c = Ok u ↔
  ∃ attributes, ParseNameAttributes (xc_RawSubject c) = Ok attributes ∧
    exactly_once required_subject valid_subject attributes.
Proof.
  unfold validatePackedSubject. rewrite bind_Ok. setoid_rewrite or_err_Ok. setoid_rewrite fail_if_Ok.
  setoid_rewrite negb_false_iff. by setoid_rewrite attributes_valid_spec.
Qed.

Lemma validateFirmwareExtension_Ok c u :
  validateFirmwareExtension c = Ok u ↔
  ∀ ext, FindExtension c oidExtensionFIDOFirmware = Some ext →
    xe_Critical ext = false ∧ ∃ version, unmarshal_big (xe_Value ext) = Ok (version, []) ∧ 0 <= version.
Proof.
  destruct u. unfold validateFirmwareExtension. destruct (FindExtension _ _) as [x|]; [|by split]. split.
  - intros H ext [= <-]. apply bind_Ok in H as ([] & Hc%fail_if_Ok & H).
    apply bind_Ok in H as ([z rest] & Hu%or_err_Ok & H%fail_if_Ok). guards in H. destruct H as [Hr Hz].
    apply nil_length_inv in Hr as ->. split; [done|]. by exists z.
  - intros H. destruct (H x eq_refl) as (-> & z & -> & Hz). run. rewrite bool_decide_eq_true_2 by done. run.
    by rewrite (proj2 (Z.ltb_ge _ _)).
Qed.

Lemma validateEnterpriseSerialExtension_Ok c conveyance u :
  validateEnterpriseSerialExtension c conveyance = Ok u ↔
  ∀ ext, FindExtension c oidExtensionFIDOSerialNumber = Some ext →
    conveyance = AttestationEnterprise ∧ xe_Critical ext = false ∧
    ∃ serial, unmarshal_bytes (xe_Value ext) = Ok (serial, []) ∧ serial ≠ [].
Proof.
  destruct u. unfold validateEnterpriseSerialExtension. destruct (FindExtension _ _) as [x|]; [|by split]. split.
  - intros H ext [= <-]. apply bind_Ok in H as ([] & Hc%fail_if_Ok & H).
    apply bind_Ok in H as ([s rest] & Hu%or_err_Ok & H%fail_if_Ok). guards in Hc. guards in H. destruct H as [Hr Hz].
    apply nil_length_inv in Hr as ->. split_and!; try tauto. exists s. split; [done|]. by intros ->.
  - intros H. destruct (H x eq_refl) as (-> & -> & s & -> & Hs). rewrite bool_decide_eq_true_2 by done. run.
    rewrite bool_decide_eq_true_2, bool_decide_eq_false_2 by (done || by destruct s). done.
Qed.

Lemma validatePackedCertificate_Ok c aaguid conveyance u :
  validatePackedCertificate c aaguid conveyance = Ok u ↔ packed_profile c aaguid conveyance.
Proof.
  destruct u. unfold validatePackedCertificate, packed_profile, validateAAGUIDExtension. split.
  - intros H. apply bind_Ok in H as ([] & H1%fail_if_Ok & H). apply bind_Ok in H as ([] & H2%or_err_Ok & H).
    apply bind_Ok in H as ([] & H3%fail_if_Ok & H). apply bind_Ok in H as ([] & H4 & H).
    rewrite aaguid_extension_Ok in H4. apply bind_Ok in H as ([] & H5 & H6). rewrite validateFirmwareExtension_Ok in H5.
    rewrite validateEnterpriseSerialExtension_Ok in H6. apply validatePackedSubject_Ok in H2. guards in H1. guards in H3. done.
  - intros (H1 & H2%(validatePackedSubject_Ok _ ()) & H3 & H4 & H5 & H6).
    rewrite H1, H2, H3, Z.eqb_refl. run. rewrite (proj2 (aaguid_extension_Ok _ _ _ ()) H4). run.
    rewrite (proj2 (validateFirmwareExtension_Ok _ ()) H5). run.
    by rewrite validateEnterpriseSerialExtension_Ok.
Qed.

Lemma parseStatement_Ok st s :
  parseStatement st = Ok s ↔
  (∀ key, is_Some (st !! key) → key ∈ ["alg"; "sig"; "x5c"]) ∧
  AttStmt.is_algorithm (AttStmt.field st "alg") (ps_algorithm s) ∧
  AttStmt.is_bytes (AttStmt.field st "sig") (ps_signature s) ∧
  (if ps_hasX5C s then ∃ v, st !! "x5c" = Some v ∧ AttStmt.is_chain v (ps_x5c s)
   else st !! "x5c" = None ∧ ps_x5c s = []).
Proof.
  unfold parseStatement. split.
  - intros H. apply bind_Ok in H as ([] & _ & H). apply bind_Ok in H as ([] & Hk & H).
    apply bind_Ok in H as (a & Ha%AttStmt.Algorithm_Ok & H). apply bind_Ok in H as (sig & Hs%AttStmt.Bytes_Ok & H).
    rewrite AttStmt.known_fields_Ok in Hk. destruct (st !! "x5c") as [v|] eqn:E.
    + apply bind_Ok in H as (x5c & Hx%AttStmt.X5C_Ok & [= <-]). split_and!; try done. by exists v.
    + by apply Ok_inj in H as <-.
  - destruct s as [a sig x5c has]. cbn [ps_algorithm ps_signature ps_x5c ps_hasX5C].
    intros (Hk & Ha & Hs & Hx). rewrite (proj2 (Z.eqb_neq _ _)); cycle 1.
    { unfold map_len, AttestationStatement in *. intros H0. destruct Ha as (_ & kind & Ha & _).
      apply AttStmt.field_present in Ha as [v Hv]; [|done]. assert (size st = 0%nat) as Hz by lia.
      apply map_size_empty_inv in Hz. subst st. discriminate Hv. }
    run. rewrite (proj2 (AttStmt.known_fields_Ok _ _ _ ()) Hk). run.
    rewrite (proj2 (AttStmt.Algorithm_Ok _ _ _) Ha). run. rewrite (proj2 (AttStmt.Bytes_Ok _ _ _) Hs). run.
    destruct has.
    + destruct Hx as (v & -> & Hv). by rewrite (proj2 (AttStmt.X5C_Ok _ _ _) Hv).
    + destruct Hx as [-> ->]. done.
Qed.

(** What packed attestation accepts, and with which result. *)
Definition packed_verified (verifier : SignatureVerifier) (ctx : context) (request : VerificationRequest)
    (r : VerificationResult) : Prop :=
  let st := vq_Statement request in
  let key := vq_CredentialPublicKey request in
  let signed := slice_list (bv_value (vq_AuthenticatorData request)) ++ vq_ClientDataHash request in
  vq_Format request = "packed" ∧
  bv_len (vq_AuthenticatorData request) ≠ 0 ∧ vq_ClientDataHash request ≠ [] ∧
  (∀ field, is_Some (st !! field) → field ∈ ["alg"; "sig"; "x5c"]) ∧
  ∃ algorithm signature,
    AttStmt.is_algorithm (AttStmt.field st "alg") algorithm ∧ AttStmt.is_bytes (AttStmt.field st "sig") signature ∧
    ( (* self attestation: signed with the credential key *)
     (st !! "x5c" = None ∧ algorithm = pk_Algorithm key ∧
      AttCrypto.accepts ctx verifier algorithm (pk_material key) (pk_raw key) signed signature ∧
      r = mkVR TypeSelf (mkTrustPath TrustPathNone [] None None) true [] EvNil)
     ∨ (* signed with the key of an attestation certificate *)
     ∃ v x5c leaf parsed attested material,
       st !! "x5c" = Some v ∧ AttStmt.is_chain v x5c ∧ chain_leaf x5c leaf ∧
       ParseAuthenticatorData (vq_AuthenticatorData request) = Ok parsed ∧ pad_Attested parsed = Some attested ∧
       packed_profile leaf (acd_AAGUID attested) (vq_ConveyancePreference request) ∧
       X509Util.PublicKeyMaterial (xc_PublicKey leaf) = Some material ∧
       AttCrypto.accepts ctx verifier algorithm material [] signed signature ∧
       r = x509_result TypeUncertain x5c).

Lemma verifySelf_Ok verifier ctx request s signed r :
  verifySelf verifier ctx request s signed = Ok r ↔
  ps_algorithm s = pk_Algorithm (vq_CredentialPublicKey request) ∧
  AttCrypto.accepts ctx verifier (ps_algorithm s) (pk_material (vq_CredentialPublicKey request))
    (pk_raw (vq_CredentialPublicKey request)) signed (ps_signature s) ∧
  r = mkVR TypeSelf (mkTrustPath TrustPathNone [] None None) true [] EvNil.
Proof.
  unfold verifySelf, verifySignature, Types.PublicKeyMaterial, Raw. rewrite CredentialPublicKeyMaterial_clone_id. split.
  - intros H. apply bind_Ok in H as ([] & H1%fail_if_Ok & H).
    apply bind_Ok in H as ([] & H2%AttCrypto.VerifySignature_Ok & [= <-]). by guards in H1.
  - intros (-> & H & ->). rewrite Z.eqb_refl. run. by rewrite (proj2 (AttCrypto.VerifySignature_Ok _ _ _ _ _ _ _ _ _ ()) H).
Qed.

Lemma verifyX5C_Ok verifier ctx request s signed r :
  verifyX5C verifier ctx request s signed = Ok r ↔
  ∃ leaf parsed attested material,
    chain_leaf (ps_x5c s) leaf ∧
    ParseAuthenticatorData (vq_AuthenticatorData request) = Ok parsed ∧ pad_Attested parsed = Some attested ∧
    packed_profile leaf (acd_AAGUID attested) (vq_ConveyancePreference request) ∧
    X509Util.PublicKeyMaterial (xc_PublicKey leaf) = Some material ∧
    AttCrypto.accepts ctx verifier (ps_algorithm s) material [] signed (ps_signature s) ∧
    r = x509_result TypeUncertain (ps_x5c s).
Proof.
  unfold verifyX5C, verifySignature. split.
  - intros H. apply bind_Ok in H as (parsed & Hp%wrap_err_Ok & H). apply bind_Ok in H as (attested & Ha%of_option_Ok & H).
    apply bind_Ok in H as ([chain certs] & Hc & H). apply bind_Ok in H as (leaf & Hl & H).
    destruct (proj1 (chain_leaf_Ok _ _ _ _) (ex_intro _ certs (conj Hc Hl))) as [-> Hleaf].
    apply bind_Ok in H as ([] & Hv%validatePackedCertificate_Ok & H).
    apply bind_Ok in H as (m & Hm%of_option_Ok & H).
    apply bind_Ok in H as ([] & Hs%AttCrypto.VerifySignature_Ok & [= <-]). by exists leaf, parsed, attested, m.
  - intros (leaf & parsed & attested & m & Hleaf & -> & Ha & Hv & Hm & Hs & ->). run. rewrite Ha. run.
    destruct (proj2 (chain_leaf_Ok _ ErrInvalidStatement _ _) (conj eq_refl Hleaf)) as (certs & -> & Hl). run. rewrite Hl. run.
    rewrite (proj2 (validatePackedCertificate_Ok _ _ _ ()) Hv). run. rewrite Hm. run.
    by rewrite (proj2 (AttCrypto.VerifySignature_Ok _ _ _ _ _ _ _ _ _ ()) Hs).
Qed.

Lemma packed_VerifyAttestation_Ok verifier ctx request r :
  VerifyAttestation verifier ctx request = Ok r ↔ packed_verified verifier ctx request r.
Proof.
  unfold VerifyAttestation, packed_verified. split.
  - intros H. apply bind_Ok in H as ([] & H1%fail_if_Ok & H). apply bind_Ok in H as (s & Hs & H).
    rewrite parseStatement_Ok in Hs. destruct Hs as (Hk & Ha & Hb & Hx).
    apply bind_Ok in H as ([] & H2%fail_if_Ok & H). guards in H1. guards in H2. destruct H1 as [-> _], H2 as [H2 H3].
    split_and!; try done; [by intros E; rewrite E in H3|]. exists (ps_algorithm s), (ps_signature s). split_and!; try done.
    destruct (ps_hasX5C s).
    + right. destruct Hx as (v & Hv & Hc). apply verifyX5C_Ok in H as (leaf & parsed & attested & m & H).
      exists v, (ps_x5c s), leaf, parsed, attested, m. tauto.
    + left. apply verifySelf_Ok in H. tauto.
  - intros (-> & Hne & Hh & Hk & a & sig & Ha & Hs & Hor). rewrite (bool_decide_eq_true_2 (_ = format)) by done.
    assert (IsNil verifier = false) as ->.
    { destruct Hor as [(_ & _ & (_ & ? & -> & _) & _)|(? & ? & ? & ? & ? & ? & _ & _ & _ & _ & _ & _ & _ & (_ & ? & -> & _) & _)]; done. }
    run. destruct Hor as [(Hx & -> & Hv & ->)|(v & x5c & leaf & parsed & attested & m & Hx & Hc & Hrest)].
    + rewrite (proj2 (parseStatement_Ok _ (mkPacked _ sig [] false))) by done. run.
      rewrite (proj2 (Z.eqb_neq _ _)), bool_decide_eq_false_2 by (done || by destruct (vq_ClientDataHash request)). run.
      cbn [ps_hasX5C]. by apply verifySelf_Ok.
    + rewrite (proj2 (parseStatement_Ok _ (mkPacked a sig x5c true))) by (split_and!; [done..|by exists v]). run.
      rewrite (proj2 (Z.eqb_neq _ _)), bool_decide_eq_false_2 by (done || by destruct (vq_ClientDataHash request)). run.
      cbn [ps_hasX5C]. apply verifyX5C_Ok. by exists leaf, parsed, attested, m.
Qed.
End PackedLemmas.

Section U2FLemmas.
Import FidoU2F X509Util.
Context {Ord : MapOrder} {X : X509}.

(** What fido-u2f attestation accepts: a P-256 certificate key signed the U2F
    registration message of this credential. *)
Definition u2f_verified (verifier : SignatureVerifier) (ctx : context) (request : VerificationRequest)
    (r : VerificationResult) : Prop :=
  let st := vq_Statement request in
  let key := vq_CredentialPublicKey request in
  vq_Format request = "fido-u2f" ∧ length (vq_ClientDataHash request) = 32%nat ∧
  AttStmt.fields_are ["x5c"; "sig"] st ∧
  ∃ raw signature kx ky parsed attested certificate x y,
    AttStmt.is_chain (AttStmt.field st "x5c") [raw] ∧ AttStmt.is_bytes (AttStmt.field st "sig") signature ∧
    pk_Algorithm key = AlgorithmES256 ∧ mat_EC2 (pk_material key) = Some (mkEC2 EC2CurveP256 kx ky) ∧
    length kx = 32%nat ∧ length ky = 32%nat ∧
    ParseAuthenticatorData (vq_AuthenticatorData request) = Ok parsed ∧ pad_Attested parsed = Some attested ∧
    x509_ParseCertificate raw = Ok certificate ∧
    xc_PublicKey certificate = KeyECDSA (Some (mkECDSA (Some P256) (Some x) (Some y))) ∧ on_curve P256 x y = true ∧
    AttCrypto.accepts ctx verifier AlgorithmES256 (mkMaterial (Some (ec_material P256 x y)) None None) []
      (x00 :: RPIDHash parsed ++ vq_ClientDataHash request ++ slice_list (bv_value (acd_CredentialID attested))
         ++ x04 :: kx ++ ky) signature ∧
    r = x509_result TypeUncertain [raw].

Lemma u2f_parseStatement_Ok st s :
  parseStatement st = Ok s ↔
  AttStmt.fields_are ["x5c"; "sig"] st ∧ AttStmt.is_chain (AttStmt.field st "x5c") [us_x5c s] ∧
  AttStmt.is_bytes (AttStmt.field st "sig") (us_signature s).
Proof.
  unfold parseStatement. split.
  - intros H. apply bind_Ok in H as ([] & _ & H). apply bind_Ok in H as ([] & Hk & H).
    rewrite AttStmt.known_fields_Ok in Hk. apply bind_Ok in H as (raw & Hx%AttStmt.SingleX5C_Ok & H).
    apply bind_Ok in H as (sig & Hs%AttStmt.Bytes_Ok & [= <-]). split_and!; try done.
    apply (AttStmt.fields_present _ _ ["x5c"; "sig"]); try done.
    repeat constructor; [destruct Hx as (? & _ & -> & _)|destruct Hs as [-> _]]; done.
  - intros (Hf & Hx & Hs). rewrite (AttStmt.fields_are_size ["x5c"; "sig"] st) by (done || (repeat constructor; set_solver)).
    change (Z.of_nat (length ["x5c"; "sig"]) =? 2) with true. run.
    rewrite (proj2 (AttStmt.known_fields_Ok _ _ _ ())) by (intros key; apply Hf). run.
    rewrite (proj2 (AttStmt.SingleX5C_Ok _ _ _) Hx). run. rewrite (proj2 (AttStmt.Bytes_Ok _ _ _) Hs). run.
    by destruct s.
Qed.

(** The U2F form of a key: the uncompressed point of an ES256 key. *)
Lemma u2f_key k :
  pk_Algorithm k = AlgorithmES256 →
  (Z.of_nat (length (slice_list (U2FPublicKey k))) = 65 ∧ head (slice_list (U2FPublicKey k)) = Some x04 ↔
   ∃ kx ky, mat_EC2 (pk_material k) = Some (mkEC2 EC2CurveP256 kx ky) ∧ length kx = 32%nat ∧ length ky = 32%nat ∧
            U2FPublicKey k = Some (x04 :: kx ++ ky)).
Proof.
  intros Ha. unfold U2FPublicKey. rewrite Ha, Z.eqb_refl. destruct (mat_EC2 (pk_material k)) as [[c X0 Y0]|].
  - cbn [ec2_Curve ec2_X ec2_Y]. split.
    + destruct (negb _ || _ || _ || _) eqn:E; [by intros [? _]|]. guards in E. destruct E as (((_ & ->) & HX) & HY).
      intros _. exists X0, Y0. split_and!; [done|lia|lia|done].
    + intros (kx & ky & [= -> -> ->] & Hx & Hy & E). rewrite E. cbn [slice_list length default from_option head id].
      rewrite length_app, Hx, Hy. done.
  - split; [by intros [? _]|]. by intros (? & ? & ? & _).
Qed.

Lemma u2f_certificate_key certificate m :
  (∃ k, (match xc_PublicKey certificate with
         | KeyECDSA k => _ ← fail_if (negb (isP256 k)) ErrUnsupportedKey; Ok k
         | _ => Err ErrUnsupportedKey
         end) = Ok k ∧ X509Util.PublicKeyMaterial (KeyECDSA k) = Some m) ↔
  ∃ x y, xc_PublicKey certificate = KeyECDSA (Some (mkECDSA (Some P256) (Some x) (Some y))) ∧ on_curve P256 x y = true ∧
         m = mkMaterial (Some (ec_material P256 x y)) None None.
Proof.
  split.
  - intros (k & Hk & (c & x & y & -> & Hc & Hon & ->)%PublicKeyMaterial_ec). destruct (xc_PublicKey certificate); try done.
    apply bind_Ok in Hk as ([] & Hi%fail_if_Ok & [= ->]). unfold isP256 in Hi. guards in Hi.
    assert (c = P256) as -> by (destruct c; done). by exists x, y.
  - intros (x & y & -> & Hon & ->). eexists. split; [done|]. apply PublicKeyMaterial_ec. by exists P256, x, y.
Qed.

Lemma u2fVerificationData_spec h c id k :
  u2fVerificationData h c id k = x00 :: h ++ c ++ slice_list (bv_value id) ++ k.
Proof. unfold u2fVerificationData, bv_appendTo. cbn [app]. by rewrite <-!app_assoc. Qed.

Lemma u2f_VerifyAttestation_Ok verifier ctx request r :
  VerifyAttestation verifier ctx request = Ok r ↔ u2f_verified verifier ctx request r.
Proof.
  unfold VerifyAttestation, u2f_verified, verifySignature, parseCertificate, algorithmES256. split.
  - intros H. apply bind_Ok in H as ([] & H1%fail_if_Ok & H). apply bind_Ok in H as ([raw sig] & (Hf & Hx & Hs)%u2f_parseStatement_Ok & H).
    apply bind_Ok in H as ([] & Ha%fail_if_Ok & H). apply bind_Ok in H as ([] & Hk%fail_if_Ok & H).
    apply bind_Ok in H as ([] & Hh%fail_if_Ok & H). apply bind_Ok in H as (parsed & Hp%wrap_err_Ok & H).
    apply bind_Ok in H as (attested & Hat%of_option_Ok & H). apply bind_Ok in H as ([chain c] & Hc & H).
    apply bind_Ok in Hc as (c' & Hc%wrap_err_Ok & [= <- <-]). apply bind_Ok in H as (k & Hck & H).
    apply bind_Ok in H as (m & Hm%of_option_Ok & H). apply bind_Ok in H as ([] & Hsig%AttCrypto.VerifySignature_Ok & [= <-]).
    guards in H1. guards in Ha. guards in Hk. guards in Hh. destruct H1 as [-> _].
    apply (u2f_key _ Ha) in Hk as (kx & ky & Hec & Hkx & Hky & Hu).
    destruct (proj1 (u2f_certificate_key c' m) (ex_intro _ k (conj Hck Hm))) as (x & y & Hpk & Hon & ->).
    split_and!; [done|lia|done|]. exists raw, sig, kx, ky, parsed, attested, c', x, y.
    rewrite Hu, u2fVerificationData_spec in Hsig. split_and!; done.
  - intros (-> & Hh & Hf & raw & sig & kx & ky & parsed & attested & c & x & y & Hx & Hs & Ha & Hec & Hkx & Hky & -> & Hat & Hc & Hpk & Hon & Hsig & ->).
    rewrite (bool_decide_eq_true_2 (_ = format)) by done. assert (IsNil verifier = false) as -> by (by destruct Hsig as (_ & ? & -> & _)). run.
    rewrite (proj2 (u2f_parseStatement_Ok _ (mkU2F raw sig))) by done. run. rewrite Ha. change (AlgorithmES256 =? -7) with true. run.
    assert (U2FPublicKey (vq_CredentialPublicKey request) = Some (x04 :: kx ++ ky)) as ->.
    { unfold U2FPublicKey. rewrite Hec, Ha. cbn [ec2_Curve ec2_X ec2_Y]. by rewrite Hkx, Hky, bool_decide_eq_true_2 by done. }
    cbn [slice_list default from_option id length head]. rewrite length_app, Hkx, Hky, (bool_decide_eq_true_2 (Some x04 = _)) by done.
    change (Z.of_nat (S (32 + 32)) =? 65) with true. run. rewrite Hh. change (Z.of_nat 32 =? 32) with true. run.
    rewrite Hat. run. cbn [us_x5c us_signature]. rewrite Hc. run.
    destruct (proj2 (u2f_certificate_key c _) (ex_intro _ x (ex_intro _ y (conj Hpk (conj Hon eq_refl))))) as (k & -> & Hm).
    run. rewrite Hm. run. rewrite u2fVerificationData_spec.
    by rewrite (proj2 (AttCrypto.VerifySignature_Ok _ _ _ _ _ _ _ _ _ ()) Hsig).
Qed.
End U2FLemmas.

Section AppleLemmas.
Import Apple X509Util.
Context {Ord : MapOrder} {X : X509}.

(** The extension holds exactly this nonce, in an explicitly tagged field. *)
Definition apple_nonce (certificate : x509_Certificate) (nonce : list byte) : Prop :=
  ∃ extension sequence explicit,
    FindExtension certificate oidExtensionAppleAnonymousAttestationNonce = Some extension ∧
    unmarshal_raw (xe_Value extension) = Ok (sequence, []) ∧ is_universal TagSequence sequence = true ∧
    unmarshal_raw (Bytes sequence) = Ok (explicit, []) ∧
    Class explicit = ClassContextSpecific ∧ Tag explicit = 1 ∧ IsCompound explicit = true ∧
    unmarshal_bytes (Bytes explicit) = Ok (nonce, []).

(** What apple attestation accepts: the leaf certificate was issued for this
    credential key and this ceremony. *)
Definition apple_verified (request : VerificationRequest) (r : VerificationResult) : Prop :=
  let st := vq_Statement request in
  vq_Format request = "apple" ∧
  bv_len (vq_AuthenticatorData request) ≠ 0 ∧ vq_ClientDataHash request ≠ [] ∧
  AttStmt.fields_are ["x5c"] st ∧
  ∃ x5c leaf,
    AttStmt.is_chain (AttStmt.field st "x5c") x5c ∧ chain_leaf x5c leaf ∧
    apple_nonce leaf (Sum256 (slice_list (bv_value (vq_AuthenticatorData request)) ++ vq_ClientDataHash request)) ∧
    key_matches (xc_PublicKey leaf) (pk_material (vq_CredentialPublicKey request)) ∧
    r = x509_result TypeAnonymizationCA x5c.

Lemma validateNonceExtension_Ok c expected u :
  length expected = 32%nat → (validateNonceExtension c expected = Ok u ↔ apple_nonce c expected).
Proof.
  destruct u. intros Hlen. unfold validateNonceExtension, apple_nonce. split.
  - intros H. apply bind_Ok in H as (x & Hx%of_option_Ok & H). apply bind_Ok in H as ([s r1] & Hs%or_err_Ok & H).
    apply bind_Ok in H as ([] & H1%fail_if_Ok & H). apply bind_Ok in H as ([n r2] & Hn%or_err_Ok & H).
    apply bind_Ok in H as ([] & H2%fail_if_Ok & H). apply bind_Ok in H as ([b r3] & Hb%or_err_Ok & H).
    apply bind_Ok in H as ([] & H3%fail_if_Ok & H4%fail_if_Ok). guards in H1. guards in H2. guards in H3. guards in H4.
    destruct H1 as [E1%nil_length_inv ?], H2 as [[[E2%nil_length_inv ?] ?] ?], H3 as [E3%nil_length_inv ?].
    subst. by exists x, s, n.
  - intros (x & s & n & -> & Hs & Hu & Hn & Hc & Ht & Hk & Hb). run. rewrite Hs. run.
    rewrite bool_decide_eq_true_2, Hu by done. run. rewrite Hn. run. rewrite bool_decide_eq_true_2 by done.
    rewrite Hc, Ht, Hk. change (ClassContextSpecific =? ClassContextSpecific) with true. change (1 =? 1) with true. run.
    rewrite Hb. run. rewrite (bool_decide_eq_true_2 (length [] = _)), Hlen by done. change (Z.of_nat 32 =? 32) with true. run.
    by rewrite bool_decide_eq_true_2.
Qed.

Lemma apple_parseStatement_Ok st x5c :
  parseStatement st = Ok x5c ↔ AttStmt.fields_are ["x5c"] st ∧ AttStmt.is_chain (AttStmt.field st "x5c") x5c.
Proof.
  unfold parseStatement. split.
  - intros H. apply bind_Ok in H as ([] & _ & H). apply bind_Ok in H as ([] & Hk & Hx%AttStmt.X5C_Ok).
    rewrite AttStmt.known_fields_Ok in Hk. split; [|done].
    apply (AttStmt.fields_present _ _ ["x5c"]); try done. repeat constructor. by destruct Hx as (? & _ & -> & _).
  - intros (Hf & Hx). rewrite (AttStmt.fields_are_size ["x5c"] st) by (done || (repeat constructor; set_solver)).
    change (Z.of_nat (length ["x5c"]) =? 1) with true. run.
    rewrite (proj2 (AttStmt.known_fields_Ok _ _ _ ())) by (intros key; apply Hf). run. by apply AttStmt.X5C_Ok.
Qed.

Lemma apple_VerifyAttestation_Ok ctx request r :
  VerifyAttestation ctx request = Ok r ↔ apple_verified request r.
Proof.
  unfold VerifyAttestation, apple_verified, expectedNonce, AttCrypto.SignedData, bv_appendTo. cbn [app].
  unfold Types.PublicKeyMaterial. rewrite CredentialPublicKeyMaterial_clone_id.
  set (h := Sum256 _). assert (length h = 32%nat) as Hlen by apply length_Sum256. clearbody h. split.
  - intros H. apply bind_Ok in H as ([] & H1%fail_if_Ok & H). apply bind_Ok in H as (x5c & [Hf Hx]%apple_parseStatement_Ok & H).
    apply bind_Ok in H as ([] & H2%fail_if_Ok & H). apply bind_Ok in H as ([chain certs] & Hc & H).
    apply bind_Ok in H as (leaf & Hl & H).
    destruct (proj1 (chain_leaf_Ok _ _ _ _) (ex_intro _ certs (conj Hc Hl))) as [-> Hleaf].
    apply bind_Ok in H as ([] & Hn & H). apply (validateNonceExtension_Ok _ _ _ Hlen) in Hn.
    apply bind_Ok in H as ([] & Hk%ValidatePublicKey_Ok & [= <-]). guards in H1. guards in H2. destruct H2 as [H2 H3].
    split_and!; try done; [by intros E; rewrite E in H3|]. by exists x5c, leaf.
  - intros (-> & Hne & Hh & Hf & x5c & leaf & Hx & Hleaf & Hn & Hk & ->).
    rewrite (bool_decide_eq_true_2 (_ = format)) by done. run.
    rewrite (proj2 (apple_parseStatement_Ok _ x5c)) by done. run.
    rewrite (proj2 (Z.eqb_neq _ _)), bool_decide_eq_false_2 by (done || by destruct (vq_ClientDataHash request)). run.
    destruct (proj2 (chain_leaf_Ok _ ErrInvalidStatement _ _) (conj eq_refl Hleaf)) as (certs & -> & Hl). run. rewrite Hl. run.
    rewrite (proj2 (validateNonceExtension_Ok _ _ () Hlen) Hn). run. by rewrite (proj2 (ValidatePublicKey_Ok _ _ _ _ ()) Hk).
Qed.
End AppleLemmas.

(** ** Properties *)

(** C22: packed attestation is accepted exactly when the statement has only the
    fields alg, sig and optionally x5c, and the signature over the authenticator
    data and the client data hash was accepted by the verifier for the
    credential's own key and algorithm (self attestation), or for the key of a
    leaf certificate that meets the packed profile and names the
    authenticator's AAGUID if it names any; the result is of the matching type
    and trust path. *)
Theorem packed_attestation_exact {Ord : MapOrder} {X : X509} (verifier : SignatureVerifier) (ctx : context)
    (request : VerificationRequest) (r : VerificationResult) :
  Packed.VerifyAttestation verifier ctx request = Ok r ↔ packed_verified verifier ctx request r.
Proof. apply packed_VerifyAttestation_Ok. Qed.

(** Fido-u2f attestation is accepted exactly when the statement is one
    certificate and a signature, the credential key is a P-256 point, and the
    certificate's P-256 key signed the U2F registration message: a zero byte,
    the RP ID hash, the client data hash, the credential ID and the
    uncompressed credential key. *)
Theorem u2f_attestation_exact {Ord : MapOrder} {X : X509} (verifier : SignatureVerifier) (ctx : context)
    (request : VerificationRequest) (r : VerificationResult) :
  FidoU2F.VerifyAttestation verifier ctx request = Ok r ↔ u2f_verified verifier ctx request r.
Proof. apply u2f_VerifyAttestation_Ok. Qed.

(** Apple attestation is accepted exactly when the statement is a chain
    whose leaf certificate carries the SHA-256 hash of authenticator data and
    client data hash as its nonce and has the credential key as its key. *)
Theorem apple_attestation_exact {Ord : MapOrder} {X : X509} (ctx : context)
    (request : VerificationRequest) (r : VerificationResult) :
  Apple.VerifyAttestation ctx request = Ok r ↔ apple_verified request r.
Proof. apply apple_VerifyAttestation_Ok. Qed.

(** A self attestation that is accepted. *)
Definition no_certificates : X509 := {| x509_ParseCertificate := λ _, Err SyntaxError |}.
Definition sample_self : VerificationRequest :=
  mkVerificationRequest "packed" "direct" (mkByteValue (Some [x01])) [x02]
    {[ "alg" := SValue (VInt "int64" (-7)); "sig" := SValue (VBytes (Some [x03])) ]}
    (mkPublicKey AlgorithmES256 [x04] (mkMaterial None None None)) zeroByteValue.

Example packed_self_accepted :
  @Packed.VerifyAttestation default_order no_certificates
    (Iface (λ _ input, fail_if (negb (bool_decide (si_Signed input = [x01; x02]))) SyntaxError)) background sample_self
  = Ok (mkVR TypeSelf (mkTrustPath TrustPathNone [] None None) true [] EvNil).
Proof. by vm_compute. Qed.
