(* ===== verification/AndroidKey.v ===== *)
(** * The attestation format android-key

    Models [src/attestation/androidkey/]: the statement, the DER key description
    of the certificate extension and the policy on its authorization lists. *)
From S2P Require Import Prelude GoStrings AuthData ExtValue Types Attestation Asn1 X509 Formats.
Import X509Util.
Set Default Goal Selector "!".
Local Open Scope Z_scope.

Module AndroidKey.
Definition format : string := "android-key".
Definition ErrInvalidStatement : error := Sentinel "androidkey.ErrInvalidStatement".
Definition ErrUnsupportedKey : error := Sentinel "androidkey.ErrUnsupportedKey".
Definition ErrPublicKeyMismatch : error := Sentinel "androidkey.ErrPublicKeyMismatch".
Definition ErrInvalidSignature : error := Sentinel "androidkey.ErrInvalidSignature".
Definition ErrInvalidExtension : error := Sentinel "androidkey.ErrInvalidExtension".
Definition ErrCertificateRequirements : error := Sentinel "androidkey.ErrCertificateRequirements".

Definition androidKeyPurposeSign : Z := 2.
Definition androidKeyOriginGenerated : Z := 0.
Definition androidSecurityLevelSoftware : Z := 0.
Definition androidSecurityLevelTEE : Z := 1.
Definition androidSecurityLevelStrongBox : Z := 2.
Definition androidTagPurpose : Z := 1.
Definition androidTagAllApplications : Z := 600.
Definition androidTagOrigin : Z := 702.
(** [oidExtensionAndroidKeyAttestation] *)
Definition oidExtensionAndroidKeyAttestation : ObjectIdentifier := [1; 3; 6; 1; 4; 1; 11129; 2; 1; 17].

Record androidAuthorizationList := mkAuthorizations {
  al_purposes : list Z; al_origins : list Z; al_allApplications : bool }.

Record androidKeyDescription := mkDescription {
  kd_attestationSecurityLevel : Z;
  kd_keymasterSecurityLevel : Z;
  kd_attestationChallenge : list byte;
  kd_softwareEnforced : androidAuthorizationList;
  kd_hardwareEnforced : androidAuthorizationList;
}.

Record Policy := mkPolicy { RequireHardwareEnforced : bool }.

(** ** DER *)

Definition no_rest (e : error) (rest : list byte) : result () := fail_if (negb (bool_decide (length rest = 0%nat))) e.

Definition parseASN1Items (data : list byte) : result (list RawValue) :=
  asn1_items (ErrorWrap ErrInvalidExtension) ErrInvalidExtension (length data) data.

Definition parseSequenceValue (raw : RawValue) : result (list RawValue) :=
  _ ← fail_if (negb (is_universal TagSequence raw)) ErrInvalidExtension;
  parseASN1Items (Bytes raw).

Definition parseSequence (raw : list byte) : result (list RawValue) :=
  '(outer, rest) ← wrap_err ErrInvalidExtension (unmarshal_raw raw);
  _ ← no_rest ErrInvalidExtension rest;
  parseSequenceValue outer.

Definition parseOctetString (raw : RawValue) : result (list byte) :=
  '(out, rest) ← wrap_err ErrInvalidExtension (unmarshal_bytes (FullBytes raw));
  _ ← no_rest ErrInvalidExtension rest;
  Ok out.

Definition parseInteger (raw : RawValue) : result Z :=
  '(out, rest) ← wrap_err ErrInvalidExtension (unmarshal_int (FullBytes raw));
  _ ← no_rest ErrInvalidExtension rest;
  Ok out.

Definition parseSecurityLevel (raw : RawValue) : result Z :=
  '(out, rest) ← or_err ErrInvalidExtension (unmarshal_enum (FullBytes raw));
  _ ← no_rest ErrInvalidExtension rest;
  _ ← fail_if (negb (out =? androidSecurityLevelSoftware) && negb (out =? androidSecurityLevelTEE)
               && negb (out =? androidSecurityLevelStrongBox)) ErrInvalidExtension;
  Ok out.

Definition explicit_field (raw : RawValue) : bool := (Class raw =? ClassContextSpecific) && IsCompound raw.

Definition parseExplicitInt (raw : RawValue) : result Z :=
  _ ← fail_if (negb (explicit_field raw)) ErrInvalidExtension;
  '(out, rest) ← wrap_err ErrInvalidExtension (unmarshal_int (Bytes raw));
  _ ← no_rest ErrInvalidExtension rest;
  Ok out.

Definition parseExplicitIntSet (raw : RawValue) : result (list Z) :=
  _ ← fail_if (negb (explicit_field raw)) ErrInvalidExtension;
  '(set, rest) ← wrap_err ErrInvalidExtension (unmarshal_raw (Bytes raw));
  _ ← fail_if (negb (bool_decide (length rest = 0%nat)) || negb (is_universal TagSet set)) ErrInvalidExtension;
  items ← parseASN1Items (Bytes set);
  map_res parseInteger items.

Definition parseExplicitNull (raw : RawValue) : result () :=
  _ ← fail_if (negb (explicit_field raw)) ErrInvalidExtension;
  '(nullValue, rest) ← wrap_err ErrInvalidExtension (unmarshal_raw (Bytes raw));
  fail_if (negb (bool_decide (length rest = 0%nat)) || negb (Class nullValue =? ClassUniversal)
           || negb (Tag nullValue =? 5) || IsCompound nullValue
           || negb (bool_decide (length (Bytes nullValue) = 0%nat))) ErrInvalidExtension.

(** ** The key description *)

(** The body of the loop over the fields of an authorization list. *)
Definition authorization_field (acc : androidAuthorizationList) (field : RawValue) : result androidAuthorizationList :=
  '(_, rest) ← or_err ErrInvalidExtension (unmarshal_raw (Bytes field));
  _ ← no_rest ErrInvalidExtension rest;
  if Tag field =? androidTagPurpose then
    purposes ← parseExplicitIntSet field;
    Ok (mkAuthorizations (al_purposes acc ++ purposes) (al_origins acc) (al_allApplications acc))
  else if Tag field =? androidTagAllApplications then
    _ ← parseExplicitNull field;
    Ok (mkAuthorizations (al_purposes acc) (al_origins acc) true)
  else if Tag field =? androidTagOrigin then
    origin ← parseExplicitInt field;
    Ok (mkAuthorizations (al_purposes acc) (al_origins acc ++ [origin]) (al_allApplications acc))
  else Ok acc.

Fixpoint authorization_loop (seen : list Z) (acc : androidAuthorizationList) (fields : list RawValue) :
    result androidAuthorizationList :=
  match fields with
  | [] => Ok acc
  | field :: fields =>
      _ ← fail_if (negb (explicit_field field) || bool_decide (Tag field ∈ seen)) ErrInvalidExtension;
      acc ← authorization_field acc field;
      authorization_loop (Tag field :: seen) acc fields
  end.

Definition parseAuthorizationList (raw : RawValue) : result androidAuthorizationList :=
  fields ← parseSequenceValue raw;
  authorization_loop [] (mkAuthorizations [] [] false) fields.

Definition parseAndroidKeyDescription (raw : list byte) : result androidKeyDescription :=
  fields ← parseSequence raw;
  match fields with
  | [f0; f1; f2; f3; f4; f5; f6; f7] =>
      _ ← parseInteger f0;
      _ ← parseInteger f2;
      _ ← parseOctetString f5;
      challenge ← parseOctetString f4;
      softwareEnforced ← parseAuthorizationList f6;
      hardwareEnforced ← parseAuthorizationList f7;
      attestationSecurityLevel ← parseSecurityLevel f1;
      keymasterSecurityLevel ← parseSecurityLevel f3;
      Ok (mkDescription attestationSecurityLevel keymasterSecurityLevel challenge softwareEnforced hardwareEnforced)
  | _ => Err ErrInvalidExtension
  end.

(** The maps [origins] and [purposes] are used as sets. *)
Definition authorizationListsExactlyMatchWebAuthn (lists : list androidAuthorizationList) : bool :=
  let origins : gset Z := list_to_set (concat (al_origins <$> lists)) in
  let purposes : gset Z := list_to_set (concat (al_purposes <$> lists)) in
  bool_decide (androidKeyOriginGenerated ∈ origins) && bool_decide (androidKeyPurposeSign ∈ purposes)
  && (size origins =? 1)%nat && (size purposes =? 1)%nat.

Definition hardwareSecurityLevel (level : Z) : bool :=
  (level =? androidSecurityLevelTEE) || (level =? androidSecurityLevelStrongBox).

Definition validateAndroidKeyExtension (raw clientDataHash : list byte) (policy : Policy) : result () :=
  description ← parseAndroidKeyDescription raw;
  _ ← fail_if (negb (bool_decide (kd_attestationChallenge description = clientDataHash))) ErrCertificateRequirements;
  _ ← fail_if (al_allApplications (kd_softwareEnforced description) || al_allApplications (kd_hardwareEnforced description))
        ErrCertificateRequirements;
  _ ← fail_if (RequireHardwareEnforced policy
               && (negb (hardwareSecurityLevel (kd_attestationSecurityLevel description))
                   || negb (hardwareSecurityLevel (kd_keymasterSecurityLevel description)))) ErrCertificateRequirements;
  let selected := if RequireHardwareEnforced policy then [kd_hardwareEnforced description]
                  else [kd_softwareEnforced description; kd_hardwareEnforced description] in
  fail_if (negb (authorizationListsExactlyMatchWebAuthn selected)) ErrCertificateRequirements.

(** ** The verifier *)

Record androidKeyStatement := mkStatement { ks_algorithm : Z; ks_signature : list byte; ks_x5c : list (list byte) }.

Definition parseStatement {Ord : MapOrder} (statement : AttestationStatement) : result androidKeyStatement :=
  _ ← fail_if (negb (map_len statement =? 3)) ErrInvalidStatement;
  _ ← AttStmt.known_fields ["alg"; "sig"; "x5c"] statement ErrInvalidStatement;
  algorithm ← AttStmt.Algorithm (AttStmt.field statement "alg") ErrInvalidStatement;
  signature ← AttStmt.Bytes (AttStmt.field statement "sig") ErrInvalidStatement;
  x5c ← AttStmt.X5C (AttStmt.field statement "x5c") ErrInvalidStatement;
  Ok (mkStatement algorithm signature x5c).

Section Verify.
Context {Ord : MapOrder} {X : X509} (signatureVerifier : SignatureVerifier) (policy : Policy).

Definition VerifyAttestation (ctx : context) (request : VerificationRequest) : result VerificationResult :=
  _ ← fail_if (negb (bool_decide (vq_Format request = format)) || IsNil signatureVerifier) ErrInvalidStatement;
  statement ← parseStatement (vq_Statement request);
  _ ← fail_if ((bv_len (vq_AuthenticatorData request) =? 0) || bool_decide (length (vq_ClientDataHash request) = 0%nat))
        ErrInvalidStatement;
  '(chain, certificates) ← ParseCertificateChain (ks_x5c statement) ErrInvalidStatement;
  leaf ← leaf_of certificates;
  _ ← ValidatePublicKey (xc_PublicKey leaf) (Types.PublicKeyMaterial (vq_CredentialPublicKey request))
        ErrUnsupportedKey ErrPublicKeyMismatch;
  extension ← of_option ErrCertificateRequirements (FindExtension leaf oidExtensionAndroidKeyAttestation);
  _ ← validateAndroidKeyExtension (xe_Value extension) (vq_ClientDataHash request) policy;
  leafMaterial ← of_option ErrUnsupportedKey (X509Util.PublicKeyMaterial (xc_PublicKey leaf));
  _ ← AttCrypto.VerifySignature ctx signatureVerifier (ks_algorithm statement) leafMaterial []
        (AttCrypto.SignedData (vq_AuthenticatorData request) (vq_ClientDataHash request)) (ks_signature statement)
        ErrInvalidSignature ErrInvalidSignature;
  Ok (x509_result TypeBasic chain).

Definition New : Verifier := mkVerifier format VerifyAttestation.
End Verify.
End AndroidKey.

(** ** Specification and lemmas *)
Section Lemmas.
Import AndroidKey.
Context {Ord : MapOrder} {X : X509}.

(** Every element is [z], and there is one. *)
Definition exactly (z : Z) (l : list Z) : Prop := l ≠ [] ∧ Forall (λ y, y = z) l.

Lemma singleton_set z (l : list Z) :
  z ∈ (list_to_set l : gset Z) ∧ size (list_to_set l : gset Z) = 1%nat ↔ exactly z l.
Proof.
  unfold exactly. rewrite Forall_forall. split.
  - intros [Hz H1]. apply size_1_elem_of in H1 as [y Hy]. rewrite leibniz_equiv_iff in Hy.
    split; [intros ->; set_solver|]. intros x Hx. rewrite Hy in Hz.
    assert (x ∈ (list_to_set l : gset Z)) as Hx' by (by apply elem_of_list_to_set). rewrite Hy in Hx'. set_solver.
  - intros [Hne Hall]. assert ((list_to_set l : gset Z) = {[z]}) as ->.
    { apply set_eq. intros x. rewrite elem_of_list_to_set, elem_of_singleton. split; [apply Hall|]. intros ->.
      destruct l as [|y l]; [done|]. rewrite <-(Hall y) by set_solver. set_solver. }
    split; [set_solver|]. apply size_singleton.
Qed.

(** The authorization lists taken together allow signing with a key generated
    in the keystore, and nothing else. *)
Lemma authorizations_exact lists :
  authorizationListsExactlyMatchWebAuthn lists = true ↔
  exactly androidKeyOriginGenerated (concat (al_origins <$> lists)) ∧
  exactly androidKeyPurposeSign (concat (al_purposes <$> lists)).
Proof.
  unfold authorizationListsExactlyMatchWebAuthn.
  rewrite !andb_true_iff, !bool_decide_eq_true, !Nat.eqb_eq, <-!singleton_set. tauto.
Qed.

(** *** The key description, as a DER structure

    [der_values data vs]: [data] is the DER values [vs], one after the other. *)
Inductive der_values : list byte → list RawValue → Prop :=
| der_none : der_values [] []
| der_next data v rest vs : unmarshal_raw data = Ok (v, rest) → der_values rest vs → der_values data (v :: vs).

(** The value is all there is. *)
Definition der_value (data : list byte) (v : RawValue) : Prop := unmarshal_raw data = Ok (v, []).
Definition der_integer (data : list byte) (z : Z) : Prop := unmarshal_int data = Ok (z, []).
Definition der_enumerated (data : list byte) (z : Z) : Prop := unmarshal_enum data = Ok (z, []).
Definition der_octets (data b : list byte) : Prop := unmarshal_bytes data = Ok (b, []).

(** A constructed value of the universal class: 16 is SEQUENCE, 17 is SET. *)
Definition constructed (tag : Z) (v : RawValue) : Prop := Class v = 0 ∧ Tag v = tag ∧ IsCompound v = true.

(** What one field of an authorization list says: the purposes of tag 1, a SET of
    INTEGER, and the origin of tag 702, an INTEGER; tag 600 (all applications) is
    NULL.  All fields are explicitly tagged values. *)
Definition field_says (f : RawValue) (purposes origins : list Z) : Prop :=
  Class f = 2 ∧ IsCompound f = true ∧ (∃ v, der_value (Bytes f) v) ∧
  (if Tag f =? 1 then
     ∃ set items, der_value (Bytes f) set ∧ constructed 17 set ∧ der_values (Bytes set) items ∧
       Forall2 (λ i z, der_integer (FullBytes i) z) items purposes
   else purposes = []) ∧
  (if Tag f =? 702 then ∃ origin, der_integer (Bytes f) origin ∧ origins = [origin] else origins = []) ∧
  (Tag f = 600 → ∃ v, der_value (Bytes f) v ∧ Class v = 0 ∧ Tag v = 5 ∧ IsCompound v = false ∧ Bytes v = []).

(** An authorization list: a SEQUENCE of fields of which none occurs twice. *)
Definition authorization_list (v : RawValue) (l : androidAuthorizationList) : Prop :=
  constructed 16 v ∧ ∃ fields said,
    der_values (Bytes v) fields ∧ NoDup (Tag <$> fields) ∧ Forall2 (λ f p, field_says f p.1 p.2) fields said ∧
    al_purposes l = concat said.*1 ∧ al_origins l = concat said.*2 ∧
    (al_allApplications l = true ↔ 600 ∈ Tag <$> fields).

(** The key description: a SEQUENCE of exactly eight values, in this order. *)
Definition key_description (raw : list byte) (d : androidKeyDescription) : Prop :=
  ∃ outer attestationVersion attestationSecurityLevel keymasterVersion keymasterSecurityLevel attestationChallenge
    uniqueId softwareEnforced hardwareEnforced,
    der_value raw outer ∧ constructed 16 outer ∧
    der_values (Bytes outer)
      [attestationVersion; attestationSecurityLevel; keymasterVersion; keymasterSecurityLevel; attestationChallenge;
       uniqueId; softwareEnforced; hardwareEnforced] ∧
    (∃ z, der_integer (FullBytes attestationVersion) z) ∧ (∃ z, der_integer (FullBytes keymasterVersion) z) ∧
    (∃ b, der_octets (FullBytes uniqueId) b) ∧
    der_enumerated (FullBytes attestationSecurityLevel) (kd_attestationSecurityLevel d) ∧
    kd_attestationSecurityLevel d ∈ [0; 1; 2] ∧
    der_enumerated (FullBytes keymasterSecurityLevel) (kd_keymasterSecurityLevel d) ∧
    kd_keymasterSecurityLevel d ∈ [0; 1; 2] ∧
    der_octets (FullBytes attestationChallenge) (kd_attestationChallenge d) ∧
    authorization_list softwareEnforced (kd_softwareEnforced d) ∧
    authorization_list hardwareEnforced (kd_hardwareEnforced d).

Lemma no_rest_Ok e rest u : no_rest e rest = Ok u ↔ rest = [].
Proof. destruct u. unfold no_rest. rewrite fail_if_Ok, negb_false_iff, bool_decide_eq_true. by destruct rest. Qed.

(** A reader followed by the check that nothing is left. *)
Lemma whole_Ok {A} (r : result (A * list byte)) e a :
  ('(out, rest) ← r; _ ← no_rest e rest; Ok out) = Ok a ↔ r = Ok (a, []).
Proof.
  split.
  - intros H. apply bind_Ok in H as ([out rest] & -> & H). by apply bind_Ok in H as ([] & ->%no_rest_Ok & [= ->]).
  - by intros ->.
Qed.

Lemma is_universal_spec tag v : is_universal tag v = true ↔ constructed tag v.
Proof. unfold is_universal, constructed, ClassUniversal. rewrite !andb_true_iff, !Z.eqb_eq. tauto. Qed.

Lemma explicit_field_spec f : explicit_field f = true ↔ Class f = 2 ∧ IsCompound f = true.
Proof. unfold explicit_field, ClassContextSpecific. by rewrite andb_true_iff, Z.eqb_eq. Qed.

Lemma parseASN1Items_Ok data vs : parseASN1Items data = Ok vs ↔ der_values data vs.
Proof.
  unfold parseASN1Items. rewrite asn1_items_Ok. split.
  - generalize (length data) as fuel. intros fuel. revert data vs.
    induction fuel as [|fuel IH]; intros [|b l] vs H; cbn [raw_items] in H; try done; try (apply Ok_inj in H as <-; constructor).
    apply bind_Ok in H as ([v rest] & Hv & H). apply bind_Ok in H as (items & Hi & [= <-]). econstructor; eauto.
  - induction 1 as [|data v rest vs Hv _ IH]; [done|]. pose proof (unmarshal_raw_progress _ _ _ Hv) as Hlt.
    apply (asn1_items_Ok id ErrInvalidExtension). apply (asn1_items_Ok id ErrInvalidExtension) in IH.
    destruct data as [|b l]; [cbn in Hlt; lia|]. cbn [length asn1_items]. rewrite Hv. run.
    rewrite (proj2 (Nat.eqb_neq _ _)) by (cbn in *; lia). run. cbn [length] in Hlt.
    by rewrite (asn1_items_fuel _ _ (length l) (length rest)), IH by lia.
Qed.

Lemma parseSequenceValue_Ok v vs : parseSequenceValue v = Ok vs ↔ constructed 16 v ∧ der_values (Bytes v) vs.
Proof.
  unfold parseSequenceValue. rewrite <-parseASN1Items_Ok, <-is_universal_spec. change 16 with TagSequence.
  destruct (is_universal TagSequence v); cbn; [tauto|]. split; [done|intros [? _]; done].
Qed.

Lemma parseInteger_Ok v z : parseInteger v = Ok z ↔ der_integer (FullBytes v) z.
Proof. unfold parseInteger. by rewrite whole_Ok, wrap_err_Ok. Qed.

Lemma parseOctetString_Ok v b : parseOctetString v = Ok b ↔ der_octets (FullBytes v) b.
Proof. unfold parseOctetString. by rewrite whole_Ok, wrap_err_Ok. Qed.

Lemma parseSecurityLevel_Ok v z : parseSecurityLevel v = Ok z ↔ der_enumerated (FullBytes v) z ∧ z ∈ [0; 1; 2].
Proof.
  unfold parseSecurityLevel, der_enumerated. split.
  - intros H. apply bind_Ok in H as ([out rest] & Hu%or_err_Ok & H). apply bind_Ok in H as ([] & ->%no_rest_Ok & H).
    apply bind_Ok in H as ([] & Hl%fail_if_Ok & [= ->]). split; [done|].
    unfold androidSecurityLevelSoftware, androidSecurityLevelTEE, androidSecurityLevelStrongBox in Hl.
    rewrite !elem_of_cons. lia.
  - intros [-> Hz]. run. cbn [no_rest]. rewrite !elem_of_cons, elem_of_nil in Hz. by destruct Hz as [->|[->|[->|[]]]].
Qed.

Lemma parseExplicitInt_Ok f z : explicit_field f = true → parseExplicitInt f = Ok z ↔ der_integer (Bytes f) z.
Proof. intros Hf. unfold parseExplicitInt. rewrite Hf. run. by rewrite whole_Ok, wrap_err_Ok. Qed.

Lemma parseExplicitIntSet_Ok f zs : explicit_field f = true →
  parseExplicitIntSet f = Ok zs ↔ ∃ set items, der_value (Bytes f) set ∧ constructed 17 set ∧ der_values (Bytes set) items ∧
    Forall2 (λ i z, der_integer (FullBytes i) z) items zs.
Proof.
  intros Hf. unfold parseExplicitIntSet, der_value. rewrite Hf. run. split.
  - intros H. apply bind_Ok in H as ([set rest] & Hs%wrap_err_Ok & H). apply bind_Ok in H as ([] & Hr%fail_if_Ok & H).
    apply bind_Ok in H as (items & Hi%parseASN1Items_Ok & H%map_res_Ok). guards in Hr. destruct Hr as [Hr Hu%is_universal_spec].
    apply nil_length_inv in Hr as ->. exists set, items. split_and!; try done.
    eapply Forall2_impl; [exact H|]. intros i z. apply parseInteger_Ok.
  - intros (set & items & -> & Hu & Hi & Hz). run. rewrite (proj2 (is_universal_spec 17 set) Hu : is_universal TagSet set = true).
    run. rewrite (proj2 (parseASN1Items_Ok _ _) Hi). run. apply map_res_Ok. eapply Forall2_impl; [exact Hz|].
    intros i z. apply parseInteger_Ok.
Qed.

Lemma parseExplicitNull_Ok f u : explicit_field f = true →
  parseExplicitNull f = Ok u ↔ ∃ v, der_value (Bytes f) v ∧ Class v = 0 ∧ Tag v = 5 ∧ IsCompound v = false ∧ Bytes v = [].
Proof.
  intros Hf. destruct u. unfold parseExplicitNull, der_value, ClassUniversal. rewrite Hf. run. split.
  - intros H. apply bind_Ok in H as ([v rest] & Hs%wrap_err_Ok & Hr%fail_if_Ok). guards in Hr.
    destruct Hr as [[[[->%nil_length_inv Hc] Ht] Hi] Hb%nil_length_inv]. by exists v.
  - intros (v & -> & Hc & Ht & Hi & Hb). run. by rewrite Hc, Ht, Hi, Hb.
Qed.

(** One field adds what it says. *)
Lemma authorization_field_says acc f acc' : explicit_field f = true →
  authorization_field acc f = Ok acc' ↔ ∃ ps os, field_says f ps os ∧
    acc' = mkAuthorizations (al_purposes acc ++ ps) (al_origins acc ++ os) (al_allApplications acc || (Tag f =? 600)).
Proof.
  intros Hf. pose proof (proj1 (explicit_field_spec f) Hf) as [Hc Hi].
  unfold authorization_field, field_says, der_value. destruct acc as [ps0 os0 all0]. cbn [al_purposes al_origins al_allApplications].
  split.
  - intros H. apply bind_Ok in H as ([v rest] & Hv%or_err_Ok & H). apply bind_Ok in H as ([] & ->%no_rest_Ok & H).
    unfold androidTagPurpose, androidTagAllApplications, androidTagOrigin in H.
    destruct (Z.eqb_spec (Tag f) 1) as [E|E]; [|destruct (Z.eqb_spec (Tag f) 600) as [E2|E2];
      [|destruct (Z.eqb_spec (Tag f) 702) as [E3|E3]]].
    + apply bind_Ok in H as (ps & Hps%parseExplicitIntSet_Ok & [= <-]); [|done]. exists ps, []. rewrite E.
      change (1 =? 702) with false. change (1 =? 600) with false. rewrite app_nil_r, orb_false_r. split_and!; eauto; lia.
    + apply bind_Ok in H as ([] & Hn%parseExplicitNull_Ok & [= <-]); [|done]. exists [], []. rewrite E2.
      change (600 =? 702) with false. rewrite !app_nil_r, orb_true_r. split_and!; eauto.
    + apply bind_Ok in H as (o & Ho%parseExplicitInt_Ok & [= <-]); [|done]. exists [], [o].
      rewrite app_nil_r, orb_false_r. split_and!; eauto; lia.
    + apply Ok_inj in H as <-. exists [], []. rewrite !app_nil_r, orb_false_r. split_and!; eauto; lia.
  - intros (ps & os & (_ & _ & [v Hv] & Hps & Hos & Hn) & ->). rewrite Hv. run. cbn [no_rest length].
    change (bool_decide (0%nat = 0%nat)) with true. run.
    unfold androidTagPurpose, androidTagAllApplications, androidTagOrigin.
    destruct (Z.eqb_spec (Tag f) 1) as [E|E]; [|destruct (Z.eqb_spec (Tag f) 600) as [E2|E2];
      [|destruct (Z.eqb_spec (Tag f) 702) as [E3|E3]]].
    + rewrite (proj2 (parseExplicitIntSet_Ok _ _ Hf) Hps). run. rewrite E in *. change (1 =? 702) with false in Hos.
      cbn iota in Hos. subst os. by rewrite app_nil_r, orb_false_r.
    + rewrite (proj2 (parseExplicitNull_Ok _ () Hf)) by auto. run. rewrite E2 in *. change (600 =? 702) with false in Hos.
      cbn iota in Hos. subst. by rewrite !app_nil_r, orb_true_r.
    + destruct Hos as (o & Ho & ->). rewrite (proj2 (parseExplicitInt_Ok _ _ Hf) Ho). run. subst ps.
      by rewrite app_nil_r, orb_false_r.
    + subst. by rewrite !app_nil_r, orb_false_r.
Qed.

Lemma authorization_loop_Ok fields : ∀ seen acc l,
  authorization_loop seen acc fields = Ok l ↔
  NoDup (Tag <$> fields) ∧ (∀ t, t ∈ Tag <$> fields → t ∉ seen) ∧
  ∃ said, Forall2 (λ f p, field_says f p.1 p.2) fields said ∧
    l = mkAuthorizations (al_purposes acc ++ concat said.*1) (al_origins acc ++ concat said.*2)
          (al_allApplications acc || bool_decide (600 ∈ Tag <$> fields)).
Proof.
  induction fields as [|f fields IH]; intros seen acc l; cbn [authorization_loop].
  { split.
    - intros [= <-]. split; [constructor|]. split; [set_solver|]. exists []. split; [constructor|].
      destruct acc. cbn. by rewrite !app_nil_r, orb_false_r.
    - intros (_ & _ & said & ->%Forall2_nil_inv_l & ->). destruct acc. cbn. by rewrite !app_nil_r, orb_false_r. }
  rewrite fmap_cons. assert (∀ b, bool_decide (600 ∈ Tag f :: (Tag <$> fields)) = b ↔
    (Tag f =? 600) || bool_decide (600 ∈ Tag <$> fields) = b) as Hall.
  { intros b. assert (bool_decide (600 ∈ Tag f :: (Tag <$> fields)) = (Tag f =? 600) || bool_decide (600 ∈ Tag <$> fields)) as ->; [|done].
    apply eq_true_iff_eq. rewrite orb_true_iff, !bool_decide_eq_true, Z.eqb_eq, elem_of_cons. intuition congruence. }
  rewrite (proj2 (Hall _) eq_refl). clear Hall. split.
  - intros H. apply bind_Ok in H as ([] & H1%fail_if_Ok & H). guards in H1. destruct H1 as [Hf Hn].
    apply bind_Ok in H as (acc' & (ps & os & Hsay & ->)%authorization_field_says & H); [|done].
    apply IH in H as (Hnd & Hs & said & Hsaid & ->). cbn [al_purposes al_origins al_allApplications]. split_and!.
    + apply NoDup_cons. split; [|done]. intros Hin%Hs. set_solver.
    + set_solver.
    + exists ((ps, os) :: said). split; [by constructor|]. cbn. by rewrite <-!app_assoc, <-orb_assoc.
  - intros ([Hni Hnd]%NoDup_cons & Hs & said & Hsaid & ->). apply Forall2_cons_inv_l in Hsaid as ([ps os] & said' & Hsay & Hsaid & ->).
    assert (explicit_field f = true) as Hf by (apply explicit_field_spec; destruct Hsay as (? & ? & _); done).
    rewrite Hf, bool_decide_eq_false_2 by set_solver. run.
    rewrite (proj2 (authorization_field_says _ _ _ Hf) (ex_intro _ ps (ex_intro _ os (conj Hsay eq_refl)))). run.
    apply IH. split; [done|]. split; [set_solver|]. exists said'. split; [done|]. cbn. by rewrite <-!app_assoc, <-orb_assoc.
Qed.

Lemma parseAuthorizationList_Ok v l : parseAuthorizationList v = Ok l ↔ authorization_list v l.
Proof.
  unfold parseAuthorizationList, authorization_list. rewrite bind_Ok. split.
  - intros (fields & [Hc Hv]%parseSequenceValue_Ok & (Hnd & _ & said & Hsaid & ->)%authorization_loop_Ok).
    split; [done|]. exists fields, said. cbn. rewrite bool_decide_eq_true. by split_and!.
  - intros (Hc & fields & said & Hv & Hnd & Hsaid & Hps & Hos & Hall). exists fields. split; [by apply parseSequenceValue_Ok|].
    apply authorization_loop_Ok. split; [done|]. split; [set_solver|]. exists said. split; [done|].
    destruct l as [ps os all]. cbn in *. subst. f_equal. apply eq_true_iff_eq. by rewrite bool_decide_eq_true.
Qed.

Lemma parseAndroidKeyDescription_Ok raw d : parseAndroidKeyDescription raw = Ok d ↔ key_description raw d.
Proof.
  unfold parseAndroidKeyDescription, parseSequence, key_description, der_value. split.
  - intros H. apply bind_Ok in H as (fields & Hf & H). apply bind_Ok in Hf as ([outer rest] & Ho%wrap_err_Ok & Hf).
    apply bind_Ok in Hf as ([] & ->%no_rest_Ok & [Hc Hv]%parseSequenceValue_Ok).
    destruct fields as [|f0 [|f1 [|f2 [|f3 [|f4 [|f5 [|f6 [|f7 [|]]]]]]]]]; try done.
    apply bind_Ok in H as (z0 & H0%parseInteger_Ok & H). apply bind_Ok in H as (z2 & H2%parseInteger_Ok & H).
    apply bind_Ok in H as (b5 & H5%parseOctetString_Ok & H). apply bind_Ok in H as (b4 & H4%parseOctetString_Ok & H).
    apply bind_Ok in H as (l6 & H6%parseAuthorizationList_Ok & H). apply bind_Ok in H as (l7 & H7%parseAuthorizationList_Ok & H).
    apply bind_Ok in H as (z1 & [H1 H1']%parseSecurityLevel_Ok & H). apply bind_Ok in H as (z3 & [H3 H3']%parseSecurityLevel_Ok & [= <-]).
    exists outer, f0, f1, f2, f3, f4, f5, f6, f7. cbn. split_and!; eauto; apply Hc.
  - destruct d as [z1 z3 b4 l6 l7]. cbn [kd_attestationSecurityLevel kd_keymasterSecurityLevel kd_attestationChallenge
      kd_softwareEnforced kd_hardwareEnforced].
    intros (outer & f0 & f1 & f2 & f3 & f4 & f5 & f6 & f7 & Ho & Hc & Hv & [z0 H0] & [z2 H2] & [b5 H5] & H1 & H1' & H3 & H3' & H4 & H6 & H7).
    rewrite Ho. run. change (no_rest ErrInvalidExtension []) with (Ok ()). run.
    rewrite (proj2 (parseSequenceValue_Ok outer _) (conj Hc Hv)). run.
    rewrite (proj2 (parseInteger_Ok _ _) H0). run. rewrite (proj2 (parseInteger_Ok _ _) H2). run.
    rewrite (proj2 (parseOctetString_Ok _ _) H5). run. rewrite (proj2 (parseOctetString_Ok _ _) H4). run.
    rewrite (proj2 (parseAuthorizationList_Ok _ _) H6). run. rewrite (proj2 (parseAuthorizationList_Ok _ _) H7). run.
    rewrite (proj2 (parseSecurityLevel_Ok _ _) (conj H1 H1')). run. by rewrite (proj2 (parseSecurityLevel_Ok _ _) (conj H3 H3')).
Qed.

(** What the policy demands of a key description: the challenge is the client
    data hash, no list is open to all applications, a required hardware key has
    both levels in a trusted environment (1) or a strongbox (2), and the lists
    that count allow exactly signing (purpose 2) with a generated key (origin 0). *)
Definition android_authorized (policy : Policy) (clientDataHash : list byte) (d : androidKeyDescription) : Prop :=
  let hardware := RequireHardwareEnforced policy in
  let lists := if hardware then [kd_hardwareEnforced d] else [kd_softwareEnforced d; kd_hardwareEnforced d] in
  kd_attestationChallenge d = clientDataHash ∧
  al_allApplications (kd_softwareEnforced d) = false ∧ al_allApplications (kd_hardwareEnforced d) = false ∧
  (hardware = true → kd_attestationSecurityLevel d ∈ [1; 2] ∧ kd_keymasterSecurityLevel d ∈ [1; 2]) ∧
  exactly 0 (concat (al_origins <$> lists)) ∧ exactly 2 (concat (al_purposes <$> lists)).

Lemma hardwareSecurityLevel_spec level : hardwareSecurityLevel level = true ↔ level ∈ [1; 2].
Proof.
  unfold hardwareSecurityLevel, androidSecurityLevelTEE, androidSecurityLevelStrongBox.
  rewrite orb_true_iff, !Z.eqb_eq, elem_of_cons, list_elem_of_singleton. done.
Qed.

Lemma validateAndroidKeyExtension_Ok raw hash policy u :
  validateAndroidKeyExtension raw hash policy = Ok u ↔
  ∃ d, key_description raw d ∧ android_authorized policy hash d.
Proof.
  destruct u. unfold validateAndroidKeyExtension, android_authorized. rewrite bind_Ok.
  setoid_rewrite <-hardwareSecurityLevel_spec. split.
  - intros (d & Hd%parseAndroidKeyDescription_Ok & H). exists d. split; [done|]. apply bind_Ok in H as ([] & H1%fail_if_Ok & H).
    apply bind_Ok in H as ([] & H2%fail_if_Ok & H). apply bind_Ok in H as ([] & H3%fail_if_Ok & H4%fail_if_Ok).
    rewrite negb_false_iff, authorizations_exact in H4. guards in H1. guards in H2.
    destruct (RequireHardwareEnforced policy); cbn [andb] in H3; [guards in H3|]; split_and!; tauto || done.
  - intros (d & Hd%parseAndroidKeyDescription_Ok & Hc & Hs & Hw & Hh & Hl). exists d. split; [done|].
    rewrite (bool_decide_eq_true_2 _ Hc), Hs, Hw. run.
    apply authorizations_exact in Hl. rewrite Hl.
    destruct (RequireHardwareEnforced policy); [|done]. by destruct Hh as [-> ->].
Qed.

Lemma android_parseStatement_Ok st s :
  parseStatement st = Ok s ↔
  AttStmt.fields_are ["alg"; "sig"; "x5c"] st ∧ AttStmt.is_algorithm (AttStmt.field st "alg") (ks_algorithm s) ∧
  AttStmt.is_bytes (AttStmt.field st "sig") (ks_signature s) ∧ AttStmt.is_chain (AttStmt.field st "x5c") (ks_x5c s).
Proof.
  unfold parseStatement. split.
  - intros H. apply bind_Ok in H as ([] & _ & H). apply bind_Ok in H as ([] & Hk & H).
    rewrite AttStmt.known_fields_Ok in Hk. apply bind_Ok in H as (a & Ha%AttStmt.Algorithm_Ok & H).
    apply bind_Ok in H as (sig & Hs%AttStmt.Bytes_Ok & H). apply bind_Ok in H as (x5c & Hx%AttStmt.X5C_Ok & [= <-]).
    split_and!; try done. apply (AttStmt.fields_present _ _ ["alg"; "sig"; "x5c"]); try done.
    repeat constructor; [destruct Ha as (_ & ? & -> & _)|destruct Hs as [-> _]|destruct Hx as (? & _ & -> & _)]; done.
  - intros (Hf & Ha & Hs & Hx).
    rewrite (AttStmt.fields_are_size ["alg"; "sig"; "x5c"] st) by (done || (repeat constructor; set_solver)).
    change (Z.of_nat (length ["alg"; "sig"; "x5c"]) =? 3) with true. run.
    rewrite (proj2 (AttStmt.known_fields_Ok _ _ _ ())) by (intros key; apply Hf). run.
    rewrite (proj2 (AttStmt.Algorithm_Ok _ _ _) Ha). run. rewrite (proj2 (AttStmt.Bytes_Ok _ _ _) Hs). run.
    rewrite (proj2 (AttStmt.X5C_Ok _ _ _) Hx). by destruct s.
Qed.

(** What android-key attestation accepts: the leaf certificate has the
    credential key, describes it as a signing key generated for this ceremony,
    and its key made the signature. *)
Definition android_verified (verifier : SignatureVerifier) (policy : Policy) (ctx : context)
    (request : VerificationRequest) (r : VerificationResult) : Prop :=
  let st := vq_Statement request in
  vq_Format request = "android-key" ∧
  bv_len (vq_AuthenticatorData request) ≠ 0 ∧ vq_ClientDataHash request ≠ [] ∧
  AttStmt.fields_are ["alg"; "sig"; "x5c"] st ∧
  ∃ algorithm signature x5c leaf extension d material,
    AttStmt.is_algorithm (AttStmt.field st "alg") algorithm ∧ AttStmt.is_bytes (AttStmt.field st "sig") signature ∧
    AttStmt.is_chain (AttStmt.field st "x5c") x5c ∧ chain_leaf x5c leaf ∧
    key_matches (xc_PublicKey leaf) (pk_material (vq_CredentialPublicKey request)) ∧
    FindExtension leaf oidExtensionAndroidKeyAttestation = Some extension ∧
    key_description (xe_Value extension) d ∧
    android_authorized policy (vq_ClientDataHash request) d ∧
    X509Util.PublicKeyMaterial (xc_PublicKey leaf) = Some material ∧
    AttCrypto.accepts ctx verifier algorithm material []
      (slice_list (bv_value (vq_AuthenticatorData request)) ++ vq_ClientDataHash request) signature ∧
    r = x509_result TypeBasic x5c.

Lemma android_VerifyAttestation_Ok verifier policy ctx request r :
  VerifyAttestation verifier policy ctx request = Ok r ↔ android_verified verifier policy ctx request r.
Proof.
  unfold VerifyAttestation, android_verified, Types.PublicKeyMaterial. rewrite CredentialPublicKeyMaterial_clone_id. split.
  - intros H. apply bind_Ok in H as ([] & H1%fail_if_Ok & H).
    apply bind_Ok in H as ([a sig x5c] & (Hf & Ha & Hs & Hx)%android_parseStatement_Ok & H).
    apply bind_Ok in H as ([] & H2%fail_if_Ok & H). apply bind_Ok in H as ([chain certs] & Hc & H).
    apply bind_Ok in H as (leaf & Hl & H).
    destruct (proj1 (chain_leaf_Ok _ _ _ _) (ex_intro _ certs (conj Hc Hl))) as [-> Hleaf].
    apply bind_Ok in H as ([] & Hk%ValidatePublicKey_Ok & H). apply bind_Ok in H as (ext & He%of_option_Ok & H).
    apply bind_Ok in H as ([] & (d & Hd & Hp)%validateAndroidKeyExtension_Ok & H).
    apply bind_Ok in H as (m & Hm%of_option_Ok & H).
    apply bind_Ok in H as ([] & Hsig%AttCrypto.VerifySignature_Ok & [= <-]).
    guards in H1. guards in H2. destruct H1 as [-> _], H2 as [H2 H3].
    split_and!; try done; [by intros E; rewrite E in H3|]. by exists a, sig, x5c, leaf, ext, d, m.
  - intros (-> & Hne & Hh & Hf & a & sig & x5c & leaf & ext & d & m & Ha & Hs & Hx & Hleaf & Hk & He & Hd & Hp & Hm & Hsig & ->).
    rewrite (bool_decide_eq_true_2 (_ = format)) by done.
    assert (IsNil verifier = false) as -> by (by destruct Hsig as (_ & ? & -> & _)). run.
    rewrite (proj2 (android_parseStatement_Ok _ (mkStatement a sig x5c))) by done. run.
    rewrite (proj2 (Z.eqb_neq _ _)), bool_decide_eq_false_2 by (done || by destruct (vq_ClientDataHash request)). run.
    destruct (proj2 (chain_leaf_Ok _ ErrInvalidStatement _ _) (conj eq_refl Hleaf)) as (certs & Hc & Hl).
    cbn [ks_x5c ks_algorithm ks_signature]. rewrite Hc. run. rewrite Hl. run.
    rewrite (proj2 (ValidatePublicKey_Ok _ _ _ _ ()) Hk). run. rewrite He. run.
    rewrite (proj2 (validateAndroidKeyExtension_Ok _ _ _ ())) by (by exists d). run. rewrite Hm. run.
    by rewrite (proj2 (AttCrypto.VerifySignature_Ok _ _ _ _ _ _ _ _ _ ()) Hsig).
Qed.
End Lemmas.

(** A description of a hardware-backed signing key. *)
Definition sample_description : list byte :=
  [x30; x23; x02; x01; x03; x0a; x01; x01; x02; x01; x04; x0a; x01; x01; x04; x01; xaa; x04; x00; x30; x00;
   x30; x0e; xa1; x05; x31; x03; x02; x01; x02; xbf; x85; x3e; x03; x02; x01; x00].

Example sample_description_accepted :
  AndroidKey.validateAndroidKeyExtension sample_description [xaa] (AndroidKey.mkPolicy true) = Ok ()
  ∧ AndroidKey.validateAndroidKeyExtension sample_description [xab] (AndroidKey.mkPolicy true)
    = Err AndroidKey.ErrCertificateRequirements.
Proof. by vm_compute. Qed.

(** ** Properties *)

(** C23: android-key attestation is accepted exactly when the leaf certificate's
    key is the credential key and made the signature over authenticator data and
    client data hash, and its key description, a DER sequence of exactly eight
    values, names the client data hash as challenge (the fifth value), is not
    open to all applications in either list (the seventh, software, and the
    eighth, hardware), and allows exactly signing with a generated key: in the
    hardware list of a key whose two security levels (second and fourth value)
    are hardware when the policy requires it, in both lists together
    otherwise. *)
Theorem android_key_attestation_exact {Ord : MapOrder} {X : X509} (verifier : SignatureVerifier)
    (policy : AndroidKey.Policy) (ctx : context) (request : VerificationRequest) (r : VerificationResult) :
  AndroidKey.VerifyAttestation verifier policy ctx request = Ok r ↔ android_verified verifier policy ctx request r.
Proof. apply android_VerifyAttestation_Ok. Qed.
