(* ===== verification/Tpm.v ===== *)
(** * The attestation format tpm

    Models [src/attestation/tpm/]: the binary TPM structures, the certificate
    profile and the verifier.  A [*tpmReader] is modelled by the unread part
    [data[pos:]] of its data; an operation returns the value read and the new
    unread part. *)
From Stdlib Require Import Znumtheory.
From S2P Require Import Prelude GoStrings Sha2 AuthData ExtValue Types Attestation Asn1 X509 Formats.
Import X509Util Profile.
Set Default Goal Selector "!".
Local Open Scope Z_scope.

Module Tpm.
Definition format : string := "tpm".
Definition tpmVersion : string := "2.0".
Definition ErrInvalidStatement : error := Sentinel "tpm.ErrInvalidStatement".
Definition ErrUnsupportedAlgorithm : error := Sentinel "tpm.ErrUnsupportedAlgorithm".
Definition ErrUnsupportedKey : error := Sentinel "tpm.ErrUnsupportedKey".
Definition ErrPublicKeyMismatch : error := Sentinel "tpm.ErrPublicKeyMismatch".
Definition ErrInvalidPublicArea : error := Sentinel "tpm.ErrInvalidPublicArea".
Definition ErrInvalidCertInfo : error := Sentinel "tpm.ErrInvalidCertInfo".
Definition ErrInvalidSignature : error := Sentinel "tpm.ErrInvalidSignature".
Definition ErrCertificateRequirements : error := Sentinel "tpm.ErrCertificateRequirements".
Definition errTPMTruncated : error := Sentinel "tpm.errTPMTruncated".

Definition tpmGeneratedValue : Z := 0xff544347.
Definition tpmSTAttestCertify : Z := 0x8017.
Definition tpmAlgRSA : Z := 0x0001.
Definition tpmAlgSHA256 : Z := 0x000b.
Definition tpmAlgSHA384 : Z := 0x000c.
Definition tpmAlgSHA512 : Z := 0x000d.
Definition tpmAlgNull : Z := 0x0010.
Definition tpmAlgRSASSA : Z := 0x0014.
Definition tpmAlgRSAPSS : Z := 0x0016.
Definition tpmAlgECDSA : Z := 0x0018.
Definition tpmAlgECC : Z := 0x0023.
Definition tpmECCNISTP256 : Z := 0x0003.
Definition tpmECCNISTP384 : Z := 0x0004.
Definition tpmECCNISTP521 : Z := 0x0005.

Record coseAlgorithmSpec := mkSpec { cs_cose : Z; cs_signatureAlg : Z; cs_hashAlg : Z }.

Definition signatureAlgorithmSpec (algorithm : Z) : option coseAlgorithmSpec :=
  if algorithm =? -7 then Some (mkSpec algorithm tpmAlgECDSA tpmAlgSHA256)
  else if algorithm =? -35 then Some (mkSpec algorithm tpmAlgECDSA tpmAlgSHA384)
  else if algorithm =? -36 then Some (mkSpec algorithm tpmAlgECDSA tpmAlgSHA512)
  else if algorithm =? -257 then Some (mkSpec algorithm tpmAlgRSASSA tpmAlgSHA256)
  else if algorithm =? -258 then Some (mkSpec algorithm tpmAlgRSASSA tpmAlgSHA384)
  else if algorithm =? -259 then Some (mkSpec algorithm tpmAlgRSASSA tpmAlgSHA512)
  else if algorithm =? -37 then Some (mkSpec algorithm tpmAlgRSAPSS tpmAlgSHA256)
  else if algorithm =? -38 then Some (mkSpec algorithm tpmAlgRSAPSS tpmAlgSHA384)
  else if algorithm =? -39 then Some (mkSpec algorithm tpmAlgRSAPSS tpmAlgSHA512)
  else None.

(** ** The reader *)

Definition tpmReader : Type := list byte.

Definition read_uint (n : nat) (r : tpmReader) : result (Z * tpmReader) :=
  if (length r <? n)%nat then Err errTPMTruncated else Ok (be_uint (take n r), drop n r).
Definition uint16 (r : tpmReader) : result (Z * tpmReader) := read_uint 2 r.
Definition uint32 (r : tpmReader) : result (Z * tpmReader) := read_uint 4 r.
Definition uint64 (r : tpmReader) : result (Z * tpmReader) := read_uint 8 r.

Definition sizedBytes (r : tpmReader) : result (list byte * tpmReader) :=
  '(size, r) ← uint16 r;
  _ ← fail_if (Z.of_nat (length r) <? size) errTPMTruncated;
  Ok (take (Z.to_nat size) r, drop (Z.to_nat size) r).

Definition skip (count : Z) (r : tpmReader) : result tpmReader :=
  _ ← fail_if ((count <? 0) || (Z.of_nat (length r) <? count)) errTPMTruncated;
  Ok (drop (Z.to_nat count) r).

Definition remaining (r : tpmReader) : Z := Z.of_nat (length r).

Definition publicAreaError {A} (r : result A) : result A := wrap_err ErrInvalidPublicArea r.
Definition certInfoError {A} (r : result A) : result A := wrap_err ErrInvalidCertInfo r.
Definition signatureError {A} (r : result A) : result A := wrap_err ErrInvalidSignature r.

(** ** The public area *)

Record publicAreaEC2 := mkAreaEC2 { ae_curve : string; ae_x : list byte; ae_y : list byte }.
Record publicAreaRSA := mkAreaRSA { ar_modulus : list byte; ar_exponent : Z }.
Record publicArea := mkPublicArea {
  pa_raw : list byte; pa_keyType : Z; pa_nameAlg : Z;
  pa_ec2 : option publicAreaEC2; pa_rsa : option publicAreaRSA }.

Definition validTPMHashAlgorithm (algorithm : Z) : bool :=
  (algorithm =? tpmAlgSHA256) || (algorithm =? tpmAlgSHA384) || (algorithm =? tpmAlgSHA512).

(** The trial division; [divisor] stays below [2^16 + 2] for a 32-bit exponent,
    so it does not wrap. *)
Fixpoint exponent_loop (fuel : nat) (divisor exponent : Z) : bool :=
  match fuel with
  | O => true
  | S fuel =>
      if negb (divisor <=? exponent / divisor) then true
      else if exponent mod divisor =? 0 then false
      else exponent_loop fuel (divisor + 2) exponent
  end.

Definition validTPMRSAExponent (exponent : Z) : bool :=
  if (exponent <? 3) || (exponent mod 2 =? 0) then false
  else exponent_loop (Z.to_nat (Z.sqrt exponent)) 3 exponent.

Definition tpmCurve (curveID : Z) : option (string * Z) :=
  if curveID =? tpmECCNISTP256 then Some (EC2CurveP256, 32)
  else if curveID =? tpmECCNISTP384 then Some (EC2CurveP384, 48)
  else if curveID =? tpmECCNISTP521 then Some (EC2CurveP521, 66)
  else None.

Definition parseSymmetricDefinition (r : tpmReader) : result tpmReader :=
  '(algorithm, r) ← publicAreaError (uint16 r);
  _ ← fail_if (negb (algorithm =? tpmAlgNull)) ErrUnsupportedKey;
  Ok r.

Definition parseScheme (allowed : list Z) (r : tpmReader) : result tpmReader :=
  '(scheme, r) ← publicAreaError (uint16 r);
  if scheme =? tpmAlgNull then Ok r
  else
    _ ← fail_if (negb (bool_decide (scheme ∈ allowed))) ErrUnsupportedKey;
    '(hashAlgorithm, r) ← publicAreaError (uint16 r);
    _ ← fail_if (negb (validTPMHashAlgorithm hashAlgorithm)) ErrUnsupportedAlgorithm;
    Ok r.

Definition parseECCPublicArea (r : tpmReader) : result (publicAreaEC2 * tpmReader) :=
  r ← parseSymmetricDefinition r;
  r ← parseScheme [tpmAlgECDSA] r;
  '(curveID, r) ← publicAreaError (uint16 r);
  r ← parseScheme [] r;
  '(x, r) ← publicAreaError (sizedBytes r);
  '(y, r) ← publicAreaError (sizedBytes r);
  match tpmCurve curveID with
  | Some (curve, coordinateLength) =>
      _ ← fail_if (negb (Z.of_nat (length x) =? coordinateLength) || negb (Z.of_nat (length y) =? coordinateLength))
            ErrUnsupportedKey;
      Ok (mkAreaEC2 curve x y, r)
  | None => Err ErrUnsupportedKey
  end.

Definition parseRSAPublicArea (r : tpmReader) : result (publicAreaRSA * tpmReader) :=
  r ← parseSymmetricDefinition r;
  r ← parseScheme [tpmAlgRSASSA; tpmAlgRSAPSS] r;
  '(keyBits, r) ← publicAreaError (uint16 r);
  '(exponent, r) ← publicAreaError (uint32 r);
  let exponent := if exponent =? 0 then 65537 else exponent in
  '(modulus, r) ← publicAreaError (sizedBytes r);
  _ ← fail_if (negb (RSA_Valid (Some (mkRSA modulus exponent))) || negb (keyBits mod 8 =? 0)
               || negb (keyBits =? Z.of_nat (length modulus) * 8) || negb (validTPMRSAExponent exponent))
        ErrUnsupportedKey;
  Ok (mkAreaRSA modulus exponent, r).

Definition parsePublicArea (raw : list byte) : result publicArea :=
  '(keyType, r) ← publicAreaError (uint16 raw);
  '(nameAlg, r) ← publicAreaError (uint16 r);
  '(_, r) ← publicAreaError (uint32 r);
  '(_, r) ← publicAreaError (sizedBytes r);
  '(parsed, r) ←
    (if keyType =? tpmAlgECC then
       '(ec2, r) ← parseECCPublicArea r; Ok (mkPublicArea raw keyType nameAlg (Some ec2) None, r)
     else if keyType =? tpmAlgRSA then
       '(rsa, r) ← parseRSAPublicArea r; Ok (mkPublicArea raw keyType nameAlg None (Some rsa), r)
     else Err ErrUnsupportedKey);
  _ ← fail_if (negb (remaining r =? 0)) ErrInvalidPublicArea;
  Ok parsed.

Definition validatePublicAreaBinding (parsed : publicArea) (material : CredentialPublicKeyMaterial) : result () :=
  if pa_keyType parsed =? tpmAlgECC then
    match pa_ec2 parsed, mat_EC2 material with
    | Some ec2, Some m =>
        fail_if (negb (bool_decide (ae_curve ec2 = ec2_Curve m)) || negb (bool_decide (ae_x ec2 = ec2_X m))
                 || negb (bool_decide (ae_y ec2 = ec2_Y m))) ErrPublicKeyMismatch
    | _, _ => Err ErrUnsupportedKey
    end
  else if pa_keyType parsed =? tpmAlgRSA then
    match pa_rsa parsed, mat_RSA material with
    | Some rsa, Some m =>
        _ ← fail_if (negb (RSA_Valid (Some m))) ErrUnsupportedKey;
        fail_if (negb (ar_exponent rsa =? rsa_Exponent m) || negb (bool_decide (ar_modulus rsa = rsa_Modulus m)))
          ErrPublicKeyMismatch
    | _, _ => Err ErrUnsupportedKey
    end
  else Err ErrUnsupportedKey.

Definition tpmHash (algorithm : Z) (data : list byte) : result (list byte) :=
  if algorithm =? tpmAlgSHA256 then Ok (Sum256 data)
  else if algorithm =? tpmAlgSHA384 then Ok (Sum384 data)
  else if algorithm =? tpmAlgSHA512 then Ok (Sum512 data)
  else Err ErrUnsupportedAlgorithm.

Definition publicArea_name (p : publicArea) : result (list byte) :=
  digest ← tpmHash (pa_nameAlg p) (pa_raw p);
  Ok (put_be 2 (pa_nameAlg p) ++ digest).

(** ** The attestation data *)

Record certifyInfo := mkCertifyInfo { ci_extraData : list byte; ci_name : list byte }.

Definition parseCertInfo (raw : list byte) : result certifyInfo :=
  '(magic, r) ← certInfoError (uint32 raw);
  _ ← fail_if (negb (magic =? tpmGeneratedValue)) ErrInvalidCertInfo;
  '(attestType, r) ← certInfoError (uint16 r);
  _ ← fail_if (negb (attestType =? tpmSTAttestCertify)) ErrInvalidCertInfo;
  '(_, r) ← certInfoError (sizedBytes r);
  '(extraData, r) ← certInfoError (sizedBytes r);
  r ← certInfoError (skip 17 r);
  '(_, r) ← certInfoError (uint64 r);
  '(name, r) ← certInfoError (sizedBytes r);
  '(_, r) ← certInfoError (sizedBytes r);
  _ ← fail_if (negb (remaining r =? 0)) ErrInvalidCertInfo;
  Ok (mkCertifyInfo extraData name).

Definition validateCertInfoBinding (parsed : certifyInfo) (expectedExtraData expectedName : list byte) : result () :=
  fail_if (negb (bool_decide (ci_extraData parsed = expectedExtraData)) || negb (bool_decide (ci_name parsed = expectedName)))
    ErrInvalidCertInfo.

(** ** The signature *)

Definition parseECDSASignature (r : tpmReader) : result (list byte * tpmReader) :=
  '(rBytes, r) ← sizedBytes r;
  '(sBytes, r) ← sizedBytes r;
  _ ← fail_if (bool_decide (length rBytes = 0%nat) || bool_decide (length sBytes = 0%nat)) ErrInvalidSignature;
  Ok (marshal_pair (be_uint rBytes) (be_uint sBytes), r).

Definition parseTPMSignature (raw : list byte) (spec : coseAlgorithmSpec) : result (list byte) :=
  '(signatureAlg, r) ← signatureError (uint16 raw);
  _ ← fail_if (negb (signatureAlg =? cs_signatureAlg spec)) ErrInvalidSignature;
  '(hashAlg, r) ← signatureError (uint16 r);
  _ ← fail_if (negb (hashAlg =? cs_hashAlg spec)) ErrInvalidSignature;
  '(signature, r) ←
    (if signatureAlg =? tpmAlgECDSA then signatureError (parseECDSASignature r)
     else if (signatureAlg =? tpmAlgRSASSA) || (signatureAlg =? tpmAlgRSAPSS) then signatureError (sizedBytes r)
     else Err ErrInvalidSignature);
  _ ← fail_if (bool_decide (length signature = 0%nat) || negb (remaining r =? 0)) ErrInvalidSignature;
  Ok signature.

(** ** Certificates *)

Definition oidExtensionSubjectAltName : ObjectIdentifier := [2; 5; 29; 17].
Definition oidAIKEKU : ObjectIdentifier := [2; 23; 133; 8; 3].
Definition oidTPMManufacturer : ObjectIdentifier := [2; 23; 133; 2; 1].
Definition oidTPMModel : ObjectIdentifier := [2; 23; 133; 2; 2].
Definition oidTPMVersion : ObjectIdentifier := [2; 23; 133; 2; 3].

Definition subjectEmpty (subject : pkix_Name) : bool :=
  bool_decide (subject = mkName [] [] [] [] [] [] [] "" "" [] []).

Definition hasAIKEKU (certificate : x509_Certificate) : bool :=
  bool_decide (oidAIKEKU ∈ xc_UnknownExtKeyUsage certificate).

Definition validTPMHexID (value : string) : bool :=
  match bytes_of_string value with
  | a :: b :: c :: id =>
      bool_decide ([a; b; c] = bytes_of_string "id:") && bool_decide (length id = 8%nat)
      && forallb (λ d, is_digit d || in_range 65 70 d) id
  | _ => false
  end.

Definition required_san : list ObjectIdentifier := [oidTPMManufacturer; oidTPMModel; oidTPMVersion].

Definition valid_san (attribute : NameAttribute) : bool :=
  (na_Tag attribute =? TagUTF8String)
  && (if bool_decide (na_Type attribute = oidTPMManufacturer) || bool_decide (na_Type attribute = oidTPMVersion)
      then validTPMHexID (na_Value attribute)
      else negb (bool_decide (na_Value attribute = ""))).

Definition nameHasTPMAttributes (attributes : list NameAttribute) : bool :=
  attributes_valid required_san valid_san attributes.

Definition hasTPMSANAttributes (certificate : x509_Certificate) : bool :=
  match FindExtension certificate oidExtensionSubjectAltName with
  | Some extension =>
      if negb (xe_Critical extension) then false
      else match unmarshal_raws (xe_Value extension) with
           | Ok ([generalName], []) =>
               if negb (Class generalName =? ClassContextSpecific) || negb (Tag generalName =? 4)
                  || negb (IsCompound generalName) then false
               else match ParseNameAttributes (Bytes generalName) with
                    | Ok attributes => nameHasTPMAttributes attributes
                    | Err _ => false
                    end
           | _ => false
           end
  | None => false
  end.

Definition validateAAGUIDExtension (certificate : x509_Certificate) (aaguid : AAGUID) : result () :=
  aaguid_extension ErrCertificateRequirements certificate aaguid.

Definition validateAIKCertificate (certificate : x509_Certificate) (aaguid : AAGUID) : result () :=
  _ ← fail_if (negb (xc_Version certificate =? 3)) ErrCertificateRequirements;
  _ ← fail_if (negb (subjectEmpty (xc_Subject certificate))) ErrCertificateRequirements;
  _ ← fail_if (negb (HasExtension certificate oidExtensionSubjectAltName) || negb (hasTPMSANAttributes certificate))
        ErrCertificateRequirements;
  _ ← fail_if (negb (hasAIKEKU certificate)) ErrCertificateRequirements;
  _ ← fail_if (negb (end_entity certificate)) ErrCertificateRequirements;
  validateAAGUIDExtension certificate aaguid.

(** ** The verifier *)

Record tpmStatement := mkStatement {
  ts_version : string; ts_algorithm : Z; ts_x5c : list (list byte);
  ts_signature : list byte; ts_certInfo : list byte; ts_publicArea : list byte }.

Definition statement_fields : list string := ["ver"; "alg"; "x5c"; "sig"; "certInfo"; "pubArea"].

Definition parseStatement {Ord : MapOrder} (statement : AttestationStatement) : result tpmStatement :=
  let e := ErrInvalidStatement in
  _ ← fail_if (negb (map_len statement =? 6)) e;
  _ ← AttStmt.known_fields statement_fields statement e;
  version ← AttStmt.String (AttStmt.field statement "ver") e;
  algorithm ← AttStmt.Algorithm (AttStmt.field statement "alg") e;
  x5c ← AttStmt.X5C (AttStmt.field statement "x5c") e;
  signature ← AttStmt.Bytes (AttStmt.field statement "sig") e;
  certInfo ← AttStmt.Bytes (AttStmt.field statement "certInfo") e;
  publicArea ← AttStmt.Bytes (AttStmt.field statement "pubArea") e;
  Ok (mkStatement version algorithm x5c signature certInfo publicArea).

Section Verify.
Context {Ord : MapOrder} {X : X509} (signatureVerifier : SignatureVerifier).

Definition verifySignature (ctx : context) (algorithm : Z) (publicKey : CredentialPublicKeyMaterial)
    (signed signature : list byte) : result () :=
  AttCrypto.VerifySignature ctx signatureVerifier algorithm publicKey [] signed signature
    ErrInvalidSignature ErrInvalidSignature.

Definition VerifyAttestation (ctx : context) (request : VerificationRequest) : result VerificationResult :=
  _ ← fail_if (negb (bool_decide (vq_Format request = format)) || IsNil signatureVerifier) ErrInvalidStatement;
  statement ← parseStatement (vq_Statement request);
  _ ← fail_if (negb (bool_decide (ts_version statement = tpmVersion))) ErrInvalidStatement;
  signatureSpec ← of_option ErrUnsupportedAlgorithm (signatureAlgorithmSpec (ts_algorithm statement));
  _ ← fail_if ((bv_len (vq_AuthenticatorData request) =? 0) || bool_decide (length (vq_ClientDataHash request) = 0%nat))
        ErrInvalidStatement;
  parsedAuthData ← wrap_err ErrInvalidStatement (ParseAuthenticatorData (vq_AuthenticatorData request));
  attested ← of_option ErrInvalidStatement (pad_Attested parsedAuthData);
  publicArea ← parsePublicArea (ts_publicArea statement);
  _ ← validatePublicAreaBinding publicArea (Types.PublicKeyMaterial (vq_CredentialPublicKey request));
  publicAreaName ← publicArea_name publicArea;
  extraData ← tpmHash (cs_hashAlg signatureSpec)
                (AttCrypto.SignedData (vq_AuthenticatorData request) (vq_ClientDataHash request));
  certInfo ← parseCertInfo (ts_certInfo statement);
  _ ← validateCertInfoBinding certInfo extraData publicAreaName;
  '(chain, certificates) ← ParseCertificateChain (ts_x5c statement) ErrInvalidStatement;
  leaf ← leaf_of certificates;
  _ ← validateAIKCertificate leaf (acd_AAGUID attested);
  tpmSignature ← parseTPMSignature (ts_signature statement) signatureSpec;
  certificateMaterial ← of_option ErrUnsupportedKey (X509Util.PublicKeyMaterial (xc_PublicKey leaf));
  _ ← verifySignature ctx (ts_algorithm statement) certificateMaterial (ts_certInfo statement) tpmSignature;
  Ok (x509_result TypeAttCA chain).

Definition New : Verifier := mkVerifier format VerifyAttestation.
End Verify.
End Tpm.

(** ** Binary layout

    The encodings that the readers invert. *)
Section Layout.
Import Tpm.

Definition sized (b : list byte) : list byte := put_be 2 (Z.of_nat (length b)) ++ b.
Definition fits16 (b : list byte) : Prop := Z.of_nat (length b) < 65536.

(** An absent scheme, or a signature scheme with its hash. *)
Definition scheme_bytes (s : option (Z * Z)) : list byte :=
  match s with None => put_be 2 tpmAlgNull | Some (alg, hash) => put_be 2 alg ++ put_be 2 hash end.
Definition scheme_ok (allowed : list Z) (s : option (Z * Z)) : Prop :=
  match s with
  | None => True
  | Some (alg, hash) => alg ∈ allowed ∧ alg ≠ tpmAlgNull ∧ 0 <= alg < 65536 ∧ validTPMHashAlgorithm hash = true
  end.

Lemma read_uint_Ok n r v r' :
  read_uint n r = Ok (v, r') ↔ 0 <= v < 256 ^ Z.of_nat n ∧ r = put_be n v ++ r'.
Proof.
  unfold read_uint. destruct (Nat.ltb_spec (length r) n) as [H|H]; split.
  - done.
  - intros [_ ->]. rewrite length_app, length_put_be in H. lia.
  - intros [= <- <-]. pose proof (be_uint_bound (take n r)) as Hb.
    rewrite length_take, Nat.min_l in Hb by lia. split; [done|].
    pose proof (put_be_uint (take n r)) as E. rewrite length_take, Nat.min_l in E by lia. by rewrite E, take_drop.
  - intros [Hv ->]. rewrite take_app_length', drop_app_length' by (by rewrite length_put_be). by rewrite be_uint_put.
Qed.

Lemma sizedBytes_Ok r b r' : sizedBytes r = Ok (b, r') ↔ fits16 b ∧ r = sized b ++ r'.
Proof.
  unfold sizedBytes, sized, fits16, uint16. split.
  - intros H. apply bind_Ok in H as ([n r1] & [Hn ->]%read_uint_Ok & H).
    apply bind_Ok in H as ([] & Hl%fail_if_Ok%Z.ltb_ge & [= <- <-]). change (256 ^ Z.of_nat 2) with 65536 in Hn.
    rewrite length_take, Nat.min_l by lia. rewrite Z2Nat.id by lia. rewrite <-app_assoc, take_drop. split; [lia|done].
  - intros [Hf ->]. rewrite (proj2 (read_uint_Ok 2 _ (Z.of_nat (length b)) (b ++ r'))); cycle 1.
    { change (256 ^ Z.of_nat 2) with 65536. rewrite app_assoc. split; [lia|done]. }
    run. rewrite length_app, (proj2 (Z.ltb_ge _ _)) by lia. run. by rewrite Nat2Z.id, take_app_length, drop_app_length.
Qed.

Lemma parseSymmetricDefinition_Ok r r' : parseSymmetricDefinition r = Ok r' ↔ r = put_be 2 tpmAlgNull ++ r'.
Proof.
  unfold parseSymmetricDefinition, publicAreaError, uint16. split.
  - intros H. apply bind_Ok in H as ([a r1] & [_ ->]%wrap_err_Ok%read_uint_Ok & H).
    apply bind_Ok in H as ([] & Ha%fail_if_Ok & [= <-]). guards in Ha. by subst a.
  - intros ->. rewrite (proj2 (read_uint_Ok 2 _ tpmAlgNull r')) by done. done.
Qed.

Lemma validTPMHashAlgorithm_range h : validTPMHashAlgorithm h = true → 0 <= h < 65536.
Proof.
  unfold validTPMHashAlgorithm, tpmAlgSHA256, tpmAlgSHA384, tpmAlgSHA512. rewrite !orb_true_iff, !Z.eqb_eq. lia.
Qed.

Lemma parseScheme_Ok allowed r r' :
  parseScheme allowed r = Ok r' ↔ ∃ s, scheme_ok allowed s ∧ r = scheme_bytes s ++ r'.
Proof.
  unfold parseScheme, publicAreaError, uint16. split.
  - intros H. apply bind_Ok in H as ([a r1] & [Ha ->]%wrap_err_Ok%read_uint_Ok & H).
    destruct (Z.eqb_spec a tpmAlgNull) as [->|Hn]; [apply Ok_inj in H as ->; by exists None|].
    apply bind_Ok in H as ([] & Hin%fail_if_Ok & H).
    apply bind_Ok in H as ([h r2] & [_ ->]%wrap_err_Ok%read_uint_Ok & H).
    apply bind_Ok in H as ([] & Hh%fail_if_Ok & [= <-]). guards in Hin. guards in Hh.
    exists (Some (a, h)). cbn [scheme_ok scheme_bytes]. by rewrite <-app_assoc.
  - intros ([[a h]|] & Hok & ->); cbn [scheme_bytes].
    + destruct Hok as (Hin & Hn & Ha & Hh). rewrite <-app_assoc.
      rewrite (proj2 (read_uint_Ok 2 _ a (put_be 2 h ++ r'))) by done. run. rewrite (proj2 (Z.eqb_neq _ _) Hn).
      rewrite (bool_decide_eq_true_2 _ Hin). run.
      rewrite (proj2 (read_uint_Ok 2 _ h r')) by (split; [by apply validTPMHashAlgorithm_range|done]). run. by rewrite Hh.
    + by rewrite (proj2 (read_uint_Ok 2 _ tpmAlgNull r')) by done.
Qed.

(** The parameters and the point of an ECC key. *)
Definition ecc_bytes (s : option (Z * Z)) (curveID : Z) (x y : list byte) : list byte :=
  put_be 2 tpmAlgNull ++ scheme_bytes s ++ put_be 2 curveID ++ put_be 2 tpmAlgNull ++ sized x ++ sized y.

Lemma tpmCurve_range id c : tpmCurve id = Some c → 0 <= id < 65536.
Proof.
  unfold tpmCurve, tpmECCNISTP256, tpmECCNISTP384, tpmECCNISTP521.
  intros H. repeat match type of H with context [?a =? ?b] => destruct (Z.eqb_spec a b); [lia|] end. done.
Qed.

Lemma parseECCPublicArea_Ok r ec r' :
  parseECCPublicArea r = Ok (ec, r') ↔
  ∃ s curveID n, scheme_ok [tpmAlgECDSA] s ∧ tpmCurve curveID = Some (ae_curve ec, n) ∧
    Z.of_nat (length (ae_x ec)) = n ∧ Z.of_nat (length (ae_y ec)) = n ∧
    r = ecc_bytes s curveID (ae_x ec) (ae_y ec) ++ r'.
Proof.
  assert (Hsmall : ∀ id c n, tpmCurve id = Some (c, n) → n < 65536).
  { intros id c n. unfold tpmCurve. repeat (destruct (_ =? _); [intros [= _ <-]; lia|]). done. }
  unfold parseECCPublicArea, publicAreaError, uint16, ecc_bytes. split.
  - intros H. apply bind_Ok in H as (r1 & ->%parseSymmetricDefinition_Ok & H).
    apply bind_Ok in H as (r2 & (s & Hs & ->)%parseScheme_Ok & H).
    apply bind_Ok in H as ([id r3] & [Hid ->]%wrap_err_Ok%read_uint_Ok & H).
    apply bind_Ok in H as (r4 & (s2 & Hs2 & ->)%parseScheme_Ok & H).
    apply bind_Ok in H as ([x r5] & [_ ->]%wrap_err_Ok%sizedBytes_Ok & H).
    apply bind_Ok in H as ([y r6] & [_ ->]%wrap_err_Ok%sizedBytes_Ok & H).
    destruct (tpmCurve id) as [[c n]|] eqn:E; [|done]. apply bind_Ok in H as ([] & Hl%fail_if_Ok & [= <- <-]).
    guards in Hl. exists s, id, n. destruct s2 as [[a h]|]; [by destruct Hs2 as [?%not_elem_of_nil _]|].
    split_and!; try tauto. cbn [ae_x ae_y scheme_bytes]. by rewrite <-!app_assoc.
  - destruct ec as [c x y]. intros (s & id & n & Hs & Hc & Hx & Hy & ->). cbn [ae_curve ae_x ae_y] in *.
    pose proof (Hsmall _ _ _ Hc). rewrite <-!app_assoc. rewrite (proj2 (parseSymmetricDefinition_Ok _ _) eq_refl). run.
    rewrite (proj2 (parseScheme_Ok _ _ _)) by (by exists s). run.
    rewrite (proj2 (read_uint_Ok 2 _ id _)) by (split; [by eapply tpmCurve_range|done]). run.
    rewrite (proj2 (parseScheme_Ok [] _ (sized x ++ sized y ++ r'))) by (by exists None). run.
    rewrite (proj2 (sizedBytes_Ok _ x (sized y ++ r'))) by (split; [unfold fits16; lia|done]). run.
    rewrite (proj2 (sizedBytes_Ok _ y r')) by (split; [unfold fits16; lia|done]). run.
    by rewrite Hc, Hx, Hy, Z.eqb_refl.
Qed.

(** The parameters and the modulus of an RSA key; exponent 0 stands for 65537. *)
Definition rsa_bytes (s : option (Z * Z)) (keyBits exponent : Z) (modulus : list byte) : list byte :=
  put_be 2 tpmAlgNull ++ scheme_bytes s ++ put_be 2 keyBits ++ put_be 4 exponent ++ sized modulus.

Lemma parseRSAPublicArea_Ok r k r' :
  parseRSAPublicArea r = Ok (k, r') ↔
  ∃ s e, scheme_ok [tpmAlgRSASSA; tpmAlgRSAPSS] s ∧ 0 <= e < 2 ^ 32 ∧
    ar_exponent k = (if e =? 0 then 65537 else e) ∧ RSA_Valid (Some (mkRSA (ar_modulus k) (ar_exponent k))) = true ∧
    validTPMRSAExponent (ar_exponent k) = true ∧ Z.of_nat (length (ar_modulus k)) * 8 < 65536 ∧
    r = rsa_bytes s (Z.of_nat (length (ar_modulus k)) * 8) e (ar_modulus k) ++ r'.
Proof.
  unfold parseRSAPublicArea, publicAreaError, uint16, uint32, rsa_bytes. split.
  - intros H. apply bind_Ok in H as (r1 & ->%parseSymmetricDefinition_Ok & H).
    apply bind_Ok in H as (r2 & (s & Hs & ->)%parseScheme_Ok & H).
    apply bind_Ok in H as ([bits r3] & [Hb ->]%wrap_err_Ok%read_uint_Ok & H).
    apply bind_Ok in H as ([e r4] & [He ->]%wrap_err_Ok%read_uint_Ok & H).
    apply bind_Ok in H as ([m r5] & [_ ->]%wrap_err_Ok%sizedBytes_Ok & H).
    apply bind_Ok in H as ([] & Hl%fail_if_Ok & [= <- <-]). guards in Hl. destruct Hl as [[[Hv Hm] ->] He2].
    exists s, e. cbn [ar_modulus ar_exponent]. change (256 ^ Z.of_nat 2) with 65536 in Hb. change (256 ^ Z.of_nat 4) with (2 ^ 32) in He.
    split_and!; try done; try lia. by rewrite <-!app_assoc.
  - destruct k as [m ex]. cbn [ar_modulus ar_exponent]. intros (s & e & Hs & He & -> & Hv & Hp & Hm & ->).
    rewrite <-!app_assoc. rewrite (proj2 (parseSymmetricDefinition_Ok _ _) eq_refl). run.
    rewrite (proj2 (parseScheme_Ok _ _ _)) by (by exists s). run.
    rewrite (proj2 (read_uint_Ok 2 _ (Z.of_nat (length m) * 8) _)) by (split; [change (256 ^ Z.of_nat 2) with 65536; lia|done]). run.
    rewrite (proj2 (read_uint_Ok 4 _ e _)) by (split; [change (256 ^ Z.of_nat 4) with (2 ^ 32); lia|done]). run.
    rewrite (proj2 (sizedBytes_Ok _ m r')) by (split; [unfold fits16; lia|done]). run.
    rewrite Hv, Hp, Z.eqb_refl, Z.mod_mul by lia. done.
Qed.

(** A whole public area: the common header and the parameters of its key type. *)
Definition area_bytes (keyType nameAlg attributes : Z) (policy key : list byte) : list byte :=
  put_be 2 keyType ++ put_be 2 nameAlg ++ put_be 4 attributes ++ sized policy ++ key.

Definition area_key (p : publicArea) (key : list byte) : Prop :=
  (pa_keyType p = tpmAlgECC ∧ pa_rsa p = None ∧ ∃ ec s curveID n,
     pa_ec2 p = Some ec ∧ scheme_ok [tpmAlgECDSA] s ∧ tpmCurve curveID = Some (ae_curve ec, n) ∧
     Z.of_nat (length (ae_x ec)) = n ∧ Z.of_nat (length (ae_y ec)) = n ∧
     key = ecc_bytes s curveID (ae_x ec) (ae_y ec))
  ∨ (pa_keyType p = tpmAlgRSA ∧ pa_ec2 p = None ∧ ∃ k s e,
     pa_rsa p = Some k ∧ scheme_ok [tpmAlgRSASSA; tpmAlgRSAPSS] s ∧ 0 <= e < 2 ^ 32 ∧
     ar_exponent k = (if e =? 0 then 65537 else e) ∧ RSA_Valid (Some (mkRSA (ar_modulus k) (ar_exponent k))) = true ∧
     validTPMRSAExponent (ar_exponent k) = true ∧ Z.of_nat (length (ar_modulus k)) * 8 < 65536 ∧
     key = rsa_bytes s (Z.of_nat (length (ar_modulus k)) * 8) e (ar_modulus k)).

Lemma remaining_0 r : remaining r = 0 ↔ r = [].
Proof. unfold remaining. destruct r; cbn; split; try done; lia. Qed.

Lemma parsePublicArea_Ok raw p :
  parsePublicArea raw = Ok p ↔
  pa_raw p = raw ∧ 0 <= pa_nameAlg p < 2 ^ 16 ∧
  ∃ attributes policy key, 0 <= attributes < 2 ^ 32 ∧ fits16 policy ∧ area_key p key ∧
    raw = area_bytes (pa_keyType p) (pa_nameAlg p) attributes policy key.
Proof.
  unfold parsePublicArea, publicAreaError, uint16, uint32, area_bytes, area_key. split.
  - intros H. apply bind_Ok in H as ([kt r1] & [_ Hraw]%wrap_err_Ok%read_uint_Ok & H).
    apply bind_Ok in H as ([na r2] & [Hna ->]%wrap_err_Ok%read_uint_Ok & H).
    apply bind_Ok in H as ([at' r3] & [Hat ->]%wrap_err_Ok%read_uint_Ok & H).
    apply bind_Ok in H as ([po r4] & [Hpo ->]%wrap_err_Ok%sizedBytes_Ok & H).
    apply bind_Ok in H as ([p' r5] & Hk & H).
    apply bind_Ok in H as ([] & Hr%fail_if_Ok%negb_false_iff%Z.eqb_eq%remaining_0 & [= <-]). subst r5.
    destruct (Z.eqb_spec kt tpmAlgECC) as [->|]; [|destruct (Z.eqb_spec kt tpmAlgRSA) as [->|]; [|done]].
    + apply bind_Ok in Hk as ([ec r6] & Hec & Hp). injection Hp as <- ->.
      apply parseECCPublicArea_Ok in Hec as (s & id & n & ? & ? & ? & ? & ->). rewrite app_nil_r in Hraw.
      split; [done|]. split; [done|]. exists at', po, (ecc_bytes s id (ae_x ec) (ae_y ec)).
      split; [exact Hat|]. split; [done|]. split; [|exact Hraw]. left. split_and!; try done. by exists ec, s, id, n.
    + apply bind_Ok in Hk as ([k r6] & Hrsa & Hp). injection Hp as <- ->.
      apply parseRSAPublicArea_Ok in Hrsa as (s & e & ? & ? & ? & ? & ? & ? & ->). rewrite app_nil_r in Hraw.
      split; [done|]. split; [done|]. eexists at', po, (rsa_bytes s _ e (ar_modulus k)).
      split; [exact Hat|]. split; [done|]. split; [|exact Hraw]. right. split_and!; try done. by exists k, s, e.
  - destruct p as [raw' kt na ec2 rsa]. cbn [pa_raw pa_keyType pa_nameAlg pa_ec2 pa_rsa].
    intros (-> & Hna & at' & po & key & Hat & Hpo & Hkey & ->).
    rewrite (proj2 (read_uint_Ok 2 _ kt _)) by (split; [destruct Hkey as [[-> _]|[-> _]]; done|done]). run.
    rewrite (proj2 (read_uint_Ok 2 _ na _)) by done. run.
    rewrite (proj2 (read_uint_Ok 4 _ at' _)) by done. run.
    rewrite (proj2 (sizedBytes_Ok _ po _)) by done. run.
    destruct Hkey as [(-> & -> & ec & s & id & n & -> & ? & ? & ? & ? & ->)|(-> & -> & k & s & e & -> & ? & ? & ? & ? & ? & ? & ->)].
    + change (tpmAlgECC =? tpmAlgECC) with true. cbn iota.
      rewrite (proj2 (parseECCPublicArea_Ok _ ec [])); [done|]. exists s, id, n. by rewrite app_nil_r.
    + change (tpmAlgRSA =? tpmAlgECC) with false. change (tpmAlgRSA =? tpmAlgRSA) with true. cbn iota.
      rewrite (proj2 (parseRSAPublicArea_Ok _ k [])); [done|]. exists s, e. by rewrite app_nil_r.
Qed.

(** The attestation data of a certified key. *)
Definition cert_info_bytes (signer extraData clock : list byte) (firmware : Z) (name qualified : list byte) : list byte :=
  put_be 4 tpmGeneratedValue ++ put_be 2 tpmSTAttestCertify ++ sized signer ++ sized extraData ++ clock ++
  put_be 8 firmware ++ sized name ++ sized qualified.

Lemma skip_Ok n r r' : 0 <= n → (skip n r = Ok r' ↔ ∃ p, Z.of_nat (length p) = n ∧ r = p ++ r').
Proof.
  intros Hn. unfold skip. rewrite (proj2 (Z.ltb_ge _ _) Hn). cbn [orb]. split.
  - intros H. apply bind_Ok in H as ([] & Hl%fail_if_Ok%Z.ltb_ge & [= <-]). exists (take (Z.to_nat n) r).
    rewrite length_take, take_drop. split; [lia|done].
  - intros (p & <- & ->). rewrite length_app, (proj2 (Z.ltb_ge _ _)) by lia. run. by rewrite Nat2Z.id, drop_app_length.
Qed.

Lemma parseCertInfo_Ok raw c :
  parseCertInfo raw = Ok c ↔
  ∃ signer clock firmware qualified,
    fits16 signer ∧ fits16 (ci_extraData c) ∧ fits16 (ci_name c) ∧ fits16 qualified ∧
    length clock = 17%nat ∧ 0 <= firmware < 2 ^ 64 ∧
    raw = cert_info_bytes signer (ci_extraData c) clock firmware (ci_name c) qualified.
Proof.
  unfold parseCertInfo, certInfoError, uint16, uint32, uint64, cert_info_bytes. split.
  - intros H. apply bind_Ok in H as ([m r1] & [_ ->]%wrap_err_Ok%read_uint_Ok & H).
    apply bind_Ok in H as ([] & Hm%fail_if_Ok & H). apply bind_Ok in H as ([t r2] & [_ ->]%wrap_err_Ok%read_uint_Ok & H).
    apply bind_Ok in H as ([] & Ht%fail_if_Ok & H).
    apply bind_Ok in H as ([si r3] & [Hsi ->]%wrap_err_Ok%sizedBytes_Ok & H).
    apply bind_Ok in H as ([ex r4] & [Hex ->]%wrap_err_Ok%sizedBytes_Ok & H).
    apply bind_Ok in H as (r5 & Hs%wrap_err_Ok & H). apply skip_Ok in Hs as (cl & Hcl & ->); [|lia].
    apply bind_Ok in H as ([fw r6] & [Hfw ->]%wrap_err_Ok%read_uint_Ok & H).
    apply bind_Ok in H as ([na r7] & [Hna ->]%wrap_err_Ok%sizedBytes_Ok & H).
    apply bind_Ok in H as ([qu r8] & [Hqu ->]%wrap_err_Ok%sizedBytes_Ok & H).
    apply bind_Ok in H as ([] & Hr%fail_if_Ok%negb_false_iff%Z.eqb_eq%remaining_0 & [= <-]). guards in Hm. guards in Ht.
    subst. exists si, cl, fw, qu. cbn [ci_extraData ci_name]. rewrite app_nil_r. split_and!; done || lia.
  - destruct c as [ex na]. intros (si & cl & fw & qu & Hsi & Hex & Hna & Hqu & Hcl & Hfw & ->). cbn [ci_extraData ci_name] in *.
    rewrite (proj2 (read_uint_Ok 4 _ tpmGeneratedValue _)) by done. run. change (tpmGeneratedValue =? _) with true. run.
    rewrite (proj2 (read_uint_Ok 2 _ tpmSTAttestCertify _)) by done. run. change (tpmSTAttestCertify =? _) with true. run.
    rewrite (proj2 (sizedBytes_Ok _ si _)) by done. run. rewrite (proj2 (sizedBytes_Ok _ ex _)) by done. run.
    rewrite (proj2 (skip_Ok 17 _ (put_be 8 fw ++ sized na ++ sized qu) ltac:(lia))) by (exists cl; split; [lia|done]). run.
    rewrite (proj2 (read_uint_Ok 8 _ fw _)) by done. run. rewrite (proj2 (sizedBytes_Ok _ na _)) by done. run.
    rewrite (proj2 (sizedBytes_Ok _ qu [])) by (rewrite app_nil_r; done). run. done.
Qed.

(** A signature: an ECDSA pair becomes its DER form, an RSA signature is taken
    as it is. *)
Definition tpm_signature (spec : coseAlgorithmSpec) (raw sig : list byte) : Prop :=
  ∃ body, raw = put_be 2 (cs_signatureAlg spec) ++ put_be 2 (cs_hashAlg spec) ++ body ∧ sig ≠ [] ∧
    if cs_signatureAlg spec =? tpmAlgECDSA then
      ∃ r s, r ≠ [] ∧ s ≠ [] ∧ fits16 r ∧ fits16 s ∧ body = sized r ++ sized s ∧ sig = marshal_pair (be_uint r) (be_uint s)
    else fits16 sig ∧ body = sized sig.

(** The algorithms of the table. *)
Definition spec_ok (spec : coseAlgorithmSpec) : Prop :=
  cs_signatureAlg spec ∈ [tpmAlgECDSA; tpmAlgRSASSA; tpmAlgRSAPSS] ∧ 0 <= cs_hashAlg spec < 65536.

Lemma signatureAlgorithmSpec_ok a spec : signatureAlgorithmSpec a = Some spec → spec_ok spec.
Proof.
  unfold signatureAlgorithmSpec, spec_ok. intros H. repeat (case_match; simplify_eq); cbn; (split; [set_solver|done]).
Qed.

Lemma parseTPMSignature_Ok raw spec sig :
  spec_ok spec → (parseTPMSignature raw spec = Ok sig ↔ tpm_signature spec raw sig).
Proof.
  intros [Hsp Hhash]. assert (0 <= cs_signatureAlg spec < 256 ^ Z.of_nat 2) as Hrange.
  { apply elem_of_cons in Hsp as [->|Hsp]; [done|]. apply elem_of_cons in Hsp as [->|Hsp]; [done|].
    by apply list_elem_of_singleton in Hsp as ->. }
  unfold parseTPMSignature, signatureError, uint16, tpm_signature, parseECDSASignature.
  assert (Hne : ∀ l : list byte, bool_decide (length l = 0%nat) = false ↔ l ≠ [])
    by (intros []; rewrite bool_decide_eq_false; done).
  split.
  - intros H. apply bind_Ok in H as ([sa r1] & [_ ->]%wrap_err_Ok%read_uint_Ok & H).
    apply bind_Ok in H as ([] & Hsa%fail_if_Ok & H). apply bind_Ok in H as ([ha r2] & [_ ->]%wrap_err_Ok%read_uint_Ok & H).
    apply bind_Ok in H as ([] & Hha%fail_if_Ok & H). apply bind_Ok in H as ([sg r3] & Hb & H).
    apply bind_Ok in H as ([] & Hr%fail_if_Ok & [= <-]). guards in Hsa. guards in Hha. subst.
    rewrite orb_false_iff, Hne, negb_false_iff, Z.eqb_eq, remaining_0 in Hr. destruct Hr as [Hsg ->].
    exists r2. split_and!; [done|done|]. destruct (cs_signatureAlg spec =? tpmAlgECDSA).
    + apply wrap_err_Ok in Hb. apply bind_Ok in Hb as ([r r4] & [Hr ->]%sizedBytes_Ok & Hb).
      apply bind_Ok in Hb as ([s r5] & [Hs ->]%sizedBytes_Ok & Hb). apply bind_Ok in Hb as ([] & Hl%fail_if_Ok & [= <- ->]).
      rewrite orb_false_iff, !Hne in Hl. exists r, s. rewrite app_nil_r. tauto.
    + case_match; [|done]. apply wrap_err_Ok, sizedBytes_Ok in Hb as [Hf ->]. by rewrite app_nil_r.
  - intros (body & -> & Hsg & Hb).
    rewrite (proj2 (read_uint_Ok 2 _ (cs_signatureAlg spec) (put_be 2 (cs_hashAlg spec) ++ body))) by (split; [lia|done]). run.
    rewrite Z.eqb_refl. run. rewrite (proj2 (read_uint_Ok 2 _ (cs_hashAlg spec) body)) by done. run. rewrite Z.eqb_refl. run.
    destruct (cs_signatureAlg spec =? tpmAlgECDSA) eqn:E.
    + destruct Hb as (r & s & Hr & Hs & Hfr & Hfs & -> & ->). rewrite (proj2 (sizedBytes_Ok _ r _)) by done. run.
      rewrite (proj2 (sizedBytes_Ok _ s [])) by (rewrite app_nil_r; done). run.
      rewrite (proj2 (Hne r) Hr), (proj2 (Hne s) Hs). run. by rewrite (proj2 (Hne _) Hsg).
    + assert ((cs_signatureAlg spec =? tpmAlgRSASSA) || (cs_signatureAlg spec =? tpmAlgRSAPSS) = true) as ->.
      { apply Z.eqb_neq in E. rewrite orb_true_iff, !Z.eqb_eq. set_solver. }
      destruct Hb as [Hf ->]. rewrite (proj2 (sizedBytes_Ok _ sig [])) by (rewrite app_nil_r; done). run.
      by rewrite (proj2 (Hne _) Hsg).
Qed.
End Layout.

(** ** The exponent test is a primality test *)
Section Exponent.
Import Tpm.

Lemma odd_factor e k : e mod 2 = 1 → (k | e) → k mod 2 = 1.
Proof.
  intros He [m ->]. pose proof (Z.mod_pos_bound k 2 ltac:(lia)) as Hb.
  destruct (decide (k mod 2 = 0)) as [H0|]; [|lia]. exfalso.
  rewrite Z.mul_mod, H0, Z.mul_0_r in He by lia. done.
Qed.

(** Below [d] only even numbers and 1 are left untested. *)
Definition no_factor_below (d e : Z) : Prop := ∀ k, 3 <= k < d → k mod 2 = 1 → ¬ (k | e).

Lemma no_factor_prime d e :
  3 <= e → e mod 2 = 1 → 0 < d → e < d * d → no_factor_below d e → prime e.
Proof.
  intros He Hodd Hd Hsq Hno. apply prime_alt. split; [lia|]. intros n Hn [m Hm].
  assert (Hf : ∀ k, (k | e) → 1 < k → d <= k).
  { intros k Hk H1. destruct (decide (k < d)) as [Hlt|]; [|lia]. exfalso.
    pose proof (odd_factor e k Hodd Hk) as Hko. apply (Hno k); [|done|done]. split; [|done].
    destruct (decide (k = 2)) as [->|]; [done|lia]. }
  assert (1 < m) by nia. pose proof (Hf n (ex_intro _ m Hm) ltac:(lia)).
  assert (d <= m) by (apply Hf; [exists n; by rewrite Z.mul_comm|done]). nia.
Qed.

Lemma exponent_loop_prime fuel : ∀ d e,
  3 <= e → e mod 2 = 1 → 3 <= d → d mod 2 = 1 → no_factor_below d e →
  e < (d + 2 * Z.of_nat fuel) * (d + 2 * Z.of_nat fuel) →
  exponent_loop fuel d e = true ↔ prime e.
Proof.
  induction fuel as [|fuel IH]; intros d e He Hodd Hd Hdodd Hno Hlt; cbn [exponent_loop].
  { split; [|done]. intros _. apply (no_factor_prime d); try done; lia. }
  destruct (Z.leb_spec d (e / d)) as [Hle|Hgt]; cbn [negb].
  - assert (d * d <= e) by (pose proof (Z.mul_div_le e d); nia).
    destruct (Z.eqb_spec (e mod d) 0) as [H0|Hn0].
    + split; [done|]. intros Hp. apply prime_alt in Hp as [_ Hp]. destruct (Hp d); [nia|]. by apply (proj1 (Z.mod_divide e d ltac:(lia))).
    + apply IH; try done; try lia.
      * by rewrite <-Zplus_mod_idemp_l, Hdodd.
      * intros k Hk Hko. destruct (decide (k < d)) as [|Hge]; [apply Hno; [lia|done]|].
        destruct (decide (k = d)) as [->|]; [intros Hdiv; by apply (proj2 (Z.mod_divide e d ltac:(lia))) in Hdiv|].
        assert (k = d + 1) as -> by lia. rewrite <-Zplus_mod_idemp_l, Hdodd in Hko. done.
  - split; [|done]. intros _. apply (no_factor_prime d); try done; [lia|].
    assert (e / d <= d - 1) by lia. pose proof (Z.mul_succ_div_gt e d ltac:(lia)). nia.
Qed.

Lemma validTPMRSAExponent_spec e : validTPMRSAExponent e = true ↔ prime e ∧ e ≠ 2.
Proof.
  unfold validTPMRSAExponent. pose proof (Z.mod_pos_bound e 2 ltac:(lia)).
  destruct (Z.ltb_spec e 3) as [Hlt|Hge]; cbn [orb].
  { split; [done|]. intros [[? _] ?]. lia. }
  destruct (Z.eqb_spec (e mod 2) 0) as [H0|H0].
  { split; [done|]. intros [Hp _]. apply prime_alt in Hp as [_ Hp]. destruct (Hp 2); [lia|]. by apply (proj1 (Z.mod_divide e 2 ltac:(lia))). }
  assert (Hs : e < (3 + 2 * Z.of_nat (Z.to_nat (Z.sqrt e))) * (3 + 2 * Z.of_nat (Z.to_nat (Z.sqrt e)))).
  { pose proof (Z.sqrt_nonneg e). rewrite Z2Nat.id by done.
    pose proof (Z.sqrt_spec e ltac:(lia)) as [_ Hq]. unfold Z.succ in Hq. set (q := Z.sqrt e) in *. nia. }
  assert (Hno : no_factor_below 3 e) by (intros k ?; lia).
  rewrite (exponent_loop_prime _ 3 e Hge ltac:(lia) ltac:(lia) eq_refl Hno Hs).
  split; [split; [done|lia]|by intros [? _]].
Qed.
End Exponent.

(** ** The specification of the verifier *)
Section Verified.
Import Tpm.
Context {Ord : MapOrder} {X : X509}.

(** The credential key is the key of the public area. *)
Definition area_matches (p : publicArea) (m : CredentialPublicKeyMaterial) : Prop :=
  (pa_keyType p = tpmAlgECC ∧ ∃ ec, pa_ec2 p = Some ec ∧ mat_EC2 m = Some (mkEC2 (ae_curve ec) (ae_x ec) (ae_y ec)))
  ∨ (pa_keyType p = tpmAlgRSA ∧ ∃ k, pa_rsa p = Some k ∧ mat_RSA m = Some (mkRSA (ar_modulus k) (ar_exponent k)) ∧
       RSA_Valid (mat_RSA m) = true).

Lemma validatePublicAreaBinding_Ok p m u : validatePublicAreaBinding p m = Ok u ↔ area_matches p m.
Proof.
  destruct u. unfold validatePublicAreaBinding, area_matches.
  destruct (Z.eqb_spec (pa_keyType p) tpmAlgECC) as [->|HE].
  { split; [|intros [(_ & [c x y] & -> & ->)|[? _]]; [|done]; cbn; by rewrite !bool_decide_eq_true_2].
    destruct (pa_ec2 p) as [[c x y]|]; [|done]. destruct (mat_EC2 m) as [[c' x' y']|]; [|done]. cbn.
    intros H%fail_if_Ok. guards in H. destruct H as [[-> ->] ->]. left. split; [done|]. by eexists. }
  destruct (Z.eqb_spec (pa_keyType p) tpmAlgRSA) as [->|HR]; [|split; [done|intros [[? _]|[? _]]; done]]. split.
  - destruct (pa_rsa p) as [[n e]|]; [|done]. destruct (mat_RSA m) as [[n' e']|]; [|done]. intros H.
    apply bind_Ok in H as ([] & H1%fail_if_Ok%negb_false_iff & H2%fail_if_Ok). guards in H2. cbn in H2.
    destruct H2 as [-> ->]. right. split; [done|]. eexists. by split_and!.
  - intros [[? _]|(_ & [n e] & -> & Hm & Hv)]; [done|]. rewrite Hm in *. rewrite Hv. run.
    cbn [ar_exponent ar_modulus rsa_Exponent rsa_Modulus]. by rewrite Z.eqb_refl, bool_decide_eq_true_2.
Qed.

(** The attributes of a TPM in the alternative name of its certificate, each
    present once and in UTF-8: the manufacturer and the firmware version as "id:"
    and eight upper-case hexadecimal digits, and a model that is not empty. *)
Definition tpm_san (attributes : list NameAttribute) : Prop :=
  (∀ oid, oid ∈ [[2; 23; 133; 2; 1]; [2; 23; 133; 2; 3]] → ∃ a id,
     of_type oid attributes = [a] ∧ na_Tag a = 12 ∧ bytes_of_string (na_Value a) = bytes_of_string "id:" ++ id ∧
     length id = 8%nat ∧ Forall (λ d, 48 <= byte_val d <= 57 ∨ 65 <= byte_val d <= 70) id) ∧
  ∃ a, of_type [2; 23; 133; 2; 2] attributes = [a] ∧ na_Tag a = 12 ∧ na_Value a ≠ "".

Lemma validTPMHexID_spec value :
  validTPMHexID value = true ↔ ∃ id, bytes_of_string value = bytes_of_string "id:" ++ id ∧
    length id = 8%nat ∧ Forall (λ d, 48 <= byte_val d <= 57 ∨ 65 <= byte_val d <= 70) id.
Proof.
  assert (∀ id, forallb (λ d, is_digit d || in_range 65 70 d) id = true ↔
    Forall (λ d, 48 <= byte_val d <= 57 ∨ 65 <= byte_val d <= 70) id) as Hd.
  { intros id. rewrite forallb_forall, Forall_forall. setoid_rewrite list_elem_of_In.
    split; intros H d Hin; specialize (H d Hin); unfold is_digit, in_range in *; lia. }
  unfold validTPMHexID. destruct (bytes_of_string value) as [|a [|b [|c id]]]; cbn [app].
  1-3: split; [done|]; intros (id & [=] & _).
  rewrite !andb_true_iff, !bool_decide_eq_true, Hd. split.
  - intros [[[= -> -> ->] Hl] Hf]. by exists id.
  - intros (id' & [= -> -> -> <-] & Hl & Hf). done.
Qed.

Lemma of_type_type oid attributes a : of_type oid attributes = [a] → na_Type a = oid.
Proof.
  intros H. assert (a ∈ of_type oid attributes) as Hin by (rewrite H; set_solver).
  unfold of_type in Hin. by apply list_elem_of_filter in Hin as [? _].
Qed.

Lemma two_oids (oid : ObjectIdentifier) :
  oid ∈ [[2; 23; 133; 2; 1]; [2; 23; 133; 2; 3]] ↔ oid = oidTPMManufacturer ∨ oid = oidTPMVersion.
Proof. by rewrite elem_of_cons, list_elem_of_singleton. Qed.

Lemma tpm_san_spec attributes : exactly_once required_san valid_san attributes ↔ tpm_san attributes.
Proof.
  unfold exactly_once, required_san, tpm_san, valid_san, TagUTF8String. split.
  - intros H. split.
    + intros oid Ho. apply two_oids in Ho as Ho'. destruct (H oid) as (a & Ha & Hv); [destruct Ho' as [->| ->]; set_solver|]. pose proof (of_type_type _ _ _ Ha) as Ht.
      rewrite andb_true_iff, Z.eqb_eq, Ht in Hv. destruct Hv as [Htag Hv].
      assert (bool_decide (oid = oidTPMManufacturer) || bool_decide (oid = oidTPMVersion) = true) as E.
      { by rewrite orb_true_iff, !bool_decide_eq_true. }
      rewrite E in Hv. apply validTPMHexID_spec in Hv as (id & Hv). exists a, id. done.
    + destruct (H oidTPMModel) as (a & Ha & Hv); [set_solver|]. pose proof (of_type_type _ _ _ Ha) as Ht.
      rewrite Ht in Hv. apply andb_true_iff in Hv as [Htag%Z.eqb_eq Hv%negb_true_iff%bool_decide_eq_false]. by exists a.
  - intros [H1 (a & Ha & Htag & Hv)] oid Ho. destruct (decide (oid = oidTPMModel)) as [->|Hne].
    + exists a. split; [done|]. rewrite (of_type_type _ _ _ Ha), Htag.
      change (bool_decide (oidTPMModel = oidTPMManufacturer) || bool_decide (oidTPMModel = oidTPMVersion)) with false.
      by rewrite (bool_decide_eq_false_2 (na_Value a = "")).
    + destruct (H1 oid) as (b & id & Hb & Htb & Hid); [apply two_oids; set_solver|]. exists b. split; [done|].
      rewrite (of_type_type _ _ _ Hb), Htb. cbn [Z.eqb Pos.eqb andb].
      assert (bool_decide (oid = oidTPMManufacturer) || bool_decide (oid = oidTPMVersion) = true) as ->.
      { rewrite orb_true_iff, !bool_decide_eq_true. set_solver. }
      apply validTPMHexID_spec. by exists id.
Qed.

(** The profile of an attestation identity key certificate. *)
Definition aik_profile (c : x509_Certificate) (aaguid : AAGUID) : Prop :=
  xc_Version c = 3 ∧ xc_Subject c = mkName [] [] [] [] [] [] [] "" "" [] [] ∧
  (∃ extension name attributes,
     FindExtension c oidExtensionSubjectAltName = Some extension ∧ xe_Critical extension = true ∧
     unmarshal_raws (xe_Value extension) = Ok ([name], []) ∧
     Class name = ClassContextSpecific ∧ Tag name = 4 ∧ IsCompound name = true ∧
     ParseNameAttributes (Bytes name) = Ok attributes ∧ tpm_san attributes) ∧
  oidAIKEKU ∈ xc_UnknownExtKeyUsage c ∧ end_entity c = true ∧ names_aaguid c aaguid.

Lemma hasTPMSANAttributes_spec c :
  hasTPMSANAttributes c = true ↔
  ∃ extension name attributes,
    FindExtension c oidExtensionSubjectAltName = Some extension ∧ xe_Critical extension = true ∧
    unmarshal_raws (xe_Value extension) = Ok ([name], []) ∧
    Class name = ClassContextSpecific ∧ Tag name = 4 ∧ IsCompound name = true ∧
    ParseNameAttributes (Bytes name) = Ok attributes ∧ tpm_san attributes.
Proof.
  unfold hasTPMSANAttributes, nameHasTPMAttributes. split.
  - destruct (FindExtension c _) as [x|]; [|done]. destruct (xe_Critical x) eqn:Ec; [|done]. cbn [negb].
    destruct (unmarshal_raws _) as [[[|n [|]] [|]]|] eqn:Er; try done.
    destruct (negb _ || _ || _) eqn:En; [done|]. guards in En. destruct (ParseNameAttributes _) as [attrs|] eqn:Ep; [|done].
    intros H%attributes_valid_spec%tpm_san_spec. exists x, n, attrs. tauto.
  - intros (x & n & attrs & -> & -> & -> & -> & -> & -> & -> & H). by apply attributes_valid_spec, tpm_san_spec.
Qed.

Lemma validateAIKCertificate_Ok c aaguid u : validateAIKCertificate c aaguid = Ok u ↔ aik_profile c aaguid.
Proof.
  destruct u. unfold validateAIKCertificate, aik_profile, validateAAGUIDExtension, subjectEmpty, hasAIKEKU.
  rewrite <-hasTPMSANAttributes_spec. split.
  - intros H. apply bind_Ok in H as ([] & H1%fail_if_Ok & H). apply bind_Ok in H as ([] & H2%fail_if_Ok & H).
    apply bind_Ok in H as ([] & H3%fail_if_Ok & H). apply bind_Ok in H as ([] & H4%fail_if_Ok & H).
    apply bind_Ok in H as ([] & H5%fail_if_Ok & H6). rewrite aaguid_extension_Ok in H6.
    guards in H1. guards in H2. guards in H3. guards in H4. guards in H5. tauto.
  - intros (-> & -> & Hs & Hk & He & Ha). rewrite (bool_decide_eq_true_2 (_ = mkName _ _ _ _ _ _ _ _ _ _ _)) by done. run.
    change (3 =? 3) with true. run.
    assert (HasExtension c oidExtensionSubjectAltName = true) as ->.
    { apply hasTPMSANAttributes_spec in Hs as (x & _ & _ & Hx & _). unfold HasExtension. by rewrite Hx. }
    rewrite Hs, (bool_decide_eq_true_2 _ Hk), He. run. by rewrite aaguid_extension_Ok.
Qed.

Lemma tpm_parseStatement_Ok st s :
  parseStatement st = Ok s ↔
  AttStmt.fields_are statement_fields st ∧
  AttStmt.field st "ver" = SValue (VString (ts_version s)) ∧ ts_version s ≠ "" ∧
  AttStmt.is_algorithm (AttStmt.field st "alg") (ts_algorithm s) ∧
  AttStmt.is_chain (AttStmt.field st "x5c") (ts_x5c s) ∧ AttStmt.is_bytes (AttStmt.field st "sig") (ts_signature s) ∧
  AttStmt.is_bytes (AttStmt.field st "certInfo") (ts_certInfo s) ∧
  AttStmt.is_bytes (AttStmt.field st "pubArea") (ts_publicArea s).
Proof.
  unfold parseStatement. split.
  - intros H. apply bind_Ok in H as ([] & _ & H). apply bind_Ok in H as ([] & Hk & H).
    rewrite AttStmt.known_fields_Ok in Hk. apply bind_Ok in H as (ver & [Hv Hv']%AttStmt.String_Ok & H).
    apply bind_Ok in H as (a & Ha%AttStmt.Algorithm_Ok & H). apply bind_Ok in H as (x5c & Hx%AttStmt.X5C_Ok & H).
    apply bind_Ok in H as (sig & Hs%AttStmt.Bytes_Ok & H). apply bind_Ok in H as (ci & Hc%AttStmt.Bytes_Ok & H).
    apply bind_Ok in H as (pa & Hp%AttStmt.Bytes_Ok & [= <-]). split; [|split_and!; done].
    apply (AttStmt.fields_present _ _ statement_fields); try done.
    repeat constructor; [by rewrite Hv|destruct Ha as (_ & ? & -> & _)|destruct Hx as (? & _ & -> & _)|
      destruct Hs as [-> _]|destruct Hc as [-> _]|destruct Hp as [-> _]]; done.
  - destruct s as [ver a x5c sig ci pa]. cbn [ts_version ts_algorithm ts_x5c ts_signature ts_certInfo ts_publicArea].
    intros (Hf & Hv & Hv' & Ha & Hx & Hs & Hc & Hp).
    rewrite (AttStmt.fields_are_size statement_fields st) by (done || (repeat constructor; set_solver)).
    change (Z.of_nat (length statement_fields) =? 6) with true. run.
    rewrite (proj2 (AttStmt.known_fields_Ok _ _ _ ())) by (intros key; apply Hf). run.
    rewrite (proj2 (AttStmt.String_Ok _ _ ver)) by done. run.
    rewrite (proj2 (AttStmt.Algorithm_Ok _ _ _) Ha). run. rewrite (proj2 (AttStmt.X5C_Ok _ _ _) Hx). run.
    rewrite (proj2 (AttStmt.Bytes_Ok _ _ _) Hs). run. rewrite (proj2 (AttStmt.Bytes_Ok _ _ _) Hc). run.
    by rewrite (proj2 (AttStmt.Bytes_Ok _ _ _) Hp).
Qed.

(** The tables of the specification: COSE algorithms with the TPM's numbers for
    the signature scheme and the hash, the curves with the length of a
    coordinate, and the hashes. *)
Definition tpm_algorithms : list (Z * Z * Z) :=
  [(-7, 0x18, 0x0b); (-35, 0x18, 0x0c); (-36, 0x18, 0x0d); (-257, 0x14, 0x0b); (-258, 0x14, 0x0c); (-259, 0x14, 0x0d);
   (-37, 0x16, 0x0b); (-38, 0x16, 0x0c); (-39, 0x16, 0x0d)].
Definition tpm_curves : list (Z * (string * Z)) := [(3, ("P-256", 32)); (4, ("P-384", 48)); (5, ("P-521", 66))].
Definition tpm_digest (algorithm : Z) (data digest : list byte) : Prop :=
  algorithm = 0x0b ∧ digest = Sum256 data ∨ algorithm = 0x0c ∧ digest = Sum384 data ∨ algorithm = 0x0d ∧ digest = Sum512 data.

Lemma signatureAlgorithmSpec_table a spec :
  signatureAlgorithmSpec a = Some spec ↔
  cs_cose spec = a ∧ (a, cs_signatureAlg spec, cs_hashAlg spec) ∈ tpm_algorithms.
Proof.
  unfold signatureAlgorithmSpec, tpm_algorithms. split.
  - intros H. repeat match type of H with (if ?a =? ?b then _ else _) = _ => destruct (Z.eqb_spec a b) as [->|] end;
      (discriminate || (injection H as <-; split; [done|cbn; set_solver])).
  - destruct spec as [c sa ha]. cbn [cs_cose cs_signatureAlg cs_hashAlg]. intros [-> H].
    repeat (apply elem_of_cons in H as [[= -> -> ->]|H]; [done|]). by apply elem_of_nil in H.
Qed.

Lemma tpmCurve_table id c : tpmCurve id = Some c ↔ (id, c) ∈ tpm_curves.
Proof.
  unfold tpmCurve, tpm_curves. split.
  - intros H. repeat match type of H with (if ?a =? ?b then _ else _) = _ => destruct (Z.eqb_spec a b) as [->|] end;
      (discriminate || (injection H as <-; set_solver)).
  - intros H. repeat (apply elem_of_cons in H as [[= -> ->]|H]; [done|]). by apply elem_of_nil in H.
Qed.

Lemma tpmHash_digest algorithm data digest : tpmHash algorithm data = Ok digest ↔ tpm_digest algorithm data digest.
Proof.
  unfold tpmHash, tpm_digest. split.
  - intros H. repeat match type of H with (if ?a =? ?b then _ else _) = _ => destruct (Z.eqb_spec a b) as [->|] end;
      (discriminate || (injection H as <-; auto)).
  - by intros [[-> ->]|[[-> ->]|[-> ->]]].
Qed.

(** A public area of name algorithm [nameAlg] that holds the key [m], byte for
    byte: type, name algorithm, attributes, authorization policy, no symmetric
    algorithm, an optional signing scheme, and the key. *)
Definition scheme_layout (allowed : list Z) (bytes : list byte) : Prop :=
  bytes = put_be 2 0x10 ∨
  ∃ scheme hash, scheme ∈ allowed ∧ hash ∈ [0x0b; 0x0c; 0x0d] ∧ bytes = put_be 2 scheme ++ put_be 2 hash.

Definition area_layout (nameAlg : Z) (m : CredentialPublicKeyMaterial) (raw : list byte) : Prop :=
  ∃ attributes policy scheme, 0 <= nameAlg < 2 ^ 16 ∧ 0 <= attributes < 2 ^ 32 ∧ fits16 policy ∧
    ((∃ key curve n, mat_EC2 m = Some key ∧ (curve, (ec2_Curve key, n)) ∈ tpm_curves ∧
        Z.of_nat (length (ec2_X key)) = n ∧ Z.of_nat (length (ec2_Y key)) = n ∧ scheme_layout [0x18] scheme ∧
        raw = put_be 2 0x23 ++ put_be 2 nameAlg ++ put_be 4 attributes ++ sized policy ++
              put_be 2 0x10 ++ scheme ++ put_be 2 curve ++ put_be 2 0x10 ++ sized (ec2_X key) ++ sized (ec2_Y key)) ∨
     (∃ key exponent, mat_RSA m = Some key ∧ RSA_Valid (Some key) = true ∧ prime (rsa_Exponent key) ∧ rsa_Exponent key ≠ 2 ∧
        0 <= exponent < 2 ^ 32 ∧ rsa_Exponent key = (if exponent =? 0 then 65537 else exponent) ∧
        8 * Z.of_nat (length (rsa_Modulus key)) < 2 ^ 16 ∧ scheme_layout [0x14; 0x16] scheme ∧
        raw = put_be 2 0x01 ++ put_be 2 nameAlg ++ put_be 4 attributes ++ sized policy ++
              put_be 2 0x10 ++ scheme ++ put_be 2 (8 * Z.of_nat (length (rsa_Modulus key))) ++ put_be 4 exponent ++
              sized (rsa_Modulus key))).

Lemma validTPMHashAlgorithm_table h : validTPMHashAlgorithm h = true ↔ h ∈ [0x0b; 0x0c; 0x0d].
Proof. unfold validTPMHashAlgorithm. rewrite !orb_true_iff, !Z.eqb_eq. unfold tpmAlgSHA256, tpmAlgSHA384, tpmAlgSHA512. set_solver. Qed.

Lemma scheme_layout_ok allowed bytes : Forall (λ a, a ≠ 0x10 ∧ 0 <= a < 65536) allowed →
  scheme_layout allowed bytes ↔ ∃ s, scheme_ok allowed s ∧ bytes = scheme_bytes s.
Proof.
  intros Hall. rewrite Forall_forall in Hall. split.
  - intros [->|(a & h & Ha & Hh & ->)]; [by exists None|]. exists (Some (a, h)). split; [|done].
    destruct (Hall _ Ha). split_and!; try done; try lia. by apply validTPMHashAlgorithm_table.
  - intros ([[a h]|] & Hs & ->); [right|by left]. destruct Hs as (Ha & _ & _ & Hh). exists a, h.
    split_and!; [done|by apply validTPMHashAlgorithm_table|done].
Qed.

#[local] Ltac fields_all := cbn [pa_raw pa_keyType pa_nameAlg pa_ec2 pa_rsa ae_curve ae_x ae_y ar_modulus ar_exponent
  ec2_Curve ec2_X ec2_Y rsa_Modulus rsa_Exponent] in *.

Lemma public_area_layout nameAlg m raw :
  (∃ area, parsePublicArea raw = Ok area ∧ pa_nameAlg area = nameAlg ∧ area_matches area m) ↔ area_layout nameAlg m raw.
Proof.
  assert (Forall (λ a, a ≠ 0x10 ∧ 0 <= a < 65536) [0x18]) as He by (repeat constructor; lia).
  assert (Forall (λ a, a ≠ 0x10 ∧ 0 <= a < 65536) [0x14; 0x16]) as Hr by (repeat constructor; lia).
  setoid_rewrite parsePublicArea_Ok. unfold area_layout, area_bytes, area_key. split.
  - intros ([raw' kt na ec2 rsa] & (<- & Hna & attributes & policy & key & Hat & Hpol & Hkey & Hraw) & <- & Hm). fields_all.
    destruct Hkey as [(-> & -> & [c x y] & s & id & n & -> & Hs & Hc & Hx & Hy & ->)|(-> & -> & [mo ex] & s & e & -> & Hs & Hexp & He' & Hv & Hp & Hl & ->)].
    + destruct Hm as [(_ & ec & [= <-] & Hm)|[? _]]; [|done]. exists attributes, policy, (scheme_bytes s).
      do 3 (split; [done|]). left. exists (mkEC2 c x y), id, n. split_and!; try done; [by apply tpmCurve_table|by apply scheme_layout_ok; eauto].
    + destruct Hm as [[? _]|(_ & k & [= <-] & Hm & _)]; [done|]. exists attributes, policy, (scheme_bytes s).
      do 3 (split; [done|]). right. exists (mkRSA mo ex), e. apply validTPMRSAExponent_spec in Hp as [Hp H2]. fields_all.
      split_and!; try done; try lia; [by apply scheme_layout_ok; eauto|]. rewrite Hraw. unfold rsa_bytes. by rewrite (Z.mul_comm 8).
  - intros (attributes & policy & scheme & Hna & Hat & Hpol & Hkey).
    destruct Hkey as [([c x y] & id & n & Hm & Hc & Hx & Hy & Hsch & ->)|
      ([mo ex] & e & Hm & Hv & Hp & H2 & Hexp & He' & Hl & Hsch & ->)]; fields_all;
      (apply scheme_layout_ok in Hsch as (s & Hs & ->); [|done]).
    + eexists (mkPublicArea _ tpmAlgECC nameAlg (Some (mkAreaEC2 c x y)) None).
      split; [|split; [done|left; split; [done|by eexists]]]. split; [reflexivity|]. split; [done|].
      exists attributes, policy, (ecc_bytes s id x y). split; [done|]. split; [done|]. split; [|done].
      left. do 2 (split; [done|]). exists (mkAreaEC2 c x y), s, id, n. split_and!; try done. by apply tpmCurve_table.
    + eexists (mkPublicArea _ tpmAlgRSA nameAlg None (Some (mkAreaRSA mo ex))).
      split; [|split; [done|right; split; [done|eexists; split_and!; [done|done|by rewrite Hm]]]].
      split; [reflexivity|]. split; [done|]. exists attributes, policy, (rsa_bytes s (Z.of_nat (length mo) * 8) e mo).
      split; [done|]. split; [done|]. split; [|unfold rsa_bytes; by rewrite (Z.mul_comm 8)].
      right. do 2 (split; [done|]). exists (mkAreaRSA mo ex), s, e. split_and!; try done; try (fields_all; lia).
      by apply validTPMRSAExponent_spec.
Qed.

(** A signature under a scheme and hash: an ECDSA pair is handed on in DER. *)
Definition signature_layout (scheme hash : Z) (raw signature : list byte) : Prop :=
  ∃ body, raw = put_be 2 scheme ++ put_be 2 hash ++ body ∧ signature ≠ [] ∧
    if scheme =? 0x18 then
      ∃ r s, r ≠ [] ∧ s ≠ [] ∧ fits16 r ∧ fits16 s ∧ body = sized r ++ sized s ∧
             signature = marshal_pair (be_uint r) (be_uint s)
    else fits16 signature ∧ body = sized signature.

(** Attestation data of a certified key: the generated-value magic, the type for
    certification, the signer, the extra data, clock information and firmware
    version, and the name and qualified name of the key. *)
Definition certify_layout (extraData name raw : list byte) : Prop :=
  ∃ signer clock firmware qualified,
    fits16 signer ∧ fits16 extraData ∧ fits16 name ∧ fits16 qualified ∧ length clock = 17%nat ∧ 0 <= firmware < 2 ^ 64 ∧
    raw = put_be 4 0xff544347 ++ put_be 2 0x8017 ++ sized signer ++ sized extraData ++ clock ++
          put_be 8 firmware ++ sized name ++ sized qualified.

(** What tpm attestation accepts: an attestation key, held by a certified TPM,
    signed a statement that binds this ceremony to the name of a public area
    with the credential key. *)
Definition tpm_verified (verifier : SignatureVerifier) (ctx : context) (request : VerificationRequest)
    (r : VerificationResult) : Prop :=
  let st := vq_Statement request in
  let bound := slice_list (bv_value (vq_AuthenticatorData request)) ++ vq_ClientDataHash request in
  vq_Format request = "tpm" ∧
  bv_len (vq_AuthenticatorData request) ≠ 0 ∧ vq_ClientDataHash request ≠ [] ∧
  AttStmt.fields_are ["ver"; "alg"; "x5c"; "sig"; "certInfo"; "pubArea"] st ∧
  AttStmt.field st "ver" = SValue (VString "2.0") ∧
  ∃ algorithm scheme hash x5c rawSignature rawInfo rawArea parsed attested nameAlg leaf signature material nameDigest boundDigest,
    AttStmt.is_algorithm (AttStmt.field st "alg") algorithm ∧ (algorithm, scheme, hash) ∈ tpm_algorithms ∧
    AttStmt.is_chain (AttStmt.field st "x5c") x5c ∧ AttStmt.is_bytes (AttStmt.field st "sig") rawSignature ∧
    AttStmt.is_bytes (AttStmt.field st "certInfo") rawInfo ∧ AttStmt.is_bytes (AttStmt.field st "pubArea") rawArea ∧
    ParseAuthenticatorData (vq_AuthenticatorData request) = Ok parsed ∧ pad_Attested parsed = Some attested ∧
    area_layout nameAlg (pk_material (vq_CredentialPublicKey request)) rawArea ∧
    tpm_digest nameAlg rawArea nameDigest ∧ tpm_digest hash bound boundDigest ∧
    certify_layout boundDigest (put_be 2 nameAlg ++ nameDigest) rawInfo ∧
    chain_leaf x5c leaf ∧ aik_profile leaf (acd_AAGUID attested) ∧
    signature_layout scheme hash rawSignature signature ∧
    X509Util.PublicKeyMaterial (xc_PublicKey leaf) = Some material ∧
    AttCrypto.accepts ctx verifier algorithm material [] rawInfo signature ∧
    r = x509_result TypeAttCA x5c.

Lemma tpm_verified_sound verifier ctx request r :
  VerifyAttestation verifier ctx request = Ok r → tpm_verified verifier ctx request r.
Proof.
  unfold VerifyAttestation, tpm_verified, verifySignature, publicArea_name, validateCertInfoBinding, Types.PublicKeyMaterial.
  rewrite CredentialPublicKeyMaterial_clone_id. intros H.
  apply bind_Ok in H as ([] & H1%fail_if_Ok & H).
  apply bind_Ok in H as ([ver a x5c rs ri ra] & (Hf & Hv & _ & Ha & Hx & Hs & Hi & Hp)%tpm_parseStatement_Ok & H).
  cbn [ts_version ts_algorithm ts_x5c ts_signature ts_certInfo ts_publicArea] in *.
  apply bind_Ok in H as ([] & H2%fail_if_Ok & H). apply bind_Ok in H as (spec & Hsp%of_option_Ok & H).
  apply bind_Ok in H as ([] & H3%fail_if_Ok & H). apply bind_Ok in H as (parsed & Hpa%wrap_err_Ok & H).
  apply bind_Ok in H as (att & Hat%of_option_Ok & H). apply bind_Ok in H as (area & Har & H).
  apply bind_Ok in H as ([] & Hm%validatePublicAreaBinding_Ok & H). apply bind_Ok in H as (name & Hn & H).
  apply bind_Ok in Hn as (nd & Hnd & [= <-]). apply bind_Ok in H as (bd & Hbd & H).
  apply bind_Ok in H as (info & Hinfo & H). apply bind_Ok in H as ([] & Hb%fail_if_Ok & H).
  apply bind_Ok in H as ([chain certs] & Hc & H). apply bind_Ok in H as (leaf & Hl & H).
  destruct (proj1 (chain_leaf_Ok _ _ _ _) (ex_intro _ certs (conj Hc Hl))) as [-> Hleaf].
  apply bind_Ok in H as ([] & Hk%validateAIKCertificate_Ok & H). apply bind_Ok in H as (sig & Hsig & H).
  apply (parseTPMSignature_Ok _ _ _ (signatureAlgorithmSpec_ok _ _ Hsp)) in Hsig.
  apply bind_Ok in H as (m & Hmat%of_option_Ok & H). apply bind_Ok in H as ([] & Hacc%AttCrypto.VerifySignature_Ok & [= <-]).
  guards in H1. guards in H2. guards in H3. guards in Hb. destruct H1 as [-> _], H3 as [H3 H4], Hb as [Hb1 Hb2]. subst ver.
  pose proof Har as Har'. apply parsePublicArea_Ok in Har' as [Hraw _]. rewrite Hraw in Hnd.
  split_and!; try done; [by intros E; rewrite E in H4|].
  pose proof Hsp as [_ Htab]%signatureAlgorithmSpec_table.
  exists a, (cs_signatureAlg spec), (cs_hashAlg spec), x5c, rs, ri, ra, parsed, att, (pa_nameAlg area), leaf, sig, m, nd, bd.
  split_and!; try done; [apply public_area_layout; by exists area|by apply tpmHash_digest..|].
  apply parseCertInfo_Ok in Hinfo. by rewrite Hb1, Hb2 in Hinfo.
Qed.

Lemma tpm_verified_complete verifier ctx request r :
  tpm_verified verifier ctx request r → VerifyAttestation verifier ctx request = Ok r.
Proof.
  unfold VerifyAttestation, tpm_verified, verifySignature, publicArea_name, validateCertInfoBinding, Types.PublicKeyMaterial.
  rewrite CredentialPublicKeyMaterial_clone_id.
  intros (-> & Hne & Hh & Hf & Hv & a & sa & ha & x5c & rs & ri & ra & parsed & att & na & leaf & sig & m & nd & bd &
    Ha & Htab & Hx & Hs & Hi & Hp & Hpa & Hat & (area & Har & <- & Hm)%public_area_layout & Hnd%tpmHash_digest & Hbd%tpmHash_digest &
    Hinfo & Hleaf & Hk & Hsig & Hmat & Hacc & ->).
  set (spec := mkSpec a sa ha). assert (signatureAlgorithmSpec a = Some spec) as Hsp by (by apply signatureAlgorithmSpec_table).
  rewrite (bool_decide_eq_true_2 (_ = format)) by done.
  assert (IsNil verifier = false) as -> by (by destruct Hacc as (_ & ? & -> & _)). run.
  rewrite (proj2 (tpm_parseStatement_Ok _ (mkStatement "2.0" a x5c rs ri ra))) by done. run.
  cbn [ts_version ts_algorithm ts_x5c ts_signature ts_certInfo ts_publicArea].
  rewrite (bool_decide_eq_true_2 (_ = tpmVersion)) by done. run. rewrite Hsp. run.
  rewrite (proj2 (Z.eqb_neq _ _)), bool_decide_eq_false_2 by (done || by destruct (vq_ClientDataHash request)). run.
  rewrite Hpa. run. rewrite Hat. run. rewrite Har. run. rewrite (proj2 (validatePublicAreaBinding_Ok _ _ ()) Hm). run.
  pose proof Har as Har'. apply parsePublicArea_Ok in Har' as [-> _]. rewrite Hnd. run.
  unfold AttCrypto.SignedData, bv_appendTo. cbn [app]. cbn [cs_hashAlg spec]. rewrite Hbd. run.
  rewrite (proj2 (parseCertInfo_Ok ri (mkCertifyInfo bd (put_be 2 (pa_nameAlg area) ++ nd))) Hinfo). run.
  cbn [ci_extraData ci_name]. rewrite !bool_decide_eq_true_2 by done. run.
  destruct (proj2 (chain_leaf_Ok _ ErrInvalidStatement _ _) (conj eq_refl Hleaf)) as (certs & -> & Hl). run. rewrite Hl. run.
  rewrite (proj2 (validateAIKCertificate_Ok _ _ ()) Hk). run.
  rewrite (proj2 (parseTPMSignature_Ok _ _ _ (signatureAlgorithmSpec_ok _ _ Hsp)) Hsig). run. rewrite Hmat. run.
  by rewrite (proj2 (AttCrypto.VerifySignature_Ok _ _ _ _ _ _ _ _ _ ()) Hacc).
Qed.
End Verified.

(** ** Properties *)

(** C21: tpm attestation is accepted exactly when the statement has its six
    fields for version 2.0, the public area is, byte for byte, the layout of an
    ECC or RSA area that holds the credential key, the attestation data is, byte
    for byte, the layout of a certification (magic 0xff544347, type 0x8017) that
    names that public area by its hash and carries the hash of authenticator data
    and client data hash under the signature algorithm, the leaf certificate
    meets the attestation key profile, and its key signed the attestation
    data. *)
Theorem tpm_attestation_exact {Ord : MapOrder} {X : X509} (verifier : SignatureVerifier) (ctx : context)
    (request : VerificationRequest) (r : VerificationResult) :
  Tpm.VerifyAttestation verifier ctx request = Ok r ↔ tpm_verified verifier ctx request r.
Proof. split; [apply tpm_verified_sound|apply tpm_verified_complete]. Qed.

(** The trial division on RSA exponents is a primality test: it ends, and
    it accepts exactly the odd primes. *)
Theorem tpm_exponent_prime (e : Z) : Tpm.validTPMRSAExponent e = true ↔ prime e ∧ e ≠ 2.
Proof. apply validTPMRSAExponent_spec. Qed.

(** Parsing a public area is exactly the inverse of its binary layout:
    header, authorization policy and the parameters of an ECC or RSA key, with
    coordinates of the curve's length, or a valid modulus of the stated size and
    a prime exponent (0 standing for 65537), and nothing after them. *)
Theorem tpm_public_area_exact (raw : list byte) (p : Tpm.publicArea) :
  Tpm.parsePublicArea raw = Ok p ↔
  Tpm.pa_raw p = raw ∧ 0 <= Tpm.pa_nameAlg p < 2 ^ 16 ∧
  ∃ attributes policy key, 0 <= attributes < 2 ^ 32 ∧ fits16 policy ∧ area_key p key ∧
    raw = area_bytes (Tpm.pa_keyType p) (Tpm.pa_nameAlg p) attributes policy key.
Proof. apply parsePublicArea_Ok. Qed.

(** An ECDSA signature is handed on as DER that decodes to exactly the two
    numbers of the TPM structure. *)
Theorem tpm_ecdsa_signature_der (raw sig : list byte) (spec : Tpm.coseAlgorithmSpec) (algorithm : Z)
    (Hs : Tpm.signatureAlgorithmSpec algorithm = Some spec) (He : Tpm.cs_signatureAlg spec = Tpm.tpmAlgECDSA)
    (H : Tpm.parseTPMSignature raw spec = Ok sig) :
  ∃ r s, r ≠ [] ∧ s ≠ [] ∧
    raw = put_be 2 Tpm.tpmAlgECDSA ++ put_be 2 (Tpm.cs_hashAlg spec) ++ sized r ++ sized s ∧
    unmarshal_pair sig = Ok (be_uint r, be_uint s).
Proof.
  apply (parseTPMSignature_Ok _ _ _ (signatureAlgorithmSpec_ok _ _ Hs)) in H as (body & -> & _ & H).
  rewrite He in *. destruct H as (r & s & Hr & Hs' & Hfr & Hfs & -> & ->). exists r, s. split_and!; try done.
  unfold fits16 in *. pose proof (be_uint_bound r) as Hbr. pose proof (be_uint_bound s) as Hbs.
  set (n := (length r `max` length s)%nat).
  assert (∀ l : list byte, (length l <= n)%nat → be_uint l < 256 ^ Z.of_nat n) as Hle.
  { intros l Hl. eapply Z.lt_le_trans; [apply be_uint_bound|]. apply Z.pow_le_mono_r; lia. }
  apply (unmarshal_pair_marshal _ _ n); [lia|..]; (split; [lia|apply Hle; lia]).
Qed.

Definition sample_tpm_signature : list byte := [x00; x18; x00; x0b; x00; x01; x81; x00; x02; x01; x02].

Lemma tpm_ecdsa_signature_der_witness :
  ∃ r s, r ≠ [] ∧ s ≠ [] ∧
    sample_tpm_signature = put_be 2 Tpm.tpmAlgECDSA ++ put_be 2 Tpm.tpmAlgSHA256 ++ sized r ++ sized s ∧
    unmarshal_pair (marshal_pair 129 258) = Ok (be_uint r, be_uint s).
Proof.
  apply (tpm_ecdsa_signature_der sample_tpm_signature (marshal_pair 129 258)
    (Tpm.mkSpec (-7) Tpm.tpmAlgECDSA Tpm.tpmAlgSHA256) (-7)); vm_compute; reflexivity.
Defined.
