(* ===== verification/Standard.v ===== *)
(** * The standard signature verifier

    Models [src/crypto/standard/standard.go].  The primitives of the Go
    cryptography packages are the operations of the class [Primitives]; what the
    code adds is the policy of allowed algorithms, the choice of the scheme for
    an algorithm and the checks of the key material. *)
From S2P Require Import Prelude GoStrings Sha2 AuthData ExtValue Types Attestation Asn1 X509.
Set Default Goal Selector "!".
Local Open Scope Z_scope.

Inductive hash := SHA256 | SHA384 | SHA512.
#[export] Instance hash_eq_dec : EqDecision hash.
Proof. solve_decision. Defined.

(** [ecdsa.VerifyASN1] on a point, a digest and a signature,
    [rsa.VerifyPKCS1v15], [rsa.VerifyPSS] with a salt as long as the hash, and
    [ed25519.Verify]. *)
Class Primitives : Type := {
  ecdsa_VerifyASN1 : curve → Z → Z → list byte → list byte → bool;
  rsa_VerifyPKCS1v15 : Z → Z → hash → list byte → list byte → result ();
  rsa_VerifyPSS : Z → Z → hash → list byte → list byte → result ();
  ed25519_Verify : list byte → list byte → list byte → bool;
}.

Module Standard.
Definition ErrNoAlgorithms : error := Sentinel "standard.ErrNoAlgorithms".
Definition ErrUnsupportedAlgorithm : error := Sentinel "standard.ErrUnsupportedAlgorithm".
Definition ErrInvalidPublicKey : error := Sentinel "standard.ErrInvalidPublicKey".
Definition ErrInvalidSignature : error := Sentinel "standard.ErrInvalidSignature".

(** A [*Verifier]: nil, or the set of its allowed algorithms. *)
Definition Verifier : Type := option (gset Z).

Definition supported (algorithm : Z) : bool :=
  bool_decide (algorithm ∈ [AlgorithmEdDSA; AlgorithmEd25519; AlgorithmES256; AlgorithmESP256; AlgorithmES384;
                            AlgorithmESP384; AlgorithmES512; AlgorithmESP512; AlgorithmRS256; AlgorithmRS384;
                            AlgorithmRS512; AlgorithmPS256; AlgorithmPS384; AlgorithmPS512]).

Fixpoint allow (allowed : gset Z) (algorithms : list Z) : result (gset Z) :=
  match algorithms with
  | [] => Ok allowed
  | algorithm :: algorithms =>
      _ ← fail_if (negb (supported algorithm)) (ErrorText ErrUnsupportedAlgorithm (string_of_bytes (itoa algorithm)));
      allow (allowed ∪ {[algorithm]}) algorithms
  end.

Definition NewVerifier (allowed : list Z) : result Verifier :=
  _ ← fail_if (bool_decide (length allowed = 0%nat)) ErrNoAlgorithms;
  s ← allow ∅ allowed; Ok (Some s).

Definition AcceptsAlgorithm (v : Verifier) (algorithm : Z) : bool :=
  match v with None => false | Some allowed => bool_decide (algorithm ∈ allowed) end.

Definition digest (h : hash) (signed : list byte) : list byte :=
  match h with SHA256 => Sum256 signed | SHA384 => Sum384 signed | SHA512 => Sum512 signed end.

(** [ecdsa.ParseUncompressedPublicKey] on a point of the curve's length. *)
Definition parseUncompressed (c : curve) (encoded : list byte) : option (Z * Z) :=
  let n := curve_bytes c in
  match encoded with
  | b :: xy =>
      if negb (bool_decide (b = x04)) || negb (bool_decide (length xy = 2 * n)%nat) then None
      else let x := be_uint (take n xy) in
           let y := be_uint (drop n xy) in
           if on_curve c x y then Some (x, y) else None
  | [] => None
  end.

Section Verify.
Context {P : Primitives}.

Definition verifyECDSA (material : CredentialPublicKeyMaterial) (curveName : string) (c : curve) (h : hash)
    (signed signature : list byte) : result () :=
  match material with
  | {| mat_EC2 := Some ec2; mat_RSA := None; mat_OKP := None |} =>
      _ ← fail_if (negb (bool_decide (ec2_Curve ec2 = curveName))) ErrInvalidPublicKey;
      let coordinateLength := curve_bytes c in
      _ ← fail_if (negb (bool_decide (length (ec2_X ec2) = coordinateLength))
                   || negb (bool_decide (length (ec2_Y ec2) = coordinateLength))) ErrInvalidPublicKey;
      let encoded := x04 :: ec2_X ec2 ++ ec2_Y ec2 in
      '(x, y) ← of_option ErrInvalidPublicKey (parseUncompressed c encoded);
      fail_if (negb (ecdsa_VerifyASN1 c x y (digest h signed) signature)) ErrInvalidSignature
  | _ => Err ErrInvalidPublicKey
  end.

Definition verifyRSA (material : CredentialPublicKeyMaterial) (h : hash) (pss : bool) (signed signature : list byte) :
    result () :=
  match material with
  | {| mat_RSA := Some rsa; mat_EC2 := None; mat_OKP := None |} =>
      _ ← fail_if (negb (RSA_Valid (Some rsa))) ErrInvalidPublicKey;
      let n := be_uint (rsa_Modulus rsa) in
      wrap_err ErrInvalidSignature
        (if pss then rsa_VerifyPSS n (rsa_Exponent rsa) h (digest h signed) signature
         else rsa_VerifyPKCS1v15 n (rsa_Exponent rsa) h (digest h signed) signature)
  | _ => Err ErrInvalidPublicKey
  end.

Definition verifyEd25519 (material : CredentialPublicKeyMaterial) (signed signature : list byte) : result () :=
  match material with
  | {| mat_OKP := Some okp; mat_EC2 := None; mat_RSA := None |} =>
      _ ← fail_if (negb (bool_decide (okp_Curve okp = OKPCurveEd25519))
                   || negb (Z.of_nat (length (okp_X okp)) =? ed25519_PublicKeySize)) ErrInvalidPublicKey;
      fail_if (negb (ed25519_Verify (okp_X okp) signed signature)) ErrInvalidSignature
  | _ => Err ErrInvalidPublicKey
  end.

Definition VerifySignature (v : Verifier) (ctx : context) (input : SignatureInput) : result () :=
  let algorithm := si_Algorithm input in
  let unsupported := ErrorText ErrUnsupportedAlgorithm (string_of_bytes (itoa algorithm)) in
  _ ← fail_if (negb (AcceptsAlgorithm v algorithm)) unsupported;
  match ctx "standard.VerifySignature" 0%nat with
  | Some e => Err e
  | None =>
      let key := si_PublicKey input in
      let signed := si_Signed input in
      let signature := slice_list (bv_bytes (si_Signature input)) in
      if (algorithm =? AlgorithmES256) || (algorithm =? AlgorithmESP256) then
        verifyECDSA key EC2CurveP256 P256 SHA256 signed signature
      else if (algorithm =? AlgorithmES384) || (algorithm =? AlgorithmESP384) then
        verifyECDSA key EC2CurveP384 P384 SHA384 signed signature
      else if (algorithm =? AlgorithmES512) || (algorithm =? AlgorithmESP512) then
        verifyECDSA key EC2CurveP521 P521 SHA512 signed signature
      else if algorithm =? AlgorithmRS256 then verifyRSA key SHA256 false signed signature
      else if algorithm =? AlgorithmRS384 then verifyRSA key SHA384 false signed signature
      else if algorithm =? AlgorithmRS512 then verifyRSA key SHA512 false signed signature
      else if algorithm =? AlgorithmPS256 then verifyRSA key SHA256 true signed signature
      else if algorithm =? AlgorithmPS384 then verifyRSA key SHA384 true signed signature
      else if algorithm =? AlgorithmPS512 then verifyRSA key SHA512 true signed signature
      else if (algorithm =? AlgorithmEdDSA) || (algorithm =? AlgorithmEd25519) then verifyEd25519 key signed signature
      else Err unsupported
  end.
End Verify.
End Standard.

(** ** Specification and lemmas *)
Section Lemmas.
Import Standard.
Context {P : Primitives}.

(** The signature schemes of COSE, independent of the code's order of cases. *)
Inductive scheme := ECDSA (c : curve) (h : hash) | PKCS1 (h : hash) | PSS (h : hash) | Ed25519.

Definition cose_schemes : list (Z * scheme) :=
  [(-7, ECDSA P256 SHA256); (-9, ECDSA P256 SHA256); (-35, ECDSA P384 SHA384); (-51, ECDSA P384 SHA384);
   (-36, ECDSA P521 SHA512); (-52, ECDSA P521 SHA512); (-257, PKCS1 SHA256); (-258, PKCS1 SHA384); (-259, PKCS1 SHA512);
   (-37, PSS SHA256); (-38, PSS SHA384); (-39, PSS SHA512); (-8, Ed25519); (-19, Ed25519)].

(** The primitive of the scheme accepts the signature under a key of its kind. *)
Definition scheme_accepts (s : scheme) (m : CredentialPublicKeyMaterial) (signed signature : list byte) : Prop :=
  match s with
  | ECDSA c h =>
      ∃ x y, on_curve c x y = true ∧ m = mkMaterial (Some (X509Util.ec_material c x y)) None None ∧
             ecdsa_VerifyASN1 c x y (digest h signed) signature = true
  | PKCS1 h =>
      ∃ k, m = mkMaterial None (Some k) None ∧ RSA_Valid (Some k) = true ∧
           rsa_VerifyPKCS1v15 (be_uint (rsa_Modulus k)) (rsa_Exponent k) h (digest h signed) signature = Ok ()
  | PSS h =>
      ∃ k, m = mkMaterial None (Some k) None ∧ RSA_Valid (Some k) = true ∧
           rsa_VerifyPSS (be_uint (rsa_Modulus k)) (rsa_Exponent k) h (digest h signed) signature = Ok ()
  | Ed25519 =>
      ∃ k, m = mkMaterial None None (Some (mkOKP OKPCurveEd25519 k)) ∧ length k = 32%nat ∧
           ed25519_Verify k signed signature = true
  end.

Lemma verifyEd25519_Ok m signed sig u : verifyEd25519 m signed sig = Ok u ↔ scheme_accepts Ed25519 m signed sig.
Proof.
  destruct u. unfold verifyEd25519. cbn [scheme_accepts]. split.
  - destruct m as [[] [] [[c k]|]]; try done. intros H. apply bind_Ok in H as ([] & H1%fail_if_Ok & H2%fail_if_Ok).
    guards in H1. guards in H2. unfold ed25519_PublicKeySize in H1. cbn in *. destruct H1 as [-> Hl].
    exists k. split_and!; [done|lia|done].
  - intros (k & -> & Hl & Hv). cbn [okp_Curve okp_X]. rewrite bool_decide_eq_true_2, Hl, Hv by done. done.
Qed.

Lemma verifyRSA_Ok m h pss signed sig u :
  verifyRSA m h pss signed sig = Ok u ↔ scheme_accepts (if pss then PSS h else PKCS1 h) m signed sig.
Proof.
  destruct u. unfold verifyRSA. split.
  - destruct m as [[] [k|] []]; try done. intros H. apply bind_Ok in H as ([] & H1%fail_if_Ok%negb_false_iff & H2%wrap_err_Ok).
    destruct pss; by exists k.
  - destruct pss; intros (k & -> & Hk & Hv); rewrite Hk; run; by rewrite Hv.
Qed.

Lemma parseUncompressed_Ok c X Y x y :
  length X = curve_bytes c → length Y = curve_bytes c →
  (parseUncompressed c (x04 :: X ++ Y) = Some (x, y) ↔
   on_curve c x y = true ∧ X = put_be (curve_bytes c) x ∧ Y = put_be (curve_bytes c) y).
Proof.
  intros HX HY. unfold parseUncompressed.
  rewrite (bool_decide_eq_true_2 (x04 = x04)), (bool_decide_eq_true_2 (length (X ++ Y) = _)) by (done || rewrite length_app; lia).
  cbn [negb orb]. rewrite take_app_length', drop_app_length' by done.
  split.
  - destruct (on_curve c (be_uint X) (be_uint Y)) eqn:E; [|done]. intros [= <- <-]. split; [done|].
    rewrite <-HX, put_be_uint, HX, <-HY. by rewrite put_be_uint.
  - intros (Hon & -> & ->).
    assert (0 <= x < 256 ^ Z.of_nat (curve_bytes c) ∧ 0 <= y < 256 ^ Z.of_nat (curve_bytes c)) as [Hx Hy].
    { unfold on_curve in Hon. rewrite !andb_true_iff, !Z.leb_le, !Z.ltb_lt in Hon.
      assert (curve_p c < 256 ^ Z.of_nat (curve_bytes c)) by (by destruct c). lia. }
    rewrite !be_uint_put by done. by rewrite Hon.
Qed.

Lemma verifyECDSA_Ok m c h signed sig u :
  verifyECDSA m (curve_Name c) c h signed sig = Ok u ↔ scheme_accepts (ECDSA c h) m signed sig.
Proof.
  destruct u. unfold verifyECDSA. cbn [scheme_accepts]. split.
  - destruct m as [[[n X Y]|] [] []]; try done. intros H. apply bind_Ok in H as ([] & H1%fail_if_Ok & H).
    apply bind_Ok in H as ([] & H2%fail_if_Ok & H). apply bind_Ok in H as ([x y] & H3%of_option_Ok & H4%fail_if_Ok).
    guards in H1. guards in H2. guards in H4. cbn [ec2_Curve ec2_X ec2_Y] in *. destruct H2 as [HX HY]. subst n.
    apply parseUncompressed_Ok in H3 as (Hon & -> & ->); [|done|done]. by exists x, y.
  - intros (x & y & Hon & -> & Hv). unfold X509Util.ec_material. cbn [ec2_Curve ec2_X ec2_Y].
    rewrite !bool_decide_eq_true_2 by (done || apply length_put_be). run.
    rewrite (proj2 (parseUncompressed_Ok c _ _ x y (length_put_be _ _) (length_put_be _ _))) by done. run. by rewrite Hv.
Qed.

(** Membership in the set that [NewVerifier] builds. *)
Lemma allow_Ok algorithms : ∀ allowed s,
  allow allowed algorithms = Ok s ↔ Forall (λ a, supported a = true) algorithms ∧ s = allowed ∪ list_to_set algorithms.
Proof.
  induction algorithms as [|a algorithms IH]; intros allowed s; cbn [allow].
  - split; [intros [= <-]; split; [constructor|set_solver]|]. intros [_ ->]. f_equal. set_solver.
  - rewrite bind_Ok, Forall_cons. split.
    + intros ([] & Ha%fail_if_Ok%negb_false_iff & [Hs ->]%IH). split; [done|]. set_solver.
    + intros ([Ha Hs] & ->). exists (). rewrite Ha. split; [done|]. apply IH. split; [done|]. set_solver.
Qed.

Lemma NewVerifier_Ok algorithms v :
  NewVerifier algorithms = Ok v ↔
  algorithms ≠ [] ∧ Forall (λ a, supported a = true) algorithms ∧ v = Some (list_to_set algorithms).
Proof.
  unfold NewVerifier. split.
  - intros H. apply bind_Ok in H as ([] & Hn%fail_if_Ok & H). apply bind_Ok in H as (s & [Hs ->]%allow_Ok & [= <-]).
    guards in Hn. split_and!; [by intros ->|done|]. f_equal. set_solver.
  - intros (Hn & Hs & ->). rewrite bool_decide_eq_false_2 by (by destruct algorithms). run.
    rewrite (proj2 (allow_Ok _ _ (list_to_set algorithms))); [done|]. split; [done|]. set_solver.
Qed.

(** The scheme of an algorithm, by search. *)
Fixpoint scheme_of (a : Z) (l : list (Z * scheme)) : option scheme :=
  match l with [] => None | (b, s) :: l => if a =? b then Some s else scheme_of a l end.

Lemma scheme_of_spec a s l : NoDup l.*1 → ((a, s) ∈ l ↔ scheme_of a l = Some s).
Proof.
  induction l as [|[b t] l IH]; cbn [scheme_of fmap list_fmap]; [set_solver|].
  intros [Hb Hnd]%NoDup_cons. rewrite elem_of_cons, pair_equal_spec. destruct (Z.eqb_spec a b) as [->|Hne].
  - split; [|by intros [= ->]; left]. intros [[_ ->]|Hin]; [done|]. exfalso. apply Hb, list_elem_of_fmap. by exists (b, s).
  - rewrite IH by done. naive_solver.
Qed.

Lemma cose_schemes_NoDup : NoDup cose_schemes.*1.
Proof. apply (bool_decide_unpack _). by vm_compute. Qed.

Lemma supported_scheme a : supported a = true ↔ ∃ s, scheme_of a cose_schemes = Some s.
Proof.
  unfold supported. rewrite bool_decide_eq_true. split.
  - intros H. repeat (apply elem_of_cons in H as [->|H]; [by eexists|]). by apply not_elem_of_nil in H.
  - intros [s Hs%scheme_of_spec]; [|apply cose_schemes_NoDup].
    repeat (apply elem_of_cons in Hs as [[= -> _]|Hs]; [set_solver|]). by apply not_elem_of_nil in Hs.
Qed.

Lemma standard_VerifySignature_Ok v ctx input u :
  VerifySignature v ctx input = Ok u ↔
  AcceptsAlgorithm v (si_Algorithm input) = true ∧ ctx "standard.VerifySignature" 0%nat = None ∧
  ∃ s, (si_Algorithm input, s) ∈ cose_schemes ∧
       scheme_accepts s (si_PublicKey input) (si_Signed input) (slice_list (bv_value (si_Signature input))).
Proof.
  unfold VerifySignature, bv_bytes. setoid_rewrite (scheme_of_spec _ _ _ cose_schemes_NoDup).
  destruct (AcceptsAlgorithm v _) eqn:Ea; [|split; [done|by intros [? _]]]. cbn [negb fail_if mbind result_bind].
  destruct (ctx _ _); [split; [done|by intros (_ & ? & _)]|].
  generalize (si_Algorithm input), (si_PublicKey input), (si_Signed input), (bv_value (si_Signature input)). clear.
  intros a key signed sig. unfold AlgorithmES256, AlgorithmESP256, AlgorithmES384, AlgorithmESP384, AlgorithmES512,
    AlgorithmESP512, AlgorithmRS256, AlgorithmRS384, AlgorithmRS512, AlgorithmPS256, AlgorithmPS384, AlgorithmPS512,
    AlgorithmEdDSA, AlgorithmEd25519.
  assert (Hcase : ∀ s (r : result ()) (o : option scheme), o = Some s →
    (r = Ok u ↔ scheme_accepts s key signed (slice_list sig)) →
    r = Ok u ↔ true = true ∧ @None error = None ∧ ∃ s, o = Some s ∧ scheme_accepts s key signed (slice_list sig)).
  { intros s r o -> ->. split; [intros H; split_and!; [done|done|by exists s]|]. by intros (_ & _ & ? & [= <-] & H). }
  destruct (scheme_of a cose_schemes) as [s|] eqn:E.
  - apply scheme_of_spec in E; [|apply cose_schemes_NoDup]. unfold cose_schemes in E.
    repeat (apply elem_of_cons in E as [[= -> ->]|E];
      [cbn [Z.eqb Pos.eqb orb]; eapply Hcase; [done|];
       first [apply (verifyECDSA_Ok _ P256) | apply (verifyECDSA_Ok _ P384) | apply (verifyECDSA_Ok _ P521)
             | apply (verifyRSA_Ok _ _ false) | apply (verifyRSA_Ok _ _ true) | apply verifyEd25519_Ok]|]).
    by apply not_elem_of_nil in E.
  - cbn [scheme_of cose_schemes] in E. repeat (destruct (Z.eqb_spec a _); [done|]).
    split; [|by intros (_ & _ & ? & ? & _)]. cbn [orb].
    repeat match goal with |- context [a =? ?b] => destruct (Z.eqb_spec a b); [congruence|] end. done.
Qed.
End Lemmas.

(** An Ed25519 input and primitives that accept any signature of 64 bytes. *)
Definition permissive : Primitives := {|
  ecdsa_VerifyASN1 _ _ _ _ _ := false;
  rsa_VerifyPKCS1v15 _ _ _ _ _ := Err Standard.ErrInvalidSignature;
  rsa_VerifyPSS _ _ _ _ _ := Err Standard.ErrInvalidSignature;
  ed25519_Verify _ _ signature := bool_decide (length signature = 64%nat) |}.

Definition sample_eddsa : SignatureInput := {|
  si_Algorithm := AlgorithmEdDSA;
  si_PublicKey := mkMaterial None None (Some (mkOKP OKPCurveEd25519 (replicate 32 x07)));
  si_Signed := [x01];
  si_RawCredentialPublicKey := [];
  si_Signature := mkByteValue (Some (replicate 64 x09)) |}.

(** ** Properties *)
Section Properties.
Import Standard.
Context {P : Primitives}.

(** A verifier built from a list of algorithms accepts a signature exactly when the algorithm is one of the list,
    the context is still alive, and the primitive of the scheme that COSE registers for that algorithm accepts the
    signature over the message under a key of that kind and no other: an on-curve point of the scheme's curve with
    fixed-length coordinates, a valid RSA key, or a 32-byte Ed25519 key. *)
Theorem standard_verifier_exact algorithms v ctx input u :
  NewVerifier algorithms = Ok v →
  VerifySignature v ctx input = Ok u ↔
  si_Algorithm input ∈ algorithms ∧ ctx "standard.VerifySignature" 0%nat = None ∧
  ∃ s, (si_Algorithm input, s) ∈ cose_schemes ∧
       scheme_accepts s (si_PublicKey input) (si_Signed input) (slice_list (bv_value (si_Signature input))).
Proof.
  intros (_ & _ & ->)%NewVerifier_Ok. rewrite standard_VerifySignature_Ok. unfold AcceptsAlgorithm.
  rewrite bool_decide_eq_true. set_solver.
Qed.

(** The constructor succeeds exactly on a non-empty list of algorithms that all have a registered scheme: no
    verifier accepts an algorithm it has no primitive for. *)
Theorem standard_verifier_supported algorithms :
  (∃ v, NewVerifier algorithms = Ok v) ↔ algorithms ≠ [] ∧ ∀ a, a ∈ algorithms → ∃ s, (a, s) ∈ cose_schemes.
Proof.
  setoid_rewrite NewVerifier_Ok. setoid_rewrite (scheme_of_spec _ _ _ cose_schemes_NoDup).
  setoid_rewrite <-supported_scheme. setoid_rewrite Forall_forall. naive_solver.
Qed.

End Properties.

Lemma standard_verifier_exact_witness :
  Standard.VerifySignature (P := permissive) (Some {[ -8 ]}) (λ _ _, None) sample_eddsa = Ok ().
Proof.
  apply (standard_verifier_exact (P := permissive) [-8] (Some {[ -8 ]}) _ sample_eddsa ()).
  - by vm_compute.
  - split_and!; [by left|done|]. exists Ed25519. split; [unfold cose_schemes; set_solver|].
    exists (replicate 32 x07). by vm_compute.
Defined.
