(* ===== verification/Cbor.v ===== *)
(** * The CBOR decoder and COSE keys

    Models [src/codec/cbor/cbor.go] and [src/codec/cbor/credential_key.go].  The
    CBOR library itself (package [fxamacker/cbor]) is the class [CborLibrary]: it
    turns options into decoding and encoding modes.  A decoded map is a
    [map[any]any], an integer an [int64] or a [uint64]. *)
From S2P Require Import Prelude GoStrings AuthData ExtValue Types Attestation Asn1 X509 Standard.
Set Default Goal Selector "!".
Local Open Scope Z_scope.

(** The library's [DecMode] and [EncMode], used on a destination of type [any].
    [UnmarshalFirst] also returns the bytes after the first item. *)
Record DecMode := mkDecMode {
  Unmarshal : list byte → result value;
  UnmarshalFirst : list byte → result (value * list byte);
}.
Record EncMode := mkEncMode { Marshal : value → result (list byte) }.

Record DecOptions := mkDecOptions {
  DupMapKey : string; opt_MaxNestedLevels : Z; opt_MaxArrayElements : Z; opt_MaxMapPairs : Z;
  IndefLength : string; TagsMd : string; UTF8 : string;
}.

Class CborLibrary : Type := {
  DecOptions_DecMode : DecOptions → result DecMode;
  CTAP2_EncMode : result EncMode;
}.

Module Cbor.
Definition ErrMalformedCBOR : error := Sentinel "cbor.ErrMalformedCBOR".
Definition ErrNilDecoder : error := ErrorNew "nil cbor decoder".

Definition MaxCBORBytes : Z := Z.shiftl 1 20.
Definition MaxNestedLevels : Z := 16.
Definition MaxArrayElements : Z := 64.
Definition MaxMapPairs : Z := 64.

Record Decoder := mkDecoder { mode : option DecMode; canonicalMode : option EncMode }.

Definition NewDecoder {L : CborLibrary} : result (option Decoder) :=
  mode ← DecOptions_DecMode {|
    DupMapKey := "DupMapKeyEnforcedAPF";
    opt_MaxNestedLevels := MaxNestedLevels;
    opt_MaxArrayElements := MaxArrayElements;
    opt_MaxMapPairs := MaxMapPairs;
    IndefLength := "IndefLengthForbidden";
    TagsMd := "TagsForbidden";
    UTF8 := "UTF8RejectInvalid" |};
  canonicalMode ← CTAP2_EncMode;
  Ok (Some (mkDecoder (Some mode) (Some canonicalMode))).

(** ** Decoded values *)

Definition any_map : gotype := TMap "" TAny TAny.

Fixpoint string_entries (out : gmap string value) (entries : list (mapkey * value)) : option (gmap string value) :=
  match entries with
  | [] => Some out
  | (KString name, item) :: entries => string_entries (<[name := item]> out) entries
  | _ => None
  end.

Definition stringMap (v : value) : option (gmap string value) :=
  match v with
  | VMap ty entries =>
      if bool_decide (ty = map_string_any) || bool_decide (ty = any_map) then string_entries ∅ entries else None
  | _ => None
  end.

Definition integer_of (type : string) (z : Z) : option Z :=
  if bool_decide (type = "int64") then Some z
  else if bool_decide (type = "uint64") then if 2 ^ 63 - 1 <? z then None else Some z
  else if bool_decide (type = "int") then Some z
  else if bool_decide (type = "uint") then if 2 ^ 63 - 1 <? z then None else Some z
  else None.

Definition integerKey (v : value) : option Z := match v with VInt type z => integer_of type z | _ => None end.
Definition map_integerKey (k : mapkey) : option Z := match k with KScalar type z => integer_of type z | _ => None end.

Fixpoint integer_entries (out : gmap Z value) (entries : list (mapkey * value)) : option (gmap Z value) :=
  match entries with
  | [] => Some out
  | (key, item) :: entries =>
      match map_integerKey key with Some integer => integer_entries (<[integer := item]> out) entries | None => None end
  end.

Definition integerMap (v : value) : option (gmap Z value) :=
  match v with VMap ty entries => if bool_decide (ty = any_map) then integer_entries ∅ entries else None | _ => None end.

Definition keySet (keys : list Z) : gset Z := list_to_set keys.

Definition as_string (v : option value) : option string := match v with Some (VString s) => Some s | _ => None end.
Definition as_bytes (v : option value) : option (slice byte) := match v with Some (VBytes b) => Some b | _ => None end.
Definition as_list (v : value) : option (list value) :=
  match v with VSeq ty items => if bool_decide (ty = slice_any) then Some items else None | _ => None end.

(** ** Attestation objects and extension maps *)

Definition validateCanonical (d : option Decoder) (data : list byte) : result value :=
  match d with
  | Some {| mode := Some mode; canonicalMode := Some canonicalMode |} =>
      let len := Z.of_nat (length data) in
      _ ← fail_if ((len =? 0) || (MaxCBORBytes <? len)) ErrMalformedCBOR;
      decoded ← wrap_err ErrMalformedCBOR (Unmarshal mode data);
      encoded ← wrap_err ErrMalformedCBOR (Marshal canonicalMode decoded);
      _ ← fail_if (negb (bool_decide (encoded = data))) ErrMalformedCBOR;
      Ok decoded
  | _ => Err ErrNilDecoder
  end.

(** The conversion [codec.AttestationStatement(m)]. *)
Definition statement_of (m : gmap string value) : AttestationStatement := SValue <$> m.

Definition decodeSubStatement (rawStatement : value) : result (string * option AttestationStatement) :=
  fields ← of_option ErrMalformedCBOR (stringMap rawStatement);
  _ ← fail_if (negb (map_len fields =? 2)) ErrMalformedCBOR;
  format ← of_option ErrMalformedCBOR (as_string (fields !! "fmt"));
  _ ← fail_if (negb (protocolidentifier_Valid format) || bool_decide (format = "compound")) ErrMalformedCBOR;
  statement ← of_option ErrMalformedCBOR (stringMap (default VNil (fields !! "attStmt")));
  Ok (format, Some (statement_of statement)).

Definition decodeAttestationStatement (format : string) (v : value) : result AttestationStatement :=
  if negb (bool_decide (format = "compound")) then
    statement ← of_option ErrMalformedCBOR (stringMap v); Ok (statement_of statement)
  else
    rawStatements ← of_option ErrMalformedCBOR (as_list v);
    _ ← fail_if (Z.of_nat (length rawStatements) <? 2) ErrMalformedCBOR;
    statements ← map_res decodeSubStatement rawStatements;
    Ok {[ CompoundSubStatementsKey := SCompound statements ]}.

Definition DecodeAttestationObject (d : option Decoder) (raw : AttestationObject) : result DecodedAttestationObject :=
  decodedValue ← validateCanonical d (slice_list (bv_bytes raw));
  fields ← of_option ErrMalformedCBOR (stringMap decodedValue);
  _ ← fail_if (negb (map_len fields =? 3)) ErrMalformedCBOR;
  format ← of_option ErrMalformedCBOR (as_string (fields !! "fmt"));
  _ ← fail_if (negb (protocolidentifier_Valid format)) ErrMalformedCBOR;
  authenticatorData ← of_option ErrMalformedCBOR (as_bytes (fields !! "authData"));
  _ ← fail_if (slice_len authenticatorData =? 0) ErrMalformedCBOR;
  statementValue ← of_option ErrMalformedCBOR (fields !! "attStmt");
  _ ← fail_if (match statementValue with VNil => true | _ => false end) ErrMalformedCBOR;
  statement ← decodeAttestationStatement format statementValue;
  authData ← NewAuthenticatorData authenticatorData;
  Ok (mkDecoded format authData statement raw).

Definition DecodeExtensionMap (d : option Decoder) (raw : list byte) : result ExtensionMap :=
  decodedValue ← validateCanonical d raw;
  of_option ErrMalformedCBOR (stringMap decodedValue).

(** ** Credential public keys *)

Definition credentialKeyOKP : Z := 1.
Definition credentialKeyEC2 : Z := 2.
Definition credentialKeyRSA : Z := 3.

Definition validateCredentialPublicKeyParameters (parameters : gmap Z value) (keyType : Z) : result () :=
  _ ← fail_if (negb (bool_decide (is_Some (parameters !! 1)))) ErrMalformedCBOR;
  _ ← fail_if (negb (bool_decide (is_Some (parameters !! 3)))) ErrMalformedCBOR;
  let check (allowed : gset Z) :=
    _ ← fail_if (negb (bool_decide (size parameters = size allowed))) ErrMalformedCBOR;
    for_each (λ e, fail_if (negb (bool_decide (e.1 ∈ allowed))) ErrMalformedCBOR) (map_to_list parameters) in
  if keyType =? credentialKeyEC2 then check (keySet [1; 3; -1; -2; -3])
  else if (keyType =? credentialKeyRSA) || (keyType =? credentialKeyOKP) then check (keySet [1; 3; -1; -2])
  else for_each (λ optional, fail_if (bool_decide (is_Some (parameters !! optional))) ErrMalformedCBOR) [2; 4; 5].

Definition credentialKeyInteger (key : gmap Z value) (label : Z) : result Z :=
  value ← of_option ErrMalformedCBOR (integerKey (default VNil (key !! label)));
  _ ← fail_if ((value <? - 2 ^ 31) || (2 ^ 31 - 1 <? value)) ErrMalformedCBOR;
  Ok value.

Definition credentialKeyBytes (key : gmap Z value) (label : Z) : result (list byte) :=
  value ← of_option ErrMalformedCBOR (as_bytes (key !! label)); Ok (slice_list value).

Definition ec2Curve (curve : Z) : option (string * Z) :=
  if curve =? 1 then Some (EC2CurveP256, 32)
  else if curve =? 2 then Some (EC2CurveP384, 48)
  else if curve =? 3 then Some (EC2CurveP521, 66)
  else None.

Definition okpCurve (curve : Z) : option (string * Z) :=
  if curve =? 6 then Some (OKPCurveEd25519, 32)
  else if curve =? 7 then Some (OKPCurveEd448, 57)
  else None.

Definition noMaterial : CredentialPublicKeyMaterial := mkMaterial None None None.
Definition or_none (r : result CredentialPublicKeyMaterial) : CredentialPublicKeyMaterial :=
  match r with Ok m => m | Err _ => noMaterial end.

(** The early returns of the empty material are errors that [or_none] drops. *)
Definition ec2PublicKeyMaterial (key : gmap Z value) : CredentialPublicKeyMaterial :=
  or_none (
    curve ← credentialKeyInteger key (-1);
    x ← credentialKeyBytes key (-2);
    y ← credentialKeyBytes key (-3);
    '(curveName, coordinateLength) ← of_option ErrMalformedCBOR (ec2Curve curve);
    _ ← fail_if (negb (Z.of_nat (length x) =? coordinateLength) || negb (Z.of_nat (length y) =? coordinateLength))
          ErrMalformedCBOR;
    Ok (mkMaterial (Some (mkEC2 curveName x y)) None None)).

Definition okpPublicKeyMaterial (key : gmap Z value) : CredentialPublicKeyMaterial :=
  or_none (
    curve ← credentialKeyInteger key (-1);
    x ← credentialKeyBytes key (-2);
    '(curveName, coordinateLength) ← of_option ErrMalformedCBOR (okpCurve curve);
    _ ← fail_if (negb (Z.of_nat (length x) =? coordinateLength)) ErrMalformedCBOR;
    let algorithm := match credentialKeyInteger key 3 with Ok a => a | Err _ => 0 end in
    _ ← fail_if (if (algorithm =? AlgorithmEdDSA) || (algorithm =? AlgorithmEd25519) then negb (curve =? 6)
                 else if algorithm =? AlgorithmEd448 then negb (curve =? 7) else false) ErrMalformedCBOR;
    Ok (mkMaterial None None (Some (mkOKP curveName x)))).

Definition rsaPublicKeyMaterial (key : gmap Z value) : CredentialPublicKeyMaterial :=
  or_none (
    modulus ← credentialKeyBytes key (-1);
    _ ← fail_if (bool_decide (length modulus = 0%nat) || bool_decide (head modulus = Some x00)) ErrMalformedCBOR;
    exponentBytes ← credentialKeyBytes key (-2);
    _ ← fail_if (bool_decide (length exponentBytes = 0%nat) || (4 <? Z.of_nat (length exponentBytes))
                 || bool_decide (head exponentBytes = Some x00)) ErrMalformedCBOR;
    let padded := replicate (4 - length exponentBytes) x00 ++ exponentBytes in
    let exponent := be_uint padded in
    _ ← fail_if (exponent =? 0) ErrMalformedCBOR;
    Ok (mkMaterial None (Some (mkRSA modulus exponent)) None)).

Definition publicKeyMaterial (key : gmap Z value) (keyType : Z) : CredentialPublicKeyMaterial :=
  if keyType =? credentialKeyEC2 then ec2PublicKeyMaterial key
  else if keyType =? credentialKeyRSA then rsaPublicKeyMaterial key
  else if keyType =? credentialKeyOKP then okpPublicKeyMaterial key
  else noMaterial.

(** [ecdh.Curve.NewPublicKey] accepts the uncompressed points of its curve. *)
Definition ecdh_NewPublicKey (c : curve) (raw : list byte) : bool :=
  bool_decide (is_Some (Standard.parseUncompressed c raw)).

Definition validateEC2Material (material : CredentialPublicKeyMaterial) (curveName : string) (c : curve) : result () :=
  match material with
  | {| mat_EC2 := Some ec2; mat_RSA := None; mat_OKP := None |} =>
      _ ← fail_if (negb (bool_decide (ec2_Curve ec2 = curveName))) ErrMalformedCBOR;
      let raw := x04 :: ec2_X ec2 ++ ec2_Y ec2 in
      fail_if (negb (ecdh_NewPublicKey c raw)) ErrMalformedCBOR
  | _ => Err ErrMalformedCBOR
  end.

Definition validateCredentialPublicKey (algorithm : Z) (material : CredentialPublicKeyMaterial) : result () :=
  if (algorithm =? AlgorithmES256) || (algorithm =? AlgorithmESP256) then validateEC2Material material EC2CurveP256 P256
  else if (algorithm =? AlgorithmES384) || (algorithm =? AlgorithmESP384) then
    validateEC2Material material EC2CurveP384 P384
  else if (algorithm =? AlgorithmES512) || (algorithm =? AlgorithmESP512) then
    validateEC2Material material EC2CurveP521 P521
  else if (algorithm =? AlgorithmRS256) || (algorithm =? AlgorithmRS384) || (algorithm =? AlgorithmRS512)
          || (algorithm =? AlgorithmPS256) || (algorithm =? AlgorithmPS384) || (algorithm =? AlgorithmPS512) then
    match material with
    | {| mat_EC2 := None; mat_RSA := Some rsa; mat_OKP := None |} =>
        fail_if (negb (RSA_Valid (Some rsa))) ErrMalformedCBOR
    | _ => Err ErrMalformedCBOR
    end
  else if (algorithm =? AlgorithmEdDSA) || (algorithm =? AlgorithmEd25519) then
    match material with
    | {| mat_EC2 := None; mat_RSA := None; mat_OKP := Some okp |} =>
        fail_if (negb (bool_decide (okp_Curve okp = OKPCurveEd25519)) || negb (Z.of_nat (length (okp_X okp)) =? 32))
          ErrMalformedCBOR
    | _ => Err ErrMalformedCBOR
    end
  else if algorithm =? AlgorithmEd448 then
    match material with
    | {| mat_EC2 := None; mat_RSA := None; mat_OKP := Some okp |} =>
        fail_if (negb (bool_decide (okp_Curve okp = OKPCurveEd448)) || negb (Z.of_nat (length (okp_X okp)) =? 57))
          ErrMalformedCBOR
    | _ => Err ErrMalformedCBOR
    end
  else Ok ().

Definition DecodeCredentialPublicKey (d : option Decoder) (raw : list byte) : result CredentialPublicKey :=
  match d with
  | Some {| mode := Some mode; canonicalMode := Some _ |} =>
      let len := Z.of_nat (length raw) in
      _ ← fail_if ((len =? 0) || (MaxCBORBytes <? len)) ErrMalformedCBOR;
      '(_, rest) ← wrap_err ErrMalformedCBOR (UnmarshalFirst mode raw);
      let consumed := len - Z.of_nat (length rest) in
      _ ← fail_if ((consumed <=? 0) || (MaxCredentialPublicKeyBytes <? consumed)) ErrMalformedCBOR;
      let encodedKey := take (Z.to_nat consumed) raw in
      canonicalValue ← validateCanonical d encodedKey;
      key ← of_option ErrMalformedCBOR (integerMap canonicalValue);
      keyType ← or_err ErrMalformedCBOR (credentialKeyInteger key 1);
      _ ← fail_if (keyType =? 0) ErrMalformedCBOR;
      _ ← validateCredentialPublicKeyParameters key keyType;
      algorithm ← or_err ErrMalformedCBOR (credentialKeyInteger key 3);
      _ ← fail_if (algorithm =? 0) ErrMalformedCBOR;
      _ ← or_err ErrMalformedCBOR (COSEAlgorithmIdentifier_Validate algorithm);
      let material := publicKeyMaterial key keyType in
      _ ← validateCredentialPublicKey algorithm material;
      Ok (NewCredentialPublicKey algorithm encodedKey material)
  | _ => Err ErrNilDecoder
  end.
End Cbor.

(** ** Specification *)

(** The CTAP2 canonical encodings of a value: both directions of the library agree on it. *)
Definition canonical (dm : DecMode) (em : EncMode) (data : list byte) (v : value) : Prop :=
  0 < Z.of_nat (length data) <= 1048576 ∧ Unmarshal dm data = Ok v ∧ Marshal em v = Ok data.

Inductive sub_decodes : value → string * option AttestationStatement → Prop :=
| sub_decoded v m st fmt statement :
    Cbor.stringMap v = Some m → dom m = {["fmt"; "attStmt"]} → m !! "fmt" = Some (VString fmt) →
    protocolidentifier_Valid fmt = true → fmt ≠ "compound" →
    m !! "attStmt" = Some st → Cbor.stringMap st = Some statement →
    sub_decodes v (fmt, Some (Cbor.statement_of statement)).

Inductive statement_decodes : string → value → AttestationStatement → Prop :=
| plain_decoded fmt v m :
    fmt ≠ "compound" → Cbor.stringMap v = Some m → statement_decodes fmt v (Cbor.statement_of m)
| compound_decoded items subs :
    (2 <= length items)%nat → Forall2 sub_decodes items subs →
    statement_decodes "compound" (VSeq slice_any items) {[ CompoundSubStatementsKey := SCompound subs ]}.

Definition int_param (m : gmap Z value) (label z : Z) : Prop :=
  - 2 ^ 31 <= z < 2 ^ 31 ∧
  ∃ ty, m !! label = Some (VInt ty z) ∧ ty ∈ ["int64"; "uint64"; "int"; "uint"].
Definition bytes_param (m : gmap Z value) (label : Z) (b : list byte) : Prop :=
  ∃ s, m !! label = Some (VBytes s) ∧ slice_list s = b.

Definition cose_curve (c : curve) : Z := match c with P224 => 0 | P256 => 1 | P384 => 2 | P521 => 3 end.

(** A key of the scheme's kind. *)
Definition scheme_key (s : scheme) (m : CredentialPublicKeyMaterial) : Prop :=
  match s with
  | ECDSA c _ => ∃ x y, on_curve c x y = true ∧ m = mkMaterial (Some (X509Util.ec_material c x y)) None None
  | PKCS1 _ | PSS _ => ∃ k, m = mkMaterial None (Some k) None ∧ RSA_Valid (Some k) = true
  | Ed25519 => ∃ x, m = mkMaterial None None (Some (mkOKP OKPCurveEd25519 x)) ∧ length x = 32%nat
  end.

(** The COSE_Key parameters of such a key, and no others. *)
Definition scheme_params (s : scheme) (m : gmap Z value) (material : CredentialPublicKeyMaterial) : Prop :=
  match s with
  | ECDSA c _ =>
      ∃ x y, on_curve c x y = true ∧ material = mkMaterial (Some (X509Util.ec_material c x y)) None None ∧
             dom m = {[1; 3; -1; -2; -3]} ∧ int_param m 1 2 ∧ int_param m (-1) (cose_curve c) ∧
             bytes_param m (-2) (put_be (curve_bytes c) x) ∧ bytes_param m (-3) (put_be (curve_bytes c) y)
  | PKCS1 _ | PSS _ =>
      ∃ n e, let k := mkRSA n (be_uint e) in
             material = mkMaterial None (Some k) None ∧ RSA_Valid (Some k) = true ∧
             dom m = {[1; 3; -1; -2]} ∧ int_param m 1 3 ∧ bytes_param m (-1) n ∧ bytes_param m (-2) e ∧
             (length e <= 4)%nat ∧ head e ≠ Some x00
  | Ed25519 =>
      ∃ x, material = mkMaterial None None (Some (mkOKP OKPCurveEd25519 x)) ∧ length x = 32%nat ∧
           dom m = {[1; 3; -1; -2]} ∧ int_param m 1 1 ∧ int_param m (-1) 6 ∧ bytes_param m (-2) x
  end.

(** ** Lemmas *)
Section Lemmas.
Import Cbor.
Context (dm : DecMode) (em : EncMode).
Notation decoder := (Some (mkDecoder (Some dm) (Some em))).

Lemma validateCanonical_Ok data v : validateCanonical decoder data = Ok v ↔ canonical dm em data v.
Proof.
  unfold validateCanonical, canonical, MaxCBORBytes. change (Z.shiftl 1 20) with 1048576. split.
  - intros H. res_inv. guards in Hok. guards in Hok2. subst. split_and!; [lia|lia|done|done].
  - intros (Hl & -> & Hm). rewrite (proj2 (Z.eqb_neq _ 0)), (proj2 (Z.ltb_ge 1048576 _)) by lia. run. rewrite Hm. run.
    by rewrite bool_decide_eq_true_2.
Qed.

Lemma as_string_Some v s : as_string v = Some s ↔ v = Some (VString s).
Proof. destruct v as [[]|]; naive_solver. Qed.
Lemma as_bytes_Some v s : as_bytes v = Some s ↔ v = Some (VBytes s).
Proof. destruct v as [[]|]; naive_solver. Qed.
Lemma as_list_Some v items : as_list v = Some items ↔ v = VSeq slice_any items.
Proof. destruct v; cbn; try naive_solver. case_bool_decide; naive_solver. Qed.

(** A map with the right number of entries, some of which are known. *)
Lemma dom_by_size {K A} `{Countable K} (m : gmap K A) (keys : gset K) :
  keys ⊆ dom m → size m = size keys → dom m = keys.
Proof. intros Hs Hz. symmetry. apply set_subseteq_size_eq; [done|]. rewrite size_dom. lia. Qed.

Lemma size_by_dom {K A} `{Countable K} (m : gmap K A) (keys : gset K) : dom m = keys → size m = size keys.
Proof. intros <-. by rewrite size_dom. Qed.

Lemma decodeSubStatement_Ok v p : decodeSubStatement v = Ok p ↔ sub_decodes v p.
Proof.
  unfold decodeSubStatement. split.
  - intros H. res_inv. guards in Hok0. guards in Hok2. destruct Hok2 as [Hv Hc]. apply as_string_Some in Hok1.
    destruct (a !! "attStmt") as [st|] eqn:Hst; [|done]. eapply sub_decoded; [done| |done|done|done|done|done].
    apply dom_by_size; [|change (size a = 2%nat); unfold map_len in Hok0; lia].
    intros k Hk. apply elem_of_dom. set_solver.
  - intros H. inversion H as [? m st fmt statement Hm Hd Hf Hv Hc Hst Hs]; subst. rewrite Hm. run.
    apply size_by_dom in Hd. change (size m = 2%nat) in Hd. unfold map_len. rewrite Hd. run. rewrite Hf. cbn [as_string]. run. rewrite Hv, bool_decide_eq_false_2 by done.
    run. rewrite Hst. cbn [default from_option id]. by rewrite Hs.
Qed.

Lemma decodeAttestationStatement_Ok fmt v st :
  decodeAttestationStatement fmt v = Ok st ↔ statement_decodes fmt v st.
Proof.
  unfold decodeAttestationStatement. split.
  - case_bool_decide as Hc; cbn [negb]; intros H; res_inv.
    + apply as_list_Some in Hok. subst v. guards in Hok0. apply map_res_Ok in Hok1.
      constructor; [lia|]. eapply Forall2_impl; [done|]. intros ? ? ?. by apply decodeSubStatement_Ok.
    + by constructor.
  - intros H. inversion H as [? ? m Hc Hm|items subs Hl Hs]; subst.
    + rewrite bool_decide_eq_false_2 by done. run. by rewrite Hm.
    + rewrite bool_decide_eq_true_2 by done. run. cbn [as_list]. rewrite bool_decide_eq_true_2 by done. run.
      rewrite (proj2 (Z.ltb_ge _ _)) by lia. run.
      by rewrite (proj2 (map_res_Ok decodeSubStatement items subs))
        by (eapply Forall2_impl; [done|intros ? ? ?%decodeSubStatement_Ok; done]).
Qed.

Lemma credentialKeyInteger_Ok m l z : credentialKeyInteger m l = Ok z ↔ int_param m l z.
Proof.
  unfold credentialKeyInteger, int_param. split.
  - intros H. res_inv. guards in Hok0. split; [lia|].
    destruct (m !! l) as [v|]; [|done]. destruct v; try done. cbn in Hok. unfold integer_of in Hok.
    repeat case_bool_decide; repeat case_match; try done; injection Hok as <-; eexists; (split; [done|]); subst; set_solver.
  - intros (Hz & ty & Hm & Hty). rewrite Hm. cbn [default from_option id integerKey].
    assert (integer_of ty z = Some z) as ->.
    { unfold integer_of. rewrite !(proj2 (Z.ltb_ge _ _)) by lia. repeat case_bool_decide; try done. set_solver. }
    run. by rewrite !(proj2 (Z.ltb_ge _ _)) by lia.
Qed.

Lemma credentialKeyBytes_Ok m l b : credentialKeyBytes m l = Ok b ↔ bytes_param m l b.
Proof.
  unfold credentialKeyBytes, bytes_param. split.
  - intros H. res_inv. apply as_bytes_Some in Hok. by eexists.
  - intros (s & -> & <-). done.
Qed.

Lemma params_Ok m kt (keys : list Z) :
  kt = 2 ∧ keys = [1; 3; -1; -2; -3] ∨ (kt = 1 ∨ kt = 3) ∧ keys = [1; 3; -1; -2] →
  validateCredentialPublicKeyParameters m kt = Ok () ↔ dom m = keySet keys.
Proof.
  intros Hkt. assert (validateCredentialPublicKeyParameters m kt = Ok () ↔
    is_Some (m !! 1) ∧ is_Some (m !! 3) ∧ size m = size (keySet keys) ∧ dom m ⊆ keySet keys) as ->.
  { set (P := dom m ⊆ _).
    assert (P ↔ Forall (λ e, fail_if (negb (bool_decide (e.1 ∈ keySet keys))) ErrMalformedCBOR = Ok ()) (map_to_list m)) as ->.
    { unfold P. rewrite Forall_forall. split.
      - intros Hs [k v] Hk%elem_of_map_to_list%elem_of_dom_2. rewrite bool_decide_eq_true_2 by (by apply Hs). done.
      - intros Hf k [v Hk%elem_of_map_to_list]%elem_of_dom. apply Hf, fail_if_Ok in Hk. by guards in Hk. }
    clear P. unfold validateCredentialPublicKeyParameters.
    destruct Hkt as [[-> ->]|[[-> | ->] ->]]; cbn [Z.eqb Pos.eqb credentialKeyEC2 credentialKeyRSA credentialKeyOKP orb];
      (split; [intros H; res_inv; guards in Hok; guards in Hok0; guards in Hok1; done|]);
      intros (H1 & H3 & Hs & Hf); rewrite !bool_decide_eq_true_2 by done; run; by apply for_each_Ok. }
  split.
  - intros (_ & _ & Hz & Hs). apply set_subseteq_size_eq; [done|]. rewrite size_dom. lia.
  - intros Hd. split_and!; [| |by apply size_by_dom|by rewrite Hd];
      apply elem_of_dom; rewrite Hd; unfold keySet; destruct Hkt as [[_ ->]|[_ ->]]; set_solver.
Qed.

Lemma be_uint_leading_zeros n l : be_uint (replicate n x00 ++ l) = be_uint l.
Proof. induction n as [|n IH]; [done|]. cbn [replicate app]. rewrite be_uint_cons, IH. by change (byte_val x00) with 0. Qed.

(** The case analysis of the decoder on algorithms follows the registered schemes. *)
Definition sized (m : CredentialPublicKeyMaterial) : Prop :=
  ∀ k c, mat_EC2 m = Some k → ec2_Curve k = curve_Name c →
         length (ec2_X k) = curve_bytes c ∧ length (ec2_Y k) = curve_bytes c.

Lemma validateEC2Material_Ok m c u :
  sized m → validateEC2Material m (curve_Name c) c = Ok u ↔ scheme_key (ECDSA c SHA256) m.
Proof.
  destruct u. intros Hlen. unfold validateEC2Material. cbn [scheme_key]. split.
  - destruct m as [[[n X Y]|] [] []]; try done. intros H. apply bind_Ok in H as ([] & Hok%fail_if_Ok & H%fail_if_Ok).
    unfold ecdh_NewPublicKey in H. guards in Hok. guards in H.
    cbn [ec2_X ec2_Y ec2_Curve] in *. subst n. destruct (Hlen _ c eq_refl eq_refl) as [HX HY]. destruct H as [[x y] H].
    apply parseUncompressed_Ok in H as (Hon & -> & ->); [|done|done]. by exists x, y.
  - intros (x & y & Hon & ->). unfold X509Util.ec_material. cbn [ec2_Curve ec2_X ec2_Y].
    rewrite bool_decide_eq_true_2 by done. run. unfold ecdh_NewPublicKey.
    by rewrite (proj2 (parseUncompressed_Ok c _ _ x y (length_put_be _ _) (length_put_be _ _))).
Qed.

Lemma ec2PublicKeyMaterial_spec m k :
  mat_EC2 (ec2PublicKeyMaterial m) = Some k ↔
  ∃ c, c ≠ P224 ∧ ec2_Curve k = curve_Name c ∧ int_param m (-1) (cose_curve c) ∧ bytes_param m (-2) (ec2_X k) ∧
       bytes_param m (-3) (ec2_Y k) ∧ length (ec2_X k) = curve_bytes c ∧ length (ec2_Y k) = curve_bytes c.
Proof.
  unfold ec2PublicKeyMaterial. split.
  - intros H. match type of H with mat_EC2 (or_none ?r) = _ => destruct r as [mat|] eqn:E end; [|done].
    res_inv. destruct a2 as [curveName n]. res_inv. guards in Hok3. injection H as <-. cbn [ec2_Curve ec2_X ec2_Y].
    apply credentialKeyInteger_Ok in Hok. apply credentialKeyBytes_Ok in Hok0, Hok1.
    unfold ec2Curve in Hok2. destruct (Z.eqb_spec a 1) as [->|]; [|destruct (Z.eqb_spec a 2) as [->|];
      [|destruct (Z.eqb_spec a 3) as [->|]; [|done]]]; injection Hok2 as <- <-.
    + exists P256. split_and!; try done; cbn; lia.
    + exists P384. split_and!; try done; cbn; lia.
    + exists P521. split_and!; try done; cbn; lia.
  - intros (c & Hc & Hn & Hi & Hx & Hy & Hlx & Hly).
    apply credentialKeyInteger_Ok in Hi. apply credentialKeyBytes_Ok in Hx, Hy. rewrite Hi. run. rewrite Hx. run. rewrite Hy.
    run. rewrite Hlx, Hly. destruct k as [? X Y], c; cbn in *; by subst.
Qed.

Lemma okpPublicKeyMaterial_spec m a x :
  int_param m 3 a → a = -8 ∨ a = -19 →
  okpPublicKeyMaterial m = mkMaterial None None (Some (mkOKP OKPCurveEd25519 x)) ↔
  int_param m (-1) 6 ∧ bytes_param m (-2) x ∧ length x = 32%nat.
Proof.
  intros Ha%credentialKeyInteger_Ok Hed. unfold okpPublicKeyMaterial. rewrite Ha. split.
  - intros H. match type of H with or_none ?r = _ => destruct r as [mat|] eqn:E end; [|done].
    res_inv. destruct a2 as [curveName n]. res_inv. cbn [or_none] in H. injection H as -> ->. guards in Hok2.
    apply credentialKeyInteger_Ok in Hok. apply credentialKeyBytes_Ok in Hok0. unfold okpCurve in Hok1.
    destruct (Z.eqb_spec a0 6) as [->|]; [injection Hok1 as <-; split_and!; [done|done|lia]|].
    by destruct (a0 =? 7).
  - intros (Hi & Hx & Hl). apply credentialKeyInteger_Ok in Hi. apply credentialKeyBytes_Ok in Hx.
    rewrite Hi. run. rewrite Hx. run. cbn [okpCurve Z.eqb Pos.eqb]. run. rewrite Hl.
    by destruct Hed as [-> | ->].
Qed.

Lemma rsaPublicKeyMaterial_spec m n e :
  3 <= e → RSA_Valid (Some (mkRSA n e)) = true →
  rsaPublicKeyMaterial m = mkMaterial None (Some (mkRSA n e)) None ↔
  ∃ eb, e = be_uint eb ∧ bytes_param m (-1) n ∧ bytes_param m (-2) eb ∧ (length eb <= 4)%nat ∧ head eb ≠ Some x00.
Proof.
  intros He Hv. unfold rsaPublicKeyMaterial. split.
  - intros H. match type of H with or_none ?r = _ => destruct r as [mat|] eqn:E end; [|done].
    res_inv. cbn [or_none] in H. injection H as -> <-. guards in Hok2. apply credentialKeyBytes_Ok in Hok, Hok1.
    eexists. split_and!; [|done|done|lia|naive_solver]. apply be_uint_leading_zeros.
  - intros (eb & -> & Hn & Hb & Hl & Hh). apply credentialKeyBytes_Ok in Hn, Hb. rewrite Hn. run.
    assert (length n ≠ 0%nat ∧ head n ≠ Some x00) as [Hn0 Hnh].
    { destruct n as [|b n]; [done|]. split; [done|]. intros [= ->]. done. }
    rewrite !bool_decide_eq_false_2 by done. run. rewrite Hb. run.
    rewrite !bool_decide_eq_false_2 by (done || (intros ->%nil_length_inv; cbn in He; lia)).
    rewrite (proj2 (Z.ltb_ge _ _)) by lia. run. rewrite be_uint_leading_zeros.
    by rewrite (proj2 (Z.eqb_neq _ _)) by lia.
Qed.

Lemma int_param_fun m l a b : int_param m l a → int_param m l b → a = b.
Proof. intros (_ & t & Ha & _) (_ & t' & Hb & _). rewrite Ha in Hb. by injection Hb. Qed.

(** Only the key type of the material's kind produces it. *)
Lemma material_kind m kt :
  let material := publicKeyMaterial m kt in
  (is_Some (mat_EC2 material) → kt = 2) ∧ (is_Some (mat_RSA material) → kt = 3) ∧ (is_Some (mat_OKP material) → kt = 1).
Proof.
  cbv zeta. unfold publicKeyMaterial, credentialKeyEC2, credentialKeyRSA, credentialKeyOKP,
    ec2PublicKeyMaterial, rsaPublicKeyMaterial, okpPublicKeyMaterial.
  assert (∀ r (P : CredentialPublicKeyMaterial → Prop), P noMaterial → (∀ a, r = Ok a → P a) → P (or_none r)) as Hor.
  { intros [a|e] P Hn Ha; [by apply Ha|done]. }
  destruct (Z.eqb_spec kt 2) as [->|]; [|destruct (Z.eqb_spec kt 3) as [->|]; [|destruct (Z.eqb_spec kt 1) as [->|]]];
    try (split_and!; by intros []).
  - match goal with |- context [or_none ?r] => pattern (or_none r) end.
    apply Hor; [split_and!; by intros []|]. intros a H. res_inv. destruct a3. res_inv. split_and!; [done| |]; by intros [].
  - match goal with |- context [or_none ?r] => pattern (or_none r) end.
    apply Hor; [split_and!; by intros []|]. intros a H. res_inv. split_and!; [|done|]; by intros [].
  - match goal with |- context [or_none ?r] => pattern (or_none r) end.
    apply Hor; [split_and!; by intros []|]. intros a H. res_inv. destruct a2. res_inv. split_and!; [| |done]; by intros [].
Qed.

Lemma material_sized m kt : sized (publicKeyMaterial m kt).
Proof.
  intros k c Hk Hc. assert (kt = 2) as -> by (by apply (material_kind m kt)).
  apply ec2PublicKeyMaterial_spec in Hk as (c' & _ & Hc' & _ & _ & _ & HX & HY).
  assert (c = c') as -> by (rewrite Hc in Hc'; by destruct c, c'). done.
Qed.

Lemma validateCredentialPublicKey_Ok a s m u :
  sized m → (a, s) ∈ cose_schemes → validateCredentialPublicKey a m = Ok u ↔ scheme_key s m.
Proof.
  intros Hm Hs. destruct u. unfold validateCredentialPublicKey, AlgorithmES256, AlgorithmESP256, AlgorithmES384, AlgorithmESP384,
    AlgorithmES512, AlgorithmESP512, AlgorithmRS256, AlgorithmRS384, AlgorithmRS512, AlgorithmPS256, AlgorithmPS384,
    AlgorithmPS512, AlgorithmEdDSA, AlgorithmEd25519, AlgorithmEd448.
  assert (Hec : ∀ c h, validateEC2Material m (curve_Name c) c = Ok () ↔ scheme_key (ECDSA c h) m).
  { intros c h. by apply validateEC2Material_Ok. }
  assert (Hrsa : ∀ h, match m with
    | {| mat_EC2 := None; mat_RSA := Some rsa; mat_OKP := None |} => fail_if (negb (RSA_Valid (Some rsa))) ErrMalformedCBOR
    | _ => Err ErrMalformedCBOR end = Ok () ↔ scheme_key (PKCS1 h) m).
  { intros h. cbn [scheme_key]. destruct m as [[] [k|] []]; try (split; [done|by intros (? & ? & ?)]).
    rewrite fail_if_Ok, negb_false_iff. naive_solver. }
  assert (Hed : match m with
    | {| mat_EC2 := None; mat_RSA := None; mat_OKP := Some okp |} =>
        fail_if (negb (bool_decide (okp_Curve okp = OKPCurveEd25519)) || negb (Z.of_nat (length (okp_X okp)) =? 32))
          ErrMalformedCBOR
    | _ => Err ErrMalformedCBOR end = Ok () ↔ scheme_key Ed25519 m).
  { cbn [scheme_key]. destruct m as [[] [k|] [[c x]|]]; try (split; [done|by intros (? & ? & ?)]).
    rewrite fail_if_Ok. guards. cbn [okp_Curve okp_X]. split.
    - intros [-> Hx]. exists x. split; [done|lia].
    - intros (? & [= -> ->] & Hx). split; [done|lia]. }
  repeat (apply elem_of_cons in Hs as [[= -> ->]|Hs];
    [cbn [Z.eqb Pos.eqb orb];
     first [apply (Hec P256) | apply (Hec P384) | apply (Hec P521) | apply (Hrsa SHA256) | apply Hed]|]).
  by apply not_elem_of_nil in Hs.
Qed.

Lemma cose_Ed25519 a : (a, Ed25519) ∈ cose_schemes → a = -8 ∨ a = -19.
Proof. intros H. repeat (apply elem_of_cons in H as [H|H]; [by simplify_eq; auto|]). by apply not_elem_of_nil in H. Qed.
Lemma cose_not_P224 a h c : (a, ECDSA c h) ∈ cose_schemes → c ≠ P224.
Proof. intros H ->. repeat (apply elem_of_cons in H as [H|H]; [by simplify_eq|]). by apply not_elem_of_nil in H. Qed.
Lemma cose_nonzero a s : (a, s) ∈ cose_schemes → a ≠ 0.
Proof. intros H ->. repeat (apply elem_of_cons in H as [H|H]; [by simplify_eq|]). by apply not_elem_of_nil in H. Qed.

(** The parameters that the material of a key was read from. *)
Lemma scheme_params_intro a s m kt :
  (a, s) ∈ cose_schemes → int_param m 1 kt → int_param m 3 a → validateCredentialPublicKeyParameters m kt = Ok () →
  scheme_key s (publicKeyMaterial m kt) → scheme_params s m (publicKeyMaterial m kt).
Proof.
  intros Hs Hkt Ha Hp Hv. destruct (material_kind m kt) as (HE & HR & HO).
  assert (Hrsa : scheme_key (PKCS1 SHA256) (publicKeyMaterial m kt) → scheme_params (PKCS1 SHA256) m (publicKeyMaterial m kt)).
  { intros ([n e] & Hm & Hk). rewrite Hm in *. assert (kt = 3) as -> by (by apply HR).
    apply (params_Ok _ _ [1; 3; -1; -2]) in Hp; [|by auto].
    apply (rsaPublicKeyMaterial_spec m n e) in Hm as (eb & -> & Hn & He & Hl & Hh); [|by apply (X509Util.RSA_Valid_exponent (mkRSA n _))|done].
    exists n, eb. by split_and!. }
  destruct s as [c h|h|h|]; cbn [scheme_key scheme_params] in *; [|by apply Hrsa|by apply Hrsa|].
  - destruct Hv as (x & y & Hon & Hm). rewrite Hm in *. assert (kt = 2) as -> by (by apply HE).
    apply (params_Ok _ _ [1; 3; -1; -2; -3]) in Hp; [|by left].
    assert (Hk : mat_EC2 (publicKeyMaterial m 2) = Some (X509Util.ec_material c x y)) by (by rewrite Hm).
    apply ec2PublicKeyMaterial_spec in Hk as (c' & _ & Hc & Hi & Hx & Hy & _).
    assert (c = c') as -> by (by destruct c, c'). exists x, y. by split_and!.
  - destruct Hv as (x & Hm & Hl). rewrite Hm in *. assert (kt = 1) as -> by (by apply HO).
    apply (params_Ok _ _ [1; 3; -1; -2]) in Hp; [|by auto].
    apply (okpPublicKeyMaterial_spec m a x) in Hm as (Hi & Hx & _); [|done|by apply cose_Ed25519].
    exists x. by split_and!.
Qed.

Lemma scheme_params_elim a s m material :
  (a, s) ∈ cose_schemes → int_param m 3 a → scheme_params s m material →
  scheme_key s material ∧
  ∃ kt, kt ≠ 0 ∧ int_param m 1 kt ∧ validateCredentialPublicKeyParameters m kt = Ok () ∧ material = publicKeyMaterial m kt.
Proof.
  intros Hs Ha Hm.
  assert (Hrsa : scheme_params (PKCS1 SHA256) m material → scheme_key (PKCS1 SHA256) material ∧
    ∃ kt, kt ≠ 0 ∧ int_param m 1 kt ∧ validateCredentialPublicKeyParameters m kt = Ok () ∧ material = publicKeyMaterial m kt).
  { intros (n & e & -> & Hv & Hd & Hkt & Hn & He & Hl & Hh). split; [by eexists|]. exists 3.
    split_and!; [done|done|apply (params_Ok _ _ [1; 3; -1; -2]); [by auto|by rewrite Hd]|].
    symmetry. apply rsaPublicKeyMaterial_spec; [by apply (X509Util.RSA_Valid_exponent (mkRSA n _))|done|]. exists e. by split_and!. }
  destruct s as [c h|h|h|]; cbn [scheme_key scheme_params] in *; [|by apply Hrsa|by apply Hrsa|].
  - destruct Hm as (x & y & Hon & -> & Hd & Hkt & Hc & Hx & Hy). split; [by exists x, y|]. exists 2.
    split_and!; [done|done|apply (params_Ok _ _ [1; 3; -1; -2; -3]); [by left|by rewrite Hd]|].
    assert (Hk : mat_EC2 (publicKeyMaterial m 2) = Some (X509Util.ec_material c x y)).
    { apply ec2PublicKeyMaterial_spec. exists c. cbn [X509Util.ec_material ec2_Curve ec2_X ec2_Y].
      split_and!; try done; [|by rewrite length_put_be..]. by apply (cose_not_P224 a h). }
    destruct (material_kind m 2) as (_ & HR & HO). destruct (publicKeyMaterial m 2) as [E R O]. cbn in *. subst E.
    destruct R; [by discriminate HR|]. by destruct O; [discriminate HO|].
  - destruct Hm as (x & -> & Hl & Hd & Hkt & Hc & Hx). split; [by exists x|]. exists 1.
    split_and!; [done|done|apply (params_Ok _ _ [1; 3; -1; -2]); [by auto|by rewrite Hd]|].
    symmetry. apply (okpPublicKeyMaterial_spec m a x); [done|by apply cose_Ed25519|by split_and!].
Qed.

Lemma DecodeAttestationObject_Ok raw o :
  DecodeAttestationObject decoder raw = Ok o ↔
  ∃ v m st, canonical dm em (slice_list (bv_value raw)) v ∧ stringMap v = Some m ∧
    dom m = {["fmt"; "attStmt"; "authData"]} ∧
    m !! "fmt" = Some (VString (do_Format o)) ∧ protocolidentifier_Valid (do_Format o) = true ∧
    m !! "authData" = Some (VBytes (bv_value (do_AuthenticatorData o))) ∧ 37 <= slice_len (bv_value (do_AuthenticatorData o)) ∧
    m !! "attStmt" = Some st ∧ statement_decodes (do_Format o) st (do_Statement o) ∧ do_Raw o = raw.
Proof.
  unfold DecodeAttestationObject. split.
  - intros H. res_inv. guards in Hok1. guards in Hok3. guards in Hok5. apply validateCanonical_Ok in Hok.
    apply as_string_Some in Hok2. apply as_bytes_Some in Hok4. apply decodeAttestationStatement_Ok in Hok8.
    apply newByteValue_Ok in Hok9 as (-> & Hlen & _). exists a, a0, a6. cbn [do_Format do_AuthenticatorData do_Statement do_Raw bv_value].
    split_and!; try done. apply dom_by_size; [|change (size a0 = 3%nat); unfold map_len in Hok1; lia].
    intros k Hk. apply elem_of_dom. set_solver.
  - intros (v & m & st & Hv & Hm & Hd & Hf & Hid & Hau & Hlen & Hst & Hs & Hr).
    unfold bv_bytes. rewrite (proj2 (validateCanonical_Ok _ v)) by done. run. rewrite Hm. run.
    apply size_by_dom in Hd. change (size m = 3%nat) in Hd. unfold map_len. rewrite Hd. run. rewrite Hf.
    cbn [as_string]. run. rewrite Hid. run. rewrite Hau. cbn [as_bytes]. run. rewrite (proj2 (Z.eqb_neq _ 0)) by lia. run.
    rewrite Hst. run. assert (match st with VNil => true | _ => false end = false) as ->.
    { destruct st; try done. by inversion Hs. }
    run. apply decodeAttestationStatement_Ok in Hs. rewrite Hs. run. unfold NewAuthenticatorData.
    rewrite (proj2 (newByteValue_Ok _ _ _ _ (do_AuthenticatorData o))); [by destruct o; cbn in *; subst|].
    split_and!; [by destruct (do_AuthenticatorData o)|done|done].
Qed.

Lemma DecodeCredentialPublicKey_Ok raw k :
  DecodeCredentialPublicKey decoder raw = Ok k ↔
  ∃ v0 rest v m kt, 0 < Z.of_nat (length raw) <= 1048576 ∧ UnmarshalFirst dm raw = Ok (v0, rest) ∧
    0 < Z.of_nat (length raw) - Z.of_nat (length rest) <= 65536 ∧
    pk_raw k = take (Z.to_nat (Z.of_nat (length raw) - Z.of_nat (length rest))) raw ∧
    canonical dm em (pk_raw k) v ∧ integerMap v = Some m ∧
    int_param m 1 kt ∧ kt ≠ 0 ∧ validateCredentialPublicKeyParameters m kt = Ok () ∧
    int_param m 3 (pk_Algorithm k) ∧ pk_Algorithm k ≠ 0 ∧
    validateCredentialPublicKey (pk_Algorithm k) (pk_material k) = Ok () ∧ pk_material k = publicKeyMaterial m kt.
Proof.
  unfold DecodeCredentialPublicKey, MaxCBORBytes, MaxCredentialPublicKeyBytes. change (Z.shiftl 1 20) with 1048576.
  change (64 * 1024) with 65536. split.
  - intros H. apply bind_Ok in H as ([] & Hl%fail_if_Ok & H). apply bind_Ok in H as ([v0 rest] & Hf%wrap_err_Ok & H).
    res_inv. destruct a, a3, a4, a6, a7, a8. guards in Hl. guards in Hok. rewrite Z.leb_gt in Hok. guards in Hok3. guards in Hok6.
    apply validateCanonical_Ok in Hok0. apply credentialKeyInteger_Ok in Hok2, Hok5.
    exists v0, rest, a0, a1, a2. cbn [NewCredentialPublicKey pk_raw pk_Algorithm pk_material].
    rewrite CredentialPublicKeyMaterial_clone_id. split_and!; try done; lia.
  - intros (v0 & rest & v & m & kt & Hl & Hf & Hc & Hraw & Hv & Hm & Hkt & Hkt0 & Hp & Ha & Ha0 & Hval & Hmat).
    rewrite (proj2 (Z.eqb_neq _ 0)), (proj2 (Z.ltb_ge 1048576 _)) by lia. run. rewrite Hf. run.
    rewrite (proj2 (Z.leb_gt _ 0)), (proj2 (Z.ltb_ge 65536 _)) by lia. run. rewrite <-Hraw.
    rewrite (proj2 (validateCanonical_Ok _ v)) by done. run. rewrite Hm. run.
    rewrite (proj2 (credentialKeyInteger_Ok m 1 kt)) by done. run. rewrite (proj2 (Z.eqb_neq _ 0)) by done. run.
    rewrite Hp. run. rewrite (proj2 (credentialKeyInteger_Ok m 3 (pk_Algorithm k))) by done. run.
    rewrite (proj2 (Z.eqb_neq _ 0)) by done. run.
    rewrite (proj2 (COSEAlgorithmIdentifier_Validate_Ok _ ())) by apply Ha. run. rewrite <-Hmat, Hval. run.
    unfold NewCredentialPublicKey. rewrite CredentialPublicKeyMaterial_clone_id. by destruct k.
Qed.
End Lemmas.

(** The documented contract of [UnmarshalFirst]: it decodes the first item and returns the remaining bytes. *)
Class FirstItem (dm : DecMode) : Prop :=
  unmarshal_first raw v rest :
    UnmarshalFirst dm raw = Ok (v, rest) ↔ ∃ item, raw = item ++ rest ∧ Unmarshal dm item = Ok v.

(** With a key of the right kind, only the primitive can refuse. *)
Lemma scheme_verifies {P : Primitives} s v (ctx : context) input :
  (si_Algorithm input, s) ∈ cose_schemes → Standard.AcceptsAlgorithm v (si_Algorithm input) = true →
  ctx "standard.VerifySignature" 0%nat = None → scheme_key s (si_PublicKey input) →
  match Standard.VerifySignature v ctx input with
  | Ok _ => True
  | Err e => errors_is e Standard.ErrInvalidSignature = true
  end.
Proof.
  intros Hs Ha Hctx Hk. unfold Standard.VerifySignature. rewrite Ha, Hctx. run.
  generalize dependent (si_Algorithm input). intros a Hs _. clear Hctx.
  generalize dependent (si_PublicKey input). intros key Hk. generalize (si_Signed input) as signed, (slice_list (bv_bytes (si_Signature input))) as sig.
  intros signed sig.
  assert (Hec : ∀ c h, scheme_key (ECDSA c h) key →
    match Standard.verifyECDSA key (curve_Name c) c h signed sig with
    | Ok _ => True | Err e => errors_is e Standard.ErrInvalidSignature = true end).
  { intros c h (x & y & Hon & ->). unfold Standard.verifyECDSA, X509Util.ec_material. cbn [ec2_Curve ec2_X ec2_Y].
    rewrite !bool_decide_eq_true_2 by (done || apply length_put_be). run.
    rewrite (proj2 (parseUncompressed_Ok c _ _ x y (length_put_be _ _) (length_put_be _ _))) by done. run.
    by destruct (ecdsa_VerifyASN1 _ _ _ _ _). }
  assert (Hrsa : ∀ h pss, scheme_key (PKCS1 h) key →
    match Standard.verifyRSA key h pss signed sig with
    | Ok _ => True | Err e => errors_is e Standard.ErrInvalidSignature = true end).
  { intros h pss (k & -> & Hv). unfold Standard.verifyRSA. rewrite Hv. run. by destruct pss; [destruct (rsa_VerifyPSS _ _ _ _ _)|destruct (rsa_VerifyPKCS1v15 _ _ _ _ _)]. }
  assert (Hed : scheme_key Ed25519 key →
    match Standard.verifyEd25519 key signed sig with
    | Ok _ => True | Err e => errors_is e Standard.ErrInvalidSignature = true end).
  { intros (x & -> & Hx). unfold Standard.verifyEd25519. cbn [okp_Curve okp_X]. rewrite Hx, bool_decide_eq_true_2 by done. run.
    by destruct (ed25519_Verify _ _ _). }
  repeat (apply elem_of_cons in Hs as [[= -> ->]|Hs];
    [cbn [Z.eqb Pos.eqb orb AlgorithmES256 AlgorithmESP256 AlgorithmES384 AlgorithmESP384 AlgorithmES512 AlgorithmESP512
          AlgorithmRS256 AlgorithmRS384 AlgorithmRS512 AlgorithmPS256 AlgorithmPS384 AlgorithmPS512 AlgorithmEdDSA AlgorithmEd25519];
     first [by apply (Hec P256) | by apply (Hec P384) | by apply (Hec P521) | by apply Hrsa | by apply Hed]|]).
  by apply not_elem_of_nil in Hs.
Qed.

(** ** Properties *)
Section Properties.
Import Cbor.
Context (dm : DecMode) (em : EncMode).
Notation decoder := (Some (mkDecoder (Some dm) (Some em))).

(** C18: For every algorithm with a registered signature scheme, a byte string decodes to a key exactly when it is the
    canonical encoding of a COSE_Key followed by any bytes (within the size bounds): the map has exactly the parameters
    of the key type that the scheme needs, the coordinates have the curve's fixed length and name a point of the curve
    the algorithm fixes, an RSA key is valid with a minimal exponent, an Ed25519 key has 32 bytes.  The stored raw key
    is the consumed encoding alone. *)
Theorem cose_key_exact `{!FirstItem dm} s raw k :
  (pk_Algorithm k, s) ∈ cose_schemes →
  DecodeCredentialPublicKey decoder raw = Ok k ↔
  ∃ rest v m, raw = pk_raw k ++ rest ∧ Z.of_nat (length raw) <= 1048576 ∧ Z.of_nat (length (pk_raw k)) <= 65536 ∧
    canonical dm em (pk_raw k) v ∧ integerMap v = Some m ∧
    int_param m 3 (pk_Algorithm k) ∧ scheme_params s m (pk_material k).
Proof.
  intros Hs. rewrite DecodeCredentialPublicKey_Ok. split.
  - intros (v0 & rest & v & m & kt & Hl & (item & -> & Hi)%unmarshal_first & Hc & Hraw & Hv & Hm & Hkt & _ & Hp & Ha & _ & Hval & Hmat).
    rewrite length_app in *. replace (Z.to_nat _) with (length item) in Hraw by lia. rewrite take_app_length in Hraw.
    rewrite Hraw in *. exists rest, v, m. rewrite Hmat in *.
    apply (validateCredentialPublicKey_Ok _ s) in Hval; [|apply material_sized|done].
    split_and!; try done; [lia|lia|]. by apply (scheme_params_intro (pk_Algorithm k)).
  - intros (rest & v & m & -> & Hl & Hr & Hv & Hm & Ha & Hp).
    apply (scheme_params_elim (pk_Algorithm k)) in Hp as (Hk & kt & Hkt0 & Hkt & Hp & Hmat); [|done|done].
    destruct Hv as (Hlen & Hu & Hmar). exists v, rest, v, m, kt. rewrite length_app in *.
    replace (Z.to_nat _) with (length (pk_raw k)) by lia. rewrite take_app_length.
    split_and!; try done; try lia; [apply unmarshal_first; by eexists|by eapply cose_nonzero|].
    apply (validateCredentialPublicKey_Ok _ s); [|done|done]. rewrite Hmat. apply material_sized.
Qed.

(** A key that the decoder returned is never refused as malformed by the signature verifier: for an accepted
    algorithm and a live context, the verifier succeeds or reports an invalid signature. *)
Theorem decoded_key_verifiable {P : Primitives} algorithms v ctx raw k input :
  Standard.NewVerifier algorithms = Ok v →
  DecodeCredentialPublicKey decoder raw = Ok k →
  si_Algorithm input = pk_Algorithm k → si_PublicKey input = PublicKeyMaterial k →
  pk_Algorithm k ∈ algorithms → ctx "standard.VerifySignature" 0%nat = None →
  match Standard.VerifySignature v ctx input with
  | Ok _ => True
  | Err e => errors_is e Standard.ErrInvalidSignature = true
  end.
Proof.
  intros Hv Hk Ha Hm Hin Hctx. assert (Hv' := Hv). apply NewVerifier_Ok in Hv' as (_ & Hs & ->).
  rewrite Forall_forall in Hs. apply Hs in Hin as Hsup. apply supported_scheme in Hsup as [s Hs'%scheme_of_spec]; [|apply cose_schemes_NoDup].
  apply DecodeCredentialPublicKey_Ok in Hk as (_ & _ & _ & m & kt & _ & _ & _ & _ & _ & _ & _ & _ & _ & _ & _ & Hval & Hmat).
  apply (validateCredentialPublicKey_Ok _ s) in Hval; [|rewrite Hmat; apply material_sized|done].
  unfold PublicKeyMaterial in Hm. rewrite CredentialPublicKeyMaterial_clone_id in Hm. rewrite <-Hm in Hval.
  apply (scheme_verifies s); [by rewrite Ha| |done|done].
  unfold Standard.AcceptsAlgorithm. rewrite Ha. apply bool_decide_eq_true. set_solver.
Qed.

(** C24: An attestation object decodes exactly when its bytes are the canonical encoding of a map with the three members
    [fmt], [attStmt] and [authData] and no other, whose format is a valid identifier, whose authenticator data is
    non-empty and within bounds, and whose statement is a string-keyed map, or at least two well-formed
    non-compound sub-statements for the compound format. *)
Theorem attestation_object_exact raw o :
  DecodeAttestationObject decoder raw = Ok o ↔
  ∃ v m st, canonical dm em (slice_list (bv_value raw)) v ∧ stringMap v = Some m ∧
    dom m = {["fmt"; "attStmt"; "authData"]} ∧
    m !! "fmt" = Some (VString (do_Format o)) ∧ protocolidentifier_Valid (do_Format o) = true ∧
    m !! "authData" = Some (VBytes (bv_value (do_AuthenticatorData o))) ∧ 37 <= slice_len (bv_value (do_AuthenticatorData o)) ∧
    m !! "attStmt" = Some st ∧ statement_decodes (do_Format o) st (do_Statement o) ∧ do_Raw o = raw.
Proof. apply DecodeAttestationObject_Ok. Qed.
End Properties.

(** ** A sample library

    It knows one key, the Ed25519 COSE_Key of 42 bytes. *)
Definition sample_ed25519 : list byte :=
  [xa4; x01; x01; x03; x27; x20; x06; x21; x58; x20] ++ replicate 32 x07.
Definition sample_ed25519_value : value :=
  VMap Cbor.any_map
    [(KScalar "uint64" 1, VInt "uint64" 1); (KScalar "uint64" 3, VInt "int64" (-8)); (KScalar "int64" (-1), VInt "uint64" 6);
     (KScalar "int64" (-2), VBytes (Some (replicate 32 x07)))].
Definition sample_ed25519_key : CredentialPublicKey :=
  mkPublicKey (-8) sample_ed25519 (mkMaterial None None (Some (mkOKP OKPCurveEd25519 (replicate 32 x07)))).

Definition sample_dec : DecMode := {|
  Unmarshal data := if bool_decide (data = sample_ed25519) then Ok sample_ed25519_value else Err (ErrorNew "EOF");
  UnmarshalFirst data :=
    if bool_decide (take 42 data = sample_ed25519) then Ok (sample_ed25519_value, drop 42 data) else Err (ErrorNew "EOF") |}.
Definition sample_enc : EncMode := {| Marshal _ := Ok sample_ed25519 |}.
Definition sample_cbor : CborLibrary := {| DecOptions_DecMode _ := Ok sample_dec; CTAP2_EncMode := Ok sample_enc |}.

#[export] Instance sample_first_item : FirstItem sample_dec.
Proof.
  intros raw v rest. cbn [UnmarshalFirst Unmarshal sample_dec].
  change 42%nat with (length sample_ed25519). generalize sample_ed25519, sample_ed25519_value. intros l w. split.
  - case_bool_decide as Ht; [|done]. intros [= <- <-]. exists l. rewrite bool_decide_eq_true_2 by done.
    split; [|done]. rewrite <-Ht at 1. by rewrite take_drop.
  - intros (item & -> & H). case_bool_decide; [|done]. subst item. injection H as ->.
    by rewrite take_app_length, drop_app_length, bool_decide_eq_true_2.
Qed.

Lemma sample_NewDecoder :
  Cbor.NewDecoder (L := sample_cbor) = Ok (Some (Cbor.mkDecoder (Some sample_dec) (Some sample_enc))).
Proof. done. Qed.

Lemma cose_key_exact_witness :
  (-8, Ed25519) ∈ cose_schemes ∧
  Cbor.DecodeCredentialPublicKey (Some (Cbor.mkDecoder (Some sample_dec) (Some sample_enc))) (sample_ed25519 ++ [xff]) =
    Ok sample_ed25519_key.
Proof.
  assert (Hs : (-8, Ed25519) ∈ cose_schemes) by (unfold cose_schemes; set_solver).
  split; [exact Hs|]. apply (cose_key_exact sample_dec sample_enc Ed25519 _ sample_ed25519_key Hs).
  eexists [xff], sample_ed25519_value, _. split_and!; [done|by vm_compute|by vm_compute|by vm_compute|done| |].
  - split; [by vm_compute|]. exists "int64". split; [by vm_compute|set_solver].
  - exists (replicate 32 x07). split_and!; [done|done|by vm_compute| | |].
    + split; [by vm_compute|]. exists "uint64". split; [by vm_compute|set_solver].
    + split; [by vm_compute|]. exists "uint64". split; [by vm_compute|set_solver].
    + by exists (Some (replicate 32 x07)).
Defined.

Lemma decoded_key_verifiable_witness :
  match Standard.VerifySignature (P := permissive) (Some {[ -8 ]}) background sample_eddsa with
  | Ok _ => True
  | Err e => errors_is e Standard.ErrInvalidSignature = true
  end.
Proof.
  apply (decoded_key_verifiable sample_dec sample_enc (P := permissive) [-8] (Some {[ -8 ]}) background sample_ed25519
    sample_ed25519_key sample_eddsa); [by vm_compute|by vm_compute|done|done|by left|done].
Defined.
