(* ===== verification/Ceremony.v ===== *)
(** * Shared ceremony logic

    Models [src/ceremony.go] and the error values and time defaults of
    [src/registration.go] and [src/authentication.go]: ceremony lifetimes,
    accepted algorithms, and the verification of client data.

    A [time.Time] is the integer number of nanoseconds since the zero time and a
    [time.Duration] the integer number of nanoseconds. *)
From S2P Require Import Prelude GoStrings Base64 Sha2 AuthData ClientData Origin ExtValue Types.
Set Default Goal Selector "!".
Local Open Scope Z_scope.

Definition ErrMalformedResponse : error := Sentinel "webauthn.ErrMalformedResponse".
Definition ErrInvalidConfiguration : error := Sentinel "webauthn.ErrInvalidConfiguration".
Definition ErrInvalidCeremonyState : error := Sentinel "webauthn.ErrInvalidCeremonyState".
Definition ErrChallengeMismatch : error := Sentinel "webauthn.ErrChallengeMismatch".
Definition ErrRPIDHashMismatch : error := Sentinel "webauthn.ErrRPIDHashMismatch".
Definition ErrUserPresenceRequired : error := Sentinel "webauthn.ErrUserPresenceRequired".
Definition ErrUserVerificationRequired : error := Sentinel "webauthn.ErrUserVerificationRequired".
Definition ErrUnsupportedAlgorithm : error := Sentinel "webauthn.ErrUnsupportedAlgorithm".
Definition ErrUnsupportedAttestationFormat : error := Sentinel "webauthn.ErrUnsupportedAttestationFormat".
Definition ErrInvalidAttestation : error := Sentinel "webauthn.ErrInvalidAttestation".
Definition ErrRejectedAttestationPolicy : error := Sentinel "webauthn.ErrRejectedAttestationPolicy".
Definition ErrExtensionPolicy : error := Sentinel "webauthn.ErrExtensionPolicy".
Definition ErrCeremonyExpired : error := Sentinel "webauthn.ErrCeremonyExpired".
Definition ErrInvalidBackupState : error := Sentinel "webauthn.ErrInvalidBackupState".
Definition ErrBackupEligibilityMismatch : error := Sentinel "webauthn.ErrBackupEligibilityMismatch".
Definition ErrCredentialRPIDMismatch : error := Sentinel "webauthn.ErrCredentialRPIDMismatch".

Definition millisecond : Z := 1000000.
Definition minute : Z := 60000 * millisecond.
Definition DefaultBrowserTimeout : Z := 5 * minute.
Definition DefaultChallengeTTL : Z := 10 * minute.

(** What the process takes from its environment: the system random source
    ([io.ReadFull(rand.Reader, buf)] for a buffer of the given length) and the
    system clock. *)
Class Runtime : Type := { rand_Reader : Z → result (list byte); time_Now : Z }.

Definition registrationUserVerification (selection : option AuthenticatorSelectionCriteria) : string :=
  match selection with
  | Some s => if bool_decide (sel_UserVerification s = "") then UserVerificationPreferred else sel_UserVerification s
  | None => UserVerificationPreferred
  end.

Definition validateUserVerification (v : string) : result () :=
  fail_if (negb (UserVerificationRequirement_Known v)) (ValueError "user verification" v).

Definition algorithmsFromParameters (parameters : list CredentialParameter) : list Z := cp_Algorithm <$> parameters.

(** Milliseconds for the browser and the expiry of the state. *)
Definition timeoutState (timeout stateTTL now : Z) : result (Z * Z) :=
  _ ← fail_if (timeout <? 0) (ErrorNew "timeout must not be negative");
  _ ← fail_if (stateTTL <? 0) (ErrorNew "state ttl must not be negative");
  let timeout := if timeout =? 0 then DefaultBrowserTimeout else timeout in
  let stateTTL := if stateTTL =? 0 then DefaultChallengeTTL else stateTTL in
  _ ← fail_if (stateTTL <? timeout) (ErrorNew "state ttl must not be shorter than timeout");
  let milliseconds := timeout / millisecond in
  let milliseconds := if milliseconds =? 0 then 1 else milliseconds in
  _ ← fail_if (2 ^ 32 - 1 <? milliseconds) (ErrorNew "timeout exceeds uint32 milliseconds");
  Ok (milliseconds, now + stateTTL).

Fixpoint supportedParameters (parameters : list CredentialParameter) : result (list CredentialParameter) :=
  match parameters with
  | [] => Ok []
  | p :: parameters =>
      _ ← CredentialParameter_Validate p;
      out ← supportedParameters parameters;
      if bool_decide (cp_Type p = CredentialTypePublicKey) then Ok (p :: out) else Ok out
  end.

Definition registrationCredentialParameters (parameters : list CredentialParameter) :
    result (list CredentialParameter) :=
  match parameters with
  | [] => Ok [mkParameter CredentialTypePublicKey AlgorithmES256; mkParameter CredentialTypePublicKey AlgorithmRS256]
  | _ =>
      out ← supportedParameters parameters;
      _ ← fail_if (bool_decide (out = [])) (ErrorNew "no supported public key credential parameters");
      Ok out
  end.

Definition cloneCredentialDescriptors (ds : list CredentialDescriptor) : list CredentialDescriptor :=
  CredentialDescriptor_Clone <$> ds.

Definition normalizeAuthenticatorAttachment (v : string) : string :=
  if AuthenticatorAttachment_Known v then v else "".

(** Returns the hash of the client data. *)
Definition verifyClientData (raw : ClientDataJSON) (expectedType : ClientDataType) (challenge : Challenge)
    (originPolicy : OriginPolicy) : result (list byte) :=
  clientData ← wrap_err ErrMalformedResponse (ParseCollectedClientData raw);
  _ ← wrap_err ErrMalformedResponse (ValidateType clientData expectedType);
  challengeBytes ← wrap_err ErrMalformedResponse (ChallengeBytes clientData);
  _ ← fail_if (negb (bv_equalBytes challenge (Some challengeBytes))) ErrChallengeMismatch;
  _ ← verifyCollectedClientOrigin originPolicy clientData;
  Ok (Sum256 (bv_appendTo raw [])).

(** ** Lemmas *)

Lemma validateUserVerification_Ok v u : validateUserVerification v = Ok u ↔ UserVerificationRequirement_Known v = true.
Proof. unfold validateUserVerification. by rewrite fail_if_Ok, negb_false_iff. Qed.

Lemma cloneCredentialDescriptors_id ds : cloneCredentialDescriptors ds = ds.
Proof.
  unfold cloneCredentialDescriptors. rewrite <-(list_fmap_id ds) at 2. apply list_fmap_ext.
  intros. apply CredentialDescriptor_Clone_id.
Qed.

Lemma supportedParameters_Ok ps out :
  supportedParameters ps = Ok out ↔
  Forall (λ p, CredentialParameter_Validate p = Ok ()) ps ∧
  out = filter (λ p, cp_Type p = CredentialTypePublicKey) ps.
Proof.
  revert out. induction ps as [|p ps IH]; intros out; cbn [supportedParameters].
  - split; [intros [= <-]; done|by intros [_ ->]].
  - rewrite Forall_cons, filter_cons. split.
    + intros H. apply bind_Ok in H as ([] & Hp & H). apply bind_Ok in H as (out' & [Hps ->]%IH & H).
      split; [done|].
      case_bool_decide; apply Ok_inj in H; subst out; [by rewrite decide_True|by rewrite decide_False].
    + intros [[Hp Hps] ->]. rewrite Hp. run. rewrite (proj2 (IH _)) by done.
      run. case_bool_decide; [by rewrite decide_True|by rewrite decide_False].
Qed.

(** What accepted client data establishes. *)
Definition client_data_verified (raw : ClientDataJSON) (expectedType : ClientDataType) (challenge : Challenge)
    (policy : OriginPolicy) : Prop :=
  ∃ d, ParseCollectedClientData raw = Ok d ∧ cd_Type d = expectedType ∧
       cd_Challenge d = EncodeToString (slice_list (bv_value challenge)) ∧
       cd_Origin d ∈ AllowedOrigins policy ∧
       if HasTopOrigin d
       then cd_CrossOrigin d = Some true ∧ cd_TopOrigin d ∈ AllowedTopOrigins policy
       else cd_CrossOrigin d = Some true → AllowCrossOriginWithoutTopOrigin policy = true.

Lemma verifyClientData_Ok raw t challenge policy hash :
  verifyClientData raw t challenge policy = Ok hash ↔
  client_data_verified raw t challenge policy ∧ hash = Sum256 (slice_list (bv_value raw)).
Proof.
  unfold verifyClientData, client_data_verified, bv_appendTo. cbn [app]. split.
  - intros H. apply bind_Ok in H as (d & Hd%wrap_err_Ok & H).
    apply bind_Ok in H as ([] & Ht%wrap_err_Ok%ValidateType_Ok & H).
    apply bind_Ok in H as (c & Hc%wrap_err_Ok%ChallengeBytes_Ok & H).
    apply bind_Ok in H as ([] & He%fail_if_Ok%negb_false_iff%bv_equalBytes_spec & H).
    apply bind_Ok in H as ([] & Ho%verifyCollectedClientOrigin_Ok & [= <-]).
    split; [|done]. exists d. cbn in He. subst c. done.
  - intros [(d & Hd & Ht & Hc & Ho) ->]. rewrite Hd. run.
    rewrite (proj2 (ValidateType_Ok d t ()) Ht). run.
    rewrite (proj2 (ChallengeBytes_Ok d _) Hc). run.
    rewrite (proj2 (bv_equalBytes_spec challenge (Some _))) by done. run.
    by rewrite (proj2 (verifyCollectedClientOrigin_Ok policy d ()) Ho).
Qed.

Lemma timeoutState_Ok timeout ttl now ms expires :
  timeoutState timeout ttl now = Ok (ms, expires) →
  1 <= ms <= 2 ^ 32 - 1 ∧ ms * millisecond <= Z.max millisecond (expires - now) ∧ now < expires ∧
  expires = now + (if ttl =? 0 then DefaultChallengeTTL else ttl).
Proof.
  unfold timeoutState. intros H. apply bind_Ok in H as ([] & H1%fail_if_Ok%Z.ltb_ge & H).
  apply bind_Ok in H as ([] & H2%fail_if_Ok%Z.ltb_ge & H). apply bind_Ok in H as ([] & H3%fail_if_Ok%Z.ltb_ge & H).
  apply bind_Ok in H as ([] & H4%fail_if_Ok%Z.ltb_ge & [= <- <-]).
  set (t := if timeout =? 0 then DefaultBrowserTimeout else timeout) in *.
  set (l := if ttl =? 0 then DefaultChallengeTTL else ttl) in *.
  assert (0 < t) by (subst t; destruct (Z.eqb_spec timeout 0); [done|lia]).
  pose proof (Z.div_pos t millisecond ltac:(lia) ltac:(done)) as Hd.
  pose proof (Z.mul_div_le t millisecond ltac:(done)) as Hm.
  destruct (Z.eqb_spec (t / millisecond) 0); split_and!; try done; try lia.
Qed.

Lemma registrationCredentialParameters_public ps out :
  registrationCredentialParameters ps = Ok out →
  out ≠ [] ∧ Forall (λ p, cp_Type p = CredentialTypePublicKey ∧ - 2 ^ 31 <= cp_Algorithm p < 2 ^ 31) out.
Proof.
  unfold registrationCredentialParameters. destruct ps as [|p ps].
  - intros H. apply Ok_inj in H. subst out. split; [done|]. repeat constructor; vm_compute; done.
  - intros H. apply bind_Ok in H as (out' & [Hv ->]%supportedParameters_Ok & H).
    apply bind_Ok in H as ([] & Hne%fail_if_Ok%bool_decide_eq_false & H). apply Ok_inj in H. subst out.
    split; [done|]. apply Forall_forall. intros q [Hq Hin]%list_elem_of_filter. split; [done|].
    rewrite Forall_forall in Hv. specialize (Hv q Hin). unfold CredentialParameter_Validate in Hv.
    apply bind_Ok in Hv as ([] & _ & Ha). by apply COSEAlgorithmIdentifier_Validate_Ok in Ha.
Qed.

(** ** Properties *)

(** C16: client data is accepted exactly when it parses, names the expected
    ceremony, carries the canonical base64url text of the challenge in the state
    and passes the origin policy; what is returned is the SHA-256 of the raw
    bytes the browser sent. *)
Theorem client_data_checked (raw : ClientDataJSON) (t : ClientDataType) (challenge : Challenge)
    (policy : OriginPolicy) (hash : list byte) :
  verifyClientData raw t challenge policy = Ok hash ↔
  client_data_verified raw t challenge policy ∧ hash = Sum256 (slice_list (bv_value raw)).
Proof. apply verifyClientData_Ok. Qed.

(** The lifetime of a ceremony: the browser hint is between 1 and 2^32-1
    milliseconds and never outlasts the state (beyond the 1 ms granularity), and
    the state expires after now, exactly one configured or default lifetime
    later. *)
Theorem ceremony_lifetime (timeout ttl now ms expires : Z)
    (H : timeoutState timeout ttl now = Ok (ms, expires)) :
  1 <= ms <= 2 ^ 32 - 1 ∧ ms * millisecond <= Z.max millisecond (expires - now) ∧ now < expires ∧
  expires = now + (if ttl =? 0 then DefaultChallengeTTL else ttl).
Proof. by eapply timeoutState_Ok. Qed.

Lemma ceremony_lifetime_witness :
  1 <= 300000 <= 2 ^ 32 - 1 ∧ 300000 * millisecond <= Z.max millisecond (600000000001 - 1) ∧ 1 < 600000000001 ∧
  600000000001 = 1 + (if 0 =? 0 then DefaultChallengeTTL else 0).
Proof. apply (ceremony_lifetime 0 0 1 300000 600000000001). vm_compute. reflexivity. Defined.

(** The credential parameters offered to the browser are the caller's
    public-key parameters in order (ES256 and RS256 when none are given), at
    least one, each with an algorithm in the 32-bit range; any invalid parameter
    is refused. *)
Theorem credential_parameters (ps out : list CredentialParameter) :
  registrationCredentialParameters ps = Ok out ↔
  (ps = [] ∧ out = [mkParameter CredentialTypePublicKey AlgorithmES256; mkParameter CredentialTypePublicKey AlgorithmRS256])
  ∨ (ps ≠ [] ∧ Forall (λ p, cp_Type p ≠ "" ∧ - 2 ^ 31 <= cp_Algorithm p < 2 ^ 31) ps ∧ out ≠ [] ∧
     out = filter (λ p, cp_Type p = CredentialTypePublicKey) ps).
Proof.
  assert (∀ p, CredentialParameter_Validate p = Ok () ↔ cp_Type p ≠ "" ∧ - 2 ^ 31 <= cp_Algorithm p < 2 ^ 31) as Hv.
  { intros p. unfold CredentialParameter_Validate. rewrite bind_Ok. split.
    - intros ([] & H1%fail_if_Ok%bool_decide_eq_false & H2%COSEAlgorithmIdentifier_Validate_Ok). done.
    - intros [H1 H2]. exists (). rewrite fail_if_Ok, bool_decide_eq_false. split; [done|].
      by apply COSEAlgorithmIdentifier_Validate_Ok. }
  unfold registrationCredentialParameters. destruct ps as [|p ps].
  - split; [intros [= <-]; by left|]. intros [[_ ->]|[? _]]; done.
  - rewrite bind_Ok. split.
    + intros (out' & [Hf ->]%supportedParameters_Ok & H).
      apply bind_Ok in H as ([] & Hne%fail_if_Ok%bool_decide_eq_false & H). apply Ok_inj in H. subst out.
      right. split_and!; try done. eapply Forall_impl; [exact Hf|]. intros q. apply Hv.
    + intros [[? _]|(_ & Hf & Hne & Hout)]; [done|]. exists out. split.
      * apply supportedParameters_Ok. split; [|done]. eapply Forall_impl; [exact Hf|]. intros q. apply Hv.
      * by rewrite bool_decide_eq_false_2.
Qed.
