(* ===== verification/ExtVerify.v ===== *)
(** * Extensions in a ceremony

    Models [src/extension_verification.go] and the PRF binding of
    [src/authentication.go]: normalization of the requested extensions at
    ceremony start, their binding to the registry, and the verification of
    client and authenticator outputs at ceremony finish. *)
From S2P Require Import Prelude GoStrings Base64 Json AuthData ClientData Origin ExtValue Types Extension ExtHandlers Ceremony.
Set Default Goal Selector "!".
Local Open Scope Z_scope.

Record ExtensionInputPolicy := mkInputPolicy { eip_RejectUnknown : bool }.
Record extensionOutputPolicy := mkOutputPolicy { eop_rejectUnrequested : bool; eop_rejectUnknown : bool }.

Definition extensionInputTransform : Type := string → value → result value.

Section Extensions.
Context {Ord : MapOrder} {Custom : CustomTypes}.

(** ** Ceremony start *)

Definition normalizeRegisteredInput (registry : Registry) (operation : Operation) (id : string) (input : value) :
    result value :=
  raw ← NewRawValue input;
  normalized ← Registry_ValidateInput registry (mkInputRequest operation id raw);
  v ← RawValue_Clone normalized;
  NormalizeInput v.

(** One identifier of the loop of [prepareExtensionInputs]: the prepared input,
    and its binding when the extension is known. *)
Definition prepareExtensionInput (operation : Operation) (inputs : ExtensionInputs) (registry : Registry)
    (policy : ExtensionInputPolicy) (transform : option extensionInputTransform) (id : string) :
    result (string * value * option Binding) :=
  _ ← fail_if (negb (protocolidentifier_Valid id)) (ErrorText ErrExtensionPolicy "extension id is invalid");
  v ← wrap_err ErrExtensionPolicy (CloneInput (default VNil (inputs !! id)));
  v ← match transform with
      | Some f => wrap_err ErrExtensionPolicy (f id v)
      | None => Ok v
      end;
  if negb (Registry_Contains registry id) then
    _ ← fail_if (is_some (BuiltInBinding id)) 
          (ErrorText ErrExtensionPolicy ("built-in extension " +:+ id +:+ " requires its registered handler"));
    _ ← fail_if (eip_RejectUnknown policy) (ErrorText ErrExtensionPolicy ("unknown extension input " +:+ id));
    Ok (id, v, None)
  else
    normalized ← wrap_err ErrExtensionPolicy (normalizeRegisteredInput registry operation id v);
    binding ← of_option (ErrorWrap ErrExtensionPolicy ErrBindingMismatch) (Registry_Binding registry id);
    Ok (id, normalized, Some binding).

Definition prepareExtensionInputs (operation : Operation) (inputs : ExtensionInputs) (registry : Registry)
    (policy : ExtensionInputPolicy) (transform : option extensionInputTransform) :
    result (ExtensionInputs * list Binding) :=
  if map_len inputs =? 0 then Ok (∅, [])
  else
    _ ← fail_if (MaxEntries <? map_len inputs) (ErrorWrap ErrExtensionPolicy ErrTooManyEntries);
    _ ← fail_if (match registry with None => true | Some _ => false end)
          (ErrorText ErrExtensionPolicy "extension registry is required when extensions are requested");
    prepared ← map_res (prepareExtensionInput operation inputs registry policy transform) (sorted_keys inputs);
    Ok (list_to_map (fst <$> prepared), omap snd prepared).

Definition cloneExtensionInputs (inputs : ExtensionInputs) : result ExtensionInputs :=
  entries ← map_res (λ e : string * value, cloned ← CloneInput e.2; Ok (e.1, cloned)) (range_list inputs);
  Ok (list_to_map entries).

Definition attachAllowedCredentialIDsToPRFInput (input : value) (credentials : list CredentialDescriptor) : result value :=
  let allowed := (λ c, EncodeToString (bv_appendTo (cdr_ID c) [])) <$> credentials in
  prf ← PRFInputWithCredentials input allowed;
  Ok (VPRFInput prf).

(** The transform both authentication phases use. *)
Definition authenticationTransform (credentials : list CredentialDescriptor) : extensionInputTransform :=
  λ id v, if bool_decide (id = IDPRF) then attachAllowedCredentialIDsToPRFInput v credentials else Ok v.

Definition validateRemoteClientDataInput (operation : Operation) (inputs : ExtensionInputs) (registry : Registry)
    (challenge : Challenge) : result () :=
  match inputs !! IDRemoteClientDataJSON, registry with
  | Some v, Some _ =>
      if negb (Registry_Contains registry IDRemoteClientDataJSON) then Ok ()
      else
        raw ← wrap_err ErrExtensionPolicy (NewRawValue v);
        normalized ← wrap_err ErrExtensionPolicy
          (Remote_ValidateInput (mkInputRequest operation IDRemoteClientDataJSON raw));
        let invalid := ErrorText ErrExtensionPolicy "invalid remote client data" in
        clientDataJSON ← or_err invalid (NewClientDataJSON (Some (bytes_of_string normalized)));
        clientData ← or_err invalid (ParseCollectedClientData clientDataJSON);
        match ChallengeBytes clientData with
        | Ok challengeBytes =>
            fail_if (negb (bv_equalBytes challenge (Some challengeBytes)))
              (ErrorText ErrExtensionPolicy "remote client data challenge mismatch")
        | Err _ => Err (ErrorText ErrExtensionPolicy "remote client data challenge mismatch")
        end
  | _, _ => Ok ()
  end.

Definition validateLargeBlobCredentialContext (v : value) (allowCredentials : list CredentialDescriptor) : result () :=
  raw ← NewRawValue v;
  normalized ← LargeBlob_ValidateInput (mkInputRequest OperationAuthentication IDLargeBlob raw);
  fail_if (is_some (lb_Write normalized) && negb (Z.of_nat (length allowCredentials) =? 1))
    (ErrorNew "largeBlob write requires exactly one allowed credential").

Definition validateAuthenticationExtensionContext (inputs : ExtensionInputs) (registry : Registry)
    (allowCredentials : list CredentialDescriptor) : result () :=
  match inputs !! IDLargeBlob with
  | None => Ok ()
  | Some v =>
      _ ← fail_if (negb (Registry_Contains registry IDLargeBlob))
            (ErrorText ErrExtensionPolicy "largeBlob handler is required");
      wrap_err ErrExtensionPolicy (validateLargeBlobCredentialContext v allowCredentials)
  end.

Definition validateStoredAuthenticationExtensionContext (inputs : ExtensionInputs)
    (allowCredentials : list CredentialDescriptor) : result () :=
  match inputs !! IDLargeBlob with
  | None => Ok ()
  | Some v => validateLargeBlobCredentialContext v allowCredentials
  end.

(** ** Ceremony finish *)

Definition hasExtensionBinding (bindings : list Binding) (id : string) : bool :=
  existsb (λ b, bool_decide (b_ID b = id)) bindings.

(** The [bound] maps of the binding checks; a later binding of an ID wins. *)
Definition bound_map (bindings : list Binding) : gmap string Binding :=
  foldl (λ m b, <[b_ID b := b]> m) ∅ bindings.

Definition validateFinishExtensionBindings (requested : ExtensionInputs) (bindings : list Binding)
    (registry : Registry) : result () :=
  let bound := bound_map bindings in
  for_each (λ id,
    match bound !! id, Registry_Binding registry id with
    | Some binding, Some current =>
        fail_if (negb (bool_decide (current = binding))) (ErrorText ErrBindingMismatch id)
    | Some _, None => Err (ErrorText ErrBindingMismatch id)
    | None, Some _ => Err (ErrorText ErrBindingMismatch (id +:+ " was not bound at ceremony start"))
    | None, None => Ok ()
    end) (range_keys requested).

Definition verifyRemoteClientDataBinding (inputs : ExtensionInputs) (bindings : list Binding) (raw : ClientDataJSON) :
    result () :=
  match inputs !! IDRemoteClientDataJSON with
  | None => Ok ()
  | Some v =>
      if negb (hasExtensionBinding bindings IDRemoteClientDataJSON) then Ok ()
      else
        let changed := ErrorText ErrExtensionPolicy "remote client data changed" in
        match v with
        | VStringInput serialized =>
            fail_if (negb (bool_decide (slice_list (bv_bytes raw) = bytes_of_string serialized))) changed
        | _ => Err changed
        end
  end.

Definition invalidExtensionID : error := ErrorText ErrExtensionPolicy "invalid extension id".

Definition validIDs (ids : list string) : result () :=
  for_each (λ id, fail_if (negb (protocolidentifier_Valid id)) invalidExtensionID) ids.

(** The set of identifiers, as the map [map[string]struct{}]. *)
Definition validateExtensionWork (requested : ExtensionInputs) (client : ClientOutputs) (authenticator : ExtensionMap) :
    result (gmap string ()) :=
  let tooMany := ErrorWrap ErrExtensionPolicy ErrTooManyEntries in
  _ ← fail_if ((MaxEntries <? map_len requested) || (MaxEntries <? map_len client)
               || (MaxEntries <? map_len authenticator)) tooMany;
  _ ← validIDs (range_keys requested);
  _ ← validIDs (range_keys client);
  _ ← validIDs (range_keys authenticator);
  let ids := ((λ _, ()) <$> requested) ∪ ((λ _, ()) <$> client) ∪ ((λ _, ()) <$> authenticator) in
  _ ← fail_if (MaxEntries <? map_len ids) tooMany;
  Ok ids.

Definition validateClientExtensionResults (results : ClientOutputs) : result () :=
  _ ← fail_if (MaxEntries <? map_len results) (ErrorWrap ErrExtensionPolicy ErrTooManyEntries);
  for_each (λ e : string * RawValue,
    _ ← fail_if (negb (Present e.2)) (ErrorText ErrExtensionPolicy "absent client output value");
    fail_if (negb (protocolidentifier_Valid e.1)) invalidExtensionID) (range_list results).

Definition rawExtensionValue (v : option value) : result RawValue :=
  match v with None => Ok absent | Some v => NewRawValue v end.

Record extensionVerificationInputs := mkVerificationInputs {
  evi_operation : Operation;
  evi_selectedCredentialID : CredentialID;
  evi_requestedExtensions : ExtensionInputs;
  evi_policy : extensionOutputPolicy;
  evi_registry : Registry;
  evi_clientExtensionResults : ClientOutputs;
  evi_authenticatorExtensions : ExtensionMap;
  evi_clientInputTransform : option extensionInputTransform;
}.

Definition verifyExtension (ctx : context) (inputs : extensionVerificationInputs) (id : string) : result Result :=
  let clientInput := evi_requestedExtensions inputs !! id in
  let requested := is_some clientInput in
  let clientOutput := evi_clientExtensionResults inputs !! id in
  let authenticatorOutput := evi_authenticatorExtensions inputs !! id in
  let known := Registry_Contains (evi_registry inputs) id in
  let hasOutput := is_some clientOutput || is_some authenticatorOutput in
  _ ← fail_if (negb known && hasOutput && eop_rejectUnknown (evi_policy inputs)) ErrExtensionPolicy;
  _ ← fail_if (negb requested && hasOutput && eop_rejectUnrequested (evi_policy inputs)) ErrExtensionPolicy;
  clientInput ← match clientInput, evi_clientInputTransform inputs with
    | Some v, Some f => v ← wrap_err ErrExtensionPolicy (f id v); Ok (Some v)
    | v, _ => Ok v
    end;
  clientInputValue ← wrap_err ErrExtensionPolicy (rawExtensionValue clientInput);
  let clientOutputValue := default absent clientOutput in
  authenticatorOutputValue ← wrap_err ErrExtensionPolicy (rawExtensionValue authenticatorOutput);
  if negb requested && hasOutput then
    wrap_err ErrExtensionPolicy
      (PreserveRaw id (mkRawResult false clientInputValue clientOutputValue authenticatorOutputValue)
         ["unrequested extension output ignored"])
  else if negb known then
    wrap_err ErrExtensionPolicy
      (PreserveRaw id (mkRawResult requested clientInputValue clientOutputValue authenticatorOutputValue)
         ["unknown extension preserved"])
  else
    wrap_err ErrExtensionPolicy
      (Registry_VerifyOutput (evi_registry inputs) ctx
         (mkOutputRequest (evi_operation inputs) id requested (evi_selectedCredentialID inputs)
            clientInputValue clientOutputValue authenticatorOutputValue)).

(** The loop over the sorted identifiers; the context is polled before each. *)
Fixpoint verifyExtension_loop (ctx : context) (inputs : extensionVerificationInputs) (i : nat) (ids : list string) :
    result Results :=
  match ids with
  | [] => Ok []
  | id :: ids =>
      match ctx "verifyExtensions" i with
      | Some e => Err (ErrorWrap ErrExtensionPolicy e)
      | None =>
          r ← verifyExtension ctx inputs id;
          rs ← verifyExtension_loop ctx inputs (S i) ids;
          Ok (r :: rs)
      end
  end.

Definition verifyExtensions (ctx : context) (inputs : extensionVerificationInputs) : result Results :=
  match ctx "verifyExtensions" 0%nat with
  | Some e => Err (ErrorWrap ErrExtensionPolicy e)
  | None =>
      ids ← validateExtensionWork (evi_requestedExtensions inputs) (evi_clientExtensionResults inputs)
              (evi_authenticatorExtensions inputs);
      verifyExtension_loop ctx inputs 1 (sorted_keys ids)
  end.
End Extensions.

(** ** Lemmas on ceremony start *)

Section StartLemmas.
Context {Ord : MapOrder} {Custom : CustomTypes}.
Implicit Types (inputs out : ExtensionInputs) (registry : Registry).

Lemma prepareExtensionInput_Ok op inputs registry policy transform id p :
  prepareExtensionInput op inputs registry policy transform id = Ok p →
  p.1.1 = id ∧ p.2 = Registry_Binding registry id ∧ protocolidentifier_Valid id = true ∧
  (is_Some (BuiltInBinding id) → is_Some (Registry_Binding registry id)) ∧
  (eip_RejectUnknown policy = true → is_Some (Registry_Binding registry id)).
Proof.
  unfold prepareExtensionInput. intros H. apply bind_Ok in H as ([] & Hv%fail_if_Ok%negb_false_iff & H).
  apply bind_Ok in H as (v & _ & H). apply bind_Ok in H as (v' & _ & H).
  destruct (Registry_Contains registry id) eqn:E; cbn [negb] in H.
  - apply bind_Ok in H as (n & _ & H). apply bind_Ok in H as (b & Hb%of_option_Ok & H). apply Ok_inj in H.
    subst p. rewrite Hb. cbn. split_and!; try done.
  - apply bind_Ok in H as ([] & Hbi%fail_if_Ok & H). apply bind_Ok in H as ([] & Hu%fail_if_Ok & H).
    apply Ok_inj in H. subst p. cbn.
    assert (Registry_Binding registry id = None) as Hnone.
    { apply eq_None_not_Some. rewrite <-Registry_Contains_Binding. congruence. }
    rewrite Hnone. split_and!; try done.
    + intros [b Hb]. by rewrite Hb in Hbi.
    + congruence.
Qed.

(** What a prepared set of inputs is: the same identifiers, all well formed and
    at most 64, with the bindings of the known ones in sorted order. *)
Definition prepared_ok inputs registry (policy : ExtensionInputPolicy) out (bindings : list Binding) : Prop :=
  dom out = dom inputs ∧ bindings = omap (Registry_Binding registry) (sorted_keys inputs) ∧
  map_len inputs <= 64 ∧
  ∀ id, is_Some (inputs !! id) → protocolidentifier_Valid id = true ∧
    (is_Some (BuiltInBinding id) ∨ eip_RejectUnknown policy = true → is_Some (Registry_Binding registry id)).

Lemma sorted_keys_empty {A} (m : gmap string A) : map_len m = 0 → sorted_keys m = [].
Proof.
  intros H. apply length_zero_iff_nil. apply Nat2Z.inj. by rewrite length_sorted_keys, H.
Qed.

Lemma prepareExtensionInputs_Ok op inputs registry policy transform out bindings :
  prepareExtensionInputs op inputs registry policy transform = Ok (out, bindings) →
  prepared_ok inputs registry policy out bindings.
Proof.
  unfold prepareExtensionInputs, prepared_ok. destruct (Z.eqb_spec (map_len inputs) 0) as [Hz|Hz].
  { intros [= <- <-]. assert (inputs = ∅) as -> by (apply map_size_empty_inv; unfold map_len in Hz; lia).
    rewrite sorted_keys_empty by done. split_and!; try done. intros id [v Hv]. exfalso; revert Hv; change (@lookup string value (gmap string value) _ id ∅ = Some v → False); by rewrite lookup_empty. }
  intros H. apply bind_Ok in H as ([] & Hlen%fail_if_Ok%Z.ltb_ge & H). apply bind_Ok in H as ([] & _ & H).
  apply bind_Ok in H as (ps & Hps%map_res_Ok & H). apply Ok_inj in H. injection H as <- <-.
  assert (fst <$> (fst <$> ps) = sorted_keys inputs ∧ omap snd ps = omap (Registry_Binding registry) (sorted_keys inputs)
    ∧ Forall (λ id, protocolidentifier_Valid id = true ∧
       (is_Some (BuiltInBinding id) ∨ eip_RejectUnknown policy = true → is_Some (Registry_Binding registry id)))
       (sorted_keys inputs)) as (Hids & Hbs & Hall).
  { induction Hps as [|id p ids ps Hp Hps IH]; [done|]. apply prepareExtensionInput_Ok in Hp as (Hid & Hb & Hv & H1 & H2).
    destruct IH as (IH1 & IH2 & IH3). cbn. rewrite Hid, Hb, IH1, IH2. split_and!; try done.
    constructor; [|done]. split; [done|]. intros [?|?]; auto. }
  split_and!; try done.
  - apply set_eq. intros id. unfold ExtensionInputs in *. rewrite dom_list_to_map_L, Hids, elem_of_list_to_set, elem_of_sorted_keys.
    by rewrite elem_of_dom.
  - intros id Hid. rewrite Forall_forall in Hall. by apply Hall, elem_of_sorted_keys.
Qed.

Lemma cloneExtensionInputs_dom inputs out : cloneExtensionInputs inputs = Ok out → dom out = dom inputs.
Proof.
  unfold cloneExtensionInputs. intros H. apply bind_Ok in H as (es & Hes%map_res_Ok & H). apply Ok_inj in H. subst out.
  apply set_eq. intros id. unfold ExtensionInputs in *. rewrite dom_list_to_map_L, elem_of_list_to_set.
  assert (es.*1 = (range_list inputs).*1) as ->.
  { induction Hes as [|[k v] [k' v'] l l' He Hes IH]; [done|]. cbn.
    apply bind_Ok in He as (c & _ & [= <- <-]). by rewrite IH. }
  change ((range_list inputs).*1) with (range_keys inputs). by rewrite elem_of_range_keys, elem_of_dom.
Qed.

(** What becomes of one requested input: it is copied, completed by the
    ceremony's transform (which attaches the allowed credentials to prf at
    authentication), replaced by the registered handler's normal form when the
    registry knows the extension, and copied again. *)
Definition extension_sent (op : Operation) registry (transform : option extensionInputTransform)
    (id : string) (input sent : value) : Prop :=
  ∃ given completed normalized,
    CloneInput input = Ok given ∧
    match transform with Some f => f id given = Ok completed | None => completed = given end ∧
    (if Registry_Contains registry id then normalizeRegisteredInput registry op id completed = Ok normalized
     else normalized = completed) ∧
    CloneInput normalized = Ok sent.

Lemma prepareExtensionInputs_lookup op inputs registry policy transform (out : ExtensionInputs) bindings id v :
  prepareExtensionInputs op inputs registry policy transform = Ok (out, bindings) → out !! id = Some v →
  ∃ b, prepareExtensionInput op inputs registry policy transform id = Ok (id, v, b).
Proof.
  unfold prepareExtensionInputs. destruct (map_len inputs =? 0).
  { intros [= <- _] H. exfalso. revert H. unfold ExtensionInputs. by rewrite lookup_empty. }
  intros H Hv. apply bind_Ok in H as ([] & _ & H). apply bind_Ok in H as ([] & _ & H).
  apply bind_Ok in H as (ps & Hps%map_res_Ok & H). apply Ok_inj in H. injection H as <- _.
  unfold ExtensionInputs in Hv. apply elem_of_list_to_map_2, list_elem_of_fmap in Hv as ([[id' v'] b] & [= <- <-] & Hin).
  apply list_elem_of_lookup in Hin as [i Hi]. destruct (Forall2_lookup_r _ _ _ _ _ Hps Hi) as (k & _ & Hp).
  exists b. destruct (prepareExtensionInput_Ok _ _ _ _ _ _ _ Hp) as [Hk _]. cbn in Hk. by subst k.
Qed.

Lemma cloneExtensionInputs_lookup (inputs out : ExtensionInputs) id v :
  cloneExtensionInputs inputs = Ok out → out !! id = Some v → ∃ w, inputs !! id = Some w ∧ CloneInput w = Ok v.
Proof.
  unfold cloneExtensionInputs. intros H Hv. apply bind_Ok in H as (es & Hes%map_res_Ok & H). apply Ok_inj in H. subst out.
  unfold ExtensionInputs in Hv. apply elem_of_list_to_map_2, list_elem_of_lookup in Hv as [i Hi].
  destruct (Forall2_lookup_r _ _ _ _ _ Hes Hi) as ([k w] & Hk & He). cbn in He.
  apply bind_Ok in He as (c & Hc & [= <- <-]). exists w. split; [|done].
  apply elem_of_range_list. by eapply list_elem_of_lookup_2.
Qed.

Lemma prepared_inputs_sent op inputs registry policy transform prepared bindings out :
  prepareExtensionInputs op inputs registry policy transform = Ok (prepared, bindings) →
  cloneExtensionInputs prepared = Ok out →
  ∀ id, option_Forall2 (extension_sent op registry transform id) (inputs !! id) (out !! id).
Proof.
  intros Hp Hc id. destruct (prepareExtensionInputs_Ok _ _ _ _ _ _ _ Hp) as [Hd _].
  rewrite <-(cloneExtensionInputs_dom _ _ Hc) in Hd. unfold ExtensionInputs in *.
  destruct (out !! id) as [sent|] eqn:Ho.
  - destruct (cloneExtensionInputs_lookup _ _ _ _ Hc Ho) as (v & Hv & Hcl).
    destruct (prepareExtensionInputs_lookup _ _ _ _ _ _ _ _ _ Hp Hv) as (b & Hone).
    assert (is_Some (inputs !! id)) as [input Hi] by (apply elem_of_dom; rewrite <-Hd; by eapply elem_of_dom_2).
    unfold ExtensionInputs in *. rewrite Hi. constructor. unfold prepareExtensionInput in Hone.
    apply bind_Ok in Hone as ([] & _ & Hone). apply bind_Ok in Hone as (given & Hg%wrap_err_Ok & Hone).
    unfold ExtensionInputs in *. rewrite Hi in Hg. apply bind_Ok in Hone as (completed & Ht & Hone).
    exists given, completed, v. split; [done|]. split; [|split; [|done]].
    + destruct transform; [by apply wrap_err_Ok in Ht|by apply Ok_inj in Ht].
    + destruct (Registry_Contains registry id); cbn [negb] in Hone.
      * by apply bind_Ok in Hone as (n & Hn%wrap_err_Ok & (b' & _ & [= -> _])%bind_Ok).
      * by apply bind_Ok in Hone as ([] & _ & ([] & _ & [= -> _])%bind_Ok).
  - apply not_elem_of_dom in Ho. rewrite Hd in Ho. apply not_elem_of_dom in Ho. rewrite Ho. constructor.
Qed.

(** ** Bindings *)

Lemma bound_map_spec bindings : NoDup (b_ID <$> bindings) →
  ∀ id b, bound_map bindings !! id = Some b ↔ b ∈ bindings ∧ b_ID b = id.
Proof.
  unfold bound_map. intros Hnd id b.
  assert (∀ m : gmap string Binding, (∀ c, c ∈ bindings → m !! b_ID c = None) →
    foldl (λ m b, <[b_ID b := b]> m) m bindings !! id = Some b ↔ m !! id = Some b ∨ (b ∈ bindings ∧ b_ID b = id)) as Hgen.
  { clear -Hnd. induction bindings as [|c bs IH]; intros m Hm; cbn [foldl].
    - split; [by left|]. intros [?|[[]%not_elem_of_nil _]]; done.
    - rewrite fmap_cons in Hnd. apply NoDup_cons in Hnd as [Hnin Hnd]. rewrite (IH Hnd); last first.
      { intros d Hd. rewrite lookup_insert_ne; [by apply Hm; right|]. intros Heq. apply Hnin.
        rewrite Heq. apply list_elem_of_fmap. by exists d. }
      rewrite lookup_insert_Some, elem_of_cons. pose proof (Hm c (list_elem_of_here _ _)) as Hc. split.
      + intros [[[<- <-]|[? ?]]|[? ?]]; [right; by split; [left|]|by left|right; by split; [right|]].
      + intros [H|[[->|H] Heq]].
        * left. right. split; [|done]. intros Heq. congruence.
        * left. left. done.
        * by right. }
  rewrite Hgen by (intros; apply lookup_empty). rewrite lookup_empty. split; [intros [?|?]; done|by right].
Qed.

Lemma omap_binding_In registry (ids : list string) b : registry_wf registry →
  b ∈ omap (Registry_Binding registry) ids ↔ b_ID b ∈ ids ∧ Registry_Binding registry (b_ID b) = Some b.
Proof.
  intros Hwf. rewrite list_elem_of_omap. split.
  - intros (id & Hin & Hb). destruct (registry_wf_binding _ _ _ Hwf Hb) as (<- & _). done.
  - intros [? ?]. by exists (b_ID b).
Qed.

Lemma omap_binding_sublist registry (ids : list string) : registry_wf registry →
  b_ID <$> omap (Registry_Binding registry) ids = filter (λ id, is_Some (Registry_Binding registry id)) ids.
Proof.
  intros Hwf. induction ids as [|id ids IH]; [done|]. cbn [omap list_omap]. rewrite filter_cons.
  destruct (Registry_Binding registry id) as [b|] eqn:E.
  - destruct (registry_wf_binding _ _ _ Hwf E) as (Hid & _).
    rewrite decide_True by (by eexists). rewrite fmap_cons, Hid. f_equal. done.
  - rewrite decide_False by (by intros []). done.
Qed.

Lemma prepared_bound inputs registry policy out bindings id : registry_wf registry →
  prepared_ok inputs registry policy out bindings → is_Some (inputs !! id) →
  bound_map bindings !! id = Registry_Binding registry id.
Proof.
  intros Hwf (_ & -> & _ & _) Hid.
  assert (NoDup (b_ID <$> omap (Registry_Binding registry) (sorted_keys inputs))) as Hnd.
  { rewrite omap_binding_sublist by done. apply NoDup_filter, NoDup_sorted_keys. }
  destruct (Registry_Binding registry id) as [b|] eqn:E.
  - apply bound_map_spec; [done|]. destruct (registry_wf_binding _ _ _ Hwf E) as (<- & _).
    split; [|done]. apply omap_binding_In; [done|]. split; [|done]. by apply elem_of_sorted_keys.
  - apply eq_None_not_Some. intros [b Hb]. apply bound_map_spec in Hb as [Hb <-]; [|done].
    apply omap_binding_In in Hb as [_ Hb]; [|done]. congruence.
Qed.

Lemma finish_bindings_prepared inputs registry policy out bindings requested finish :
  registry_wf registry → prepared_ok inputs registry policy out bindings → dom requested = dom inputs →
  validateFinishExtensionBindings requested bindings finish = Ok () ↔
  ∀ id, is_Some (inputs !! id) → Registry_Binding finish id = Registry_Binding registry id.
Proof.
  intros Hwf Hprep Hdom. unfold ExtensionInputs in *. unfold validateFinishExtensionBindings. rewrite for_each_Ok, Forall_forall.
  assert (∀ id, is_Some (requested !! id) ↔ is_Some (inputs !! id)) as Hd
    by (intros id; by rewrite <-!elem_of_dom, Hdom).
  split; intros H id Hid.
  - specialize (H id). rewrite elem_of_range_keys, Hd in H. specialize (H Hid).
    rewrite (prepared_bound _ _ _ _ _ _ Hwf Hprep Hid) in H.
    destruct (Registry_Binding registry id), (Registry_Binding finish id); try done.
    apply fail_if_Ok, negb_false_iff, bool_decide_eq_true in H. by subst.
  - rewrite elem_of_range_keys, Hd in Hid. rewrite (prepared_bound _ _ _ _ _ _ Hwf Hprep Hid), (H id Hid).
    destruct (Registry_Binding registry id); [by rewrite bool_decide_eq_true_2|done].
Qed.
End StartLemmas.

(** ** Lemmas on ceremony finish *)

Section FinishLemmas.
Context {Ord : MapOrder} {Custom : CustomTypes}.
Implicit Types (inputs : extensionVerificationInputs) (registry : Registry).

(** Every handler of the registry was built by [Register]: [erasedHandler] has
    unexported methods, so no other package can implement it. *)
Definition adapted (h : erasedHandler) : Prop :=
  ∃ (I O : Type) (HI : GoType I) (HO : GoType O) (handler : iface (Handler I O)), h = Register handler.
Definition registry_adapted registry : Prop := map_Forall (λ _ e, adapted (rh_handler e)) (registry_map registry).

Lemma adapted_VerifyOutput h ctx request r : adapted h → eh_VerifyOutput h ctx request = Ok r →
  res_ID r = or_ID request ∧ res_raw r = false.
Proof.
  intros (I & O & HI & HO & [| |handler] & ->) H; try done. cbn in H. unfold adapter_VerifyOutput in H.
  apply bind_Ok in H as (i & _ & H). apply bind_Ok in H as (v & _ & H). apply bind_Ok in H as (o & _ & H).
  apply bind_Ok in H as (t & _ & H). apply Ok_inj in H. by subst r.
Qed.

Lemma PreserveRaw_Ok id raw warnings r : PreserveRaw id raw warnings = Ok r →
  res_ID r = id ∧ res_raw r = true ∧ res_Accepted r = false ∧ res_revision r = "".
Proof.
  unfold PreserveRaw. intros H. apply bind_Ok in H as ([] & _ & H). apply bind_Ok in H as (c & _ & H).
  apply Ok_inj in H. by subst r.
Qed.

(** Some output of [id] came back from the client or the authenticator. *)
Definition has_output inputs (id : string) : Prop :=
  is_Some (evi_clientExtensionResults inputs !! id) ∨ is_Some (evi_authenticatorExtensions inputs !! id).

Definition result_for inputs (id : string) (r : Result) : Prop :=
  res_ID r = id ∧
  (has_output inputs id → eop_rejectUnknown (evi_policy inputs) = true → is_Some (Registry_Binding (evi_registry inputs) id)) ∧
  (has_output inputs id → eop_rejectUnrequested (evi_policy inputs) = true → is_Some (evi_requestedExtensions inputs !! id)) ∧
  if res_raw r then
    res_Accepted r = false ∧
    (evi_requestedExtensions inputs !! id = None ∨ Registry_Binding (evi_registry inputs) id = None)
  else
    is_Some (evi_requestedExtensions inputs !! id) ∧
    b_Revision <$> Registry_Binding (evi_registry inputs) id = Some (res_revision r).

Lemma has_output_dec inputs id :
  is_some (evi_clientExtensionResults inputs !! id) || is_some (evi_authenticatorExtensions inputs !! id) = true ↔
  has_output inputs id.
Proof.
  unfold has_output, ClientOutputs, ExtensionMap in *. rewrite orb_true_iff.
  destruct (_ !! _), (_ !! _); cbn; split; intros [?|?]; try done; try (by left; eexists); try (by right; eexists);
    try (left; done); try (right; done); by destruct H.
Qed.

Lemma is_some_spec {A} (o : option A) : is_some o = true ↔ is_Some o.
Proof. destruct o; cbn; split; [by eexists|done|done|by intros []]. Qed.

Lemma verifyExtension_Ok ctx inputs id r : registry_adapted (evi_registry inputs) →
  verifyExtension ctx inputs id = Ok r →
  has_output inputs id ∨ is_Some (evi_requestedExtensions inputs !! id) → result_for inputs id r.
Proof.
  intros Had H Hin. unfold verifyExtension in H. apply bind_Ok in H as ([] & Hunk%fail_if_Ok & H).
  apply bind_Ok in H as ([] & Hunr%fail_if_Ok & H). apply bind_Ok in H as (ci & _ & H).
  apply bind_Ok in H as (cv & _ & H). apply bind_Ok in H as (ao & _ & H).
  pose proof (has_output_dec inputs id) as Hout. revert Hunk Hunr H Hout.
  generalize (is_some (evi_clientExtensionResults inputs !! id) || is_some (evi_authenticatorExtensions inputs !! id)).
  intros out Hunk Hunr H Hout. pose proof (is_some_spec (evi_requestedExtensions inputs !! id)) as Hreq.
  revert Hunr H Hreq. generalize (is_some (evi_requestedExtensions inputs !! id)). intros req Hunr H Hreq.
  pose proof (Registry_Contains_Binding (evi_registry inputs) id) as Hknown.
  assert (is_Some (Registry_Binding (evi_registry inputs) id) ∨ Registry_Binding (evi_registry inputs) id = None) as Hdec
    by (destruct (Registry_Binding _ _); [left; by eexists|by right]).
  assert (req = false → evi_requestedExtensions inputs !! id = None) as Hnreq.
  { intros ->. apply eq_None_not_Some. intros Hx. apply Hreq in Hx. done. }
  assert (res_ID r = id ∧ if res_raw r then res_Accepted r = false ∧
      (req = false ∨ Registry_Contains (evi_registry inputs) id = false)
    else req = true ∧ b_Revision <$> Registry_Binding (evi_registry inputs) id = Some (res_revision r)) as [Hid Hraw].
  { destruct (negb req && out) eqn:E1; [|destruct (Registry_Contains (evi_registry inputs) id) eqn:E2; cbn [negb] in H].
    - apply wrap_err_Ok, PreserveRaw_Ok in H as (? & -> & ? & _). apply andb_true_iff in E1 as [E1%negb_true_iff _]. auto.
    - apply wrap_err_Ok in H. apply bind_Ok in H as (e & He%of_option_Ok & H). cbn in He.
      apply bind_Ok in H as (res & Hr & H). apply Ok_inj in H. subst r. cbn.
      apply adapted_VerifyOutput in Hr as [Hrid ->]; [|by apply (Had _ _ He)]. cbn in Hrid. split; [done|]. split.
      + destruct req; [done|]. destruct out; [done|]. destruct Hin as [Ho%Hout|Hr%Hreq]; done.
      + unfold Registry_Binding. by rewrite He.
    - apply wrap_err_Ok, PreserveRaw_Ok in H as (? & -> & ? & _). auto. }
  split_and!; [done| | |].
  - intros Ho%Hout Hrej. apply Hknown. rewrite Ho, Hrej in Hunk. by destruct (Registry_Contains _ _).
  - intros Ho%Hout Hrej. apply Hreq. rewrite Ho, Hrej in Hunr. by destruct req.
  - destruct (res_raw r).
    + destruct Hraw as [? [Hr|Hc]]; split; auto. right. destruct Hdec as [Hs%Hknown|]; congruence.
    + destruct Hraw as [Hr ?]. split; [by apply Hreq|done].
Qed.

Lemma verifyExtension_loop_Ok ctx inputs ids i rs : registry_adapted (evi_registry inputs) →
  Forall (λ id, has_output inputs id ∨ is_Some (evi_requestedExtensions inputs !! id)) ids →
  verifyExtension_loop ctx inputs i ids = Ok rs → Forall2 (result_for inputs) ids rs.
Proof.
  intros Had. revert i rs. induction ids as [|id ids IH]; intros i rs Hall H; cbn [verifyExtension_loop] in H.
  - apply Ok_inj in H. by subst rs.
  - apply Forall_cons in Hall as [Hid Hall]. destruct (ctx _ _); [done|]. apply bind_Ok in H as (r & Hr & H).
    apply bind_Ok in H as (rs' & Hrs & H). apply Ok_inj in H. subst rs.
    constructor; [by eapply verifyExtension_Ok|by eapply IH].
Qed.

Lemma validateExtensionWork_Ok inputs ids :
  validateExtensionWork (evi_requestedExtensions inputs) (evi_clientExtensionResults inputs)
    (evi_authenticatorExtensions inputs) = Ok ids →
  map_len ids <= 64 ∧
  ∀ id, is_Some (ids !! id) ↔ has_output inputs id ∨ is_Some (evi_requestedExtensions inputs !! id).
Proof.
  unfold validateExtensionWork. intros H. apply bind_Ok in H as ([] & _ & H). apply bind_Ok in H as ([] & _ & H).
  apply bind_Ok in H as ([] & _ & H). apply bind_Ok in H as ([] & _ & H).
  apply bind_Ok in H as ([] & Hlen%fail_if_Ok%Z.ltb_ge & H). apply Ok_inj in H. subst ids. split; [done|].
  intros id. unfold has_output, ExtensionInputs, ClientOutputs, ExtensionMap in *.
  rewrite <-!elem_of_dom, !dom_union_L, !dom_fmap_L. set_solver.
Qed.

Lemma verifyExtensions_Ok ctx inputs rs : registry_adapted (evi_registry inputs) →
  verifyExtensions ctx inputs = Ok rs →
  StronglySorted string_lt (res_ID <$> rs) ∧ (length rs <= 64)%nat ∧
  (∀ id, id ∈ res_ID <$> rs ↔ has_output inputs id ∨ is_Some (evi_requestedExtensions inputs !! id)) ∧
  (∀ r, r ∈ rs → result_for inputs (res_ID r) r).
Proof.
  intros Had H. unfold verifyExtensions in H. destruct (ctx _ _); [done|].
  apply bind_Ok in H as (ids & [Hlen Hids]%validateExtensionWork_Ok & H).
  apply verifyExtension_loop_Ok in H; [|done|].
  2: { apply Forall_forall. intros id Hid. by apply Hids, elem_of_sorted_keys. }
  assert (res_ID <$> rs = sorted_keys ids) as Heq.
  { clear -H. induction H as [|id r ids' rs' [Hr _] _ IH]; [done|]. by rewrite fmap_cons, IH, Hr. }
  split_and!.
  - rewrite Heq. apply StronglySorted_lt; [apply StronglySorted_sorted_keys|apply NoDup_sorted_keys].
  - rewrite <-(length_fmap res_ID rs), Heq. apply Nat2Z.inj_le. by rewrite length_sorted_keys.
  - intros id. by rewrite Heq, elem_of_sorted_keys, Hids.
  - intros r Hr. apply list_elem_of_lookup in Hr as [i Hi].
    destruct (Forall2_lookup_r _ _ _ _ _ H Hi) as (id & _ & Hres). assert (res_ID r = id) as -> by apply Hres. done.
Qed.
End FinishLemmas.

(** ** Properties *)

(** Inputs prepared at ceremony start carry the bindings that the finish
    check wants: with the inputs and bindings of the start, the check at finish
    passes exactly for the registries that still give every requested
    extension the binding it had (in particular, for the same registry). *)
Theorem bindings_pinned {Ord : MapOrder} {Custom : CustomTypes} op inputs registry policy transform out bindings finish :
  registry_wf registry →
  prepareExtensionInputs op inputs registry policy transform = Ok (out, bindings) →
  validateFinishExtensionBindings out bindings finish = Ok () ↔
  ∀ id, is_Some (inputs !! id) → Registry_Binding finish id = Registry_Binding registry id.
Proof.
  intros Hwf Hprep%prepareExtensionInputs_Ok. eapply finish_bindings_prepared; [done..|]. by apply Hprep.
Qed.

#[local] Existing Instance no_custom_types.
#[local] Existing Instance default_order.

(** A registry with the credProps handler, and inputs that request it. *)
Definition sample_registry : Registry :=
  match NewRegistry [Some (Register (Iface CredPropsHandler))] with
  | Ok r => r
  | Err _ => None
  end.
Definition sample_inputs : ExtensionInputs := {[ IDCredProps := VBoolInput true ]}.
Definition sample_binding : Binding := mkBinding IDCredProps RevisionLevel3Recommendation.

Lemma sample_registry_wf : registry_wf sample_registry.
Proof.
  apply (NewRegistry_wf [Some (Register (Iface CredPropsHandler))]). reflexivity.
Qed.

Lemma sample_registry_adapted : registry_adapted sample_registry.
Proof.
  intros id e He. assert (sample_registry = Some {[ IDCredProps := mkRegistryHandler sample_binding
    (Register (Iface CredPropsHandler)) ]}) as Hs by reflexivity. rewrite Hs in He.
  unfold registry_map in He; cbn [from_option Datatypes.id] in He. apply lookup_singleton_Some in He as [_ <-]. exists bool, CredentialPropertiesResult, _, _, (Iface CredPropsHandler). reflexivity.
Qed.

Lemma bindings_pinned_witness :
  validateFinishExtensionBindings sample_inputs [sample_binding] sample_registry = Ok () ∧
  validateFinishExtensionBindings sample_inputs [sample_binding] (Some ∅) ≠ Ok ().
Proof.
  pose proof (bindings_pinned OperationRegistration sample_inputs
    sample_registry (mkInputPolicy true) None sample_inputs [sample_binding]) as H.
  split; [apply H; [apply sample_registry_wf|reflexivity|done]|].
  intros Hok. apply (proj1 (H (Some ∅) sample_registry_wf eq_refl)) with (id := IDCredProps) in Hok; [|by eexists].
  vm_compute in Hok. discriminate.
Defined.

(** C17: a successful extension verification reports exactly the extensions that
    were requested or answered, once each and in strictly increasing order, at
    most 64 of them; an unrequested or unknown extension is only ever preserved
    raw and never accepted, a verified result comes from a requested extension
    of the registry and carries the revision it is bound to, and the reject
    policies leave no unknown (or unrequested) output among the results. *)
Theorem extension_results {Ord : MapOrder} {Custom : CustomTypes} ctx inputs rs :
  registry_adapted (evi_registry inputs) →
  verifyExtensions ctx inputs = Ok rs →
  StronglySorted string_lt (res_ID <$> rs) ∧ (length rs <= 64)%nat ∧
  (∀ id, id ∈ res_ID <$> rs ↔ has_output inputs id ∨ is_Some (evi_requestedExtensions inputs !! id)) ∧
  (∀ r, r ∈ rs → result_for inputs (res_ID r) r).
Proof. apply verifyExtensions_Ok. Qed.

(** The results when credProps was requested and the client also answered an
    extension nobody asked for. *)
Definition sample_verification : extensionVerificationInputs :=
  mkVerificationInputs OperationRegistration (mkByteValue None) sample_inputs (mkOutputPolicy false false) sample_registry
    {[ IDCredProps := mkRawValue true (VCredProps (mkCredProps (Some true))); "other" := mkRawValue true (VBool true) ]} ∅ None.

Lemma extension_results_witness :
  ∃ rs, verifyExtensions background sample_verification = Ok rs ∧
        ∀ r, r ∈ rs → res_ID r = "other" → res_Accepted r = false.
Proof.
  eexists. split; [reflexivity|]. intros r Hr Hid.
  pose proof (extension_results background sample_verification) as H.
  destruct (H _ sample_registry_adapted eq_refl) as (_ & _ & _ & H'). apply H' in Hr as (_ & _ & _ & Hc).
  rewrite Hid in Hc. destruct (res_raw r); [apply Hc|]. destruct Hc as [[v Hv] _]. discriminate Hv.
Defined.
