(* ===== verification/State.v ===== *)
(** * Ceremony state and credential records

    Models the data the caller stores between the two phases of a ceremony
    ([RegistrationState] and [AuthenticationState]) and between ceremonies
    ([CredentialRecord]), with the invariants [src/validation.go] checks before
    any of it is used again. *)
From S2P Require Import Prelude GoStrings AuthData ClientData Origin ExtValue Types Extension ExtHandlers Attestation Ceremony ExtVerify.
Set Default Goal Selector "!".
Local Open Scope Z_scope.

Definition ErrInvalidCredentialRecord : error := Sentinel "webauthn.ErrInvalidCredentialRecord".

Record RegistrationState := mkRegistrationState {
  rs_Challenge : Challenge;
  rs_RPID : string;
  rs_OriginPolicy : OriginPolicy;
  rs_ConditionalMediation : bool;
  rs_UserHandle : UserHandle;
  rs_RequestedUserVerification : string;
  rs_RequestedExtensions : ExtensionInputs;
  rs_ExtensionBindings : list Binding;
  rs_AllowedAlgorithms : list Z;
  rs_Attestation : string;
  rs_ExpiresAt : Z;
}.

Record AuthenticationState := mkAuthenticationState {
  as_Challenge : Challenge;
  as_RPID : string;
  as_OriginPolicy : OriginPolicy;
  as_RequestedUserVerification : string;
  as_RequestedExtensions : ExtensionInputs;
  as_ExtensionBindings : list Binding;
  as_AllowCredentials : list CredentialDescriptor;
  as_ExpectedUserHandle : UserHandle;
  as_ExpiresAt : Z;
}.

Record CredentialRecord := mkCredentialRecord {
  cr_Type : string;
  cr_ID : CredentialID;
  cr_PublicKey : CredentialPublicKey;
  cr_UserHandle : UserHandle;
  cr_RPID : string;
  cr_AAGUID : AAGUID;
  cr_SignCount : Z;
  cr_Transports : list string;
  cr_BackupEligible : bool;
  cr_BackupState : bool;
  cr_UVInitialized : bool;
  cr_AuthenticatorAttachment : string;
  cr_AttestationType : string;
}.

#[export] Instance CredentialRecord_eq_dec : EqDecision CredentialRecord.
Proof. solve_decision. Defined.

(** [time.Time.IsZero] *)
Definition IsZero (t : Z) : bool := t =? 0.

Section Validation.
Context {Ord : MapOrder} {Custom : CustomTypes}.

(** [slices.IsSortedFunc] with the comparison of the IDs. *)
Fixpoint bindingsSorted (bindings : list Binding) : bool :=
  match bindings with
  | a :: (b :: _) as rest => bool_decide (String.le (b_ID a) (b_ID b)) && bindingsSorted rest
  | _ => true
  end.

(** The loop over the bindings: the map it builds. *)
Fixpoint bindingsBound (inputs : ExtensionInputs) (previous : string) (bound : gmap string Binding)
    (bindings : list Binding) : result (gmap string Binding) :=
  match bindings with
  | [] => Ok bound
  | binding :: bindings =>
      _ ← fail_if (negb (Binding_Valid binding) || bool_decide (b_ID binding = previous))
            (ErrorText ErrInvalidCeremonyState "extension binding is invalid");
      _ ← fail_if (negb (is_some (inputs !! b_ID binding)))
            (ErrorText ErrInvalidCeremonyState "extension binding was not requested");
      bindingsBound inputs (b_ID binding) (<[b_ID binding := binding]> bound) bindings
  end.

Definition validateExtensionBindingState (inputs : ExtensionInputs) (bindings : list Binding) : result () :=
  _ ← fail_if (MaxEntries <? Z.of_nat (length bindings)) (ErrorWrap ErrInvalidCeremonyState ErrTooManyEntries);
  _ ← fail_if (negb (bindingsSorted bindings))
        (ErrorText ErrInvalidCeremonyState "extension bindings are not sorted");
  bound ← bindingsBound inputs "" ∅ bindings;
  for_each (λ id,
    match BuiltInBinding id with
    | Some expected =>
        fail_if (negb (bool_decide (default (mkBinding "" "") (bound !! id) = expected)))
          (ErrorWrap ErrInvalidCeremonyState (ErrorText ErrBindingMismatch id))
    | None => Ok ()
    end) (range_keys inputs).

Definition validateRequestedExtensionIDs (inputs : ExtensionInputs) : result () :=
  _ ← fail_if (MaxEntries <? map_len inputs) (ErrorWrap ErrInvalidCeremonyState ErrTooManyEntries);
  for_each (λ id, fail_if (negb (protocolidentifier_Valid id))
                    (ErrorText ErrInvalidCeremonyState "invalid extension id")) (range_keys inputs).

Definition RegistrationState_Validate (state : RegistrationState) : result () :=
  let invalid := ErrInvalidCeremonyState in
  _ ← fail_if ((bv_len (rs_Challenge state) =? 0) || bool_decide (rs_RPID state = "")) invalid;
  _ ← wrap_err invalid (validateOriginPolicy (rs_OriginPolicy state));
  _ ← wrap_err invalid (validateRPIDOriginPolicy (rs_RPID state) (rs_OriginPolicy state));
  _ ← fail_if (bv_len (rs_UserHandle state) =? 0) (ErrorText invalid "user handle is required");
  _ ← fail_if (IsZero (rs_ExpiresAt state)) (ErrorText invalid "expiry is required");
  _ ← fail_if (bool_decide (rs_AllowedAlgorithms state = [])) (ErrorText invalid "allowed algorithms are required");
  _ ← for_each (λ a, wrap_err invalid (COSEAlgorithmIdentifier_Validate a)) (rs_AllowedAlgorithms state);
  _ ← fail_if (negb (AttestationConveyancePreference_Known (rs_Attestation state)))
        (ErrorText invalid "invalid attestation conveyance");
  _ ← wrap_err invalid (validateUserVerification (rs_RequestedUserVerification state));
  _ ← validateRequestedExtensionIDs (rs_RequestedExtensions state);
  validateExtensionBindingState (rs_RequestedExtensions state) (rs_ExtensionBindings state).

Definition AuthenticationState_Validate (state : AuthenticationState) : result () :=
  let invalid := ErrInvalidCeremonyState in
  _ ← fail_if ((bv_len (as_Challenge state) =? 0) || bool_decide (as_RPID state = "")) invalid;
  _ ← wrap_err invalid (validateOriginPolicy (as_OriginPolicy state));
  _ ← wrap_err invalid (validateRPIDOriginPolicy (as_RPID state) (as_OriginPolicy state));
  _ ← fail_if (IsZero (as_ExpiresAt state)) (ErrorText invalid "expiry is required");
  _ ← wrap_err invalid (validateUserVerification (as_RequestedUserVerification state));
  _ ← for_each (λ d, wrap_err invalid (CredentialDescriptor_Validate d)) (as_AllowCredentials state);
  _ ← validateRequestedExtensionIDs (as_RequestedExtensions state);
  _ ← validateExtensionBindingState (as_RequestedExtensions state) (as_ExtensionBindings state);
  wrap_err invalid
    (validateStoredAuthenticationExtensionContext (as_RequestedExtensions state) (as_AllowCredentials state)).
End Validation.

Definition CredentialRecord_Validate (record : CredentialRecord) : result () :=
  let invalid := ErrInvalidCredentialRecord in
  _ ← wrap_err invalid (PublicKeyCredentialType_Validate (cr_Type record));
  _ ← fail_if ((bv_len (cr_ID record) =? 0) || (bv_len (cr_UserHandle record) =? 0) || bool_decide (cr_RPID record = ""))
        (ErrorText invalid "required field is missing");
  _ ← wrap_err invalid (CredentialPublicKey_Validate (cr_PublicKey record));
  _ ← fail_if (cr_BackupState record && negb (cr_BackupEligible record)) (ErrorWrap invalid ErrInvalidBackupState);
  _ ← fail_if (negb (bool_decide (cr_AuthenticatorAttachment record = ""))
               && negb (AuthenticatorAttachment_Known (cr_AuthenticatorAttachment record)))
        (ErrorText invalid "authenticator attachment");
  fail_if (negb (Type_Known (cr_AttestationType record))) (ErrorText invalid "attestation type").

Definition CredentialRecord_Clone (record : CredentialRecord) : CredentialRecord :=
  {| cr_Type := cr_Type record; cr_ID := cr_ID record; cr_PublicKey := cr_PublicKey record;
     cr_UserHandle := cr_UserHandle record; cr_RPID := cr_RPID record; cr_AAGUID := cr_AAGUID record;
     cr_SignCount := cr_SignCount record; cr_Transports := cr_Transports record;
     cr_BackupEligible := cr_BackupEligible record; cr_BackupState := cr_BackupState record;
     cr_UVInitialized := cr_UVInitialized record;
     cr_AuthenticatorAttachment := cr_AuthenticatorAttachment record;
     cr_AttestationType := cr_AttestationType record |}.

(** ** The invariants *)

Lemma CredentialRecord_Clone_id record : CredentialRecord_Clone record = record.
Proof. by destruct record. Qed.

(** What [CredentialRecord.Validate] establishes. *)
Definition record_valid (r : CredentialRecord) : Prop :=
  cr_Type r = CredentialTypePublicKey ∧ slice_list (bv_value (cr_ID r)) ≠ [] ∧
  slice_list (bv_value (cr_UserHandle r)) ≠ [] ∧ cr_RPID r ≠ "" ∧
  CredentialPublicKey_Validate (cr_PublicKey r) = Ok () ∧
  (cr_BackupState r = true → cr_BackupEligible r = true) ∧
  (cr_AuthenticatorAttachment r ≠ "" → AuthenticatorAttachment_Known (cr_AuthenticatorAttachment r) = true) ∧
  Type_Known (cr_AttestationType r) = true.

Lemma CredentialRecord_Validate_Ok r u : CredentialRecord_Validate r = Ok u ↔ record_valid r.
Proof.
  unfold CredentialRecord_Validate, record_valid. split.
  - intros H. apply bind_Ok in H as ([] & Ht%wrap_err_Ok%PublicKeyCredentialType_Validate_Ok & H).
    apply bind_Ok in H as ([] & Hf%fail_if_Ok & H). apply bind_Ok in H as ([] & Hk%wrap_err_Ok & H).
    apply bind_Ok in H as ([] & Hb%fail_if_Ok & H). apply bind_Ok in H as ([] & Ha%fail_if_Ok & Hy%fail_if_Ok).
    apply orb_false_iff in Hf as [[Hi%Z.eqb_neq Hu%Z.eqb_neq]%orb_false_iff Hr%bool_decide_eq_false].
    rewrite bv_len_0 in Hi, Hu. apply negb_false_iff in Hy. split_and!; try done.
    + intros Hs. rewrite Hs in Hb. by apply negb_false_iff in Hb.
    + intros Hs. rewrite bool_decide_eq_false_2 in Ha by done. by apply negb_false_iff in Ha.
  - intros (Ht & Hi & Hu & Hr & Hk & Hb & Ha & Hy). destruct u.
    rewrite (proj2 (PublicKeyCredentialType_Validate_Ok _ ()) Ht). run.
    rewrite (proj2 (Z.eqb_neq _ 0)) by (by rewrite bv_len_0). rewrite (proj2 (Z.eqb_neq _ 0)) by (by rewrite bv_len_0).
    rewrite (bool_decide_eq_false_2 (cr_RPID r = "")) by done. rewrite Hk, Hy. cbn.
    destruct (cr_BackupState r); [rewrite Hb by done|]; cbn;
      (case_bool_decide as E; [done|]; by rewrite (Ha E)).
Qed.

(** The bindings a valid state may carry: strictly increasing identifiers, each
    of them requested, with every requested built-in extension bound to its
    built-in revision. *)
Definition bindings_valid (inputs : ExtensionInputs) (bindings : list Binding) : Prop :=
  (length bindings <= 64)%nat ∧ StronglySorted string_lt (b_ID <$> bindings) ∧
  Forall (λ b, Binding_Valid b = true ∧ is_Some (inputs !! b_ID b)) bindings ∧
  ∀ id expected, is_Some (inputs !! id) → BuiltInBinding id = Some expected → expected ∈ bindings.

Lemma StronglySorted_string_lt_cons x l :
  StronglySorted string_lt (x :: l) ↔
  match head l with Some y => string_lt x y | None => True end ∧ StronglySorted string_lt l.
Proof.
  split.
  - intros [Hl Hx]%StronglySorted_inv. split; [|done]. destruct l; [done|]. by apply Forall_cons in Hx as [? _].
  - intros [Hx Hl]. constructor; [done|]. destruct l as [|y l]; [constructor|]. cbn in Hx.
    constructor; [done|]. apply StronglySorted_inv in Hl as [_ Hy]. eapply Forall_impl; [exact Hy|].
    intros z. by apply string_lt_trans.
Qed.

Lemma bindingsBound_Ok inputs bs previous bound m : bindingsSorted bs = true →
  bindingsBound inputs previous bound bs = Ok m ↔
  (match head bs with Some b => b_ID b ≠ previous | None => True end ∧
   StronglySorted string_lt (b_ID <$> bs) ∧
   Forall (λ b, Binding_Valid b = true ∧ is_Some (inputs !! b_ID b)) bs ∧
   m = foldl (λ m b, <[b_ID b := b]> m) bound bs).
Proof.
  revert previous bound. induction bs as [|b bs IH]; intros previous bound Hs; cbn [bindingsBound].
  { cbn. split; [intros [= <-]|intros (_ & _ & _ & ->); done]. split_and!; try done; constructor. }
  rewrite fmap_cons, StronglySorted_string_lt_cons, Forall_cons.
  assert (bindingsSorted bs = true ∧ match head (b_ID <$> bs) with Some y => String.le (b_ID b) y | None => True end)
    as [Hs' Hhd].
  { cbn in Hs. destruct bs as [|c bs]; [done|]. apply andb_true_iff in Hs as [Hle%bool_decide_eq_true Hs]. done. }
  specialize (IH (b_ID b) (<[b_ID b := b]> bound) Hs'). split.
  - intros H. apply bind_Ok in H as ([] & Hv%fail_if_Ok & H). apply bind_Ok in H as ([] & Hr%fail_if_Ok & H).
    apply orb_false_iff in Hv as [Hv%negb_false_iff Hp%bool_decide_eq_false]. apply negb_false_iff, is_some_spec in Hr.
    apply IH in H as (Hh & Hss & Hf & ->). split_and!; try done. destruct bs as [|c bs]; [done|]. cbn in *. split; [done|].
    congruence.
  - intros (Hp & [Hh Hss] & [[Hv Hr] Hf] & ->). cbn in Hp. rewrite Hv, bool_decide_eq_false_2 by done.
    rewrite (proj2 (is_some_spec _) Hr). cbn. apply IH. split_and!; try done.
    destruct bs as [|c bs]; [done|]. cbn in *. intros Heq. apply Hh. congruence.
Qed.

Lemma Binding_Valid_nonempty b : Binding_Valid b = true → b_ID b ≠ "".
Proof. intros H Heq. unfold Binding_Valid in H. rewrite Heq in H. discriminate H. Qed.

Lemma StronglySorted_NoDup l : StronglySorted string_lt l → NoDup l.
Proof.
  induction 1 as [|x l Hl IH Hx]; constructor; [|done]. intros Hin. rewrite Forall_forall in Hx.
  by apply (string_lt_irrefl x), Hx.
Qed.

Lemma bindingsSorted_lt bs : StronglySorted string_lt (b_ID <$> bs) → bindingsSorted bs = true.
Proof.
  induction bs as [|b [|c bs] IH]; try done. rewrite fmap_cons, StronglySorted_string_lt_cons. intros [[Hle _] Hs].
  cbn [bindingsSorted]. rewrite bool_decide_eq_true_2 by done. by apply IH.
Qed.

Lemma StronglySorted_filter {A} (R : A → A → Prop) (P : A → Prop) `{∀ x, Decision (P x)} l :
  StronglySorted R l → StronglySorted R (filter P l).
Proof.
  induction 1 as [|x l Hl IH Hx]; [constructor|]. rewrite filter_cons. case_decide; [|done].
  constructor; [done|]. rewrite !Forall_forall in *. intros y [_ Hy]%list_elem_of_filter. by apply Hx.
Qed.

Section StateLemmas.
Context {Ord : MapOrder} {Custom : CustomTypes}.

Lemma builtin_bound_Ok (inputs : ExtensionInputs) bindings : StronglySorted string_lt (b_ID <$> bindings) →
  for_each (λ id,
    match BuiltInBinding id with
    | Some expected =>
        fail_if (negb (bool_decide (default (mkBinding "" "") (bound_map bindings !! id) = expected)))
          (ErrorWrap ErrInvalidCeremonyState (ErrorText ErrBindingMismatch id))
    | None => Ok ()
    end) (range_keys inputs) = Ok () ↔
  ∀ id expected, is_Some (inputs !! id) → BuiltInBinding id = Some expected → expected ∈ bindings.
Proof.
  intros Hs. pose proof (bound_map_spec bindings (StronglySorted_NoDup _ Hs)) as Hb.
  assert (∀ id e, BuiltInBinding id = Some e → b_ID e = id ∧ e ≠ mkBinding "" "") as Hbi.
  { intros id e He. unfold BuiltInBinding in He. repeat case_bool_decide; try done; injection He as <-; done. }
  rewrite for_each_Ok, Forall_forall. split.
  - intros H id e Hid He. specialize (H id). rewrite elem_of_range_keys, He in H.
    specialize (H Hid). apply fail_if_Ok, negb_false_iff, bool_decide_eq_true in H.
    destruct (Hbi id e He) as [Hide Hz].
    destruct (bound_map bindings !! id) as [b|] eqn:E; cbn in H; [|done]. subst b. by apply Hb in E as [? _].
  - intros H id Hid%elem_of_range_keys. destruct (BuiltInBinding id) as [e|] eqn:He; [|done].
    assert (bound_map bindings !! id = Some e) as ->.
    { apply Hb. split; [by apply (H id)|by apply Hbi]. }
    by rewrite bool_decide_eq_true_2.
Qed.

Lemma validateExtensionBindingState_Ok inputs bindings u :
  validateExtensionBindingState inputs bindings = Ok u ↔ bindings_valid inputs bindings.
Proof.
  unfold validateExtensionBindingState, bindings_valid, MaxEntries. destruct u. split.
  - intros H. apply bind_Ok in H as ([] & Hl%fail_if_Ok%Z.ltb_ge & H).
    apply bind_Ok in H as ([] & Hs%fail_if_Ok%negb_false_iff & H).
    apply bind_Ok in H as (m & (_ & Hss & Hf & ->)%bindingsBound_Ok & H); [|done].
    split_and!; [lia|done|done|]. by apply builtin_bound_Ok.
  - intros (Hl & Hss & Hf & Hb). rewrite (proj2 (Z.ltb_ge 64 _)) by lia. run.
    rewrite bindingsSorted_lt by done. run.
    rewrite (proj2 (bindingsBound_Ok inputs bindings "" ∅ (bound_map bindings) (bindingsSorted_lt _ Hss))).
    + run. by apply builtin_bound_Ok.
    + split_and!; try done. destruct bindings as [|b bs]; [done|]. apply Forall_cons in Hf as [[Hv _] _].
      by apply Binding_Valid_nonempty.
Qed.

Lemma validateRequestedExtensionIDs_Ok (inputs : ExtensionInputs) u :
  validateRequestedExtensionIDs inputs = Ok u ↔
  map_len inputs <= 64 ∧ ∀ id, is_Some (inputs !! id) → protocolidentifier_Valid id = true.
Proof.
  unfold validateRequestedExtensionIDs, MaxEntries. destruct u. rewrite bind_Ok. split.
  - intros ([] & Hl%fail_if_Ok%Z.ltb_ge & H). apply for_each_Ok in H. split; [done|].
    intros id Hid. rewrite Forall_forall in H. specialize (H id). rewrite elem_of_range_keys in H.
    by apply H, fail_if_Ok, negb_false_iff in Hid.
  - intros [Hl H]. exists (). rewrite fail_if_Ok, Z.ltb_ge. split; [done|]. apply for_each_Ok, Forall_forall.
    intros id Hid%elem_of_range_keys. by apply fail_if_Ok, negb_false_iff, H.
Qed.

(** What ceremony start stores passes the checks of ceremony finish. *)
Lemma prepared_state_valid inputs registry policy out bindings stored : registry_wf registry →
  prepared_ok inputs registry policy out bindings → dom stored = dom inputs →
  validateRequestedExtensionIDs stored = Ok () ∧ validateExtensionBindingState stored bindings = Ok ().
Proof.
  intros Hwf (_ & -> & Hlen & Hids) Hdom. unfold ExtensionInputs in *.
  assert (∀ id, is_Some (stored !! id) ↔ is_Some (inputs !! id)) as Hd
    by (intros id; by rewrite <-!elem_of_dom, Hdom).
  rewrite validateRequestedExtensionIDs_Ok, validateExtensionBindingState_Ok. split.
  - split; [|intros id Hid; by apply Hids, Hd]. unfold map_len in *. by rewrite <-size_dom, Hdom, size_dom.
  - assert (b_ID <$> omap (Registry_Binding registry) (sorted_keys inputs) =
      filter (λ id, is_Some (Registry_Binding registry id)) (sorted_keys inputs)) as Hsub
      by (by apply omap_binding_sublist).
    split_and!.
    + rewrite <-(length_fmap b_ID), Hsub. pose proof (length_sorted_keys inputs) as Hk.
      pose proof (length_filter (λ id, is_Some (Registry_Binding registry id)) (sorted_keys inputs)). lia.
    + rewrite Hsub. apply StronglySorted_filter, StronglySorted_lt;
        [apply StronglySorted_sorted_keys|apply NoDup_sorted_keys].
    + apply Forall_forall. intros b Hb. apply omap_binding_In in Hb as [Hin Hb]; [|done]. split.
      * by apply (registry_wf_binding _ _ _ Hwf Hb).
      * by apply Hd, elem_of_sorted_keys.
    + intros id e Hid He. apply Hd in Hid. destruct (Hids id Hid) as [_ Hbi].
      destruct Hbi as [b Hb]; [left; by eexists|].
      destruct (registry_wf_binding _ _ _ Hwf Hb) as (Hbid & _ & Hbe). rewrite <-(Hbe _ He).
      apply omap_binding_In; [done|]. rewrite Hbid. split; [by apply elem_of_sorted_keys|done].
Qed.
End StateLemmas.
