(* ===== verification/Registration.v ===== *)
(** * The registration ceremony

    Models [src/registration_start.go] (challenge generation and
    [StartRegistration]) and [src/registration.go] ([FinishRegistration] and its
    helpers).  Decoders, attestation verifiers and the trust policy are the
    injected interfaces of the code. *)
From S2P Require Import Prelude GoStrings Base64 Sha2 AuthData ClientData Origin ExtValue Types Extension ExtHandlers Attestation Ceremony ExtVerify State.
Set Default Goal Selector "!".
Local Open Scope Z_scope.

(** ** Challenges *)

Definition ChallengeGenerator : Type := iface (context → result Challenge).

(** A nil function value is [None]. *)
Definition ChallengeGeneratorFunc (f : option (context → result Challenge)) (ctx : context) : result Challenge :=
  match f with
  | None => Err (ErrorNew "challenge generator function is nil")
  | Some f => f ctx
  end.

(** [Reader] is what [io.ReadFull] obtains from the reader for a buffer of the
    given length. *)
Record RandomChallengeGenerator := mkRandomGenerator { rg_Reader : iface (Z → result (list byte)); rg_Length : Z }.

Section Registration.
Context {Ord : MapOrder} {Custom : CustomTypes} {CE : CustomEvidence} {RT : Runtime}.

Definition GenerateChallenge (g : RandomChallengeGenerator) (ctx : option context) : result Challenge :=
  match default background ctx "GenerateChallenge" 0%nat with
  | Some e => Err e
  | None =>
      let length := if rg_Length g =? 0 then RecommendedChallengeLength else rg_Length g in
      _ ← fail_if (length <? MinChallengeLength) (ByteLengthError "challenge" length MinChallengeLength 0);
      reader ← match rg_Reader g with
               | NilIface => Ok rand_Reader
               | TypedNil => Err (ErrorNew "random reader is typed nil")
               | Iface r => Ok r
               end;
      raw ← reader length;
      NewChallenge (Some raw)
  end.

(** The challenge of a ceremony: the caller's, or a generated one. *)
Definition ceremonyChallenge (challenge : Challenge) (generator : ChallengeGenerator) (ctx : context) :
    result Challenge :=
  if bv_len challenge =? 0 then
    match generator with
    | NilIface => GenerateChallenge (mkRandomGenerator NilIface 0) (Some ctx)
    | TypedNil => Err (ErrorText ErrInvalidConfiguration "challenge generator is typed nil")
    | Iface generate => generate ctx
    end
  else Ok challenge.

(** ** Start *)

Record RegistrationStartOptions := mkRegistrationStart {
  rso_RP : RPEntity;
  rso_User : UserEntity;
  rso_OriginPolicy : OriginPolicy;
  rso_ConditionalMediation : bool;
  rso_Challenge : Challenge;
  rso_ChallengeGenerator : ChallengeGenerator;
  rso_PubKeyCredParams : list CredentialParameter;
  rso_Timeout : Z;
  rso_StateTTL : Z;
  rso_ExcludeCredentials : list CredentialDescriptor;
  rso_AuthenticatorSelection : option AuthenticatorSelectionCriteria;
  rso_Hints : list string;
  rso_Attestation : string;
  rso_AttestationFormats : list string;
  rso_Extensions : ExtensionInputs;
  rso_ExtensionRegistry : Registry;
  rso_ExtensionInputPolicy : ExtensionInputPolicy;
  rso_Now : option Z;
}.

Record RegistrationStartResult := mkRegistrationStartResult {
  rsr_Options : PublicKeyCredentialCreationOptions; rsr_State : RegistrationState }.

Definition rso_now (o : RegistrationStartOptions) : Z := default time_Now (rso_Now o).

Definition StartRegistration (ctx : option context) (options : RegistrationStartOptions) :
    result RegistrationStartResult :=
  let ctx := default background ctx in
  let config := ErrInvalidConfiguration in
  _ ← wrap_err config (RPEntity_Validate (rso_RP options));
  _ ← wrap_err config (UserEntity_Validate (rso_User options));
  _ ← wrap_err config (validateOriginPolicy (rso_OriginPolicy options));
  _ ← wrap_err config (validateRPIDOriginPolicy (rp_ID (rso_RP options)) (rso_OriginPolicy options));
  _ ← wrap_err config (AuthenticatorSelectionCriteria_Validate (rso_AuthenticatorSelection options));
  credentialParameters ← wrap_err config (registrationCredentialParameters (rso_PubKeyCredParams options));
  challenge ← ceremonyChallenge (rso_Challenge options) (rso_ChallengeGenerator options) ctx;
  let userVerification := registrationUserVerification (rso_AuthenticatorSelection options) in
  _ ← wrap_err config (validateUserVerification userVerification);
  '(preparedExtensions, extensionBindings) ← wrap_err config
    (prepareExtensionInputs OperationRegistration (rso_Extensions options) (rso_ExtensionRegistry options)
       (rso_ExtensionInputPolicy options) None);
  _ ← wrap_err config (validateRemoteClientDataInput OperationRegistration preparedExtensions
                         (rso_ExtensionRegistry options) challenge);
  optionExtensions ← wrap_err config (cloneExtensionInputs preparedExtensions);
  stateExtensions ← wrap_err config (cloneExtensionInputs preparedExtensions);
  let attestationConveyance :=
    if bool_decide (rso_Attestation options = "") then AttestationNone else rso_Attestation options in
  _ ← fail_if (negb (AttestationConveyancePreference_Known attestationConveyance))
        (ErrorWrap config (ValueError "attestation" attestationConveyance));
  let authenticatorSelection :=
    match AuthenticatorSelectionCriteria_Clone (rso_AuthenticatorSelection options) with
    | Some s =>
        Some (if bool_decide (sel_UserVerification s = "")
              then mkSelection (sel_AuthenticatorAttachment s) (sel_ResidentKey s) (sel_RequireResidentKey s) userVerification
              else s)
    | None => None
    end in
  '(timeoutMilliseconds, expiresAt) ← wrap_err config
    (timeoutState (rso_Timeout options) (rso_StateTTL options) (rso_now options));
  let creationOptions := {|
    co_RP := rso_RP options;
    co_User := rso_User options;
    co_Challenge := challenge;
    co_PubKeyCredParams := credentialParameters;
    co_TimeoutMilliseconds := timeoutMilliseconds;
    co_ExcludeCredentials := cloneCredentialDescriptors (rso_ExcludeCredentials options);
    co_AuthenticatorSelection := authenticatorSelection;
    co_Hints := rso_Hints options;
    co_Attestation := attestationConveyance;
    co_AttestationFormats := rso_AttestationFormats options;
    co_Extensions := optionExtensions |} in
  _ ← wrap_err config (CreationOptions_Validate creationOptions);
  Ok (mkRegistrationStartResult creationOptions {|
    rs_Challenge := challenge;
    rs_RPID := rp_ID (rso_RP options);
    rs_OriginPolicy := OriginPolicy_clone (rso_OriginPolicy options);
    rs_ConditionalMediation := rso_ConditionalMediation options;
    rs_UserHandle := user_ID (rso_User options);
    rs_RequestedUserVerification := userVerification;
    rs_RequestedExtensions := stateExtensions;
    rs_ExtensionBindings := extensionBindings;
    rs_AllowedAlgorithms := algorithmsFromParameters credentialParameters;
    rs_Attestation := attestationConveyance;
    rs_ExpiresAt := expiresAt |}).

(** ** Finish *)

Definition AttestationObjectDecoder : Type := iface (AttestationObject → result DecodedAttestationObject).
Definition COSEKeyDecoder : Type := iface (list byte → result CredentialPublicKey).
Definition ExtensionMapDecoder : Type := iface (list byte → result ExtensionMap).

Record RegistrationResponse := mkRegistrationResponse {
  rr_Type : string;
  rr_RawID : RawID;
  rr_ClientDataJSON : ClientDataJSON;
  rr_AuthenticatorData : AuthenticatorData;
  rr_AttestationObject : AttestationObject;
  rr_PublicKeyAlgorithm : Z;
  rr_Transports : list string;
  rr_AuthenticatorAttachment : string;
  rr_ClientExtensionResults : ClientOutputs;
}.

Record RegistrationExtensionPolicy := mkRegistrationPolicy { rep_RejectUnrequested : bool; rep_RejectUnknown : bool }.

Record RegistrationFinishOptions := mkRegistrationFinish {
  rfo_State : RegistrationState;
  rfo_Response : RegistrationResponse;
  rfo_AttestationObjectDecoder : AttestationObjectDecoder;
  rfo_CredentialPublicKeyDecoder : COSEKeyDecoder;
  rfo_ExtensionMapDecoder : ExtensionMapDecoder;
  rfo_AttestationRegistry : attRegistry;
  rfo_AttestationTrustPolicy : TrustPolicy;
  rfo_ExtensionRegistry : Registry;
  rfo_ExtensionPolicy : RegistrationExtensionPolicy;
  rfo_Now : option Z;
}.

Record RegistrationResult := mkRegistrationResult {
  rres_Credential : CredentialRecord;
  rres_Attestation : VerificationResult;
  rres_AttestationTrust : TrustResult;
  rres_Extensions : Results;
  rres_Warnings : list string;
}.

Definition rfo_now (o : RegistrationFinishOptions) : Z := default time_Now (rfo_Now o).

Definition validateFinishDependencies (options : RegistrationFinishOptions) : result () :=
  _ ← fail_if (IsNil (rfo_AttestationObjectDecoder options))
        (ErrorText ErrInvalidConfiguration "registration attestation object decoder is required");
  _ ← fail_if (IsNil (rfo_CredentialPublicKeyDecoder options))
        (ErrorText ErrInvalidConfiguration "registration credential public key decoder is required");
  fail_if (negb (is_some (rfo_AttestationRegistry options)))
    (ErrorText ErrInvalidConfiguration "attestation registry is required").

Definition validateRegistrationState (state : RegistrationState) (now : Z) : result () :=
  _ ← fail_if (negb (IsZero (rs_ExpiresAt state)) && negb (now <? rs_ExpiresAt state)) ErrCeremonyExpired;
  RegistrationState_Validate state.

Definition validateRegistrationResponseShape (response : RegistrationResponse) : result () :=
  _ ← wrap_err ErrMalformedResponse (PublicKeyCredentialType_Validate (rr_Type response));
  fail_if (bv_IsNil (rr_RawID response) || bv_IsNil (rr_ClientDataJSON response)
           || bv_IsNil (rr_AttestationObject response)) ErrMalformedResponse.

Definition verifyRegistrationAuthenticatorData (state : RegistrationState) (raw : AuthenticatorData) :
    result ParsedAuthenticatorData :=
  parsed ← wrap_err ErrMalformedResponse (ParseAuthenticatorData raw);
  let flags := Flags parsed in
  _ ← fail_if (negb (bool_decide (RPIDHash parsed = Sum256 (bytes_of_string (rs_RPID state))))) ErrRPIDHashMismatch;
  _ ← fail_if (negb (rs_ConditionalMediation state) && negb (UserPresent flags)) ErrUserPresenceRequired;
  _ ← fail_if (bool_decide (rs_RequestedUserVerification state = UserVerificationRequired) && negb (UserVerified flags))
        ErrUserVerificationRequired;
  _ ← fail_if (BackupState flags && negb (BackupEligible flags)) ErrInvalidBackupState;
  _ ← fail_if (negb (HasAttestedCredentialData flags)) (ErrorWrap ErrMalformedResponse ErrAttestedCredentialDataMissing);
  Ok parsed.

Definition decodeCredentialPublicKeyAndExtensions (keyDecoder : COSEKeyDecoder) (extensionDecoder : ExtensionMapDecoder)
    (parsed : ParsedAuthenticatorData) (attested : AttestedCredentialData) :
    result (CredentialPublicKey * ExtensionMap) :=
  match keyDecoder with
  | Iface decodeKey =>
      let data := CredentialPublicKeyAndExtensions attested in
      publicKey ← wrap_err ErrMalformedResponse (decodeKey data);
      _ ← wrap_err ErrMalformedResponse (CredentialPublicKey_Validate publicKey);
      let rawKey := Raw publicKey in
      _ ← fail_if (bool_decide (rawKey = []) || (Z.of_nat (length data) <? Z.of_nat (length rawKey))
                   || negb (bool_decide (rawKey = take (length rawKey) data))) ErrMalformedResponse;
      let extensionBytes := drop (length rawKey) data in
      if negb (HasExtensionData (Flags parsed)) then
        _ ← fail_if (negb (bool_decide (extensionBytes = []))) ErrMalformedResponse;
        Ok (publicKey, ∅)
      else
        _ ← fail_if (bool_decide (extensionBytes = [])) ErrMalformedResponse;
        match extensionDecoder with
        | Iface decodeExtensions =>
            extensions ← wrap_err ErrMalformedResponse (decodeExtensions extensionBytes);
            Ok (publicKey, extensions)
        | _ => Err (ErrorText ErrInvalidConfiguration
                      "registration extension map decoder is required for authenticator extensions")
        end
  | _ => Err NilDereference
  end.

Record registrationAttestationInputs := mkAttestationInputs {
  rai_trustPolicy : TrustPolicy;
  rai_registry : attRegistry;
  rai_decodedAttestation : DecodedAttestationObject;
  rai_credentialPublicKey : CredentialPublicKey;
  rai_clientDataHash : list byte;
  rai_aaguid : AAGUID;
  rai_conveyance : string;
}.

Definition verifyRegistrationAttestation (ctx : context) (inputs : registrationAttestationInputs) :
    result (VerificationResult * TrustResult) :=
  let decoded := rai_decodedAttestation inputs in
  _ ← fail_if (negb (protocolidentifier_Valid (do_Format decoded))) ErrInvalidAttestation;
  verifier ← of_option ErrUnsupportedAttestationFormat (Lookup (rai_registry inputs) (do_Format decoded));
  res ← wrap_err ErrInvalidAttestation (v_VerifyAttestation verifier ctx
    {| vq_Format := do_Format decoded;
       vq_ConveyancePreference := rai_conveyance inputs;
       vq_AuthenticatorData := do_AuthenticatorData decoded;
       vq_ClientDataHash := rai_clientDataHash inputs;
       vq_Statement := do_Statement decoded;
       vq_CredentialPublicKey := rai_credentialPublicKey inputs;
       vq_RawAttestationObject := do_Raw decoded |});
  _ ← fail_if (negb (vr_CryptographicallyValid res) || negb (Type_Known (vr_Type res))
               || negb (TrustPathKind_Known (tp_Kind (vr_TrustPath res)))) ErrInvalidAttestation;
  let res := VerificationResult_Clone res in
  match rai_trustPolicy inputs with
  | Iface evaluateTrust =>
      trust ← wrap_err ErrRejectedAttestationPolicy (evaluateTrust ctx
        {| tq_Format := do_Format decoded;
           tq_Result := VerificationResult_Clone res;
           tq_AAGUID := rai_aaguid inputs;
           tq_AuthenticatorData := do_AuthenticatorData decoded;
           tq_CredentialPublicKey := rai_credentialPublicKey inputs;
           tq_RawAttestationObject := do_Raw decoded |});
      _ ← fail_if (negb (ts_Accepted trust)) ErrRejectedAttestationPolicy;
      Ok (VerificationResult_Clone res, TrustResult_Clone trust)
  | _ => Err ErrRejectedAttestationPolicy
  end.

Definition verifyRegistrationExtensions (ctx : context) (state : RegistrationState) (policy : RegistrationExtensionPolicy)
    (registry : Registry) (clientExtensionResults : ClientOutputs) (authenticatorExtensions : ExtensionMap)
    (clientDataJSON : ClientDataJSON) : result Results :=
  _ ← verifyRemoteClientDataBinding (rs_RequestedExtensions state) (rs_ExtensionBindings state) clientDataJSON;
  verifyExtensions ctx
    {| evi_operation := OperationRegistration;
       evi_selectedCredentialID := zeroByteValue;
       evi_requestedExtensions := rs_RequestedExtensions state;
       evi_policy := mkOutputPolicy (rep_RejectUnrequested policy) (rep_RejectUnknown policy);
       evi_registry := registry;
       evi_clientExtensionResults := clientExtensionResults;
       evi_authenticatorExtensions := authenticatorExtensions;
       evi_clientInputTransform := None |}.

Definition FinishRegistration (ctx : option context) (options : RegistrationFinishOptions) : result RegistrationResult :=
  let ctx := default background ctx in
  let state := rfo_State options in
  let response := rfo_Response options in
  _ ← validateFinishDependencies options;
  _ ← validateRegistrationState state (rfo_now options);
  _ ← wrap_err ErrInvalidConfiguration
        (validateFinishExtensionBindings (rs_RequestedExtensions state) (rs_ExtensionBindings state)
           (rfo_ExtensionRegistry options));
  _ ← validateRegistrationResponseShape response;
  _ ← validateClientExtensionResults (rr_ClientExtensionResults response);
  clientDataHash ← verifyClientData (rr_ClientDataJSON response) ClientDataTypeCreate (rs_Challenge state)
                     (rs_OriginPolicy state);
  decodedAttestation ← match rfo_AttestationObjectDecoder options with
                       | Iface decode => wrap_err ErrMalformedResponse (decode (rr_AttestationObject response))
                       | _ => Err NilDereference
                       end;
  _ ← fail_if (negb (bv_Equal (do_Raw decodedAttestation) (rr_AttestationObject response))) ErrMalformedResponse;
  _ ← fail_if (negb (bv_IsNil (rr_AuthenticatorData response))
               && negb (bv_Equal (rr_AuthenticatorData response) (do_AuthenticatorData decodedAttestation)))
        ErrMalformedResponse;
  parsedAuthData ← verifyRegistrationAuthenticatorData state (do_AuthenticatorData decodedAttestation);
  attested ← of_option (ErrorWrap ErrMalformedResponse ErrAttestedCredentialDataMissing) (pad_Attested parsedAuthData);
  _ ← fail_if (negb (EqualRawID (acd_CredentialID attested) (rr_RawID response))) ErrMalformedResponse;
  '(credentialPublicKey, authenticatorExtensions) ←
    decodeCredentialPublicKeyAndExtensions (rfo_CredentialPublicKeyDecoder options) (rfo_ExtensionMapDecoder options)
      parsedAuthData attested;
  _ ← wrap_err ErrMalformedResponse (CredentialPublicKey_Validate credentialPublicKey);
  _ ← fail_if (negb (bool_decide (pk_Algorithm credentialPublicKey ∈ rs_AllowedAlgorithms state))) ErrUnsupportedAlgorithm;
  _ ← fail_if (negb (rr_PublicKeyAlgorithm response =? 0)
               && negb (rr_PublicKeyAlgorithm response =? pk_Algorithm credentialPublicKey)) ErrMalformedResponse;
  '(attestationResult, trustResult) ← verifyRegistrationAttestation ctx
    {| rai_trustPolicy := rfo_AttestationTrustPolicy options;
       rai_registry := rfo_AttestationRegistry options;
       rai_decodedAttestation := decodedAttestation;
       rai_credentialPublicKey := credentialPublicKey;
       rai_clientDataHash := clientDataHash;
       rai_aaguid := acd_AAGUID attested;
       rai_conveyance := rs_Attestation state |};
  extensionResults ← verifyRegistrationExtensions ctx state (rfo_ExtensionPolicy options) (rfo_ExtensionRegistry options)
    (rr_ClientExtensionResults response) authenticatorExtensions (rr_ClientDataJSON response);
  Ok {| rres_Credential := {|
          cr_Type := rr_Type response;
          cr_ID := acd_CredentialID attested;
          cr_PublicKey := credentialPublicKey;
          cr_UserHandle := rs_UserHandle state;
          cr_RPID := rs_RPID state;
          cr_AAGUID := acd_AAGUID attested;
          cr_SignCount := pad_SignCount parsedAuthData;
          cr_Transports := rr_Transports response;
          cr_BackupEligible := BackupEligible (Flags parsedAuthData);
          cr_BackupState := BackupState (Flags parsedAuthData);
          cr_UVInitialized := UserVerified (Flags parsedAuthData);
          cr_AuthenticatorAttachment := normalizeAuthenticatorAttachment (rr_AuthenticatorAttachment response);
          cr_AttestationType := vr_Type attestationResult |};
        rres_Attestation := attestationResult;
        rres_AttestationTrust := trustResult;
        rres_Extensions := extensionResults;
        rres_Warnings := vr_Warnings attestationResult ++ ts_Warnings trustResult |}.
End Registration.

(** ** Lemmas on the start of the ceremony *)

Section StartLemmas.
Context {Ord : MapOrder} {Custom : CustomTypes} {CE : CustomEvidence} {RT : Runtime}.

(** The parameters offered to the browser: the caller's public-key ones, in
    order, or ES256 and RS256 when the caller names none. *)
Definition requested_parameters (ps : list CredentialParameter) : list CredentialParameter :=
  match ps with
  | [] => [mkParameter CredentialTypePublicKey AlgorithmES256; mkParameter CredentialTypePublicKey AlgorithmRS256]
  | _ => filter (λ p, cp_Type p = CredentialTypePublicKey) ps
  end.

Lemma registrationCredentialParameters_requested ps out :
  registrationCredentialParameters ps = Ok out → out = requested_parameters ps.
Proof.
  unfold registrationCredentialParameters. destruct ps as [|p ps]; [by intros [= <-]|]. intros H.
  apply bind_Ok in H as (out' & [_ ->]%supportedParameters_Ok & H). by apply bind_Ok in H as ([] & _ & [= <-]).
Qed.

(** The user verification asked for: preferred unless the caller says otherwise. *)
Definition requested_user_verification (selection : option AuthenticatorSelectionCriteria) : string :=
  match sel_UserVerification <$> selection with Some "" | None => "preferred" | Some uv => uv end.

Lemma registrationUserVerification_requested selection :
  registrationUserVerification selection = requested_user_verification selection.
Proof. destruct selection as [[? ? ? uv]|]; [|done]. by destruct uv. Qed.

Lemma ceremonyChallenge_given given generator ctx challenge :
  ceremonyChallenge given generator ctx = Ok challenge → bv_len given ≠ 0 → challenge = given.
Proof. unfold ceremonyChallenge. intros H Hn. rewrite (proj2 (Z.eqb_neq _ _) Hn) in H. by injection H as ->. Qed.

(** What a started registration promises: the stored state is valid at finish,
    carries the registry's bindings, and agrees with the options the browser
    receives. *)
Record registration_started (options : RegistrationStartOptions) (r : RegistrationStartResult) : Prop := {
  started_valid : RegistrationState_Validate (rsr_State r) = Ok ();
  started_bindings : validateFinishExtensionBindings (rs_RequestedExtensions (rsr_State r))
    (rs_ExtensionBindings (rsr_State r)) (rso_ExtensionRegistry options) = Ok ();
  started_challenge : co_Challenge (rsr_Options r) = rs_Challenge (rsr_State r) ∧
    (bv_len (rso_Challenge options) ≠ 0 → rs_Challenge (rsr_State r) = rso_Challenge options);
  started_rp : co_RP (rsr_Options r) = rso_RP options ∧ rs_RPID (rsr_State r) = rp_ID (rso_RP options);
  started_user : rs_UserHandle (rsr_State r) = user_ID (rso_User options) ∧ co_User (rsr_Options r) = rso_User options;
  started_algorithms : cp_Algorithm <$> co_PubKeyCredParams (rsr_Options r) = rs_AllowedAlgorithms (rsr_State r) ∧
    co_PubKeyCredParams (rsr_Options r) = requested_parameters (rso_PubKeyCredParams options);
  started_uv : rs_RequestedUserVerification (rsr_State r) =
      requested_user_verification (rso_AuthenticatorSelection options) ∧
    co_AuthenticatorSelection (rsr_Options r) =
      (λ s, mkSelection (sel_AuthenticatorAttachment s) (sel_ResidentKey s) (sel_RequireResidentKey s)
              (rs_RequestedUserVerification (rsr_State r))) <$> rso_AuthenticatorSelection options;
  started_attestation : co_Attestation (rsr_Options r) = rs_Attestation (rsr_State r) ∧
    rs_Attestation (rsr_State r) =
      (if bool_decide (rso_Attestation options = "") then AttestationNone else rso_Attestation options);
  started_extensions : co_Extensions (rsr_Options r) = rs_RequestedExtensions (rsr_State r) ∧
    ∀ id, option_Forall2 (extension_sent OperationRegistration (rso_ExtensionRegistry options) None id)
      (rso_Extensions options !! id) (rs_RequestedExtensions (rsr_State r) !! id);
  started_policy : rs_OriginPolicy (rsr_State r) = rso_OriginPolicy options ∧
    rs_ConditionalMediation (rsr_State r) = rso_ConditionalMediation options;
  started_forwarded : co_ExcludeCredentials (rsr_Options r) = rso_ExcludeCredentials options ∧
    co_Hints (rsr_Options r) = rso_Hints options ∧ co_AttestationFormats (rsr_Options r) = rso_AttestationFormats options;
  started_expiry : rso_now options < rs_ExpiresAt (rsr_State r) ∧ 1 <= co_TimeoutMilliseconds (rsr_Options r) < 2 ^ 32;
  started_options : CreationOptions_Validate (rsr_Options r) = Ok ();
}.

Lemma OriginPolicy_clone_id p : OriginPolicy_clone p = p.
Proof. by destruct p. Qed.

Lemma StartRegistration_Ok ctx options r :
  registry_wf (rso_ExtensionRegistry options) → 0 <= rso_now options →
  StartRegistration ctx options = Ok r → registration_started options r.
Proof.
  intros Hwf Hnow H. unfold StartRegistration in H. apply bind_Ok in H as ([] & Hrp%wrap_err_Ok & H).
  apply bind_Ok in H as ([] & Huser%wrap_err_Ok & H). apply bind_Ok in H as ([] & Horigin%wrap_err_Ok & H).
  apply bind_Ok in H as ([] & Hrpid%wrap_err_Ok & H). apply bind_Ok in H as ([] & _ & H).
  apply bind_Ok in H as (params & Hparams%wrap_err_Ok & H).
  destruct (registrationCredentialParameters_public _ _ Hparams) as [Hps Hpub].
  apply bind_Ok in H as (challenge & Hch & H).
  apply bind_Ok in H as ([] & Huv%wrap_err_Ok & H).
  apply bind_Ok in H as ([prepared bindings] & Hp%wrap_err_Ok & H).
  pose proof (prepareExtensionInputs_Ok _ _ _ _ _ _ _ Hp) as Hprep.
  apply bind_Ok in H as ([] & _ & H).
  apply bind_Ok in H as (optE & Hopt%wrap_err_Ok & H).
  apply bind_Ok in H as (stE & Hcl%wrap_err_Ok & H). rewrite Hcl in Hopt. injection Hopt as <-.
  pose proof (cloneExtensionInputs_dom _ _ Hcl) as Hst.
  apply bind_Ok in H as ([] & Hatt%fail_if_Ok%negb_false_iff & H).
  apply bind_Ok in H as ([ms expires] & (Hms & _ & Hexp & _)%wrap_err_Ok%timeoutState_Ok & H).
  apply bind_Ok in H as ([] & Hco%wrap_err_Ok & H). apply Ok_inj in H. subst r.
  assert (dom prepared = dom (rso_Extensions options)) as Hd by apply Hprep.
  destruct (prepared_state_valid _ _ _ _ _ stE Hwf Hprep) as [Hids Hbind]; [by rewrite Hst|].
  constructor; cbn [rsr_State rsr_Options rs_RequestedExtensions rs_ExtensionBindings rs_Challenge co_Challenge
    co_RP rs_RPID rs_UserHandle co_User co_PubKeyCredParams rs_AllowedAlgorithms co_Extensions rs_ExpiresAt
    co_TimeoutMilliseconds co_AuthenticatorSelection rs_RequestedUserVerification co_Attestation rs_Attestation
    rs_OriginPolicy rs_ConditionalMediation co_ExcludeCredentials co_Hints co_AttestationFormats]; try done.
  - unfold RPEntity_Validate in Hrp. apply bind_Ok in Hrp as ([] & Hid%fail_if_Ok & _).
    unfold UserEntity_Validate in Huser. apply bind_Ok in Huser as ([] & Hu%fail_if_Ok & _).
    assert (bv_len challenge =? 0 = false) as Hc.
    { unfold CreationOptions_Validate in Hco. apply bind_Ok in Hco as ([] & _ & Hco).
      apply bind_Ok in Hco as ([] & _ & Hco). apply bind_Ok in Hco as ([] & _ & Hco).
      by apply bind_Ok in Hco as ([] & Hc%fail_if_Ok & _). }
    unfold RegistrationState_Validate. cbn [rs_RequestedExtensions rs_ExtensionBindings rs_Challenge rs_OriginPolicy
      rs_RPID rs_UserHandle rs_AllowedAlgorithms rs_ExpiresAt rs_Attestation rs_RequestedUserVerification].
    rewrite Hc, Hid, OriginPolicy_clone_id, Horigin, Hrpid, Hu, Hatt, Huv, Hids, Hbind. run.
    unfold IsZero. rewrite (proj2 (Z.eqb_neq expires 0)) by lia.
    rewrite bool_decide_eq_false_2 by (unfold algorithmsFromParameters; by intros ?%fmap_nil_inv).
    run.
    assert (for_each (λ a, wrap_err ErrInvalidCeremonyState (COSEAlgorithmIdentifier_Validate a))
      (algorithmsFromParameters params) = Ok ()) as Halg; [|by rewrite Halg].
    apply for_each_Ok, Forall_fmap. eapply Forall_impl; [exact Hpub|]. intros p [_ Halgp].
    by apply wrap_err_Ok, COSEAlgorithmIdentifier_Validate_Ok.
  - eapply finish_bindings_prepared; [exact Hwf|exact Hprep|by rewrite Hst|done].
  - split; [done|]. by eapply ceremonyChallenge_given.
  - split; [done|]. by apply registrationCredentialParameters_requested.
  - split; [apply registrationUserVerification_requested|]. rewrite AuthenticatorSelectionCriteria_Clone_id.
    destruct (rso_AuthenticatorSelection options) as [[? ? ? uv]|]; [|done]. unfold registrationUserVerification. cbn. by destruct (bool_decide (uv = "")).
  - split; [done|]. exact (prepared_inputs_sent _ _ _ _ _ _ _ _ Hp Hcl).
  - by rewrite OriginPolicy_clone_id.
  - by rewrite cloneCredentialDescriptors_id.
  - lia.
Qed.
End StartLemmas.

(** ** What a finished registration establishes *)

Section FinishLemmas.
Context {Ord : MapOrder} {Custom : CustomTypes} {CE : CustomEvidence} {RT : Runtime}.

(** The authenticator data of a registration, field by field. *)
Definition registration_authdata (state : RegistrationState) (raw : AuthenticatorData) (parsed : ParsedAuthenticatorData) : Prop :=
  ParseAuthenticatorData raw = Ok parsed ∧
  RPIDHash parsed = Sum256 (bytes_of_string (rs_RPID state)) ∧
  (rs_ConditionalMediation state = true ∨ UserPresent (Flags parsed) = true) ∧
  (rs_RequestedUserVerification state = UserVerificationRequired → UserVerified (Flags parsed) = true) ∧
  (BackupState (Flags parsed) = true → BackupEligible (Flags parsed) = true) ∧
  HasAttestedCredentialData (Flags parsed) = true.

Lemma verifyRegistrationAuthenticatorData_Ok state raw parsed :
  verifyRegistrationAuthenticatorData state raw = Ok parsed ↔ registration_authdata state raw parsed.
Proof.
  unfold verifyRegistrationAuthenticatorData, registration_authdata. split.
  - intros H. apply bind_Ok in H as (p & Hp%wrap_err_Ok & H).
    apply bind_Ok in H as ([] & H1%fail_if_Ok%negb_false_iff%bool_decide_eq_true & H).
    apply bind_Ok in H as ([] & H2%fail_if_Ok & H). apply bind_Ok in H as ([] & H3%fail_if_Ok & H).
    apply bind_Ok in H as ([] & H4%fail_if_Ok & H). apply bind_Ok in H as ([] & H5%fail_if_Ok%negb_false_iff & H).
    apply Ok_inj in H. subst p. split_and!; try done.
    + destruct (rs_ConditionalMediation state); [by left|]. right. by apply negb_false_iff in H2.
    + intros Hr. rewrite bool_decide_eq_true_2 in H3 by done. by apply negb_false_iff in H3.
    + intros Hb. rewrite Hb in H4. by apply negb_false_iff in H4.
  - intros (Hp & H1 & H2 & H3 & H4 & H5). rewrite Hp. run.
    rewrite (bool_decide_eq_true_2 (RPIDHash parsed = _)), H5 by done. run.
    assert (negb (rs_ConditionalMediation state) && negb (UserPresent (Flags parsed)) = false) as ->
      by (destruct H2 as [-> | ->]; [done|by rewrite andb_false_r]).
    assert (bool_decide (rs_RequestedUserVerification state = UserVerificationRequired) && negb (UserVerified (Flags parsed)) = false) as ->
      by (case_bool_decide; [by rewrite H3|done]).
    assert (BackupState (Flags parsed) && negb (BackupEligible (Flags parsed)) = false) as ->
      by (destruct (BackupState _); [by rewrite H4|done]).
    done.
Qed.

(** The credential public key is decoded from a prefix of the attested data, and
    what follows it is the extension map, present exactly when announced. *)
Definition credential_key_decoded (options : RegistrationFinishOptions) (parsed : ParsedAuthenticatorData)
    (attested : AttestedCredentialData) (key : CredentialPublicKey) (extensions : ExtensionMap) : Prop :=
  ∃ decodeKey rest,
    rfo_CredentialPublicKeyDecoder options = Iface decodeKey ∧
    decodeKey (CredentialPublicKeyAndExtensions attested) = Ok key ∧
    CredentialPublicKey_Validate key = Ok () ∧
    CredentialPublicKeyAndExtensions attested = pk_raw key ++ rest ∧
    if HasExtensionData (Flags parsed) then
      rest ≠ [] ∧ ∃ decodeExtensions, rfo_ExtensionMapDecoder options = Iface decodeExtensions ∧
                                      decodeExtensions rest = Ok extensions
    else rest = [] ∧ extensions = ∅.

Lemma raw_key_prefix key data :
  bool_decide (Raw key = []) || (Z.of_nat (length data) <? Z.of_nat (length (Raw key)))
    || negb (bool_decide (Raw key = take (length (Raw key)) data)) = false ↔
  pk_raw key ≠ [] ∧ data = pk_raw key ++ drop (length (pk_raw key)) data.
Proof.
  unfold Raw. rewrite !orb_false_iff, bool_decide_eq_false, Z.ltb_ge, negb_false_iff, bool_decide_eq_true. split.
  - intros [[? _] Heq]. split; [done|]. rewrite Heq at 1. by rewrite take_drop.
  - intros [? Heq]. apply (f_equal length) in Heq as Hlen. rewrite length_app, length_drop in Hlen.
    split; [split; [done|lia]|]. by rewrite Heq, take_app_length.
Qed.

Lemma decodeCredentialPublicKeyAndExtensions_Ok options parsed attested key extensions :
  decodeCredentialPublicKeyAndExtensions (rfo_CredentialPublicKeyDecoder options) (rfo_ExtensionMapDecoder options)
    parsed attested = Ok (key, extensions) ↔ credential_key_decoded options parsed attested key extensions.
Proof.
  unfold decodeCredentialPublicKeyAndExtensions, credential_key_decoded.
  set (data := CredentialPublicKeyAndExtensions attested). split.
  - destruct (rfo_CredentialPublicKeyDecoder options) as [| |decodeKey]; try done. intros H.
    apply bind_Ok in H as (k & Hk%wrap_err_Ok & H). apply bind_Ok in H as ([] & Hv%wrap_err_Ok & H).
    apply bind_Ok in H as ([] & [Hne Hpre]%fail_if_Ok%raw_key_prefix & H). unfold Raw in H.
    destruct (HasExtensionData (Flags parsed)); cbn [negb] in H.
    + apply bind_Ok in H as ([] & Hx%fail_if_Ok%bool_decide_eq_false & H).
      destruct (rfo_ExtensionMapDecoder options) as [| |decodeExtensions]; try done.
      apply bind_Ok in H as (e & He%wrap_err_Ok & [= <- <-]).
      exists decodeKey, (drop (length (pk_raw k)) data). split_and!; try done. by exists decodeExtensions.
    + apply bind_Ok in H as ([] & Hx%fail_if_Ok%negb_false_iff%bool_decide_eq_true & [= <- <-]).
      exists decodeKey, (drop (length (pk_raw k)) data). split_and!; done.
  - intros (decodeKey & rest & -> & Hk & Hv & Hdata & Hext). rewrite Hk. run.
    rewrite Hv. run.
    rewrite (proj2 (raw_key_prefix key data)).
    2: { split; [by apply CredentialPublicKey_Validate_Ok in Hv as (_ & _ & ? & _)|].
         rewrite Hdata. by rewrite drop_app_length. }
    unfold Raw. rewrite Hdata, drop_app_length. run.
    destruct (HasExtensionData (Flags parsed)); run.
    + destruct Hext as (Hne & decodeExtensions & -> & He). rewrite bool_decide_eq_false_2 by done.
      run. by rewrite He.
    + destruct Hext as [-> ->]. done.
Qed.

(** The attestation statement was verified by the verifier registered for its
    format, over the authenticator data and the client data hash, and the trust
    policy of the relying party accepted the evidence. *)
Definition attestation_accepted (ctx : context) (inputs : registrationAttestationInputs)
    (res : VerificationResult) (trust : TrustResult) : Prop :=
  let decoded := rai_decodedAttestation inputs in
  ∃ verifier evaluateTrust v t,
    protocolidentifier_Valid (do_Format decoded) = true ∧
    Lookup (rai_registry inputs) (do_Format decoded) = Some verifier ∧
    v_VerifyAttestation verifier ctx (mkVerificationRequest (do_Format decoded) (rai_conveyance inputs)
      (do_AuthenticatorData decoded) (rai_clientDataHash inputs) (do_Statement decoded)
      (rai_credentialPublicKey inputs) (do_Raw decoded)) = Ok v ∧
    vr_CryptographicallyValid v = true ∧ Type_Known (vr_Type v) = true ∧
    TrustPathKind_Known (tp_Kind (vr_TrustPath v)) = true ∧
    rai_trustPolicy inputs = Iface evaluateTrust ∧
    evaluateTrust ctx (mkTrustRequest (do_Format decoded) (VerificationResult_Clone (VerificationResult_Clone v))
      (rai_aaguid inputs) (do_AuthenticatorData decoded) (rai_credentialPublicKey inputs) (do_Raw decoded)) = Ok t ∧
    ts_Accepted t = true ∧ res = VerificationResult_Clone (VerificationResult_Clone v) ∧ trust = TrustResult_Clone t.

Lemma attestation_flags v :
  negb (vr_CryptographicallyValid v) || negb (Type_Known (vr_Type v))
    || negb (TrustPathKind_Known (tp_Kind (vr_TrustPath v))) = false ↔
  vr_CryptographicallyValid v = true ∧ Type_Known (vr_Type v) = true ∧
  TrustPathKind_Known (tp_Kind (vr_TrustPath v)) = true.
Proof. rewrite !orb_false_iff, !negb_false_iff. tauto. Qed.

Lemma verifyRegistrationAttestation_Ok ctx inputs res trust :
  verifyRegistrationAttestation ctx inputs = Ok (res, trust) ↔ attestation_accepted ctx inputs res trust.
Proof.
  unfold verifyRegistrationAttestation, attestation_accepted. split.
  - intros H. apply bind_Ok in H as ([] & Hf%fail_if_Ok%negb_false_iff & H).
    apply bind_Ok in H as (verifier & Hl%of_option_Ok & H). apply bind_Ok in H as (v & Hv%wrap_err_Ok & H).
    apply bind_Ok in H as ([] & (H1 & H2 & H3)%fail_if_Ok%attestation_flags & H).
    destruct (rai_trustPolicy inputs) as [| |evaluateTrust]; try done.
    apply bind_Ok in H as (t & Ht%wrap_err_Ok & H). apply bind_Ok in H as ([] & Ha%fail_if_Ok%negb_false_iff & H).
    apply Ok_inj in H. injection H as <- <-. exists verifier, evaluateTrust, v, t. done.
  - intros (verifier & evaluateTrust & v & t & Hf & Hl & Hv & H1 & H2 & H3 & -> & Ht & Ha & -> & ->).
    rewrite Hf, Hl. run. rewrite Hv. run.
    rewrite (proj2 (attestation_flags v)) by done. run.
    rewrite Ht. run. by rewrite Ha.
Qed.

Lemma VerificationResult_Clone_Type v : vr_Type (VerificationResult_Clone v) = vr_Type v.
Proof. by destruct v. Qed.

(** State that has not expired and is valid. *)
Lemma validateRegistrationState_Ok state now u :
  validateRegistrationState state now = Ok u ↔ now < rs_ExpiresAt state ∧ RegistrationState_Validate state = Ok ().
Proof.
  destruct u. unfold validateRegistrationState. rewrite bind_Ok. split.
  - intros ([] & He%fail_if_Ok & Hv). split; [|done].
    assert (IsZero (rs_ExpiresAt state) = false) as Hz.
    { unfold RegistrationState_Validate in Hv. do 4 apply bind_Ok in Hv as ([] & _ & Hv).
      by apply bind_Ok in Hv as ([] & Hz%fail_if_Ok & _). }
    rewrite Hz in He. by apply negb_false_iff, Z.ltb_lt in He.
  - intros [Hlt Hv]. exists (). split; [|done]. rewrite (proj2 (Z.ltb_lt _ _) Hlt). by rewrite andb_false_r.
Qed.

(** The checks made before any byte of the response is interpreted. *)
Definition registration_admitted (options : RegistrationFinishOptions) : Prop :=
  let state := rfo_State options in let response := rfo_Response options in
  is_Some (rfo_AttestationRegistry options) ∧
  rfo_now options < rs_ExpiresAt state ∧ RegistrationState_Validate state = Ok () ∧
  validateFinishExtensionBindings (rs_RequestedExtensions state) (rs_ExtensionBindings state)
    (rfo_ExtensionRegistry options) = Ok () ∧
  rr_Type response = CredentialTypePublicKey ∧
  bv_value (rr_RawID response) ≠ None ∧ bv_value (rr_ClientDataJSON response) ≠ None ∧
  bv_value (rr_AttestationObject response) ≠ None ∧
  validateClientExtensionResults (rr_ClientExtensionResults response) = Ok ().

Lemma validateRegistrationResponseShape_Ok response u :
  validateRegistrationResponseShape response = Ok u ↔
  rr_Type response = CredentialTypePublicKey ∧
  bv_value (rr_RawID response) ≠ None ∧ bv_value (rr_ClientDataJSON response) ≠ None ∧
  bv_value (rr_AttestationObject response) ≠ None.
Proof.
  destruct u. unfold validateRegistrationResponseShape, bv_IsNil. rewrite bind_Ok. split.
  - intros ([] & Ht%wrap_err_Ok%PublicKeyCredentialType_Validate_Ok & H%fail_if_Ok).
    guards in H. tauto.
  - intros (Ht & H1 & H2 & H3). exists (). rewrite wrap_err_Ok, PublicKeyCredentialType_Validate_Ok, fail_if_Ok.
    guards. tauto.
Qed.

(** The credential the ceremony hands to storage. *)
Definition registered_credential (options : RegistrationFinishOptions) (parsed : ParsedAuthenticatorData)
    (attested : AttestedCredentialData) (key : CredentialPublicKey) (attestationType : string) : CredentialRecord :=
  {| cr_Type := rr_Type (rfo_Response options); cr_ID := acd_CredentialID attested; cr_PublicKey := key;
     cr_UserHandle := rs_UserHandle (rfo_State options); cr_RPID := rs_RPID (rfo_State options);
     cr_AAGUID := acd_AAGUID attested; cr_SignCount := pad_SignCount parsed;
     cr_Transports := rr_Transports (rfo_Response options); cr_BackupEligible := BackupEligible (Flags parsed);
     cr_BackupState := BackupState (Flags parsed); cr_UVInitialized := UserVerified (Flags parsed);
     cr_AuthenticatorAttachment := normalizeAuthenticatorAttachment (rr_AuthenticatorAttachment (rfo_Response options));
     cr_AttestationType := attestationType |}.

(** The registration ceremony, as a specification: everything that was checked
    about the response, in terms of the decoded data it was checked on. *)
Definition registration_verified (ctx : context) (options : RegistrationFinishOptions) (r : RegistrationResult) : Prop :=
  let state := rfo_State options in let response := rfo_Response options in
  registration_admitted options ∧
  client_data_verified (rr_ClientDataJSON response) ClientDataTypeCreate (rs_Challenge state) (rs_OriginPolicy state) ∧
  ∃ decode decoded parsed attested key extensions attestationResult trust,
    rfo_AttestationObjectDecoder options = Iface decode ∧ decode (rr_AttestationObject response) = Ok decoded ∧
    slice_list (bv_value (do_Raw decoded)) = slice_list (bv_value (rr_AttestationObject response)) ∧
    (bv_value (rr_AuthenticatorData response) = None ∨
     slice_list (bv_value (rr_AuthenticatorData response)) = slice_list (bv_value (do_AuthenticatorData decoded))) ∧
    registration_authdata state (do_AuthenticatorData decoded) parsed ∧
    pad_Attested parsed = Some attested ∧
    slice_list (bv_value (acd_CredentialID attested)) = slice_list (bv_value (rr_RawID response)) ∧
    credential_key_decoded options parsed attested key extensions ∧
    pk_Algorithm key ∈ rs_AllowedAlgorithms state ∧
    (rr_PublicKeyAlgorithm response = 0 ∨ rr_PublicKeyAlgorithm response = pk_Algorithm key) ∧
    attestation_accepted ctx {|
      rai_trustPolicy := rfo_AttestationTrustPolicy options; rai_registry := rfo_AttestationRegistry options;
      rai_decodedAttestation := decoded; rai_credentialPublicKey := key;
      rai_clientDataHash := Sum256 (slice_list (bv_value (rr_ClientDataJSON response)));
      rai_aaguid := acd_AAGUID attested; rai_conveyance := rs_Attestation state |} attestationResult trust ∧
    verifyRegistrationExtensions ctx state (rfo_ExtensionPolicy options) (rfo_ExtensionRegistry options)
      (rr_ClientExtensionResults response) extensions (rr_ClientDataJSON response) = Ok (rres_Extensions r) ∧
    rres_Credential r = registered_credential options parsed attested key (vr_Type attestationResult) ∧
    rres_Attestation r = attestationResult ∧ rres_AttestationTrust r = trust ∧
    rres_Warnings r = vr_Warnings attestationResult ++ ts_Warnings trust.

Lemma FinishRegistration_sound ctx options r :
  FinishRegistration ctx options = Ok r → registration_verified (default background ctx) options r.
Proof.
  intros H. unfold FinishRegistration in H. apply bind_Ok in H as ([] & Hdep & H).
  unfold validateFinishDependencies in Hdep. apply bind_Ok in Hdep as ([] & _ & Hdep).
  apply bind_Ok in Hdep as ([] & _ & Hreg%fail_if_Ok%negb_false_iff%is_some_spec).
  apply bind_Ok in H as ([] & [Hexp Hval]%validateRegistrationState_Ok & H).
  apply bind_Ok in H as ([] & Hbind%wrap_err_Ok & H).
  apply bind_Ok in H as ([] & Hshape%validateRegistrationResponseShape_Ok & H). apply bind_Ok in H as ([] & Hcer & H).
  apply bind_Ok in H as (hash & [Hcd ->]%verifyClientData_Ok & H). apply bind_Ok in H as (decoded & Hdec & H).
  destruct (rfo_AttestationObjectDecoder options) as [| |decode] eqn:Ed; try done. apply wrap_err_Ok in Hdec.
  apply bind_Ok in H as ([] & Hraw%fail_if_Ok%negb_false_iff%bv_Equal_spec & H).
  apply bind_Ok in H as ([] & Had%fail_if_Ok & H).
  apply bind_Ok in H as (parsed & Hparsed%verifyRegistrationAuthenticatorData_Ok & H).
  apply bind_Ok in H as (attested & Hatt%of_option_Ok & H).
  apply bind_Ok in H as ([] & Hid%fail_if_Ok%negb_false_iff%bv_equalBytes_spec & H).
  apply bind_Ok in H as ([key extensions] & Hkey%decodeCredentialPublicKeyAndExtensions_Ok & H).
  apply bind_Ok in H as ([] & _ & H).
  apply bind_Ok in H as ([] & Halg%fail_if_Ok%negb_false_iff%bool_decide_eq_true & H).
  apply bind_Ok in H as ([] & Hpka%fail_if_Ok & H).
  apply bind_Ok in H as ([attestationResult trust] & Hacc%verifyRegistrationAttestation_Ok & H).
  apply bind_Ok in H as (ext & Hext & H). apply Ok_inj in H. subst r.
  split; [by split_and!; try apply Hshape|]. split; [done|].
  exists decode, decoded, parsed, attested, key, extensions, attestationResult, trust. split_and!; try done.
  - unfold bv_IsNil in Had. apply andb_false_iff in Had as [Hn|He].
    + left. by apply negb_false_iff, bool_decide_eq_true in Hn.
    + right. by apply negb_false_iff, bv_Equal_spec in He.
  - apply andb_false_iff in Hpka as [Hz|He].
    + left. by apply negb_false_iff, Z.eqb_eq in Hz.
    + right. by apply negb_false_iff, Z.eqb_eq in He.
Qed.

Lemma FinishRegistration_complete ctx options r :
  registration_verified (default background ctx) options r → FinishRegistration ctx options = Ok r.
Proof.
  intros ((Hreg & Hexp & Hval & Hbind & Hshape1 & Hshape2 & Hshape3 & Hshape4 & Hcer) & Hcd &
    decode & decoded & parsed & attested & key & extensions & vres & trust & Ed & Hdec & Hraw & Had & Hparsed & Hatt &
    Hid & Hkey & Halg & Hpka & Hacc & Hext & Hcred & Ha & Ht & Hw).
  unfold FinishRegistration, validateFinishDependencies. rewrite Ed. cbn [IsNil fail_if mbind result_bind].
  assert (∃ dk, rfo_CredentialPublicKeyDecoder options = Iface dk ∧ CredentialPublicKey_Validate key = Ok ()) as (dk & Hdk & Hkv)
    by (destruct Hkey as (dk & rest & Hdk & _ & Hkv & _); by exists dk).
  rewrite Hdk. cbn [IsNil fail_if mbind result_bind]. rewrite (proj2 (is_some_spec _) Hreg).
  run.
  rewrite (proj2 (validateRegistrationState_Ok _ _ ()) (conj Hexp Hval)). run.
  rewrite Hbind. run.
  rewrite (proj2 (validateRegistrationResponseShape_Ok _ ())) by done. run.
  rewrite Hcer. run.
  rewrite (proj2 (verifyClientData_Ok _ _ _ _ _) (conj Hcd eq_refl)). run.
  rewrite Hdec. run. rewrite (proj2 (bv_Equal_spec _ _) Hraw).
  run.
  assert (negb (bv_IsNil (rr_AuthenticatorData (rfo_Response options)))
    && negb (bv_Equal (rr_AuthenticatorData (rfo_Response options)) (do_AuthenticatorData decoded)) = false) as ->.
  { apply andb_false_iff. unfold bv_IsNil. destruct Had as [Hn|He]; [left|right].
    - by rewrite bool_decide_eq_true_2.
    - by rewrite (proj2 (bv_Equal_spec _ _) He). }
  run. rewrite (proj2 (verifyRegistrationAuthenticatorData_Ok _ _ _) Hparsed).
  run. rewrite Hatt. run.
  unfold EqualRawID. rewrite (proj2 (bv_equalBytes_spec _ _) Hid). run.
  rewrite <-Hdk. rewrite (proj2 (decodeCredentialPublicKeyAndExtensions_Ok _ _ _ _ _) Hkey). run.
  rewrite Hkv. run. rewrite bool_decide_eq_true_2 by done.
  run.
  assert (negb (rr_PublicKeyAlgorithm (rfo_Response options) =? 0)
    && negb (rr_PublicKeyAlgorithm (rfo_Response options) =? pk_Algorithm key) = false) as ->.
  { apply andb_false_iff. destruct Hpka as [-> | ->]; [by left|right]. by rewrite Z.eqb_refl. }
  run. rewrite (proj2 (verifyRegistrationAttestation_Ok _ _ _ _) Hacc).
  run. rewrite Hext. run. destruct r. cbn in *. by subst.
Qed.

(** The record a registration returns is valid and keeps the counter at its
    width. *)
Lemma registration_verified_record ctx options r : registration_verified ctx options r →
  record_valid (rres_Credential r) ∧ 0 <= cr_SignCount (rres_Credential r) < 2 ^ 32.
Proof.
  intros ((_ & _ & Hval & _ & Hty & _) & _ & decode & decoded & parsed & attested & key & ext & vres & trust & _ & _ & _ & _ &
    (Hparse & _ & _ & _ & Hback & _) & Hatt & _ & Hkey & _ & _ & Hacc & _ & -> & _).
  apply parse_authdata_sound in Hparse as ((_ & Hsc & _ & Hwf) & _). rewrite Hatt in Hwf. destruct Hwf as (_ & Hwfa & _).
  unfold RegistrationState_Validate in Hval. apply bind_Ok in Hval as ([] & Hrp%fail_if_Ok & Hval).
  apply orb_false_iff in Hrp as [_ Hrp%bool_decide_eq_false]. do 2 apply bind_Ok in Hval as ([] & _ & Hval).
  apply bind_Ok in Hval as ([] & Hu%fail_if_Ok%Z.eqb_neq & _). rewrite bv_len_0 in Hu.
  destruct Hkey as (dk & rest & _ & _ & Hkv & _). destruct Hwfa as (_ & _ & Hlen & _).
  destruct Hacc as (vf & ev & v & t & _ & _ & _ & _ & Hkn & _ & _ & _ & _ & -> & _).
  split; [|done]. unfold record_valid, registered_credential. cbn. split_and!; try done.
  - rewrite <-bv_len_0. lia.
  - unfold normalizeAuthenticatorAttachment. by destruct (AuthenticatorAttachment_Known _) eqn:E.
  - by rewrite !VerificationResult_Clone_Type.
Qed.
End FinishLemmas.

(** ** A sample ceremony *)

#[local] Existing Instance no_custom_types.
#[local] Existing Instance default_order.
#[local] Existing Instance plain_evidence.

(** A run-time whose clock stands at 1 and whose random source gives zeros. *)
#[local] Instance sample_runtime : Runtime := {| rand_Reader := λ n, Ok (replicate (Z.to_nat n) x00); time_Now := 1 |}.

Definition sample_user : UserEntity := mkUserEntity (mkByteValue (Some [x07])) "user" "User".

Definition sample_start : RegistrationStartOptions := {|
  rso_RP := mkRPEntity "example.com" "Example"; rso_User := sample_user; rso_OriginPolicy := example_policy;
  rso_ConditionalMediation := false; rso_Challenge := zeroByteValue; rso_ChallengeGenerator := NilIface;
  rso_PubKeyCredParams := []; rso_Timeout := 0; rso_StateTTL := 0; rso_ExcludeCredentials := [];
  rso_AuthenticatorSelection := None; rso_Hints := []; rso_Attestation := ""; rso_AttestationFormats := [];
  rso_Extensions := sample_inputs; rso_ExtensionRegistry := sample_registry;
  rso_ExtensionInputPolicy := mkInputPolicy true; rso_Now := None |}.

Definition sample_state : RegistrationState := {|
  rs_Challenge := mkByteValue (Some (replicate 32 x00)); rs_RPID := "example.com"; rs_OriginPolicy := example_policy;
  rs_ConditionalMediation := false; rs_UserHandle := user_ID sample_user;
  rs_RequestedUserVerification := UserVerificationPreferred; rs_RequestedExtensions := sample_inputs;
  rs_ExtensionBindings := [sample_binding]; rs_AllowedAlgorithms := [AlgorithmES256; AlgorithmRS256];
  rs_Attestation := AttestationNone; rs_ExpiresAt := 600000000001 |}.

Lemma sample_start_Ok : ∃ r, StartRegistration None sample_start = Ok r ∧ rsr_State r = sample_state.
Proof. eexists. split; [vm_compute; reflexivity|]. vm_compute. reflexivity. Qed.

Definition sample_key : CredentialPublicKey := NewCredentialPublicKey AlgorithmES256 [xa1; x01] (mkMaterial None None None).
Definition sample_attested : AttestedCredentialData :=
  mkAttested (replicate 16 x00) (mkByteValue (Some [x0a; x0b])) [xa1; x01].
Definition sample_object : AttestationObject := mkByteValue (Some [xa3]).

(** The rest of the sample depends on the RP ID hash [h]. *)
Section Sample.
Context (h : list byte) (Hh : h = Sum256 (bytes_of_string (rs_RPID sample_state))).

Definition sample_authdata : AuthenticatorData :=
  mkByteValue (Some (encodeAuthData h x45 1 (Some sample_attested) None)).
Definition sample_decoded : DecodedAttestationObject := mkDecoded "none" sample_authdata ∅ sample_object.

Definition sample_response : RegistrationResponse := {|
  rr_Type := CredentialTypePublicKey; rr_RawID := mkByteValue (Some [x0a; x0b]);
  rr_ClientDataJSON := mkByteValue (Some (object_text
    (ceremony_members ClientDataTypeCreate "https://example.com" (replicate 32 x00) false)));
  rr_AuthenticatorData := zeroByteValue; rr_AttestationObject := sample_object; rr_PublicKeyAlgorithm := 0;
  rr_Transports := ["internal"]; rr_AuthenticatorAttachment := "platform"; rr_ClientExtensionResults := ∅ |}.

Definition sample_finish : RegistrationFinishOptions := {|
  rfo_State := sample_state; rfo_Response := sample_response;
  rfo_AttestationObjectDecoder := Iface (λ _, Ok sample_decoded);
  rfo_CredentialPublicKeyDecoder := Iface (λ _, Ok sample_key); rfo_ExtensionMapDecoder := NilIface;
  rfo_AttestationRegistry := Some {[ "none" := Attestation.None.New ]}; rfo_AttestationTrustPolicy := AcceptNone;
  rfo_ExtensionRegistry := sample_registry; rfo_ExtensionPolicy := mkRegistrationPolicy true true; rfo_Now := Some 2 |}.

Definition sample_parsed : ParsedAuthenticatorData := mkParsed sample_authdata h x45 1 (Some sample_attested) None.

Definition sample_result : RegistrationResult := {|
  rres_Credential := registered_credential sample_finish sample_parsed sample_attested sample_key TypeNone;
  rres_Attestation := mkVR TypeNone (mkTrustPath TrustPathNone [] None None) true [] EvNil;
  rres_AttestationTrust := accepted "none attestation accepted by policy";
  rres_Extensions := [mkResult IDCredProps false false [] (OTyped (VCredProps (mkCredProps None))) false RevisionLevel3Recommendation];
  rres_Warnings := [] |}.

Lemma sample_authdata_parsed : registration_authdata sample_state sample_authdata sample_parsed.
Proof.
  split.
  - apply parse_authdata_complete; [|reflexivity|reflexivity].
    split; [cbn [RPIDHash sample_parsed]; rewrite Hh; apply length_Sum256|].
    split; [vm_compute; split; congruence|]. split; [reflexivity|].
    split; [reflexivity|]. split; [|reflexivity]. split; [reflexivity|]. split; [discriminate|].
    split; [vm_compute; split; congruence|discriminate].
  - split; [exact Hh|]. split; [right; reflexivity|]. split; [discriminate|]. split; [discriminate|reflexivity].
Qed.

Lemma sample_client_data :
  client_data_verified (rr_ClientDataJSON sample_response) ClientDataTypeCreate (rs_Challenge sample_state) example_policy.
Proof.
  eexists. split; [vm_compute; reflexivity|]. split_and!; try reflexivity; [|done].
  cbn [cd_Origin]. by left.
Qed.

Lemma sample_finish_Ok : FinishRegistration None sample_finish = Ok sample_result.
Proof.
  apply FinishRegistration_complete. split; [|split; [exact sample_client_data|]].
  - split; [by eexists|]. split; [reflexivity|]. split; [vm_compute; reflexivity|]. split; [vm_compute; reflexivity|].
    split; [reflexivity|]. split; [discriminate|]. split; [discriminate|]. split; [discriminate|reflexivity].
  - exists (λ _, Ok sample_decoded), sample_decoded, sample_parsed, sample_attested, sample_key, ∅. do 2 eexists.
    split; [reflexivity|]. split; [reflexivity|]. split; [reflexivity|]. split; [by left|].
    split; [exact sample_authdata_parsed|]. split; [reflexivity|]. split; [reflexivity|]. split.
    + do 2 eexists. split; [reflexivity|]. split; [reflexivity|]. split; [reflexivity|].
      split; [symmetry; apply app_nil_r|]. split; reflexivity.
    + split; [by left|]. split; [by left|]. split; [do 4 eexists; split_and!; try reflexivity|].
      split; [vm_compute; reflexivity|]. split_and!; reflexivity.
Qed.
End Sample.

(** ** Properties *)

(** C2: registration finishes successfully exactly when the response meets the
    specification of the ceremony ([registration_verified]): the stored state is
    valid and not expired, the client data is for this challenge, ceremony type
    and origin, the authenticator data names the relying party with the required
    user presence and verification, the credential ID and key are the attested
    ones and of an allowed algorithm, the verifier of the attestation format
    accepted the statement over this authenticator data and client data hash,
    the trust policy accepted the evidence, and the extensions verify; the
    result is built from that data and nothing else. *)
Theorem registration_refines_spec {Ord : MapOrder} {Custom : CustomTypes} {CE : CustomEvidence} {RT : Runtime}
    (ctx : option context) (options : RegistrationFinishOptions) (r : RegistrationResult) :
  FinishRegistration ctx options = Ok r ↔ registration_verified (default background ctx) options r.
Proof. split; [apply FinishRegistration_sound|apply FinishRegistration_complete]. Qed.

(** C5: the credential record a successful registration returns satisfies
    every invariant that authentication demands of stored records, and its
    counter fits in 32 bits. *)
Theorem registration_record_valid {Ord : MapOrder} {Custom : CustomTypes} {CE : CustomEvidence} {RT : Runtime}
    ctx options r (H : FinishRegistration ctx options = Ok r) :
  CredentialRecord_Validate (rres_Credential r) = Ok () ∧ 0 <= cr_SignCount (rres_Credential r) < 2 ^ 32.
Proof.
  apply FinishRegistration_sound, registration_verified_record in H as [Hv Hc]. split; [|done].
  by apply CredentialRecord_Validate_Ok.
Qed.

Lemma registration_record_valid_witness :
  let h := Sum256 (bytes_of_string (rs_RPID sample_state)) in
  CredentialRecord_Validate (rres_Credential (sample_result h)) = Ok () ∧ 0 <= cr_SignCount (rres_Credential (sample_result h)) < 2 ^ 32.
Proof. intros h. exact (registration_record_valid None (sample_finish h) (sample_result h) (sample_finish_Ok h eq_refl)). Defined.

(** C6: a started registration is ready to be finished.  Its state passes the
    validation done at finish (with the same extension registry, the binding
    check too) and expires in the future.  It carries the caller's relying party,
    user, origin policy and mediation, the caller's challenge when one is given,
    the user verification of the caller's selection criteria (preferred by
    default) and the attestation conveyance (none by default); and the options
    sent to the browser carry the same challenge, relying party, user,
    algorithms, user verification, attestation conveyance and extension inputs,
    each extension input being the caller's as normalized by its handler. *)
Theorem registration_start_ready {Ord : MapOrder} {Custom : CustomTypes} {CE : CustomEvidence} {RT : Runtime}
    ctx options r (Hwf : registry_wf (rso_ExtensionRegistry options)) (Hnow : 0 <= rso_now options)
    (H : StartRegistration ctx options = Ok r) :
  registration_started options r.
Proof. by eapply StartRegistration_Ok. Qed.

(** A registration that requires user verification and direct attestation. *)
Definition strict_start : RegistrationStartOptions := {|
  rso_RP := mkRPEntity "example.com" "Example"; rso_User := sample_user; rso_OriginPolicy := example_policy;
  rso_ConditionalMediation := false; rso_Challenge := zeroByteValue; rso_ChallengeGenerator := NilIface;
  rso_PubKeyCredParams := [mkParameter CredentialTypePublicKey AlgorithmES256]; rso_Timeout := 0; rso_StateTTL := 0;
  rso_ExcludeCredentials := []; rso_AuthenticatorSelection := Some (mkSelection "" "required" true "required");
  rso_Hints := []; rso_Attestation := "direct"; rso_AttestationFormats := [];
  rso_Extensions := sample_inputs; rso_ExtensionRegistry := sample_registry;
  rso_ExtensionInputPolicy := mkInputPolicy true; rso_Now := None |}.

Lemma registration_start_ready_witness :
  ∃ r, StartRegistration None strict_start = Ok r ∧ registration_started strict_start r ∧
    rs_RequestedUserVerification (rsr_State r) = "required" ∧ rs_Attestation (rsr_State r) = "direct".
Proof.
  eexists. split; [vm_compute; reflexivity|]. split; [|split; reflexivity].
  apply (registration_start_ready None strict_start); [exact sample_registry_wf|vm_compute; discriminate|].
  vm_compute. reflexivity.
Defined.

(** C39: once its expiry has been reached, a registration state is refused as
    expired, whatever else it or the response contains. *)
Theorem registration_expired {Ord : MapOrder} {Custom : CustomTypes} {CE : CustomEvidence} {RT : Runtime}
    ctx options (Hdeps : validateFinishDependencies options = Ok ())
    (Hz : rs_ExpiresAt (rfo_State options) ≠ 0) (Hexp : rs_ExpiresAt (rfo_State options) <= rfo_now options) :
  FinishRegistration ctx options = Err ErrCeremonyExpired.
Proof.
  unfold FinishRegistration, validateRegistrationState, IsZero. rewrite Hdeps. run.
  by rewrite (proj2 (Z.eqb_neq _ _) Hz), (proj2 (Z.ltb_ge _ _) Hexp).
Qed.

Lemma registration_expired_witness :
  let late := mkRegistrationFinish sample_state sample_response (rfo_AttestationObjectDecoder (sample_finish []))
    (rfo_CredentialPublicKeyDecoder (sample_finish [])) NilIface (rfo_AttestationRegistry (sample_finish [])) AcceptNone
    sample_registry (mkRegistrationPolicy true true) (Some 600000000001) in
  FinishRegistration None late = Err ErrCeremonyExpired.
Proof. intros late. apply (registration_expired None late); [reflexivity|discriminate|vm_compute; discriminate]. Defined.

(** No attestation is trusted by default: without a trust policy (nil or
    typed nil), or with one that never accepts, no registration succeeds. *)
Theorem attestation_trust_required {Ord : MapOrder} {Custom : CustomTypes} {CE : CustomEvidence} {RT : Runtime}
    ctx options (H : ∀ evaluateTrust, rfo_AttestationTrustPolicy options = Iface evaluateTrust →
                     ∀ c q t, evaluateTrust c q = Ok t → ts_Accepted t = false) r :
  FinishRegistration ctx options ≠ Ok r.
Proof.
  intros (_ & _ & ? & ? & ? & ? & ? & ? & ? & ? & _ & _ & _ & _ & _ & _ & _ & _ & _ & _ & Hacc & _)%FinishRegistration_sound.
  destruct Hacc as (vf & ev & v & t & _ & _ & _ & _ & _ & _ & Hpol & Ht & Ha & _). cbn in Hpol.
  by rewrite (H ev Hpol _ _ _ Ht) in Ha.
Qed.

Lemma attestation_trust_required_witness :
  FinishRegistration None (mkRegistrationFinish sample_state sample_response NilIface NilIface NilIface None TypedNil
    None (mkRegistrationPolicy false false) None) ≠ Ok (sample_result []).
Proof. apply attestation_trust_required. discriminate. Defined.

(** [io.ReadFull]: a reader that reports success has filled the buffer. *)
Definition full_reader (r : Z → result (list byte)) : Prop :=
  ∀ n bs, 0 <= n → r n = Ok bs → Z.of_nat (length bs) = n.

(** A generated challenge has the configured length (32 bytes when none is
    set), never less than 16 bytes, and is exactly what the random source
    returned for that length. *)
Theorem random_challenge_length {RT : Runtime} g ctx c (Hrand : full_reader rand_Reader)
    (Hreader : ∀ r, rg_Reader g = Iface r → full_reader r) (H : GenerateChallenge g ctx = Ok c) :
  16 <= bv_len c ∧ bv_len c = (if rg_Length g =? 0 then 32 else rg_Length g) ∧
  ∃ reader, (rg_Reader g = NilIface ∧ reader = rand_Reader ∨ rg_Reader g = Iface reader) ∧
            reader (bv_len c) = Ok (slice_list (bv_value c)).
Proof.
  unfold GenerateChallenge in H. destruct (default background ctx _ _); [done|].
  apply bind_Ok in H as ([] & Hmin%fail_if_Ok%Z.ltb_ge & H). unfold RecommendedChallengeLength, MinChallengeLength in *.
  set (n := if rg_Length g =? 0 then 32 else rg_Length g) in *.
  apply bind_Ok in H as (reader & Hr & H). apply bind_Ok in H as (raw & Hraw & (-> & _ & _)%newByteValue_Ok).
  assert (full_reader reader ∧ (rg_Reader g = NilIface ∧ reader = rand_Reader ∨ rg_Reader g = Iface reader)) as [Hfull Hsrc].
  { destruct (rg_Reader g) as [| |r] eqn:E; try done; apply Ok_inj in Hr; subst reader; auto. }
  apply Hfull in Hraw as Hlen; [|lia]. unfold bv_len, slice_len. cbn [bv_value slice_list from_option id].
  rewrite Hlen. split; [done|]. split; [done|]. exists reader. done.
Qed.

Lemma random_challenge_length_witness :
  16 <= bv_len (mkByteValue (Some (replicate 20 x00))).
Proof.
  apply (random_challenge_length (mkRandomGenerator NilIface 20) None (mkByteValue (Some (replicate 20 x00)))).
  - intros n bs Hn [= <-]. rewrite length_replicate. lia.
  - discriminate.
  - reflexivity.
Defined.
