(* ===== verification/Authentication.v ===== *)
(** * The authentication ceremony and credential updates

    Models [src/authentication.go] ([StartAuthentication],
    [FinishAuthentication] and their helpers) and [src/credential_update.go]
    ([CredentialUpdate.ApplyTo], the conditional update of the stored record). *)
From S2P Require Import Prelude GoStrings Base64 Sha2 AuthData ClientData Origin ExtValue Types Extension ExtHandlers Attestation Ceremony ExtVerify State Registration.
Set Default Goal Selector "!".
Local Open Scope Z_scope.

Definition ErrCredentialNotAllowed : error := Sentinel "webauthn.ErrCredentialNotAllowed".
Definition ErrUserHandleRequired : error := Sentinel "webauthn.ErrUserHandleRequired".
Definition ErrCredentialOwnershipMismatch : error := Sentinel "webauthn.ErrCredentialOwnershipMismatch".
Definition ErrInvalidSignature : error := Sentinel "webauthn.ErrInvalidSignature".
Definition ErrCloneRisk : error := Sentinel "webauthn.ErrCloneRisk".
Definition ErrCloneRisk_Error : string := "webauthn: signature counter clone risk".
Definition ErrCredentialUpdateConflict : error := Sentinel "webauthn.ErrCredentialUpdateConflict".
Definition ErrInvalidCredentialUpdate : error := Sentinel "webauthn.ErrInvalidCredentialUpdate".

(** ** Adapters ([src/crypto/crypto.go]) *)

Definition AlgorithmPolicy : Type := iface (Z → bool).

(** ** Start *)

Record AuthenticationStartOptions := mkAuthenticationStart {
  aso_RPID : string;
  aso_OriginPolicy : OriginPolicy;
  aso_Challenge : Challenge;
  aso_ChallengeGenerator : ChallengeGenerator;
  aso_Timeout : Z;
  aso_StateTTL : Z;
  aso_AllowCredentials : list CredentialDescriptor;
  aso_UserVerification : string;
  aso_Hints : list string;
  aso_Extensions : ExtensionInputs;
  aso_ExtensionRegistry : Registry;
  aso_ExtensionInputPolicy : ExtensionInputPolicy;
  aso_ExpectedUserHandle : UserHandle;
  aso_Now : option Z;
}.

Record AuthenticationStartResult := mkAuthenticationStartResult {
  asr_Options : PublicKeyCredentialRequestOptions; asr_State : AuthenticationState }.

(** ** Responses, policies and results *)

Record AuthenticationResponse := mkAuthenticationResponse {
  ar_Type : string;
  ar_RawID : RawID;
  ar_ClientDataJSON : ClientDataJSON;
  ar_AuthenticatorData : AuthenticatorData;
  ar_Signature : Signature;
  ar_UserHandle : UserHandle;
  ar_AuthenticatorAttachment : string;
  ar_ClientExtensionResults : ClientOutputs;
}.

Record AuthenticationExtensionPolicy := mkAuthenticationPolicy {
  aep_RejectUnrequested : bool; aep_RejectUnknown : bool; aep_AppID : string }.

Record CounterPolicy := mkCounterPolicy { RejectCloneRisk : bool; UpdateOnCloneRisk : bool }.

Inductive CounterStatus := CounterStatusUnsupported | CounterStatusIncremented | CounterStatusCloneRisk.
#[export] Instance CounterStatus_eq_dec : EqDecision CounterStatus.
Proof. solve_decision. Defined.

Record CounterResult := mkCounterResult {
  cn_Stored : Z; cn_New : Z; cn_Status : CounterStatus; cn_CloneRisk : bool }.

Record AuthenticationFinishOptions := mkAuthenticationFinish {
  afo_State : AuthenticationState;
  afo_Response : AuthenticationResponse;
  afo_Credential : CredentialRecord;
  afo_ExtensionMapDecoder : ExtensionMapDecoder;
  afo_SignatureVerifier : SignatureVerifier;
  afo_AlgorithmPolicy : AlgorithmPolicy;
  afo_ExtensionRegistry : Registry;
  afo_ExtensionPolicy : AuthenticationExtensionPolicy;
  afo_CounterPolicy : CounterPolicy;
  afo_UVInitializationAuthorized : bool;
  afo_Now : option Z;
}.

Record CredentialUpdate := mkCredentialUpdate {
  cu_ID : CredentialID;
  cu_PreviousSignCount : Z;
  cu_PreviousBackupState : bool;
  cu_PreviousUVInitialized : bool;
  cu_PreviousAuthenticatorAttachment : string;
  cu_SignCount : Z;
  cu_SignCountChanged : bool;
  cu_BackupState : bool;
  cu_BackupStateChanged : bool;
  cu_UVInitialized : bool;
  cu_UVInitializedChanged : bool;
  cu_AuthenticatorAttachment : string;
  cu_AuthenticatorAttachmentChanged : bool;
}.

Record AuthenticationResult := mkAuthenticationResult {
  ares_Credential : CredentialRecord;
  ares_AuthenticatedAs : UserHandle;
  ares_Counter : CounterResult;
  ares_Update : CredentialUpdate;
  ares_Extensions : Results;
  ares_Warnings : list string;
  ares_UserPresent : bool;
  ares_UserVerified : bool;
  ares_UVInitializationPending : bool;
}.

Section Authentication.
Context {Ord : MapOrder} {Custom : CustomTypes} {RT : Runtime}.

Definition aso_now (o : AuthenticationStartOptions) : Z := default time_Now (aso_Now o).
Definition afo_now (o : AuthenticationFinishOptions) : Z := default time_Now (afo_Now o).

Definition StartAuthentication (ctx : option context) (options : AuthenticationStartOptions) :
    result AuthenticationStartResult :=
  let ctx := default background ctx in
  let config := ErrInvalidConfiguration in
  _ ← fail_if (bool_decide (aso_RPID options = "")) (ErrorText config "rp id is required");
  _ ← wrap_err config (validateOriginPolicy (aso_OriginPolicy options));
  _ ← wrap_err config (validateRPIDOriginPolicy (aso_RPID options) (aso_OriginPolicy options));
  _ ← for_each (λ d, wrap_err config (CredentialDescriptor_Validate d)) (aso_AllowCredentials options);
  challenge ← ceremonyChallenge (aso_Challenge options) (aso_ChallengeGenerator options) ctx;
  let userVerification :=
    if bool_decide (aso_UserVerification options = "") then UserVerificationPreferred else aso_UserVerification options in
  _ ← wrap_err config (validateUserVerification userVerification);
  '(preparedExtensions, extensionBindings) ← wrap_err config
    (prepareExtensionInputs OperationAuthentication (aso_Extensions options) (aso_ExtensionRegistry options)
       (aso_ExtensionInputPolicy options) (Some (authenticationTransform (aso_AllowCredentials options))));
  _ ← wrap_err config (validateRemoteClientDataInput OperationAuthentication preparedExtensions
                         (aso_ExtensionRegistry options) challenge);
  _ ← wrap_err config (validateAuthenticationExtensionContext preparedExtensions (aso_ExtensionRegistry options)
                         (aso_AllowCredentials options));
  optionExtensions ← wrap_err config (cloneExtensionInputs preparedExtensions);
  stateExtensions ← wrap_err config (cloneExtensionInputs preparedExtensions);
  '(timeoutMilliseconds, expiresAt) ← wrap_err config
    (timeoutState (aso_Timeout options) (aso_StateTTL options) (aso_now options));
  let requestOptions := {|
    ro_Challenge := challenge;
    ro_TimeoutMilliseconds := timeoutMilliseconds;
    ro_RPID := aso_RPID options;
    ro_AllowCredentials := cloneCredentialDescriptors (aso_AllowCredentials options);
    ro_UserVerification := userVerification;
    ro_Hints := aso_Hints options;
    ro_Extensions := optionExtensions |} in
  _ ← wrap_err config (RequestOptions_Validate requestOptions);
  Ok (mkAuthenticationStartResult requestOptions {|
    as_Challenge := challenge;
    as_RPID := aso_RPID options;
    as_OriginPolicy := OriginPolicy_clone (aso_OriginPolicy options);
    as_RequestedUserVerification := userVerification;
    as_RequestedExtensions := stateExtensions;
    as_ExtensionBindings := extensionBindings;
    as_AllowCredentials := cloneCredentialDescriptors (aso_AllowCredentials options);
    as_ExpectedUserHandle := aso_ExpectedUserHandle options;
    as_ExpiresAt := expiresAt |}).

(** ** Finish *)

Definition validateAuthenticationDependencies (options : AuthenticationFinishOptions) : result () :=
  _ ← fail_if (IsNil (afo_SignatureVerifier options))
        (ErrorText ErrInvalidConfiguration "signature verifier is required");
  _ ← fail_if (negb (iface_eq_nil (afo_AlgorithmPolicy options)) && IsNil (afo_AlgorithmPolicy options))
        (ErrorText ErrInvalidConfiguration "algorithm policy is typed nil");
  _ ← CredentialRecord_Validate (afo_Credential options);
  fail_if (RejectCloneRisk (afo_CounterPolicy options) && UpdateOnCloneRisk (afo_CounterPolicy options))
    (ErrorText ErrInvalidConfiguration "clone-risk counter policy cannot reject and update").

Definition validateAuthenticationState (state : AuthenticationState) (now : Z) : result () :=
  _ ← fail_if (negb (IsZero (as_ExpiresAt state)) && negb (now <? as_ExpiresAt state)) ErrCeremonyExpired;
  AuthenticationState_Validate state.

Definition validateAuthenticationResponseShape (response : AuthenticationResponse) : result () :=
  _ ← wrap_err ErrMalformedResponse (PublicKeyCredentialType_Validate (ar_Type response));
  fail_if (bv_IsNil (ar_RawID response) || bv_IsNil (ar_ClientDataJSON response)
           || bv_IsNil (ar_AuthenticatorData response) || bv_IsNil (ar_Signature response)) ErrMalformedResponse.

Definition verifyAuthenticationCredentialBinding (state : AuthenticationState) (response : AuthenticationResponse)
    (credential : CredentialRecord) : result () :=
  _ ← fail_if (bool_decide (cr_RPID credential = "") || negb (bool_decide (cr_RPID credential = as_RPID state)))
        ErrCredentialRPIDMismatch;
  _ ← fail_if (negb (EqualRawID (cr_ID credential) (ar_RawID response))) ErrCredentialNotAllowed;
  match as_AllowCredentials state with
  | [] => Ok ()
  | descriptors =>
      if existsb (λ d, EqualRawID (cdr_ID d) (ar_RawID response)) descriptors then Ok () else Err ErrCredentialNotAllowed
  end.

Definition verifyAuthenticationUserBinding (state : AuthenticationState) (response : AuthenticationResponse)
    (credential : CredentialRecord) : result () :=
  let expected := as_ExpectedUserHandle state in
  if negb (bv_len expected =? 0) then
    _ ← fail_if (negb (bv_Equal (cr_UserHandle credential) expected)) ErrCredentialOwnershipMismatch;
    fail_if (negb (bv_len (ar_UserHandle response) =? 0) && negb (bv_Equal (ar_UserHandle response) expected))
      ErrCredentialOwnershipMismatch
  else
    _ ← fail_if (bv_len (ar_UserHandle response) =? 0) ErrUserHandleRequired;
    fail_if (negb (bv_Equal (ar_UserHandle response) (cr_UserHandle credential))) ErrCredentialOwnershipMismatch.

(** [None] is the false second result. *)
Definition expectedAuthenticationRPIDHash (state : AuthenticationState) (response : AuthenticationResponse)
    (policy : AuthenticationExtensionPolicy) : option (list byte) :=
  let used := default false (As as_bool (default absent (ar_ClientExtensionResults response !! IDAppID))) in
  if negb used then Some (Sum256 (bytes_of_string (as_RPID state)))
  else
    match as_RequestedExtensions state !! IDAppID with
    | Some (VStringInput appID) =>
        if bool_decide (appID = "") || bool_decide (aep_AppID policy = "") || negb (bool_decide (appID = aep_AppID policy))
        then None
        else Some (Sum256 (bytes_of_string appID))
    | _ => None
    end.

Definition verifyAuthenticationAuthenticatorData (state : AuthenticationState) (response : AuthenticationResponse)
    (credential : CredentialRecord) (policy : AuthenticationExtensionPolicy) : result ParsedAuthenticatorData :=
  parsed ← wrap_err ErrMalformedResponse (ParseAuthenticatorData (ar_AuthenticatorData response));
  let flags := Flags parsed in
  _ ← fail_if (HasAttestedCredentialData flags) ErrMalformedResponse;
  _ ← match expectedAuthenticationRPIDHash state response policy with
      | Some expectedRPIDHash => fail_if (negb (bool_decide (RPIDHash parsed = expectedRPIDHash))) ErrRPIDHashMismatch
      | None => Err ErrRPIDHashMismatch
      end;
  _ ← fail_if (negb (UserPresent flags)) ErrUserPresenceRequired;
  _ ← fail_if (bool_decide (as_RequestedUserVerification state = UserVerificationRequired) && negb (UserVerified flags))
        ErrUserVerificationRequired;
  _ ← fail_if (BackupState flags && negb (BackupEligible flags)) ErrInvalidBackupState;
  _ ← fail_if (negb (Bool.eqb (BackupEligible flags) (cr_BackupEligible credential))) ErrBackupEligibilityMismatch;
  Ok parsed.

Definition decodeAuthenticationExtensions (decoder : ExtensionMapDecoder) (parsed : ParsedAuthenticatorData) :
    result ExtensionMap :=
  if negb (HasExtensionData (Flags parsed)) then Ok ∅
  else
    match decoder with
    | Iface decode => wrap_err ErrMalformedResponse (decode (slice_list (ExtensionData parsed)))
    | _ => Err (ErrorText ErrInvalidConfiguration
                  "authentication extension map decoder is required for authenticator extensions")
    end.

Definition verifyAuthenticationExtensions (ctx : context) (state : AuthenticationState) (selectedCredentialID : CredentialID)
    (policy : AuthenticationExtensionPolicy) (registry : Registry) (clientExtensionResults : ClientOutputs)
    (authenticatorExtensions : ExtensionMap) (clientDataJSON : ClientDataJSON) : result Results :=
  _ ← verifyRemoteClientDataBinding (as_RequestedExtensions state) (as_ExtensionBindings state) clientDataJSON;
  verifyExtensions ctx
    {| evi_operation := OperationAuthentication;
       evi_selectedCredentialID := selectedCredentialID;
       evi_requestedExtensions := as_RequestedExtensions state;
       evi_policy := mkOutputPolicy (aep_RejectUnrequested policy) (aep_RejectUnknown policy);
       evi_registry := registry;
       evi_clientExtensionResults := clientExtensionResults;
       evi_authenticatorExtensions := authenticatorExtensions;
       evi_clientInputTransform := Some (authenticationTransform (as_AllowCredentials state)) |}.

Definition signatureInput (credential : CredentialRecord) (response : AuthenticationResponse)
    (clientDataHash : list byte) : SignatureInput :=
  {| si_Algorithm := pk_Algorithm (cr_PublicKey credential);
     si_PublicKey := PublicKeyMaterial (cr_PublicKey credential);
     si_RawCredentialPublicKey := Raw (cr_PublicKey credential);
     si_Signed := bv_appendTo (ar_AuthenticatorData response) [] ++ clientDataHash;
     si_Signature := ar_Signature response |}.

Definition verifyAuthenticationSignature (ctx : context) (verifier : SignatureVerifier) (credential : CredentialRecord)
    (response : AuthenticationResponse) (clientDataHash : list byte) : result () :=
  match verifier with
  | Iface verify => wrap_err ErrInvalidSignature (verify ctx (signatureInput credential response clientDataHash))
  | _ => Err NilDereference
  end.

Definition compareCounters (stored new : Z) : CounterResult :=
  if (stored =? 0) && (new =? 0) then mkCounterResult stored new CounterStatusUnsupported false
  else if stored <? new then mkCounterResult stored new CounterStatusIncremented false
  else mkCounterResult stored new CounterStatusCloneRisk true.

Definition authenticationWarnings (counter : CounterResult) : list string :=
  if cn_CloneRisk counter then [ErrCloneRisk_Error] else [].

(** The result of [FinishAuthentication] once every check has passed: the
    next values of the mutable fields and the update that leads to them. *)
Definition authenticationResult (options : AuthenticationFinishOptions) (parsedAuthData : ParsedAuthenticatorData)
    (counter : CounterResult) (extensionResults : Results) : AuthenticationResult :=
  let response := afo_Response options in
  let stored := afo_Credential options in
  let flags := Flags parsedAuthData in
  let nextSignCount :=
    if bool_decide (cn_Status counter = CounterStatusIncremented)
       || (cn_CloneRisk counter && UpdateOnCloneRisk (afo_CounterPolicy options))
    then pad_SignCount parsedAuthData else cr_SignCount stored in
  let nextBackupState := BackupState flags in
  let uvInitializationPending :=
    negb (cr_UVInitialized stored) && UserVerified flags && negb (afo_UVInitializationAuthorized options) in
  let nextUVInitialized :=
    if negb (cr_UVInitialized stored) && UserVerified flags && afo_UVInitializationAuthorized options
    then true else cr_UVInitialized stored in
  let attachment := normalizeAuthenticatorAttachment (ar_AuthenticatorAttachment response) in
  let nextAuthenticatorAttachment :=
    if negb (bool_decide (attachment = "")) then attachment else cr_AuthenticatorAttachment stored in
  let copied := CredentialRecord_Clone stored in
  let credential := {|
    cr_Type := cr_Type copied; cr_ID := cr_ID copied; cr_PublicKey := cr_PublicKey copied;
    cr_UserHandle := cr_UserHandle copied; cr_RPID := cr_RPID copied; cr_AAGUID := cr_AAGUID copied;
    cr_SignCount := nextSignCount; cr_Transports := cr_Transports copied;
    cr_BackupEligible := cr_BackupEligible copied; cr_BackupState := nextBackupState;
    cr_UVInitialized := nextUVInitialized; cr_AuthenticatorAttachment := nextAuthenticatorAttachment;
    cr_AttestationType := cr_AttestationType copied |} in
  {| ares_Credential := credential;
        ares_AuthenticatedAs := cr_UserHandle credential;
        ares_Counter := counter;
        ares_Update := {|
          cu_ID := cr_ID credential;
          cu_PreviousSignCount := cr_SignCount stored;
          cu_PreviousBackupState := cr_BackupState stored;
          cu_PreviousUVInitialized := cr_UVInitialized stored;
          cu_PreviousAuthenticatorAttachment := cr_AuthenticatorAttachment stored;
          cu_SignCount := nextSignCount;
          cu_SignCountChanged := negb (nextSignCount =? cr_SignCount stored);
          cu_BackupState := nextBackupState;
          cu_BackupStateChanged := negb (Bool.eqb nextBackupState (cr_BackupState stored));
          cu_UVInitialized := nextUVInitialized;
          cu_UVInitializedChanged := negb (Bool.eqb nextUVInitialized (cr_UVInitialized stored));
          cu_AuthenticatorAttachment := nextAuthenticatorAttachment;
          cu_AuthenticatorAttachmentChanged :=
            negb (bool_decide (nextAuthenticatorAttachment = cr_AuthenticatorAttachment stored)) |};
        ares_Extensions := extensionResults;
        ares_Warnings := authenticationWarnings counter;
        ares_UserPresent := UserPresent flags;
        ares_UserVerified := UserVerified flags;
        ares_UVInitializationPending := uvInitializationPending |}.

Definition FinishAuthentication (ctx : option context) (options : AuthenticationFinishOptions) :
    result AuthenticationResult :=
  let ctx := default background ctx in
  let state := afo_State options in
  let response := afo_Response options in
  let stored := afo_Credential options in
  _ ← validateAuthenticationDependencies options;
  _ ← validateAuthenticationState state (afo_now options);
  _ ← wrap_err ErrInvalidConfiguration
        (validateFinishExtensionBindings (as_RequestedExtensions state) (as_ExtensionBindings state)
           (afo_ExtensionRegistry options));
  _ ← validateAuthenticationResponseShape response;
  _ ← validateClientExtensionResults (ar_ClientExtensionResults response);
  _ ← verifyAuthenticationCredentialBinding state response stored;
  _ ← verifyAuthenticationUserBinding state response stored;
  clientDataHash ← verifyClientData (ar_ClientDataJSON response) ClientDataTypeGet (as_Challenge state)
                     (as_OriginPolicy state);
  parsedAuthData ← verifyAuthenticationAuthenticatorData state response stored (afo_ExtensionPolicy options);
  authenticatorExtensions ← decodeAuthenticationExtensions (afo_ExtensionMapDecoder options) parsedAuthData;
  _ ← match afo_AlgorithmPolicy options with
      | Iface accepts => fail_if (negb (accepts (pk_Algorithm (cr_PublicKey stored)))) ErrUnsupportedAlgorithm
      | NilIface => Ok ()
      | TypedNil => Err NilDereference
      end;
  _ ← verifyAuthenticationSignature ctx (afo_SignatureVerifier options) stored response clientDataHash;
  let counter := compareCounters (cr_SignCount stored) (pad_SignCount parsedAuthData) in
  _ ← fail_if (cn_CloneRisk counter && RejectCloneRisk (afo_CounterPolicy options)) ErrCloneRisk;
  extensionResults ← verifyAuthenticationExtensions ctx state (cr_ID stored) (afo_ExtensionPolicy options)
    (afo_ExtensionRegistry options) (ar_ClientExtensionResults response) authenticatorExtensions
    (ar_ClientDataJSON response);
  Ok (authenticationResult options parsedAuthData counter extensionResults).
End Authentication.

(** ** Credential updates *)

Definition Descriptor (record : CredentialRecord) : CredentialDescriptor :=
  mkDescriptor (cr_Type record) (cr_ID record) (cr_Transports record).

Definition ApplyTo (update : CredentialUpdate) (record : CredentialRecord) : result CredentialRecord :=
  _ ← CredentialRecord_Validate record;
  _ ← fail_if (negb (bv_Equal (cr_ID record) (cu_ID update))
               || negb (cr_SignCount record =? cu_PreviousSignCount update)
               || negb (Bool.eqb (cr_BackupState record) (cu_PreviousBackupState update))
               || negb (Bool.eqb (cr_UVInitialized record) (cu_PreviousUVInitialized update))
               || negb (bool_decide (cr_AuthenticatorAttachment record = cu_PreviousAuthenticatorAttachment update)))
        ErrCredentialUpdateConflict;
  let copied := CredentialRecord_Clone record in
  let next := {|
    cr_Type := cr_Type copied; cr_ID := cr_ID copied; cr_PublicKey := cr_PublicKey copied;
    cr_UserHandle := cr_UserHandle copied; cr_RPID := cr_RPID copied; cr_AAGUID := cr_AAGUID copied;
    cr_SignCount := if cu_SignCountChanged update then cu_SignCount update else cr_SignCount copied;
    cr_Transports := cr_Transports copied; cr_BackupEligible := cr_BackupEligible copied;
    cr_BackupState := if cu_BackupStateChanged update then cu_BackupState update else cr_BackupState copied;
    cr_UVInitialized := if cu_UVInitializedChanged update then cu_UVInitialized update else cr_UVInitialized copied;
    cr_AuthenticatorAttachment := if cu_AuthenticatorAttachmentChanged update
                                  then cu_AuthenticatorAttachment update else cr_AuthenticatorAttachment copied;
    cr_AttestationType := cr_AttestationType copied |} in
  _ ← wrap_err ErrInvalidCredentialUpdate (CredentialRecord_Validate next);
  Ok next.

(** ** Lemmas on the start of the ceremony *)

Section StartLemmas.
Context {Ord : MapOrder} {Custom : CustomTypes} {RT : Runtime}.

Lemma CloneValue_LargeBlob i v : CloneValue (VLargeBlobInput i) = Ok v → v = VLargeBlobInput i.
Proof.
  unfold CloneValue, CloneValueWithLimits. intros H. apply bind_Ok in H as ([] & _ & H).
  apply bind_Ok in H as ([w b] & H & [= <-]). cbn [cloneValueAt] in H. apply bind_Ok in H as ([] & _ & H).
  destruct (directCloneCost _) as [n c]. apply bind_Ok in H as (budget & _ & H).
  cbn [clone_leaf mbind result_bind] in H. rewrite cloneLargeBlobInput_id in H. by injection H as <- _.
Qed.

Lemma CloneInput_LargeBlob i v : CloneInput (VLargeBlobInput i) = Ok v → v = VLargeBlobInput i.
Proof.
  unfold CloneInput. intros H. apply bind_Ok in H as ([] & _ & H). apply bind_Ok in H as (c & Hc & H).
  cbn [CloneExtensionInput] in Hc. apply bind_Ok in Hc as (w & _ & Hc). rewrite cloneLargeBlobInput_id in Hc.
  apply Ok_inj in Hc. subst c. apply bind_Ok in H as ([] & _ & [= <-]). done.
Qed.

(** The handler registered for largeBlob, if any, is the library's. *)
Definition standard_large_blob (registry : Registry) : Prop :=
  ∀ h, Registry_lookup registry IDLargeBlob = Some h → h = Register (Iface LargeBlobHandler).

Lemma normalized_large_blob registry op v w : standard_large_blob registry →
  normalizeRegisteredInput registry op IDLargeBlob v = Ok w → ∃ i, w = VLargeBlobInput i.
Proof.
  intros Hstd H. unfold normalizeRegisteredInput in H. apply bind_Ok in H as (raw & _ & H).
  apply bind_Ok in H as (n & Hn & H). unfold Registry_ValidateInput in Hn.
  apply bind_Ok in Hn as (h & ->%of_option_Ok%Hstd & Hn). cbn [Register eh_ValidateInput] in Hn.
  unfold adapter_ValidateInput in Hn. apply bind_Ok in Hn as (i & _ & Hn). exists i.
  unfold NewRawValue in Hn. apply bind_Ok in Hn as (c & ->%CloneValue_LargeBlob & [= <-]).
  apply bind_Ok in H as (c & Hc & H). cbn [RawValue_Clone rv_present rv_value negb] in Hc.
  apply CloneValue_LargeBlob in Hc. subst c. cbn [NormalizeInput implements_ExtensionInput] in H.
  by apply CloneInput_LargeBlob in H.
Qed.

(** The largeBlob context accepted at start is accepted again at finish. *)
Lemma stored_context_Ok options inputs out stored bindings transform :
  standard_large_blob (aso_ExtensionRegistry options) →
  prepareExtensionInputs OperationAuthentication inputs (aso_ExtensionRegistry options)
    (aso_ExtensionInputPolicy options) transform = Ok (out, bindings) →
  cloneExtensionInputs out = Ok stored →
  validateAuthenticationExtensionContext out (aso_ExtensionRegistry options) (aso_AllowCredentials options) = Ok () →
  validateStoredAuthenticationExtensionContext stored (aso_AllowCredentials options) = Ok ().
Proof.
  intros Hstd Hprep Hclone Hctx. unfold validateStoredAuthenticationExtensionContext.
  destruct (stored !! IDLargeBlob) as [v|] eqn:Ev; [|done].
  destruct (cloneExtensionInputs_lookup _ _ _ _ Hclone Ev) as (w & Hw & Hc).
  unfold validateAuthenticationExtensionContext in Hctx. rewrite Hw in Hctx.
  apply bind_Ok in Hctx as ([] & Hk%fail_if_Ok%negb_false_iff & Hctx%wrap_err_Ok).
  destruct (prepareExtensionInputs_lookup _ _ _ _ _ _ _ _ _ Hprep Hw) as (b & Hp). unfold prepareExtensionInput in Hp.
  apply bind_Ok in Hp as ([] & _ & Hp). apply bind_Ok in Hp as (v1 & _ & Hp). apply bind_Ok in Hp as (v2 & _ & Hp).
  rewrite Hk in Hp. cbn [negb] in Hp. apply bind_Ok in Hp as (n & Hn%wrap_err_Ok & Hp).
  apply bind_Ok in Hp as (bd & _ & [= -> _]). apply normalized_large_blob in Hn as [i ->]; [|done].
  apply CloneInput_LargeBlob in Hc. by subst v.
Qed.

(** What a started authentication promises, as for registration. *)
Record authentication_started (options : AuthenticationStartOptions) (r : AuthenticationStartResult) : Prop := {
  auth_started_valid : AuthenticationState_Validate (asr_State r) = Ok ();
  auth_started_bindings : validateFinishExtensionBindings (as_RequestedExtensions (asr_State r))
    (as_ExtensionBindings (asr_State r)) (aso_ExtensionRegistry options) = Ok ();
  auth_started_challenge : ro_Challenge (asr_Options r) = as_Challenge (asr_State r) ∧
    (bv_len (aso_Challenge options) ≠ 0 → as_Challenge (asr_State r) = aso_Challenge options);
  auth_started_rp : ro_RPID (asr_Options r) = as_RPID (asr_State r) ∧ as_RPID (asr_State r) = aso_RPID options;
  auth_started_user : as_ExpectedUserHandle (asr_State r) = aso_ExpectedUserHandle options;
  auth_started_allow : ro_AllowCredentials (asr_Options r) = as_AllowCredentials (asr_State r) ∧
    as_AllowCredentials (asr_State r) = aso_AllowCredentials options;
  auth_started_uv : ro_UserVerification (asr_Options r) = as_RequestedUserVerification (asr_State r) ∧
    as_RequestedUserVerification (asr_State r) =
      (if bool_decide (aso_UserVerification options = "") then UserVerificationPreferred else aso_UserVerification options);
  auth_started_extensions : ro_Extensions (asr_Options r) = as_RequestedExtensions (asr_State r) ∧
    ∀ id, option_Forall2
      (extension_sent OperationAuthentication (aso_ExtensionRegistry options)
         (Some (authenticationTransform (aso_AllowCredentials options))) id)
      (aso_Extensions options !! id) (as_RequestedExtensions (asr_State r) !! id);
  auth_started_policy : as_OriginPolicy (asr_State r) = aso_OriginPolicy options ∧ ro_Hints (asr_Options r) = aso_Hints options;
  auth_started_expiry : aso_now options < as_ExpiresAt (asr_State r) ∧ 1 <= ro_TimeoutMilliseconds (asr_Options r) < 2 ^ 32;
}.

Lemma StartAuthentication_Ok ctx options r :
  registry_wf (aso_ExtensionRegistry options) → standard_large_blob (aso_ExtensionRegistry options) →
  0 <= aso_now options → StartAuthentication ctx options = Ok r → authentication_started options r.
Proof.
  intros Hwf Hstd Hnow H. unfold StartAuthentication in H. apply bind_Ok in H as ([] & Hid%fail_if_Ok & H).
  apply bind_Ok in H as ([] & Horigin%wrap_err_Ok & H). apply bind_Ok in H as ([] & Hrpid%wrap_err_Ok & H).
  apply bind_Ok in H as ([] & Hallow & H). apply bind_Ok in H as (challenge & Hch & H).
  apply bind_Ok in H as ([] & Huv%wrap_err_Ok & H).
  apply bind_Ok in H as ([prepared bindings] & Hp%wrap_err_Ok & H). pose proof (prepareExtensionInputs_Ok _ _ _ _ _ _ _ Hp) as Hprep.
  apply bind_Ok in H as ([] & _ & H). apply bind_Ok in H as ([] & Hctx%wrap_err_Ok & H).
  apply bind_Ok in H as (optE & Hopt%wrap_err_Ok & H).
  apply bind_Ok in H as (stE & Hcl%wrap_err_Ok & H). rewrite Hcl in Hopt. injection Hopt as <-. pose proof (cloneExtensionInputs_dom _ _ Hcl) as Hst.
  apply bind_Ok in H as ([ms expires] & (Hms & _ & Hexp & _)%wrap_err_Ok%timeoutState_Ok & H).
  apply bind_Ok in H as ([] & Hro%wrap_err_Ok & H). apply Ok_inj in H. subst r.
  assert (dom prepared = dom (aso_Extensions options)) as Hd by apply Hprep.
  destruct (prepared_state_valid _ _ _ _ _ stE Hwf Hprep) as [Hids Hbind]; [by rewrite Hst|].
  assert (as_ok : for_each (λ d, wrap_err ErrInvalidCeremonyState (CredentialDescriptor_Validate d)) (aso_AllowCredentials options) = Ok ()).
  { apply for_each_Ok. apply for_each_Ok in Hallow. eapply Forall_impl; [exact Hallow|]. intros d Hv%wrap_err_Ok. by apply wrap_err_Ok. }
  constructor; cbn [asr_State asr_Options as_RequestedExtensions as_ExtensionBindings as_Challenge ro_Challenge ro_RPID as_RPID
    as_ExpectedUserHandle ro_AllowCredentials as_AllowCredentials ro_UserVerification as_RequestedUserVerification
    ro_Extensions as_ExpiresAt ro_TimeoutMilliseconds]; try done.
  - unfold RequestOptions_Validate in Hro. apply bind_Ok in Hro as ([] & Hc%fail_if_Ok & _). cbn [ro_Challenge] in Hc.
    unfold AuthenticationState_Validate. cbn [as_RequestedExtensions as_ExtensionBindings as_Challenge as_OriginPolicy
      as_RPID as_ExpiresAt as_RequestedUserVerification as_AllowCredentials].
    rewrite cloneCredentialDescriptors_id, Hc, Hid, OriginPolicy_clone_id, Horigin, Hrpid, Huv, as_ok, Hids, Hbind.
    run. unfold IsZero. rewrite (proj2 (Z.eqb_neq expires 0)) by lia.
    run. by rewrite (stored_context_Ok _ _ _ _ _ _ Hstd Hp Hcl Hctx).
  - eapply finish_bindings_prepared; [exact Hwf|exact Hprep|by rewrite Hst|done].
  - split; [done|]. by eapply ceremonyChallenge_given.
  - by rewrite cloneCredentialDescriptors_id.
  - split; [done|]. exact (prepared_inputs_sent _ _ _ _ _ _ _ _ Hp Hcl).
  - by rewrite OriginPolicy_clone_id.
  - lia.
Qed.
End StartLemmas.

(** ** What a finished authentication establishes *)

Section FinishLemmas.
Context {Ord : MapOrder} {Custom : CustomTypes} {RT : Runtime}.

(** The RP ID hash the assertion must carry: that of the RP ID, or, when the
    client reports that it used the appid extension, that of the application
    ID, which must then have been requested and be the one the policy allows. *)
Definition rp_id_hash_expected (state : AuthenticationState) (response : AuthenticationResponse)
    (policy : AuthenticationExtensionPolicy) (hash : list byte) : Prop :=
  let appidUsed := As as_bool (default absent (ar_ClientExtensionResults response !! IDAppID)) = Some true in
  (~ appidUsed ∧ hash = Sum256 (bytes_of_string (as_RPID state))) ∨
  (appidUsed ∧ aep_AppID policy ≠ "" ∧ as_RequestedExtensions state !! IDAppID = Some (VStringInput (aep_AppID policy)) ∧
   hash = Sum256 (bytes_of_string (aep_AppID policy))).

Lemma expectedAuthenticationRPIDHash_Some state response policy hash :
  expectedAuthenticationRPIDHash state response policy = Some hash ↔ rp_id_hash_expected state response policy hash.
Proof.
  unfold expectedAuthenticationRPIDHash, rp_id_hash_expected.
  destruct (As as_bool _) as [[]|]; cbn [default from_option id negb].
  - split.
    + intros H. right. split; [done|]. destruct (_ !! IDAppID) as [v|] eqn:Hv; [|done]. destruct v; try done.
      destruct (bool_decide _ || _ || _) eqn:E; [done|].
      rewrite !orb_false_iff, negb_false_iff, !bool_decide_eq_false, bool_decide_eq_true in E.
      destruct E as [[? ?] ->]. by injection H as <-.
    + intros [[[] _]|(_ & Hne & -> & ->)]; [done|].
      rewrite !bool_decide_eq_false_2 by done. by rewrite bool_decide_eq_true_2.
  - split; [intros [= <-]; by left|]. by intros [[_ ->]|[[=] _]].
  - split; [intros [= <-]; by left|]. by intros [[_ ->]|[[=] _]].
Qed.

Definition authentication_authdata (options : AuthenticationFinishOptions) (parsed : ParsedAuthenticatorData) : Prop :=
  ParseAuthenticatorData (ar_AuthenticatorData (afo_Response options)) = Ok parsed ∧
  HasAttestedCredentialData (Flags parsed) = false ∧
  rp_id_hash_expected (afo_State options) (afo_Response options) (afo_ExtensionPolicy options) (RPIDHash parsed) ∧
  UserPresent (Flags parsed) = true ∧
  (as_RequestedUserVerification (afo_State options) = UserVerificationRequired → UserVerified (Flags parsed) = true) ∧
  (BackupState (Flags parsed) = true → BackupEligible (Flags parsed) = true) ∧
  BackupEligible (Flags parsed) = cr_BackupEligible (afo_Credential options).

Lemma verifyAuthenticationAuthenticatorData_Ok options parsed :
  verifyAuthenticationAuthenticatorData (afo_State options) (afo_Response options) (afo_Credential options)
    (afo_ExtensionPolicy options) = Ok parsed ↔ authentication_authdata options parsed.
Proof.
  unfold verifyAuthenticationAuthenticatorData, authentication_authdata. split.
  - intros H. apply bind_Ok in H as (p & Hp%wrap_err_Ok & H). apply bind_Ok in H as ([] & H1%fail_if_Ok & H).
    apply bind_Ok in H as ([] & H2 & H). apply bind_Ok in H as ([] & H3%fail_if_Ok%negb_false_iff & H).
    apply bind_Ok in H as ([] & H4%fail_if_Ok & H). apply bind_Ok in H as ([] & H5%fail_if_Ok & H).
    apply bind_Ok in H as ([] & H6%fail_if_Ok%negb_false_iff%eqb_prop & H). apply Ok_inj in H. subst p.
    split_and!; try done.
    + destruct (expectedAuthenticationRPIDHash _ _ _) as [hash|] eqn:E; [|done].
      apply fail_if_Ok, negb_false_iff, bool_decide_eq_true in H2. rewrite H2. by apply expectedAuthenticationRPIDHash_Some.
    + intros Hr. rewrite bool_decide_eq_true_2 in H4 by done. by apply negb_false_iff in H4.
    + intros Hb. rewrite Hb in H5. by apply negb_false_iff in H5.
  - intros (Hp & H1 & H2%expectedAuthenticationRPIDHash_Some & H3 & H4 & H5 & H6). rewrite Hp.
    run. rewrite H1, H2, (bool_decide_eq_true_2 (RPIDHash parsed = _)), H3 by done.
    run.
    assert (bool_decide (as_RequestedUserVerification (afo_State options) = UserVerificationRequired)
      && negb (UserVerified (Flags parsed)) = false) as -> by (case_bool_decide; [by rewrite H4|done]).
    assert (BackupState (Flags parsed) && negb (BackupEligible (Flags parsed)) = false) as ->
      by (destruct (BackupState _); [by rewrite H5|done]).
    by rewrite H6, eqb_reflx.
Qed.

(** The assertion is for the stored credential, of this relying party, and, if
    the ceremony restricts credentials, for one of the allowed ones. *)
Definition credential_bound (options : AuthenticationFinishOptions) : Prop :=
  let rawID := slice_list (bv_value (ar_RawID (afo_Response options))) in
  cr_RPID (afo_Credential options) ≠ "" ∧ cr_RPID (afo_Credential options) = as_RPID (afo_State options) ∧
  slice_list (bv_value (cr_ID (afo_Credential options))) = rawID ∧
  (as_AllowCredentials (afo_State options) = [] ∨
   ∃ d, d ∈ as_AllowCredentials (afo_State options) ∧ slice_list (bv_value (cdr_ID d)) = rawID).

Lemma verifyAuthenticationCredentialBinding_Ok options u :
  verifyAuthenticationCredentialBinding (afo_State options) (afo_Response options) (afo_Credential options) = Ok u ↔
  credential_bound options.
Proof.
  destruct u. unfold verifyAuthenticationCredentialBinding, credential_bound. split.
  - intros H. apply bind_Ok in H as ([] & H1%fail_if_Ok & H).
    apply bind_Ok in H as ([] & H2%fail_if_Ok%negb_false_iff%bv_equalBytes_spec & H).
    apply orb_false_iff in H1 as [? %bool_decide_eq_false ? %negb_false_iff%bool_decide_eq_true].
    split_and!; try done. destruct (as_AllowCredentials (afo_State options)) as [|d ds]; [by left|]. right.
    destruct (existsb _ _) eqn:E; [|done]. apply existsb_exists in E as (x & Hx & Heq).
    exists x. split; [by apply list_elem_of_In|]. by apply bv_equalBytes_spec.
  - intros (H1 & H2 & H3 & H4). rewrite bool_decide_eq_false_2 by done. rewrite bool_decide_eq_true_2 by done.
    rewrite (proj2 (bv_equalBytes_spec _ _) H3 : EqualRawID _ _ = true). run.
    destruct (as_AllowCredentials (afo_State options)) as [|d ds]; [done|]. destruct H4 as [?|(x & Hx & Heq)]; [done|].
    assert (existsb (λ d, EqualRawID (cdr_ID d) (ar_RawID (afo_Response options))) (d :: ds) = true) as ->; [|done].
    apply existsb_exists. exists x. split; [by apply list_elem_of_In|]. by apply bv_equalBytes_spec.
Qed.

(** The account: the expected user when the ceremony names one, and otherwise
    the user the authenticator returned; in both cases the owner of the stored
    credential. *)
Definition user_bound (options : AuthenticationFinishOptions) : Prop :=
  let expected := slice_list (bv_value (as_ExpectedUserHandle (afo_State options))) in
  let reported := slice_list (bv_value (ar_UserHandle (afo_Response options))) in
  let owner := slice_list (bv_value (cr_UserHandle (afo_Credential options))) in
  if decide (expected = []) then reported ≠ [] ∧ reported = owner
  else owner = expected ∧ (reported = [] ∨ reported = expected).

Lemma verifyAuthenticationUserBinding_Ok options u :
  verifyAuthenticationUserBinding (afo_State options) (afo_Response options) (afo_Credential options) = Ok u ↔
  user_bound options.
Proof.
  destruct u. unfold verifyAuthenticationUserBinding, user_bound.
  destruct (Z.eqb_spec (bv_len (as_ExpectedUserHandle (afo_State options))) 0) as [Hz|Hz]; rewrite bv_len_0 in Hz; run.
  - rewrite decide_True by done. rewrite bind_Ok. split.
    + intros ([] & H1%fail_if_Ok%Z.eqb_neq & H2%fail_if_Ok%negb_false_iff%bv_Equal_spec). by rewrite bv_len_0 in H1.
    + intros [H1 H2]. exists (). rewrite !fail_if_Ok, Z.eqb_neq, bv_len_0, negb_false_iff, bv_Equal_spec. done.
  - rewrite decide_False by done. rewrite bind_Ok. split.
    + intros ([] & H1%fail_if_Ok%negb_false_iff%bv_Equal_spec & H2%fail_if_Ok). split; [done|].
      apply andb_false_iff in H2 as [H2%negb_false_iff%Z.eqb_eq|H2%negb_false_iff%bv_Equal_spec]; [left|by right].
      by apply bv_len_0.
    + intros [H1 H2]. exists (). rewrite !fail_if_Ok, negb_false_iff, bv_Equal_spec. split; [done|].
      apply andb_false_iff. rewrite !negb_false_iff, Z.eqb_eq, bv_len_0, bv_Equal_spec. done.
Qed.

Lemma validateAuthenticationState_Ok state now u :
  validateAuthenticationState state now = Ok u ↔ now < as_ExpiresAt state ∧ AuthenticationState_Validate state = Ok ().
Proof.
  destruct u. unfold validateAuthenticationState. rewrite bind_Ok. split.
  - intros ([] & He%fail_if_Ok & Hv). split; [|done].
    assert (IsZero (as_ExpiresAt state) = false) as Hz.
    { unfold AuthenticationState_Validate in Hv. do 3 apply bind_Ok in Hv as ([] & _ & Hv).
      by apply bind_Ok in Hv as ([] & Hz%fail_if_Ok & _). }
    rewrite Hz in He. by apply negb_false_iff, Z.ltb_lt in He.
  - intros [Hlt Hv]. exists (). split; [|done]. rewrite (proj2 (Z.ltb_lt _ _) Hlt). by rewrite andb_false_r.
Qed.

Lemma validateAuthenticationResponseShape_Ok response u :
  validateAuthenticationResponseShape response = Ok u ↔
  ar_Type response = CredentialTypePublicKey ∧ bv_value (ar_RawID response) ≠ None ∧
  bv_value (ar_ClientDataJSON response) ≠ None ∧ bv_value (ar_AuthenticatorData response) ≠ None ∧
  bv_value (ar_Signature response) ≠ None.
Proof.
  destruct u. unfold validateAuthenticationResponseShape, bv_IsNil. rewrite bind_Ok. split.
  - intros ([] & Ht%wrap_err_Ok%PublicKeyCredentialType_Validate_Ok & H%fail_if_Ok).
    guards in H. tauto.
  - intros (Ht & H1 & H2 & H3 & H4). exists (). rewrite wrap_err_Ok, PublicKeyCredentialType_Validate_Ok, fail_if_Ok.
    guards. tauto.
Qed.

(** The checks made before any byte of the response is interpreted. *)
Definition authentication_admitted (options : AuthenticationFinishOptions) : Prop :=
  let state := afo_State options in let response := afo_Response options in
  record_valid (afo_Credential options) ∧
  (RejectCloneRisk (afo_CounterPolicy options) = true → UpdateOnCloneRisk (afo_CounterPolicy options) = false) ∧
  afo_now options < as_ExpiresAt state ∧ AuthenticationState_Validate state = Ok () ∧
  validateFinishExtensionBindings (as_RequestedExtensions state) (as_ExtensionBindings state)
    (afo_ExtensionRegistry options) = Ok () ∧
  ar_Type response = CredentialTypePublicKey ∧ bv_value (ar_RawID response) ≠ None ∧
  bv_value (ar_ClientDataJSON response) ≠ None ∧ bv_value (ar_AuthenticatorData response) ≠ None ∧
  bv_value (ar_Signature response) ≠ None ∧
  validateClientExtensionResults (ar_ClientExtensionResults response) = Ok ().

(** The signature check: the verifier accepted the stored key's signature over
    the authenticator data followed by the hash of the client data. *)
Definition signature_verified (ctx : context) (options : AuthenticationFinishOptions) : Prop :=
  let response := afo_Response options in let key := cr_PublicKey (afo_Credential options) in
  ∃ verify, afo_SignatureVerifier options = Iface verify ∧
    verify ctx {|
      si_Algorithm := pk_Algorithm key; si_PublicKey := pk_material key; si_RawCredentialPublicKey := pk_raw key;
      si_Signed := slice_list (bv_value (ar_AuthenticatorData response))
                   ++ Sum256 (slice_list (bv_value (ar_ClientDataJSON response)));
      si_Signature := ar_Signature response |} = Ok ().

Definition algorithm_accepted (options : AuthenticationFinishOptions) : Prop :=
  afo_AlgorithmPolicy options = NilIface ∨
  ∃ accepts, afo_AlgorithmPolicy options = Iface accepts ∧ accepts (pk_Algorithm (cr_PublicKey (afo_Credential options))) = true.

(** The authentication ceremony, as a specification. *)
Definition authentication_verified (ctx : context) (options : AuthenticationFinishOptions) (r : AuthenticationResult) : Prop :=
  let state := afo_State options in let response := afo_Response options in
  authentication_admitted options ∧ credential_bound options ∧ user_bound options ∧
  client_data_verified (ar_ClientDataJSON response) ClientDataTypeGet (as_Challenge state) (as_OriginPolicy state) ∧
  algorithm_accepted options ∧ signature_verified ctx options ∧
  ∃ parsed extensions,
    let counter := compareCounters (cr_SignCount (afo_Credential options)) (pad_SignCount parsed) in
    authentication_authdata options parsed ∧
    decodeAuthenticationExtensions (afo_ExtensionMapDecoder options) parsed = Ok extensions ∧
    (RejectCloneRisk (afo_CounterPolicy options) = true → cn_CloneRisk counter = false) ∧
    verifyAuthenticationExtensions ctx state (cr_ID (afo_Credential options)) (afo_ExtensionPolicy options)
      (afo_ExtensionRegistry options) (ar_ClientExtensionResults response) extensions (ar_ClientDataJSON response)
      = Ok (ares_Extensions r) ∧
    r = authenticationResult options parsed counter (ares_Extensions r).

Lemma verifyAuthenticationSignature_Ok ctx options u :
  verifyAuthenticationSignature ctx (afo_SignatureVerifier options) (afo_Credential options) (afo_Response options)
    (Sum256 (slice_list (bv_value (ar_ClientDataJSON (afo_Response options))))) = Ok u ↔ signature_verified ctx options.
Proof.
  destruct u. unfold verifyAuthenticationSignature, signature_verified, signatureInput, PublicKeyMaterial, Raw, bv_appendTo.
  rewrite CredentialPublicKeyMaterial_clone_id. cbn [app].
  destruct (afo_SignatureVerifier options) as [| |verify]; [split; [done|by intros (? & [=] & _)]..|].
  rewrite wrap_err_Ok. split; [intros H; by exists verify|]. by intros (? & [= <-] & H).
Qed.

Lemma FinishAuthentication_sound ctx options r :
  FinishAuthentication ctx options = Ok r → authentication_verified (default background ctx) options r.
Proof.
  intros H. unfold FinishAuthentication in H. apply bind_Ok in H as ([] & Hdep & H).
  unfold validateAuthenticationDependencies in Hdep. apply bind_Ok in Hdep as ([] & _ & Hdep).
  apply bind_Ok in Hdep as ([] & Htn%fail_if_Ok & Hdep).
  apply bind_Ok in Hdep as ([] & Hrec%CredentialRecord_Validate_Ok & Hpol%fail_if_Ok).
  apply bind_Ok in H as ([] & [Hexp Hval]%validateAuthenticationState_Ok & H).
  apply bind_Ok in H as ([] & Hbind%wrap_err_Ok & H).
  apply bind_Ok in H as ([] & Hshape%validateAuthenticationResponseShape_Ok & H). apply bind_Ok in H as ([] & Hcer & H).
  apply bind_Ok in H as ([] & Hcb%verifyAuthenticationCredentialBinding_Ok & H).
  apply bind_Ok in H as ([] & Hub%verifyAuthenticationUserBinding_Ok & H).
  apply bind_Ok in H as (hash & [Hcd ->]%verifyClientData_Ok & H).
  apply bind_Ok in H as (parsed & Hparsed%verifyAuthenticationAuthenticatorData_Ok & H).
  apply bind_Ok in H as (extensions & Hx & H). apply bind_Ok in H as ([] & Halg & H).
  apply bind_Ok in H as ([] & Hsig%verifyAuthenticationSignature_Ok & H).
  apply bind_Ok in H as ([] & Hcnt%fail_if_Ok & H). apply bind_Ok in H as (ext & Hext & H). apply Ok_inj in H. subst r.
  split; [|split; [done|split; [done|split; [done|split; [|split; [done|]]]]]].
  - split; [done|]. split; [intros Hr; by rewrite Hr in Hpol|]. split_and!; try done; apply Hshape.
  - unfold algorithm_accepted. destruct (afo_AlgorithmPolicy options) as [| |accepts]; [by left|done|].
    right. exists accepts. by apply fail_if_Ok, negb_false_iff in Halg.
  - exists parsed, extensions. split; [done|]. split; [done|]. split; [|done].
    intros Hr. rewrite Hr, andb_true_r in Hcnt. done.
Qed.

Lemma FinishAuthentication_complete ctx options r :
  authentication_verified (default background ctx) options r → FinishAuthentication ctx options = Ok r.
Proof.
  intros ((Hrec & Hpol & Hexp & Hval & Hbind & Hs1 & Hs2 & Hs3 & Hs4 & Hs5 & Hcer) & Hcb & Hub & Hcd & Halg & Hsig &
    parsed & extensions & Hparsed & Hx & Hcnt & Hext & Hr).
  unfold FinishAuthentication, validateAuthenticationDependencies.
  assert (IsNil (afo_SignatureVerifier options) = false) as -> by (by destruct Hsig as (v & -> & _)).
  assert (negb (iface_eq_nil (afo_AlgorithmPolicy options)) && IsNil (afo_AlgorithmPolicy options) = false) as ->
    by (destruct Halg as [-> |(a & -> & _)]; done).
  run. rewrite (proj2 (CredentialRecord_Validate_Ok _ ()) Hrec). run.
  assert (RejectCloneRisk (afo_CounterPolicy options) && UpdateOnCloneRisk (afo_CounterPolicy options) = false) as ->
    by (destruct (RejectCloneRisk _); [by apply Hpol|done]).
  run.
  rewrite (proj2 (validateAuthenticationState_Ok _ _ ()) (conj Hexp Hval)). run.
  rewrite Hbind. run.
  rewrite (proj2 (validateAuthenticationResponseShape_Ok _ ())) by done. run.
  rewrite Hcer. run.
  rewrite (proj2 (verifyAuthenticationCredentialBinding_Ok _ ()) Hcb). run.
  rewrite (proj2 (verifyAuthenticationUserBinding_Ok _ ()) Hub). run.
  rewrite (proj2 (verifyClientData_Ok _ _ _ _ _) (conj Hcd eq_refl)). run.
  rewrite (proj2 (verifyAuthenticationAuthenticatorData_Ok _ _) Hparsed). run.
  rewrite Hx. run.
  assert (match afo_AlgorithmPolicy options with
    | NilIface => Ok ()
    | TypedNil => Err NilDereference
    | Iface accepts => fail_if (negb (accepts (pk_Algorithm (cr_PublicKey (afo_Credential options))))) ErrUnsupportedAlgorithm
    end = Ok ()) as -> by (destruct Halg as [-> |(a & -> & ->)]; done).
  run. rewrite (proj2 (verifyAuthenticationSignature_Ok _ _ ()) Hsig). run.
  set (counter := compareCounters _ _) in *.
  assert (cn_CloneRisk counter && RejectCloneRisk (afo_CounterPolicy options) = false) as ->.
  { destruct (RejectCloneRisk _); [by rewrite Hcnt|apply andb_false_r]. }
  run. rewrite Hext. run. by rewrite <-Hr.
Qed.
End FinishLemmas.

(** ** Lemmas on results and updates *)

(** The mutable part of a record, which an update reads and writes. *)
Definition same_mutable (a b : CredentialRecord) : Prop :=
  cr_SignCount a = cr_SignCount b ∧ cr_BackupState a = cr_BackupState b ∧
  cr_UVInitialized a = cr_UVInitialized b ∧ cr_AuthenticatorAttachment a = cr_AuthenticatorAttachment b.

#[export] Instance same_mutable_dec a b : Decision (same_mutable a b).
Proof. unfold same_mutable. apply _. Defined.

(** [record] with the mutable part of [next]. *)
Definition with_mutable (record next : CredentialRecord) : CredentialRecord :=
  {| cr_Type := cr_Type record; cr_ID := cr_ID record; cr_PublicKey := cr_PublicKey record;
     cr_UserHandle := cr_UserHandle record; cr_RPID := cr_RPID record; cr_AAGUID := cr_AAGUID record;
     cr_SignCount := cr_SignCount next; cr_Transports := cr_Transports record;
     cr_BackupEligible := cr_BackupEligible record; cr_BackupState := cr_BackupState next;
     cr_UVInitialized := cr_UVInitialized next; cr_AuthenticatorAttachment := cr_AuthenticatorAttachment next;
     cr_AttestationType := cr_AttestationType record |}.

Lemma with_mutable_same record next : same_mutable next record → with_mutable record next = record.
Proof. destruct record. unfold same_mutable, with_mutable. cbn. intros (-> & -> & -> & ->). done. Qed.

Lemma with_mutable_id_inv record next : with_mutable record next = record → same_mutable record next.
Proof. destruct record, next. unfold same_mutable, with_mutable. cbn. intros [=]. subst. done. Qed.

(** The guard of [ApplyTo]. *)
Definition update_matches (u : CredentialUpdate) (record : CredentialRecord) : Prop :=
  slice_list (bv_value (cr_ID record)) = slice_list (bv_value (cu_ID u)) ∧
  cr_SignCount record = cu_PreviousSignCount u ∧ cr_BackupState record = cu_PreviousBackupState u ∧
  cr_UVInitialized record = cu_PreviousUVInitialized u ∧
  cr_AuthenticatorAttachment record = cu_PreviousAuthenticatorAttachment u.

#[export] Instance update_matches_dec u record : Decision (update_matches u record).
Proof. unfold update_matches. apply _. Defined.

Lemma update_guard u record :
  negb (bv_Equal (cr_ID record) (cu_ID u)) || negb (cr_SignCount record =? cu_PreviousSignCount u)
    || negb (Bool.eqb (cr_BackupState record) (cu_PreviousBackupState u))
    || negb (Bool.eqb (cr_UVInitialized record) (cu_PreviousUVInitialized u))
    || negb (bool_decide (cr_AuthenticatorAttachment record = cu_PreviousAuthenticatorAttachment u)) = false
  ↔ update_matches u record.
Proof.
  unfold update_matches. rewrite !orb_false_iff, !negb_false_iff, bv_Equal_spec, Z.eqb_eq, !eqb_true_iff, bool_decide_eq_true.
  tauto.
Qed.

Lemma ApplyTo_conflict u record : record_valid record → ¬ update_matches u record →
  ApplyTo u record = Err ErrCredentialUpdateConflict.
Proof.
  intros Hv Hm. unfold ApplyTo. rewrite (proj2 (CredentialRecord_Validate_Ok _ ()) Hv). run.
  rewrite <-update_guard, not_false_iff_true in Hm. by rewrite Hm.
Qed.

Lemma compareCounters_spec old new : let c := compareCounters old new in
  cn_Stored c = old ∧ cn_New c = new ∧ (cn_CloneRisk c = true ↔ new <= old ∧ ¬ (old = 0 ∧ new = 0)) ∧
  (cn_Status c = CounterStatusIncremented ↔ old < new).
Proof.
  unfold compareCounters. destruct (Z.eqb_spec old 0), (Z.eqb_spec new 0), (Z.ltb_spec old new); cbn;
    split_and!; try done; split; (done || lia).
Qed.

Section ResultLemmas.
Context {Ord : MapOrder} {Custom : CustomTypes} {RT : Runtime}.

Lemma with_mutable_valid record next : record_valid record →
  (cr_BackupState next = true → cr_BackupEligible record = true) →
  (cr_AuthenticatorAttachment next ≠ "" → AuthenticatorAttachment_Known (cr_AuthenticatorAttachment next) = true) →
  record_valid (with_mutable record next).
Proof. intros (? & ? & ? & ? & ? & _ & _ & ?) Hb Ha. unfold record_valid, with_mutable. cbn. done. Qed.

(** The mutable fields of a result are admissible for any record with the
    stored backup eligibility. *)
Lemma verified_with_mutable_valid ctx options r current : authentication_verified ctx options r →
  record_valid current → cr_BackupEligible current = cr_BackupEligible (afo_Credential options) →
  record_valid (with_mutable current (ares_Credential r)).
Proof.
  intros ((Hrec & _) & _ & _ & _ & _ & _ & parsed & ext & Had & _ & _ & _ & Hr) Hv He.
  destruct Had as (_ & _ & _ & _ & _ & Hbs & Hbe). apply with_mutable_valid; [done| |].
  - rewrite Hr, He, <-Hbe. cbn. apply Hbs.
  - rewrite Hr. cbn. destruct Hrec as (_ & _ & _ & _ & _ & _ & Ha & _).
    set (att := normalizeAuthenticatorAttachment (ar_AuthenticatorAttachment (afo_Response options))).
    destruct (bool_decide (att = "")) eqn:E; cbn; [done|]. intros _. subst att. revert E.
    unfold normalizeAuthenticatorAttachment.
    destruct (AuthenticatorAttachment_Known (ar_AuthenticatorAttachment (afo_Response options))) eqn:E; [by intros _|discriminate].
Qed.

(** A field is written only when it changes, which is no different from
    writing it always. *)
Lemma changed_Z (x y : Z) : (if negb (x =? y) then x else y) = x.
Proof. by destruct (Z.eqb_spec x y). Qed.
Lemma changed_bool (x y : bool) : (if negb (Bool.eqb x y) then x else y) = x.
Proof. by destruct x, y. Qed.
Lemma changed_string (x y : string) : (if negb (bool_decide (x = y)) then x else y) = x.
Proof. by case_bool_decide. Qed.

Lemma verified_update ctx options r : authentication_verified ctx options r →
  cu_ID (ares_Update r) = cr_ID (afo_Credential options) ∧
  (∀ record, update_matches (ares_Update r) record ↔
     slice_list (bv_value (cr_ID record)) = slice_list (bv_value (cr_ID (afo_Credential options))) ∧
     same_mutable record (afo_Credential options)) ∧
  (∀ record, same_mutable record (afo_Credential options) →
   (if cu_SignCountChanged (ares_Update r) then cu_SignCount (ares_Update r) else cr_SignCount record) = cr_SignCount (ares_Credential r) ∧
   (if cu_BackupStateChanged (ares_Update r) then cu_BackupState (ares_Update r) else cr_BackupState record) = cr_BackupState (ares_Credential r) ∧
   (if cu_UVInitializedChanged (ares_Update r) then cu_UVInitialized (ares_Update r) else cr_UVInitialized record) = cr_UVInitialized (ares_Credential r) ∧
   (if cu_AuthenticatorAttachmentChanged (ares_Update r) then cu_AuthenticatorAttachment (ares_Update r)
    else cr_AuthenticatorAttachment record) = cr_AuthenticatorAttachment (ares_Credential r)).
Proof.
  intros (_ & _ & _ & _ & _ & _ & parsed & ext & _ & _ & _ & _ & Hr). rewrite Hr. unfold update_matches, same_mutable, authenticationResult.
  cbn -[CredentialRecord_Clone]. rewrite CredentialRecord_Clone_id. split; [done|]. split; [done|].
  intros record (-> & -> & -> & ->). split_and!; [apply changed_Z|apply changed_bool|apply changed_bool|apply changed_string].
Qed.

(** [CredentialRecord.Validate] of a valid record that gets admissible mutable
    fields can fail on the backup flags only. *)
Lemma with_mutable_Validate record next : record_valid record →
  (cr_AuthenticatorAttachment next ≠ "" → AuthenticatorAttachment_Known (cr_AuthenticatorAttachment next) = true) →
  CredentialRecord_Validate (with_mutable record next) =
    if cr_BackupState next && negb (cr_BackupEligible record)
    then Err (ErrorWrap ErrInvalidCredentialRecord ErrInvalidBackupState) else Ok ().
Proof.
  intros Hv Ha. destruct (cr_BackupState next && negb (cr_BackupEligible record)) eqn:Hb.
  - destruct Hv as (Ht & Hi & Hu & Hr & Hk & _). unfold CredentialRecord_Validate, with_mutable. cbn -[PublicKeyCredentialType_Validate].
    rewrite (proj2 (PublicKeyCredentialType_Validate_Ok _ ()) Ht). rewrite <-bv_len_0, <-Z.eqb_neq in Hi, Hu.
    rewrite Hi, Hu, (bool_decide_eq_false_2 (cr_RPID record = "")) by done. run. rewrite Hk. run. by rewrite Hb.
  - apply CredentialRecord_Validate_Ok. apply with_mutable_valid; [done| |done].
    intros Hs. rewrite Hs in Hb. by apply negb_false_iff in Hb.
Qed.

Lemma verified_attachment ctx options r : authentication_verified ctx options r →
  cr_AuthenticatorAttachment (ares_Credential r) ≠ "" →
  AuthenticatorAttachment_Known (cr_AuthenticatorAttachment (ares_Credential r)) = true.
Proof.
  intros H. pose proof (proj1 (proj1 H)) as Hv.
  by destruct (verified_with_mutable_valid _ _ _ _ H Hv eq_refl) as (_ & _ & _ & _ & _ & _ & Ha & _).
Qed.

(** [ApplyTo] on the update of a verified authentication, for any record. *)
Lemma verified_apply_any ctx options r current : authentication_verified ctx options r →
  ApplyTo (ares_Update r) current =
    match CredentialRecord_Validate current with
    | Err e => Err e
    | Ok _ =>
      if decide (slice_list (bv_value (cr_ID current)) = slice_list (bv_value (cr_ID (afo_Credential options))) ∧
                 same_mutable current (afo_Credential options))
      then if cr_BackupState (ares_Credential r) && negb (cr_BackupEligible current)
           then Err (ErrorWrap ErrInvalidCredentialUpdate (ErrorWrap ErrInvalidCredentialRecord ErrInvalidBackupState))
           else Ok (with_mutable current (ares_Credential r))
      else Err ErrCredentialUpdateConflict
    end.
Proof.
  intros Hr. destruct (CredentialRecord_Validate current) as [[]|e] eqn:Hv; [|unfold ApplyTo; by rewrite Hv].
  apply CredentialRecord_Validate_Ok in Hv. destruct (verified_update _ _ _ Hr) as (_ & Hm & Hf).
  case_decide as Hd; [|apply ApplyTo_conflict; [done|by rewrite Hm]].
  unfold ApplyTo. rewrite (proj2 (CredentialRecord_Validate_Ok _ ()) Hv). run.
  rewrite (proj2 (update_guard _ _) (proj2 (Hm current) Hd)). run. rewrite CredentialRecord_Clone_id.
  destruct (Hf current (proj2 Hd)) as (-> & -> & -> & ->).
  change (mkCredentialRecord _ _ _ _ _ _ _ _ _ _ _ _ _) with (with_mutable current (ares_Credential r)).
  rewrite (with_mutable_Validate _ _ Hv (verified_attachment _ _ _ Hr)). by destruct (_ && _).
Qed.

Lemma verified_apply ctx options r current : authentication_verified ctx options r →
  record_valid current → cr_BackupEligible current = cr_BackupEligible (afo_Credential options) →
  ApplyTo (ares_Update r) current =
    if decide (slice_list (bv_value (cr_ID current)) = slice_list (bv_value (cr_ID (afo_Credential options))) ∧
               same_mutable current (afo_Credential options))
    then Ok (with_mutable current (ares_Credential r)) else Err ErrCredentialUpdateConflict.
Proof.
  intros Hr Hv He. rewrite (verified_apply_any _ _ _ _ Hr), (proj2 (CredentialRecord_Validate_Ok _ ()) Hv).
  destruct (verified_with_mutable_valid _ _ _ _ Hr Hv He) as (_ & _ & _ & _ & _ & Hb & _). cbn in Hb.
  case_decide; [|done]. destruct (cr_BackupState (ares_Credential r)); [|done]. by rewrite Hb.
Qed.

(** Applied to the record that was verified, the update gives the returned one. *)
Lemma verified_apply_self ctx options r : authentication_verified ctx options r →
  ApplyTo (ares_Update r) (afo_Credential options) = Ok (ares_Credential r).
Proof.
  intros H. rewrite (verified_apply _ _ _ _ H (proj1 (proj1 H)) eq_refl). rewrite decide_True by done.
  destruct H as (_ & _ & _ & _ & _ & _ & parsed & ext & _ & _ & _ & _ & Hr). rewrite Hr. reflexivity.
Qed.
End ResultLemmas.

(** ** A sample ceremony *)

#[local] Existing Instance no_custom_types.
#[local] Existing Instance default_order.
#[local] Existing Instance sample_runtime.

Definition sample_record (eligible : bool) : CredentialRecord := {|
  cr_Type := CredentialTypePublicKey; cr_ID := mkByteValue (Some [x0a; x0b]); cr_PublicKey := sample_key;
  cr_UserHandle := mkByteValue (Some [x07]); cr_RPID := "example.com"; cr_AAGUID := replicate 16 x00; cr_SignCount := 4;
  cr_Transports := ["internal"]; cr_BackupEligible := eligible; cr_BackupState := false; cr_UVInitialized := false;
  cr_AuthenticatorAttachment := ""; cr_AttestationType := TypeNone |}.

Definition sample_credential : CredentialRecord := sample_record false.

Definition sample_auth_start : AuthenticationStartOptions := {|
  aso_RPID := "example.com"; aso_OriginPolicy := example_policy; aso_Challenge := zeroByteValue;
  aso_ChallengeGenerator := NilIface; aso_Timeout := 0; aso_StateTTL := 0;
  aso_AllowCredentials := [Descriptor sample_credential]; aso_UserVerification := "required"; aso_Hints := [];
  aso_Extensions := ∅; aso_ExtensionRegistry := None; aso_ExtensionInputPolicy := mkInputPolicy false;
  aso_ExpectedUserHandle := zeroByteValue; aso_Now := None |}.

Definition sample_auth_state : AuthenticationState := {|
  as_Challenge := mkByteValue (Some (replicate 32 x00)); as_RPID := "example.com"; as_OriginPolicy := example_policy;
  as_RequestedUserVerification := UserVerificationRequired; as_RequestedExtensions := ∅; as_ExtensionBindings := [];
  as_AllowCredentials := [Descriptor sample_credential]; as_ExpectedUserHandle := zeroByteValue;
  as_ExpiresAt := 600000000001 |}.

Lemma sample_auth_start_Ok : ∃ r, StartAuthentication None sample_auth_start = Ok r ∧ asr_State r = sample_auth_state.
Proof. eexists. split; [vm_compute; reflexivity|]. vm_compute. reflexivity. Qed.

(** The rest of the sample depends on the RP ID hash [h] and on whether the
    credential is eligible for backup (and then reported as backed up). *)
Section Sample.
Context (eligible : bool) (h : list byte).

Definition backup_flags : byte := if eligible then x1d else x05.

Definition backup_assertion : AuthenticationResponse := {|
  ar_Type := CredentialTypePublicKey; ar_RawID := mkByteValue (Some [x0a; x0b]);
  ar_ClientDataJSON := mkByteValue (Some (object_text
    (ceremony_members ClientDataTypeGet "https://example.com" (replicate 32 x00) false)));
  ar_AuthenticatorData := mkByteValue (Some (encodeAuthData h backup_flags 9 None None)); ar_Signature := mkByteValue (Some [x30]);
  ar_UserHandle := mkByteValue (Some [x07]); ar_AuthenticatorAttachment := "platform"; ar_ClientExtensionResults := ∅ |}.

Definition backup_auth_finish : AuthenticationFinishOptions := {|
  afo_State := sample_auth_state; afo_Response := backup_assertion; afo_Credential := sample_record eligible;
  afo_ExtensionMapDecoder := NilIface; afo_SignatureVerifier := Iface (λ _ _, Ok ()); afo_AlgorithmPolicy := NilIface;
  afo_ExtensionRegistry := None; afo_ExtensionPolicy := mkAuthenticationPolicy true true "";
  afo_CounterPolicy := mkCounterPolicy true false; afo_UVInitializationAuthorized := true; afo_Now := Some 2 |}.

Definition backup_auth_parsed : ParsedAuthenticatorData :=
  mkParsed (ar_AuthenticatorData backup_assertion) h backup_flags 9 None None.

Definition backup_auth_result : AuthenticationResult :=
  authenticationResult backup_auth_finish backup_auth_parsed (compareCounters 4 9) [].

End Sample.

#[local] Ltac by_flags := match goal with e : bool |- _ => destruct e end; first [reflexivity | intros _; reflexivity | intros [=]].

Lemma backup_assertion_parsed eligible h : h = Sum256 (bytes_of_string (as_RPID sample_auth_state)) →
  authentication_authdata (backup_auth_finish eligible h) (backup_auth_parsed eligible h).
Proof.
  intros Hh. split; [|split; [by_flags|split; [|split; [by_flags|split; [by_flags|split; by_flags]]]]].
  - apply parse_authdata_complete; [|by_flags|by_flags].
    split; [cbn [RPIDHash backup_auth_parsed]; rewrite Hh; apply length_Sum256|].
    split; [vm_compute; split; congruence|]. split; [by_flags|]. split; by_flags.
  - left. split; [discriminate|exact Hh].
Qed.

Lemma backup_assertion_client_data eligible h :
  client_data_verified (ar_ClientDataJSON (backup_assertion eligible h)) ClientDataTypeGet (as_Challenge sample_auth_state) example_policy.
Proof.
  eexists. split; [vm_compute; reflexivity|]. split_and!; try reflexivity; [|done].
  cbn [cd_Origin]. by left.
Qed.

Lemma backup_auth_finish_Ok eligible h : h = Sum256 (bytes_of_string (as_RPID sample_auth_state)) →
  FinishAuthentication None (backup_auth_finish eligible h) = Ok (backup_auth_result eligible h).
Proof.
  intros Hh. apply FinishAuthentication_complete. split; [|split; [|split; [|split; [apply backup_assertion_client_data|]]]].
  - split; [apply (CredentialRecord_Validate_Ok _ ()); vm_compute; reflexivity|]. split; [reflexivity|].
    split; [reflexivity|]. split; [vm_compute; reflexivity|]. split; [vm_compute; reflexivity|].
    split; [reflexivity|]. split; [discriminate|]. split; [discriminate|]. split; [discriminate|].
    split; [discriminate|reflexivity].
  - split; [discriminate|]. split; [reflexivity|]. split; [reflexivity|]. right.
    exists (Descriptor sample_credential). split; [by left|reflexivity].
  - split; [discriminate|reflexivity].
  - split; [by left|]. split; [eexists; split; reflexivity|]. exists (backup_auth_parsed eligible h), ∅.
    split; [exact (backup_assertion_parsed _ _ Hh)|]. split; [by_flags|]. split; [by_flags|]. split; by_flags.
Qed.

Definition sample_assertion := backup_assertion false.
Definition sample_auth_finish := backup_auth_finish false.
Definition sample_auth_parsed := backup_auth_parsed false.
Definition sample_auth_result := backup_auth_result false.

Lemma sample_assertion_parsed h : h = Sum256 (bytes_of_string (as_RPID sample_auth_state)) →
  authentication_authdata (sample_auth_finish h) (sample_auth_parsed h).
Proof. apply backup_assertion_parsed. Qed.

Lemma sample_assertion_client_data h :
  client_data_verified (ar_ClientDataJSON (sample_assertion h)) ClientDataTypeGet (as_Challenge sample_auth_state) example_policy.
Proof. apply backup_assertion_client_data. Qed.

Lemma sample_auth_finish_Ok h : h = Sum256 (bytes_of_string (as_RPID sample_auth_state)) →
  FinishAuthentication None (sample_auth_finish h) = Ok (sample_auth_result h).
Proof. apply backup_auth_finish_Ok. Qed.

(** ** Properties *)

(** C1: authentication finishes successfully exactly when the assertion meets
    the specification of the ceremony ([authentication_verified]): valid
    unexpired state, an assertion for the stored credential of this relying
    party (and of the allow list) and of the right account, client data for this
    challenge, ceremony type and origin, authenticator data with the expected RP
    ID hash, user presence, the required user verification and unchanged backup
    eligibility, an accepted algorithm, a valid signature of the stored key over
    exactly the received authenticator data followed by the SHA-256 of the
    received client data, a counter the policy accepts, and verified
    extensions. *)
Theorem authentication_refines_spec {Ord : MapOrder} {Custom : CustomTypes} {RT : Runtime}
    (ctx : option context) (options : AuthenticationFinishOptions) (r : AuthenticationResult) :
  FinishAuthentication ctx options = Ok r ↔ authentication_verified (default background ctx) options r.
Proof. split; [apply FinishAuthentication_sound|apply FinishAuthentication_complete]. Qed.

(** C7: a started authentication is ready to be finished.  Its state passes the
    validation done at finish (with the same extension registry, the binding
    check too) and expires in the future.  It carries the caller's relying party,
    origin policy, expected user and allowed credentials, the caller's challenge
    when one is given, and the requested user verification (preferred by
    default); and the options sent to the browser carry the same challenge,
    relying party, allowed credentials, user verification and extension inputs,
    each extension input being the caller's as normalized by its handler.  The
    registry is one the constructor can build ([registry_wf]), the handler it has
    for largeBlob, if any, is the library's, and the clock is not negative. *)
Theorem authentication_start_ready {Ord : MapOrder} {Custom : CustomTypes} {RT : Runtime} ctx options r
    (Hwf : registry_wf (aso_ExtensionRegistry options)) (Hstd : standard_large_blob (aso_ExtensionRegistry options))
    (Hnow : 0 <= aso_now options) (H : StartAuthentication ctx options = Ok r) :
  authentication_started options r.
Proof. by eapply StartAuthentication_Ok. Qed.

(** A request to read the large blob of the credential. *)
Definition blob_registry : Registry :=
  match NewRegistry [Some (Register (Iface LargeBlobHandler))] with Ok r => r | Err _ => None end.

Definition blob_start : AuthenticationStartOptions := {|
  aso_RPID := "example.com"; aso_OriginPolicy := example_policy; aso_Challenge := zeroByteValue;
  aso_ChallengeGenerator := NilIface; aso_Timeout := 0; aso_StateTTL := 0;
  aso_AllowCredentials := [Descriptor sample_credential]; aso_UserVerification := ""; aso_Hints := [];
  aso_Extensions := {[ IDLargeBlob := VLargeBlobInput (mkLargeBlobInput "" (Some true) None) ]};
  aso_ExtensionRegistry := blob_registry; aso_ExtensionInputPolicy := mkInputPolicy true;
  aso_ExpectedUserHandle := cr_UserHandle sample_credential; aso_Now := None |}.

Lemma authentication_start_ready_witness :
  ∃ r, StartAuthentication None blob_start = Ok r ∧ authentication_started blob_start r ∧
    ro_Extensions (asr_Options r) = {[ IDLargeBlob := VLargeBlobInput (mkLargeBlobInput "" (Some true) None) ]}.
Proof.
  eexists. split; [vm_compute; reflexivity|]. split; [|reflexivity].
  apply (authentication_start_ready None blob_start).
  - apply (NewRegistry_wf [Some (Register (Iface LargeBlobHandler))]). reflexivity.
  - intros h [= <-]. reflexivity.
  - vm_compute. discriminate.
  - vm_compute. reflexivity.
Defined.

(** C3: the conditional update of a successful authentication is a
    compare-and-set on the mutable fields.  Applied to the record that was
    verified it gives exactly the returned record.  Applied to whatever record is
    stored by then it returns the validation error of an invalid record; refuses
    as a conflict a record whose ID or mutable fields are no longer the verified
    ones; refuses as an invalid update a record that would become backed up
    without being eligible for backup; and otherwise writes exactly the four
    mutable fields of the returned record. *)
Theorem update_is_compare_and_set {Ord : MapOrder} {Custom : CustomTypes} {RT : Runtime} ctx options r
    (H : FinishAuthentication ctx options = Ok r) :
  ApplyTo (ares_Update r) (afo_Credential options) = Ok (ares_Credential r) ∧
  ∀ current,
    ApplyTo (ares_Update r) current =
      match CredentialRecord_Validate current with
      | Err e => Err e
      | Ok _ =>
        if decide (slice_list (bv_value (cr_ID current)) = slice_list (bv_value (cr_ID (afo_Credential options))) ∧
                   same_mutable current (afo_Credential options))
        then if cr_BackupState (ares_Credential r) && negb (cr_BackupEligible current)
             then Err (ErrorWrap ErrInvalidCredentialUpdate (ErrorWrap ErrInvalidCredentialRecord ErrInvalidBackupState))
             else Ok (with_mutable current (ares_Credential r))
        else Err ErrCredentialUpdateConflict
      end.
Proof.
  apply FinishAuthentication_sound in H. split; [by eapply verified_apply_self|by intros; eapply verified_apply_any].
Qed.

(** The update of a credential reported as backed up: applied to the verified
    record, applied a second time, to an inconsistent record and to one that is
    not eligible for backup. *)
Lemma update_is_compare_and_set_witness :
  let h := Sum256 (bytes_of_string (as_RPID sample_auth_state)) in
  let r := backup_auth_result true h in
  ApplyTo (ares_Update r) (sample_record true) = Ok (ares_Credential r) ∧
  ApplyTo (ares_Update r) (ares_Credential r) = Err ErrCredentialUpdateConflict ∧
  ApplyTo (ares_Update r) (with_mutable (sample_record false) (ares_Credential r)) =
    Err (ErrorWrap ErrInvalidCredentialRecord ErrInvalidBackupState) ∧
  ApplyTo (ares_Update r) (sample_record false) =
    Err (ErrorWrap ErrInvalidCredentialUpdate (ErrorWrap ErrInvalidCredentialRecord ErrInvalidBackupState)).
Proof.
  intros h r.
  destruct (update_is_compare_and_set None (backup_auth_finish true h) r (backup_auth_finish_Ok true h eq_refl)) as [Hs Ha].
  split; [exact Hs|]. split_and!; rewrite Ha; vm_compute; reflexivity.
Defined.

(** No lost update: of two authentications verified against the same
    stored record, once the first one's update has changed the record, the
    second one's is refused as a conflict. *)
Theorem concurrent_update_refused {Ord : MapOrder} {Custom : CustomTypes} {RT : Runtime}
    ctx1 options1 r1 ctx2 options2 r2 stored'
    (H1 : FinishAuthentication ctx1 options1 = Ok r1) (H2 : FinishAuthentication ctx2 options2 = Ok r2)
    (Hsame : afo_Credential options2 = afo_Credential options1)
    (Happly : ApplyTo (ares_Update r1) (afo_Credential options1) = Ok stored') (Hchanged : stored' ≠ afo_Credential options1) :
  ApplyTo (ares_Update r2) stored' = Err ErrCredentialUpdateConflict.
Proof.
  apply FinishAuthentication_sound in H1, H2. pose proof (proj1 (proj1 H1)) as Hrec.
  rewrite (verified_apply _ _ _ _ H1 Hrec eq_refl), decide_True in Happly by done. injection Happly as <-.
  pose proof (verified_with_mutable_valid _ _ _ _ H1 Hrec eq_refl) as Hv.
  rewrite (verified_apply _ _ _ _ H2 Hv) by (by rewrite Hsame). rewrite decide_False; [done|].
  intros [_ Hm]. apply Hchanged, with_mutable_same. rewrite Hsame in Hm. exact Hm.
Qed.

Lemma concurrent_update_refused_witness :
  let h := Sum256 (bytes_of_string (as_RPID sample_auth_state)) in
  ApplyTo (ares_Update (sample_auth_result h)) (ares_Credential (sample_auth_result h)) = Err ErrCredentialUpdateConflict.
Proof.
  intros h. pose proof (sample_auth_finish_Ok h eq_refl) as H.
  apply (concurrent_update_refused None (sample_auth_finish h) (sample_auth_result h) None (sample_auth_finish h)
    (sample_auth_result h) _ H H eq_refl).
  - reflexivity.
  - intros Heq. apply (f_equal cr_SignCount) in Heq. vm_compute in Heq. discriminate.
Defined.

(** C4: the signature counter: the status compares the stored counter with the
    32-bit counter of the signed data; without clone risk the new counter is
    stored; with clone risk (a counter that did not increase, although one of
    the two is non-zero) the ceremony fails under the reject policy, the stored
    counter is kept by default and replaced only under the update policy, and a
    warning is reported. *)
Theorem sign_counter_policy {Ord : MapOrder} {Custom : CustomTypes} {RT : Runtime} ctx options r
    (H : FinishAuthentication ctx options = Ok r) :
  let stored := cr_SignCount (afo_Credential options) in
  let new := cn_New (ares_Counter r) in
  let risk := (new <= stored)%Z ∧ ¬ (stored = 0 ∧ new = 0) in
  cn_Stored (ares_Counter r) = stored ∧ 0 <= new < 2 ^ 32 ∧
  (cn_CloneRisk (ares_Counter r) = true ↔ risk) ∧
  (risk → RejectCloneRisk (afo_CounterPolicy options) = false ∧ ares_Warnings r = [ErrCloneRisk_Error] ∧
          cr_SignCount (ares_Credential r) = if UpdateOnCloneRisk (afo_CounterPolicy options) then new else stored) ∧
  (¬ risk → cr_SignCount (ares_Credential r) = new ∧ ares_Warnings r = [] ∧ (stored = 0 ∧ new = 0 ∨ stored < new)).
Proof.
  apply FinishAuthentication_sound in H as (_ & _ & _ & _ & _ & _ & parsed & ext & Had & _ & Hrej & _ & Hr).
  destruct Had as (Hp & _). apply parse_authdata_sound in Hp as ((_ & Hsc & _) & _). rewrite Hr.
  unfold authenticationResult, authenticationWarnings. cbn [ares_Counter ares_Warnings ares_Credential cr_SignCount].
  set (old := cr_SignCount (afo_Credential options)) in *. set (new := pad_SignCount parsed) in *.
  destruct (compareCounters_spec old new) as (H1 & H2 & H3 & H4). rewrite H2. split; [done|]. split; [done|]. split; [done|].
  split; intros Hrisk.
  - assert (cn_CloneRisk (compareCounters old new) = true) as Hc by (by apply H3). rewrite Hc in *.
    rewrite bool_decide_eq_false_2 by (rewrite H4; lia). cbn [orb andb]. split; [|done].
    destruct (RejectCloneRisk _); [by specialize (Hrej eq_refl)|done].
  - assert (cn_CloneRisk (compareCounters old new) = false) as -> by (apply not_true_iff_false; by rewrite H3).
    rewrite andb_false_l, orb_false_r. assert (old = 0 ∧ new = 0 ∨ old < new) as Hor by lia.
    split; [|done]. case_bool_decide as E; [done|]. rewrite H4 in E. lia.
Qed.

Lemma sign_counter_policy_witness :
  let h := Sum256 (bytes_of_string (as_RPID sample_auth_state)) in
  cr_SignCount (ares_Credential (sample_auth_result h)) = 9.
Proof.
  intros h. pose proof (sign_counter_policy None (sample_auth_finish h) (sample_auth_result h)
    (sample_auth_finish_Ok h eq_refl)) as (_ & _ & _ & _ & Hc).
  apply Hc. intros [Hle _]. vm_compute in Hle. by apply Hle.
Defined.

(** C8: the account and the flags a successful authentication reports: the
    authenticated user is the owner of the stored credential, and is the
    expected user when the ceremony names one and the user the authenticator
    reported otherwise; user presence always holds, user verification when it
    was required; the stored UV flag is set only by a verified user with the
    caller's authorization, is never cleared, and is reported as pending when
    only the authorization is missing. *)
Theorem authenticated_account {Ord : MapOrder} {Custom : CustomTypes} {RT : Runtime} ctx options r
    (H : FinishAuthentication ctx options = Ok r) :
  let expected := slice_list (bv_value (as_ExpectedUserHandle (afo_State options))) in
  let stored := afo_Credential options in
  ares_AuthenticatedAs r = cr_UserHandle stored ∧ slice_list (bv_value (ares_AuthenticatedAs r)) ≠ [] ∧
  slice_list (bv_value (ares_AuthenticatedAs r)) =
    (if decide (expected = []) then slice_list (bv_value (ar_UserHandle (afo_Response options))) else expected) ∧
  ares_UserPresent r = true ∧
  (as_RequestedUserVerification (afo_State options) = UserVerificationRequired → ares_UserVerified r = true) ∧
  cr_UVInitialized (ares_Credential r) =
    cr_UVInitialized stored || (ares_UserVerified r && afo_UVInitializationAuthorized options) ∧
  (ares_UVInitializationPending r = true ↔
   ares_UserVerified r = true ∧ cr_UVInitialized (ares_Credential r) = false ∧
   afo_UVInitializationAuthorized options = false).
Proof.
  apply FinishAuthentication_sound in H as ((Hrec & _) & _ & Hub & _ & _ & _ & parsed & ext & Had & _ & _ & _ & Hr).
  destruct Had as (_ & _ & _ & Hup & Huv & _). intros expected stored.
  assert (ares_AuthenticatedAs r = cr_UserHandle stored) as Has by (rewrite Hr; done).
  split; [done|]. rewrite Has. split; [apply Hrec|]. split.
  { unfold user_bound in Hub. fold expected stored in Hub. case_decide; [by destruct Hub as [_ ->]|by apply Hub]. }
  rewrite Hr. cbn. rewrite Hup. split; [done|]. split; [exact Huv|]. subst stored.
  destruct (cr_UVInitialized (afo_Credential options)), (UserVerified (Flags parsed)), (afo_UVInitializationAuthorized options);
    cbn; split; try done; split; try done; by intros (? & ? & ?).
Qed.

Lemma authenticated_account_witness :
  let h := Sum256 (bytes_of_string (as_RPID sample_auth_state)) in
  ares_AuthenticatedAs (sample_auth_result h) = mkByteValue (Some [x07]) ∧
  cr_UVInitialized (ares_Credential (sample_auth_result h)) = true.
Proof.
  intros h. pose proof (authenticated_account None (sample_auth_finish h) (sample_auth_result h)
    (sample_auth_finish_Ok h eq_refl)) as (Has & _ & _ & _ & _ & Huv & _).
  split; [exact Has|exact Huv].
Defined.
