(* ===== verification/RelyingParty.v ===== *)
(** * The relying party facade

    Models [src/config.go] ([New] and [validateConfig]) and
    [src/relying_party.go]: reusable validated configuration, from which the
    four ceremony operations are called, and the agreement between stored state
    and configuration that the finish operations demand.

    A callback of the configuration runs when a ceremony calls it, so the clock
    and the challenge generator are functions of the run-time of that call. *)
From S2P Require Import Prelude GoStrings AuthData ClientData Origin ExtValue Types Extension ExtHandlers Attestation Ceremony ExtVerify State Registration Authentication.
Set Default Goal Selector "!".
Local Open Scope Z_scope.

Record RegistrationConfig := mkRegistrationConfig {
  rc_AuthenticatorSelection : option AuthenticatorSelectionCriteria;
  rc_Attestation : string;
  rc_AttestationFormats : list string;
  rc_ExtensionInputPolicy : ExtensionInputPolicy;
  rc_ExtensionPolicy : RegistrationExtensionPolicy;
}.

Record AuthenticationConfig := mkAuthenticationConfig {
  ac_UserVerification : string;
  ac_ExtensionInputPolicy : ExtensionInputPolicy;
  ac_ExtensionPolicy : AuthenticationExtensionPolicy;
  ac_CounterPolicy : CounterPolicy;
}.

Record Config := mkConfig {
  c_RP : RPEntity;
  c_OriginPolicy : OriginPolicy;
  c_PubKeyCredParams : list CredentialParameter;
  c_AttestationObjectDecoder : AttestationObjectDecoder;
  c_CredentialPublicKeyDecoder : COSEKeyDecoder;
  c_ExtensionMapDecoder : ExtensionMapDecoder;
  c_SignatureVerifier : SignatureVerifier;
  c_AlgorithmPolicy : AlgorithmPolicy;
  c_AttestationRegistry : attRegistry;
  c_AttestationTrustPolicy : TrustPolicy;
  c_ExtensionRegistry : Registry;
  c_Registration : RegistrationConfig;
  c_Authentication : AuthenticationConfig;
  c_Timeout : Z;
  c_StateTTL : Z;
  c_ChallengeGenerator : iface (Runtime → context → result Challenge);
  c_Now : option (Runtime → Z);
}.

(** A [*RelyingParty] is an option of this record. *)
Record RelyingParty := mkRelyingParty { rp_config : Config; rp_algorithms : list Z; rp_ready : bool }.

Record RegistrationRequest := mkRegistrationRequest {
  rq_User : UserEntity;
  rq_ExcludeCredentials : list CredentialDescriptor;
  rq_Extensions : ExtensionInputs;
  rq_Hints : list string;
  rq_ConditionalMediation : bool;
}.

Record AuthenticationRequest := mkAuthenticationRequest {
  aq_AllowCredentials : list CredentialDescriptor;
  aq_ExpectedUserHandle : UserHandle;
  aq_Extensions : ExtensionInputs;
  aq_Hints : list string;
}.

Record RegistrationVerification := mkRegistrationVerification {
  rv_State : RegistrationState; rv_Response : RegistrationResponse }.

Record AuthenticationVerification := mkAuthenticationVerification {
  av_State : AuthenticationState;
  av_Response : AuthenticationResponse;
  av_Credential : CredentialRecord;
  av_UVInitializationAuthorized : bool;
}.

(** ** Configuration *)

(** The zero values of the fields a partial composite literal leaves out. *)
Definition zeroOriginPolicy : OriginPolicy :=
  {| AllowedOrigins := []; AllowedTopOrigins := []; AllowCrossOriginWithoutTopOrigin := false; AllowRelatedOrigins := false |}.
Definition zeroRegistrationState : RegistrationState :=
  mkRegistrationState zeroByteValue "" zeroOriginPolicy false zeroByteValue "" ∅ [] [] "" 0.
Definition zeroRegistrationResponse : RegistrationResponse :=
  mkRegistrationResponse "" zeroByteValue zeroByteValue zeroByteValue zeroByteValue 0 [] "" ∅.

Definition validateConfig (c : Config) : result () :=
  _ ← RPEntity_Validate (c_RP c);
  _ ← validateOriginPolicy (c_OriginPolicy c);
  _ ← validateRPIDOriginPolicy (rp_ID (c_RP c)) (c_OriginPolicy c);
  _ ← timeoutState (c_Timeout c) (c_StateTTL c) 0;
  _ ← validateFinishDependencies
        (mkRegistrationFinish zeroRegistrationState zeroRegistrationResponse (c_AttestationObjectDecoder c)
           (c_CredentialPublicKeyDecoder c) NilIface (c_AttestationRegistry c) (c_AttestationTrustPolicy c) None
           (mkRegistrationPolicy false false) None);
  _ ← for_each (λ '(name, isNil), fail_if isNil (ErrorText (ErrorNew name) "is required"))
        [("extension map decoder", IsNil (c_ExtensionMapDecoder c)); ("signature verifier", IsNil (c_SignatureVerifier c));
         ("algorithm policy", IsNil (c_AlgorithmPolicy c)); ("attestation trust policy", IsNil (c_AttestationTrustPolicy c));
         ("challenge generator", IsNil (c_ChallengeGenerator c))];
  _ ← AuthenticatorSelectionCriteria_Validate (rc_AuthenticatorSelection (c_Registration c));
  _ ← validateUserVerification (ac_UserVerification (c_Authentication c));
  _ ← fail_if (negb (AttestationConveyancePreference_Known (rc_Attestation (c_Registration c))))
        (ValueError "attestation" (rc_Attestation (c_Registration c)));
  _ ← for_each (λ format, fail_if (negb (protocolidentifier_Valid format)) (ErrorNew "invalid attestation format preference"))
        (rc_AttestationFormats (c_Registration c));
  let counter := ac_CounterPolicy (c_Authentication c) in
  _ ← fail_if (RejectCloneRisk counter && UpdateOnCloneRisk counter) (ErrorNew "clone-risk policy cannot reject and update");
  for_each (λ parameter,
    match c_AlgorithmPolicy c with
    | Iface accepts => fail_if (negb (accepts (cp_Algorithm parameter))) ErrUnsupportedAlgorithm
    | _ => Err NilDereference
    end) (c_PubKeyCredParams c).

(** The defaults [New] fills in before it validates. *)
Definition normalizedConfig (config : Config) (parameters : list CredentialParameter) : Config :=
  let registration := c_Registration config in
  let authentication := c_Authentication config in
  {| c_RP := c_RP config;
     c_OriginPolicy := OriginPolicy_clone (c_OriginPolicy config);
     c_PubKeyCredParams := parameters;
     c_AttestationObjectDecoder := c_AttestationObjectDecoder config;
     c_CredentialPublicKeyDecoder := c_CredentialPublicKeyDecoder config;
     c_ExtensionMapDecoder := c_ExtensionMapDecoder config;
     c_SignatureVerifier := c_SignatureVerifier config;
     c_AlgorithmPolicy := c_AlgorithmPolicy config;
     c_AttestationRegistry := c_AttestationRegistry config;
     c_AttestationTrustPolicy := c_AttestationTrustPolicy config;
     c_ExtensionRegistry := c_ExtensionRegistry config;
     c_Registration := {|
       rc_AuthenticatorSelection :=
         match AuthenticatorSelectionCriteria_Clone (rc_AuthenticatorSelection registration) with
         | Some s =>
             Some (if bool_decide (sel_UserVerification s = "")
                   then mkSelection (sel_AuthenticatorAttachment s) (sel_ResidentKey s) (sel_RequireResidentKey s)
                          UserVerificationPreferred
                   else s)
         | None => None
         end;
       rc_Attestation := if bool_decide (rc_Attestation registration = "") then AttestationNone else rc_Attestation registration;
       rc_AttestationFormats := rc_AttestationFormats registration;
       rc_ExtensionInputPolicy := rc_ExtensionInputPolicy registration;
       rc_ExtensionPolicy := rc_ExtensionPolicy registration |};
     c_Authentication := {|
       ac_UserVerification := if bool_decide (ac_UserVerification authentication = "")
                              then UserVerificationPreferred else ac_UserVerification authentication;
       ac_ExtensionInputPolicy := ac_ExtensionInputPolicy authentication;
       ac_ExtensionPolicy := ac_ExtensionPolicy authentication;
       ac_CounterPolicy := ac_CounterPolicy authentication |};
     c_Timeout := if c_Timeout config =? 0 then DefaultBrowserTimeout else c_Timeout config;
     c_StateTTL := if c_StateTTL config =? 0 then DefaultChallengeTTL else c_StateTTL config;
     c_ChallengeGenerator :=
       match c_ChallengeGenerator config with
       | NilIface => Iface (λ rt ctx, GenerateChallenge (RT:=rt) (mkRandomGenerator NilIface 0) (Some ctx))
       | g => g
       end;
     c_Now := Some (match c_Now config with Some now => now | None => λ rt, time_Now (Runtime:=rt) end) |}.

Definition New (config : Config) : result RelyingParty :=
  parameters ← wrap_err ErrInvalidConfiguration (registrationCredentialParameters (c_PubKeyCredParams config));
  let config := normalizedConfig config parameters in
  _ ← wrap_err ErrInvalidConfiguration (validateConfig config);
  Ok (mkRelyingParty config (algorithmsFromParameters parameters) true).

(** ** Ceremony operations *)

Section Operations.
Context {Ord : MapOrder} {Custom : CustomTypes} {CE : CustomEvidence} {RT : Runtime}.

(** The receiver: [None] is a nil pointer. *)
Definition receiver (rp : option RelyingParty) : result RelyingParty :=
  match rp with
  | Some rp => if rp_ready rp then Ok rp else Err ErrInvalidConfiguration
  | None => Err ErrInvalidConfiguration
  end.

Definition ceremonyGenerator (c : Config) : ChallengeGenerator :=
  match c_ChallengeGenerator c with
  | NilIface => NilIface
  | TypedNil => TypedNil
  | Iface g => Iface (g RT)
  end.
Definition ceremonyNow (c : Config) : option Z := (λ now, now RT) <$> c_Now c.

Definition registrationStartOptions (c : Config) (request : RegistrationRequest) : RegistrationStartOptions := {|
  rso_RP := c_RP c; rso_User := rq_User request; rso_OriginPolicy := c_OriginPolicy c;
  rso_ConditionalMediation := rq_ConditionalMediation request; rso_Challenge := zeroByteValue;
  rso_ChallengeGenerator := ceremonyGenerator c; rso_PubKeyCredParams := c_PubKeyCredParams c;
  rso_Timeout := c_Timeout c; rso_StateTTL := c_StateTTL c; rso_ExcludeCredentials := rq_ExcludeCredentials request;
  rso_AuthenticatorSelection := rc_AuthenticatorSelection (c_Registration c); rso_Hints := rq_Hints request;
  rso_Attestation := rc_Attestation (c_Registration c); rso_AttestationFormats := rc_AttestationFormats (c_Registration c);
  rso_Extensions := rq_Extensions request; rso_ExtensionRegistry := c_ExtensionRegistry c;
  rso_ExtensionInputPolicy := rc_ExtensionInputPolicy (c_Registration c); rso_Now := ceremonyNow c |}.

Definition RelyingParty_StartRegistration (rp : option RelyingParty) (ctx : option context) (request : RegistrationRequest) :
    result RegistrationStartResult :=
  rp ← receiver rp;
  StartRegistration ctx (registrationStartOptions (rp_config rp) request).

Definition matchesOrigin (rp : RelyingParty) (id : string) (policy : OriginPolicy) : bool :=
  let c := rp_config rp in
  bool_decide (id = rp_ID (c_RP c)) && bool_decide (AllowedOrigins policy = AllowedOrigins (c_OriginPolicy c))
  && bool_decide (AllowedTopOrigins policy = AllowedTopOrigins (c_OriginPolicy c))
  && Bool.eqb (AllowRelatedOrigins policy) (AllowRelatedOrigins (c_OriginPolicy c))
  && Bool.eqb (AllowCrossOriginWithoutTopOrigin policy) (AllowCrossOriginWithoutTopOrigin (c_OriginPolicy c)).

Definition stateMismatch : error := ErrorText ErrInvalidCeremonyState "state does not match relying party configuration".

Definition registrationFinishOptions (c : Config) (request : RegistrationVerification) : RegistrationFinishOptions := {|
  rfo_State := rv_State request; rfo_Response := rv_Response request;
  rfo_AttestationObjectDecoder := c_AttestationObjectDecoder c;
  rfo_CredentialPublicKeyDecoder := c_CredentialPublicKeyDecoder c; rfo_ExtensionMapDecoder := c_ExtensionMapDecoder c;
  rfo_AttestationRegistry := c_AttestationRegistry c; rfo_AttestationTrustPolicy := c_AttestationTrustPolicy c;
  rfo_ExtensionRegistry := c_ExtensionRegistry c; rfo_ExtensionPolicy := rc_ExtensionPolicy (c_Registration c);
  rfo_Now := ceremonyNow c |}.

Definition RelyingParty_FinishRegistration (rp : option RelyingParty) (ctx : option context)
    (request : RegistrationVerification) : result RegistrationResult :=
  rp ← receiver rp;
  let c := rp_config rp in
  let s := rv_State request in
  _ ← fail_if (negb (matchesOrigin rp (rs_RPID s) (rs_OriginPolicy s))
               || negb (bool_decide (rs_RequestedUserVerification s =
                                     registrationUserVerification (rc_AuthenticatorSelection (c_Registration c))))
               || negb (bool_decide (rs_AllowedAlgorithms s = rp_algorithms rp))
               || negb (bool_decide (rs_Attestation s = rc_Attestation (c_Registration c)))) stateMismatch;
  FinishRegistration ctx (registrationFinishOptions c request).

Definition authenticationStartOptions (c : Config) (request : AuthenticationRequest) : AuthenticationStartOptions := {|
  aso_RPID := rp_ID (c_RP c); aso_OriginPolicy := c_OriginPolicy c; aso_Challenge := zeroByteValue;
  aso_ChallengeGenerator := ceremonyGenerator c; aso_Timeout := c_Timeout c; aso_StateTTL := c_StateTTL c;
  aso_AllowCredentials := aq_AllowCredentials request; aso_UserVerification := ac_UserVerification (c_Authentication c);
  aso_Hints := aq_Hints request; aso_Extensions := aq_Extensions request; aso_ExtensionRegistry := c_ExtensionRegistry c;
  aso_ExtensionInputPolicy := ac_ExtensionInputPolicy (c_Authentication c);
  aso_ExpectedUserHandle := aq_ExpectedUserHandle request; aso_Now := ceremonyNow c |}.

Definition RelyingParty_StartAuthentication (rp : option RelyingParty) (ctx : option context)
    (request : AuthenticationRequest) : result AuthenticationStartResult :=
  rp ← receiver rp;
  StartAuthentication ctx (authenticationStartOptions (rp_config rp) request).

Definition authenticationFinishOptions (c : Config) (request : AuthenticationVerification) : AuthenticationFinishOptions := {|
  afo_State := av_State request; afo_Response := av_Response request; afo_Credential := av_Credential request;
  afo_ExtensionMapDecoder := c_ExtensionMapDecoder c; afo_SignatureVerifier := c_SignatureVerifier c;
  afo_AlgorithmPolicy := c_AlgorithmPolicy c; afo_ExtensionRegistry := c_ExtensionRegistry c;
  afo_ExtensionPolicy := ac_ExtensionPolicy (c_Authentication c); afo_CounterPolicy := ac_CounterPolicy (c_Authentication c);
  afo_UVInitializationAuthorized := av_UVInitializationAuthorized request; afo_Now := ceremonyNow c |}.

Definition RelyingParty_FinishAuthentication (rp : option RelyingParty) (ctx : option context)
    (request : AuthenticationVerification) : result AuthenticationResult :=
  rp ← receiver rp;
  let c := rp_config rp in
  let s := av_State request in
  _ ← fail_if (negb (matchesOrigin rp (as_RPID s) (as_OriginPolicy s))
               || negb (bool_decide (as_RequestedUserVerification s = ac_UserVerification (c_Authentication c)))) stateMismatch;
  _ ← CredentialRecord_Validate (av_Credential request);
  _ ← fail_if (negb (bool_decide (pk_Algorithm (cr_PublicKey (av_Credential request)) ∈ rp_algorithms rp)))
        ErrUnsupportedAlgorithm;
  FinishAuthentication ctx (authenticationFinishOptions c request).
End Operations.

(** ** Lemmas *)

(** What [New] establishes once and for all. *)
Record rp_wf (rp : RelyingParty) : Prop := {
  wf_ready : rp_ready rp = true;
  wf_config : validateConfig (rp_config rp) = Ok ();
  wf_parameters : registrationCredentialParameters (c_PubKeyCredParams (rp_config rp)) = Ok (c_PubKeyCredParams (rp_config rp));
  wf_algorithms : rp_algorithms rp = cp_Algorithm <$> c_PubKeyCredParams (rp_config rp);
  wf_attestation : rc_Attestation (c_Registration (rp_config rp)) ≠ "";
  wf_verification : ac_UserVerification (c_Authentication (rp_config rp)) ≠ "";
  wf_selection : ∀ s, rc_AuthenticatorSelection (c_Registration (rp_config rp)) = Some s → sel_UserVerification s ≠ "";
}.

Lemma registrationCredentialParameters_idemp ps out :
  registrationCredentialParameters ps = Ok out → registrationCredentialParameters out = Ok out.
Proof.
  intros [Hne Hall]%registrationCredentialParameters_public. unfold registrationCredentialParameters.
  destruct out as [|p out]; [done|].
  assert (supportedParameters (p :: out) = Ok (p :: out)) as ->; [|done].
  apply supportedParameters_Ok. split.
  - eapply Forall_impl; [exact Hall|]. intros q [Ht Ha]. unfold CredentialParameter_Validate. rewrite Ht.
    by apply COSEAlgorithmIdentifier_Validate_Ok.
  - generalize (p :: out) Hall. clear. induction 1 as [|q l [Hq _] _ IH]; [done|]. by rewrite filter_cons_True, <-IH by done.
Qed.

Lemma New_wf config rp : New config = Ok rp → rp_wf rp.
Proof.
  unfold New. intros H. apply bind_Ok in H as (ps & Hps%wrap_err_Ok & H).
  apply bind_Ok in H as ([] & Hv%wrap_err_Ok & H). apply Ok_inj in H. subst rp.
  constructor; cbn [rp_ready rp_config rp_algorithms]; try done.
  - by eapply registrationCredentialParameters_idemp.
  - cbn. by case_bool_decide.
  - cbn. by case_bool_decide.
  - intros s. cbn. destruct (AuthenticatorSelectionCriteria_Clone _) as [s'|]; [|done]. intros [= <-].
    by case_bool_decide.
Qed.

(** Stored state that belongs to this relying party. *)
Definition registration_state_matches (rp : RelyingParty) (s : RegistrationState) : Prop :=
  rs_RPID s = rp_ID (c_RP (rp_config rp)) ∧ rs_OriginPolicy s = c_OriginPolicy (rp_config rp) ∧
  rs_RequestedUserVerification s = registrationUserVerification (rc_AuthenticatorSelection (c_Registration (rp_config rp))) ∧
  rs_AllowedAlgorithms s = rp_algorithms rp ∧ rs_Attestation s = rc_Attestation (c_Registration (rp_config rp)).

Definition authentication_state_matches (rp : RelyingParty) (s : AuthenticationState) : Prop :=
  as_RPID s = rp_ID (c_RP (rp_config rp)) ∧ as_OriginPolicy s = c_OriginPolicy (rp_config rp) ∧
  as_RequestedUserVerification s = ac_UserVerification (c_Authentication (rp_config rp)).

Lemma matchesOrigin_spec rp id policy :
  matchesOrigin rp id policy = true ↔ id = rp_ID (c_RP (rp_config rp)) ∧ policy = c_OriginPolicy (rp_config rp).
Proof.
  unfold matchesOrigin. rewrite !andb_true_iff, !bool_decide_eq_true, !eqb_true_iff.
  destruct policy, (c_OriginPolicy (rp_config rp)). cbn. split; [intros [[[[? ?] ?] ?] ?]; by subst|].
  intros [? [=]]. by subst.
Qed.

Section FacadeLemmas.
Context {Ord : MapOrder} {Custom : CustomTypes} {CE : CustomEvidence} {RT : Runtime}.

Lemma RelyingParty_StartRegistration_matches rp ctx request r : rp_wf rp →
  RelyingParty_StartRegistration (Some rp) ctx request = Ok r → registration_state_matches rp (rsr_State r).
Proof.
  intros [Hready _ Hps Halg Hatt _ _] H. unfold RelyingParty_StartRegistration, receiver in H. rewrite Hready in H.
  cbn [mbind result_bind] in H. unfold StartRegistration in H.
  do 5 apply bind_Ok in H as ([] & _ & H). apply bind_Ok in H as (ps & Hps'%wrap_err_Ok & H).
  cbn [rso_PubKeyCredParams registrationStartOptions] in Hps'. rewrite Hps in Hps'. apply Ok_inj in Hps'. subst ps.
  apply bind_Ok in H as (challenge & _ & H). apply bind_Ok in H as ([] & _ & H).
  apply bind_Ok in H as ([prepared bindings] & _ & H). apply bind_Ok in H as ([] & _ & H).
  apply bind_Ok in H as (optE & _ & H). apply bind_Ok in H as (stE & _ & H). apply bind_Ok in H as ([] & _ & H).
  apply bind_Ok in H as ([ms expires] & _ & H). apply bind_Ok in H as ([] & _ & H). apply Ok_inj in H. subst r.
  unfold registration_state_matches. cbn. rewrite OriginPolicy_clone_id, Halg. split_and!; try done.
  by rewrite bool_decide_eq_false_2.
Qed.

(** A started registration is for the user of the request. *)
Lemma StartRegistration_user ctx options r :
  StartRegistration ctx options = Ok r → rs_UserHandle (rsr_State r) = user_ID (rso_User options).
Proof.
  unfold StartRegistration. intros H.
  do 5 apply bind_Ok in H as ([] & _ & H). apply bind_Ok in H as (ps & _ & H).
  apply bind_Ok in H as (challenge & _ & H). apply bind_Ok in H as ([] & _ & H).
  apply bind_Ok in H as ([prepared bindings] & _ & H). apply bind_Ok in H as ([] & _ & H).
  apply bind_Ok in H as (optE & _ & H). apply bind_Ok in H as (stE & _ & H). apply bind_Ok in H as ([] & _ & H).
  apply bind_Ok in H as ([ms expires] & _ & H). apply bind_Ok in H as ([] & _ & H). apply Ok_inj in H. by subst r.
Qed.
Lemma started_user rp ctx request r :
  RelyingParty_StartRegistration rp ctx request = Ok r → rs_UserHandle (rsr_State r) = user_ID (rq_User request).
Proof. intros H. apply bind_Ok in H as (rp' & _ & H). exact (StartRegistration_user _ _ _ H). Qed.

Lemma RelyingParty_FinishRegistration_Ok rp ctx request r : rp_wf rp →
  RelyingParty_FinishRegistration (Some rp) ctx request = Ok r ↔
  registration_state_matches rp (rv_State request) ∧
  FinishRegistration ctx (registrationFinishOptions (rp_config rp) request) = Ok r.
Proof.
  intros [Hready _ _ _ _ _ _]. unfold RelyingParty_FinishRegistration, receiver. rewrite Hready. run.
  rewrite bind_Ok. unfold registration_state_matches. split.
  - intros ([] & Hm%fail_if_Ok & H). guards in Hm. rewrite matchesOrigin_spec in Hm. tauto.
  - intros [Hm H]. exists (). split; [|done]. apply fail_if_Ok.
    guards. rewrite matchesOrigin_spec. tauto.
Qed.

Lemma RelyingParty_StartAuthentication_matches rp ctx request r : rp_wf rp →
  RelyingParty_StartAuthentication (Some rp) ctx request = Ok r → authentication_state_matches rp (asr_State r).
Proof.
  intros [Hready _ _ _ _ Huv _] H. unfold RelyingParty_StartAuthentication, receiver in H. rewrite Hready in H.
  cbn [mbind result_bind] in H. unfold StartAuthentication in H.
  do 4 apply bind_Ok in H as ([] & _ & H). apply bind_Ok in H as (challenge & _ & H). apply bind_Ok in H as ([] & _ & H).
  apply bind_Ok in H as ([prepared bindings] & _ & H). do 2 apply bind_Ok in H as ([] & _ & H).
  apply bind_Ok in H as (optE & _ & H). apply bind_Ok in H as (stE & _ & H).
  apply bind_Ok in H as ([ms expires] & _ & H). apply bind_Ok in H as ([] & _ & H). apply Ok_inj in H. subst r.
  unfold authentication_state_matches. cbn. rewrite OriginPolicy_clone_id. split_and!; try done.
  by rewrite bool_decide_eq_false_2.
Qed.

Lemma RelyingParty_FinishAuthentication_Ok rp ctx request r : rp_wf rp →
  RelyingParty_FinishAuthentication (Some rp) ctx request = Ok r ↔
  authentication_state_matches rp (av_State request) ∧
  pk_Algorithm (cr_PublicKey (av_Credential request)) ∈ rp_algorithms rp ∧
  FinishAuthentication ctx (authenticationFinishOptions (rp_config rp) request) = Ok r.
Proof.
  intros [Hready _ _ _ _ _ _]. unfold RelyingParty_FinishAuthentication, receiver. rewrite Hready. run.
  unfold authentication_state_matches. split.
  - intros H. apply bind_Ok in H as ([] & Hm%fail_if_Ok & H). apply bind_Ok in H as ([] & _ & H).
    apply bind_Ok in H as ([] & Ha%fail_if_Ok%negb_false_iff%bool_decide_eq_true & H).
    guards in Hm. rewrite matchesOrigin_spec in Hm. tauto.
  - intros (Hm & Ha & H). rewrite bind_Ok. exists (). rewrite fail_if_Ok.
    guards. rewrite matchesOrigin_spec. split; [tauto|].
    apply FinishAuthentication_sound in H as Hs. destruct Hs as ((Hrec & _) & _). cbn in Hrec.
    rewrite (proj2 (CredentialRecord_Validate_Ok _ ()) Hrec). run.
    rewrite bool_decide_eq_true_2 by done. exact H.
Qed.

Lemma cloneExtensionInputs_empty : cloneExtensionInputs ∅ = Ok ∅.
Proof.
  unfold cloneExtensionInputs.
  assert (range_list (∅ : ExtensionInputs) = []) as ->; [|done].
  apply elem_of_nil_inv. intros [k v] H%elem_of_range_list. unfold ExtensionInputs in H. by rewrite lookup_empty in H.
Qed.

Lemma timeoutState_now t ttl now p : timeoutState t ttl 0 = Ok p → timeoutState t ttl now = Ok (p.1, now + p.2).
Proof.
  unfold timeoutState. intros H. apply bind_Ok in H as ([] & H1 & H). apply bind_Ok in H as ([] & H2 & H).
  apply bind_Ok in H as ([] & H3 & H). apply bind_Ok in H as ([] & H4 & H). apply Ok_inj in H. subst p.
  rewrite H1. run. rewrite H2. run. rewrite H3. run.
  rewrite H4. done.
Qed.

(** With validated selection criteria, the effective user verification is known. *)
Lemma selection_verification_known selection : AuthenticatorSelectionCriteria_Validate selection = Ok () →
  validateUserVerification (registrationUserVerification selection) = Ok ().
Proof.
  intros H. apply validateUserVerification_Ok. unfold registrationUserVerification. destruct selection as [s|]; [|done].
  unfold AuthenticatorSelectionCriteria_Validate in H. apply for_each_Ok in H. do 2 apply Forall_cons in H as [_ H].
  apply Forall_cons in H as [Hu%fail_if_Ok _]. case_bool_decide; [done|].
  by apply negb_false_iff in Hu.
Qed.

(** The checks of [validateConfig] that a start operation repeats. *)
Lemma validateConfig_Ok c : validateConfig c = Ok () →
  RPEntity_Validate (c_RP c) = Ok () ∧ validateOriginPolicy (c_OriginPolicy c) = Ok () ∧
  validateRPIDOriginPolicy (rp_ID (c_RP c)) (c_OriginPolicy c) = Ok () ∧
  (∃ p, timeoutState (c_Timeout c) (c_StateTTL c) 0 = Ok p) ∧
  AuthenticatorSelectionCriteria_Validate (rc_AuthenticatorSelection (c_Registration c)) = Ok () ∧
  AttestationConveyancePreference_Known (rc_Attestation (c_Registration c)) = true ∧
  Forall (λ format, protocolidentifier_Valid format = true) (rc_AttestationFormats (c_Registration c)) ∧
  validateUserVerification (ac_UserVerification (c_Authentication c)) = Ok ().
Proof.
  unfold validateConfig. intros H. do 3 (apply bind_Ok in H as ([] & ? & H)). apply bind_Ok in H as (p & ? & H).
  do 2 (apply bind_Ok in H as ([] & _ & H)). apply bind_Ok in H as ([] & ? & H). apply bind_Ok in H as ([] & ? & H).
  apply bind_Ok in H as ([] & ?%fail_if_Ok%negb_false_iff & H). apply bind_Ok in H as ([] & Hf & H).
  split_and!; try done; [by exists p|]. apply for_each_Ok in Hf. eapply Forall_impl; [exact Hf|].
  intros f ?%fail_if_Ok. by apply negb_false_iff.
Qed.

Lemma selection_unchanged (selection : option AuthenticatorSelectionCriteria) uv :
  (∀ s, selection = Some s → sel_UserVerification s ≠ "") →
  match AuthenticatorSelectionCriteria_Clone selection with
  | Some s => Some (if bool_decide (sel_UserVerification s = "")
      then mkSelection (sel_AuthenticatorAttachment s) (sel_ResidentKey s) (sel_RequireResidentKey s) uv else s)
  | None => None
  end = selection.
Proof.
  intros Hsel. rewrite AuthenticatorSelectionCriteria_Clone_id. destruct selection as [s|]; [|done].
  by rewrite bool_decide_eq_false_2 by (by apply Hsel).
Qed.

Lemma creation_options_valid o :
  AuthenticatorSelectionCriteria_Validate (co_AuthenticatorSelection o) = Ok () → RPEntity_Validate (co_RP o) = Ok () →
  UserEntity_Validate (co_User o) = Ok () → bv_len (co_Challenge o) ≠ 0 →
  Forall (λ format, protocolidentifier_Valid format = true) (co_AttestationFormats o) →
  co_PubKeyCredParams o ≠ [] ∧
  Forall (λ p, cp_Type p = CredentialTypePublicKey ∧ - 2 ^ 31 <= cp_Algorithm p < 2 ^ 31) (co_PubKeyCredParams o) →
  Forall (λ d, CredentialDescriptor_Validate d = Ok ()) (co_ExcludeCredentials o) →
  CreationOptions_Validate o = Ok ().
Proof.
  intros Hs Hrp Hu Hc Hf [Hne Hps] Hex. unfold CreationOptions_Validate. rewrite Hs, Hrp, Hu. run.
  rewrite (proj2 (Z.eqb_neq _ _) Hc). run.
  rewrite (proj2 (for_each_Ok CredentialParameter_Validate (co_PubKeyCredParams o) ())); run.
  2: { eapply Forall_impl; [exact Hps|]. intros p [Ht Ha]. unfold CredentialParameter_Validate. rewrite Ht.
       by apply COSEAlgorithmIdentifier_Validate_Ok. }
  assert (existsb (λ p, bool_decide (cp_Type p = CredentialTypePublicKey)) (co_PubKeyCredParams o) = true) as ->.
  { destruct (co_PubKeyCredParams o) as [|p ps]; [done|]. apply Forall_cons in Hps as [[Ht _] _]. cbn.
    by rewrite bool_decide_eq_true_2. }
  rewrite orb_true_r. run.
  rewrite (proj2 (for_each_Ok _ (co_AttestationFormats o) ())); run.
  - by apply for_each_Ok.
  - eapply Forall_impl; [exact Hf|]. intros f ->. done.
Qed.

Lemma RelyingParty_StartRegistration_total rp ctx request g challenge : rp_wf rp →
  UserEntity_Validate (rq_User request) = Ok () → Forall (λ d, CredentialDescriptor_Validate d = Ok ()) (rq_ExcludeCredentials request) →
  rq_Extensions request = ∅ → c_ChallengeGenerator (rp_config rp) = Iface g →
  g RT (default background ctx) = Ok challenge → bv_len challenge ≠ 0 →
  ∃ r, RelyingParty_StartRegistration (Some rp) ctx request = Ok r.
Proof.
  intros [Hready Hcfg Hps _ Hatt _ Hsel] Huser Hex Hext Hg Hch Hlen.
  destruct (validateConfig_Ok _ Hcfg) as (Hrp & Horg & Hrpid & [p Ht] & Hselv & Hattk & Hfmt & _).
  unfold RelyingParty_StartRegistration, receiver. rewrite Hready. run.
  unfold StartRegistration. cbn [registrationStartOptions rso_RP rso_User rso_OriginPolicy rso_AuthenticatorSelection
    rso_PubKeyCredParams rso_Challenge rso_ChallengeGenerator rso_Extensions rso_Attestation rso_Timeout rso_StateTTL
    rso_ExcludeCredentials rso_AttestationFormats].
  rewrite Hrp, Huser, Horg, Hrpid, Hselv, Hps. run.
  unfold ceremonyChallenge, ceremonyGenerator. rewrite Hg. cbn [bv_len zeroByteValue bv_value slice_len slice_list from_option id].
  change (bv_len zeroByteValue =? 0) with true. cbn iota. rewrite Hch. run.
  rewrite (selection_verification_known _ Hselv), Hext. run.
  assert (∀ op reg pol tr, prepareExtensionInputs op ∅ reg pol tr = Ok (∅, [])) as -> by done.
  run. assert (∀ op reg ch, validateRemoteClientDataInput op ∅ reg ch = Ok ()) as -> by done.
  run. rewrite cloneExtensionInputs_empty. run.
  rewrite (bool_decide_eq_false_2 (rc_Attestation _ = "")) by done. rewrite Hattk. run.
  rewrite (timeoutState_now _ _ _ _ Ht). run.
  rewrite (selection_unchanged _ _ Hsel). rewrite creation_options_valid; [by eexists|done..| |].
  - by eapply registrationCredentialParameters_public.
  - unfold cloneCredentialDescriptors. apply Forall_fmap. eapply Forall_impl; [exact Hex|]. intros d. cbn.
    by rewrite CredentialDescriptor_Clone_id.
Qed.
End FacadeLemmas.

(** ** What a configuration means

    The ceremonies of a relying party, told in terms of the configuration its
    owner wrote: which options each of them gets, and which stored state is its
    own. *)

Section Configured.
Context {Ord : MapOrder} {Custom : CustomTypes} {CE : CustomEvidence} {RT : Runtime} (config : Config).

Definition or_default (s d : string) : string := if bool_decide (s = "") then d else s.
Definition or_default_duration (t d : Z) : Z := if t =? 0 then d else t.

Definition configured_clock : option Z :=
  Some (match c_Now config with Some now => now RT | None => time_Now end).

Definition configured_generator : ChallengeGenerator :=
  match c_ChallengeGenerator config with
  | NilIface => Iface (λ ctx, GenerateChallenge (mkRandomGenerator NilIface 0) (Some ctx))
  | TypedNil => TypedNil
  | Iface g => Iface (g RT)
  end.

Definition configured_algorithms : list Z := cp_Algorithm <$> requested_parameters (c_PubKeyCredParams config).

Definition configured_selection : option AuthenticatorSelectionCriteria :=
  (λ s, mkSelection (sel_AuthenticatorAttachment s) (sel_ResidentKey s) (sel_RequireResidentKey s)
          (or_default (sel_UserVerification s) "preferred")) <$> rc_AuthenticatorSelection (c_Registration config).

Definition configured_registration_start (request : RegistrationRequest) : RegistrationStartOptions := {|
  rso_RP := c_RP config; rso_User := rq_User request; rso_OriginPolicy := c_OriginPolicy config;
  rso_ConditionalMediation := rq_ConditionalMediation request;
  rso_Challenge := zeroByteValue; rso_ChallengeGenerator := configured_generator;
  rso_PubKeyCredParams := requested_parameters (c_PubKeyCredParams config);
  rso_Timeout := or_default_duration (c_Timeout config) DefaultBrowserTimeout;
  rso_StateTTL := or_default_duration (c_StateTTL config) DefaultChallengeTTL;
  rso_ExcludeCredentials := rq_ExcludeCredentials request;
  rso_AuthenticatorSelection := configured_selection;
  rso_Hints := rq_Hints request;
  rso_Attestation := or_default (rc_Attestation (c_Registration config)) "none";
  rso_AttestationFormats := rc_AttestationFormats (c_Registration config);
  rso_Extensions := rq_Extensions request; rso_ExtensionRegistry := c_ExtensionRegistry config;
  rso_ExtensionInputPolicy := rc_ExtensionInputPolicy (c_Registration config); rso_Now := configured_clock |}.

Definition configured_registration_finish (request : RegistrationVerification) : RegistrationFinishOptions := {|
  rfo_State := rv_State request; rfo_Response := rv_Response request;
  rfo_AttestationObjectDecoder := c_AttestationObjectDecoder config;
  rfo_CredentialPublicKeyDecoder := c_CredentialPublicKeyDecoder config;
  rfo_ExtensionMapDecoder := c_ExtensionMapDecoder config;
  rfo_AttestationRegistry := c_AttestationRegistry config;
  rfo_AttestationTrustPolicy := c_AttestationTrustPolicy config;
  rfo_ExtensionRegistry := c_ExtensionRegistry config;
  rfo_ExtensionPolicy := rc_ExtensionPolicy (c_Registration config);
  rfo_Now := configured_clock |}.

Definition configured_authentication_start (request : AuthenticationRequest) : AuthenticationStartOptions := {|
  aso_RPID := rp_ID (c_RP config); aso_OriginPolicy := c_OriginPolicy config;
  aso_Challenge := zeroByteValue; aso_ChallengeGenerator := configured_generator;
  aso_Timeout := or_default_duration (c_Timeout config) DefaultBrowserTimeout;
  aso_StateTTL := or_default_duration (c_StateTTL config) DefaultChallengeTTL;
  aso_AllowCredentials := aq_AllowCredentials request;
  aso_UserVerification := or_default (ac_UserVerification (c_Authentication config)) "preferred";
  aso_Hints := aq_Hints request; aso_Extensions := aq_Extensions request;
  aso_ExtensionRegistry := c_ExtensionRegistry config;
  aso_ExtensionInputPolicy := ac_ExtensionInputPolicy (c_Authentication config);
  aso_ExpectedUserHandle := aq_ExpectedUserHandle request; aso_Now := configured_clock |}.

Definition configured_authentication_finish (request : AuthenticationVerification) : AuthenticationFinishOptions := {|
  afo_State := av_State request; afo_Response := av_Response request; afo_Credential := av_Credential request;
  afo_ExtensionMapDecoder := c_ExtensionMapDecoder config;
  afo_SignatureVerifier := c_SignatureVerifier config;
  afo_AlgorithmPolicy := c_AlgorithmPolicy config;
  afo_ExtensionRegistry := c_ExtensionRegistry config;
  afo_ExtensionPolicy := ac_ExtensionPolicy (c_Authentication config);
  afo_CounterPolicy := ac_CounterPolicy (c_Authentication config);
  afo_UVInitializationAuthorized := av_UVInitializationAuthorized request;
  afo_Now := configured_clock |}.

(** Stored state of this configuration. *)
Definition configured_registration_state (s : RegistrationState) : Prop :=
  rs_RPID s = rp_ID (c_RP config) ∧ rs_OriginPolicy s = c_OriginPolicy config ∧
  rs_RequestedUserVerification s = requested_user_verification (rc_AuthenticatorSelection (c_Registration config)) ∧
  rs_AllowedAlgorithms s = configured_algorithms ∧
  rs_Attestation s = or_default (rc_Attestation (c_Registration config)) "none".

Definition configured_authentication_state (s : AuthenticationState) : Prop :=
  as_RPID s = rp_ID (c_RP config) ∧ as_OriginPolicy s = c_OriginPolicy config ∧
  as_RequestedUserVerification s = or_default (ac_UserVerification (c_Authentication config)) "preferred".

Context (rp : RelyingParty) (HNew : New config = Ok rp).

(** The relying party [New] returns. *)
Lemma New_configured :
  rp = mkRelyingParty (normalizedConfig config (requested_parameters (c_PubKeyCredParams config))) configured_algorithms true.
Proof.
  unfold New in HNew. apply bind_Ok in HNew as (ps & Hps%wrap_err_Ok%registrationCredentialParameters_requested & H).
  apply bind_Ok in H as ([] & _ & H). apply Ok_inj in H. by rewrite <-H, Hps.
Qed.

Lemma configured_selection_user_verification :
  registrationUserVerification configured_selection =
  requested_user_verification (rc_AuthenticatorSelection (c_Registration config)).
Proof. unfold configured_selection. destruct (rc_AuthenticatorSelection _) as [[? ? ? uv]|]; [|done]. by destruct uv. Qed.

Lemma normalized_selection ps :
  rc_AuthenticatorSelection (c_Registration (normalizedConfig config ps)) = configured_selection.
Proof.
  cbn. rewrite AuthenticatorSelectionCriteria_Clone_id. unfold configured_selection.
  destruct (rc_AuthenticatorSelection _) as [[? ? ? uv]|]; [|done]. cbn. unfold or_default. by destruct (bool_decide (uv = "")).
Qed.

Lemma ceremonyGenerator_configured ps : ceremonyGenerator (normalizedConfig config ps) = configured_generator.
Proof. unfold ceremonyGenerator, configured_generator. cbn. by destruct (c_ChallengeGenerator config). Qed.

Lemma ceremonyNow_configured ps : ceremonyNow (normalizedConfig config ps) = configured_clock.
Proof. unfold ceremonyNow, configured_clock. cbn. by destruct (c_Now config). Qed.

Lemma registrationStartOptions_configured request :
  registrationStartOptions (rp_config rp) request = configured_registration_start request.
Proof.
  rewrite New_configured. unfold registrationStartOptions. cbn [rp_config].
  rewrite normalized_selection, ceremonyGenerator_configured, ceremonyNow_configured.
  cbn [normalizedConfig c_RP c_OriginPolicy]. by rewrite OriginPolicy_clone_id.
Qed.

Lemma registrationFinishOptions_configured request :
  registrationFinishOptions (rp_config rp) request = configured_registration_finish request.
Proof. rewrite New_configured. unfold registrationFinishOptions. cbn [rp_config]. by rewrite ceremonyNow_configured. Qed.

Lemma authenticationStartOptions_configured request :
  authenticationStartOptions (rp_config rp) request = configured_authentication_start request.
Proof.
  rewrite New_configured. unfold authenticationStartOptions. cbn [rp_config].
  rewrite ceremonyGenerator_configured, ceremonyNow_configured.
  cbn [normalizedConfig c_RP c_OriginPolicy]. by rewrite OriginPolicy_clone_id.
Qed.

Lemma authenticationFinishOptions_configured request :
  authenticationFinishOptions (rp_config rp) request = configured_authentication_finish request.
Proof. rewrite New_configured. unfold authenticationFinishOptions. cbn [rp_config]. by rewrite ceremonyNow_configured. Qed.

Lemma registration_state_configured s : registration_state_matches rp s ↔ configured_registration_state s.
Proof.
  rewrite New_configured. unfold registration_state_matches. cbn [rp_config rp_algorithms].
  rewrite normalized_selection, configured_selection_user_verification. cbn [normalizedConfig c_RP c_OriginPolicy].
  by rewrite OriginPolicy_clone_id.
Qed.

Lemma authentication_state_configured s : authentication_state_matches rp s ↔ configured_authentication_state s.
Proof.
  rewrite New_configured. unfold authentication_state_matches. cbn [rp_config normalizedConfig c_RP c_OriginPolicy].
  by rewrite OriginPolicy_clone_id.
Qed.

Lemma StartRegistration_configured ctx request :
  RelyingParty_StartRegistration (Some rp) ctx request = StartRegistration ctx (configured_registration_start request).
Proof.
  rewrite <-registrationStartOptions_configured. unfold RelyingParty_StartRegistration, receiver.
  by rewrite (wf_ready _ (New_wf _ _ HNew)).
Qed.

Lemma StartAuthentication_configured ctx request :
  RelyingParty_StartAuthentication (Some rp) ctx request = StartAuthentication ctx (configured_authentication_start request).
Proof.
  rewrite <-authenticationStartOptions_configured. unfold RelyingParty_StartAuthentication, receiver.
  by rewrite (wf_ready _ (New_wf _ _ HNew)).
Qed.
End Configured.

(** ** Properties *)

(** C9: a configured relying party runs the ceremonies of its configuration and
    finishes only its own.  Starting is the library's start with exactly the
    options the configuration and the request say (defaults filled in), and the
    state it yields is one of this configuration.  Finishing a registration
    succeeds exactly when the stored state agrees with the configuration (RP ID,
    origin policy, user verification, algorithms, attestation preference) and
    the ceremony succeeds with the configured decoders, registries, trust and
    extension policies and clock.  Finishing an authentication succeeds exactly
    when the state agrees (RP ID, origin policy, user verification), the
    algorithm of the stored key is a configured one, and the ceremony succeeds
    with the configured decoder, verifier, registry, algorithm, extension and
    counter policies and clock and the caller's authorization to initialize user
    verification. *)
Theorem relying_party_ceremonies {Ord : MapOrder} {Custom : CustomTypes} {CE : CustomEvidence} config rp
    (H : New config = Ok rp) :
  (∀ (RT : Runtime) ctx request,
     RelyingParty_StartRegistration (Some rp) ctx request =
       StartRegistration ctx (configured_registration_start config request) ∧
     ∀ r, RelyingParty_StartRegistration (Some rp) ctx request = Ok r → configured_registration_state config (rsr_State r)) ∧
  (∀ (RT : Runtime) ctx request r, RelyingParty_FinishRegistration (Some rp) ctx request = Ok r ↔
     configured_registration_state config (rv_State request) ∧
     FinishRegistration ctx (configured_registration_finish config request) = Ok r) ∧
  (∀ (RT : Runtime) ctx request,
     RelyingParty_StartAuthentication (Some rp) ctx request =
       StartAuthentication ctx (configured_authentication_start config request) ∧
     ∀ r, RelyingParty_StartAuthentication (Some rp) ctx request = Ok r → configured_authentication_state config (asr_State r)) ∧
  (∀ (RT : Runtime) ctx request r, RelyingParty_FinishAuthentication (Some rp) ctx request = Ok r ↔
     configured_authentication_state config (av_State request) ∧
     pk_Algorithm (cr_PublicKey (av_Credential request)) ∈ configured_algorithms config ∧
     FinishAuthentication ctx (configured_authentication_finish config request) = Ok r).
Proof.
  pose proof (New_wf _ _ H) as Hwf. split; [|split; [|split]]; intros RT ctx request.
  - split; [by apply StartRegistration_configured|]. intros r Hr. rewrite <-registration_state_configured by done.
    by eapply RelyingParty_StartRegistration_matches.
  - intros r. rewrite RelyingParty_FinishRegistration_Ok, registration_state_configured by done.
    by rewrite (registrationFinishOptions_configured _ _ H).
  - split; [by apply StartAuthentication_configured|]. intros r Hr. rewrite <-authentication_state_configured by done.
    by eapply RelyingParty_StartAuthentication_matches.
  - intros r. rewrite RelyingParty_FinishAuthentication_Ok, authentication_state_configured by done.
    rewrite (authenticationFinishOptions_configured _ _ H). by rewrite (New_configured _ _ H).
Qed.

#[local] Existing Instance no_custom_types.
#[local] Existing Instance default_order.
#[local] Existing Instance plain_evidence.

Definition sample_config : Config := {|
  c_RP := mkRPEntity "example.com" "Example"; c_OriginPolicy := example_policy; c_PubKeyCredParams := [];
  c_AttestationObjectDecoder := rfo_AttestationObjectDecoder (sample_finish []);
  c_CredentialPublicKeyDecoder := rfo_CredentialPublicKeyDecoder (sample_finish []);
  c_ExtensionMapDecoder := Iface (λ _, Ok ∅); c_SignatureVerifier := Iface (λ _ _, Ok ());
  c_AlgorithmPolicy := Iface (λ a, bool_decide (a ∈ [AlgorithmES256; AlgorithmRS256]));
  c_AttestationRegistry := rfo_AttestationRegistry (sample_finish []); c_AttestationTrustPolicy := AcceptNone;
  c_ExtensionRegistry := None;
  c_Registration := mkRegistrationConfig None "" [] (mkInputPolicy false) (mkRegistrationPolicy false false);
  c_Authentication := mkAuthenticationConfig "" (mkInputPolicy false) (mkAuthenticationPolicy false false "") (mkCounterPolicy false false);
  c_Timeout := 0; c_StateTTL := 0; c_ChallengeGenerator := NilIface; c_Now := None |}.

Definition sample_rp : RelyingParty :=
  mkRelyingParty (normalizedConfig sample_config
    [mkParameter CredentialTypePublicKey AlgorithmES256; mkParameter CredentialTypePublicKey AlgorithmRS256])
    [AlgorithmES256; AlgorithmRS256] true.

Lemma sample_rp_New : New sample_config = Ok sample_rp.
Proof.
  assert (validateConfig (rp_config sample_rp) = Ok ()) as Hv by (vm_compute; reflexivity).
  unfold New. change (registrationCredentialParameters (c_PubKeyCredParams sample_config))
    with (Ok (c_PubKeyCredParams (rp_config sample_rp))). run.
  change (normalizedConfig sample_config (c_PubKeyCredParams (rp_config sample_rp))) with (rp_config sample_rp).
  rewrite Hv. reflexivity.
Qed.

Definition sample_registration : RegistrationRequest := mkRegistrationRequest sample_user [] ∅ [] false.

Lemma relying_party_ceremonies_witness :
  ∃ r, RelyingParty_StartRegistration (RT:=sample_runtime) (Some sample_rp) None sample_registration = Ok r ∧
       configured_registration_state sample_config (rsr_State r).
Proof.
  destruct (relying_party_ceremonies sample_config sample_rp sample_rp_New) as [H _].
  destruct (RelyingParty_StartRegistration (RT:=sample_runtime) (Some sample_rp) None sample_registration) as [r|e] eqn:E.
  - exists r. split; [reflexivity|]. exact (proj2 (H sample_runtime None sample_registration) r E).
  - exfalso. vm_compute in E. discriminate E.
Defined.

(** Configuration is validated once: a relying party that [New] accepted
    can start a registration for every valid user (without extensions) whenever
    its challenge generator yields a challenge; no configuration error is left
    to be found later. *)
Theorem relying_party_start_total {Ord : MapOrder} {Custom : CustomTypes} {CE : CustomEvidence} {RT : Runtime}
    config rp ctx request g challenge (H : New config = Ok rp)
    (Huser : UserEntity_Validate (rq_User request) = Ok ())
    (Hexclude : Forall (λ d, CredentialDescriptor_Validate d = Ok ()) (rq_ExcludeCredentials request))
    (Hext : rq_Extensions request = ∅) (Hgen : c_ChallengeGenerator (rp_config rp) = Iface g)
    (Hchallenge : g RT (default background ctx) = Ok challenge) (Hlen : bv_len challenge ≠ 0) :
  ∃ r, RelyingParty_StartRegistration (Some rp) ctx request = Ok r.
Proof. eapply RelyingParty_StartRegistration_total; [by eapply New_wf|done..]. Qed.

Lemma relying_party_start_total_witness :
  ∃ r, RelyingParty_StartRegistration (RT:=sample_runtime) (Some sample_rp) None sample_registration = Ok r.
Proof.
  apply (relying_party_start_total (RT:=sample_runtime) sample_config sample_rp None sample_registration
    (λ rt ctx, GenerateChallenge (RT:=rt) (mkRandomGenerator NilIface 0) (Some ctx))
    (mkByteValue (Some (replicate 32 x00))) sample_rp_New).
  - reflexivity.
  - constructor.
  - reflexivity.
  - reflexivity.
  - reflexivity.
  - discriminate.
Defined.
