(* ===== verification/Preset.v ===== *)
(** * The passkey preset

    Models [src/preset/passkey.go]: the configuration that selects the CBOR
    decoder, the standard signature verifier, the none attestation format and
    the Level 3 extensions, discoverable credentials and required user
    verification.  The theorems compose these components with the relying
    party: what a passkey registration and authentication establish. *)
From S2P Require Import Prelude GoStrings Sha2 AuthData ClientData Origin ExtValue Types Extension ExtHandlers Attestation Asn1 X509 Standard Cbor Ceremony ExtVerify State Registration Authentication RelyingParty.
Set Default Goal Selector "!".
Local Open Scope Z_scope.

Section Preset.
Context {Ord : MapOrder} {Custom : CustomTypes} {L : CborLibrary} {P : Primitives}.

(** A pointer converted to an interface whose method is [f]. *)
Definition pointer_iface {A B} (p : option A) (f : B) : iface B :=
  match p with Some _ => Iface f | None => TypedNil end.

Definition PasskeyConfig (rp : RPEntity) (origins : OriginPolicy) : result Config :=
  decoder ← Cbor.NewDecoder;
  let parameters := RecommendedLevel3CredentialParameters in
  let algorithms := cp_Algorithm <$> parameters in
  verifier ← Standard.NewVerifier algorithms;
  attesters ← NewAttRegistry [Iface Attestation.None.New];
  extensions ← NewLevel3Registry;
  Ok {|
    c_RP := rp; c_OriginPolicy := origins; c_PubKeyCredParams := parameters;
    c_AttestationObjectDecoder := pointer_iface decoder (Cbor.DecodeAttestationObject decoder);
    c_CredentialPublicKeyDecoder := pointer_iface decoder (Cbor.DecodeCredentialPublicKey decoder);
    c_ExtensionMapDecoder := pointer_iface decoder (Cbor.DecodeExtensionMap decoder);
    c_SignatureVerifier := pointer_iface verifier (Standard.VerifySignature verifier);
    c_AlgorithmPolicy := pointer_iface verifier (Standard.AcceptsAlgorithm verifier);
    c_AttestationRegistry := attesters; c_AttestationTrustPolicy := AcceptNone; c_ExtensionRegistry := extensions;
    c_Registration := mkRegistrationConfig
      (Some (mkSelection "" ResidentKeyRequired false UserVerificationRequired)) AttestationNone []
      (mkInputPolicy false) (mkRegistrationPolicy false false);
    c_Authentication := mkAuthenticationConfig UserVerificationRequired (mkInputPolicy false)
      (mkAuthenticationPolicy false false "") (mkCounterPolicy false false);
    c_Timeout := 0; c_StateTTL := 0; c_ChallengeGenerator := NilIface; c_Now := None |}.
End Preset.

(** ** Lemmas *)

(** The schemes a passkey may use. *)
Definition passkey_schemes : list (Z * scheme) := [(-8, Ed25519); (-7, ECDSA P256 SHA256); (-257, PKCS1 SHA256)].

Section Lemmas.
Context {Ord : MapOrder} {Custom : CustomTypes} {L : CborLibrary} {P : Primitives}.

Lemma passkey_scheme a : a ∈ passkey_schemes.*1 → ∃ s, (a, s) ∈ passkey_schemes ∧ (a, s) ∈ cose_schemes.
Proof.
  intros H. repeat (apply elem_of_cons in H as [->|H];
    [eexists; unfold passkey_schemes, cose_schemes; rewrite !elem_of_cons; cbn; naive_solver|]). by apply not_elem_of_nil in H.
Qed.

(** The preset with its components made explicit. *)
Definition passkey_config rp origins (dm : DecMode) (em : EncMode) extensions : Config :=
  let decoder := Some (Cbor.mkDecoder (Some dm) (Some em)) in
  let verifier := Some (list_to_set [-8; -7; -257]) in
  {| c_RP := rp; c_OriginPolicy := origins; c_PubKeyCredParams := RecommendedLevel3CredentialParameters;
     c_AttestationObjectDecoder := Iface (Cbor.DecodeAttestationObject decoder);
     c_CredentialPublicKeyDecoder := Iface (Cbor.DecodeCredentialPublicKey decoder);
     c_ExtensionMapDecoder := Iface (Cbor.DecodeExtensionMap decoder);
     c_SignatureVerifier := Iface (Standard.VerifySignature verifier);
     c_AlgorithmPolicy := Iface (Standard.AcceptsAlgorithm verifier);
     c_AttestationRegistry := Some {[ "none" := Attestation.None.New ]}; c_AttestationTrustPolicy := AcceptNone;
     c_ExtensionRegistry := extensions;
     c_Registration := mkRegistrationConfig
       (Some (mkSelection "" ResidentKeyRequired false UserVerificationRequired)) AttestationNone []
       (mkInputPolicy false) (mkRegistrationPolicy false false);
     c_Authentication := mkAuthenticationConfig UserVerificationRequired (mkInputPolicy false)
       (mkAuthenticationPolicy false false "") (mkCounterPolicy false false);
     c_Timeout := 0; c_StateTTL := 0; c_ChallengeGenerator := NilIface; c_Now := None |}.

Lemma PasskeyConfig_Ok rp origins c :
  PasskeyConfig rp origins = Ok c → ∃ dm em extensions, c = passkey_config rp origins dm em extensions.
Proof.
  unfold PasskeyConfig, Cbor.NewDecoder. intros H.
  apply bind_Ok in H as (decoder & Hd & H). apply bind_Ok in Hd as (dm & _ & Hd). apply bind_Ok in Hd as (em & _ & [= <-]).
  apply bind_Ok in H as (verifier & (_ & _ & ->)%NewVerifier_Ok & H).
  apply bind_Ok in H as (attesters & [= <-] & H). apply bind_Ok in H as (extensions & _ & [= <-]).
  by exists dm, em, extensions.
Qed.

Lemma passkey_New rp origins dm em extensions r :
  New (passkey_config rp origins dm em extensions) = Ok r →
  r = mkRelyingParty (normalizedConfig (passkey_config rp origins dm em extensions) RecommendedLevel3CredentialParameters)
        [-8; -7; -257] true.
Proof. unfold New. intros H. apply bind_Ok in H as (ps & [= <-] & H). by apply bind_Ok in H as ([] & _ & [= <-]). Qed.

Lemma passkey_validateConfig rp origins dm em extensions u :
  validateConfig (normalizedConfig (passkey_config rp origins dm em extensions) RecommendedLevel3CredentialParameters) = Ok u ↔
  RPEntity_Validate rp = Ok () ∧ validateOriginPolicy origins = Ok () ∧ validateRPIDOriginPolicy (rp_ID rp) origins = Ok ().
Proof.
  destruct u. unfold validateConfig. cbn [c_RP c_OriginPolicy normalizedConfig passkey_config]. rewrite OriginPolicy_clone_id. split.
  - intros H. apply bind_Ok in H as ([] & ? & H). apply bind_Ok in H as ([] & ? & H). by apply bind_Ok in H as ([] & ? & _).
  - intros (-> & -> & ->). run. reflexivity.
Qed.
End Lemmas.

(** ** Properties *)
Section Properties.
Context {Ord : MapOrder} {Custom : CustomTypes} {CE : CustomEvidence} {L : CborLibrary} {P : Primitives}.

(** The preset never builds an unusable configuration: [New] accepts it exactly when the relying party entity is
    complete and the origin policy is valid and in scope of the RP ID; the chosen decoder, verifier, algorithms,
    attestation registry, trust policy and user verification are always consistent. *)
Theorem passkey_config_accepted rp origins c :
  PasskeyConfig rp origins = Ok c →
  (∃ r, New c = Ok r) ↔
  RPEntity_Validate rp = Ok () ∧ validateOriginPolicy origins = Ok () ∧ validateRPIDOriginPolicy (rp_ID rp) origins = Ok ().
Proof.
  intros (dm & em & extensions & ->)%PasskeyConfig_Ok. unfold New.
  change (registrationCredentialParameters (c_PubKeyCredParams (passkey_config rp origins dm em extensions)))
    with (Ok RecommendedLevel3CredentialParameters). run. split.
  - intros [r H]. apply bind_Ok in H as (u & Hv%wrap_err_Ok & _). by apply passkey_validateConfig in Hv.
  - intros H. apply (passkey_validateConfig _ _ dm em extensions ()) in H. rewrite H. by eexists.
Qed.

(** C20: A passkey registration that succeeds establishes a user-verified credential of this relying party with none
    attestation, whose key is well-formed for one of the three configured schemes: an Ed25519 key, a point on P-256, or
    a valid RSA key. *)
Theorem passkey_registration rp origins c r {RT : Runtime} ctx request res :
  PasskeyConfig rp origins = Ok c → New c = Ok r →
  RelyingParty_FinishRegistration (Some r) ctx request = Ok res →
  let credential := rres_Credential res in
  cr_RPID credential = rp_ID rp ∧ cr_UVInitialized credential = true ∧ cr_AttestationType credential = TypeNone ∧
  ∃ s, (pk_Algorithm (cr_PublicKey credential), s) ∈ passkey_schemes ∧ scheme_key s (pk_material (cr_PublicKey credential)).
Proof.
  intros (dm & em & extensions & ->)%PasskeyConfig_Ok Hnew H. assert (Hwf := New_wf _ _ Hnew).
  apply passkey_New in Hnew. subst r. apply RelyingParty_FinishRegistration_Ok in H as [(Hid & _ & Huv & Halg & _) H]; [|done].
  apply FinishRegistration_sound in H as (_ & _ & decode & decoded & parsed & attested & key & exts & ar & trust & H).
  destruct H as (_ & _ & _ & _ & Hauth & _ & _ & Hkey & Hin & _ & Hatt & _ & -> & _).
  cbn [registered_credential cr_RPID cr_UVInitialized cr_AttestationType cr_PublicKey rfo_State registrationFinishOptions].
  split; [done|]. split; [|split].
  - destruct Hauth as (_ & _ & _ & Hv & _). apply Hv. cbn. by rewrite Huv.
  - destruct Hatt as (verifier & evaluate & v & t & _ & Hl & Hv & _ & _ & _ & _ & _ & _ & -> & _).
    rewrite !VerificationResult_Clone_Type. cbn [rai_registry rai_decodedAttestation] in Hl.
    unfold Lookup in Hl. cbn in Hl. apply lookup_singleton_Some in Hl as [_ <-].
    cbn [v_VerifyAttestation Attestation.None.New] in Hv. unfold Attestation.None.VerifyAttestation in Hv.
    by case_match; [|injection Hv as <-].
  - destruct Hkey as (decodeKey & rest & [= <-] & Hdec & _). cbn in Hin. rewrite Halg in Hin.
    destruct (passkey_scheme _ Hin) as (s & Hs & Hcose). exists s. split; [done|].
    apply DecodeCredentialPublicKey_Ok in Hdec as (_ & _ & _ & m & kt & _ & _ & _ & _ & _ & _ & _ & _ & _ & _ & _ & Hval & Hmat).
    eapply validateCredentialPublicKey_Ok; [|done|done]. rewrite Hmat. apply material_sized.
Qed.

(** C19: A passkey authentication that succeeds shows user presence and user verification in the received authenticator
    data, for a stored key of one of the configured algorithms; the primitive of that algorithm's scheme accepted the
    signature of the stored key over exactly the received authenticator data and the hash of the received client data. *)
Theorem passkey_authentication rp origins c r {RT : Runtime} ctx request res :
  PasskeyConfig rp origins = Ok c → New c = Ok r →
  RelyingParty_FinishAuthentication (Some r) ctx request = Ok res →
  let response := av_Response request in
  let key := cr_PublicKey (av_Credential request) in
  ∃ parsed s,
    ParseAuthenticatorData (ar_AuthenticatorData response) = Ok parsed ∧
    UserPresent (Flags parsed) = true ∧ UserVerified (Flags parsed) = true ∧
    (pk_Algorithm key, s) ∈ passkey_schemes ∧
    scheme_accepts s (pk_material key)
      (slice_list (bv_value (ar_AuthenticatorData response)) ++ Sum256 (slice_list (bv_value (ar_ClientDataJSON response))))
      (slice_list (bv_value (ar_Signature response))).
Proof.
  intros (dm & em & extensions & ->)%PasskeyConfig_Ok Hnew H. assert (Hwf := New_wf _ _ Hnew).
  apply passkey_New in Hnew. subst r.
  apply RelyingParty_FinishAuthentication_Ok in H as ((_ & _ & Huv) & Hin & H); [|done].
  apply FinishAuthentication_sound in H as (_ & _ & _ & _ & _ & Hsig & parsed & exts & (Hp & _ & _ & Hup & Hv & _) & _).
  destruct Hsig as (verify & [= <-] & Hsig). apply standard_VerifySignature_Ok in Hsig as (_ & _ & s & Hs & Hsig).
  exists parsed, s. split_and!; [done|done|apply Hv; cbn; by rewrite Huv| |done].
  destruct (passkey_scheme _ Hin) as (s' & Hs' & Hcose). cbn [si_Algorithm afo_Credential authenticationFinishOptions] in Hs.
  apply (scheme_of_spec _ _ _ cose_schemes_NoDup) in Hs, Hcose. rewrite Hcose in Hs. by injection Hs as <-.
Qed.
End Properties.

(** ** A sample passkey *)

#[local] Existing Instance no_custom_types.
#[local] Existing Instance default_order.
#[local] Existing Instance plain_evidence.
#[local] Existing Instance sample_runtime.
#[local] Existing Instance permissive.

Definition level3 : Registry := match NewLevel3Registry with Ok r => r | Err _ => None end.
Lemma level3_Ok : NewLevel3Registry = Ok level3.
Proof.
  assert (is_ok NewLevel3Registry = true) as H by (vm_compute; reflexivity).
  unfold level3. by destruct NewLevel3Registry.
Qed.

Definition passkey_attested : AttestedCredentialData :=
  mkAttested (replicate 16 x00) (mkByteValue (Some [x0a; x0b])) sample_ed25519.
Definition passkey_state : RegistrationState := {|
  rs_Challenge := mkByteValue (Some (replicate 32 x00)); rs_RPID := "example.com"; rs_OriginPolicy := example_policy;
  rs_ConditionalMediation := false; rs_UserHandle := user_ID sample_user;
  rs_RequestedUserVerification := UserVerificationRequired; rs_RequestedExtensions := ∅;
  rs_ExtensionBindings := []; rs_AllowedAlgorithms := [-8; -7; -257];
  rs_Attestation := AttestationNone; rs_ExpiresAt := 600000000001 |}.

Definition passkey_credential : CredentialRecord := {|
  cr_Type := CredentialTypePublicKey; cr_ID := mkByteValue (Some [x0a; x0b]); cr_PublicKey := sample_ed25519_key;
  cr_UserHandle := mkByteValue (Some [x07]); cr_RPID := "example.com"; cr_AAGUID := replicate 16 x00; cr_SignCount := 4;
  cr_Transports := ["internal"]; cr_BackupEligible := false; cr_BackupState := false; cr_UVInitialized := true;
  cr_AuthenticatorAttachment := ""; cr_AttestationType := TypeNone |}.
Definition passkey_auth_state : AuthenticationState := {|
  as_Challenge := mkByteValue (Some (replicate 32 x00)); as_RPID := "example.com"; as_OriginPolicy := example_policy;
  as_RequestedUserVerification := UserVerificationRequired; as_RequestedExtensions := ∅; as_ExtensionBindings := [];
  as_AllowCredentials := [Descriptor passkey_credential]; as_ExpectedUserHandle := zeroByteValue;
  as_ExpiresAt := 600000000001 |}.

Definition passkey_object (ad : AuthenticatorData) : value :=
  VMap Cbor.any_map [(KString "fmt", VString "none"); (KString "attStmt", VMap Cbor.any_map []);
                     (KString "authData", VBytes (bv_value ad))].

(** A library that knows the sample key and the attestation object [xa3]. *)
Definition passkey_dec (ad : AuthenticatorData) : DecMode := {|
  Unmarshal data := if bool_decide (data = sample_ed25519) then Ok sample_ed25519_value
                    else if bool_decide (data = [xa3]) then Ok (passkey_object ad) else Err (ErrorNew "EOF");
  UnmarshalFirst data :=
    if bool_decide (take 42 data = sample_ed25519) then Ok (sample_ed25519_value, drop 42 data) else Err (ErrorNew "EOF") |}.
Definition passkey_enc : EncMode := {|
  Marshal v := match v with VMap _ ((KString _, _) :: _) => Ok [xa3] | _ => Ok sample_ed25519 end |}.
Lemma passkey_object_decoded ad (Hlen : 37 <= slice_len (bv_value ad)) :
  Cbor.DecodeAttestationObject (Some (Cbor.mkDecoder (Some (passkey_dec ad)) (Some passkey_enc))) (mkByteValue (Some [xa3])) =
  Ok (mkDecoded "none" ad ∅ (mkByteValue (Some [xa3]))).
Proof.
  apply DecodeAttestationObject_Ok. eexists (passkey_object ad), _, _.
  split_and!; [done|reflexivity|reflexivity|reflexivity|reflexivity|reflexivity|exact Hlen|reflexivity| |done].
  cbn [do_Format do_Statement]. change (∅ : AttestationStatement) with (Cbor.statement_of ∅). constructor; [done|reflexivity].
Qed.

(** The rest of the sample depends on the RP ID hash [h]. *)
Section Sample.
Context (h : list byte) (Hh : h = Sum256 (bytes_of_string "example.com")).

Definition passkey_authdata : AuthenticatorData :=
  mkByteValue (Some (encodeAuthData h x45 1 (Some passkey_attested) None)).
#[local] Instance passkey_cbor : CborLibrary := {| DecOptions_DecMode _ := Ok (passkey_dec passkey_authdata); CTAP2_EncMode := Ok passkey_enc |}.

Definition passkey_rp_entity : RPEntity := mkRPEntity "example.com" "Example".
Definition passkey_sample : Config := passkey_config passkey_rp_entity example_policy (passkey_dec passkey_authdata) passkey_enc level3.
Definition passkey_rp : RelyingParty :=
  mkRelyingParty (normalizedConfig passkey_sample RecommendedLevel3CredentialParameters) [-8; -7; -257] true.

Lemma passkey_sample_Ok : PasskeyConfig passkey_rp_entity example_policy = Ok passkey_sample.
Proof.
  unfold PasskeyConfig. change (Cbor.NewDecoder) with (Ok (Some (Cbor.mkDecoder (Some (passkey_dec passkey_authdata)) (Some passkey_enc)))). run.
  cbv zeta. change (cp_Algorithm <$> RecommendedLevel3CredentialParameters) with [-8; -7; -257].
  rewrite (proj2 (NewVerifier_Ok [-8; -7; -257] (Some (list_to_set [-8; -7; -257])))).
  2: { split_and!; [done| |done]. repeat constructor. }
  run. change (NewAttRegistry [Iface Attestation.None.New]) with (Ok (Some {[ "none" := Attestation.None.New ]} : attRegistry)). run.
  rewrite level3_Ok. reflexivity.
Qed.

Lemma passkey_rp_Ok : New passkey_sample = Ok passkey_rp.
Proof.
  assert (validateConfig (rp_config passkey_rp) = Ok ()) as Hv
    by (apply passkey_validateConfig; split_and!; vm_compute; reflexivity).
  unfold New. change (registrationCredentialParameters (c_PubKeyCredParams passkey_sample))
    with (Ok RecommendedLevel3CredentialParameters). run.
  change (normalizedConfig passkey_sample RecommendedLevel3CredentialParameters) with (rp_config passkey_rp).
  rewrite Hv. reflexivity.
Qed.

Definition passkey_response : RegistrationResponse := {|
  rr_Type := CredentialTypePublicKey; rr_RawID := mkByteValue (Some [x0a; x0b]);
  rr_ClientDataJSON := rr_ClientDataJSON sample_response;
  rr_AuthenticatorData := zeroByteValue; rr_AttestationObject := mkByteValue (Some [xa3]); rr_PublicKeyAlgorithm := -8;
  rr_Transports := ["internal"]; rr_AuthenticatorAttachment := "platform"; rr_ClientExtensionResults := ∅ |}.
Definition passkey_verification : RegistrationVerification := mkRegistrationVerification passkey_state passkey_response.

Definition passkey_parsed : ParsedAuthenticatorData := mkParsed passkey_authdata h x45 1 (Some passkey_attested) None.

Lemma passkey_authdata_parsed : registration_authdata passkey_state passkey_authdata passkey_parsed.
Proof.
  split.
  - apply parse_authdata_complete; [|reflexivity|reflexivity].
    split; [cbn [RPIDHash passkey_parsed]; rewrite Hh; apply length_Sum256|].
    split; [vm_compute; split; congruence|]. split; [reflexivity|].
    split; [reflexivity|]. split; [|reflexivity]. split; [reflexivity|]. split; [discriminate|].
    split; [vm_compute; split; congruence|discriminate].
  - split; [exact Hh|]. split; [right; reflexivity|]. split; [reflexivity|]. split; [discriminate|reflexivity].
Qed.

Lemma passkey_authdata_length : 37 <= slice_len (bv_value passkey_authdata).
Proof.
  unfold passkey_authdata, encodeAuthData, slice_len. cbn [bv_value slice_list default from_option id].
  rewrite Hh, !length_app, length_Sum256, length_put_be. cbn [length]. lia.
Qed.

Lemma passkey_registration_Ok :
  ∃ res, RelyingParty_FinishRegistration (Some passkey_rp) None passkey_verification = Ok res.
Proof.
  eexists {| rres_Credential := _; rres_Attestation := _; rres_AttestationTrust := _; rres_Extensions := _; rres_Warnings := _ |}.
  apply RelyingParty_FinishRegistration_Ok; [by eapply New_wf, passkey_rp_Ok|].
  split; [by split_and!|]. apply FinishRegistration_complete. split; [|split; [exact sample_client_data|]].
  - split; [by eexists|]. split; [reflexivity|]. split; [vm_compute; reflexivity|]. split; [vm_compute; reflexivity|].
    split; [reflexivity|]. split; [discriminate|]. split; [discriminate|]. split; [discriminate|reflexivity].
  - eexists _, (mkDecoded "none" passkey_authdata ∅ (mkByteValue (Some [xa3]))), passkey_parsed, passkey_attested,
      sample_ed25519_key, ∅. do 2 eexists.
    split; [reflexivity|]. split; [exact (passkey_object_decoded passkey_authdata passkey_authdata_length)|]. split; [reflexivity|]. split; [by left|].
    split; [exact passkey_authdata_parsed|]. split; [reflexivity|]. split; [reflexivity|]. split.
    + do 2 eexists. split; [reflexivity|]. split; [vm_compute; reflexivity|]. split; [reflexivity|].
      split; [symmetry; apply app_nil_r|]. split; reflexivity.
    + split; [by left|]. split; [by right|]. split; [do 4 eexists; split_and!; try reflexivity|].
      split; [vm_compute; reflexivity|]. split_and!; reflexivity.
Qed.

Definition passkey_assertion : AuthenticationResponse := {|
  ar_Type := CredentialTypePublicKey; ar_RawID := mkByteValue (Some [x0a; x0b]);
  ar_ClientDataJSON := ar_ClientDataJSON (sample_assertion h);
  ar_AuthenticatorData := mkByteValue (Some (encodeAuthData h x05 9 None None));
  ar_Signature := mkByteValue (Some (replicate 64 x09));
  ar_UserHandle := mkByteValue (Some [x07]); ar_AuthenticatorAttachment := "platform"; ar_ClientExtensionResults := ∅ |}.
Definition passkey_auth_verification : AuthenticationVerification :=
  mkAuthenticationVerification passkey_auth_state passkey_assertion passkey_credential true.
Definition passkey_auth_parsed : ParsedAuthenticatorData := mkParsed (ar_AuthenticatorData passkey_assertion) h x05 9 None None.

Lemma passkey_assertion_parsed :
  authentication_authdata (authenticationFinishOptions (rp_config passkey_rp) passkey_auth_verification) passkey_auth_parsed.
Proof.
  split; [|split; [reflexivity|split; [|split; [reflexivity|split; [reflexivity|split; [discriminate|reflexivity]]]]]].
  - apply parse_authdata_complete; [|reflexivity|reflexivity].
    split; [cbn [RPIDHash passkey_auth_parsed]; rewrite Hh; apply length_Sum256|].
    split; [vm_compute; split; congruence|]. split; [reflexivity|]. split; reflexivity.
  - left. split; [discriminate|exact Hh].
Qed.

Lemma passkey_signature_Ok ctx :
  ctx "standard.VerifySignature" 0%nat = None →
  signature_verified ctx (authenticationFinishOptions (rp_config passkey_rp) passkey_auth_verification).
Proof.
  intros Hctx. eexists. split; [reflexivity|]. apply standard_VerifySignature_Ok. split; [reflexivity|]. split; [done|].
  exists Ed25519. split; [cbn; unfold cose_schemes; set_solver|]. exists (replicate 32 x07). by split_and!.
Qed.

Lemma passkey_authentication_Ok :
  ∃ res, RelyingParty_FinishAuthentication (Some passkey_rp) None passkey_auth_verification = Ok res.
Proof.
  exists (authenticationResult (authenticationFinishOptions (rp_config passkey_rp) passkey_auth_verification)
    passkey_auth_parsed (compareCounters 4 9) []).
  apply RelyingParty_FinishAuthentication_Ok; [by eapply New_wf, passkey_rp_Ok|].
  split; [by split_and!|]. split; [by left|].
  apply FinishAuthentication_complete. split; [|split; [|split; [|split; [exact (sample_assertion_client_data h)|]]]].
  - split; [apply (CredentialRecord_Validate_Ok _ ()); vm_compute; reflexivity|]. split; [reflexivity|].
    split; [reflexivity|]. split; [vm_compute; reflexivity|]. split; [vm_compute; reflexivity|].
    split; [reflexivity|]. split; [discriminate|]. split; [discriminate|]. split; [discriminate|].
    split; [discriminate|reflexivity].
  - split; [discriminate|]. split; [reflexivity|]. split; [reflexivity|]. right.
    exists (Descriptor passkey_credential). split; [by left|reflexivity].
  - split; [discriminate|reflexivity].
  - split; [right; eexists; split; reflexivity|]. split; [by apply passkey_signature_Ok|]. exists passkey_auth_parsed, ∅.
    split; [exact passkey_assertion_parsed|]. split; [reflexivity|]. split; [discriminate|]. split; reflexivity.
Qed.
End Sample.

Definition example_hash : list byte := Sum256 (bytes_of_string "example.com").
Lemma example_hash_eq : example_hash = Sum256 (bytes_of_string "example.com").
Proof. unfold example_hash. reflexivity. Qed.
#[local] Instance example_cbor : CborLibrary := passkey_cbor example_hash.

Lemma passkey_config_accepted_witness :
  PasskeyConfig passkey_rp_entity example_policy = Ok (passkey_sample example_hash) ∧ ∃ r, New (passkey_sample example_hash) = Ok r.
Proof.
  split; [exact (passkey_sample_Ok example_hash)|].
  apply (passkey_config_accepted passkey_rp_entity example_policy _ (passkey_sample_Ok example_hash)).
  split_and!; vm_compute; reflexivity.
Defined.

Lemma passkey_registration_witness :
  ∃ res, RelyingParty_FinishRegistration (Some (passkey_rp example_hash)) None passkey_verification = Ok res ∧
         cr_UVInitialized (rres_Credential res) = true.
Proof.
  destruct (passkey_registration_Ok example_hash example_hash_eq) as [res Hres]. exists res. split; [exact Hres|].
  apply (passkey_registration passkey_rp_entity example_policy _ _ None passkey_verification res
    (passkey_sample_Ok example_hash) (passkey_rp_Ok example_hash) Hres).
Defined.

Lemma passkey_authentication_witness :
  ∃ parsed, ParseAuthenticatorData (ar_AuthenticatorData (passkey_assertion example_hash)) = Ok parsed ∧
            UserVerified (Flags parsed) = true.
Proof.
  destruct (passkey_authentication_Ok example_hash example_hash_eq) as [res Hres].
  destruct (passkey_authentication passkey_rp_entity example_policy _ _ None (passkey_auth_verification example_hash) res
    (passkey_sample_Ok example_hash) (passkey_rp_Ok example_hash) Hres) as (parsed & s & Hp & _ & Hv & _).
  exists parsed. split; [exact Hp|exact Hv].
Defined.
