(* ===== verification/StoreValue.v ===== *)
(** * Extension values in stored state

    Models [src/storage/json/value.go]: the tagged form in which extension inputs
    are stored, its encoder and its decoder with their shared budget of nodes,
    bytes and nesting.  A Go map is the list of its entries in the order a loop
    visits them.  A nil and an empty slice of allowed credentials are not
    distinguished: the empty list is the nil slice. *)
From S2P Require Import Prelude Base64 GoStrings AuthData ExtValue Types Extension ExtHandlers.
Set Default Goal Selector "!".
Local Open Scope Z_scope.

Module StoreValue.
Definition MaxEnvelopeBytes : Z := Z.shiftl 1 20.
Definition ErrInvalidEnvelope : error := Sentinel "storagejson.ErrInvalidEnvelope".
Definition ErrUnsupportedExtensionValue : error := Sentinel "storagejson.ErrUnsupportedExtensionValue".

Definition valueNull : string := "null".
Definition valueBool : string := "bool".
Definition valueString : string := "string".
Definition valueBytes : string := "bytes".
Definition valueInt : string := "int".
Definition valueUint : string := "uint".
Definition valueFloat : string := "float".
Definition valueArray : string := "array".
Definition valueObject : string := "object".
Definition maxValueDepth : Z := 32.
Definition maxValueNodes : Z := 4096.

Record valueBudget := mkBudget { vb_nodes : Z; vb_bytes : Z }.

Definition consume (budget : valueBudget) (nodes bytes : Z) (invalid : error) : result valueBudget :=
  if (nodes <? 0) || (bytes <? 0) || (maxValueNodes - nodes <? vb_nodes budget) || (MaxEnvelopeBytes - bytes <? vb_bytes budget)
  then Err (ErrorText invalid "extension value exceeds storage budget")
  else Ok (mkBudget (vb_nodes budget + nodes) (vb_bytes budget + bytes)).

(** A loop that appends the result of [f] for every element; the budget is shared by all of them. *)
Fixpoint each {A B} (f : A → valueBudget → result (B * valueBudget)) (l : list A) (budget : valueBudget) :
    result (list B * valueBudget) :=
  match l with
  | [] => Ok ([], budget)
  | x :: l =>
      '(y, budget) ← f x budget;
      '(rest, budget) ← each f l budget;
      Ok (y :: rest, budget)
  end.

Inductive encodedValue : Type := mkEncoded {
  ev_Type : string;
  ev_Bool : option bool;
  ev_String : option string;
  ev_Bytes : option string;
  ev_Int : option Z;
  ev_Uint : option Z;
  ev_Float : option float;
  ev_Array : option (list encodedValue);
  ev_Object : option (list (string * encodedValue));
}.

(** ** Encoding *)

Section Encode.
Context {Ord : MapOrder}.

Definition prfValuesObject (v : PRFValues) : value :=
  VMap map_string_any
    ((KString "first", VBytes (First v))
     :: match Second v with Some _ => [(KString "second", VBytes (Second v))] | None => [] end).

(** The members a struct contributes when they are set. *)
Definition members (l : list (option (mapkey * value))) : value := VMap map_string_any (omap id l).

Definition normalizeBuiltInValue (v : value) : value :=
  match v with
  | VPRFInput i =>
      members
        [(λ e, (KString "eval", prfValuesObject e)) <$> prf_Eval i;
         (λ m, (KString "evalByCredential",
                VMap map_string_any ((λ e, (KString e.1, prfValuesObject e.2)) <$> range_list m))) <$> prf_EvalByCredential i;
         if bool_decide (prf_AllowCredentials i = []) then None
         else Some (KString "allowCredentials", VSeq (TSlice "" (TBasic "string")) (VString <$> prf_AllowCredentials i))]
  | VPRFValues p => prfValuesObject p
  | VLargeBlobInput i =>
      members
        [if bool_decide (lb_Support i = "") then None else Some (KString "support", VString (lb_Support i));
         (λ b, (KString "read", VBool b)) <$> lb_Read i;
         (λ b, (KString "write", VBytes (Some b))) <$> lb_Write i]
  | _ => v
  end.

Definition directValueBytes (v : value) : Z :=
  match v with VString s => string_len s | VBytes b => slice_len b | _ => 0 end.

(** [reflect.Kind] of the integer types. *)
Definition signed_kind (kind : string) : bool := one_of kind ["int"; "int8"; "int16"; "int32"; "int64"].
Definition unsigned_kind (kind : string) : bool := one_of kind ["uint"; "uint8"; "uint16"; "uint32"; "uint64"].

Definition unsupported (text : string) : error := ErrorText ErrUnsupportedExtensionValue text.

Definition encodedNull : encodedValue := mkEncoded valueNull None None None None None None None None.
Definition encodedBool b := mkEncoded valueBool (Some b) None None None None None None None.
Definition encodedString s := mkEncoded valueString None (Some s) None None None None None None.
Definition encodedBytes s := mkEncoded valueBytes None None (Some s) None None None None None.
Definition encodedInt z := mkEncoded valueInt None None None (Some z) None None None None.
Definition encodedUint z := mkEncoded valueUint None None None None (Some z) None None None.
Definition encodedFloat f := mkEncoded valueFloat None None None None None (Some f) None None.
Definition encodedArray l := mkEncoded valueArray None None None None None None (Some l) None.
Definition encodedObject l := mkEncoded valueObject None None None None None None None (Some l).

Definition finite (f : float) : bool := match f with FFinite _ _ => true | _ => false end.

Definition encodeFloat (f : float) : result encodedValue :=
  _ ← fail_if (negb (finite f)) (unsupported "non-finite float"); Ok (encodedFloat f).

(** The text of a key whose type has the kind string. *)
Definition key_text (k : mapkey) : option string := match k with KString s | KNamedString _ s => Some s | _ => None end.
Definition string_keyed (ty : gotype) (entries : list (mapkey * value)) : bool :=
  match ty with
  | TMap _ (TBasic name) _ =>
      if bool_decide (name = "string") then true
      else negb (bool_decide (entries = [])) && forallb (λ e, bool_decide (is_Some (key_text e.1))) entries
  | _ => false
  end.

(** An element of a [[]UVMEntry]: a struct. *)
Definition uvm_struct (e : UVMEntry) : value := VOpaque (mkOpaque "extension.UVMEntry" false 0).

(** The loops over elements and entries; [encodeItem] encodes one. *)
Section Loops.
Context (encodeItem : value → valueBudget → result (encodedValue * valueBudget)).

Definition encodeElement (x : value) (budget : valueBudget) : result (encodedValue * valueBudget) :=
  encodeItem (normalizeBuiltInValue x) budget.

Definition encodeEntry (e : mapkey * value) (budget : valueBudget) : result ((string * encodedValue) * valueBudget) :=
  let key := default "" (key_text e.1) in
  budget ← consume budget 1 (string_len key) ErrUnsupportedExtensionValue;
  '(item, budget) ← encodeItem (normalizeBuiltInValue e.2) budget;
  Ok ((key, item), budget).
End Loops.

(** The depth grows by one with every call and is at most 33, so the fuel of the
    callers, 34, does not run out. *)
Fixpoint encodeValueAt (fuel : nat) (v : value) (depth : Z) (budget : valueBudget) : result (encodedValue * valueBudget) :=
  match fuel with
  | O => Err (unsupported "nesting too deep")
  | S fuel =>
      _ ← fail_if (maxValueDepth <? depth) (unsupported "nesting too deep");
      budget ← consume budget 1 (directValueBytes v) ErrUnsupportedExtensionValue;
      match v with
      | VNil => Ok (encodedNull, budget)
      | VBool b => Ok (encodedBool b, budget)
      | VString s => Ok (encodedString s, budget)
      | VBytes b => Ok (encodedBytes (EncodeToString (slice_list b)), budget)
      | VFloat kind f =>
          if one_of kind ["float32"; "float64"] then e ← encodeFloat f; Ok (e, budget) else Err (unsupported "type")
      | VInt kind z =>
          if signed_kind kind then Ok (encodedInt z, budget)
          else if unsigned_kind kind then Ok (encodedUint z, budget)
          else Err (unsupported "type")
      | VSeq _ items =>
          '(array, budget) ← each (encodeElement (λ x, encodeValueAt fuel x (depth + 1))) items budget;
          Ok (encodedArray array, budget)
      | VMap ty entries =>
          _ ← fail_if (negb (string_keyed ty entries)) (unsupported "map key type");
          '(object, budget) ← each (encodeEntry (λ x, encodeValueAt fuel x (depth + 1))) entries budget;
          Ok (encodedObject object, budget)
      | VUVMEntries es =>
          '(array, budget) ← each (encodeElement (λ x, encodeValueAt fuel x (depth + 1))) (uvm_struct <$> es) budget;
          Ok (encodedArray array, budget)
      | _ => Err (unsupported "type")
      end
  end.
Definition depth_fuel : nat := 34.

(** [values == nil] and an empty map both give no entries. *)
Fixpoint encodeInputs {Custom : CustomTypes} (inputs : list (string * value)) (budget : valueBudget) :
    result (list (string * encodedValue)) :=
  match inputs with
  | [] => Ok []
  | (id, value) :: inputs =>
      _ ← fail_if (negb (protocolidentifier_Valid id)) (unsupported "invalid extension id");
      budget ← consume budget 1 (string_len id) ErrUnsupportedExtensionValue;
      raw ← wrap_err ErrUnsupportedExtensionValue (InputValue value);
      '(encoded, budget) ← map_err (λ e, ErrorText e id) (encodeValueAt depth_fuel (normalizeBuiltInValue raw) 0 budget);
      out ← encodeInputs inputs budget;
      Ok ((id, encoded) :: out)
  end.

Definition encodeExtensionValues {Custom : CustomTypes} (values : ExtensionInputs) : result (list (string * encodedValue)) :=
  _ ← fail_if (MaxEntries <? map_len values) (ErrorWrap ErrUnsupportedExtensionValue ErrTooManyEntries);
  encodeInputs (range_list values) (mkBudget 0 0).
End Encode.

(** ** Decoding *)

Definition malformed (text : string) : error := ErrorText ErrInvalidEnvelope text.

Definition is_set {A} (o : option A) : bool := match o with Some _ => true | None => false end.

Definition validateEncodedValue (v : encodedValue) : result () :=
  let present := [is_set (ev_Bool v); is_set (ev_String v); is_set (ev_Bytes v); is_set (ev_Int v); is_set (ev_Uint v);
                  is_set (ev_Float v); is_set (ev_Array v); is_set (ev_Object v)] in
  let fields := foldr (λ b n, if b : bool then S n else n) 0%nat present in
  let one := (fields =? 1)%nat in
  let type := ev_Type v in
  let valid :=
    if bool_decide (type = valueNull) then (fields =? 0)%nat
    else if bool_decide (type = valueBool) then one && is_set (ev_Bool v)
    else if bool_decide (type = valueString) then one && is_set (ev_String v)
    else if bool_decide (type = valueBytes) then one && is_set (ev_Bytes v)
    else if bool_decide (type = valueInt) then one && is_set (ev_Int v)
    else if bool_decide (type = valueUint) then one && is_set (ev_Uint v)
    else if bool_decide (type = valueFloat) then one && is_set (ev_Float v)
    else if bool_decide (type = valueArray) then one && is_set (ev_Array v)
    else if bool_decide (type = valueObject) then one && is_set (ev_Object v)
    else false in
  fail_if (negb valid) (malformed "value fields do not match type").

Definition encodedValueBytes (v : encodedValue) : Z :=
  match ev_String v, ev_Bytes v with
  | Some s, _ => string_len s
  | None, Some s => string_len s
  | None, None => 0
  end.

Definition decodeEntry (decodeItem : encodedValue → valueBudget → result (value * valueBudget)) (e : string * encodedValue)
    (budget : valueBudget) : result ((mapkey * value) * valueBudget) :=
  budget ← consume budget 1 (string_len e.1) ErrInvalidEnvelope;
  '(item, budget) ← decodeItem e.2 budget;
  Ok ((KString e.1, item), budget).

(** The same bound on the depth as the encoder's.  A dereferenced field is
    present by the validation of the value. *)
Fixpoint decodeValueAt (fuel : nat) (v : encodedValue) (depth : Z) (budget : valueBudget) : result (value * valueBudget) :=
  match fuel with
  | O => Err (malformed "nesting too deep")
  | S fuel =>
      _ ← fail_if (maxValueDepth <? depth) (malformed "nesting too deep");
      _ ← validateEncodedValue v;
      budget ← consume budget 1 (encodedValueBytes v) ErrInvalidEnvelope;
      let type := ev_Type v in
      if bool_decide (type = valueNull) then Ok (VNil, budget)
      else if bool_decide (type = valueBool) then b ← of_option NilDereference (ev_Bool v); Ok (VBool b, budget)
      else if bool_decide (type = valueString) then s ← of_option NilDereference (ev_String v); Ok (VString s, budget)
      else if bool_decide (type = valueBytes) then
        text ← of_option NilDereference (ev_Bytes v);
        decoded ← of_option (malformed "invalid extension bytes") (DecodeString text);
        _ ← fail_if (negb (bool_decide (EncodeToString decoded = text))) (malformed "invalid extension bytes");
        Ok (VBytes (Some decoded), budget)
      else if bool_decide (type = valueInt) then z ← of_option NilDereference (ev_Int v); Ok (VInt "int64" z, budget)
      else if bool_decide (type = valueUint) then z ← of_option NilDereference (ev_Uint v); Ok (VInt "uint64" z, budget)
      else if bool_decide (type = valueFloat) then
        f ← of_option NilDereference (ev_Float v);
        _ ← fail_if (negb (finite f)) (malformed "non-finite float");
        Ok (VFloat "float64" f, budget)
      else if bool_decide (type = valueArray) then
        items ← of_option NilDereference (ev_Array v);
        '(out, budget) ← each (λ x, decodeValueAt fuel x (depth + 1)) items budget;
        Ok (VSeq slice_any out, budget)
      else if bool_decide (type = valueObject) then
        entries ← of_option NilDereference (ev_Object v);
        '(out, budget) ← each (decodeEntry (λ x, decodeValueAt fuel x (depth + 1))) entries budget;
        Ok (VMap map_string_any out, budget)
      else Err (malformed "unknown value type")
  end.

Fixpoint decodeInputs {Custom : CustomTypes} (values : list (string * encodedValue)) (out : ExtensionInputs)
    (budget : valueBudget) : result ExtensionInputs :=
  match values with
  | [] => Ok out
  | (id, value) :: values =>
      _ ← fail_if (negb (protocolidentifier_Valid id)) (malformed "invalid extension id");
      budget ← consume budget 1 (string_len id) ErrInvalidEnvelope;
      '(decoded, budget) ← map_err (λ e, ErrorText e id) (decodeValueAt depth_fuel value 0 budget);
      input ← wrap_err ErrInvalidEnvelope (NormalizeInput decoded);
      decodeInputs values (<[id := input]> out) budget
  end.

Definition decodeExtensionValues {Custom : CustomTypes} (values : list (string * encodedValue)) : result ExtensionInputs :=
  _ ← fail_if (MaxEntries <? Z.of_nat (length values)) (ErrorWrap ErrInvalidEnvelope ErrTooManyEntries);
  decodeInputs values ∅ (mkBudget 0 0).
End StoreValue.

(** ** Specification *)
Section Spec.
Import StoreValue.

(** Plain data: what the decoder returns. *)
Fixpoint plain_data (v : value) : bool :=
  match v with
  | VNil | VBool _ | VString _ | VBytes (Some _) => true
  | VInt kind _ => one_of kind ["int64"; "uint64"]
  | VFloat kind f => bool_decide (kind = "float64") && finite f
  | VSeq ty items => bool_decide (ty = slice_any) && forallb plain_data items
  | VMap ty entries =>
      bool_decide (ty = map_string_any)
      && forallb (λ '(k, v), match k with KString _ => plain_data v | _ => false end) entries
  | _ => false
  end.

(** The tagged form of plain data. *)
Fixpoint encoded (v : value) : encodedValue :=
  match v with
  | VBool b => encodedBool b
  | VString s => encodedString s
  | VBytes b => encodedBytes (EncodeToString (slice_list b))
  | VInt kind z => if bool_decide (kind = "int64") then encodedInt z else encodedUint z
  | VFloat _ f => encodedFloat f
  | VSeq _ items => encodedArray (encoded <$> items)
  | VMap _ entries => encodedObject ((λ e, (default "" (key_text e.1), encoded e.2)) <$> entries)
  | _ => encodedNull
  end.

(** Bytes of the stored texts. *)
Fixpoint text_bytes (v : value) : Z :=
  match v with
  | VString s => string_len s
  | VBytes b => string_len (EncodeToString (slice_list b))
  | VSeq _ items => foldr (λ x acc, text_bytes x + acc) 0 items
  | VMap _ entries => foldr (λ e acc, mapKeyByteSize e.1 + text_bytes e.2 + acc) 0 entries
  | _ => 0
  end.

(** The plain data of an accepted value; [builtin] gives that of the typed inputs. *)
Fixpoint plain_with (builtin : value → option value) (v : value) : option value :=
  match v with
  | VNil | VBool _ | VString _ => Some v
  | VBytes b => Some (VBytes (Some (slice_list b)))
  | VInt kind z =>
      if signed_kind kind then Some (VInt "int64" z) else if unsigned_kind kind then Some (VInt "uint64" z) else None
  | VFloat kind f => if one_of kind ["float32"; "float64"] && finite f then Some (VFloat "float64" f) else None
  | VSeq _ items => VSeq slice_any <$> mapM (plain_with builtin) items
  | VMap ty entries =>
      if string_keyed ty entries
      then VMap map_string_any <$> mapM (λ e, (λ w, (KString (default "" (key_text e.1)), w)) <$> plain_with builtin e.2) entries
      else None
  | VUVMEntries [] => Some (VSeq slice_any [])
  | VPRFInput _ | VPRFValues _ | VLargeBlobInput _ => builtin v
  | _ => None
  end.
Definition plain {Ord : MapOrder} : value → option value :=
  plain_with (λ v, plain_with (λ _, None) (normalizeBuiltInValue v)).

Definition fits (b : valueBudget) (nodes bytes : Z) : Prop := vb_nodes b + nodes <= 4096 ∧ vb_bytes b + bytes <= 1048576.
Definition spent (b : valueBudget) (nodes bytes : Z) : valueBudget := mkBudget (vb_nodes b + nodes) (vb_bytes b + bytes).
End Spec.

(** ** Lemmas *)
Definition total {A} (f : A → Z) (l : list A) : Z := foldr (λ x acc, f x + acc) 0 l.
Lemma total_cons {A} (f : A → Z) x l : total f (x :: l) = f x + total f l.
Proof. done. Qed.

Ltac budget := unfold fits, spent in *; cbn [StoreValue.vb_nodes StoreValue.vb_bytes] in *; rewrite ?total_cons in *; lia.
Ltac prune H o := destruct o; cbn in H; try discriminate H.

Section Lemmas.
Import StoreValue.

Lemma spent_0 b : spent b 0 0 = b.
Proof. destruct b. unfold spent. cbn. f_equal; lia. Qed.
Lemma spent_spent b n1 y1 n2 y2 : spent (spent b n1 y1) n2 y2 = spent b (n1 + n2) (y1 + y2).
Proof. unfold spent. cbn. f_equal; lia. Qed.

Lemma store_consume_Ok b nodes bytes e b' : 0 <= nodes → 0 <= bytes →
  consume b nodes bytes e = Ok b' ↔ fits b nodes bytes ∧ b' = spent b nodes bytes.
Proof.
  intros Hn Hb. unfold consume, fits, spent, maxValueNodes, MaxEnvelopeBytes. change (Z.shiftl 1 20) with 1048576.
  rewrite (proj2 (Z.ltb_ge nodes 0)), (proj2 (Z.ltb_ge bytes 0)) by lia. cbn [orb].
  destruct (Z.ltb_spec (4096 - nodes) (vb_nodes b)), (Z.ltb_spec (1048576 - bytes) (vb_bytes b)); cbn [orb];
    (split; [intros [=]; subst|intros [[? ?] ->]]); try lia; try (split; [lia|done]); done.
Qed.

Lemma total_nonneg {A} (f : A → Z) l : (∀ x, 0 <= f x) → 0 <= total f l.
Proof. intros Hf. induction l as [|x l IH]; [done|]. rewrite total_cons. pose proof (Hf x). lia. Qed.

(** The loops: if each step succeeds with a choice [c] exactly when [R x c] and the budget allows its cost, the loop
    succeeds exactly when the budget allows the total. *)
Section Each.
Context {A B C : Type} (f : A → valueBudget → result (B * valueBudget)) (R : A → C → Prop) (out : C → B).
Context (nodes bytes : C → Z) (Hnodes : ∀ c, 0 <= nodes c) (Hbytes : ∀ c, 0 <= bytes c).

Definition costs (x : A) : Prop := ∀ b y b', fits b 0 0 →
  f x b = Ok (y, b') ↔ ∃ c, R x c ∧ y = out c ∧ fits b (nodes c) (bytes c) ∧ b' = spent b (nodes c) (bytes c).

Lemma each_Ok l : Forall costs l → ∀ b ys b', fits b 0 0 →
  each f l b = Ok (ys, b') ↔
  ∃ cs, Forall2 R l cs ∧ ys = out <$> cs ∧ fits b (total nodes cs) (total bytes cs) ∧
        b' = spent b (total nodes cs) (total bytes cs).
Proof.
  induction 1 as [|x l Hx _ IH]; intros b ys b' Hb; cbn [each].
  - split.
    + intros [= <- <-]. exists []. rewrite spent_0. by split_and!; [constructor| | |].
    + intros (cs & ->%Forall2_nil_inv_l & -> & _ & ->). cbn. by rewrite spent_0.
  - split.
    + intros H. apply bind_Ok in H as ([y b1] & (c & Hc & -> & Hf & ->)%Hx & H); [|done].
      apply bind_Ok in H as ([rest b2] & H & [= <- <-]).
      apply IH in H as (cs & Hcs & -> & Hf2 & ->); [|budget].
      exists (c :: cs). rewrite spent_spent. split_and!; [by constructor|done| |done]. budget.
    + intros (cs' & H & -> & Hf & ->). apply Forall2_cons_inv_l in H as (c & cs & Hc & Hcs & ->).
      pose proof (total_nonneg nodes cs Hnodes). pose proof (total_nonneg bytes cs Hbytes).
      pose proof (Hnodes c). pose proof (Hbytes c).
      rewrite (proj2 (Hx b (out c) (spent b (nodes c) (bytes c)) Hb)) by (exists c; split_and!; try done; budget).
      run. rewrite (proj2 (IH (spent b (nodes c) (bytes c)) (out <$> cs) (spent (spent b (nodes c) (bytes c)) (total nodes cs) (total bytes cs))
        ltac:(budget))).
      * run. by rewrite spent_spent.
      * exists cs. split_and!; try done; budget.
Qed.
End Each.

Lemma text_bytes_nonneg v : 0 <= text_bytes v.
Proof.
  induction v as [v Hv|p v IH|ty items IH|ty entries IH] using value_ind'.
  - destruct v; cbn; try done; apply string_len_nonneg.
  - cbn. lia.
  - cbn. induction IH as [|x items Hx Hitems IHl]; cbn; lia.
  - cbn. induction IH as [|[k x] entries Hx Hitems IHl]; cbn in *; [lia|].
    pose proof (mapKeyByteSize_nonneg k). lia.
Qed.

(** Nesting within the limit, level by level. *)
Lemma max_within d n m : d + (1 + n) `max` m <= 32 ↔ d + 1 + n <= 32 ∧ d + m <= 32.
Proof. lia. Qed.
Lemma depth_items d ty items : d + value_depth (VSeq ty items) <= 32 ↔ d <= 32 ∧ Forall (λ x, d + 1 + value_depth x <= 32) items.
Proof.
  cbn. induction items as [|x items IH]; cbn; [rewrite Forall_nil; lia|].
  rewrite Forall_cons, max_within, IH. tauto.
Qed.
Lemma depth_entries d ty es : d + value_depth (VMap ty es) <= 32 ↔ d <= 32 ∧ Forall (λ e, d + 1 + value_depth e.2 <= 32) es.
Proof.
  cbn. induction es as [|x es IH]; cbn; [rewrite Forall_nil; lia|].
  rewrite Forall_cons, max_within, IH. tauto.
Qed.

(** One field, the one its type names. *)
Lemma validateEncodedValue_Ok e :
  validateEncodedValue e = Ok () ↔
  e = encodedNull ∨ (∃ b, e = encodedBool b) ∨ (∃ s, e = encodedString s) ∨ (∃ s, e = encodedBytes s) ∨
  (∃ z, e = encodedInt z) ∨ (∃ z, e = encodedUint z) ∨ (∃ f, e = encodedFloat f) ∨ (∃ l, e = encodedArray l) ∨
  (∃ l, e = encodedObject l).
Proof.
  split.
  - destruct e as [ty o1 o2 o3 o4 o5 o6 o7 o8]. unfold validateEncodedValue. cbn [ev_Type ev_Bool ev_String ev_Bytes ev_Int ev_Uint ev_Float ev_Array ev_Object].
    intros H%fail_if_Ok%negb_false_iff.
    repeat (case_bool_decide; [subst; prune H o1; prune H o2; prune H o3; prune H o4; prune H o5; prune H o6; prune H o7;
      prune H o8; eauto 12|]). done.
  - intros H. destruct_or!; [by subst|destruct H as [? ->]; reflexivity..].
Qed.

(** A value of cost [n], [y] with the depth [d + depth]. *)
Lemma decode_step d b (n : error) k v b' e :
  fits b 0 0 → validateEncodedValue e = Ok () → 0 <= encodedValueBytes e →
  (_ ← fail_if (maxValueDepth <? d) n; _ ← validateEncodedValue e;
   budget ← consume b 1 (encodedValueBytes e) ErrInvalidEnvelope; k budget) = Ok (v, b') ↔
  d <= 32 ∧ fits b 1 (encodedValueBytes e) ∧ k (spent b 1 (encodedValueBytes e)) = Ok (v, b') :> result (value * valueBudget).
Proof.
  intros Hb He Hn. rewrite He. unfold maxValueDepth. split.
  - intros H. apply bind_Ok in H as ([] & Hd%fail_if_Ok%Z.ltb_ge & H). apply bind_Ok in H as ([] & _ & H).
    apply bind_Ok in H as (b1 & [Hf ->]%store_consume_Ok & H); [done|lia|done].
  - intros (Hd & Hf & H). rewrite (proj2 (Z.ltb_ge _ _)) by lia. run.
    by rewrite (proj2 (store_consume_Ok b 1 _ ErrInvalidEnvelope (spent b 1 (encodedValueBytes e)) ltac:(lia) Hn)).
Qed.

Definition decoded (fuel : nat) : Prop := ∀ e d b v b', 34 <= Z.of_nat fuel + d → fits b 0 0 →
  decodeValueAt fuel e d b = Ok (v, b') ↔
  plain_data v = true ∧ e = encoded v ∧ d + value_depth v <= 32 ∧ fits b (value_nodes v) (text_bytes v) ∧
  b' = spent b (value_nodes v) (text_bytes v).

Lemma decode_leaf fuel d b e v w b' :
  (∀ fuel, decodeValueAt (S fuel) e d b =
     (_ ← fail_if (maxValueDepth <? d) (malformed "nesting too deep"); _ ← validateEncodedValue e;
      budget ← consume b 1 (encodedValueBytes e) ErrInvalidEnvelope; Ok (w, budget))) →
  fits b 0 0 → validateEncodedValue e = Ok () → e = encoded w → plain_data w = true → value_nodes w = 1 →
  value_depth w = 0 → text_bytes w = encodedValueBytes e → (∀ v, plain_data v = true → e = encoded v → v = w) →
  decodeValueAt (S fuel) e d b = Ok (v, b') ↔
  plain_data v = true ∧ e = encoded v ∧ d + value_depth v <= 32 ∧ fits b (value_nodes v) (text_bytes v) ∧
  b' = spent b (value_nodes v) (text_bytes v).
Proof.
  intros Heq Hb He Hew Hp Hn Hd Ht Hinj. pose proof (text_bytes_nonneg w) as Hpos. rewrite Ht in Hpos.
  rewrite Heq, decode_step by done. split.
  - intros (Hd' & Hf & [= <- <-]). rewrite Hn, Hd, Ht. split_and!; try done; lia.
  - intros (Hv & Hev & Hd' & Hf & ->). assert (v = w) as -> by (by apply Hinj). rewrite Hn, Hd, Ht in *.
    split_and!; try done; lia.
Qed.

Lemma Forall2_image {A B} (g : B → A) (P : B → Prop) l cs :
  Forall2 (λ x c, x = g c ∧ P c) l cs ↔ l = g <$> cs ∧ Forall P cs.
Proof.
  split.
  - induction 1 as [|x c l cs [-> Hc] _ [-> IH]]; [by split; [|constructor]|]. by split; [|constructor].
  - intros [-> H]. induction H as [|c cs Hc _ IH]; constructor; auto.
Qed.

Lemma Forall2_and_right {A B} (R : A → B → Prop) (P : B → Prop) l cs :
  Forall2 R l cs ∧ Forall P cs ↔ Forall2 (λ x c, R x c ∧ P c) l cs.
Proof.
  split.
  - intros [H HP]. induction H; [constructor|]. apply Forall_cons in HP as [? ?]. by constructor; auto.
  - induction 1 as [|x c l cs [Hx Hc] _ [IH1 IH2]]; split; by constructor.
Qed.

Lemma Forall2_right {A B} (R : A → B → Prop) l cs c : Forall2 R l cs → c ∈ cs → ∃ x, x ∈ l ∧ R x c.
Proof.
  induction 1 as [|x c' l cs Hx _ IH]; [by intros ?%not_elem_of_nil|].
  intros [->|(y & ? & ?)%IH]%elem_of_cons; [exists x|exists y]; split; try done; [by left|by right].
Qed.

Lemma Forall2_left {A B} (R : A → B → Prop) l cs x : Forall2 R l cs → x ∈ l → ∃ c, c ∈ cs ∧ R x c.
Proof. intros H%Forall2_flip Hx. by apply (Forall2_right _ _ _ _ H). Qed.

Lemma plain_items items : forallb plain_data items = true ↔ Forall (λ x, plain_data x = true) items.
Proof. rewrite forallb_forall, Forall_forall. setoid_rewrite list_elem_of_In. done. Qed.

Definition plain_entry (e : mapkey * value) : Prop := (∃ k, e.1 = KString k) ∧ plain_data e.2 = true.
Lemma plain_entries es :
  forallb (λ '(k, v), match k with KString _ => plain_data v | _ => false end) es = true ↔ Forall plain_entry es.
Proof.
  rewrite forallb_forall, Forall_forall. setoid_rewrite list_elem_of_In. split.
  - intros H [k v] Hin. specialize (H _ Hin). cbn in H. destruct k; try done. split; [by eexists|done].
  - intros H [k v] Hin. destruct (H _ Hin) as [[k' Hk] Hv]. cbn in *. by subst k.
Qed.

Lemma encoded_valid v : plain_data v = true → validateEncodedValue (encoded v) = Ok ().
Proof. intros _. destruct v; try done. cbn. by case_bool_decide. Qed.

Definition encoded_entry (e : mapkey * value) : string * encodedValue := (default "" (key_text e.1), encoded e.2).

(** The values of one tag. *)
Lemma encoded_array l v : plain_data v = true → encodedArray l = encoded v → ∃ items, v = VSeq slice_any items ∧ l = encoded <$> items.
Proof.
  destruct v; cbn; try done; [by case_bool_decide|]. intros [->%bool_decide_eq_true _]%andb_true_iff [= ->]. by eexists.
Qed.
Lemma encoded_object l v : plain_data v = true → encodedObject l = encoded v →
  ∃ es, v = VMap map_string_any es ∧ l = encoded_entry <$> es.
Proof.
  destruct v; cbn; try done; [by case_bool_decide|]. intros [->%bool_decide_eq_true _]%andb_true_iff [= ->]. by eexists.
Qed.

Lemma decode_array fuel : decoded fuel → ∀ l d b v b', 34 <= Z.of_nat (S fuel) + d → fits b 0 0 →
  decodeValueAt (S fuel) (encodedArray l) d b = Ok (v, b') ↔
  plain_data v = true ∧ encodedArray l = encoded v ∧ d + value_depth v <= 32 ∧ fits b (value_nodes v) (text_bytes v) ∧
  b' = spent b (value_nodes v) (text_bytes v).
Proof.
  intros IH l d b v b' Hfuel Hb.
  set (k := λ budget, '(out, budget) ← each (λ x, decodeValueAt fuel x (d + 1)) l budget; Ok (VSeq slice_any out, budget)).
  change (decodeValueAt (S fuel) (encodedArray l) d b) with
    (_ ← fail_if (maxValueDepth <? d) (malformed "nesting too deep"); _ ← validateEncodedValue (encodedArray l);
     budget ← consume b 1 (encodedValueBytes (encodedArray l)) ErrInvalidEnvelope; k budget).
  rewrite decode_step by done. change (encodedValueBytes (encodedArray l)) with 0. unfold k. clear k.
  assert (Hloop : ∀ b ys b', fits b 0 0 →
    each (λ x, decodeValueAt fuel x (d + 1)) l b = Ok (ys, b') ↔
    (l = encoded <$> ys ∧ Forall (λ w, plain_data w = true ∧ d + 1 + value_depth w <= 32) ys) ∧
    fits b (total value_nodes ys) (total text_bytes ys) ∧ b' = spent b (total value_nodes ys) (total text_bytes ys)).
  { intros b0 ys b1 Hb0. rewrite (each_Ok _ (λ e w, e = encoded w ∧ plain_data w = true ∧ d + 1 + value_depth w <= 32) id
      value_nodes text_bytes (λ c, ltac:(pose proof (value_size_nonneg c); lia)) text_bytes_nonneg) by
      (try done; apply Forall_forall; intros e _ b2 w b3 Hb2; rewrite (IH e (d + 1) b2 w b3) by (lia || done); naive_solver).
    setoid_rewrite Forall2_image. setoid_rewrite list_fmap_id. naive_solver. }
  split.
  - intros (Hd & Hf & H). apply bind_Ok in H as ([ys b1] & H & [= <- <-]).
    apply Hloop in H as ((-> & Hys) & Hf2 & ->); [|budget]. apply Forall_and in Hys as [Hp Hdp]. rewrite spent_spent.
    split; [cbn; rewrite bool_decide_eq_true_2 by done; by apply plain_items|]. split; [done|].
    split; [by apply depth_items|]. change (value_nodes (VSeq slice_any ys)) with (1 + total value_nodes ys).
    change (text_bytes (VSeq slice_any ys)) with (total text_bytes ys). split; [budget|done].
  - intros (Hp & He & Hd & Hf & ->). destruct (encoded_array l v Hp He) as (ys & -> & Hl).
    cbn in Hp. rewrite bool_decide_eq_true_2 in Hp by done. apply plain_items in Hp. apply depth_items in Hd as [Hd Hds].
    change (value_nodes (VSeq slice_any ys)) with (1 + total value_nodes ys) in *.
    change (text_bytes (VSeq slice_any ys)) with (total text_bytes ys) in *.
    pose proof (total_nonneg value_nodes ys (λ c, ltac:(pose proof (value_size_nonneg c); lia))).
    pose proof (total_nonneg text_bytes ys text_bytes_nonneg).
    split; [done|]. split; [budget|]. apply bind_Ok.
    exists (ys, spent (spent b 1 0) (total value_nodes ys) (total text_bytes ys)).
    split; [|by rewrite spent_spent, Z.add_0_l]. apply Hloop; [budget|]. split_and!; [done|by apply Forall_and|budget|done].
Qed.

Lemma decode_entry fuel : decoded fuel → ∀ d (e : string * encodedValue), 34 <= Z.of_nat (S fuel) + d →
  costs (decodeEntry (λ x, decodeValueAt fuel x (d + 1)))
    (λ e c, e = encoded_entry c ∧ plain_entry c ∧ d + 1 + value_depth c.2 <= 32) id
    (λ c, 1 + value_nodes c.2) (λ c, mapKeyByteSize c.1 + text_bytes c.2) e.
Proof.
  intros IH d [k e] Hfuel b [k' v] b' Hb. unfold decodeEntry. cbn [fst snd]. pose proof (string_len_nonneg k) as Hkl. split.
  - intros H. apply bind_Ok in H as (b1 & Hc & H). apply store_consume_Ok in Hc as [Hf ->]; [|lia|lia].
    apply bind_Ok in H as ([v' b2] & H & [= <- <- <-]).
    apply IH in H as (Hp & -> & Hd & Hf2 & ->); [|lia|budget]. exists (KString k, v'). rewrite spent_spent.
    split_and!; try done; [by split; [eexists|]|cbn [fst snd mapKeyByteSize]; budget].
  - intros ([k2 w] & ([= Hk ->] & [[s Hs] Hp] & Hd) & [= -> ->] & Hf & ->). cbn in Hs, Hk. subst. cbn [fst snd default from_option id key_text mapKeyByteSize] in *.
    pose proof (string_len_nonneg s). pose proof (value_size_nonneg w). pose proof (text_bytes_nonneg w).
    rewrite (proj2 (store_consume_Ok b 1 (string_len s) ErrInvalidEnvelope (spent b 1 (string_len s)) ltac:(lia) ltac:(lia))) by (split; [budget|done]).
    run. rewrite (proj2 (IH (encoded w) (d + 1) (spent b 1 (string_len s)) w (spent (spent b 1 (string_len s)) (value_nodes w) (text_bytes w))
      ltac:(lia) ltac:(budget))) by (split_and!; try done; budget).
    run. by rewrite spent_spent.
Qed.

Lemma nodes_nonneg v : 0 <= value_nodes v.
Proof. pose proof (value_size_nonneg v). lia. Qed.
Lemma entry_nodes_nonneg (e : mapkey * value) : 0 <= 1 + value_nodes e.2.
Proof. pose proof (nodes_nonneg e.2). lia. Qed.
Lemma entry_text_nonneg (e : mapkey * value) : 0 <= mapKeyByteSize e.1 + text_bytes e.2.
Proof. pose proof (mapKeyByteSize_nonneg e.1). pose proof (text_bytes_nonneg e.2). lia. Qed.

Lemma decode_object fuel : decoded fuel → ∀ l d b v b', 34 <= Z.of_nat (S fuel) + d → fits b 0 0 →
  decodeValueAt (S fuel) (encodedObject l) d b = Ok (v, b') ↔
  plain_data v = true ∧ encodedObject l = encoded v ∧ d + value_depth v <= 32 ∧ fits b (value_nodes v) (text_bytes v) ∧
  b' = spent b (value_nodes v) (text_bytes v).
Proof.
  intros IH l d b v b' Hfuel Hb.
  set (k := λ budget, '(out, budget) ← each (decodeEntry (λ x, decodeValueAt fuel x (d + 1))) l budget; Ok (VMap map_string_any out, budget)).
  change (decodeValueAt (S fuel) (encodedObject l) d b) with
    (_ ← fail_if (maxValueDepth <? d) (malformed "nesting too deep"); _ ← validateEncodedValue (encodedObject l);
     budget ← consume b 1 (encodedValueBytes (encodedObject l)) ErrInvalidEnvelope; k budget).
  rewrite decode_step by done. change (encodedValueBytes (encodedObject l)) with 0. unfold k. clear k.
  set (n := λ e : mapkey * value, 1 + value_nodes e.2). set (y := λ e : mapkey * value, mapKeyByteSize e.1 + text_bytes e.2).
  assert (Hsize : ∀ es, value_nodes (VMap map_string_any es) = 1 + total n es ∧ text_bytes (VMap map_string_any es) = total y es) by done.
  assert (Hloop : ∀ b ys b', fits b 0 0 →
    each (decodeEntry (λ x, decodeValueAt fuel x (d + 1))) l b = Ok (ys, b') ↔
    (l = encoded_entry <$> ys ∧ Forall (λ c, plain_entry c ∧ d + 1 + value_depth c.2 <= 32) ys) ∧
    fits b (total n ys) (total y ys) ∧ b' = spent b (total n ys) (total y ys)).
  { intros b0 ys b1 Hb0. rewrite (each_Ok _ (λ e c, e = encoded_entry c ∧ plain_entry c ∧ d + 1 + value_depth c.2 <= 32) id
      n y entry_nodes_nonneg entry_text_nonneg) by (try done; apply Forall_forall; intros; by apply decode_entry).
    setoid_rewrite Forall2_image. setoid_rewrite list_fmap_id. naive_solver. }
  pose proof (λ es, total_nonneg n es entry_nodes_nonneg) as Hn. pose proof (λ es, total_nonneg y es entry_text_nonneg) as Hy.
  split.
  - intros (Hd & Hf & H). apply bind_Ok in H as ([ys b1] & H & [= <- <-]).
    apply Hloop in H as ((-> & Hys) & Hf2 & ->); [|budget]. apply Forall_and in Hys as [Hp Hdp]. rewrite spent_spent.
    split; [cbn; rewrite bool_decide_eq_true_2 by done; by apply plain_entries|]. split; [done|].
    split; [by apply depth_entries|]. destruct (Hsize ys) as [-> ->]. split; [budget|done].
  - intros (Hp & He & Hd & Hf & ->). destruct (encoded_object l v Hp He) as (ys & -> & Hl).
    cbn in Hp. rewrite bool_decide_eq_true_2 in Hp by done. apply plain_entries in Hp. apply depth_entries in Hd as [Hd Hds].
    destruct (Hsize ys) as [Hs1 Hs2]. rewrite Hs1, Hs2 in *. specialize (Hn ys). specialize (Hy ys).
    split; [done|]. split; [budget|]. apply bind_Ok. exists (ys, spent (spent b 1 0) (total n ys) (total y ys)).
    split; [|by rewrite spent_spent, Z.add_0_l]. apply Hloop; [budget|]. split_and!; [done|by apply Forall_and|budget|done].
Qed.

Lemma decode_bytes_step fuel t d b v b' : fits b 0 0 →
  decodeValueAt (S fuel) (encodedBytes t) d b = Ok (v, b') ↔
  plain_data v = true ∧ encodedBytes t = encoded v ∧ d + value_depth v <= 32 ∧ fits b (value_nodes v) (text_bytes v) ∧
  b' = spent b (value_nodes v) (text_bytes v).
Proof.
  intros Hb.
  set (k := λ budget : valueBudget, decoded ← of_option (malformed "invalid extension bytes") (DecodeString t);
    _ ← fail_if (negb (bool_decide (EncodeToString decoded = t))) (malformed "invalid extension bytes");
    Ok (VBytes (Some decoded), budget)).
  change (decodeValueAt (S fuel) (encodedBytes t) d b) with
    (_ ← fail_if (maxValueDepth <? d) (malformed "nesting too deep"); _ ← validateEncodedValue (encodedBytes t);
     budget ← consume b 1 (encodedValueBytes (encodedBytes t)) ErrInvalidEnvelope; k budget).
  rewrite decode_step by (done || apply string_len_nonneg).
  assert (Hk : ∀ budget v b', k budget = Ok (v, b') ↔ ∃ l, t = EncodeToString l ∧ v = VBytes (Some l) ∧ b' = budget).
  { intros budget w b1. unfold k. split.
    - intros H. res_inv. guards in Hok0. injection H as <- <-. by exists a.
    - intros (l & -> & -> & ->). rewrite decode_encode. run. by rewrite bool_decide_eq_true_2. }
  rewrite Hk. clear Hk k. change (encodedValueBytes (encodedBytes t)) with (string_len t). split.
  - intros (Hd & Hf & l & -> & -> & ->). split_and!; try done. cbn. lia.
  - intros (Hp & He & Hd & Hf & ->). destruct v; cbn in He; try done; [by case_bool_decide|]. destruct b0 as [l|]; [|done].
    injection He as ->. cbn [value_depth value_nodes text_bytes slice_list default from_option id] in *.
    split_and!; [lia|done|]. by exists l.
Qed.

Lemma decode_spec fuel : decoded fuel.
Proof.
  induction fuel as [|fuel IH]; intros e d b v b' Hfuel Hb.
  { split; [done|]. intros (_ & _ & Hd & _). pose proof (value_size_nonneg v). lia. }
  destruct (validateEncodedValue e) as [[]|err] eqn:Hval.
  2: { split.
    - intros H. cbn in H. rewrite Hval in H. by destruct (maxValueDepth <? d).
    - intros (Hp & -> & _). by rewrite encoded_valid in Hval. }
  assert (Hv := Hval). apply validateEncodedValue_Ok in Hval.
  destruct Hval as [->|[[x ->]|[[x ->]|[[x ->]|[[x ->]|[[x ->]|[[x ->]|[[x ->]|[x ->]]]]]]]]].
  - apply (decode_leaf fuel d b encodedNull v VNil); try done. intros []; try done. cbn. by case_bool_decide.
  - apply (decode_leaf fuel d b (encodedBool x) v (VBool x)); try done. intros []; try done; cbn; [by intros _ [= ->]|by case_bool_decide].
  - apply (decode_leaf fuel d b (encodedString x) v (VString x)); try done. intros []; try done; cbn; [by intros _ [= ->]|by case_bool_decide].
  - by apply decode_bytes_step.
  - apply (decode_leaf fuel d b (encodedInt x) v (VInt "int64" x)); try done.
    intros []; try done; cbn. case_bool_decide; [by intros _ [= ->]; subst|done].
  - apply (decode_leaf fuel d b (encodedUint x) v (VInt "uint64" x)); try done.
    intros []; try done; cbn. unfold one_of. rewrite bool_decide_eq_true. case_bool_decide; [done|]. intros Hk [= ->]. f_equal. set_solver.
  - assert (Hbad : finite x = false → decodeValueAt (S fuel) (encodedFloat x) d b ≠ Ok (v, b') ∧ ¬ (plain_data v = true ∧ encodedFloat x = encoded v)).
    { destruct x; [| |done]; (split; [cbn; destruct (maxValueDepth <? d); [done|]; cbn; by destruct (consume _ _ _ _)|];
        intros [Hp He]; destruct v; cbn in He; try done; [revert He; by case_bool_decide|]; injection He as <-;
        cbn in Hp; by rewrite andb_false_r in Hp). }
    destruct (finite x) eqn:Ef; [clear Hbad|destruct Hbad as [H1 H2]; [done|]; by split; [intros H; apply H1 in H|intros (? & ? & _); exfalso; auto]].
    destruct x as [| |m e]; [done|done|].
    apply (decode_leaf fuel d b (encodedFloat (FFinite m e)) v (VFloat "float64" (FFinite m e))); try done.
    intros []; try done; cbn; [by case_bool_decide|]. intros [->%bool_decide_eq_true _]%andb_true_iff [= <-]. done.
  - by apply decode_array.
  - by apply decode_object.
Qed.
End Lemmas.

Section EncodeLemmas.
Import StoreValue.
Context {Ord : MapOrder}.

Definition builtin (v : value) : bool := match v with VPRFInput _ | VPRFValues _ | VLargeBlobInput _ => true | _ => false end.
Fixpoint no_builtin (v : value) : bool :=
  match v with
  | VPRFInput _ | VPRFValues _ | VLargeBlobInput _ => false
  | VSeq _ items => forallb no_builtin items
  | VMap _ es => forallb (λ e, no_builtin e.2) es
  | _ => true
  end.

Lemma plain_with_ext f g v : no_builtin v = true → plain_with f v = plain_with g v.
Proof.
  induction v as [v Hv|p v IH|ty items IH|ty es IH] using value_ind'; intros Hn.
  - by destruct v.
  - done.
  - cbn in *. f_equal. rewrite forallb_forall in Hn. apply Forall_mapM_ext, Forall_forall. rewrite Forall_forall in IH.
    intros x Hx. apply IH; [done|]. by apply Hn, list_elem_of_In.
  - cbn in *. case_match; [|done]. f_equal. rewrite forallb_forall in Hn. apply Forall_mapM_ext, Forall_forall. rewrite Forall_forall in IH.
    intros x Hx. by rewrite (IH x Hx) by (by apply Hn, list_elem_of_In).
Qed.

Lemma normalize_no_builtin v : builtin v = true → no_builtin (normalizeBuiltInValue v) = true.
Proof.
  assert (Hp : ∀ p, no_builtin (prfValuesObject p) = true) by (intros [f [s|]]; done).
  assert (Hm : ∀ l, Forall (λ o, ∀ k w, o = Some (k, w) → no_builtin w = true) l → no_builtin (members l) = true).
  { intros l Hl. cbn. apply forallb_forall. intros [k w] Hin%list_elem_of_In%list_elem_of_omap.
    destruct Hin as (o & Ho & Heq). rewrite Forall_forall in Hl. by eapply Hl. }
  destruct v; try done; intros _; cbn [normalizeBuiltInValue]; [|done|].
  - apply Hm. repeat constructor.
    + intros k w. destruct (prf_Eval i); [|done]. by intros [= <- <-].
    + intros k w. destruct (prf_EvalByCredential i) as [m|]; [|done]. intros [= <- <-]. cbn. apply forallb_forall.
      intros e (x & -> & _)%list_elem_of_In%list_elem_of_fmap. apply Hp.
    + intros k w. case_bool_decide; [done|]. intros [= <- <-]. cbn. apply forallb_forall.
      by intros e (x & -> & _)%list_elem_of_In%list_elem_of_fmap.
  - apply Hm. repeat constructor; intros k w.
    + case_bool_decide; [done|]. by intros [= <- <-].
    + destruct (lb_Read i); [|done]. by intros [= <- <-].
    + destruct (lb_Write i); [|done]. by intros [= <- <-].
Qed.

Lemma normalize_id v : builtin v = false → normalizeBuiltInValue v = v.
Proof. by destruct v. Qed.

Lemma normalize_not_builtin v : builtin (normalizeBuiltInValue v) = false.
Proof. by destruct v. Qed.

Lemma plain_normalize v : plain (normalizeBuiltInValue v) = plain v.
Proof.
  destruct (builtin v) eqn:Hb; [|by rewrite normalize_id].
  transitivity (plain_with (λ _, None) (normalizeBuiltInValue v)); [by apply plain_with_ext, normalize_no_builtin|].
  by destruct v.
Qed.

Lemma bytes_nonneg v : 0 <= value_bytes v.
Proof. apply value_size_nonneg. Qed.
Lemma entry_bytes_nonneg (e : mapkey * value) : 0 <= mapKeyByteSize e.1 + value_bytes e.2.
Proof. pose proof (mapKeyByteSize_nonneg e.1). pose proof (bytes_nonneg e.2). lia. Qed.
Lemma directValueBytes_nonneg v : 0 <= directValueBytes v.
Proof. destruct v; cbn; try lia; [apply string_len_nonneg|apply slice_len_nonneg]. Qed.

(** What encoding at depth [d] returns, for a value whose plain data is [o]. *)
Definition encodes (o : option value) (d : Z) (b : valueBudget) (e : encodedValue) (b' : valueBudget) : Prop :=
  ∃ w, o = Some w ∧ e = encoded w ∧ d + value_depth w <= 32 ∧ fits b (value_nodes w) (value_bytes w) ∧
       b' = spent b (value_nodes w) (value_bytes w).

Definition encodes_all (fuel : nat) : Prop := ∀ v d b e b', builtin v = false → 34 <= Z.of_nat fuel + d → fits b 0 0 →
  encodeValueAt fuel v d b = Ok (e, b') ↔ encodes (plain v) d b e b'.

Lemma encode_step d b k v (r : encodedValue * valueBudget) :
  fits b 0 0 →
  (_ ← fail_if (maxValueDepth <? d) (unsupported "nesting too deep");
   budget ← consume b 1 (directValueBytes v) ErrUnsupportedExtensionValue; k budget) = Ok r ↔
  d <= 32 ∧ fits b 1 (directValueBytes v) ∧ k (spent b 1 (directValueBytes v)) = Ok r.
Proof.
  intros Hb. pose proof (directValueBytes_nonneg v) as Hn. unfold maxValueDepth. split.
  - intros H. apply bind_Ok in H as ([] & Hd%fail_if_Ok%Z.ltb_ge & H).
    apply bind_Ok in H as (b1 & Hc & H). apply store_consume_Ok in Hc as [Hf ->]; [done|lia|done].
  - intros (Hd & Hf & H). rewrite (proj2 (Z.ltb_ge _ _)) by lia. run.
    by rewrite (proj2 (store_consume_Ok b 1 _ ErrUnsupportedExtensionValue (spent b 1 (directValueBytes v)) ltac:(lia) Hn)).
Qed.

(** A leaf: the outcome after the budget check is [o]. *)
Lemma encode_leaf fuel v w d b e b' :
  encodeValueAt (S fuel) v d b =
    (_ ← fail_if (maxValueDepth <? d) (unsupported "nesting too deep");
     budget ← consume b 1 (directValueBytes v) ErrUnsupportedExtensionValue; Ok (encoded w, budget)) →
  fits b 0 0 → plain v = Some w → value_nodes w = 1 → value_depth w = 0 → value_bytes w = directValueBytes v →
  encodeValueAt (S fuel) v d b = Ok (e, b') ↔ encodes (plain v) d b e b'.
Proof.
  intros Heq Hb Hv Hn Hd Hy. rewrite Heq, encode_step, Hv by done. unfold encodes. split.
  - intros (Hd' & Hf & [= <- <-]). exists w. rewrite Hn, Hd, Hy. split_and!; try done; lia.
  - intros (? & [= <-] & -> & Hd' & Hf & ->). rewrite Hn, Hd, Hy in *. split_and!; try done; lia.
Qed.

(** A refused value. *)
Lemma encode_refused fuel v d b e b' : plain v = None →
  encodeValueAt (S fuel) v d b ≠ Ok (e, b') → encodeValueAt (S fuel) v d b = Ok (e, b') ↔ encodes (plain v) d b e b'.
Proof. intros -> Hr. split; [done|]. by intros (w & [=] & _). Qed.

Lemma encode_type_error fuel v d b r :
  match v with
  | VNil | VBool _ | VString _ | VBytes _ | VFloat _ _ | VInt _ _ | VSeq _ _ | VMap _ _ | VUVMEntries _ => False
  | _ => True
  end → encodeValueAt fuel v d b ≠ Ok r.
Proof.
  destruct fuel; [done|]. destruct v; try done; intros _; cbn; destruct (maxValueDepth <? d); try done; cbn;
    by destruct (consume _ _ _ _).
Qed.

Lemma encode_array fuel : encodes_all fuel → ∀ ty items d b e b', 34 <= Z.of_nat (S fuel) + d → fits b 0 0 →
  encodeValueAt (S fuel) (VSeq ty items) d b = Ok (e, b') ↔ encodes (plain (VSeq ty items)) d b e b'.
Proof.
  intros IH ty items d b e b' Hfuel Hb.
  set (k := λ budget, '(array, budget) ← each (encodeElement (λ x, encodeValueAt fuel x (d + 1))) items budget; Ok (encodedArray array, budget)).
  change (encodeValueAt (S fuel) (VSeq ty items) d b) with
    (_ ← fail_if (maxValueDepth <? d) (unsupported "nesting too deep");
     budget ← consume b 1 (directValueBytes (VSeq ty items)) ErrUnsupportedExtensionValue; k budget).
  rewrite encode_step by done. change (directValueBytes (VSeq ty items)) with 0. unfold k. clear k.
  change (plain (VSeq ty items)) with (VSeq slice_any <$> mapM plain items).
  assert (Hloop : ∀ b ys b', fits b 0 0 →
    each (encodeElement (λ x, encodeValueAt fuel x (d + 1))) items b = Ok (ys, b') ↔
    ∃ ws, (mapM plain items = Some ws ∧ Forall (λ w, d + 1 + value_depth w <= 32) ws) ∧ ys = encoded <$> ws ∧
      fits b (total value_nodes ws) (total value_bytes ws) ∧ b' = spent b (total value_nodes ws) (total value_bytes ws)).
  { intros b0 ys b1 Hb0. rewrite (each_Ok _ (λ x w, plain x = Some w ∧ d + 1 + value_depth w <= 32) encoded value_nodes value_bytes nodes_nonneg bytes_nonneg) by
      (try done; apply Forall_forall; intros x _ b2 w b3 Hb2; unfold encodeElement;
       rewrite (IH _ (d + 1) b2 w b3) by (apply normalize_not_builtin || lia || done); rewrite plain_normalize; unfold encodes; naive_solver).
    setoid_rewrite mapM_Some. setoid_rewrite <-(Forall2_and_right _ _ items). done. }
  pose proof (λ ws, total_nonneg value_nodes ws nodes_nonneg) as Hn. pose proof (λ ws, total_nonneg value_bytes ws bytes_nonneg) as Hy.
  unfold encodes. split.
  - intros (Hd & Hf & H). apply bind_Ok in H as ([ys b1] & H & [= <- <-]).
    apply Hloop in H as (ws & (-> & Hds) & -> & Hf2 & ->); [|budget]. exists (VSeq slice_any ws). rewrite spent_spent.
    split; [done|]. split; [done|]. split; [by apply depth_items|].
    change (value_nodes (VSeq slice_any ws)) with (1 + total value_nodes ws).
    change (value_bytes (VSeq slice_any ws)) with (total value_bytes ws). split; [budget|done].
  - intros (w & Hw & -> & Hd & Hf & ->). apply fmap_Some in Hw as (ws & Hws & ->). apply depth_items in Hd as [Hd Hds].
    change (value_nodes (VSeq slice_any ws)) with (1 + total value_nodes ws) in *.
    change (value_bytes (VSeq slice_any ws)) with (total value_bytes ws) in *. specialize (Hn ws). specialize (Hy ws).
    split; [done|]. split; [budget|]. apply bind_Ok.
    exists (encoded <$> ws, spent (spent b 1 0) (total value_nodes ws) (total value_bytes ws)).
    split; [|by rewrite spent_spent, Z.add_0_l]. apply Hloop; [budget|]. exists ws. split_and!; try done. budget.
Qed.

Definition plain_member (e : mapkey * value) : option (mapkey * value) :=
  (λ w, (KString (default "" (key_text e.1)), w)) <$> plain e.2.

Lemma encode_entry fuel : encodes_all fuel → ∀ d (e : mapkey * value), 34 <= Z.of_nat (S fuel) + d →
  costs (encodeEntry (λ x, encodeValueAt fuel x (d + 1)))
    (λ e c, plain_member e = Some c ∧ d + 1 + value_depth c.2 <= 32) encoded_entry
    (λ c, 1 + value_nodes c.2) (λ c, mapKeyByteSize c.1 + value_bytes c.2) e.
Proof.
  intros IH d [k x] Hfuel b [k' v] b' Hb. unfold encodeEntry, plain_member. cbn [fst snd].
  set (key := default "" (key_text k)). pose proof (string_len_nonneg key) as Hkl. split.
  - intros H. apply bind_Ok in H as (b1 & Hc & H). apply store_consume_Ok in Hc as [Hf ->]; [|lia|lia].
    apply bind_Ok in H as ([v' b2] & H & [= <- <- <-]).
    apply IH in H as (w & Hw & -> & Hd & Hf2 & ->); [|apply normalize_not_builtin|lia|budget]. rewrite plain_normalize in Hw.
    exists (KString key, w). rewrite Hw, spent_spent. split_and!; try done. cbn [fst snd mapKeyByteSize]. budget.
  - intros (c & (Hc & Hd) & [= -> ->] & Hf & ->). apply fmap_Some in Hc as (w & Hw & ->).
    cbn [fst snd default from_option id key_text mapKeyByteSize] in *.
    pose proof (value_size_nonneg w).
    rewrite (proj2 (store_consume_Ok b 1 (string_len key) ErrUnsupportedExtensionValue (spent b 1 (string_len key)) ltac:(lia) Hkl)) by (split; [budget|done]).
    run. rewrite (proj2 (IH (normalizeBuiltInValue x) (d + 1) (spent b 1 (string_len key)) (encoded w)
      (spent (spent b 1 (string_len key)) (value_nodes w) (value_bytes w)) (normalize_not_builtin x) ltac:(lia) ltac:(budget))).
    + run. by rewrite spent_spent.
    + exists w. rewrite plain_normalize. split_and!; try done. budget.
Qed.

Lemma encode_object fuel : encodes_all fuel → ∀ ty es d b e b', 34 <= Z.of_nat (S fuel) + d → fits b 0 0 →
  encodeValueAt (S fuel) (VMap ty es) d b = Ok (e, b') ↔ encodes (plain (VMap ty es)) d b e b'.
Proof.
  intros IH ty es d b e b' Hfuel Hb.
  set (k := λ budget, _ ← fail_if (negb (string_keyed ty es)) (unsupported "map key type");
    '(object, budget) ← each (encodeEntry (λ x, encodeValueAt fuel x (d + 1))) es budget; Ok (encodedObject object, budget)).
  change (encodeValueAt (S fuel) (VMap ty es) d b) with
    (_ ← fail_if (maxValueDepth <? d) (unsupported "nesting too deep");
     budget ← consume b 1 (directValueBytes (VMap ty es)) ErrUnsupportedExtensionValue; k budget).
  rewrite encode_step by done. change (directValueBytes (VMap ty es)) with 0. unfold k. clear k.
  change (plain (VMap ty es)) with (if string_keyed ty es then VMap map_string_any <$> mapM plain_member es else None).
  destruct (string_keyed ty es); run; [|split; [by intros (_ & _ & [=])|by intros (w & [=] & _)]].
  set (n := λ e : mapkey * value, 1 + value_nodes e.2). set (y := λ e : mapkey * value, mapKeyByteSize e.1 + value_bytes e.2).
  assert (Hsize : ∀ es, value_nodes (VMap map_string_any es) = 1 + total n es ∧ value_bytes (VMap map_string_any es) = total y es) by done.
  assert (Hloop : ∀ b ys b', fits b 0 0 →
    each (encodeEntry (λ x, encodeValueAt fuel x (d + 1))) es b = Ok (ys, b') ↔
    ∃ ws, (mapM plain_member es = Some ws ∧ Forall (λ c, d + 1 + value_depth c.2 <= 32) ws) ∧ ys = encoded_entry <$> ws ∧
      fits b (total n ws) (total y ws) ∧ b' = spent b (total n ws) (total y ws)).
  { intros b0 ys b1 Hb0. rewrite (each_Ok _ (λ e c, plain_member e = Some c ∧ d + 1 + value_depth c.2 <= 32) encoded_entry n y
      entry_nodes_nonneg entry_bytes_nonneg) by (try done; apply Forall_forall; intros; by apply encode_entry).
    setoid_rewrite mapM_Some. setoid_rewrite <-(Forall2_and_right _ _ es). done. }
  pose proof (λ ws, total_nonneg n ws entry_nodes_nonneg) as Hn. pose proof (λ ws, total_nonneg y ws entry_bytes_nonneg) as Hy.
  unfold encodes. split.
  - intros (Hd & Hf & H). apply bind_Ok in H as ([ys b1] & H & [= <- <-]).
    apply Hloop in H as (ws & (-> & Hds) & -> & Hf2 & ->); [|budget]. exists (VMap map_string_any ws). rewrite spent_spent.
    split; [done|]. split; [done|]. split; [by apply depth_entries|]. destruct (Hsize ws) as [-> ->]. split; [budget|done].
  - intros (w & Hw & -> & Hd & Hf & ->). apply fmap_Some in Hw as (ws & Hws & ->). apply depth_entries in Hd as [Hd Hds].
    destruct (Hsize ws) as [Hs1 Hs2]. rewrite Hs1, Hs2 in *. specialize (Hn ws). specialize (Hy ws).
    split; [done|]. split; [budget|]. apply bind_Ok.
    exists (encoded_entry <$> ws, spent (spent b 1 0) (total n ws) (total y ws)).
    split; [|by rewrite spent_spent, Z.add_0_l]. apply Hloop; [budget|]. exists ws. split_and!; try done. budget.
Qed.

Lemma encode_spec fuel : encodes_all fuel.
Proof.
  induction fuel as [|fuel IH]; intros v d b e b' Hnb Hfuel Hb.
  { split; [done|]. intros (w & _ & _ & Hd & _). pose proof (value_size_nonneg w). lia. }
  destruct v; try done; try (apply encode_refused; [done|by apply encode_type_error]).
  - by apply (encode_leaf fuel VNil VNil).
  - by apply (encode_leaf fuel (VBool b0) (VBool b0)).
  - by apply (encode_leaf fuel (VString s) (VString s)).
  - destruct (signed_kind kind) eqn:Hs; [|destruct (unsigned_kind kind) eqn:Hu].
    + apply (encode_leaf fuel (VInt kind z) (VInt "int64" z)); [cbn [encodeValueAt]; by rewrite Hs|done| |done..].
      unfold plain. cbn [plain_with]. by rewrite Hs.
    + apply (encode_leaf fuel (VInt kind z) (VInt "uint64" z)); [cbn [encodeValueAt]; by rewrite Hs, Hu|done| |done..].
      unfold plain. cbn [plain_with]. by rewrite Hs, Hu.
    + apply encode_refused; unfold plain; cbn [encodeValueAt plain_with]; rewrite Hs, Hu; [done|].
      destruct (maxValueDepth <? d); [done|]. cbn. by destruct (consume _ _ _ _).
  - destruct (one_of kind ["float32"; "float64"] && finite f) eqn:Hf.
    + assert (Hf' := Hf). apply andb_true_iff in Hf' as [Hk Hfin].
      apply (encode_leaf fuel (VFloat kind f) (VFloat "float64" f)); try done; unfold plain; cbn [encodeValueAt plain_with]; [|by rewrite Hf].
      rewrite Hk. unfold encodeFloat. by rewrite Hfin.
    + apply encode_refused; unfold plain; cbn [encodeValueAt plain_with]; [by rewrite Hf|].
      destruct (maxValueDepth <? d); [done|]. run. destruct (consume _ _ _ _); [|done]. run.
      destruct (one_of _ _); [|done]. unfold encodeFloat. cbn [andb] in Hf. by rewrite Hf.
  - by apply (encode_leaf fuel (VBytes b0) (VBytes (Some (slice_list b0)))).
  - destruct es as [|x es]; [by apply (encode_leaf fuel (VUVMEntries []) (VSeq slice_any []))|].
    apply encode_refused; [done|]. cbn [encodeValueAt]. destruct (maxValueDepth <? d); [done|]. run.
    destruct (consume _ _ _ _) as [b1|]; [|done]. run.
    change (uvm_struct <$> x :: es) with (uvm_struct x :: (uvm_struct <$> es)). cbn [each].
    destruct (encodeElement _ (uvm_struct x) b1) as [r|] eqn:Er; [|done].
    by apply encode_type_error in Er.
  - by apply encode_array.
  - by apply encode_object.
Qed.

Lemma plain_with_data f v w : (∀ u w, f u = Some w → plain_data w = true) → plain_with f v = Some w → plain_data w = true.
Proof.
  intros Hf. revert w. induction v as [v Hv|p v IH|ty items IH|ty es IH] using value_ind'; intros w Hw.
  - destruct v; cbn in Hw; try done; try (by injection Hw as <-); try (by eapply Hf).
    + destruct (signed_kind kind); [by injection Hw as <-|]. by destruct (unsigned_kind kind); [injection Hw as <-|].
    + destruct (one_of _ _); [|done]. destruct f0; try done. by injection Hw as <-.
    + by destruct es; [injection Hw as <-|].
  - done.
  - cbn in Hw. apply fmap_Some in Hw as (ws & Hws%mapM_Some & ->). cbn. rewrite bool_decide_eq_true_2 by done. apply plain_items.
    rewrite Forall_forall in IH. apply Forall_forall. intros w Hw. destruct (Forall2_right _ _ _ _ Hws Hw) as (x & Hx & Hxw). by eapply IH.
  - cbn in Hw. destruct (string_keyed ty es); [|done]. apply fmap_Some in Hw as (ws & Hws%mapM_Some & ->).
    cbn. rewrite bool_decide_eq_true_2 by done. apply plain_entries.
    rewrite Forall_forall in IH. apply Forall_forall. intros c Hc. destruct (Forall2_right _ _ _ _ Hws Hc) as (x & Hx & Hxc).
    apply fmap_Some in Hxc as (w & Hw & ->). split; [by eexists|]. by eapply IH.
Qed.
Lemma plain_is_data v w : plain v = Some w → plain_data w = true.
Proof. apply plain_with_data. intros u w'. by apply plain_with_data. Qed.

Lemma plain_data_plain f w : plain_data w = true → plain_with f w = Some w.
Proof.
  induction w as [v Hv|p v IH|ty items IH|ty es IH] using value_ind'; intros Hw.
  - destruct v; cbn in *; try done.
    + unfold one_of in Hw. apply bool_decide_eq_true in Hw. repeat (apply elem_of_cons in Hw as [->|Hw]; [done|]). by apply not_elem_of_nil in Hw.
    + apply andb_true_iff in Hw as [->%bool_decide_eq_true Hf]. by destruct f0.
    + by destruct b.
  - done.
  - cbn in *. apply andb_true_iff in Hw as [->%bool_decide_eq_true Hi%plain_items]. apply fmap_Some. exists items. split; [|done].
    apply mapM_Some. apply Forall_Forall2_diag. rewrite Forall_forall in *. auto.
  - cbn in *. apply andb_true_iff in Hw as [->%bool_decide_eq_true Hi%plain_entries]. cbn. apply fmap_Some. exists es. split; [|done].
    apply mapM_Some. apply Forall_Forall2_diag. rewrite Forall_forall in *.
    intros [k v] Hin. destruct (Hi _ Hin) as [[k' Hk] Hv]. cbn in *. subst k. specialize (IH _ Hin Hv). cbn in IH. by rewrite IH.
Qed.

Lemma plain_data_data v : plain_data v = true → data_value v = true.
Proof.
  induction v as [v Hv|p v IH|ty items IH|ty es IH] using value_ind'; intros Hw.
  - by destruct v.
  - done.
  - cbn in *. apply andb_true_iff in Hw as [-> Hi]. cbn. rewrite forallb_forall in *. rewrite Forall_forall in IH.
    intros x Hx. apply IH; [by apply list_elem_of_In|by apply Hi].
  - cbn in *. apply andb_true_iff in Hw as [-> Hi]. cbn. rewrite forallb_forall in *. rewrite Forall_forall in IH.
    intros [k x] Hx. specialize (Hi _ Hx). cbn in Hi. destruct k; try done. apply (IH (KString s, x)); [by apply list_elem_of_In|done].
Qed.

(** Restored inputs: the typed form of plain data. *)
Definition restored (w : value) : value :=
  match w with VBool b => VBoolInput b | VString s => VStringInput s | _ => VRawInput true w end.

Lemma CloneValue_StringInput {Custom : CustomTypes} s : string_len s <= 1048576 → CloneValue (VStringInput s) = Ok (VString s).
Proof.
  intros Hs. pose proof (string_len_nonneg s).
  unfold CloneValue, CloneValueWithLimits. cbn [MaxDepth MaxNodes MaxBytes Z.ltb Z.compare orb fail_if mbind result_bind].
  cbn [cloneValueAt directCloneCost]. cbn [fail_if mbind result_bind MaxDepth cb_limits normalizeCloneLimits].
  change (DefaultMaxCloneDepth <? 0) with false. cbn [fail_if mbind result_bind Z.eqb].
  set (b := mkCloneBudget _ 0 0).
  rewrite (proj2 (consume_Ok b 1 (string_len s) (spend b 1 (string_len s)) ltac:(lia) ltac:(lia))); [done|].
  split; [|done]. unfold affordable, b. cbn. unfold DefaultMaxCloneNodes, DefaultMaxCloneBytes. lia.
Qed.

Lemma NormalizeInput_plain {Custom : CustomTypes} w :
  plain_data w = true → within_limits w → NormalizeInput w = Ok (restored w).
Proof.
  intros Hp Hl. unfold NormalizeInput.
  destruct w; try done; cbn [implements_ExtensionInput];
    try (unfold NewRawInput, NewRawValue; rewrite (proj2 (CloneValue_data _ _ (plain_data_data _ Hp)) (conj eq_refl Hl)); done).
  unfold CloneInput. cbn [nilLike fail_if mbind result_bind CloneExtensionInput]. rewrite CloneValue_StringInput; [done|].
  destruct Hl as (_ & _ & Hl). exact Hl.
Qed.

(** Bytes of an encoded input map. *)
Definition input_nodes (p : string * value) : Z := 1 + value_nodes p.2.
Definition input_bytes (p : string * value) : Z := string_len p.1 + value_bytes p.2.
Definition input_text (p : string * value) : Z := string_len p.1 + text_bytes p.2.
Definition encoded_input (p : string * value) : string * encodedValue := (p.1, encoded p.2).

(** [q] is the input with the plain data of [p]'s value. *)
Definition input_plain {Custom : CustomTypes} (p q : string * value) : Prop :=
  q.1 = p.1 ∧ protocolidentifier_Valid p.1 = true ∧ ∃ raw, InputValue p.2 = Ok raw ∧ plain raw = Some q.2.

Lemma encodeInputs_Ok {Custom : CustomTypes} inputs : ∀ b out, fits b 0 0 →
  encodeInputs inputs b = Ok out →
  ∃ ws, Forall2 input_plain inputs ws ∧ out = encoded_input <$> ws ∧ Forall (λ p, value_depth p.2 <= 32) ws ∧
        fits b (total input_nodes ws) (total input_bytes ws).
Proof.
  induction inputs as [|[id v] inputs IH]; intros b out Hb; cbn [encodeInputs].
  - intros [= <-]. exists []. split_and!; try done; constructor.
  - intros H. apply bind_Ok in H as ([] & Hid%fail_if_Ok%negb_false_iff & H). apply bind_Ok in H as (b1 & Hc & H).
    apply store_consume_Ok in Hc as [Hf1 ->]; [|lia|apply string_len_nonneg]. apply bind_Ok in H as (raw & Hraw%wrap_err_Ok & H).
    apply bind_Ok in H as ([e b2] & He%map_err_Ok & H).
    apply encode_spec in He as (w & Hw & -> & Hd & Hf2 & ->); [|apply normalize_not_builtin|unfold depth_fuel; lia|budget].
    rewrite plain_normalize in Hw. apply bind_Ok in H as (out' & Hout & [= <-]).
    apply IH in Hout as (ws & Hws & -> & Hds & Hf3); [|budget]. exists ((id, w) :: ws). split_and!.
    + constructor; [|done]. split; [done|]. split; [done|]. by exists raw.
    + done.
    + constructor; [cbn; lia|done].
    + rewrite !total_cons. unfold input_nodes at 1, input_bytes at 1. cbn [fst snd]. budget.
Qed.

Lemma decodeInputs_cons {Custom : CustomTypes} id e values out b :
  decodeInputs ((id, e) :: values) out b =
  (_ ← fail_if (negb (protocolidentifier_Valid id)) (malformed "invalid extension id");
   budget ← consume b 1 (string_len id) ErrInvalidEnvelope;
   '(decoded, budget) ← map_err (λ e, ErrorText e id) (decodeValueAt depth_fuel e 0 budget);
   input ← wrap_err ErrInvalidEnvelope (NormalizeInput decoded);
   decodeInputs values (<[id := input]> out) budget).
Proof. reflexivity. Qed.

Lemma decodeInputs_step {Custom : CustomTypes} id e values out b b1 w b2 input r :
  protocolidentifier_Valid id = true → consume b 1 (string_len id) ErrInvalidEnvelope = Ok b1 →
  decodeValueAt depth_fuel e 0 b1 = Ok (w, b2) → NormalizeInput w = Ok input →
  decodeInputs values (<[id := input]> out) b2 = Ok r → decodeInputs ((id, e) :: values) out b = Ok r.
Proof.
  intros Hid Hc Hd Hn Hr. rewrite decodeInputs_cons. apply bind_Ok. exists (). rewrite Hid. split; [done|].
  apply bind_Ok. exists b1. split; [done|]. apply bind_Ok. exists (w, b2). split; [by apply map_err_Ok|].
  apply bind_Ok. exists input. split; [by apply wrap_err_Ok|done].
Qed.

Lemma decodeInputs_Ok {Custom : CustomTypes} ws : ∀ b acc, fits b 0 0 → 0 <= vb_nodes b →
  Forall (λ p, protocolidentifier_Valid p.1 = true ∧ plain_data p.2 = true ∧ value_depth p.2 <= 32 ∧ value_bytes p.2 <= 1048576) ws →
  fits b (total input_nodes ws) (total input_text ws) →
  decodeInputs (encoded_input <$> ws) acc b = Ok (foldl (λ m p, <[p.1 := restored p.2]> m) acc ws).
Proof.
  induction ws as [|[id w] ws IH]; intros b acc Hb Hn Hall Hf; [done|]. apply Forall_cons in Hall as [(Hid & Hp & Hd & Hy) Hall].
  assert (0 <= total input_nodes ws ∧ 0 <= total input_text ws) as [Hn' Ht'].
  { split; apply total_nonneg; intros [k v]; unfold input_nodes, input_text; cbn [fst snd];
      pose proof (nodes_nonneg v); pose proof (text_bytes_nonneg v); pose proof (string_len_nonneg k); lia. }
  rewrite !total_cons in Hf. unfold input_nodes at 1, input_text at 1 in Hf. cbn [fst snd] in *.
  pose proof (string_len_nonneg id). pose proof (nodes_nonneg w). pose proof (text_bytes_nonneg w).
  change (encoded_input <$> (id, w) :: ws) with ((id, encoded w) :: (encoded_input <$> ws)). cbn [foldl fst snd].
  apply decodeInputs_step with (b1 := spent b 1 (string_len id)) (w := w)
    (b2 := spent (spent b 1 (string_len id)) (value_nodes w) (text_bytes w)) (input := restored w); [done| | | |].
  - rewrite store_consume_Ok by lia. split; [budget|done].
  - apply (proj2 (decode_spec depth_fuel (encoded w) 0 (spent b 1 (string_len id)) w _ ltac:(unfold depth_fuel; lia) ltac:(budget))).
    split_and!; try done; budget.
  - apply NormalizeInput_plain; [done|].
    unfold within_limits, DefaultMaxCloneDepth, DefaultMaxCloneNodes, DefaultMaxCloneBytes. split_and!; [done|budget|done].
  - apply IH; [budget|budget|done|budget].
Qed.
End EncodeLemmas.

(** ** Maps of inputs *)

(** Bytes of the texts of a stored value. *)
Fixpoint stored_text (e : StoreValue.encodedValue) : Z :=
  let 'StoreValue.mkEncoded _ _ s t _ _ _ a o := e in
  match s with Some s => string_len s | None => 0 end + match t with Some t => string_len t | None => 0 end
  + match a with Some l => foldr (λ x acc, stored_text x + acc) 0 l | None => 0 end
  + match o with Some l => foldr (λ x acc, string_len x.1 + stored_text x.2 + acc) 0 l | None => 0 end.
Definition stored_entry_text (p : string * StoreValue.encodedValue) : Z := string_len p.1 + stored_text p.2.

Section Inputs.
Context {Ord : MapOrder} {Custom : CustomTypes}.
Import StoreValue.

Lemma stored_text_encoded v : plain_data v = true → stored_text (encoded v) = text_bytes v.
Proof.
  induction v as [v Hv|present inner IH|ty items IH|ty es IH] using value_ind'; intros Hp; [|done| |].
  - destruct v; try done; cbn; try lia. by case_bool_decide.
  - cbn in Hp. apply andb_true_iff in Hp as [_ Hp%plain_items]. cbn. rewrite Z.add_0_r.
    induction IH as [|x items Hx Hitems IHl]; [done|]. apply Forall_cons in Hp as [Hpx Hp].
    cbn. rewrite Hx by done. specialize (IHl Hp). cbn in IHl. lia.
  - cbn in Hp. apply andb_true_iff in Hp as [_ Hp%plain_entries]. cbn.
    induction IH as [|[k x] es Hx Hes IHl]; [done|]. apply Forall_cons in Hp as [[[k' Hk] Hpx] Hp]. cbn in Hk, Hpx, Hx. subst k.
    cbn. rewrite Hx by done. specialize (IHl Hp). cbn in IHl. lia.
Qed.

(** [v'] is what storage makes of the input [v]: the input of its plain data. *)
Definition stored_as (v v' : value) : Prop :=
  ∃ raw w, InputValue v = Ok raw ∧ plain raw = Some w ∧ within_limits w ∧ v' = restored w.
Definition restored_inputs (m m' : ExtensionInputs) : Prop := ∀ id, option_Forall2 stored_as (m !! id) (m' !! id).

Lemma foldl_restored (ws : list (string * value)) : ∀ (acc : gmap string value) id,
  NoDup ws.*1 → foldl (λ m p, <[p.1 := restored p.2]> m) acc ws !! id =
  match (list_to_map ws : gmap string value) !! id with Some w => Some (restored w) | None => acc !! id end.
Proof.
  induction ws as [|[k w] ws IH]; intros acc id Hnd; [done|]. cbn in *. apply NoDup_cons in Hnd as [Hk Hnd]. rewrite IH by done.
  destruct (decide (k = id)) as [->|Hne].
  - rewrite !lookup_insert_eq. by rewrite (not_elem_of_list_to_map_1 _ _ Hk).
  - by rewrite !lookup_insert_ne.
Qed.

Lemma encodeExtensionValues_Ok (inputs : ExtensionInputs) out : encodeExtensionValues inputs = Ok out →
  ∃ ws, Forall2 input_plain (range_list inputs) ws ∧ out = encoded_input <$> ws ∧ (length ws <= 64)%nat ∧
        Forall (λ p, value_depth p.2 <= 32 ∧ plain_data p.2 = true) ws ∧
        total input_nodes ws <= 4096 ∧ total input_bytes ws <= 1048576.
Proof.
  intros H. apply bind_Ok in H as ([] & Hl%fail_if_Ok%Z.ltb_ge & H). apply encodeInputs_Ok in H as (ws & Hws & -> & Hd & Hn & Hy); [|by split].
  exists ws. split_and!; try done.
  - pose proof (Forall2_length _ _ _ Hws) as Hlen. unfold map_len, MaxEntries in Hl. unfold ExtensionInputs in *.
    rewrite range_list_perm, length_map_to_list in Hlen. lia.
  - rewrite Forall_forall in Hd |- *. intros p Hp. split; [by apply Hd|].
    apply (Forall2_right _ _ _ _ Hws) in Hp as (x & _ & _ & _ & raw & _ & Hplain). by apply plain_is_data in Hplain.
Qed.

Lemma total_member {A} (f : A → Z) l x : (∀ y, 0 <= f y) → x ∈ l → f x <= total f l.
Proof.
  intros Hf. induction 1 as [x l|x y l _ IH]; rewrite total_cons; [pose proof (total_nonneg f l Hf)|pose proof (Hf y)]; lia.
Qed.

Lemma total_stored_text ws : Forall (λ p, value_depth p.2 <= 32 ∧ plain_data p.2 = true) ws →
  total input_text ws = total stored_entry_text (encoded_input <$> ws).
Proof.
  induction 1 as [|p ws [_ Hp] _ IH]; [done|]. rewrite fmap_cons, !total_cons, IH. f_equal. unfold input_text, stored_entry_text. cbn.
  by rewrite stored_text_encoded.
Qed.

Lemma input_plain_keys (l ws : list (string * value)) : Forall2 input_plain l ws → ws.*1 = l.*1.
Proof. induction 1 as [|p q l ws (Hq & _) _ IH]; [done|]. cbn. by rewrite Hq, IH. Qed.

Lemma stored_limits ws p : p ∈ ws → Forall (λ p, value_depth p.2 <= 32 ∧ plain_data p.2 = true) ws →
  total input_nodes ws <= 4096 → total input_bytes ws <= 1048576 → within_limits p.2.
Proof.
  intros Hp Hall Hn Hy. rewrite Forall_forall in Hall. destruct (Hall p Hp) as [Hd _].
  assert (input_bytes p <= total input_bytes ws) as Hle.
  { apply total_member; [|done]. intros [k v]. unfold input_bytes. cbn. pose proof (string_len_nonneg k). pose proof (bytes_nonneg v). lia. }
  assert (input_nodes p <= total input_nodes ws) as Hln.
  { apply total_member; [|done]. intros [k v]. unfold input_nodes. cbn. pose proof (nodes_nonneg v). lia. }
  unfold input_bytes at 1 in Hle. unfold input_nodes at 1 in Hln. pose proof (string_len_nonneg p.1).
  unfold within_limits, DefaultMaxCloneDepth, DefaultMaxCloneNodes, DefaultMaxCloneBytes. lia.
Qed.

(** Encoded inputs decode to the inputs of their plain data. *)
Lemma inputs_roundtrip (inputs : ExtensionInputs) out : encodeExtensionValues inputs = Ok out →
  total stored_entry_text out <= MaxEnvelopeBytes →
  ∃ inputs', decodeExtensionValues out = Ok inputs' ∧ restored_inputs inputs inputs'.
Proof.
  intros (ws & Hws & -> & Hlen & Hall & Hn & Hy)%encodeExtensionValues_Ok Ht. rewrite <-total_stored_text in Ht by done.
  pose proof (input_plain_keys _ _ Hws) as Hkeys.
  eexists. split.
  - unfold decodeExtensionValues. rewrite length_fmap, (proj2 (Z.ltb_ge _ _)) by (unfold MaxEntries; lia). run.
    apply decodeInputs_Ok; [by split|done| |by split].
    rewrite Forall_forall in Hall |- *. intros p Hp. destruct (Hall p Hp) as [Hd Hpd].
    destruct (Forall2_right _ _ _ _ Hws Hp) as (q & _ & Hq & Hid & _). split_and!; try done; [by rewrite Hq|].
    by destruct (stored_limits ws p Hp (proj2 (Forall_forall _ _) Hall) Hn Hy) as (_ & _ & ?).
  - assert (NoDup ws.*1) as Hnd by (rewrite Hkeys; apply NoDup_range_keys).
    intros id. rewrite foldl_restored by done. unfold ExtensionInputs in *. rewrite lookup_empty.
    destruct (inputs !! id) as [v|] eqn:Hv.
    + apply elem_of_range_list in Hv. apply (Forall2_left _ _ _ _ Hws) in Hv as ([id' w] & Hw & Hid & _ & raw & Hraw & Hplain).
      cbn [fst snd] in *. subst id'. rewrite (proj1 (elem_of_list_to_map _ _ _ Hnd) Hw). constructor. exists raw, w.
      split_and!; try done. by apply (stored_limits ws (id, w)).
    + rewrite not_elem_of_list_to_map_1; [constructor|]. rewrite Hkeys. intros Hid.
      apply elem_of_range_keys in Hid as [v Hv']. congruence.
Qed.
End Inputs.

(** ** Typed inputs keep their meaning *)
Section Meaning.
Context {Ord : MapOrder} {Custom : CustomTypes}.
Import StoreValue.

Lemma NewRawValue_restored w : plain_data w = true → within_limits w → NewRawValue (restored w) = Ok (mkRawValue true w).
Proof.
  intros Hp Hl. unfold NewRawValue.
  assert (CloneValue w = Ok w) as Hw by (apply CloneValue_data; [by apply plain_data_data|done]).
  assert (CloneValue (restored w) = Ok w) as ->; [|done].
  destruct w; try done; exact Hw.
Qed.

Lemma rawValue_plain w : plain_data w = true → within_limits w → rawValue (mkRawValue true w) = Ok w.
Proof. intros Hp Hl. unfold rawValue. cbn. apply CloneValue_data; [by apply plain_data_data|done]. Qed.

(** What storage returned is stored as itself. *)
Lemma InputValue_restored w raw : plain_data w = true → InputValue (restored w) = Ok raw → raw = w.
Proof.
  intros Hp H. assert (∀ x, CloneValue w = Ok x → x = w) as Hclone by (intros x Hx; apply CloneValue_data in Hx as [-> _]; [done|by apply plain_data_data]).
  apply bind_Ok in H as ([] & _ & H). destruct w; by apply Hclone.
Qed.

Lemma restored_stored_as w v' : plain_data w = true → stored_as (restored w) v' → v' = restored w.
Proof.
  intros Hp (raw & w' & ->%InputValue_restored & Hw & _ & ->); [|done].
  unfold plain in Hw. rewrite plain_data_plain in Hw by done. by injection Hw as <-.
Qed.

Lemma plain_largeBlob i : plain (VLargeBlobInput i) = Some (normalizeBuiltInValue (VLargeBlobInput i)).
Proof.
  unfold plain. cbn [plain_with]. destruct i as [support read write]. unfold normalizeBuiltInValue, members. cbn.
  destruct (bool_decide (support = "")), read, write; reflexivity.
Qed.

Lemma parseLargeBlobInput_plain i :
  parseLargeBlobInput (normalizeBuiltInValue (VLargeBlobInput i)) = Ok (i, input_presence i).
Proof.
  destruct i as [support read write]. unfold normalizeBuiltInValue, members, input_presence. cbn.
  destruct (bool_decide_reflect (support = "")) as [->|]; destruct read, write; reflexivity.
Qed.

(** A PRF input with all first values present, as the handler requires. *)
Definition prf_values_ok (v : PRFValues) : Prop := First v ≠ None.

Lemma prfValuesObject_plain v : prf_values_ok v → plain_data (prfValuesObject v) = true.
Proof. unfold prf_values_ok. destruct v as [[b|] [c|]]; try done. Qed.

Lemma parsePRFValues_object v : prf_values_ok v → parsePRFValues (prfValuesObject v) false = Ok v.
Proof. unfold prf_values_ok. destruct v as [[b|] [c|]]; try done. Qed.

Definition prf_plain (i : PRFInput) : value :=
  members
    [(λ e, (KString "eval", prfValuesObject e)) <$> prf_Eval i;
     (λ m, (KString "evalByCredential",
            VMap map_string_any ((λ e, (KString e.1, prfValuesObject e.2)) <$> range_list m))) <$> prf_EvalByCredential i;
     if bool_decide (prf_AllowCredentials i = []) then None
     else Some (KString "allowCredentials", VSeq slice_any (VString <$> prf_AllowCredentials i))].

Lemma eval_entries_plain (m : gmap string PRFValues) : (∀ k v, m !! k = Some v → prf_values_ok v) →
  plain_data (VMap map_string_any ((λ e, (KString e.1, prfValuesObject e.2)) <$> range_list m)) = true.
Proof.
  intros Hm. cbn [plain_data]. rewrite bool_decide_eq_true_2 by done. apply plain_entries, Forall_fmap, Forall_forall.
  intros [k v] Hin%elem_of_range_list. split; [by exists k|]. by apply prfValuesObject_plain, (Hm k).
Qed.

Lemma strings_plain f l : plain_with f (VSeq (TSlice "" (TBasic "string")) (VString <$> l)) = Some (VSeq slice_any (VString <$> l)).
Proof.
  cbn [plain_with]. assert (mapM (plain_with f) (VString <$> l) = Some (VString <$> l)) as ->; [|done].
  induction l as [|s l IH]; [done|]. cbn in *. by rewrite IH.
Qed.

(** The entries of a struct's members, one by one. *)
Lemma plain_members f l l' : Forall2 (option_Forall2 (λ a b, ∃ k, a.1 = KString k ∧ b.1 = KString k ∧ plain_with f a.2 = Some b.2)) l l' →
  plain_with f (members l) = Some (members l').
Proof.
  intros H. unfold members. cbn [plain_with]. change (string_keyed map_string_any (omap id l)) with true. cbn iota.
  assert (mapM (λ e, (λ w, (KString (default "" (key_text e.1)), w)) <$> plain_with f e.2) (omap id l) = Some (omap id l')) as ->; [|done].
  induction H as [|o o' l l' Ho _ IH]; [done|]. destruct Ho as [[a x] [b y] (k & Ha & Hb & Hxy)|]; cbn in *; [|done].
  subst a b. rewrite Hxy. cbn. by rewrite IH.
Qed.

Lemma plain_prf i : (∀ v, prf_Eval i = Some v → prf_values_ok v) →
  (∀ m k v, prf_EvalByCredential i = Some m → m !! k = Some v → prf_values_ok v) →
  plain (VPRFInput i) = Some (prf_plain i).
Proof.
  intros He Hm. unfold plain. cbn [plain_with]. unfold normalizeBuiltInValue, prf_plain. apply plain_members.
  repeat constructor.
  - destruct (prf_Eval i) as [v|]; constructor. exists "eval". split_and!; try done.
    by apply plain_data_plain, prfValuesObject_plain, He.
  - destruct (prf_EvalByCredential i) as [m|]; constructor. exists "evalByCredential". split_and!; try done.
    apply plain_data_plain, eval_entries_plain. intros k v. by apply Hm.
  - destruct (bool_decide _); constructor. exists "allowCredentials". split_and!; try done. apply strings_plain.
Qed.

Lemma string_entries_fmap {A} (g : A → value) (l : list (string * A)) :
  string_entries ((λ e, (KString e.1, g e.2)) <$> l) = (λ e, (e.1, g e.2)) <$> l.
Proof. unfold string_entries. induction l as [|[k x] l IH]; [done|]. cbn. f_equal. exact IH. Qed.

Lemma map_res_image {A B} (f : A → result B) (g : B → A) (l : list B) :
  Forall (λ x, f (g x) = Ok x) l → map_res f (g <$> l) = Ok l.
Proof. intros H. apply map_res_Ok. induction H; constructor; done. Qed.

Lemma parse_eval_entries (m : gmap string PRFValues) : (∀ k v, m !! k = Some v → prf_values_ok v) →
  map_res prfEntry (string_entries ((λ e, (KString e.1, prfValuesObject e.2)) <$> range_list m)) = Ok (range_list m).
Proof.
  intros Hm. rewrite string_entries_fmap. apply map_res_image, Forall_forall. intros [k v] Hin%elem_of_range_list.
  unfold prfEntry. cbn [fst snd]. rewrite parsePRFValues_object by (by eapply Hm). done.
Qed.

Lemma list_to_map_range {A} (m : gmap string A) : list_to_map (range_list m) = m.
Proof.
  rewrite <-(list_to_map_to_list m) at 2. apply list_to_map_proper; [apply NoDup_range_keys|apply range_list_perm].
Qed.

Lemma parsePRFInput_plain i : (∀ v, prf_Eval i = Some v → prf_values_ok v) →
  (∀ m k v, prf_EvalByCredential i = Some m → m !! k = Some v → prf_values_ok v) →
  parsePRFInput (prf_plain i) = Ok i.
Proof.
  intros He Hm. destruct i as [eval evals allow]. unfold prf_plain, members, parsePRFInput. cbn [prf_Eval prf_EvalByCredential prf_AllowCredentials] in *.
  rewrite bool_decide_eq_true_2 by done. unfold prfInputFromFields.
  set (fields := string_entries _).
  assert (field "eval" fields = prfValuesObject <$> eval) as ->.
  { subst fields. by destruct eval, evals, (bool_decide (allow = [])). }
  assert (field "evalByCredential" fields =
    (λ m, VMap map_string_any ((λ e, (KString e.1, prfValuesObject e.2)) <$> range_list m)) <$> evals) as ->.
  { subst fields. by destruct eval, evals, (bool_decide (allow = [])). }
  assert (field "allowCredentials" fields = if bool_decide (allow = []) then None else Some (VSeq slice_any (VString <$> allow))) as ->.
  { subst fields. by destruct eval, evals, (bool_decide (allow = [])). }
  clear fields.
  assert (map_res (λ v, of_option (invalidRequest "prf allowCredentials must be strings") (as_string v)) (VString <$> allow) = Ok allow) as Hallow
    by (apply map_res_image, Forall_true; done).
  destruct eval as [v|]; cbn [fmap option_fmap option_map]; [rewrite parsePRFValues_object by (by apply He)|]; run;
    (destruct evals as [m|]; cbn [fmap option_fmap option_map];
      [rewrite (bool_decide_eq_true_2 (map_string_any = map_string_any)) by done; rewrite parse_eval_entries by (intros k' v' ?; by eapply Hm); run; rewrite list_to_map_range|]; run;
      (destruct (bool_decide_reflect (allow = [])) as [->|Hne]; [done|];
       rewrite (bool_decide_eq_true_2 (slice_any ∈ _)) by (right; by left); rewrite Hallow; done)).
Qed.

(** Copies of typed inputs are equal values. *)
Definition typed_input (v : value) : bool := match v with VPRFInput _ | VLargeBlobInput _ => true | _ => false end.

Lemma CloneValue_typed v x : typed_input v = true → CloneValue v = Ok x → x = v.
Proof.
  intros Ht H. unfold CloneValue, CloneValueWithLimits in H. apply bind_Ok in H as ([] & _ & H).
  apply bind_Ok in H as ([y b] & H & [= <-]).
  destruct v; try done; cbn [cloneValueAt] in H; apply bind_Ok in H as ([] & _ & H); destruct (directCloneCost _) in H;
    apply bind_Ok in H as (b' & _ & H); cbn in H; injection H as <- <-; f_equal; [apply clonePRFInput_id|apply cloneLargeBlobInput_id].
Qed.

Lemma NewRawValue_typed v r x : typed_input v = true → NewRawValue v = Ok r → rawValue r = Ok x → x = v.
Proof.
  intros Ht H Hr. apply bind_Ok in H as (c & Hc%CloneValue_typed & [= <-]); [|done]. subst c.
  unfold rawValue in Hr. cbn in Hr. by apply CloneValue_typed in Hr.
Qed.

Lemma InputValue_typed v raw : typed_input v = true → InputValue v = Ok raw → raw = v.
Proof.
  intros Ht H. apply bind_Ok in H as ([] & _ & H).
  destruct v; try discriminate Ht; unfold CloneInput in H; apply bind_Ok in H as ([] & _ & H); cbn [CloneExtensionInput] in H;
    apply bind_Ok in H as (c & Hc & H); apply bind_Ok in Hc as (d & _ & [= <-]); apply bind_Ok in H as ([] & _ & [= <-]); f_equal;
    [apply clonePRFInput_id|apply cloneLargeBlobInput_id].
Qed.

Lemma validatePRFValues_first v u : validatePRFValues v false = Ok u → prf_values_ok v.
Proof. unfold validatePRFValues, prf_values_ok. intros H. apply bind_Ok in H as ([] & Hf%fail_if_Ok%bool_decide_eq_false & _). done. Qed.

Lemma parsePRFInput_typed i out : parsePRFInput (VPRFInput i) = Ok out →
  out = i ∧ (∀ v, prf_Eval i = Some v → prf_values_ok v) ∧
  (∀ m k v, prf_EvalByCredential i = Some m → m !! k = Some v → prf_values_ok v).
Proof.
  intros H. cbn [parsePRFInput] in H. apply bind_Ok in H as ([] & He & H). apply bind_Ok in H as ([] & Hm & [= <-]).
  split; [apply clonePRFInput_id|]. split.
  - intros v Hv. rewrite Hv in He. by eapply validatePRFValues_first.
  - intros m k v Hmap Hk. rewrite Hmap in Hm. apply for_each_Ok in Hm. rewrite Forall_forall in Hm.
    apply elem_of_range_list in Hk. by eapply validatePRFValues_first, (Hm (k, v)).
Qed.

(** The operations both kinds of request accept. *)
Definition both_operations : list Operation := [OperationRegistration; OperationAuthentication].
Lemma requireInputOperation_input operation id r r' :
  requireInputOperation (mkInputRequest operation id r) both_operations =
  requireInputOperation (mkInputRequest operation id r') both_operations.
Proof. done. Qed.

Lemma prf_meaning operation i v' r out :
  stored_as (VPRFInput i) v' → NewRawValue (VPRFInput i) = Ok r → PRF_ValidateInput (mkInputRequest operation IDPRF r) = Ok out →
  ∃ r', NewRawValue v' = Ok r' ∧ PRF_ValidateInput (mkInputRequest operation IDPRF r') = Ok out.
Proof.
  intros (raw & w & Hraw & Hw & Hl & ->) Hr H. pose proof (plain_is_data _ _ Hw) as Hp. exists (mkRawValue true w).
  split; [by apply NewRawValue_restored|]. apply InputValue_typed in Hraw as ->; [|done].
  apply bind_Ok in H as ([] & Hop & H). apply bind_Ok in H as (x & Hx & H). rewrite (NewRawValue_typed (VPRFInput i) _ _ eq_refl Hr Hx) in H.
  apply bind_Ok in H as (j & Hj & H). apply parsePRFInput_typed in Hj as (-> & He & Hm).
  rewrite plain_prf in Hw by done. injection Hw as <-. unfold PRF_ValidateInput.
  rewrite (requireInputOperation_input _ _ _ r). unfold both_operations. rewrite Hop. run. cbn [ir_Input].
  rewrite rawValue_plain by done. run. rewrite parsePRFInput_plain by done. exact H.
Qed.

Lemma largeBlob_meaning operation i v' r out :
  stored_as (VLargeBlobInput i) v' → NewRawValue (VLargeBlobInput i) = Ok r →
  LargeBlob_ValidateInput (mkInputRequest operation IDLargeBlob r) = Ok out →
  ∃ r', NewRawValue v' = Ok r' ∧ LargeBlob_ValidateInput (mkInputRequest operation IDLargeBlob r') = Ok out.
Proof.
  intros (raw & w & Hraw & Hw & Hl & ->) Hr H. pose proof (plain_is_data _ _ Hw) as Hp. exists (mkRawValue true w).
  split; [by apply NewRawValue_restored|]. apply InputValue_typed in Hraw as ->; [|done].
  apply bind_Ok in H as ([] & Hop & H). apply bind_Ok in H as (x & Hx & H). rewrite (NewRawValue_typed (VLargeBlobInput i) _ _ eq_refl Hr Hx) in H.
  apply bind_Ok in H as ([j p] & Hj & H). cbn in Hj. injection Hj as <- <-. rewrite cloneLargeBlobInput_id in H.
  rewrite plain_largeBlob in Hw. assert (w = normalizeBuiltInValue (VLargeBlobInput i)) as -> by congruence.
  unfold LargeBlob_ValidateInput. rewrite (requireInputOperation_input _ _ _ r). unfold both_operations. rewrite Hop. run. cbn [ir_Input].
  rewrite rawValue_plain by done. run. rewrite parseLargeBlobInput_plain. exact H.
Qed.
End Meaning.

(** ** Properties *)
Section Properties.
Context {Ord : MapOrder} {Custom : CustomTypes}.
Import StoreValue.

(** The stored form is exact.  A tagged value decodes to [v] exactly when
    [v] is plain data, the tagged value is its canonical form, and depth, nodes
    and text bytes are within the limits of storage; and a value encodes to a
    tagged value exactly when it stands for plain data within the limits and
    the tagged value is the canonical form of that data.  So what is encoded
    decodes to one value, and no other tagged value decodes to it. *)
Theorem stored_value_exact (v : value) (e : encodedValue) (b : valueBudget) :
  (decodeValueAt depth_fuel e 0 (mkBudget 0 0) = Ok (v, b) ↔
   plain_data v = true ∧ e = encoded v ∧ value_depth v <= 32 ∧ value_nodes v <= 4096 ∧ text_bytes v <= MaxEnvelopeBytes ∧
   b = mkBudget (value_nodes v) (text_bytes v)) ∧
  (encodeValueAt depth_fuel (normalizeBuiltInValue v) 0 (mkBudget 0 0) = Ok (e, b) ↔
   ∃ w, plain v = Some w ∧ plain_data w = true ∧ e = encoded w ∧ value_depth w <= 32 ∧ value_nodes w <= 4096 ∧
        value_bytes w <= MaxEnvelopeBytes ∧ b = mkBudget (value_nodes w) (value_bytes w)).
Proof.
  split.
  - rewrite (decode_spec depth_fuel e 0 (mkBudget 0 0) v b) by (done || by split). unfold fits, spent. cbn [vb_nodes vb_bytes].
    rewrite !Z.add_0_l. naive_solver.
  - rewrite (encode_spec depth_fuel _ 0 (mkBudget 0 0) e b) by (apply normalize_not_builtin || done || by split).
    unfold fits, spent. cbn [vb_nodes vb_bytes]. setoid_rewrite plain_normalize. setoid_rewrite Z.add_0_l. split.
    + intros (w & Hw & ? & ? & [? ?] & ?). exists w. split_and!; try done. by apply plain_is_data in Hw.
    + intros (w & Hw & _ & ? & ? & ? & ? & ?). by exists w.
Qed.

(** Typed inputs keep their meaning: the input that the PRF or large blob
    handler reads out of a typed input is the one it reads out of what storage
    made of it. *)
Theorem stored_input_meaning (operation : Operation) (v v' : value) (r : RawValue) :
  stored_as v v' → NewRawValue v = Ok r →
  (∀ i out, v = VPRFInput i → PRF_ValidateInput (mkInputRequest operation IDPRF r) = Ok out →
     ∃ r', NewRawValue v' = Ok r' ∧ PRF_ValidateInput (mkInputRequest operation IDPRF r') = Ok out) ∧
  (∀ i out, v = VLargeBlobInput i → LargeBlob_ValidateInput (mkInputRequest operation IDLargeBlob r) = Ok out →
     ∃ r', NewRawValue v' = Ok r' ∧ LargeBlob_ValidateInput (mkInputRequest operation IDLargeBlob r') = Ok out).
Proof.
  intros Hv Hr. split; intros i out -> H; [by eapply prf_meaning|by eapply largeBlob_meaning].
Qed.
End Properties.

#[local] Existing Instance no_custom_types.
#[local] Existing Instance default_order.

Definition sample_blob : value := VLargeBlobInput (mkLargeBlobInput "" (Some true) None).
Lemma stored_input_meaning_witness : ∃ v' r out,
  stored_as sample_blob v' ∧ NewRawValue sample_blob = Ok r ∧
  LargeBlob_ValidateInput (mkInputRequest OperationAuthentication IDLargeBlob r) = Ok out ∧
  ∃ r', NewRawValue v' = Ok r' ∧ LargeBlob_ValidateInput (mkInputRequest OperationAuthentication IDLargeBlob r') = Ok out.
Proof.
  assert (stored_as sample_blob (VRawInput true (VMap map_string_any [(KString "read", VBool true)]))) as Hs.
  { eexists _, _. split; [reflexivity|]. split; [reflexivity|]. split; [vm_compute; split_and!; discriminate|reflexivity]. }
  eexists _, _, _. split; [exact Hs|]. split; [reflexivity|]. split; [reflexivity|].
  eapply (proj2 (stored_input_meaning OperationAuthentication _ _ _ Hs eq_refl)); reflexivity.
Defined.
