(* ===== verification/GoTime.v ===== *)
(** * Times

    The instants of [time.Time] and their RFC 3339 texts, as [formatTime] and
    [parseTime] of [src/storage/json/json.go] use them.  An instant is a number
    of nanoseconds since the zero time, 0001-01-01T00:00:00Z.  [Format] is
    [time.Time.Format] of a UTC time with the layout [time.RFC3339Nano] and
    [Parse] is the RFC 3339 reader of [time.Parse]; what the general layout
    reader accepts beyond it is never the text of [Format], which the one
    caller also requires. *)
From S2P Require Import Prelude GoStrings Json.
Set Default Goal Selector "!".
Local Open Scope Z_scope.

(** ** The calendar *)
Definition isLeap (year : Z) : bool := (year mod 4 =? 0) && (negb (year mod 100 =? 0) || (year mod 400 =? 0)).

Definition monthLengths (leap : bool) : list Z := [31; if leap then 29 else 28; 31; 30; 31; 30; 31; 31; 30; 31; 30; 31].
Definition daysIn (month year : Z) : Z := default 0 (monthLengths (isLeap year) !! Z.to_nat (month - 1)).

Definition sumZ (l : list Z) : Z := foldr Z.add 0 l.
Definition daysBeforeYear (year : Z) : Z := let p := year - 1 in 365 * p + p / 4 - p / 100 + p / 400.
Definition daysBeforeMonth (leap : bool) (month : Z) : Z := sumZ (take (Z.to_nat (month - 1)) (monthLengths leap)).

(** Days since 0001-01-01. *)
Definition dateDays (year month day : Z) : Z := daysBeforeYear year + daysBeforeMonth (isLeap year) month + (day - 1).

(** The year of a day and the day of that year, by 400, 100, 4 and 1 years. *)
Definition yearDay (days : Z) : Z * Z :=
  let n400 := days / 146097 in
  let d := days mod 146097 in
  let n100 := Z.min 3 (d / 36524) in
  let d := d - 36524 * n100 in
  let n4 := d / 1461 in
  let d := d - 1461 * n4 in
  let n := Z.min 3 (d / 365) in
  (400 * n400 + 100 * n100 + 4 * n4 + n + 1, d - 365 * n).

Fixpoint monthDay (lengths : list Z) (month yday : Z) : Z * Z :=
  match lengths with
  | l :: lengths => if yday <? l then (month, yday + 1) else monthDay lengths (month + 1) (yday - l)
  | [] => (month, yday + 1)
  end.

(** [time.Time.Date] *)
Definition civil (days : Z) : Z * Z * Z :=
  let '(year, yday) := yearDay days in
  let '(month, day) := monthDay (monthLengths (isLeap year)) 1 yday in
  (year, month, day).

Definition secondNanos : Z := 1000000000.
Definition dayNanos : Z := 86400 * secondNanos.
Definition year_of (t : Z) : Z := (yearDay (t / dayNanos)).1.

(** ** Format *)
Definition digit (d : Z) : byte := byte_of_Z (48 + d).
Fixpoint pad (n : nat) (z : Z) : list byte :=
  match n with O => [] | S n => pad n (z / 10) ++ [digit (z mod 10)] end.

Definition formatYear (year : Z) : list byte :=
  (if year <? 0 then [x2d] else []) ++ (if Z.abs year <? 10000 then pad 4 (Z.abs year) else nat_digits 20 (Z.abs year) []).

(** Without the trailing zeros. *)
Fixpoint trimZeros (l : list byte) : list byte :=
  match l with
  | [] => []
  | c :: l => match trimZeros l with [] => if decide (c = x30) then [] else [c] | t => c :: t end
  end.
Definition formatFraction (nanos : Z) : list byte := if nanos =? 0 then [] else x2e :: trimZeros (pad 9 nanos).

Definition Format (t : Z) : list byte :=
  let '(year, month, day) := civil (t / dayNanos) in
  let s := t mod dayNanos / secondNanos in
  formatYear year ++ [x2d] ++ pad 2 month ++ [x2d] ++ pad 2 day ++ [x54]
  ++ pad 2 (s / 3600) ++ [x3a] ++ pad 2 (s / 60 mod 60) ++ [x3a] ++ pad 2 (s mod 60)
  ++ formatFraction (t mod secondNanos) ++ [x5a].

(** ** Parse *)
Definition parseUint (s : list byte) (min max : Z) : option Z :=
  let x := digits_val s in
  if forallb is_digit s && (min <=? x) && (x <=? max) then Some x else None.

Definition part (s : list byte) (first last : nat) : list byte := take (last - first) (drop first s).
Definition is_byte (s : list byte) (n : nat) (c : byte) : bool := bool_decide (s !! n = Some c).

(** The fraction of a second and what follows it; more than nine digits are cut. *)
Definition parseFraction (s : list byte) : Z * list byte :=
  match s with
  | c :: s' =>
      if decide (c = x2e) then
        let '(ds, rest) := take_digits s' in
        if bool_decide (ds = []) then (0, s)
        else let ds := take 9 ds in (digits_val ds * 10 ^ (9 - Z.of_nat (length ds)), rest)
      else (0, s)
  | [] => (0, s)
  end.

(** Seconds east of UTC. *)
Definition parseZone (s : list byte) : option Z :=
  if bool_decide (s = [x5a]) then Some 0
  else if negb (length s =? 6)%nat then None
  else
    hr ← parseUint (part s 1 3) 0 23;
    mm ← parseUint (part s 4 6) 0 59;
    let offset := (hr * 60 + mm) * 60 in
    if is_byte s 3 x3a
    then if is_byte s 0 x2d then Some (- offset) else if is_byte s 0 x2b then Some offset else None
    else None.

Definition Parse (s : list byte) : option Z :=
  if (length s <? 19)%nat then None else
  year ← parseUint (part s 0 4) 0 9999;
  month ← parseUint (part s 5 7) 1 12;
  day ← parseUint (part s 8 10) 1 (daysIn month year);
  hour ← parseUint (part s 11 13) 0 23;
  min ← parseUint (part s 14 16) 0 59;
  sec ← parseUint (part s 17 19) 0 59;
  if is_byte s 4 x2d && is_byte s 7 x2d && is_byte s 10 x54 && is_byte s 13 x3a && is_byte s 16 x3a then
    let '(nsec, rest) := parseFraction (drop 19 s) in
    offset ← parseZone rest;
    Some (dateDays year month day * dayNanos + (hour * 3600 + min * 60 + sec - offset) * secondNanos + nsec)
  else None.

Example time_vectors :
  let t := 63902908800500000000 in
  Format t = bytes_of_string "2026-01-02T00:00:00.5Z"
  ∧ Parse (bytes_of_string "2026-01-02T00:00:00.5Z") = Some t
  ∧ Parse (bytes_of_string "2026-01-02T05:30:00.500+05:30") = Some t
  ∧ Format 0 = bytes_of_string "0001-01-01T00:00:00Z"
  ∧ Parse (bytes_of_string "2025-02-29T00:00:00Z") = None.
Proof. by vm_compute. Qed.

(** ** The calendar is consistent *)
Lemma yearDay_spec days : let '(year, yday) := yearDay days in
  daysBeforeYear year + yday = days ∧ 0 <= yday < 365 + (if isLeap year then 1 else 0).
Proof.
  unfold yearDay. set (a := days / 146097). pose proof (Z.div_mod days 146097 ltac:(lia)) as Hd. fold a in Hd.
  pose proof (Z.mod_pos_bound days 146097 ltac:(lia)) as Hr. set (r := days mod 146097) in *.
  set (b := Z.min 3 (r / 36524)). set (r1 := r - 36524 * b).
  assert (0 <= b <= 3 ∧ 0 <= r1 ∧ (r1 < 36524 ∨ b = 3 ∧ r1 < 36525)) as (Hb & Hr1 & Hr1').
  { subst r1 b. Z.to_euclidean_division_equations. lia. }
  clearbody b. set (c := r1 / 1461). set (r2 := r1 - 1461 * c).
  assert (0 <= c <= 24 ∧ 0 <= r2 < 1461 ∧ (c = 24 → r2 < 1460 ∨ b = 3)) as (Hc & Hr2 & Hr2').
  { subst r2 c. Z.to_euclidean_division_equations. lia. }
  clearbody c. set (e := Z.min 3 (r2 / 365)).
  assert (0 <= e <= 3 ∧ 0 <= r2 - 365 * e ∧ (r2 - 365 * e < 365 ∨ e = 3 ∧ r2 - 365 * e < 366)) as (He & Hy & Hy').
  { subst e. Z.to_euclidean_division_equations. lia. }
  clearbody e. unfold daysBeforeYear, isLeap. set (y := 400 * a + 100 * b + 4 * c + e + 1).
  replace ((y - 1) / 4) with (100 * a + 25 * b + c) by (subst y; Z.to_euclidean_division_equations; lia).
  replace ((y - 1) / 100) with (4 * a + b) by (subst y; Z.to_euclidean_division_equations; lia).
  replace ((y - 1) / 400) with a by (subst y; Z.to_euclidean_division_equations; lia).
  split; [subst y r1 r2; lia|]. split; [lia|].
  destruct (Z.lt_ge_cases (r2 - 365 * e) 365); [destruct (_ && _); lia|]. destruct Hy' as [?|[-> Hlt]]; [lia|].
  assert (y mod 4 = 0) as -> by (subst y; Z.to_euclidean_division_equations; lia). cbn [Z.eqb andb].
  destruct (Z.eqb_spec (y mod 100) 0) as [H100|H100]; cbn [negb orb]; [|lia].
  destruct (Z.eqb_spec (y mod 400) 0) as [H400|H400]; [lia|]. exfalso.
  assert (c = 24) as -> by (subst y; Z.to_euclidean_division_equations; lia).
  destruct (Hr2' eq_refl) as [?|Hb3]; [lia|]. subst b. apply H400.
  replace y with ((a + 1) * 400) by (subst y; lia). by apply Z.mod_mul.
Qed.

Lemma monthDay_spec lengths : ∀ month yday, 0 <= yday < sumZ lengths →
  ∃ n day l, monthDay lengths month yday = (month + Z.of_nat n, day) ∧ lengths !! n = Some l ∧ 1 <= day <= l ∧
             sumZ (take n lengths) + (day - 1) = yday.
Proof.
  induction lengths as [|l lengths IH]; intros month yday Hy; [cbn in Hy; lia|].
  change (sumZ (l :: lengths)) with (l + sumZ lengths) in Hy. cbn [monthDay].
  destruct (Z.ltb_spec yday l) as [Hlt|Hge].
  - exists 0%nat, (yday + 1), l. cbn. split_and!; try lia; [f_equal; lia|done].
  - destruct (IH (month + 1) (yday - l) ltac:(lia)) as (n & day & l' & -> & Hl' & Hday & Hsum).
    exists (S n), day, l'. rewrite firstn_cons. change (sumZ (l :: take n lengths)) with (l + sumZ (take n lengths)). split_and!; try lia; [f_equal; lia|done].
Qed.

Lemma civil_spec days : let '(year, month, day) := civil days in
  year = (yearDay days).1 ∧ dateDays year month day = days ∧ 1 <= month <= 12 ∧ 1 <= day <= daysIn month year.
Proof.
  unfold civil. pose proof (yearDay_spec days) as H. destruct (yearDay days) as [year yday]. destruct H as [Hd Hy].
  destruct (monthDay_spec (monthLengths (isLeap year)) 1 yday) as (n & day & l & -> & Hl & Hday & Hsum).
  { destruct (isLeap year); cbn; lia. }
  pose proof (lookup_lt_Some _ _ _ Hl) as Hn. cbn in Hn. unfold dateDays, daysBeforeMonth, daysIn.
  replace (Z.to_nat (1 + Z.of_nat n - 1)) with n by lia. rewrite Hl. cbn. split_and!; lia || done.
Qed.

Lemma daysIn_bound month year : daysIn month year <= 31.
Proof.
  unfold daysIn. generalize (Z.to_nat (month - 1)). intros n.
  do 13 (destruct n as [|n]; [cbn; destruct (isLeap year); cbn; lia|]). cbn. lia.
Qed.

(** ** Digits *)
Lemma digit_spec d : 0 <= d < 10 → is_digit (digit d) = true ∧ byte_val (digit d) = 48 + d.
Proof.
  intros Hd. unfold is_digit, in_range, digit. rewrite byte_val_of, Z.mod_small by lia. split; [|done].
  rewrite (proj2 (Z.leb_le _ _)), (proj2 (Z.leb_le _ _)) by lia. done.
Qed.

Lemma pad_digits n : ∀ z, Forall (λ c, is_digit c = true) (pad n z).
Proof.
  induction n as [|n IH]; intros z; cbn [pad]; [constructor|]. apply Forall_app. split; [apply IH|].
  repeat constructor. apply digit_spec, Z.mod_pos_bound. lia.
Qed.
Lemma pad_length n : ∀ z, length (pad n z) = n.
Proof. induction n as [|n IH]; intros z; cbn [pad]; [done|]. rewrite length_app, IH. cbn. lia. Qed.
Lemma pad_val n : ∀ z, 0 <= z < 10 ^ Z.of_nat n → digits_val (pad n z) = z.
Proof.
  induction n as [|n IH]; intros z Hz; cbn [pad]; [cbn in *; lia|].
  rewrite digits_val_snoc. rewrite Nat2Z.inj_succ, Z.pow_succ_r in Hz by lia.
  rewrite IH by (split; [apply Z.div_pos; lia|apply Z.div_lt_upper_bound; lia]).
  destruct (digit_spec (z mod 10)) as [_ ->]; [apply Z.mod_pos_bound; lia|]. rewrite (Z.div_mod z 10) at 3 by lia. lia.
Qed.

Lemma parseUint_pad n z lo hi : 0 <= z < 10 ^ Z.of_nat n → lo <= z <= hi → parseUint (pad n z) lo hi = Some z.
Proof.
  intros Hz Hb. unfold parseUint. rewrite pad_val by done.
  rewrite (proj2 (forallb_forall _ _)); [|intros c Hc; apply list_elem_of_In in Hc; revert c Hc; apply Forall_forall, pad_digits].
  rewrite (proj2 (Z.leb_le _ _)), (proj2 (Z.leb_le _ _)) by lia. done.
Qed.

Lemma trimZeros_spec l : ∃ k, l = trimZeros l ++ replicate k x30.
Proof.
  induction l as [|c l [k IH]]; [by exists 0%nat|]. cbn. destruct (trimZeros l) as [|d t] eqn:E.
  - cbn in IH. destruct (decide (c = x30)) as [->|Hc]; [exists (S k); cbn; by f_equal|exists k; cbn; by f_equal].
  - exists k. rewrite IH at 1. done.
Qed.

Lemma digits_val_zeros l k : digits_val (l ++ replicate k x30) = digits_val l * 10 ^ Z.of_nat k.
Proof.
  induction k as [|k IH]; [cbn; rewrite app_nil_r; lia|].
  rewrite replicate_S_end, app_assoc, digits_val_snoc, IH, Nat2Z.inj_succ, Z.pow_succ_r by lia.
  change (byte_val x30) with 48. lia.
Qed.

Lemma take_digits_stop ds c rest : Forall (λ c, is_digit c = true) ds → is_digit c = false →
  take_digits (ds ++ c :: rest) = (ds, c :: rest).
Proof. intros Hds Hc. induction Hds as [|d ds Hd Hds IH]; cbn; [by rewrite Hc|]. by rewrite Hd, IH. Qed.

Lemma parseFraction_format nanos : 0 <= nanos < secondNanos →
  parseFraction (formatFraction nanos ++ [x5a]) = (nanos, [x5a]).
Proof.
  unfold secondNanos. intros Hn. unfold formatFraction. destruct (Z.eqb_spec nanos 0) as [->|Hne]; [done|].
  destruct (trimZeros_spec (pad 9 nanos)) as [k Hk]. set (ds := trimZeros (pad 9 nanos)) in *.
  assert (digits_val ds * 10 ^ Z.of_nat k = nanos) as Hv
    by (rewrite <-digits_val_zeros, <-Hk; apply pad_val; lia).
  assert (length ds + k = 9)%nat as Hlen
    by (rewrite <-(pad_length 9 nanos), Hk, length_app, length_replicate; lia).
  assert (Forall (λ c, is_digit c = true) ds) as Hds by (pose proof (pad_digits 9 nanos) as H; rewrite Hk in H; by apply Forall_app in H as [? _]).
  cbn [parseFraction app]. rewrite decide_True, take_digits_stop by done. rewrite bool_decide_eq_false_2.
  - rewrite take_ge by lia. f_equal. rewrite <-Hv. do 2 f_equal. lia.
  - intros E. apply Hne. rewrite <-Hv, E. done.
Qed.

(** ** Reading back a formatted time *)
Lemma fields_of (y m d h i s r : list byte) : length y = 4%nat → length m = 2%nat → length d = 2%nat → length h = 2%nat →
  length i = 2%nat → length s = 2%nat →
  let l := y ++ [x2d] ++ m ++ [x2d] ++ d ++ [x54] ++ h ++ [x3a] ++ i ++ [x3a] ++ s ++ r in
  (length l <? 19)%nat = false ∧ part l 0 4 = y ∧ part l 5 7 = m ∧ part l 8 10 = d ∧ part l 11 13 = h ∧ part l 14 16 = i ∧
  part l 17 19 = s ∧ drop 19 l = r ∧
  is_byte l 4 x2d && is_byte l 7 x2d && is_byte l 10 x54 && is_byte l 13 x3a && is_byte l 16 x3a = true.
Proof.
  intros Hy Hm Hd Hh Hi Hs.
  destruct y as [|y1 [|y2 [|y3 [|y4 [|]]]]]; try done. destruct m as [|m1 [|m2 [|]]]; try done.
  destruct d as [|d1 [|d2 [|]]]; try done. destruct h as [|h1 [|h2 [|]]]; try done.
  destruct i as [|i1 [|i2 [|]]]; try done. destruct s as [|s1 [|s2 [|]]]; try done.
Qed.

Lemma Parse_Format t : 0 <= year_of t <= 9999 → Parse (Format t) = Some t.
Proof.
  unfold year_of, Format. intros Hyear. pose proof (civil_spec (t / dayNanos)) as Hc.
  destruct (civil (t / dayNanos)) as [[year month] day]. destruct Hc as (Hy & Hdate & Hm & Hd). rewrite <-Hy in Hyear.
  pose proof (daysIn_bound month year) as Hb. set (s := t mod dayNanos / secondNanos).
  assert (0 <= s < 86400) as Hs.
  { subst s. unfold dayNanos, secondNanos. pose proof (Z.mod_pos_bound t (86400 * 1000000000) ltac:(lia)). split.
    - apply Z.div_pos; lia.
    - apply Z.div_lt_upper_bound; lia. }
  assert (formatYear year = pad 4 year) as ->.
  { unfold formatYear. rewrite (proj2 (Z.ltb_ge _ _)), Z.abs_eq, (proj2 (Z.ltb_lt _ _)) by lia. done. }
  set (tail := formatFraction (t mod secondNanos) ++ [x5a]).
  destruct (fields_of (pad 4 year) (pad 2 month) (pad 2 day) (pad 2 (s / 3600)) (pad 2 (s / 60 mod 60)) (pad 2 (s mod 60)) tail)
    as (E0 & E1 & E2 & E3 & E4 & E5 & E6 & E7 & E8); try apply pad_length.
  set (l := pad 4 year ++ _) in *. unfold Parse. rewrite E0, E1, E2, E3, E4, E5, E6, E7, E8.
  rewrite !parseUint_pad by (cbn; Z.to_euclidean_division_equations; lia). cbn [mbind option_bind].
  rewrite !parseUint_pad by (cbn; lia). cbn [mbind option_bind].
  subst tail. rewrite parseFraction_format by (unfold secondNanos; apply Z.mod_pos_bound; lia).
  change (parseZone [x5a]) with (Some 0). cbn [mbind option_bind]. f_equal. rewrite Hdate.
  clear -s Hs. subst s. unfold dayNanos, secondNanos in *. Z.to_euclidean_division_equations. lia.
Qed.
