(* ===== verification/JsonText.v ===== *)
(** * JSON printing and typed decoding

    The writer of Go's [encoding/json/v2] as [json.Marshal] uses it by default,
    and the decoding of a value tree into Go types that [json.Unmarshal]
    performs: strings are quoted with the shortest escapes, invalid UTF-8 and
    duplicate names are refused, numbers are written as they are, no whitespace
    is added.  [parse_print]: the reader of [Json] returns the printed tree.  The
    texts of floating-point numbers, those of [strconv], are the class
    [FloatText]. *)
From S2P Require Import Prelude GoStrings Json ClientData ExtValue.
Set Default Goal Selector "!".
Local Open Scope Z_scope.

Implicit Types (c : byte) (l : list byte).

(** ** Printing *)

(** The option [jsontext.EscapeForHTML]; [json.Marshal] leaves it unset. *)
Class EscapeMode : Type := EscapeForHTML : bool.
Definition html_text : EscapeMode := true.
Definition html_char c : bool := bool_decide (c ∈ [x3c; x3e; x26]).

Definition hex_digit (n : Z) : byte := if n <? 10 then byte_of_Z (48 + n) else byte_of_Z (87 + n).

Section Printing.
Context {Mode : EscapeMode}.

(** The text of one byte inside a quoted string. *)
Definition escape c : list byte :=
  if decide (c = x22) then [x5c; x22]
  else if decide (c = x5c) then [x5c; x5c]
  else if decide (c = x08) then [x5c; x62]
  else if decide (c = x0c) then [x5c; x66]
  else if decide (c = x0a) then [x5c; x6e]
  else if decide (c = x0d) then [x5c; x72]
  else if decide (c = x09) then [x5c; x74]
  else if (byte_val c <? 32) || (EscapeForHTML && html_char c) then [x5c; x75; x30; x30; hex_digit (byte_val c / 16); hex_digit (byte_val c mod 16)]
  else [c].
Definition escaped l : list byte := flat_map escape l.
Definition quote l : list byte := x22 :: escaped l ++ [x22].

Definition separated (texts : list (list byte)) : list byte :=
  match texts with [] => [] | t :: texts => t ++ flat_map (λ t, x2c :: t) texts end.

Fixpoint print (v : json) : list byte :=
  match v with
  | JNull => bytes_of_string "null"
  | JBool b => bool_text b
  | JNumber raw => raw
  | JString s => quote s
  | JArray vs => x5b :: separated (print <$> vs) ++ [x5d]
  | JObject ms => x7b :: separated ((λ m, quote m.1 ++ x3a :: print m.2) <$> ms) ++ [x7d]
  end.

(** ** Trees a JSON text can hold *)
Definition number_token (raw : list byte) : bool := bool_decide (parse_number raw = Some (raw, [])).
Definition valid_utf8 l : bool := utf8_valid (length l) l.

Fixpoint json_ok (depth : nat) (v : json) {struct v} : bool :=
  match v with
  | JNull | JBool _ => true
  | JNumber raw => number_token raw
  | JString s => valid_utf8 s
  | JArray vs => match depth with O => false | S depth => forallb (json_ok depth) vs end
  | JObject ms =>
      match depth with
      | O => false
      | S depth => bool_decide (NoDup ms.*1) && forallb (λ m, valid_utf8 m.1 && json_ok depth m.2) ms
      end
  end.

(** [json.Marshal] of the tree of a Go value; [None] is an error. *)
Definition Marshal (v : json) : option (list byte) := if json_ok max_depth v then Some (print v) else None.

(** ** Reading back strings *)
Lemma escape_high c : 128 <= byte_val c → escape c = [c].
Proof.
  intros Hc. unfold escape. generalize EscapeForHTML as b. intros b.
  destruct c; try (vm_compute in Hc; by destruct Hc); by destruct b.
Qed.

Lemma parse_escape_low c rest : byte_val c < 128 →
  parse_string (escape c ++ rest) = push [c] (parse_string rest).
Proof.
  intros Hc. unfold escape. generalize EscapeForHTML as b. intros b.
  destruct c; try (vm_compute in Hc; discriminate Hc); destruct b; reflexivity.
Qed.

(** A valid multi-byte sequence does not depend on what follows it, and its
    bytes are not ASCII. *)
Lemma utf8_seq_split l n : utf8_seq l = Some n →
  ∃ q r, l = q ++ r ∧ length q = n ∧ Forall (λ c, 128 <= byte_val c) q ∧
  (∀ r', utf8_seq (q ++ r') = Some n) ∧ ∀ r', parse_string (q ++ r') = push q (parse_string r').
Proof.
  assert (∀ lo hi c, in_range lo hi c = true → lo <= byte_val c) as Hlo.
  { intros lo hi c H. unfold in_range in H. apply andb_true_iff in H as [H%Z.leb_le _]. done. }
  assert (∀ c c', 128 <= byte_val c → byte_val c' < 128 → c ≠ c') as Hne by (intros c c' ? ? ->; lia).
  intros H.
  assert (∃ q r, l = q ++ r ∧ length q = n ∧ (2 <= n <= 4)%nat ∧ Forall (λ c, 128 <= byte_val c) q ∧
          ∀ r', utf8_seq (q ++ r') = Some n) as (q & r & -> & Hq & Hn & Hhigh & Hseq).
  { destruct l as [|a [|b l]]; try done. cbn [utf8_seq] in H.
    destruct (in_range 194 223 a && is_cont b) eqn:E2.
    { simplify_eq. exists [a; b], l. apply andb_true_iff in E2 as [Ha Hb]. split_and!; try done; try lia.
      - repeat constructor; [specialize (Hlo _ _ _ Ha); lia|exact (Hlo _ _ _ Hb)].
      - intros r'. cbn. by rewrite Ha, Hb. }
    destruct l as [|c l]; try done.
    destruct (in_range 224 239 a && is_cont c && _) eqn:E3.
    { simplify_eq. exists [a; b; c], l. split_and!; try done; try lia.
      - apply andb_true_iff in E3 as [[Ha Hc]%andb_true_iff Hb]. repeat constructor;
          [specialize (Hlo _ _ _ Ha); lia|specialize (Hlo _ _ _ Hb); destruct (byte_val a =? 224); lia|exact (Hlo _ _ _ Hc)].
      - intros r'. cbn [utf8_seq app]. by rewrite E2, E3. }
    destruct l as [|d l]; try done.
    destruct (in_range 240 244 a && is_cont c && is_cont d && _) eqn:E4; try done.
    simplify_eq. exists [a; b; c; d], l. split_and!; try done; try lia.
    - apply andb_true_iff in E4 as [[[Ha Hc]%andb_true_iff Hd]%andb_true_iff Hb]. repeat constructor;
        [specialize (Hlo _ _ _ Ha); lia|specialize (Hlo _ _ _ Hb); destruct (byte_val a =? 240); lia|exact (Hlo _ _ _ Hc)|exact (Hlo _ _ _ Hd)].
    - intros r'. cbn [utf8_seq app]. by rewrite E2, E3, E4. }
  exists q, r. split_and!; try done. intros r'.
  destruct q as [|a q]; [cbn in *; lia|]. apply Forall_cons in Hhigh as [Ha Hhigh]. specialize (Hseq r').
  cbn [app parse_string]. cbn [app] in Hseq. rewrite !decide_False by (by apply Hne).
  rewrite !(proj2 (Z.ltb_ge (byte_val a) _)) by lia. rewrite Hseq.
  destruct q as [|b [|c [|d [|e q]]]]; cbn in Hq; subst n; try lia; done.
Qed.

Lemma escaped_app a b : escaped (a ++ b) = escaped a ++ escaped b.
Proof. apply flat_map_app. Qed.
Lemma escaped_high q : Forall (λ c, 128 <= byte_val c) q → escaped q = q.
Proof. induction 1 as [|c q Hc _ IH]; [done|]. cbn [escaped flat_map]. fold (escaped q). by rewrite escape_high, IH. Qed.

Lemma parse_string_escaped fuel : ∀ s rest, utf8_valid fuel s = true →
  parse_string (escaped s ++ x22 :: rest) = Some (s, rest).
Proof.
  induction fuel as [|fuel IH]; intros s rest H; destruct s as [|c s]; try done. cbn [utf8_valid] in H.
  destruct (Z.ltb_spec (byte_val c) 128) as [Hlow|Hhigh].
  - cbn [escaped flat_map]. rewrite <-app_assoc, parse_escape_low by done. fold (escaped s). by rewrite IH.
  - destruct (utf8_seq (c :: s)) as [n|] eqn:E; [|done].
    destruct (utf8_seq_split _ _ E) as (q & r & Hqr & Hlen & Hq & _ & Hparse). rewrite Hqr in H |- *.
    rewrite <-Hlen, drop_app_length in H. rewrite escaped_app, (escaped_high q) by done.
    by rewrite <-app_assoc, Hparse, IH.
Qed.

(** ** Reading back a tree *)
Definition delimited l : Prop := match l with [] => True | c :: _ => c ∈ [x2c; x5d; x7d] end.

Lemma separated_cons t texts : separated (t :: texts) = t ++ flat_map (λ t, x2c :: t) texts.
Proof. done. Qed.

(** Reads as: with any fuel that is enough for the text. *)
Definition prints_as (depth : nat) (t : list byte) (v : json) : Prop := ∀ fuel rest, delimited rest →
  (2 * length (t ++ rest) + 1 <= fuel)%nat → parse_value fuel depth (t ++ rest) = Some (v, rest).

Lemma delimited_head rest : delimited rest →
  rest = [] ∨ ∃ c r, rest = c :: r ∧ is_digit c = false ∧ c ≠ x2e ∧ c ∉ [x65; x45] ∧ is_ws c = false.
Proof.
  destruct rest as [|c r]; [by left|]. intros H. right. exists c, r. split; [done|]. cbn in H.
  rewrite !elem_of_cons, elem_of_nil in H. destruct H as [-> | [-> | [-> | []]]]; split_and!; try done; by apply (bool_decide_unpack _).
Qed.

Section Numbers.
Context (rest : list byte) (Hrest : delimited rest).

Lemma take_digits_delimited : take_digits rest = ([], rest).
Proof. destruct (delimited_head _ Hrest) as [-> | (c & r & -> & Hc & _)]; cbn; [done|by rewrite Hc]. Qed.

Lemma take_digits_app l : ∀ d r, take_digits l = (d, r) → take_digits (l ++ rest) = (d, r ++ rest).
Proof.
  induction l as [|c l IH]; intros d r H; cbn in *.
  - simplify_eq. apply take_digits_delimited.
  - destruct (is_digit c); [|by simplify_eq]. destruct (take_digits l) as [d' r'] eqn:E. rewrite (IH d' r') by done. by simplify_eq.
Qed.

Lemma parse_exponent_app l d r : parse_exponent l = Some (d, r) → parse_exponent (l ++ rest) = Some (d, r ++ rest).
Proof.
  destruct l as [|e l].
  - intros [= <- <-]. destruct (delimited_head _ Hrest) as [-> | (c & r & -> & _ & _ & Hc & _)]; [done|].
    cbn [app parse_exponent]. by rewrite bool_decide_eq_false_2.
  - cbn [app parse_exponent]. case_bool_decide; [|by intros [= <- <-]].
    destruct l as [|s l]; [done|]. cbn [app]. destruct (bool_decide (s ∈ [x2b; x2d])).
    + destruct (take_digits l) as [ds r'] eqn:E. rewrite (take_digits_app _ _ _ E). case_bool_decide; [done|]. by intros [= <- <-].
    + change (s :: l ++ rest) with ((s :: l) ++ rest).
      destruct (take_digits (s :: l)) as [ds r'] eqn:E. rewrite (take_digits_app _ _ _ E). case_bool_decide; [done|]. by intros [= <- <-].
Qed.

Lemma parse_fraction_app l d r : parse_fraction l = Some (d, r) → parse_fraction (l ++ rest) = Some (d, r ++ rest).
Proof.
  destruct l as [|e l].
  - intros [= <- <-]. destruct (delimited_head _ Hrest) as [-> | (c & r & -> & _ & Hc & _)]; [done|].
    cbn [app parse_fraction]. by rewrite decide_False.
  - cbn [app parse_fraction]. case_decide; [|by intros [= <- <-]].
    destruct (take_digits l) as [ds r'] eqn:E. rewrite (take_digits_app _ _ _ E). case_bool_decide; [done|]. by intros [= <- <-].
Qed.

(** The integer part of a number. *)
Definition parse_integer l : option (list byte * list byte) :=
  match l with
  | z :: l2 => if decide (z = x30) then Some ([z], l2)
               else let '(ds, r) := take_digits l in if bool_decide (ds = []) then None else Some (ds, r)
  | [] => None
  end.

Lemma parse_integer_app l d r : parse_integer l = Some (d, r) → parse_integer (l ++ rest) = Some (d, r ++ rest).
Proof.
  destruct l as [|z l]; [done|]. cbn [app parse_integer]. case_decide; [by intros [= <- <-]|].
  change (z :: l ++ rest) with ((z :: l) ++ rest).
  destruct (take_digits (z :: l)) as [ds r'] eqn:E. rewrite (take_digits_app _ _ _ E). case_bool_decide; [done|]. by intros [= <- <-].
Qed.

Lemma parse_number_split l : parse_number l =
  let '(sign, l1) := match l with s :: l1 => if decide (s = x2d) then ([s], l1) else ([], l) | [] => ([], []) end in
  '(int, l2) ← parse_integer l1; '(frac, l3) ← parse_fraction l2; '(exp, l4) ← parse_exponent l3;
  Some (sign ++ int ++ frac ++ exp, l4).
Proof. done. Qed.

Lemma parse_number_app l d r : parse_number l = Some (d, r) → parse_number (l ++ rest) = Some (d, r ++ rest).
Proof.
  rewrite !parse_number_split. destruct l as [|s l]; [done|]. cbn [app].
  assert (∀ sign l1, ('(int, l2) ← parse_integer l1; '(frac, l3) ← parse_fraction l2; '(exp, l4) ← parse_exponent l3;
     Some (sign ++ int ++ frac ++ exp, l4)) = Some (d, r) →
    ('(int, l2) ← parse_integer (l1 ++ rest); '(frac, l3) ← parse_fraction l2; '(exp, l4) ← parse_exponent l3;
     Some (sign ++ int ++ frac ++ exp, l4)) = Some (d, r ++ rest)) as Hgen.
  { intros sign l1 H. apply bind_Some in H as ([int l2] & Hi & H). apply bind_Some in H as ([frac l3] & Hf & H).
    apply bind_Some in H as ([exp l4] & He & [= <- <-]).
    rewrite (parse_integer_app _ _ _ Hi). cbn. rewrite (parse_fraction_app _ _ _ Hf). cbn. by rewrite (parse_exponent_app _ _ _ He). }
  case_decide; apply Hgen.
Qed.
End Numbers.

Lemma parse_number_head raw : parse_number raw = Some (raw, []) → ∃ c r, raw = c :: r ∧ (c = x2d ∨ is_digit c = true).
Proof.
  destruct raw as [|c r]; [done|]. intros H. exists c, r. split; [done|]. rewrite parse_number_split in H.
  case_decide; [by left|]. right. apply bind_Some in H as ([int l2] & Hi & _). cbn [parse_integer] in Hi.
  case_decide; [by subst|]. cbn [take_digits] in Hi. by destruct (is_digit c).
Qed.

Lemma parse_value_number fuel depth raw rest : number_token raw = true → delimited rest →
  parse_value (S fuel) depth (raw ++ rest) = Some (JNumber raw, rest).
Proof.
  intros Hraw%bool_decide_eq_true Hrest. destruct (parse_number_head _ Hraw) as (c & r & -> & Hc).
  pose proof (parse_number_app rest Hrest _ _ _ Hraw) as Hp. cbn [app] in Hp |- *. cbn [parse_value].
  destruct Hc as [-> | Hc].
  - cbn [skip_ws]. change (is_ws x2d) with false. cbn iota. rewrite !decide_False by done. cbn [has_prefix bytes_of_string]. rewrite Hp. done.
  - destruct c; try discriminate Hc; cbn [skip_ws]; (match goal with |- context [is_ws ?b] => change (is_ws b) with false end);
      cbn iota; rewrite !decide_False by done; rewrite Hp; done.
Qed.

Section JsonInd.
Context (P : json → Prop).
Context (Hleaf : ∀ v, match v with JArray _ | JObject _ => False | _ => True end → P v).
Context (Harr : ∀ vs, Forall P vs → P (JArray vs)).
Context (Hobj : ∀ ms, Forall (λ m, P m.2) ms → P (JObject ms)).

Fixpoint json_ind' (v : json) : P v :=
  match v with
  | JArray vs => Harr vs ((fix go (l : list json) : Forall P l :=
      match l with [] => Forall_nil_2 _ | x :: l => Forall_cons_2 _ _ _ (json_ind' x) (go l) end) vs)
  | JObject ms => Hobj ms ((fix go (l : list (list byte * json)) : Forall (λ m, P m.2) l :=
      match l with [] => Forall_nil_2 _ | x :: l => Forall_cons_2 _ _ _ (json_ind' x.2) (go l) end) ms)
  | v => Hleaf v I
  end.
End JsonInd.

Lemma print_head depth v : json_ok depth v = true → ∃ c r, print v = c :: r ∧ is_ws c = false ∧ c ≠ x5d ∧ c ≠ x7d.
Proof.
  destruct v as [|b|raw|s|vs|ms]; intros H; cbn [print quote].
  - by eexists _, _.
  - destruct b; by eexists _, _.
  - cbn [json_ok] in H. apply bool_decide_eq_true, parse_number_head in H as (c & r & -> & Hc). exists c, r.
    destruct Hc as [-> | Hc]; [done|]. split; [done|]. destruct c; by try discriminate Hc.
  - by eexists _, _.
  - by eexists _, _.
  - by eexists _, _.
Qed.

Lemma print_pos depth v : json_ok depth v = true → (0 < length (print v))%nat.
Proof. intros (c & r & -> & _)%print_head. cbn. lia. Qed.

Lemma delimited_comma l : delimited (x2c :: l).
Proof. cbn. by left. Qed.
Lemma delimited_bracket l : delimited (x5d :: l).
Proof. cbn. right. by left. Qed.
Lemma delimited_brace l : delimited (x7d :: l).
Proof. cbn. right. right. by left. Qed.

Lemma parse_elements_print depth rest vs : Forall (λ v, json_ok depth v = true ∧ prints_as depth (print v) v) vs → vs ≠ [] →
  ∀ acc fuel, (2 * length (separated (print <$> vs) ++ x5d :: rest) + 2 <= fuel)%nat →
  parse_elements fuel depth acc (separated (print <$> vs) ++ x5d :: rest) = Some (JArray (acc ++ vs), rest).
Proof.
  induction 1 as [|v vs [Hok Hv] Hvs IH]; [done|]. intros _ acc [|fuel] Hfuel; [lia|].
  pose proof (print_pos _ _ Hok) as Hpos. rewrite fmap_cons, separated_cons, <-app_assoc in *.
  cbn [parse_elements]. destruct vs as [|w vs].
  - cbn [fmap list_fmap flat_map app] in *. rewrite Hv by (apply delimited_bracket || lia). done.
  - change (flat_map (λ t, x2c :: t) (print <$> w :: vs) ++ x5d :: rest)
      with (x2c :: (separated (print <$> w :: vs) ++ x5d :: rest)) in *.
    rewrite Hv by (apply delimited_comma || lia). cbn [mbind option_bind skip_ws].
    change (is_ws x2c) with false. cbn iota. rewrite decide_True by done. rewrite IH; [by rewrite <-app_assoc|done|].
    rewrite length_app in Hfuel. cbn [length] in Hfuel. lia.
Qed.

Definition print_member (m : list byte * json) : list byte := quote m.1 ++ x3a :: print m.2.

Lemma parse_member_print fuel depth acc (m : list byte * json) sep rest : valid_utf8 m.1 = true → prints_as depth (print m.2) m.2 →
  m.1 ∉ acc.*1 → sep ∈ [x2c; x7d] → (2 * length (print_member m ++ sep :: rest) + 2 <= S fuel)%nat →
  parse_members (S fuel) depth acc (print_member m ++ sep :: rest) =
  if decide (sep = x2c) then parse_members fuel depth (acc ++ [m]) rest else Some (JObject (acc ++ [m]), rest).
Proof.
  destruct m as [k v]. cbn [fst snd]. intros Hk Hv Hfresh Hsep Hfuel. unfold print_member, quote in *. cbn [fst snd] in *.
  rewrite <-!app_comm_cons, <-!app_assoc in *. cbn [app] in *. cbn [parse_members skip_ws].
  change (is_ws x22) with false. cbn iota. rewrite bool_decide_eq_true_2 by done. cbn [negb].
  rewrite (parse_string_escaped _ _ _ Hk). cbn [mbind option_bind]. rewrite bool_decide_eq_false_2 by done. cbn [skip_ws].
  change (is_ws x3a) with false. cbn iota. rewrite bool_decide_eq_true_2 by done. cbn [negb].
  rewrite Hv; [| |cbn [length] in Hfuel; rewrite length_app in Hfuel; cbn [length] in Hfuel; lia].
  2: { rewrite !elem_of_cons, elem_of_nil in Hsep. destruct Hsep as [-> | [-> | []]]; [apply delimited_comma|apply delimited_brace]. }
  cbn [mbind option_bind skip_ws]. rewrite !elem_of_cons, elem_of_nil in Hsep. by destruct Hsep as [-> | [-> | []]].
Qed.

Lemma parse_members_print depth rest ms : Forall (λ m, valid_utf8 m.1 = true ∧ prints_as depth (print m.2) m.2) ms → ms ≠ [] →
  ∀ acc fuel, NoDup (acc.*1 ++ ms.*1) → (2 * length (separated (print_member <$> ms) ++ x7d :: rest) + 2 <= fuel)%nat →
  parse_members fuel depth acc (separated (print_member <$> ms) ++ x7d :: rest) = Some (JObject (acc ++ ms), rest).
Proof.
  induction 1 as [|m ms [Hok Hv] Hvs IH]; [done|]. intros _ acc [|fuel] Hnd Hfuel; [lia|].
  assert (m.1 ∉ acc.*1) as Hfresh.
  { rewrite fmap_cons in Hnd. apply NoDup_app in Hnd as (_ & Hd & _). intros Hin. apply (Hd _ Hin). by left. }
  rewrite fmap_cons, separated_cons, <-app_assoc in *. destruct ms as [|w ms].
  - cbn [fmap list_fmap flat_map app] in *. rewrite parse_member_print; try done. right. by left.
  - change (flat_map (λ t, x2c :: t) (print_member <$> w :: ms) ++ x7d :: rest)
      with (x2c :: (separated (print_member <$> w :: ms) ++ x7d :: rest)) in *.
    rewrite parse_member_print; try done; [|by left]. rewrite decide_True by done. rewrite IH; [by rewrite <-app_assoc|done| |].
    + rewrite fmap_app, <-app_assoc. done.
    + rewrite length_app in Hfuel. cbn [length] in Hfuel. lia.
Qed.

Lemma prints_as_open depth t v : (∀ fuel rest, delimited rest → (2 * length (t ++ rest) <= fuel)%nat →
  parse_value (S fuel) depth (t ++ rest) = Some (v, rest)) → prints_as depth t v.
Proof. intros H [|fuel] rest Hrest Hfuel; [lia|]. apply H; [done|lia]. Qed.

Lemma print_array depth vs : Forall (λ v, json_ok depth v = true ∧ prints_as depth (print v) v) vs →
  prints_as (S depth) (print (JArray vs)) (JArray vs).
Proof.
  intros Hvs. apply prints_as_open. intros fuel rest Hrest Hfuel. cbn [print] in *. rewrite <-app_comm_cons, <-app_assoc in *. cbn [app] in *.
  cbn [parse_value skip_ws]. change (is_ws x5b) with false. cbn iota. rewrite decide_False, decide_True by done.
  destruct vs as [|v vs]; [done|]. pose proof (Forall_inv Hvs) as [Hok _].
  destruct (print_head _ _ Hok) as (c & r & Hc & Hws & Hne & _).
  assert (separated (print <$> v :: vs) ++ x5d :: rest = c :: (r ++ flat_map (λ t, x2c :: t) (print <$> vs) ++ x5d :: rest)) as E
    by (rewrite fmap_cons, separated_cons, Hc, <-app_assoc; done).
  rewrite E. cbn [skip_ws]. rewrite Hws. rewrite decide_False by done. rewrite <-E. apply parse_elements_print; try done.
  cbn [length] in Hfuel. lia.
Qed.

(** An object is delimited by itself, so anything may follow it. *)
Lemma parse_object_print depth ms fuel rest : Forall (λ m, valid_utf8 m.1 = true ∧ prints_as depth (print m.2) m.2) ms → NoDup ms.*1 →
  (2 * length (print (JObject ms) ++ rest) <= fuel)%nat →
  parse_value (S fuel) (S depth) (print (JObject ms) ++ rest) = Some (JObject ms, rest).
Proof.
  intros Hms Hnd Hfuel. cbn [print] in *. rewrite <-app_comm_cons, <-app_assoc in *. cbn [app] in *.
  cbn [parse_value skip_ws]. change (is_ws x7b) with false. cbn iota. rewrite decide_True by done.
  fold print_member in *. destruct ms as [|m ms]; [done|].
  assert (separated (print_member <$> m :: ms) ++ x7d :: rest =
    x22 :: ((escaped m.1 ++ [x22]) ++ x3a :: print m.2) ++ flat_map (λ t, x2c :: t) (print_member <$> ms) ++ x7d :: rest) as E
    by (rewrite fmap_cons, separated_cons, <-app_assoc; done).
  change (λ m, quote m.1 ++ x3a :: print m.2) with print_member in *.
  rewrite E. cbn [skip_ws]. change (is_ws x22) with false. cbn iota. rewrite decide_False by done. rewrite <-E.
  apply (parse_members_print depth rest (m :: ms)); try done. cbn [length] in Hfuel. lia.
Qed.

Lemma print_object depth ms : Forall (λ m, valid_utf8 m.1 = true ∧ prints_as depth (print m.2) m.2) ms → NoDup ms.*1 →
  prints_as (S depth) (print (JObject ms)) (JObject ms).
Proof. intros Hms Hnd. apply prints_as_open. intros fuel rest _ Hfuel. by apply parse_object_print. Qed.

Lemma print_value v : ∀ depth, json_ok depth v = true → prints_as depth (print v) v.
Proof.
  induction v as [v Hv|vs IH|ms IH] using json_ind'; intros depth Hok.
  - apply prints_as_open. intros fuel rest Hrest Hfuel. destruct v as [|b|raw|s| |]; try done.
    + by destruct b.
    + by apply parse_value_number.
    + cbn [print]. unfold quote. rewrite <-app_comm_cons, <-app_assoc. cbn [parse_value skip_ws app].
      change (is_ws x22) with false. cbn iota. rewrite !decide_False by done. rewrite decide_True by done.
      by rewrite (parse_string_escaped _ _ _ Hok).
  - cbn [json_ok] in Hok. destruct depth as [|depth]; [done|]. apply print_array.
    rewrite forallb_forall in Hok. rewrite Forall_forall in IH |- *. intros v Hv.
    assert (json_ok depth v = true) by (by apply Hok, list_elem_of_In). split; [done|]. by apply IH.
  - cbn [json_ok] in Hok. destruct depth as [|depth]; [done|]. apply andb_true_iff in Hok as [Hnd%bool_decide_eq_true Hok].
    apply print_object; [|done].
    rewrite forallb_forall in Hok. rewrite Forall_forall in IH |- *. intros m Hm.
    assert (valid_utf8 m.1 && json_ok depth m.2 = true) as [? ?]%andb_true_iff by (by apply Hok, list_elem_of_In).
    split; [done|]. by apply IH.
Qed.

(** A marshalled tree is read back. *)
Lemma parse_print v t : Marshal v = Some t → Json.parse t = Some v.
Proof.
  unfold Marshal. destruct (json_ok max_depth v) eqn:Hok; [|done]. intros [= <-]. unfold Json.parse.
  pose proof (print_value v max_depth Hok (2 * length (print v) + 2)%nat [] I) as H. rewrite app_nil_r in H.
  rewrite H by lia. done.
Qed.

(** So is the text of an object that ends with a newline, as an encoder writes it. *)
Lemma parse_print_line ms t : Marshal (JObject ms) = Some t → Json.parse (t ++ [x0a]) = Some (JObject ms).
Proof.
  unfold Marshal. destruct (json_ok max_depth (JObject ms)) eqn:Hok; [|done]. intros H. assert (t = print (JObject ms)) as -> by congruence.
  clear H. unfold Json.parse. assert (∃ d, max_depth = S d) as [d Hd]; [by exists (Z.to_nat 9999)|]. rewrite Hd in *. cbn [json_ok] in Hok.
  apply andb_true_iff in Hok as [Hnd%bool_decide_eq_true Hok].
  replace (2 * length (print (JObject ms) ++ [x0a]) + 2)%nat with (S (2 * length (print (JObject ms) ++ [x0a]) + 1)) by lia.
  rewrite parse_object_print; [done| |done|lia].
  rewrite forallb_forall in Hok. apply Forall_forall. intros m Hm.
  assert (valid_utf8 m.1 && json_ok d m.2 = true) as [? ?]%andb_true_iff by (by apply Hok, list_elem_of_In).
  split; [done|]. by apply print_value.
Qed.

(** The bytes of the strings of a tree fit into its text. *)
Fixpoint text_size (v : json) : nat :=
  match v with
  | JNull | JBool _ | JNumber _ => 0
  | JString s => length s
  | JArray vs => list_sum (text_size <$> vs)
  | JObject ms => list_sum ((λ m, length m.1 + text_size m.2) <$> ms)
  end%nat.

Lemma length_escaped l : (length l <= length (escaped l))%nat.
Proof.
  induction l as [|c l IH]; [done|]. cbn [escaped flat_map]. fold (escaped l). rewrite length_app.
  assert (1 <= length (escape c))%nat by (unfold escape; repeat case_decide; repeat case_match; cbn; lia). cbn. lia.
Qed.
Lemma length_separated texts : (list_sum (length <$> texts) <= length (separated texts))%nat.
Proof.
  destruct texts as [|t texts]; [done|]. rewrite fmap_cons, separated_cons, length_app. cbn [list_sum foldr].
  enough (list_sum (length <$> texts) <= length (flat_map (λ t, x2c :: t) texts))%nat as H by (unfold list_sum in H; lia).
  induction texts as [|u texts IH]; [done|]. cbn. rewrite length_app. unfold list_sum in *. cbn in *. lia.
Qed.

Lemma list_sum_le {A} (f g : A → nat) (l : list A) : Forall (λ x, f x <= g x)%nat l → (list_sum (f <$> l) <= list_sum (g <$> l))%nat.
Proof. induction 1 as [|x l Hx _ IH]; [done|]. cbn in *. unfold list_sum in *. lia. Qed.

Lemma text_size_print v : (text_size v <= length (print v))%nat.
Proof.
  induction v as [v Hv|vs IH|ms IH] using json_ind'.
  - destruct v; cbn [text_size print]; try lia; try done. unfold quote. cbn. rewrite length_app. pose proof (length_escaped s). lia.
  - cbn [text_size print length]. rewrite length_app. pose proof (length_separated (print <$> vs)) as Hs.
    rewrite <-list_fmap_compose in Hs. pose proof (list_sum_le text_size (length ∘ print) vs IH). unfold compose in *. lia.
  - cbn [text_size print length]. rewrite length_app. change (λ m, quote m.1 ++ x3a :: print m.2) with print_member.
    pose proof (length_separated (print_member <$> ms)) as Hs. rewrite <-list_fmap_compose in Hs.
    pose proof (list_sum_le (λ m, length m.1 + text_size m.2)%nat (length ∘ print_member) ms) as H. unfold compose in *.
    enough (list_sum ((λ m, length m.1 + text_size m.2) <$> ms) <= list_sum ((λ m, length (print_member m)) <$> ms))%nat by lia.
    apply H. eapply Forall_impl; [exact IH|]. intros [k v] Hv. unfold print_member, quote. cbn [fst snd length app] in *.
    rewrite !length_app. cbn [length]. pose proof (length_escaped k). lia.
Qed.
End Printing.

#[export] Instance plain_text : EscapeMode := false.

Example print_vectors :
  print (JObject [([x61], JArray [JNull; JNumber [x31]]); ([x62; x22; x01], JString [x0a; xc3; xa9])])
  = bytes_of_string (string_of_bytes [x7b]) ++ quote [x61] ++ bytes_of_string ":[null,1]," ++ quote [x62; x22; x01] ++ [x3a; x22; x5c; x6e; xc3; xa9; x22; x7d]
  ∧ quote [x62; x22; x01] = [x22; x62; x5c; x22; x5c; x75; x30; x30; x30; x31; x22].
Proof. by vm_compute. Qed.

(** ** Objects of Go structs

    A struct is marshalled member by member; a member with [omitzero] or
    [omitempty] may be left out. *)
Definition members_of_fields (fs : list (string * option json)) : list (list byte * json) :=
  omap (λ f, (λ v, (bytes_of_string f.1, v)) <$> f.2) fs.
Definition object (fs : list (string * option json)) : json := JObject (members_of_fields fs).

Definition jstring (s : string) : json := JString (bytes_of_string s).
Definition jint (z : Z) : json := JNumber (itoa z).
Definition jlist {A} (f : A → json) (l : list A) : json := JArray (f <$> l).

(** [omitempty] and [omitzero] *)
Definition omit_string (s : string) : option json := if bool_decide (s = "") then None else Some (jstring s).
Definition omit_false (b : bool) : option json := if b then Some (JBool true) else None.
Definition omit_list {A} (f : A → json) (l : list A) : option json :=
  match l with [] => None | _ => Some (jlist f l) end.

(** ** Decoding into Go types

    The argument is the member, if present; absent and null members leave the
    zero value. *)
Definition get (ms : list (list byte * json)) (name : string) : option json := member (bytes_of_string name) ms.

Definition um_bool (v : option json) : result bool :=
  match v with None | Some JNull => Ok false | Some (JBool b) => Ok b | Some _ => Err errUnmarshal end.

(** An integer type with values from [lo] to [hi]: a fraction or an exponent is
    refused, a sign too if the type has none. *)
Definition um_int (lo hi : Z) (v : option json) : result Z :=
  match v with
  | None | Some JNull => Ok 0
  | Some (JNumber raw) =>
      let '(neg, ds) := match raw with c :: ds => if bool_decide (c = x2d) && (lo <? 0) then (true, ds) else (false, raw) | [] => (false, raw) end in
      let z := if neg : bool then - digits_val ds else digits_val ds in
      _ ← fail_if (negb (forallb is_digit ds) || (z <? lo) || (hi <? z)) errUnmarshal;
      Ok z
  | Some _ => Err errUnmarshal
  end.
Definition um_int64 : option json → result Z := um_int (- 2 ^ 63) (2 ^ 63 - 1).
Definition um_uint64 : option json → result Z := um_int 0 (2 ^ 64 - 1).
Definition um_uint32 : option json → result Z := um_int 0 (2 ^ 32 - 1).

Definition um_list {A} (f : option json → result A) (v : option json) : result (list A) :=
  match v with
  | None | Some JNull => Ok []
  | Some (JArray vs) => map_res (λ x, f (Some x)) vs
  | Some _ => Err errUnmarshal
  end.

Definition um_ptr {A} (f : option json → result A) (v : option json) : result (option A) :=
  match v with None | Some JNull => Ok None | Some _ => x ← f v; Ok (Some x) end.

(** The members of a struct; [strict] refuses those it does not have. *)
Definition um_struct (strict : bool) (names : list string) (v : option json) : result (list (list byte * json)) :=
  match v with
  | None | Some JNull => Ok []
  | Some (JObject ms) =>
      _ ← fail_if (strict && negb (forallb (λ m, bool_decide (string_of_bytes m.1 ∈ names)) ms)) errUnmarshal;
      Ok ms
  | Some _ => Err errUnmarshal
  end.

(** ** Decoding what was marshalled *)
Lemma um_string_jstring s : unmarshal_string (Some (jstring s)) = Ok s.
Proof. cbn. by rewrite string_of_bytes_of_string. Qed.
Lemma um_string_omit s : unmarshal_string (omit_string s) = Ok s.
Proof. unfold omit_string. case_bool_decide; [by subst|apply um_string_jstring]. Qed.
Lemma um_bool_omit b : um_bool (omit_false b) = Ok b.
Proof. by destruct b. Qed.

Lemma um_int_jint lo hi z : lo <= z <= hi → - 10 ^ 19 < z < 10 ^ 20 → um_int lo hi (Some (jint z)) = Ok z.
Proof.
  intros Hb Hz. unfold um_int, jint, itoa.
  destruct (Z.ltb_spec z 0) as [Hneg|Hpos].
  - rewrite bool_decide_eq_true_2, (proj2 (Z.ltb_lt lo 0)) by (done || lia). cbn [andb].
    destruct (nat_digits_spec 20 (- z) []) as (ds & -> & _ & Hds & Hv); [lia|lia|]. rewrite app_nil_r in *.
    rewrite (proj2 (forallb_forall _ _)) by (intros x Hx%list_elem_of_In; rewrite Forall_forall in Hds; by apply Hds).
    rewrite Hv, (proj2 (Z.ltb_ge _ _)), (proj2 (Z.ltb_ge _ _)) by lia. cbn. f_equal. lia.
  - destruct (nat_digits_spec 20 z []) as (ds & -> & Hne & Hds & Hv); [lia|lia|]. rewrite app_nil_r in *.
    destruct ds as [|c ds]; [done|]. pose proof (Forall_inv Hds) as Hc. cbn in Hc.
    rewrite bool_decide_eq_false_2 by (intros ->; discriminate Hc). cbn [andb].
    rewrite (proj2 (forallb_forall _ _)) by (intros x Hx%list_elem_of_In; rewrite Forall_forall in Hds; by apply Hds).
    rewrite Hv, (proj2 (Z.ltb_ge _ _)), (proj2 (Z.ltb_ge _ _)) by lia. done.
Qed.

Lemma um_list_jlist {A} (f : option json → result A) g (xs : list A) : Forall (λ x, f (Some (g x)) = Ok x) xs →
  um_list f (Some (jlist g xs)) = Ok xs.
Proof. intros H. cbn. apply map_res_Ok. induction H; constructor; done. Qed.
Lemma um_list_omit {A} (f : option json → result A) g (xs : list A) : Forall (λ x, f (Some (g x)) = Ok x) xs →
  um_list f (omit_list g xs) = Ok xs.
Proof. destruct xs as [|x xs]; [done|]. apply um_list_jlist. Qed.

Lemma get_fields fs name o : NoDup fs.*1 → (name, o) ∈ fs → get (members_of_fields fs) name = o.
Proof.
  unfold get. induction fs as [|[k v] fs IH]; intros Hnd Hin; [by apply not_elem_of_nil in Hin|].
  apply NoDup_cons in Hnd as [Hk Hnd]. apply elem_of_cons in Hin as [[= <- <-]|Hin]; unfold members_of_fields; cbn.
  - destruct o as [v|]; cbn; [by rewrite decide_True|]. change (omap _ fs) with (members_of_fields fs).
    clear -Hk. induction fs as [|[k v] fs IH]; [done|]. cbn in Hk. apply not_elem_of_cons in Hk as [Hne Hk].
    unfold members_of_fields. cbn. destruct v; cbn; [|by apply IH]. rewrite decide_False by (intros ?%bytes_of_string_inj; done). by apply IH.
  - assert (k ≠ name) as Hne by (intros ->; apply Hk, list_elem_of_fmap; by exists (name, o)).
    destruct v; cbn; [|by apply IH]. rewrite decide_False by (intros ?%bytes_of_string_inj; done). by apply IH.
Qed.

Lemma um_struct_object strict names fs : fs.*1 ⊆ names → um_struct strict names (Some (object fs)) = Ok (members_of_fields fs).
Proof.
  intros Hsub. cbn. rewrite (proj2 (forallb_forall _ _)); [by rewrite andb_false_r|].
  intros [k v] Hin%list_elem_of_In. apply bool_decide_eq_true. unfold members_of_fields in Hin.
  apply list_elem_of_omap in Hin as ([k' v'] & Hin & Heq). cbn in Heq. destruct v' as [w|]; [|done]. injection Heq as <- <-. fold (bytes_of_string k').
  change (string_of_bytes (bytes_of_string k') ∈ names). rewrite string_of_bytes_of_string. apply Hsub, list_elem_of_fmap. by exists (k', Some w).
Qed.

(** ** Floating-point numbers and maps *)
(** A double [m * 2^e] with an odd significand of at most 53 bits, or zero. *)
Definition double (f : float) : bool :=
  match f with
  | FFinite m e => if m =? 0 then e =? 0 else Z.odd m && (Z.abs m <? 2 ^ 53) && (-1074 <=? e) && (e <=? 971)
  | _ => false
  end.

(** The text of a finite number is a JSON number that reads back as it. *)
Class FloatText : Type := {
  format_float : float → list byte;
  parse_float : list byte → option float;
  parse_format : ∀ f, double f = true → parse_float (format_float f) = Some f;
}.

Section FloatsAndMaps.
Context {Floats : FloatText}.

Definition json_float (f : float) : json := JNumber (if double f then format_float f else []).
Definition um_float (v : option json) : result float :=
  match v with
  | None | Some JNull => Ok (FFinite 0 0)
  | Some (JNumber raw) => of_option errUnmarshal (parse_float raw)
  | Some _ => Err errUnmarshal
  end.

(** [map[string]T] *)
Definition json_map {A} (f : A → json) (l : list (string * A)) : json := JObject ((λ e, (bytes_of_string e.1, f e.2)) <$> l).
Definition um_map {A} (f : option json → result A) (v : option json) : result (list (string * A)) :=
  match v with
  | None | Some JNull => Ok []
  | Some (JObject ms) => map_res (λ m, x ← f (Some m.2); Ok (string_of_bytes m.1, x)) ms
  | Some _ => Err errUnmarshal
  end.

Lemma um_ptr_Some {A} (f : option json → result A) v x : v ≠ JNull → f (Some v) = Ok x → um_ptr f (Some v) = Ok (Some x).
Proof. intros Hv Hf. unfold um_ptr. rewrite Hf. by destruct v. Qed.

Lemma um_map_json {A} (f : option json → result A) g (l : list (string * A)) :
  Forall (λ e, f (Some (g e.2)) = Ok e.2) l → um_map f (Some (json_map g l)) = Ok l.
Proof.
  intros H. cbn. apply map_res_Ok. induction H as [|[k x] l Hx _ IH]; constructor; [|done].
  cbn [fst snd] in *. rewrite Hx. run. by rewrite string_of_bytes_of_string.
Qed.

Lemma um_float_json f : double f = true → um_float (Some (json_float f)) = Ok f.
Proof. intros Hf. cbn. by rewrite Hf, parse_format. Qed.
End FloatsAndMaps.
