(* ===== verification/Storage.v ===== *)
(** * The JSON storage adapter

    Models [src/storage/json/json.go]: the envelope and the stored forms of a
    registration state, an authentication state and a credential record, from
    the Go values down to the bytes.  [Section Dto] has the stored structs with
    what [encoding/json/v2] makes of their tags; [Section Adapter] the six
    entry points.  A nil and an empty slice or map are not distinguished.  The
    raw text of the record's type is kept as its value tree. *)
From S2P Require Import Prelude Base64 GoStrings Json AuthData ClientData Origin ExtValue Types Extension ExtHandlers Attestation Cbor Ceremony ExtVerify State Registration Authentication StoreValue GoTime JsonText.
Set Default Goal Selector "!".
Local Open Scope Z_scope.

Module Storage.
Import StoreValue.
Definition EnvelopeVersion : Z := 1.
Definition ErrUnsupportedVersion : error := Sentinel "storagejson.ErrUnsupportedVersion".
Definition MaxStoredPublicKeyBytes : Z := MaxCredentialPublicKeyBytes.
Definition kindRegistrationState : string := "registration-state".
Definition kindAuthenticationState : string := "authentication-state".
Definition kindCredentialRecord : string := "credential-record".

(** ** Stored structs *)
Record originPolicyDTO := mkOriginPolicyDTO {
  op_AllowedOrigins : list string;
  op_AllowedTopOrigins : list string;
  op_AllowCrossOriginWithoutTopOrigin : bool;
  op_AllowRelatedOrigins : bool;
}.

Record extensionBindingDTO := mkBindingDTO { eb_ID : string; eb_Revision : string }.

Record registrationStateDTO := mkRegistrationStateDTO {
  rd_Challenge : string;
  rd_RPID : string;
  rd_OriginPolicy : originPolicyDTO;
  rd_ConditionalMediation : bool;
  rd_UserHandle : string;
  rd_RequestedUserVerification : string;
  rd_RequestedExtensions : list (string * encodedValue);
  rd_ExtensionBindings : list extensionBindingDTO;
  rd_AllowedAlgorithms : list Z;
  rd_Attestation : string;
  rd_ExpiresAt : string;
}.

Record credentialDescriptorDTO := mkDescriptorDTO { dd_Type : string; dd_ID : string; dd_Transports : list string }.

Record authenticationStateDTO := mkAuthenticationStateDTO {
  ad_Challenge : string;
  ad_RPID : string;
  ad_OriginPolicy : originPolicyDTO;
  ad_RequestedUserVerification : string;
  ad_RequestedExtensions : list (string * encodedValue);
  ad_ExtensionBindings : list extensionBindingDTO;
  ad_AllowCredentials : list credentialDescriptorDTO;
  ad_ExpectedUserHandle : string;
  ad_ExpiresAt : string;
}.

Record credentialRecordDTO := mkCredentialRecordDTO {
  cd_Type : option json;
  cd_ID : string;
  cd_PublicKeyCOSE : string;
  cd_UserHandle : string;
  cd_RPID : string;
  cd_AAGUID : string;
  cd_SignCount : Z;
  cd_Transports : list string;
  cd_BackupEligible : bool;
  cd_BackupState : bool;
  cd_UVInitialized : bool;
  cd_AuthenticatorAttachment : string;
  cd_AttestationType : string;
}.

Record envelope := mkEnvelope {
  en_Version : Z;
  en_Kind : string;
  en_RegistrationState : option registrationStateDTO;
  en_AuthenticationState : option authenticationStateDTO;
  en_CredentialRecord : option credentialRecordDTO;
}.

(** ** Their JSON: [json.Marshal] by the tags of the fields, and [json.Unmarshal]
    with unknown members refused *)
Section Dto.
Context {Floats : FloatText}.

Definition json_strings (l : list string) : json := jlist jstring l.
Definition um_strings : option json → result (list string) := um_list unmarshal_string.

Fixpoint json_encodedValue (v : encodedValue) : json :=
  let 'mkEncoded type b s bytes int uint fl array obj := v in
  object
    [("type", Some (jstring type)); ("bool", JBool <$> b); ("string", jstring <$> s); ("bytes", jstring <$> bytes);
     ("int", jint <$> int); ("uint", jint <$> uint); ("float", json_float <$> fl);
     ("array", match array with Some l => Some (JArray (json_encodedValue <$> l)) | None => None end);
     ("object", match obj with Some l => Some (JObject ((λ e, (bytes_of_string e.1, json_encodedValue e.2)) <$> l)) | None => None end)].

Definition encodedValue_names : list string :=
  ["type"; "bool"; "string"; "bytes"; "int"; "uint"; "float"; "array"; "object"].

(** A text has at most 10000 levels, so this fuel does not run out. *)
Definition value_fuel : nat := S max_depth.
Fixpoint um_encodedValue (fuel : nat) (v : option json) : result encodedValue :=
  match fuel with
  | O => Err errUnmarshal
  | S fuel =>
      ms ← um_struct true encodedValue_names v;
      type ← unmarshal_string (get ms "type");
      b ← um_ptr um_bool (get ms "bool");
      s ← um_ptr unmarshal_string (get ms "string");
      bytes ← um_ptr unmarshal_string (get ms "bytes");
      int ← um_ptr um_int64 (get ms "int");
      uint ← um_ptr um_uint64 (get ms "uint");
      fl ← um_ptr um_float (get ms "float");
      array ← um_ptr (um_list (um_encodedValue fuel)) (get ms "array");
      obj ← um_ptr (um_map (um_encodedValue fuel)) (get ms "object");
      Ok (mkEncoded type b s bytes int uint fl array obj)
  end.

Definition json_extensions (l : list (string * encodedValue)) : option json :=
  match l with [] => None | _ => Some (json_map json_encodedValue l) end.
Definition um_extensions : option json → result (list (string * encodedValue)) := um_map (um_encodedValue value_fuel).

Definition json_originPolicy (p : originPolicyDTO) : json :=
  object [("allowedOrigins", Some (json_strings (op_AllowedOrigins p)));
          ("allowedTopOrigins", omit_list jstring (op_AllowedTopOrigins p));
          ("allowCrossOriginWithoutTopOrigin", omit_false (op_AllowCrossOriginWithoutTopOrigin p));
          ("allowRelatedOrigins", omit_false (op_AllowRelatedOrigins p))].
Definition um_originPolicy (v : option json) : result originPolicyDTO :=
  ms ← um_struct true ["allowedOrigins"; "allowedTopOrigins"; "allowCrossOriginWithoutTopOrigin"; "allowRelatedOrigins"] v;
  origins ← um_strings (get ms "allowedOrigins");
  top ← um_strings (get ms "allowedTopOrigins");
  cross ← um_bool (get ms "allowCrossOriginWithoutTopOrigin");
  related ← um_bool (get ms "allowRelatedOrigins");
  Ok (mkOriginPolicyDTO origins top cross related).

Definition json_binding (b : extensionBindingDTO) : json :=
  object [("id", Some (jstring (eb_ID b))); ("revision", Some (jstring (eb_Revision b)))].
Definition um_binding (v : option json) : result extensionBindingDTO :=
  ms ← um_struct true ["id"; "revision"] v;
  id ← unmarshal_string (get ms "id");
  revision ← unmarshal_string (get ms "revision");
  Ok (mkBindingDTO id revision).

Definition json_registrationState (d : registrationStateDTO) : json :=
  object [("challenge", Some (jstring (rd_Challenge d))); ("rpId", Some (jstring (rd_RPID d)));
          ("originPolicy", Some (json_originPolicy (rd_OriginPolicy d)));
          ("conditionalMediation", omit_false (rd_ConditionalMediation d));
          ("userHandle", Some (jstring (rd_UserHandle d)));
          ("requestedUserVerification", Some (jstring (rd_RequestedUserVerification d)));
          ("requestedExtensions", json_extensions (rd_RequestedExtensions d));
          ("extensionBindings", omit_list json_binding (rd_ExtensionBindings d));
          ("allowedAlgorithms", Some (jlist jint (rd_AllowedAlgorithms d)));
          ("attestation", Some (jstring (rd_Attestation d))); ("expiresAt", Some (jstring (rd_ExpiresAt d)))].
Definition registrationState_names : list string :=
  ["challenge"; "rpId"; "originPolicy"; "conditionalMediation"; "userHandle"; "requestedUserVerification";
   "requestedExtensions"; "extensionBindings"; "allowedAlgorithms"; "attestation"; "expiresAt"].
Definition um_registrationState (v : option json) : result registrationStateDTO :=
  ms ← um_struct true registrationState_names v;
  challenge ← unmarshal_string (get ms "challenge");
  rpId ← unmarshal_string (get ms "rpId");
  policy ← um_originPolicy (get ms "originPolicy");
  conditional ← um_bool (get ms "conditionalMediation");
  userHandle ← unmarshal_string (get ms "userHandle");
  verification ← unmarshal_string (get ms "requestedUserVerification");
  extensions ← um_extensions (get ms "requestedExtensions");
  bindings ← um_list um_binding (get ms "extensionBindings");
  algorithms ← um_list um_int64 (get ms "allowedAlgorithms");
  attestation ← unmarshal_string (get ms "attestation");
  expiresAt ← unmarshal_string (get ms "expiresAt");
  Ok (mkRegistrationStateDTO challenge rpId policy conditional userHandle verification extensions bindings algorithms
        attestation expiresAt).

Definition json_descriptor (d : credentialDescriptorDTO) : json :=
  object [("type", Some (jstring (dd_Type d))); ("id", Some (jstring (dd_ID d))); ("transports", omit_list jstring (dd_Transports d))].
Definition um_descriptor (v : option json) : result credentialDescriptorDTO :=
  ms ← um_struct true ["type"; "id"; "transports"] v;
  type ← unmarshal_string (get ms "type");
  id ← unmarshal_string (get ms "id");
  transports ← um_strings (get ms "transports");
  Ok (mkDescriptorDTO type id transports).

Definition json_authenticationState (d : authenticationStateDTO) : json :=
  object [("challenge", Some (jstring (ad_Challenge d))); ("rpId", Some (jstring (ad_RPID d)));
          ("originPolicy", Some (json_originPolicy (ad_OriginPolicy d)));
          ("requestedUserVerification", Some (jstring (ad_RequestedUserVerification d)));
          ("requestedExtensions", json_extensions (ad_RequestedExtensions d));
          ("extensionBindings", omit_list json_binding (ad_ExtensionBindings d));
          ("allowCredentials", omit_list json_descriptor (ad_AllowCredentials d));
          ("expectedUserHandle", omit_string (ad_ExpectedUserHandle d)); ("expiresAt", Some (jstring (ad_ExpiresAt d)))].
Definition authenticationState_names : list string :=
  ["challenge"; "rpId"; "originPolicy"; "requestedUserVerification"; "requestedExtensions"; "extensionBindings";
   "allowCredentials"; "expectedUserHandle"; "expiresAt"].
Definition um_authenticationState (v : option json) : result authenticationStateDTO :=
  ms ← um_struct true authenticationState_names v;
  challenge ← unmarshal_string (get ms "challenge");
  rpId ← unmarshal_string (get ms "rpId");
  policy ← um_originPolicy (get ms "originPolicy");
  verification ← unmarshal_string (get ms "requestedUserVerification");
  extensions ← um_extensions (get ms "requestedExtensions");
  bindings ← um_list um_binding (get ms "extensionBindings");
  allow ← um_list um_descriptor (get ms "allowCredentials");
  userHandle ← unmarshal_string (get ms "expectedUserHandle");
  expiresAt ← unmarshal_string (get ms "expiresAt");
  Ok (mkAuthenticationStateDTO challenge rpId policy verification extensions bindings allow userHandle expiresAt).

(** A raw member with [omitempty]. *)
Definition omit_raw (v : option json) : option json :=
  match v with Some JNull | Some (JString []) | Some (JArray []) | Some (JObject []) => None | _ => v end.

Definition json_credentialRecord (d : credentialRecordDTO) : json :=
  object [("type", omit_raw (cd_Type d)); ("id", Some (jstring (cd_ID d)));
          ("publicKeyCose", Some (jstring (cd_PublicKeyCOSE d))); ("userHandle", Some (jstring (cd_UserHandle d)));
          ("rpId", Some (jstring (cd_RPID d))); ("aaguid", Some (jstring (cd_AAGUID d)));
          ("signCount", Some (jint (cd_SignCount d))); ("transports", omit_list jstring (cd_Transports d));
          ("backupEligible", Some (JBool (cd_BackupEligible d))); ("backupState", Some (JBool (cd_BackupState d)));
          ("uvInitialized", Some (JBool (cd_UVInitialized d)));
          ("authenticatorAttachment", omit_string (cd_AuthenticatorAttachment d));
          ("attestationType", Some (jstring (cd_AttestationType d)))].
Definition credentialRecord_names : list string :=
  ["type"; "id"; "publicKeyCose"; "userHandle"; "rpId"; "aaguid"; "signCount"; "transports"; "backupEligible";
   "backupState"; "uvInitialized"; "authenticatorAttachment"; "attestationType"].
Definition um_credentialRecord (v : option json) : result credentialRecordDTO :=
  ms ← um_struct true credentialRecord_names v;
  id ← unmarshal_string (get ms "id");
  publicKey ← unmarshal_string (get ms "publicKeyCose");
  userHandle ← unmarshal_string (get ms "userHandle");
  rpId ← unmarshal_string (get ms "rpId");
  aaguid ← unmarshal_string (get ms "aaguid");
  signCount ← um_uint32 (get ms "signCount");
  transports ← um_strings (get ms "transports");
  eligible ← um_bool (get ms "backupEligible");
  backup ← um_bool (get ms "backupState");
  uv ← um_bool (get ms "uvInitialized");
  attachment ← unmarshal_string (get ms "authenticatorAttachment");
  attestationType ← unmarshal_string (get ms "attestationType");
  Ok (mkCredentialRecordDTO (get ms "type") id publicKey userHandle rpId aaguid signCount transports eligible backup uv
        attachment attestationType).

Definition json_envelope (e : envelope) : json :=
  object [("version", Some (jint (en_Version e))); ("kind", Some (jstring (en_Kind e)));
          ("registrationState", json_registrationState <$> en_RegistrationState e);
          ("authenticationState", json_authenticationState <$> en_AuthenticationState e);
          ("credentialRecord", json_credentialRecord <$> en_CredentialRecord e)].
Definition envelope_names : list string := ["version"; "kind"; "registrationState"; "authenticationState"; "credentialRecord"].
Definition um_envelope (v : option json) : result envelope :=
  ms ← um_struct true envelope_names v;
  version ← um_int64 (get ms "version");
  kind ← unmarshal_string (get ms "kind");
  registration ← um_ptr um_registrationState (get ms "registrationState");
  authentication ← um_ptr um_authenticationState (get ms "authenticationState");
  record ← um_ptr um_credentialRecord (get ms "credentialRecord");
  Ok (mkEnvelope version kind registration authentication record).
End Dto.

(** ** Bytes and times *)
Definition encodeBytes (raw : list byte) : string := EncodeToString raw.

(** A [max] of zero is no bound. *)
Definition decodeBytes (field : string) (encoded : string) (min max : Z) : result (list byte) :=
  match DecodeString encoded with
  | Some raw =>
      _ ← fail_if (negb (bool_decide (EncodeToString raw = encoded)) || (Z.of_nat (length raw) <? min)
                   || ((0 <? max) && (max <? Z.of_nat (length raw)))) (malformed field);
      Ok raw
  | None => Err (malformed field)
  end.

Definition formatTime (t : Z) : string := string_of_bytes (Format t).
Definition parseTime (encoded : string) : result Z :=
  match Parse (bytes_of_string encoded) with
  | Some t =>
      _ ← fail_if (IsZero t || negb (bool_decide (formatTime t = encoded))) (malformed "expiresAt");
      Ok t
  | None => Err (malformed "expiresAt")
  end.

Definition decodeChallenge (encoded : string) : result Challenge :=
  raw ← decodeBytes "challenge" encoded MinChallengeLength 0;
  wrap_err ErrInvalidEnvelope (NewChallenge (Some raw)).

Definition decodeUserHandle (field : string) (encoded : string) (required : bool) : result UserHandle :=
  if bool_decide (encoded = "") && negb required then Ok (mkByteValue None)
  else
    raw ← decodeBytes field encoded 1 MaxUserHandleLength;
    wrap_err ErrInvalidEnvelope (NewUserHandle (Some raw)).

(** ** Conversions *)
Definition transportsToStrings (transports : list string) : list string := transports.
Definition stringsToTransports (transports : list string) : list string := transports.

Definition extensionBindingsToDTO (bindings : list Binding) : list extensionBindingDTO :=
  (λ b, mkBindingDTO (b_ID b) (b_Revision b)) <$> bindings.
Definition extensionBindingsFromDTO (bindings : list extensionBindingDTO) : list Binding :=
  (λ b, mkBinding (eb_ID b) (eb_Revision b)) <$> bindings.

Definition originPolicyToDTO (p : OriginPolicy) : originPolicyDTO :=
  mkOriginPolicyDTO (AllowedOrigins p) (AllowedTopOrigins p) (AllowCrossOriginWithoutTopOrigin p) (AllowRelatedOrigins p).
Definition originPolicyFromDTO (p : originPolicyDTO) : OriginPolicy :=
  mkOriginPolicy (op_AllowedOrigins p) (op_AllowedTopOrigins p) (op_AllowCrossOriginWithoutTopOrigin p) (op_AllowRelatedOrigins p).

Definition descriptorsToDTO (descriptors : list CredentialDescriptor) : list credentialDescriptorDTO :=
  (λ d, mkDescriptorDTO (cdr_Type d) (encodeBytes (slice_list (bv_bytes (cdr_ID d)))) (transportsToStrings (cdr_Transports d)))
    <$> descriptors.

Definition descriptorFromDTO (d : credentialDescriptorDTO) : result CredentialDescriptor :=
  idBytes ← decodeBytes "allowCredentials.id" (dd_ID d) 1 MaxCredentialIDLength;
  id ← wrap_err ErrInvalidEnvelope (NewCredentialID (Some idBytes));
  let out := mkDescriptor (dd_Type d) id (stringsToTransports (dd_Transports d)) in
  _ ← wrap_err ErrInvalidEnvelope (CredentialDescriptor_Validate out);
  Ok out.
Definition descriptorsFromDTO (descriptors : list credentialDescriptorDTO) : result (list CredentialDescriptor) :=
  map_res descriptorFromDTO descriptors.

Definition credentialRecordType (raw : option json) : result string :=
  match raw with
  | None => Err (malformed "credential type is required")
  | Some _ =>
      match unmarshal_string raw with
      | Ok value => _ ← fail_if (bool_decide (value = "")) (malformed "credential type"); Ok value
      | Err _ => Err (malformed "credential type")
      end
  end.

(** ** The envelope and the entry points *)
Section Adapter.
Context {Floats : FloatText} {Ord : MapOrder} {Custom : CustomTypes}.

Definition validateRegistrationState (state : RegistrationState) : result () :=
  wrap_err ErrInvalidEnvelope (RegistrationState_Validate state).
Definition validateAuthenticationState (state : AuthenticationState) : result () :=
  wrap_err ErrInvalidEnvelope (AuthenticationState_Validate state).
Definition validateCredentialRecord (record : CredentialRecord) : result () :=
  wrap_err ErrInvalidEnvelope (CredentialRecord_Validate record).

(** An error of [json.Marshal]; its text is not observed. *)
Definition errMarshal : error := ErrorNew "json: cannot marshal".

Definition marshalEnvelope (value : envelope) : result (list byte) :=
  encoded ← wrap_err ErrInvalidEnvelope (of_option errMarshal (Marshal (json_envelope value)));
  _ ← fail_if (MaxEnvelopeBytes <? Z.of_nat (length encoded)) (malformed "envelope too large");
  Ok encoded.

Definition unmarshalEnvelope (data : list byte) (expectedKind : string) : result envelope :=
  _ ← fail_if (bool_decide (data = []) || (MaxEnvelopeBytes <? Z.of_nat (length data))) (malformed "envelope size");
  value ← wrap_err ErrInvalidEnvelope (tree ← of_option errUnmarshal (Json.parse data); um_envelope (Some tree));
  _ ← fail_if (negb (en_Version value =? EnvelopeVersion))
        (ErrorText ErrUnsupportedVersion (string_of_bytes (itoa (en_Version value))));
  _ ← fail_if (negb (bool_decide (en_Kind value = expectedKind))) (malformed "envelope kind");
  let present := [is_set (en_RegistrationState value); is_set (en_AuthenticationState value); is_set (en_CredentialRecord value)] in
  let payloads := foldr (λ b n, if b : bool then S n else n) 0%nat present in
  _ ← fail_if (negb (payloads =? 1)%nat
               || (bool_decide (expectedKind = kindRegistrationState) && negb (is_set (en_RegistrationState value)))
               || (bool_decide (expectedKind = kindAuthenticationState) && negb (is_set (en_AuthenticationState value)))
               || (bool_decide (expectedKind = kindCredentialRecord) && negb (is_set (en_CredentialRecord value))))
        (malformed "envelope payload");
  Ok value.

Definition MarshalRegistrationState (state : RegistrationState) : result (list byte) :=
  _ ← validateRegistrationState state;
  extensions ← encodeExtensionValues (rs_RequestedExtensions state);
  let payload :=
    {| rd_Challenge := encodeBytes (slice_list (bv_bytes (rs_Challenge state)));
       rd_RPID := rs_RPID state;
       rd_OriginPolicy := originPolicyToDTO (rs_OriginPolicy state);
       rd_ConditionalMediation := rs_ConditionalMediation state;
       rd_UserHandle := encodeBytes (slice_list (bv_bytes (rs_UserHandle state)));
       rd_RequestedUserVerification := rs_RequestedUserVerification state;
       rd_RequestedExtensions := extensions;
       rd_ExtensionBindings := extensionBindingsToDTO (rs_ExtensionBindings state);
       rd_AllowedAlgorithms := rs_AllowedAlgorithms state;
       rd_Attestation := rs_Attestation state;
       rd_ExpiresAt := formatTime (rs_ExpiresAt state) |} in
  marshalEnvelope (mkEnvelope EnvelopeVersion kindRegistrationState (Some payload) None None).

Definition UnmarshalRegistrationState (data : list byte) : result RegistrationState :=
  envelope ← unmarshalEnvelope data kindRegistrationState;
  payload ← of_option NilDereference (en_RegistrationState envelope);
  challenge ← decodeChallenge (rd_Challenge payload);
  userHandle ← decodeUserHandle "userHandle" (rd_UserHandle payload) true;
  expiresAt ← parseTime (rd_ExpiresAt payload);
  extensions ← decodeExtensionValues (rd_RequestedExtensions payload);
  let state :=
    {| rs_Challenge := challenge;
       rs_RPID := rd_RPID payload;
       rs_OriginPolicy := originPolicyFromDTO (rd_OriginPolicy payload);
       rs_ConditionalMediation := rd_ConditionalMediation payload;
       rs_UserHandle := userHandle;
       rs_RequestedUserVerification := rd_RequestedUserVerification payload;
       rs_RequestedExtensions := extensions;
       rs_ExtensionBindings := extensionBindingsFromDTO (rd_ExtensionBindings payload);
       rs_AllowedAlgorithms := rd_AllowedAlgorithms payload;
       rs_Attestation := rd_Attestation payload;
       rs_ExpiresAt := expiresAt |} in
  _ ← validateRegistrationState state;
  Ok state.

Definition MarshalAuthenticationState (state : AuthenticationState) : result (list byte) :=
  _ ← validateAuthenticationState state;
  extensions ← encodeExtensionValues (as_RequestedExtensions state);
  let payload :=
    {| ad_Challenge := encodeBytes (slice_list (bv_bytes (as_Challenge state)));
       ad_RPID := as_RPID state;
       ad_OriginPolicy := originPolicyToDTO (as_OriginPolicy state);
       ad_RequestedUserVerification := as_RequestedUserVerification state;
       ad_RequestedExtensions := extensions;
       ad_ExtensionBindings := extensionBindingsToDTO (as_ExtensionBindings state);
       ad_AllowCredentials := descriptorsToDTO (as_AllowCredentials state);
       ad_ExpectedUserHandle :=
         if negb (bv_len (as_ExpectedUserHandle state) =? 0)
         then encodeBytes (slice_list (bv_bytes (as_ExpectedUserHandle state))) else "";
       ad_ExpiresAt := formatTime (as_ExpiresAt state) |} in
  marshalEnvelope (mkEnvelope EnvelopeVersion kindAuthenticationState None (Some payload) None).

Definition UnmarshalAuthenticationState (data : list byte) : result AuthenticationState :=
  envelope ← unmarshalEnvelope data kindAuthenticationState;
  payload ← of_option NilDereference (en_AuthenticationState envelope);
  challenge ← decodeChallenge (ad_Challenge payload);
  expectedUserHandle ← decodeUserHandle "expectedUserHandle" (ad_ExpectedUserHandle payload) false;
  expiresAt ← parseTime (ad_ExpiresAt payload);
  extensions ← decodeExtensionValues (ad_RequestedExtensions payload);
  descriptors ← descriptorsFromDTO (ad_AllowCredentials payload);
  let state :=
    {| as_Challenge := challenge;
       as_RPID := ad_RPID payload;
       as_OriginPolicy := originPolicyFromDTO (ad_OriginPolicy payload);
       as_RequestedUserVerification := ad_RequestedUserVerification payload;
       as_RequestedExtensions := extensions;
       as_ExtensionBindings := extensionBindingsFromDTO (ad_ExtensionBindings payload);
       as_AllowCredentials := descriptors;
       as_ExpectedUserHandle := expectedUserHandle;
       as_ExpiresAt := expiresAt |} in
  _ ← validateAuthenticationState state;
  Ok state.

Definition MarshalCredentialRecord (record : CredentialRecord) : result (list byte) :=
  _ ← validateCredentialRecord record;
  _ ← fail_if (negb (json_ok max_depth (jstring (cr_Type record)))) (malformed "credential type");
  let payload :=
    {| cd_Type := Some (jstring (cr_Type record));
       cd_ID := encodeBytes (slice_list (bv_bytes (cr_ID record)));
       cd_PublicKeyCOSE := encodeBytes (Types.Raw (cr_PublicKey record));
       cd_UserHandle := encodeBytes (slice_list (bv_bytes (cr_UserHandle record)));
       cd_RPID := cr_RPID record;
       cd_AAGUID := encodeBytes (cr_AAGUID record);
       cd_SignCount := cr_SignCount record;
       cd_Transports := transportsToStrings (cr_Transports record);
       cd_BackupEligible := cr_BackupEligible record;
       cd_BackupState := cr_BackupState record;
       cd_UVInitialized := cr_UVInitialized record;
       cd_AuthenticatorAttachment := cr_AuthenticatorAttachment record;
       cd_AttestationType := cr_AttestationType record |} in
  marshalEnvelope (mkEnvelope EnvelopeVersion kindCredentialRecord None None (Some payload)).

Definition UnmarshalCredentialRecord (data : list byte) (decoder : COSEKeyDecoder) : result CredentialRecord :=
  _ ← fail_if (IsNil decoder) (malformed "credential key decoder is required");
  envelope ← unmarshalEnvelope data kindCredentialRecord;
  payload ← of_option NilDereference (en_CredentialRecord envelope);
  credentialType ← credentialRecordType (cd_Type payload);
  idBytes ← decodeBytes "id" (cd_ID payload) 1 MaxCredentialIDLength;
  id ← wrap_err ErrInvalidEnvelope (NewCredentialID (Some idBytes));
  userHandle ← decodeUserHandle "userHandle" (cd_UserHandle payload) true;
  publicKeyBytes ← decodeBytes "publicKeyCose" (cd_PublicKeyCOSE payload) 1 MaxStoredPublicKeyBytes;
  decode ← match decoder with Iface decode => Ok decode | _ => Err NilDereference end;
  publicKey ← match decode publicKeyBytes with
    | Ok key =>
        _ ← fail_if (negb (bool_decide (Types.Raw key = publicKeyBytes))) (malformed "invalid credential public key");
        Ok key
    | Err _ => Err (malformed "invalid credential public key")
    end;
  aaguid ← decodeBytes "aaguid" (cd_AAGUID payload) AAGUIDLength AAGUIDLength;
  let record :=
    {| cr_Type := credentialType;
       cr_ID := id;
       cr_PublicKey := publicKey;
       cr_UserHandle := userHandle;
       cr_RPID := cd_RPID payload;
       cr_AAGUID := aaguid;
       cr_SignCount := cd_SignCount payload;
       cr_Transports := stringsToTransports (cd_Transports payload);
       cr_BackupEligible := cd_BackupEligible payload;
       cr_BackupState := cd_BackupState payload;
       cr_UVInitialized := cd_UVInitialized payload;
       cr_AuthenticatorAttachment := cd_AuthenticatorAttachment payload;
       cr_AttestationType := cd_AttestationType payload |} in
  _ ← validateCredentialRecord record;
  Ok record.
End Adapter.
End Storage.

(** ** The stored structs are read back *)

(** The members of a marshalled struct, one by one. *)
Ltac nodup_names := apply (bool_decide_unpack _); vm_compute; exact I.
Ltac find_field := repeat first [apply list_elem_of_here | apply list_elem_of_further].
Ltac read_fields :=
  rewrite um_struct_object by (intros ? ?; assumption); run;
  repeat match goal with |- context [get (members_of_fields ?fs) ?n] =>
    let E := fresh in
    eassert (get (members_of_fields fs) n = _) as E by (apply get_fields; [nodup_names | find_field]);
    rewrite E; clear E
  end.

Section DtoLemmas.
Context {Floats : FloatText}.
Import StoreValue Storage.

Lemma um_strings_json l : um_strings (Some (json_strings l)) = Ok l.
Proof. apply um_list_jlist, Forall_true. intros s. apply um_string_jstring. Qed.
Lemma um_strings_omit l : um_strings (omit_list jstring l) = Ok l.
Proof. apply um_list_omit, Forall_true. intros s. apply um_string_jstring. Qed.

Lemma um_originPolicy_json p : um_originPolicy (Some (json_originPolicy p)) = Ok p.
Proof.
  unfold um_originPolicy, json_originPolicy. read_fields. rewrite um_strings_json, um_strings_omit, !um_bool_omit. run. by destruct p.
Qed.

Lemma um_binding_json b : um_binding (Some (json_binding b)) = Ok b.
Proof. unfold um_binding, json_binding. read_fields. rewrite !um_string_jstring. run. by destruct b. Qed.
Lemma um_bindings_omit l : um_list um_binding (omit_list json_binding l) = Ok l.
Proof. apply um_list_omit, Forall_true, um_binding_json. Qed.

Lemma um_descriptor_json d : um_descriptor (Some (json_descriptor d)) = Ok d.
Proof. unfold um_descriptor, json_descriptor. read_fields. rewrite !um_string_jstring, um_strings_omit. run. by destruct d. Qed.
Lemma um_descriptors_omit l : um_list um_descriptor (omit_list json_descriptor l) = Ok l.
Proof. apply um_list_omit, Forall_true, um_descriptor_json. Qed.

(** Extensions whose members survive. *)
Definition extensions_readable (l : list (string * encodedValue)) : Prop := um_extensions (json_extensions l) = Ok l.

Lemma um_registrationState_json d : extensions_readable (rd_RequestedExtensions d) →
  Forall (λ a, - 2 ^ 63 <= a < 2 ^ 63) (rd_AllowedAlgorithms d) →
  um_registrationState (Some (json_registrationState d)) = Ok d.
Proof.
  intros He Ha. unfold um_registrationState, json_registrationState. read_fields.
  rewrite !um_string_jstring, um_originPolicy_json, um_bool_omit, um_bindings_omit. run. unfold extensions_readable in He. rewrite He. run.
  rewrite um_list_jlist by (eapply Forall_impl; [exact Ha|]; intros a Hb; cbn beta in Hb; apply um_int_jint; lia). run. by destruct d.
Qed.

Lemma um_authenticationState_json d : extensions_readable (ad_RequestedExtensions d) →
  um_authenticationState (Some (json_authenticationState d)) = Ok d.
Proof.
  intros He. unfold um_authenticationState, json_authenticationState. read_fields.
  rewrite !um_string_jstring, um_originPolicy_json, um_bindings_omit, um_descriptors_omit, um_string_omit. run.
  unfold extensions_readable in He. rewrite He. run. by destruct d.
Qed.

Lemma um_credentialRecord_json d : omit_raw (cd_Type d) = cd_Type d → 0 <= cd_SignCount d < 2 ^ 32 →
  um_credentialRecord (Some (json_credentialRecord d)) = Ok d.
Proof.
  intros Ht Hc. unfold um_credentialRecord, json_credentialRecord. read_fields.
  rewrite !um_string_jstring, um_strings_omit, um_string_omit, Ht. unfold um_uint32. rewrite um_int_jint by lia. run. by destruct d.
Qed.
End DtoLemmas.

(** ** Extension values in JSON *)

(** Integers and floats of the width of their Go types. *)
Fixpoint representable (v : value) : bool :=
  match v with
  | VInt kind z => if bool_decide (kind = "int64") then (- 2 ^ 63 <=? z) && (z <? 2 ^ 63) else (0 <=? z) && (z <? 2 ^ 64)
  | VFloat _ f => double f
  | VSeq _ items => forallb representable items
  | VMap _ entries => forallb (λ e, representable e.2) entries
  | _ => true
  end.

Section ValueJson.
Context {Floats : FloatText}.
Import StoreValue Storage.

(** One present member besides the type. *)
Ltac read_value := unfold encodedNull, encodedBool, encodedString, encodedBytes, encodedInt, encodedUint, encodedFloat, encodedArray, encodedObject;
  cbn [json_encodedValue um_encodedValue fmap option_fmap option_map]; read_fields; rewrite um_string_jstring; run.

Lemma um_encodedValue_json w : ∀ fuel d, 33 <= Z.of_nat fuel + d → d + value_depth w <= 32 →
  plain_data w = true → representable w = true → um_encodedValue fuel (Some (json_encodedValue (encoded w))) = Ok (encoded w).
Proof.
  induction w as [v Hv|p v IH|ty items IH|ty es IH] using value_ind'; intros fuel d Hfuel Hd Hp Hr; [|done| |].
  - destruct fuel as [|fuel]; [exfalso; pose proof (value_size_nonneg v); lia|].
    destruct v as [|b|s|kind z|kind f|b| | | | | | | | | | | | | | | | | | |]; try done; cbn [encoded].
    + read_value. rewrite (um_ptr_Some _ _ s) by (done || apply um_string_jstring). done.
    + cbn in Hr. case_bool_decide; apply andb_true_iff in Hr as [Hlo%Z.leb_le Hhi%Z.ltb_lt]; read_value;
        rewrite (um_ptr_Some _ _ z) by (done || apply um_int_jint; lia); done.
    + cbn in Hr. read_value. rewrite (um_ptr_Some _ _ f); [done|done|].
      by apply um_float_json.
    + read_value. rewrite (um_ptr_Some _ _ (EncodeToString (slice_list b))) by (done || apply um_string_jstring). done.
  - apply depth_items in Hd as [Hd0 Hd]. destruct fuel as [|fuel]; [lia|]. cbn [encoded]. read_value.
    cbn in Hp, Hr. apply andb_true_iff in Hp as [_ Hp%plain_items]. rewrite forallb_forall in Hr.
    rewrite (um_ptr_Some _ _ (encoded <$> items)); [done|done|].
    apply um_list_jlist, Forall_fmap, Forall_forall. intros x Hx. rewrite Forall_forall in IH, Hp, Hd.
    apply (IH x Hx fuel (d + 1)); [lia|by apply Hd|by apply Hp|by apply Hr, list_elem_of_In].
  - apply depth_entries in Hd as [Hd0 Hd]. destruct fuel as [|fuel]; [lia|]. cbn [encoded]. read_value.
    cbn in Hp, Hr. apply andb_true_iff in Hp as [_ Hp%plain_entries]. rewrite forallb_forall in Hr.
    rewrite (um_ptr_Some _ _ ((λ e, (default "" (key_text e.1), encoded e.2)) <$> es)); [done|done|].
    apply um_map_json, Forall_fmap, Forall_forall. intros x Hx. rewrite Forall_forall in IH, Hp, Hd.
    apply (IH x Hx fuel (d + 1)); [lia|by apply Hd|by apply Hp|by apply (Hr x), list_elem_of_In].
Qed.

(** The texts of the values fit into the JSON text. *)
Lemma list_sum_member {A} (f : A → nat) (l : list A) x : x ∈ l → (f x <= list_sum (f <$> l))%nat.
Proof. induction 1 as [x l|x y l _ IH]; cbn in *; unfold list_sum in *; lia. Qed.

Lemma text_size_member fs name v : (name, Some v) ∈ fs → (text_size v <= text_size (object fs))%nat.
Proof.
  intros Hin. cbn [object text_size].
  assert ((bytes_of_string name, v) ∈ members_of_fields fs) as Hm by (apply list_elem_of_omap; by exists (name, Some v)).
  apply (list_sum_member (λ m, length m.1 + text_size m.2)%nat) in Hm. cbn in Hm. lia.
Qed.

Lemma text_value w : plain_data w = true → text_bytes w <= Z.of_nat (text_size (json_encodedValue (encoded w))).
Proof.
  induction w as [v Hv|p v IH|ty items IH|ty es IH] using value_ind'; intros Hp; [|done| |].
  - destruct v as [|b|s|kind z|kind f|b| | | | | | | | | | | | | | | | | | |]; try done; cbn [text_bytes encoded]; try lia.
    + unfold string_len. rewrite <-length_bytes_of_string. apply Nat2Z.inj_le.
      apply (text_size_member _ "string" (jstring s)). unfold encodedString; cbn [json_encodedValue]. find_field.
    + unfold string_len. rewrite <-length_bytes_of_string. apply Nat2Z.inj_le.
      apply (text_size_member _ "bytes" (jstring (EncodeToString (slice_list b)))). unfold encodedBytes; cbn [json_encodedValue]. find_field.
  - cbn in Hp. apply andb_true_iff in Hp as [_ Hp%plain_items]. cbn [encoded text_bytes].
    transitivity (Z.of_nat (text_size (JArray (json_encodedValue <$> (encoded <$> items))))).
    + cbn [text_size]. clear ty. induction IH as [|x items Hx _ IHi]; [done|]. apply Forall_cons in Hp as [Hpx Hp].
      specialize (Hx Hpx). specialize (IHi Hp). cbn in *. unfold list_sum in *. lia.
    + apply Nat2Z.inj_le, (text_size_member _ "array"). unfold encodedArray; cbn [json_encodedValue]. find_field.
  - cbn in Hp. apply andb_true_iff in Hp as [_ Hp%plain_entries]. cbn [encoded text_bytes].
    transitivity (Z.of_nat (text_size (JObject ((λ e, (bytes_of_string e.1, json_encodedValue e.2)) <$>
      ((λ e, (default "" (key_text e.1), encoded e.2)) <$> es))))).
    + cbn [text_size]. clear ty. induction IH as [|[k x] es Hx _ IHi]; [done|]. apply Forall_cons in Hp as [[[k' Hk] Hpx] Hp].
      cbn in Hk, Hpx. subst k. specialize (Hx Hpx). specialize (IHi Hp). rewrite !fmap_cons.
      cbn [foldr fst snd key_text mapKeyByteSize default from_option list_sum] in *. unfold string_len. rewrite <-length_bytes_of_string.
      unfold list_sum in *. unfold id in *. cbn [foldr fst snd] in *. lia.
    + apply Nat2Z.inj_le, (text_size_member _ "object"). unfold encodedObject; cbn [json_encodedValue]. find_field.
Qed.

(** *** Maps of inputs *)
Definition plain_input (p : string * value) : Prop := value_depth p.2 <= 32 ∧ plain_data p.2 = true.

Lemma extensions_readable_encoded ws : Forall plain_input ws → Forall (λ p, representable p.2 = true) ws →
  extensions_readable (encoded_input <$> ws).
Proof.
  intros Hp Hr. unfold extensions_readable, json_extensions. destruct ws as [|w ws]; [done|].
  apply um_map_json, Forall_fmap. rewrite Forall_forall in *. intros x Hx. destruct (Hp x Hx) as [Hd Hpd].
  apply (um_encodedValue_json x.2 value_fuel 0); [|done|done|by apply Hr].
  unfold value_fuel, max_depth. lia.
Qed.

Lemma extensions_text ws tree : Forall plain_input ws → json_extensions (encoded_input <$> ws) = Some tree →
  total stored_entry_text (encoded_input <$> ws) <= Z.of_nat (text_size tree).
Proof.
  intros Hp Ht. rewrite <-total_stored_text by done.
  assert (tree = json_map json_encodedValue (encoded_input <$> ws)) as -> by (unfold json_extensions in Ht; destruct ws; by simplify_eq/=).
  clear Ht. cbn [json_map text_size]. induction Hp as [|[k w] ws [_ Hw] _ IH]; [done|].
  rewrite total_cons, !fmap_cons. unfold input_text at 1. cbn [fst snd encoded_input] in *. pose proof (text_value w Hw).
  unfold list_sum in *. cbn [foldr fst snd] in *. unfold string_len. rewrite <-length_bytes_of_string. lia.
Qed.
End ValueJson.

(** ** Entry points *)
Section AdapterLemmas.
Context {Floats : FloatText} {Ord : MapOrder} {Custom : CustomTypes}.
Import StoreValue Storage.

Lemma decodeBytes_encode field raw min max : min <= Z.of_nat (length raw) → (0 < max → Z.of_nat (length raw) <= max) →
  decodeBytes field (encodeBytes raw) min max = Ok raw.
Proof.
  intros Hmin Hmax. unfold decodeBytes, encodeBytes. rewrite decode_encode, bool_decide_eq_true_2 by done. cbn [negb orb].
  rewrite (proj2 (Z.ltb_ge _ min)) by lia. cbn [orb].
  destruct (Z.ltb_spec 0 max) as [H|H]; [rewrite (proj2 (Z.ltb_ge max _)) by (by apply Hmax)|]; done.
Qed.

(** Byte values that their constructors returned. *)
Lemma decodeChallenge_encode c : NewChallenge (bv_value c) = Ok c →
  decodeChallenge (encodeBytes (slice_list (bv_bytes c))) = Ok c.
Proof.
  intros Hc. pose proof Hc as H. unfold NewChallenge in H. apply newByteValue_Ok in H as (_ & Hmin & _). unfold slice_len in Hmin.
  unfold decodeChallenge, bv_bytes. rewrite decodeBytes_encode by (done || lia). run.
  destruct c as [[b|]]; [by apply wrap_err_Ok|]. unfold MinChallengeLength in Hmin. cbn in Hmin. lia.
Qed.

Lemma decodeUserHandle_encode field u required : NewUserHandle (bv_value u) = Ok u →
  decodeUserHandle field (encodeBytes (slice_list (bv_bytes u))) required = Ok u.
Proof.
  intros Hc. pose proof Hc as H. unfold NewUserHandle in H. apply newByteValue_Ok in H as (_ & Hmin & Hmax). unfold slice_len in *.
  unfold decodeUserHandle, bv_bytes. rewrite bool_decide_eq_false_2.
  - cbn [andb]. rewrite decodeBytes_encode by (done || lia). run. destruct u as [[b|]]; [by apply wrap_err_Ok|]. cbn in Hmin. lia.
  - intros E%EncodeToString_empty. rewrite E in Hmin. cbn in Hmin. lia.
Qed.

Lemma parseTime_format t : 0 <= year_of t <= 9999 → t ≠ 0 → parseTime (formatTime t) = Ok t.
Proof.
  intros Hy Ht. unfold parseTime, formatTime. rewrite bytes_of_string_of_bytes, Parse_Format by done.
  unfold IsZero. rewrite (proj2 (Z.eqb_neq _ _) Ht), bool_decide_eq_true_2 by done. done.
Qed.

Lemma bindings_roundtrip bs : extensionBindingsFromDTO (extensionBindingsToDTO bs) = bs.
Proof. unfold extensionBindingsFromDTO, extensionBindingsToDTO. rewrite <-list_fmap_compose. induction bs as [|[i r] bs IH]; cbn; [done|]. by f_equal. Qed.
Lemma originPolicy_roundtrip p : originPolicyFromDTO (originPolicyToDTO p) = p.
Proof. by destruct p. Qed.

(** The envelope comes back whole. *)
Lemma envelope_roundtrip e data kind :
  marshalEnvelope e = Ok data → um_envelope (Some (json_envelope e)) = Ok e → en_Version e = 1 → en_Kind e = kind →
  (kind = kindRegistrationState ∧ is_Some (en_RegistrationState e) ∧ en_AuthenticationState e = None ∧ en_CredentialRecord e = None ∨
   kind = kindAuthenticationState ∧ en_RegistrationState e = None ∧ is_Some (en_AuthenticationState e) ∧ en_CredentialRecord e = None ∨
   kind = kindCredentialRecord ∧ en_RegistrationState e = None ∧ en_AuthenticationState e = None ∧ is_Some (en_CredentialRecord e)) →
  unmarshalEnvelope data kind = Ok e ∧ Z.of_nat (text_size (json_envelope e)) <= MaxEnvelopeBytes.
Proof.
  intros Hm Hum Hv Hk Hp. apply bind_Ok in Hm as (t & Ht%wrap_err_Ok%of_option_Ok & Hm).
  apply bind_Ok in Hm as ([] & Hsize%fail_if_Ok & [= <-]). pose proof (parse_print _ _ Ht) as Hparse. split.
  - unfold unmarshalEnvelope. rewrite (bool_decide_eq_false_2 (t = [])) by (intros ->; discriminate Hparse). rewrite Hsize. run.
    rewrite Hparse. cbn [of_option mbind result_bind]. rewrite Hum. run. rewrite Hv, (bool_decide_eq_true_2 (en_Kind e = kind)) by done. run.
    destruct e as [version k r a c]. cbn in *. subst.
    destruct Hp as [(-> & [x ->] & -> & ->)|[(-> & -> & [x ->] & ->)|(-> & -> & -> & [x ->])]]; done.
  - apply Z.ltb_ge in Hsize. unfold Marshal in Ht. destruct (json_ok _ _); [|done]. simplify_eq.
    pose proof (text_size_print (json_envelope e)). lia.
Qed.

Ltac read_envelope e d :=
  unfold um_envelope, json_envelope;
  cbn [e en_Version en_Kind en_RegistrationState en_AuthenticationState en_CredentialRecord fmap option_fmap option_map];
  read_fields; unfold um_int64; rewrite um_int_jint, um_string_jstring by (unfold EnvelopeVersion; lia); run;
  by rewrite (um_ptr_Some _ _ d).

Lemma um_envelope_registration d : um_registrationState (Some (json_registrationState d)) = Ok d →
  let e := mkEnvelope EnvelopeVersion kindRegistrationState (Some d) None None in um_envelope (Some (json_envelope e)) = Ok e.
Proof. intros Hd e. read_envelope e d. Qed.
Lemma um_envelope_authentication d : um_authenticationState (Some (json_authenticationState d)) = Ok d →
  let e := mkEnvelope EnvelopeVersion kindAuthenticationState None (Some d) None in um_envelope (Some (json_envelope e)) = Ok e.
Proof. intros Hd e. read_envelope e d. Qed.
Lemma um_envelope_record d : um_credentialRecord (Some (json_credentialRecord d)) = Ok d →
  let e := mkEnvelope EnvelopeVersion kindCredentialRecord None None (Some d) in um_envelope (Some (json_envelope e)) = Ok e.
Proof. intros Hd e. read_envelope e d. Qed.
End AdapterLemmas.

(** Skips a check that both states share. *)
Ltac same_check H := match type of H with (mbind _ ?r) = Ok _ =>
  let E := fresh in destruct r as [[]|] eqn:E; [|discriminate H]; cbn [mbind result_bind] in H |- * end.

(** ** States after storage *)
Section States.
Context {Floats : FloatText} {Ord : MapOrder} {Custom : CustomTypes}.
Import StoreValue Storage.

(** Every number of the inputs has the width of its Go type. *)
Definition inputs_representable (inputs : ExtensionInputs) : Prop := ∀ id v raw w,
  inputs !! id = Some v → InputValue v = Ok raw → plain raw = Some w → representable w = true.

Lemma extensions_stored inputs out :
  encodeExtensionValues inputs = Ok out → inputs_representable inputs →
  extensions_readable out ∧
  ∀ tree, (json_extensions out = None ∨ ∃ v, json_extensions out = Some v ∧ text_size v <= text_size tree)%nat →
  Z.of_nat (text_size tree) <= MaxEnvelopeBytes →
  ∃ inputs', decodeExtensionValues out = Ok inputs' ∧ restored_inputs inputs inputs'.
Proof.
  intros He Hr. pose proof He as H. apply encodeExtensionValues_Ok in H as (ws & Hws & -> & _ & Hp & _ & _). split.
  - apply extensions_readable_encoded; [done|]. apply Forall_forall. intros [k w] Hin.
    apply (Forall2_right _ _ _ _ Hws) in Hin as ([k' v] & Hv & _ & _ & raw & Hraw & Hplain).
    apply elem_of_range_list in Hv. by eapply Hr.
  - intros tree Htree Hsize. apply inputs_roundtrip; [done|].
    destruct Htree as [Hnone|(v & Hv & Hle)].
    + unfold json_extensions in Hnone. by destruct ws.
    + pose proof (extensions_text ws v Hp Hv). lia.
Qed.

Lemma restored_dom (m m' : ExtensionInputs) : restored_inputs m m' → dom m' = dom m.
Proof.
  intros H. unfold ExtensionInputs in *. apply set_eq. intros id. rewrite !elem_of_dom.
  assert (option_Forall2 stored_as (m !! id) (m' !! id)) as Hid by apply H. destruct Hid; [split; intros _; by eexists|done].
Qed.

Lemma validate_restored (m m' : ExtensionInputs) bindings : restored_inputs m m' →
  validateRequestedExtensionIDs m = Ok () → validateExtensionBindingState m bindings = Ok () →
  validateRequestedExtensionIDs m' = Ok () ∧ validateExtensionBindingState m' bindings = Ok ().
Proof.
  intros Hd%restored_dom. unfold ExtensionInputs in *.
  assert (∀ id, is_Some (m' !! id) ↔ is_Some (m !! id)) as Hi by (intros id; by rewrite <-!elem_of_dom, Hd).
  rewrite !validateRequestedExtensionIDs_Ok, !validateExtensionBindingState_Ok. unfold bindings_valid, map_len, ExtensionInputs.
  rewrite <-!size_dom, Hd. setoid_rewrite Hi. done.
Qed.

(** A state with other extension inputs. *)
Definition reg_with_inputs (s : RegistrationState) (inputs : ExtensionInputs) : RegistrationState :=
  mkRegistrationState (rs_Challenge s) (rs_RPID s) (rs_OriginPolicy s) (rs_ConditionalMediation s) (rs_UserHandle s)
    (rs_RequestedUserVerification s) inputs (rs_ExtensionBindings s) (rs_AllowedAlgorithms s) (rs_Attestation s) (rs_ExpiresAt s).
Definition auth_with_inputs (s : AuthenticationState) (inputs : ExtensionInputs) : AuthenticationState :=
  mkAuthenticationState (as_Challenge s) (as_RPID s) (as_OriginPolicy s) (as_RequestedUserVerification s) inputs
    (as_ExtensionBindings s) (as_AllowCredentials s) (as_ExpectedUserHandle s) (as_ExpiresAt s).

Lemma registration_valid_restored s m' : restored_inputs (rs_RequestedExtensions s) m' →
  RegistrationState_Validate s = Ok () → RegistrationState_Validate (reg_with_inputs s m') = Ok () ∧ rs_ExpiresAt s ≠ 0.
Proof.
  intros Hm H. unfold RegistrationState_Validate in *.
  cbn [reg_with_inputs rs_Challenge rs_RPID rs_OriginPolicy rs_UserHandle rs_ExpiresAt rs_AllowedAlgorithms rs_Attestation
       rs_RequestedUserVerification rs_RequestedExtensions rs_ExtensionBindings].
  do 4 same_check H. destruct (IsZero (rs_ExpiresAt s)) eqn:Hz; [done|]. cbn [fail_if mbind result_bind] in H |- *.
  do 4 same_check H. split; [|by apply Z.eqb_neq].
  apply bind_Ok in H as ([] & Hids & Hb). destruct (validate_restored _ _ _ Hm Hids Hb) as [-> ->]. done.
Qed.

(** The extensions are part of the text of the envelope. *)
Lemma extensions_in_registration d version kind :
  let e := mkEnvelope version kind (Some d) None None in
  (json_extensions (rd_RequestedExtensions d) = None ∨
   ∃ v, json_extensions (rd_RequestedExtensions d) = Some v ∧ text_size v <= text_size (json_envelope e))%nat.
Proof.
  intros e. destruct (json_extensions (rd_RequestedExtensions d)) as [v|] eqn:E; [right|by left]. exists v. split; [done|].
  etrans; [|apply (text_size_member _ "registrationState" (json_registrationState d)); find_field].
  apply (text_size_member _ "requestedExtensions"). rewrite <-E. find_field.
Qed.
Lemma extensions_in_authentication d version kind :
  let e := mkEnvelope version kind None (Some d) None in
  (json_extensions (ad_RequestedExtensions d) = None ∨
   ∃ v, json_extensions (ad_RequestedExtensions d) = Some v ∧ text_size v <= text_size (json_envelope e))%nat.
Proof.
  intros e. destruct (json_extensions (ad_RequestedExtensions d)) as [v|] eqn:E; [right|by left]. exists v. split; [done|].
  etrans; [|apply (text_size_member _ "authenticationState" (json_authenticationState d)); find_field].
  apply (text_size_member _ "requestedExtensions"). rewrite <-E. find_field.
Qed.

End States.

(** ** Properties *)
Section Properties.
Context {Floats : FloatText} {Ord : MapOrder} {Custom : CustomTypes}.
Import StoreValue Storage.

(** The large blob input, the one the validation of a stored state looks into, is
    a typed input, which is what the handler of the library makes of it, or plain
    data, which is what storage makes of it. *)
Definition largeBlob_kept (inputs : ExtensionInputs) : Prop :=
  ∀ v, inputs !! IDLargeBlob = Some v →
    (∃ i, v = VLargeBlobInput i) ∨ (∃ w, plain_data w = true ∧ v = restored w).

Lemma context_restored (m m' : ExtensionInputs) allow : restored_inputs m m' → largeBlob_kept m →
  validateStoredAuthenticationExtensionContext m allow = Ok () → validateStoredAuthenticationExtensionContext m' allow = Ok ().
Proof.
  intros Hm Ht H. unfold validateStoredAuthenticationExtensionContext in *. specialize (Hm IDLargeBlob). unfold largeBlob_kept in Ht.
  destruct (m !! IDLargeBlob) as [v|] eqn:E; inversion Hm as [x v' Hv E1 E2|E1 E2]; [|done]. clear Hm.
  destruct (Ht v eq_refl) as [[i ->]|(w & Hp & ->)]; [|by apply restored_stored_as in Hv as ->].
  unfold validateLargeBlobCredentialContext in *.
  apply bind_Ok in H as (r & Hr & H). apply bind_Ok in H as (out & Hout & H).
  destruct (largeBlob_meaning _ _ _ _ _ Hv Hr Hout) as (r' & -> & Hout'). run. rewrite Hout'. exact H.
Qed.

Lemma authentication_valid_restored s m' : restored_inputs (as_RequestedExtensions s) m' → largeBlob_kept (as_RequestedExtensions s) →
  AuthenticationState_Validate s = Ok () →
  AuthenticationState_Validate (auth_with_inputs s m') = Ok () ∧ as_ExpiresAt s ≠ 0 ∧
  Forall (λ d, CredentialDescriptor_Validate d = Ok ()) (as_AllowCredentials s).
Proof.
  intros Hm Ht H. unfold AuthenticationState_Validate in *.
  cbn [auth_with_inputs as_Challenge as_RPID as_OriginPolicy as_ExpiresAt as_AllowCredentials
       as_RequestedUserVerification as_RequestedExtensions as_ExtensionBindings].
  do 3 same_check H. destruct (IsZero (as_ExpiresAt s)) eqn:Hz; [done|]. cbn [fail_if mbind result_bind] in H |- *.
  same_check H. apply bind_Ok in H as ([] & Hds & H). rewrite Hds. run. split.
  - apply bind_Ok in H as ([] & Hids & H). apply bind_Ok in H as ([] & Hb & H%wrap_err_Ok).
    destruct (validate_restored _ _ _ Hm Hids Hb) as [-> ->]. run. apply wrap_err_Ok. by eapply context_restored.
  - split; [by apply Z.eqb_neq|]. apply for_each_Ok in Hds. eapply Forall_impl; [exact Hds|]. intros d. apply wrap_err_Ok.
Qed.

(** States made of values their constructors returned, expiring before the year
    10000, with numbers of the width of their types. *)
Definition registration_state_wf (s : RegistrationState) : Prop :=
  NewChallenge (bv_value (rs_Challenge s)) = Ok (rs_Challenge s) ∧
  NewUserHandle (bv_value (rs_UserHandle s)) = Ok (rs_UserHandle s) ∧
  Forall (λ a, - 2 ^ 63 <= a < 2 ^ 63) (rs_AllowedAlgorithms s) ∧
  0 <= year_of (rs_ExpiresAt s) <= 9999 ∧ inputs_representable (rs_RequestedExtensions s).

Lemma registration_state_restored (s : RegistrationState) (data : list byte) :
  registration_state_wf s → MarshalRegistrationState s = Ok data →
  ∃ inputs, UnmarshalRegistrationState data = Ok (reg_with_inputs s inputs) ∧
            restored_inputs (rs_RequestedExtensions s) inputs.
Proof.
  intros (Hc & Hu & Ha & Hy & Hr) H. apply bind_Ok in H as ([] & Hval%wrap_err_Ok & H).
  apply bind_Ok in H as (out & Hout & Hm).
  destruct (extensions_stored _ _ Hout Hr) as [Hread Hdec].
  cbv zeta in Hm. match type of Hm with marshalEnvelope (mkEnvelope _ _ (Some ?p) _ _) = _ => set (payload := p) in * end.
  destruct (envelope_roundtrip _ _ kindRegistrationState Hm) as [Hun Hsize]; try done.
  { by apply um_envelope_registration, um_registrationState_json. }
  { left. split_and!; done. }
  destruct (Hdec _ (extensions_in_registration payload _ _) Hsize) as (inputs & Hin & Hrest). exists inputs. split; [|done].
  destruct (registration_valid_restored _ _ Hrest Hval) as [Hv' Hz].
  unfold UnmarshalRegistrationState. rewrite Hun. run. cbn [en_RegistrationState of_option mbind result_bind].
  cbn [payload rd_Challenge rd_UserHandle rd_ExpiresAt rd_RequestedExtensions rd_RPID rd_OriginPolicy rd_ConditionalMediation
       rd_RequestedUserVerification rd_ExtensionBindings rd_AllowedAlgorithms rd_Attestation].
  rewrite decodeChallenge_encode, decodeUserHandle_encode, parseTime_format, Hin by done. run.
  rewrite originPolicy_roundtrip, bindings_roundtrip. unfold validateRegistrationState. fold (reg_with_inputs s inputs). by rewrite Hv'.
Qed.

(** C25: registration state survives storage, down to the bytes: whenever the
    adapter stores a state made of constructed values that expires before the
    year 10000, the stored bytes unmarshal to that state, in which every
    requested extension keeps its identifier and its input is the input of the
    plain data of the original one. *)
Theorem registration_state_roundtrip (s : RegistrationState) (data : list byte) :
  registration_state_wf s → MarshalRegistrationState s = Ok data →
  ∃ inputs, UnmarshalRegistrationState data = Ok (reg_with_inputs s inputs) ∧
            restored_inputs (rs_RequestedExtensions s) inputs.
Proof. apply registration_state_restored. Qed.

Definition authentication_state_wf (s : AuthenticationState) : Prop :=
  NewChallenge (bv_value (as_Challenge s)) = Ok (as_Challenge s) ∧
  (as_ExpectedUserHandle s = mkByteValue None ∨ NewUserHandle (bv_value (as_ExpectedUserHandle s)) = Ok (as_ExpectedUserHandle s)) ∧
  Forall (λ d, NewCredentialID (bv_value (cdr_ID d)) = Ok (cdr_ID d)) (as_AllowCredentials s) ∧
  0 <= year_of (as_ExpiresAt s) <= 9999 ∧ inputs_representable (as_RequestedExtensions s) ∧
  largeBlob_kept (as_RequestedExtensions s).

Lemma decodeID_encode field c : NewCredentialID (bv_value c) = Ok c →
  (raw ← decodeBytes field (encodeBytes (slice_list (bv_bytes c))) 1 MaxCredentialIDLength;
   wrap_err ErrInvalidEnvelope (NewCredentialID (Some raw))) = Ok c.
Proof.
  intros Hc. pose proof Hc as H. unfold NewCredentialID in H. apply newByteValue_Ok in H as (_ & Hmin & Hmax). unfold slice_len in *.
  unfold bv_bytes. rewrite decodeBytes_encode by done. run. destruct c as [[b|]]; [by apply wrap_err_Ok|]. cbn in Hmin. lia.
Qed.

Lemma descriptors_roundtrip ds : Forall (λ d, NewCredentialID (bv_value (cdr_ID d)) = Ok (cdr_ID d)) ds →
  Forall (λ d, CredentialDescriptor_Validate d = Ok ()) ds → descriptorsFromDTO (descriptorsToDTO ds) = Ok ds.
Proof.
  intros Hid Hv. apply map_res_image. rewrite Forall_forall in *. intros d Hd.
  pose proof (decodeID_encode "allowCredentials.id" _ (Hid d Hd)) as H. apply bind_Ok in H as (raw & Hraw & Hnew).
  unfold descriptorFromDTO. cbn [dd_ID dd_Type dd_Transports]. rewrite Hraw. run. cbn [wrap_err] in Hnew. unfold wrap_err in *. rewrite Hnew. run.
  unfold stringsToTransports, transportsToStrings. specialize (Hv d Hd). destruct d as [t i tr]. cbn in *. by rewrite Hv.
Qed.

Lemma expected_user_roundtrip u : u = mkByteValue None ∨ NewUserHandle (bv_value u) = Ok u →
  decodeUserHandle "expectedUserHandle" (if negb (bv_len u =? 0) then encodeBytes (slice_list (bv_bytes u)) else "") false = Ok u.
Proof.
  intros [->|Hu]; [done|]. pose proof Hu as H. unfold NewUserHandle in H. apply newByteValue_Ok in H as (_ & Hmin & _).
  unfold bv_len. rewrite (proj2 (Z.eqb_neq _ 0)) by lia. by apply decodeUserHandle_encode.
Qed.

Lemma authentication_state_restored (s : AuthenticationState) (data : list byte) :
  authentication_state_wf s → MarshalAuthenticationState s = Ok data →
  ∃ inputs, UnmarshalAuthenticationState data = Ok (auth_with_inputs s inputs) ∧
            restored_inputs (as_RequestedExtensions s) inputs.
Proof.
  intros (Hc & Hu & Hids & Hy & Hr & Ht) H. apply bind_Ok in H as ([] & Hval%wrap_err_Ok & H).
  apply bind_Ok in H as (out & Hout & Hm).
  destruct (extensions_stored _ _ Hout Hr) as [Hread Hdec].
  cbv zeta in Hm. match type of Hm with marshalEnvelope (mkEnvelope _ _ _ (Some ?p) _) = _ => set (payload := p) in * end.
  destruct (envelope_roundtrip _ _ kindAuthenticationState Hm) as [Hun Hsize]; try done.
  { by apply um_envelope_authentication, um_authenticationState_json. }
  { right; left. split_and!; done. }
  destruct (Hdec _ (extensions_in_authentication payload _ _) Hsize) as (inputs & Hin & Hrest). exists inputs. split; [|done].
  destruct (authentication_valid_restored _ _ Hrest Ht Hval) as (Hv' & Hz & Hds).
  unfold UnmarshalAuthenticationState. rewrite Hun. run. cbn [en_AuthenticationState of_option mbind result_bind].
  cbn [payload ad_Challenge ad_ExpectedUserHandle ad_ExpiresAt ad_RequestedExtensions ad_RPID ad_OriginPolicy
       ad_RequestedUserVerification ad_ExtensionBindings ad_AllowCredentials].
  rewrite decodeChallenge_encode, expected_user_roundtrip, parseTime_format, Hin, descriptors_roundtrip by done. run.
  rewrite originPolicy_roundtrip, bindings_roundtrip. unfold validateAuthenticationState. fold (auth_with_inputs s inputs). by rewrite Hv'.
Qed.

(** Inputs that were read back are of the same kind again. *)
Lemma restored_again (m m' : ExtensionInputs) : restored_inputs m m' → inputs_representable m →
  inputs_representable m' ∧ largeBlob_kept m'.
Proof.
  intros Hm Hr. unfold restored_inputs, inputs_representable, largeBlob_kept, ExtensionInputs in *. split.
  - intros id v' raw w Hv' Hraw Hw. specialize (Hm id). rewrite Hv' in Hm. inversion Hm as [v x Hv Hid Hx|]. subst x. symmetry in Hid.
    destruct Hv as (raw0 & w0 & Hraw0 & Hw0 & _ & ->). pose proof (plain_is_data _ _ Hw0) as Hp.
    apply InputValue_restored in Hraw as ->; [|done]. unfold plain in Hw. rewrite plain_data_plain in Hw by done.
    injection Hw as <-. by eapply Hr.
  - intros v' Hv'. specialize (Hm IDLargeBlob). rewrite Hv' in Hm. inversion Hm as [v x Hv Hid Hx|]. subst x.
    destruct Hv as (raw & w & _ & Hw & _ & ->). right. exists w. split; [by eapply plain_is_data|done].
Qed.


Definition credential_record_wf (r : CredentialRecord) (decode : list byte → result CredentialPublicKey) : Prop :=
  NewCredentialID (bv_value (cr_ID r)) = Ok (cr_ID r) ∧ NewUserHandle (bv_value (cr_UserHandle r)) = Ok (cr_UserHandle r) ∧
  length (cr_AAGUID r) = 16%nat ∧ 0 <= cr_SignCount r < 2 ^ 32 ∧ decode (Types.Raw (cr_PublicKey r)) = Ok (cr_PublicKey r).

Lemma record_roundtrip (r : CredentialRecord) (decode : list byte → result CredentialPublicKey) (data : list byte) :
  credential_record_wf r decode → MarshalCredentialRecord r = Ok data →
  UnmarshalCredentialRecord data (Iface decode) = Ok r.
Proof.
  intros (Hid & Hu & Haa & Hsc & Hk) H. apply bind_Ok in H as ([] & Hval%wrap_err_Ok & H).
  apply bind_Ok in H as ([] & _ & Hm). cbv zeta in Hm.
  match type of Hm with marshalEnvelope (mkEnvelope _ _ _ _ (Some ?p)) = _ => set (payload := p) in * end.
  pose proof Hval as Hrv. apply CredentialRecord_Validate_Ok in Hrv as (Hty & _ & _ & _ & Hkv & _).
  destruct (envelope_roundtrip _ _ kindCredentialRecord Hm) as [Hun _]; try done.
  { apply um_envelope_record, um_credentialRecord_json; [|done]. cbn. by rewrite Hty. }
  { right; right. split_and!; done. }
  pose proof (decodeID_encode "id" _ Hid) as HID. apply bind_Ok in HID as (idb & Hidb & Hnew).
  unfold UnmarshalCredentialRecord. cbn [IsNil fail_if mbind result_bind]. rewrite Hun. cbn [en_CredentialRecord of_option mbind result_bind].
  cbn [payload cd_Type cd_ID cd_PublicKeyCOSE cd_UserHandle cd_RPID cd_AAGUID cd_SignCount cd_Transports cd_BackupEligible
       cd_BackupState cd_UVInitialized cd_AuthenticatorAttachment cd_AttestationType].
  assert (credentialRecordType (Some (jstring (cr_Type r))) = Ok (cr_Type r)) as -> by (by rewrite Hty).
  apply wrap_err_Ok in Hnew. run. rewrite Hidb. run. rewrite Hnew. run. rewrite decodeUserHandle_encode by done. run.
  apply CredentialPublicKey_Validate_Ok in Hkv as (_ & _ & Hne & Hlen).
  assert (1 <= Z.of_nat (length (Types.Raw (cr_PublicKey r)))) by (unfold Types.Raw; destruct (pk_raw (cr_PublicKey r)); [done|cbn [length]; lia]).
  rewrite (decodeBytes_encode "publicKeyCose") by done. run.
  rewrite Hk, bool_decide_eq_true_2 by done. run. rewrite decodeBytes_encode by (unfold AAGUIDLength; lia). run.
  unfold stringsToTransports, transportsToStrings. fold (CredentialRecord_Clone r). rewrite CredentialRecord_Clone_id.
  unfold validateCredentialRecord. by rewrite Hval.
Qed.

(** C27: a credential record survives storage unchanged: whenever the adapter
    stores a record whose identifiers their constructors returned and whose key
    the decoder reads back from its raw bytes, the stored bytes unmarshal to
    exactly that record. *)
Theorem credential_record_roundtrip (r : CredentialRecord) (decode : list byte → result CredentialPublicKey) (data : list byte) :
  credential_record_wf r decode → MarshalCredentialRecord r = Ok data →
  UnmarshalCredentialRecord data (Iface decode) = Ok r.
Proof. apply record_roundtrip. Qed.

(** With the CBOR decoder of the library, a key it returned is read back. *)
Lemma decoded_key_stable (dm : DecMode) (em : EncMode) `{!FirstItem dm} raw k :
  let decoder := Some (Cbor.mkDecoder (Some dm) (Some em)) in
  Cbor.DecodeCredentialPublicKey decoder raw = Ok k → Cbor.DecodeCredentialPublicKey decoder (pk_raw k) = Ok k.
Proof.
  intros decoder (v0 & rest & v & m & kt & Hl & (item & -> & Hi)%unmarshal_first & Hc & Hraw & H)%DecodeCredentialPublicKey_Ok.
  rewrite length_app in *. replace (Z.to_nat _) with (length item) in Hraw by lia. rewrite take_app_length in Hraw. rewrite Hraw in *.
  apply DecodeCredentialPublicKey_Ok. exists v0, [], v, m, kt. rewrite Hraw. cbn [length].
  split_and!; try done; try lia; try (apply H); [apply unmarshal_first; exists item; by rewrite app_nil_r|].
  rewrite take_ge by lia. done.
Qed.

(** What the readers return was made by the constructors. *)
Lemma constructed field v lo hi c : newByteValue field v lo hi = Ok c → newByteValue field (bv_value c) lo hi = Ok c.
Proof. intros H. pose proof H as (-> & _)%newByteValue_Ok. done. Qed.

Lemma decodeChallenge_Ok t c : decodeChallenge t = Ok c → NewChallenge (bv_value c) = Ok c.
Proof. intros H. apply bind_Ok in H as (raw & _ & H%wrap_err_Ok). by apply constructed in H. Qed.
Lemma decodeUserHandle_Ok field t u : decodeUserHandle field t true = Ok u → NewUserHandle (bv_value u) = Ok u.
Proof.
  unfold decodeUserHandle. rewrite andb_false_r. intros H. apply bind_Ok in H as (raw & _ & H%wrap_err_Ok). by apply constructed in H.
Qed.
Lemma descriptorsFromDTO_Ok ds out : descriptorsFromDTO ds = Ok out →
  Forall (λ d, NewCredentialID (bv_value (cdr_ID d)) = Ok (cdr_ID d)) out.
Proof.
  intros H%map_res_Ok. apply Forall_forall. intros d Hd. apply (Forall2_right _ _ _ _ H) in Hd as (x & _ & Hx).
  apply bind_Ok in Hx as (raw & _ & Hx). apply bind_Ok in Hx as (id & Hid%wrap_err_Ok%constructed & Hx).
  apply bind_Ok in Hx as ([] & _ & [= <-]). exact Hid.
Qed.
Lemma unmarshalEnvelope_size data kind e : unmarshalEnvelope data kind = Ok e → Z.of_nat (length data) <= MaxEnvelopeBytes.
Proof. intros H. apply bind_Ok in H as ([] & Hs%fail_if_Ok & _). apply orb_false_iff in Hs as [_ Hs%Z.ltb_ge]. done. Qed.
Lemma decodeBytes_length field t n b : decodeBytes field t n n = Ok b → 0 < n → Z.of_nat (length b) = n.
Proof.
  unfold decodeBytes. intros H Hn. destruct (DecodeString t) as [raw|]; [|done]. apply bind_Ok in H as ([] & Hc%fail_if_Ok & [= <-]).
  apply orb_false_iff in Hc as [[_ Hlo%Z.ltb_ge]%orb_false_iff Hhi]. rewrite (proj2 (Z.ltb_lt 0 n)) in Hhi by done. cbn in Hhi.
  apply Z.ltb_ge in Hhi. lia.
Qed.

Lemma decodeUserHandle_optional field t u : decodeUserHandle field t false = Ok u →
  u = mkByteValue None ∨ NewUserHandle (bv_value u) = Ok u.
Proof.
  unfold decodeUserHandle. destruct (_ && _); [intros [= <-]; by left|]. intros H.
  apply bind_Ok in H as (raw & _ & H%wrap_err_Ok). right. by apply constructed in H.
Qed.

(** The bounds of the constructors. *)
Lemma challenge_bound c : NewChallenge (bv_value c) = Ok c → 16 <= bv_len c.
Proof. by intros (_ & ? & _)%newByteValue_Ok. Qed.
Lemma user_handle_bound u : NewUserHandle (bv_value u) = Ok u → 1 <= bv_len u <= 64.
Proof. intros (_ & ? & H)%newByteValue_Ok. split; [done|]. by apply H. Qed.
Lemma credential_id_bound c : NewCredentialID (bv_value c) = Ok c → 1 <= bv_len c <= 1023.
Proof. intros (_ & ? & H)%newByteValue_Ok. split; [done|]. by apply H. Qed.

(** C28: whatever bytes are read back, a state or record that the adapter
    returns has passed the validation of the ceremonies, with a challenge of at
    least 16 bytes, a user handle of 1 to 64 bytes (an expected user may also be
    absent), credential ids of 1 to 1023 bytes, a 16-byte AAGUID and a key the
    decoder accepted; and only texts of at most one mebibyte are read. *)
Theorem unmarshalled_valid (data : list byte) (decoder : COSEKeyDecoder) :
  (∀ s, UnmarshalRegistrationState data = Ok s →
     RegistrationState_Validate s = Ok () ∧ 16 <= bv_len (rs_Challenge s) ∧ 1 <= bv_len (rs_UserHandle s) <= 64 ∧
     Z.of_nat (length data) <= 2 ^ 20) ∧
  (∀ s, UnmarshalAuthenticationState data = Ok s →
     AuthenticationState_Validate s = Ok () ∧ 16 <= bv_len (as_Challenge s) ∧
     (as_ExpectedUserHandle s = mkByteValue None ∨ 1 <= bv_len (as_ExpectedUserHandle s) <= 64) ∧
     Forall (λ d, 1 <= bv_len (cdr_ID d) <= 1023) (as_AllowCredentials s) ∧ Z.of_nat (length data) <= 2 ^ 20) ∧
  (∀ r, UnmarshalCredentialRecord data decoder = Ok r →
     CredentialRecord_Validate r = Ok () ∧ 1 <= bv_len (cr_ID r) <= 1023 ∧ 1 <= bv_len (cr_UserHandle r) <= 64 ∧
     length (cr_AAGUID r) = 16%nat ∧
     (∃ decode, decoder = Iface decode ∧ decode (Types.Raw (cr_PublicKey r)) = Ok (cr_PublicKey r)) ∧
     Z.of_nat (length data) <= 2 ^ 20).
Proof.
  split; [|split].
  - intros s H. apply bind_Ok in H as (e & He%unmarshalEnvelope_size & H). apply bind_Ok in H as (payload & _ & H).
    apply bind_Ok in H as (c & Hc%decodeChallenge_Ok%challenge_bound & H).
    apply bind_Ok in H as (u & Hu%decodeUserHandle_Ok%user_handle_bound & H).
    apply bind_Ok in H as (t & _ & H). apply bind_Ok in H as (x & _ & H). apply bind_Ok in H as ([] & Hv%wrap_err_Ok & [= <-]). done.
  - intros s H. apply bind_Ok in H as (e & He%unmarshalEnvelope_size & H). apply bind_Ok in H as (payload & _ & H).
    apply bind_Ok in H as (c & Hc%decodeChallenge_Ok%challenge_bound & H). apply bind_Ok in H as (u & Hu%decodeUserHandle_optional & H).
    apply bind_Ok in H as (t & _ & H). apply bind_Ok in H as (x & _ & H). apply bind_Ok in H as (ds & Hds%descriptorsFromDTO_Ok & H).
    apply bind_Ok in H as ([] & Hv%wrap_err_Ok & [= <-]). split; [done|]. split; [done|]. split; [|split; [|done]].
    + destruct Hu as [?|?%user_handle_bound]; [by left|by right].
    + eapply Forall_impl; [exact Hds|]. intros d. apply credential_id_bound.
  - intros r H. apply bind_Ok in H as ([] & _ & H). apply bind_Ok in H as (e & He%unmarshalEnvelope_size & H).
    apply bind_Ok in H as (payload & _ & H). apply bind_Ok in H as (t & _ & H). apply bind_Ok in H as (raw & _ & H).
    apply bind_Ok in H as (id & Hid%wrap_err_Ok%constructed%credential_id_bound & H).
    apply bind_Ok in H as (u & Hu%decodeUserHandle_Ok%user_handle_bound & H).
    apply bind_Ok in H as (kb & _ & H). apply bind_Ok in H as (decode & Hd & H). destruct decoder as [| |f]; try done. injection Hd as ->.
    apply bind_Ok in H as (key & Hk & H). apply bind_Ok in H as (aa & Haa%decodeBytes_length & H); [|done].
    apply bind_Ok in H as ([] & Hv%wrap_err_Ok & [= <-]). cbn [cr_PublicKey cr_ID cr_UserHandle cr_AAGUID].
    destruct (decode kb) as [k|] eqn:Hdk; [|done]. apply bind_Ok in Hk as ([] & Hraw%fail_if_Ok%negb_false_iff%bool_decide_eq_true & [= ->]).
    unfold AAGUIDLength in Haa. do 3 (split; [done|]). split; [lia|]. split; [|done]. exists decode. by rewrite Hraw.
Qed.
End Properties.

(** ** Samples *)

(** Numbers as significand and exponent: one way to satisfy [FloatText]. *)
Definition sample_parse_float (raw : list byte) : option float :=
  '(m, e) ← cut_last x65 raw;
  match um_int64 (Some (JNumber m)), um_int64 (Some (JNumber e)) with Ok m, Ok e => Some (FFinite m e) | _, _ => None end.

Lemma itoa_no_exponent z : - 10 ^ 19 < z < 10 ^ 19 → x65 ∉ itoa z.
Proof.
  intros Hz. unfold itoa. destruct (Z.ltb_spec z 0).
  - destruct (nat_digits_spec 20 (- z) []) as (ds & -> & _ & Hds & _); [lia|lia|]. rewrite app_nil_r. rewrite not_elem_of_cons. split; [done|].
    intros Hin. rewrite Forall_forall in Hds. discriminate (Hds _ Hin).
  - destruct (nat_digits_spec 20 z []) as (ds & -> & _ & Hds & _); [lia|lia|]. rewrite app_nil_r.
    intros Hin. rewrite Forall_forall in Hds. discriminate (Hds _ Hin).
Qed.

#[local] Instance sample_floats : FloatText.
Proof.
  refine {| format_float f := match f with FFinite m e => itoa m ++ x65 :: itoa e | _ => [] end; parse_float := sample_parse_float |}.
  intros [| |m e] Hf; try done. cbn in Hf. unfold sample_parse_float.
  assert (- 2 ^ 53 < m < 2 ^ 53 ∧ -1074 <= e <= 971) as [Hm He].
  { destruct (Z.eqb_spec m 0) as [->|]; [apply Z.eqb_eq in Hf; lia|].
    apply andb_true_iff in Hf as [[[_ Hm%Z.ltb_lt]%andb_true_iff He1%Z.leb_le]%andb_true_iff He2%Z.leb_le]. lia. }
  rewrite cut_last_app by (apply itoa_no_exponent; lia). cbn [mbind option_bind]. unfold um_int64.
  fold (jint m) (jint e). rewrite !um_int_jint by lia. done.
Defined.

#[local] Existing Instance no_custom_types.
#[local] Existing Instance default_order.

Lemma sample_inputs_representable : inputs_representable sample_inputs.
Proof.
  intros id v raw w Hv Hraw Hw. unfold sample_inputs, ExtensionInputs in Hv. apply lookup_singleton_Some in Hv as [_ <-]. cbn in Hraw. injection Hraw as <-.
  injection Hw as <-. done.
Qed.

Lemma registration_state_roundtrip_witness : ∃ data inputs,
  Storage.MarshalRegistrationState sample_state = Ok data ∧
  Storage.UnmarshalRegistrationState data = Ok (reg_with_inputs sample_state inputs) ∧ restored_inputs sample_inputs inputs.
Proof.
  destruct (Storage.MarshalRegistrationState sample_state) as [data|e] eqn:E; [|vm_compute in E; discriminate E].
  destruct (registration_state_roundtrip sample_state data) as (inputs & Hu & Hr);
    [|exact E|exists data, inputs; split; [reflexivity|split; [exact Hu|exact Hr]]].
  split; [reflexivity|]. split; [reflexivity|]. split; [apply (bool_decide_unpack _); vm_compute; exact I|].
  split; [vm_compute; split; discriminate|apply sample_inputs_representable].
Defined.

(** A state with a typed large blob input and an expected user. *)
Definition blob_state : AuthenticationState := {|
  as_Challenge := mkByteValue (Some (replicate 32 x00)); as_RPID := "example.com"; as_OriginPolicy := example_policy;
  as_RequestedUserVerification := UserVerificationPreferred;
  as_RequestedExtensions := {[ IDLargeBlob := VLargeBlobInput (mkLargeBlobInput "" None (Some [x01; x02])) ]};
  as_ExtensionBindings := [mkBinding IDLargeBlob RevisionLevel3Recommendation];
  as_AllowCredentials := [Descriptor sample_credential]; as_ExpectedUserHandle := cr_UserHandle sample_credential;
  as_ExpiresAt := 600000000001 |}.

Lemma blob_state_wf : authentication_state_wf blob_state.
Proof.
  split; [reflexivity|]. split; [by right|]. split; [repeat constructor|]. split; [vm_compute; split; discriminate|]. split.
  - intros id v raw w Hv Hraw Hw. cbn in Hv. unfold ExtensionInputs in Hv. apply lookup_singleton_Some in Hv as [_ <-].
    vm_compute in Hraw. injection Hraw as <-. vm_compute in Hw. injection Hw as <-. reflexivity.
  - intros v Hv. cbn in Hv. unfold ExtensionInputs in Hv. apply lookup_singleton_Some in Hv as [_ <-]. left. by eexists.
Qed.


Lemma credential_record_roundtrip_witness : ∃ data,
  Storage.MarshalCredentialRecord sample_credential = Ok data ∧
  Storage.UnmarshalCredentialRecord data (Iface (λ _, Ok sample_key)) = Ok sample_credential.
Proof.
  destruct (Storage.MarshalCredentialRecord sample_credential) as [data|e] eqn:E; [|vm_compute in E; discriminate E].
  exists data. split; [reflexivity|]. apply (credential_record_roundtrip sample_credential _ data); [|exact E].
  split; [reflexivity|]. split; [reflexivity|]. split; [reflexivity|]. split; [cbn; lia|reflexivity].
Defined.

(** A raw large blob input whose write is a nil slice is stored as an empty
    one.  The validation of the state tells them apart: such a state is
    accepted, and stored, with any number of allowed credentials, but cannot be
    read back unless there is exactly one. *)
Definition nil_write_state : AuthenticationState := {|
  as_Challenge := mkByteValue (Some (replicate 32 x00)); as_RPID := "example.com"; as_OriginPolicy := example_policy;
  as_RequestedUserVerification := UserVerificationRequired;
  as_RequestedExtensions := {[ IDLargeBlob := VRawInput true (VMap map_string_any [(KString "write", VBytes None)]) ]};
  as_ExtensionBindings := [mkBinding IDLargeBlob RevisionLevel3Recommendation]; as_AllowCredentials := [];
  as_ExpectedUserHandle := zeroByteValue; as_ExpiresAt := 600000000001 |}.

Theorem nil_write_not_read_back : ∃ data,
  Storage.MarshalAuthenticationState nil_write_state = Ok data ∧ is_ok (Storage.UnmarshalAuthenticationState data) = false.
Proof.
  destruct (Storage.MarshalAuthenticationState nil_write_state) as [data|e] eqn:E; vm_compute in E; [|discriminate E].
  exists data. split; [reflexivity|]. injection E as <-. vm_compute. reflexivity.
Qed.
