(* ===== verification/SafetyNet.v ===== *)
(** * Android SafetyNet attestation

    Models [src/attestation/androidsafetynet/]: the verifier of the statement,
    the policy it enforces and the claims of the signed payload.  The JWS
    verifier is an injected interface; the certificate parser is the class
    [X509] and [VerifyHostname] is the method of [crypto/x509] for a host name
    that is not an IP address.  Instants are nanoseconds since the zero time. *)
From S2P Require Import Prelude Base64 Sha2 GoStrings Json AuthData ClientData ExtValue Types Attestation X509 Ceremony JsonText.
Set Default Goal Selector "!".
Local Open Scope Z_scope.

(** ** [x509.Certificate.VerifyHostname] *)
Module Hostname.
Definition host_char (first : bool) (c : byte) : bool :=
  is_lower c || is_digit c || is_upper c || (bool_decide (c = x2d) && negb first) || bool_decide (c = x5f).
Definition host_label (part : list byte) : bool :=
  match part with [] => false | c :: rest => host_char true c && forallb (host_char false) rest end.

Definition validHostname (host : list byte) (isPattern : bool) : bool :=
  let host := if isPattern then host else if has_suffix [x2e] host then take (length host - 1) host else host in
  negb (bool_decide (host = [])) && negb (bool_decide (host = [x2a]))
  && match split x2e host with
     | first :: rest => ((isPattern && bool_decide (first = [x2a])) || host_label first) && forallb host_label rest
     | [] => true
     end.

Definition matchExactly (hostA hostB : list byte) : bool :=
  negb (bool_decide (hostA ∈ [[]; [x2e]]) || bool_decide (hostB ∈ [[]; [x2e]])) && bool_decide (to_lower hostA = to_lower hostB).

Definition matchHostnames (pattern host : list byte) : bool :=
  let pattern := to_lower pattern in
  let host := to_lower (if has_suffix [x2e] host then take (length host - 1) host else host) in
  negb (bool_decide (pattern = [])) && negb (bool_decide (host = []))
  && match split x2e pattern, split x2e host with
     | p :: ps, h :: hs => (bool_decide (p = [x2a]) || bool_decide (p = h)) && bool_decide (ps = hs)
     | _, _ => false
     end.

Definition VerifyHostname (dnsNames : list string) (h : string) : bool :=
  let candidateName := to_lower (bytes_of_string h) in
  let validCandidateName := validHostname candidateName false in
  existsb (λ name, let m := bytes_of_string name in
    if validCandidateName && validHostname m true then matchHostnames m candidateName else matchExactly m candidateName) dnsNames.
End Hostname.

Module SafetyNet.
Definition format : string := "android-safetynet".
Definition safetyNetAttestDNSName : string := "attest.android.com".
Definition ErrInvalidStatement : error := Sentinel "androidsafetynet.ErrInvalidStatement".
Definition ErrInvalidJWS : error := Sentinel "androidsafetynet.ErrInvalidJWS".
Definition ErrInvalidPayload : error := Sentinel "androidsafetynet.ErrInvalidPayload".
Definition ErrInvalidNonce : error := Sentinel "androidsafetynet.ErrInvalidNonce".
Definition ErrCertificateRequirements : error := Sentinel "androidsafetynet.ErrCertificateRequirements".
Definition ErrPolicyConfiguration : error := Sentinel "androidsafetynet.ErrPolicyConfiguration".

(** Package [crypto]: a token and the result of its verification. *)
Definition JWSToken : Type := list byte.
Definition NewJWSToken (raw : list byte) : JWSToken := raw.
Record JWSVerification := mkJWSVerification { jv_Payload : list byte; jv_Certificates : CertificateChain }.
Definition JWSVerifier : Type := iface (context → JWSToken → result JWSVerification).

Record Policy := mkPolicy {
  ExpectedAPKPackageName : string;
  ExpectedAPKCertificateSHA256 : list (list byte);
  AllowedVersions : list string;
  MaxAge : Z;
  ClockSkew : Z;
  RequireCTSProfileMatch : bool;
  RequireBasicIntegrity : bool;
  Now : option Z;
}.

Record SafetyNetVerifier := mkSafetyNetVerifier { sv_jwsVerifier : JWSVerifier; sv_policy : Policy }.

Definition clonePolicy (policy : Policy) : Policy :=
  {| ExpectedAPKPackageName := ExpectedAPKPackageName policy;
     ExpectedAPKCertificateSHA256 := (λ digest, digest) <$> ExpectedAPKCertificateSHA256 policy;
     AllowedVersions := AllowedVersions policy; MaxAge := MaxAge policy; ClockSkew := ClockSkew policy;
     RequireCTSProfileMatch := RequireCTSProfileMatch policy; RequireBasicIntegrity := RequireBasicIntegrity policy;
     Now := Now policy |}.

Definition validatePolicy (policy : Policy) : result () :=
  _ ← fail_if (bool_decide (ExpectedAPKPackageName policy = "") || bool_decide (length (ExpectedAPKCertificateSHA256 policy) = 0%nat)
               || (MaxAge policy <=? 0) || (ClockSkew policy <? 0)
               || (negb (RequireCTSProfileMatch policy) && negb (RequireBasicIntegrity policy))) ErrPolicyConfiguration;
  _ ← for_each (λ digest, fail_if (negb (Z.of_nat (length digest) =? 32)) ErrPolicyConfiguration) (ExpectedAPKCertificateSHA256 policy);
  fail_if (one_of "" (AllowedVersions policy)) ErrPolicyConfiguration.

Definition policy_now {RT : Runtime} (policy : Policy) : Z := default time_Now (Now policy).

Record safetyNetStatement := mkStatement { sns_version : string; sns_response : list byte }.

Definition parseStatement {Ord : MapOrder} (statement : AttestationStatement) : result safetyNetStatement :=
  _ ← fail_if (negb (map_len statement =? 2)) ErrInvalidStatement;
  _ ← AttStmt.known_fields ["ver"; "response"] statement ErrInvalidStatement;
  version ← AttStmt.String (AttStmt.field statement "ver") ErrInvalidStatement;
  response ← AttStmt.Bytes (AttStmt.field statement "response") ErrInvalidStatement;
  Ok (mkStatement version response).

Definition expectedNonce (authenticatorData : AuthenticatorData) (clientDataHash : list byte) : string :=
  StdEncodeToString (Sum256 (AttCrypto.SignedData authenticatorData clientDataHash)).

Definition validateSafetyNetCertificate {X : X509} (chain : CertificateChain) : result () :=
  match chain with
  | [] => Err ErrCertificateRequirements
  | raw :: _ =>
      leaf ← wrap_err ErrCertificateRequirements (x509_ParseCertificate raw);
      fail_if (negb (Hostname.VerifyHostname (xc_DNSNames leaf) safetyNetAttestDNSName)) (ErrorText ErrCertificateRequirements "hostname")
  end.

(** ** The payload *)

(** [payloadClaim[T]]; [target] is [json.Unmarshal] into a [T]. *)
Definition payloadClaim {T} (target : option json → result T) (raw : option json) : result T :=
  match raw with
  | None | Some JNull => Err ErrInvalidPayload
  | Some _ => wrap_err ErrInvalidPayload (target raw)
  end.

(** The value and whether the claim is present. *)
Definition booleanPayloadClaim (payload : list (list byte * json)) (name : string) : result (bool * bool) :=
  match get payload name with
  | None => Ok (false, false)
  | Some raw => v ← payloadClaim um_bool (Some raw); Ok (v, true)
  end.

Definition parseCertificateDigests (values : list string) : result (list (list byte)) :=
  _ ← fail_if (bool_decide (length values = 0%nat)) ErrInvalidPayload;
  map_res (λ encoded,
    decoded ← of_option ErrInvalidPayload (StdDecodeString encoded);
    _ ← fail_if (negb (Z.of_nat (length decoded) =? 32) || negb (bool_decide (StdEncodeToString decoded = encoded))) ErrInvalidPayload;
    Ok decoded) values.

Definition containsExpectedDigest (actual expected : list (list byte)) : bool :=
  existsb (λ candidate, existsb (λ allowed, bool_decide (candidate = allowed)) expected) actual.

(** [time.UnixMilli]: the epoch is 62135596800 seconds after the zero time. *)
Definition UnixMilli (ms : Z) : Z := 62135596800 * 1000000000 + ms * 1000000.

Definition validatePayload {RT : Runtime} (raw : list byte) (expectedNonce version : string) (policy : Policy) : result SafetyNetEvidence :=
  payload ← wrap_err ErrInvalidPayload (tree ← of_option errUnmarshal (Json.parse raw); um_struct false [] (Some tree));
  _ ← fail_if (negb (bool_decide (length (AllowedVersions policy) = 0%nat)) && negb (one_of version (AllowedVersions policy))) ErrInvalidPayload;
  nonce ← or_err ErrInvalidPayload (payloadClaim unmarshal_string (get payload "nonce"));
  _ ← fail_if (bool_decide (nonce = "")) ErrInvalidPayload;
  _ ← fail_if (negb (bool_decide (nonce = expectedNonce))) ErrInvalidNonce;
  '(cts, ctsPresent) ← booleanPayloadClaim payload "ctsProfileMatch";
  _ ← fail_if (RequireCTSProfileMatch policy && (negb ctsPresent || negb cts)) ErrInvalidPayload;
  '(basic, basicPresent) ← booleanPayloadClaim payload "basicIntegrity";
  _ ← fail_if (RequireBasicIntegrity policy && (negb basicPresent || negb basic)) ErrInvalidPayload;
  timestamp ← or_err ErrInvalidPayload (payloadClaim um_int64 (get payload "timestampMs"));
  _ ← fail_if (timestamp <=? 0) ErrInvalidPayload;
  let timestampTime := UnixMilli timestamp in
  let now := policy_now policy in
  _ ← fail_if ((timestampTime <? now - MaxAge policy) || (now + ClockSkew policy <? timestampTime)) ErrInvalidPayload;
  packageName ← or_err ErrInvalidPayload (payloadClaim unmarshal_string (get payload "apkPackageName"));
  _ ← fail_if (negb (bool_decide (packageName = ExpectedAPKPackageName policy))) ErrInvalidPayload;
  encodedDigests ← payloadClaim (um_list unmarshal_string) (get payload "apkCertificateDigestSha256");
  digests ← or_err ErrInvalidPayload (parseCertificateDigests encodedDigests);
  _ ← fail_if (negb (containsExpectedDigest digests (ExpectedAPKCertificateSHA256 policy))) ErrInvalidPayload;
  Ok {| sne_Version := version; sne_Timestamp := timestampTime; sne_APKPackageName := packageName;
        sne_APKCertificateSHA256 := digests; sne_CTSProfileMatch := cts; sne_BasicIntegrity := basic |}.

(** ** The verifier *)
Section Verify.
Context {Ord : MapOrder} {X : X509} {RT : Runtime}.

Definition VerifyAttestation (v : SafetyNetVerifier) (ctx : context) (request : VerificationRequest) : result VerificationResult :=
  _ ← fail_if (negb (bool_decide (vq_Format request = format)) || IsNil (sv_jwsVerifier v)) ErrInvalidStatement;
  _ ← validatePolicy (sv_policy v);
  statement ← parseStatement (vq_Statement request);
  _ ← fail_if ((bv_len (vq_AuthenticatorData request) =? 0) || bool_decide (length (vq_ClientDataHash request) = 0%nat)) ErrInvalidStatement;
  verification ← wrap_err ErrInvalidJWS
    (match sv_jwsVerifier v with
     | Iface verifyJWS => verifyJWS ctx (NewJWSToken (sns_response statement))
     | _ => Err NilDereference
     end);
  _ ← validateSafetyNetCertificate (jv_Certificates verification);
  evidence ← validatePayload (jv_Payload verification) (expectedNonce (vq_AuthenticatorData request) (vq_ClientDataHash request))
               (sns_version statement) (sv_policy v);
  Ok (mkVR TypeBasic (mkTrustPath TrustPathX509 (jv_Certificates verification) None None) true [] (EvSafetyNet evidence)).

Definition New (jwsVerifier : JWSVerifier) (policy : Policy) : SafetyNetVerifier := mkSafetyNetVerifier jwsVerifier (clonePolicy policy).
End Verify.
End SafetyNet.

(** ** Host names *)
Section HostnameLemmas.
Import Hostname.

Lemma lower_host_char first c : host_char first (to_lower_byte c) = host_char first c.
Proof. by destruct first, c. Qed.
Lemma lower_is c d : d ∈ [x2a; x2e] → to_lower_byte c = d ↔ c = d.
Proof. rewrite !elem_of_cons, elem_of_nil. intros [->|[->|[]]]; destruct c; (split; intros H; [by (discriminate H || reflexivity)|by (discriminate H || reflexivity)]). Qed.

Lemma lower_dot c : to_lower_byte c = x2e ↔ c = x2e.
Proof. apply lower_is. by right; left. Qed.

Lemma lower_split m : split x2e (to_lower m) = to_lower <$> split x2e m.
Proof.
  induction m as [|c m IH]; [done|]. cbn [to_lower fmap list_fmap split]. fold (to_lower m). rewrite IH.
  destruct (decide (c = x2e)) as [->|Hc]; [by rewrite decide_True|]. rewrite decide_False by (by rewrite lower_dot).
  by destruct (split x2e m).
Qed.

Lemma lower_nil m : to_lower m = [] ↔ m = [].
Proof. by destruct m. Qed.
Lemma lower_star m : to_lower m = [x2a] ↔ m = [x2a].
Proof.
  split; [|by intros ->]. destruct m as [|c [|d m]]; try done. intros [= H].
  apply lower_is in H as ->; [done|by left].
Qed.

Lemma lower_label part : host_label (to_lower part) = host_label part.
Proof.
  destruct part as [|c part]; [done|]. cbn [to_lower fmap list_fmap host_label]. rewrite lower_host_char. f_equal.
  induction part as [|d part IH]; [done|]. cbn. by rewrite lower_host_char, IH.
Qed.

Lemma lower_valid m : validHostname (to_lower m) true = validHostname m true.
Proof.
  unfold validHostname. rewrite lower_split. rewrite (bool_decide_ext _ _ (lower_nil m)), (bool_decide_ext _ _ (lower_star m)).
  f_equal. destruct (split x2e m) as [|p ps]; [done|]. cbn [fmap list_fmap].
  rewrite (bool_decide_ext _ _ (lower_star p)), lower_label. f_equal.
  induction ps as [|q ps IH]; [done|]. cbn. by rewrite lower_label, IH.
Qed.

(** The names that match the host of the service. *)
Definition attest_names : list (list byte) := [bytes_of_string "attest.android.com"; bytes_of_string "*.android.com"].

Lemma verify_attest_host names :
  VerifyHostname names "attest.android.com" = true ↔ ∃ n, n ∈ names ∧ to_lower (bytes_of_string n) ∈ attest_names.
Proof.
  unfold VerifyHostname. change (to_lower (bytes_of_string "attest.android.com")) with (bytes_of_string "attest.android.com").
  change (validHostname (bytes_of_string "attest.android.com") false) with true. cbn [andb].
  rewrite existsb_exists. apply exist_proper. intros n. rewrite <-list_elem_of_In. apply and_iff_compat_l.
  set (m := bytes_of_string n). clearbody m. split.
  - destruct (validHostname m true) eqn:Ev.
    + unfold matchHostnames. intros H. destruct (split_spec x2e (to_lower m)) as [Hj _].
      change (split x2e (to_lower (if has_suffix [x2e] _ then _ else _))) with
        [bytes_of_string "attest"; bytes_of_string "android"; bytes_of_string "com"] in H.
      destruct (split x2e (to_lower m)) as [|p ps]; [by rewrite andb_false_r in H|].
      apply andb_true_iff in H as [_ [Hp ->%bool_decide_eq_true]%andb_true_iff]. rewrite <-Hj.
      apply orb_true_iff in Hp as [->%bool_decide_eq_true| ->%bool_decide_eq_true]; [by right; left|by left].
    + unfold matchExactly. intros [_ H%bool_decide_eq_true]%andb_true_iff. by rewrite H; left.
  - intros Hin. destruct (validHostname m true) eqn:Ev.
    + unfold matchHostnames. unfold attest_names in Hin. rewrite !elem_of_cons, elem_of_nil in Hin.
      destruct Hin as [->|[->|[]]]; by vm_compute.
    + rewrite <-lower_valid in Ev. unfold attest_names in Hin. rewrite !elem_of_cons, elem_of_nil in Hin.
      destruct Hin as [H|[H|[]]]; rewrite H in Ev; vm_compute in Ev; discriminate Ev.
Qed.
End HostnameLemmas.

(** ** Specification *)
Section SafetyNetLemmas.
Import SafetyNet.
Context {Ord : MapOrder} {X : X509} {RT : Runtime}.

(** A policy that pins an application and at least one integrity verdict. *)
Definition policy_ok (policy : Policy) : Prop :=
  ExpectedAPKPackageName policy ≠ "" ∧ ExpectedAPKCertificateSHA256 policy ≠ [] ∧ 0 < MaxAge policy ∧ 0 <= ClockSkew policy ∧
  (RequireCTSProfileMatch policy = true ∨ RequireBasicIntegrity policy = true) ∧
  Forall (λ d, length d = 32%nat) (ExpectedAPKCertificateSHA256 policy) ∧ "" ∉ AllowedVersions policy.

(** An integrity verdict: true where it is required, false when absent. *)
Definition verdict (ms : list (list byte * json)) (name : string) (required value : bool) : Prop :=
  get ms name = Some (JBool value) ∧ (required = true → value = true) ∨ get ms name = None ∧ value = false ∧ required = false.

Definition digest_json (d : list byte) : json := jstring (StdEncodeToString d).

Definition claims (ms : list (list byte * json)) (nonce version : string) (policy : Policy) (e : SafetyNetEvidence) : Prop :=
  (AllowedVersions policy = [] ∨ version ∈ AllowedVersions policy) ∧
  get ms "nonce" = Some (jstring nonce) ∧
  verdict ms "ctsProfileMatch" (RequireCTSProfileMatch policy) (sne_CTSProfileMatch e) ∧
  verdict ms "basicIntegrity" (RequireBasicIntegrity policy) (sne_BasicIntegrity e) ∧
  (∃ raw t, get ms "timestampMs" = Some (JNumber raw) ∧ um_int64 (Some (JNumber raw)) = Ok t ∧ 0 < t ∧
     sne_Timestamp e = UnixMilli t ∧ policy_now policy - MaxAge policy <= UnixMilli t <= policy_now policy + ClockSkew policy) ∧
  get ms "apkPackageName" = Some (jstring (ExpectedAPKPackageName policy)) ∧ sne_APKPackageName e = ExpectedAPKPackageName policy ∧
  get ms "apkCertificateDigestSha256" = Some (JArray (digest_json <$> sne_APKCertificateSHA256 e)) ∧
  Forall (λ d, length d = 32%nat) (sne_APKCertificateSHA256 e) ∧
  (∃ d, d ∈ sne_APKCertificateSHA256 e ∧ d ∈ ExpectedAPKCertificateSHA256 policy) ∧
  sne_Version e = version.

Definition safetynet_verified (v : SafetyNetVerifier) (ctx : context) (request : VerificationRequest) (r : VerificationResult) : Prop :=
  let st := vq_Statement request in
  vq_Format request = "android-safetynet" ∧ policy_ok (sv_policy v) ∧ AttStmt.fields_are ["ver"; "response"] st ∧
  bv_len (vq_AuthenticatorData request) ≠ 0 ∧ vq_ClientDataHash request ≠ [] ∧
  ∃ verifyJWS version token payload raw rest leaf ms e,
    sv_jwsVerifier v = Iface verifyJWS ∧ AttStmt.field st "ver" = SValue (VString version) ∧ version ≠ "" ∧
    AttStmt.is_bytes (AttStmt.field st "response") token ∧
    verifyJWS ctx token = Ok (mkJWSVerification payload (raw :: rest)) ∧
    x509_ParseCertificate raw = Ok leaf ∧ (∃ n, n ∈ xc_DNSNames leaf ∧ to_lower (bytes_of_string n) ∈ attest_names) ∧
    Json.parse payload = Some (JObject ms) ∧
    claims ms (StdEncodeToString (Sum256 (slice_list (bv_value (vq_AuthenticatorData request)) ++ vq_ClientDataHash request)))
      version (sv_policy v) e ∧
    r = mkVR TypeBasic (mkTrustPath TrustPathX509 (raw :: rest) None None) true [] (EvSafetyNet e).

Lemma validatePolicy_Ok policy u : validatePolicy policy = Ok u ↔ policy_ok policy.
Proof.
  destruct u. unfold validatePolicy, policy_ok, one_of. rewrite bind_Ok. setoid_rewrite bind_Ok. setoid_rewrite for_each_Ok. setoid_rewrite fail_if_Ok.
  split.
  - intros ([] & H1 & [] & H2 & H3). guards in H1. guards in H3. destruct H1 as ((((? & Hl) & ?) & ?) & ?).
    split_and!; try done; try lia.
    + by intros E; rewrite E in Hl.
    + destruct (RequireCTSProfileMatch policy), (RequireBasicIntegrity policy); auto.
    + eapply Forall_impl; [exact H2|]. intros d Hd. cbn beta in Hd. guards in Hd. lia.
  - intros (? & Hne & ? & ? & Hreq & Hd & Hv). exists (). guards. split_and!; try done; try lia.
    + by destruct (ExpectedAPKCertificateSHA256 policy).
    + destruct Hreq as [-> | ->]; [done|apply andb_false_r].
    + exists (). split; [eapply Forall_impl; [exact Hd|]; intros d Hl; cbn beta in *; guards; lia|]. guards. done.
Qed.

(** Claims of the JSON types. *)
Lemma string_claim raw s : payloadClaim unmarshal_string raw = Ok s ↔ raw = Some (jstring s).
Proof.
  unfold payloadClaim, jstring. split.
  - destruct raw as [[]|]; try done. cbn. intros [= <-]. by rewrite bytes_of_string_of_bytes.
  - intros ->. cbn. by rewrite string_of_bytes_of_string.
Qed.

Lemma int_claim raw t : payloadClaim um_int64 raw = Ok t ↔ ∃ n, raw = Some (JNumber n) ∧ um_int64 (Some (JNumber n)) = Ok t.
Proof.
  unfold payloadClaim. split.
  - destruct raw as [[]|]; try done. intros H%wrap_err_Ok. by eexists.
  - intros (n & -> & H). by apply wrap_err_Ok.
Qed.

Lemma verdict_Ok ms name required value :
  (∃ present, booleanPayloadClaim ms name = Ok (value, present) ∧ required && (negb present || negb value) = false) ↔
  verdict ms name required value.
Proof.
  unfold booleanPayloadClaim, verdict, payloadClaim. split.
  - intros (present & H & Hr). destruct (get ms name) as [raw|].
    + apply bind_Ok in H as (v & Hv & [= <- <-]). left. destruct raw; try done. injection Hv as ->. split; [done|].
      intros ->. by destruct v.
    + injection H as <- <-. right. rewrite orb_true_l, andb_true_r in Hr. done.
  - intros [[-> Hr]|(-> & -> & ->)]; [|by exists false]. exists true. split; [done|]. cbn.
    destruct required; [|done]. by rewrite Hr.
Qed.

Lemma digests_claim raw digests :
  (∃ texts, payloadClaim (um_list unmarshal_string) raw = Ok texts ∧ parseCertificateDigests texts = Ok digests) ↔
  raw = Some (JArray (digest_json <$> digests)) ∧ Forall (λ d, length d = 32%nat) digests ∧ digests ≠ [].
Proof.
  unfold parseCertificateDigests, digest_json. split.
  - intros (texts & Ht & H). apply bind_Ok in H as ([] & Hne%fail_if_Ok%bool_decide_eq_false & Hd%map_res_Ok).
    assert (Forall2 (λ t d, t = StdEncodeToString d ∧ length d = 32%nat) texts digests) as Hds.
    { eapply Forall2_impl; [exact Hd|]. intros t d H. cbn beta in H. apply bind_Ok in H as (b & _ & H).
      apply bind_Ok in H as ([] & Hb%fail_if_Ok & [= <-]). guards in Hb. destruct Hb as [? <-]. split; [done|lia]. }
    clear Hd. unfold payloadClaim in Ht. destruct raw as [[]|]; try done. apply wrap_err_Ok in Ht. cbn in Ht. apply map_res_Ok in Ht.
    assert (texts ≠ []) as Hnn by (by intros ->). clear Hne.
    split; [|split].
    + do 2 f_equal. clear Hnn. revert digests Hds. induction Ht as [|v t vs texts Hv _ IH]; intros digests Hds.
      * by apply Forall2_nil_inv_l in Hds as ->.
      * apply Forall2_cons_inv_l in Hds as (d & ds & [-> Hl] & Hds & ->). cbn. rewrite (IH ds Hds). f_equal.
        destruct v as [| | |s| |]; try done; cbn in Hv.
        -- injection Hv as Hv. apply (f_equal bytes_of_string) in Hv. unfold StdEncodeToString in Hv.
           rewrite bytes_of_string_of_bytes in Hv. destruct d as [|? [|? [|? ?]]]; cbn in Hl; try lia; discriminate Hv.
        -- injection Hv as Hv. unfold jstring. by rewrite <-Hv, bytes_of_string_of_bytes.
    + clear -Hds. induction Hds as [|t d ts ds [_ ?]]; constructor; done.
    + intros ->. by apply Forall2_nil_inv_r in Hds.
  - intros (-> & Hl & Hne). exists (StdEncodeToString <$> digests). split.
    + unfold payloadClaim. apply wrap_err_Ok. cbn. apply map_res_Ok.
      apply Forall2_fmap_l, Forall2_fmap_r. clear. induction digests; constructor; [apply um_string_jstring|done].
    + rewrite bool_decide_eq_false_2 by (by destruct digests). run. apply map_res_Ok, Forall2_fmap_l. clear Hne.
      induction Hl as [|d ds Hd _ IH]; constructor; [|done].
      cbv beta delta [compose]. destruct (proj2 (std_canonical (StdEncodeToString d) d) eq_refl) as [-> _]. run. rewrite Hd.
      by rewrite bool_decide_eq_true_2.
Qed.

Lemma contains_digest actual expected : containsExpectedDigest actual expected = true ↔ ∃ d, d ∈ actual ∧ d ∈ expected.
Proof.
  unfold containsExpectedDigest. rewrite existsb_exists. setoid_rewrite existsb_exists. setoid_rewrite bool_decide_eq_true.
  setoid_rewrite <-list_elem_of_In. naive_solver.
Qed.

Lemma validatePayload_Ok raw nonce version policy e : nonce ≠ "" →
  validatePayload raw nonce version policy = Ok e ↔
  ∃ ms, Json.parse raw = Some (JObject ms) ∧ claims ms nonce version policy e.
Proof.
  intros Hnn. unfold validatePayload. split.
  - intros H. apply bind_Ok in H as (ms & Hms%wrap_err_Ok & H). apply bind_Ok in H as ([] & Hver%fail_if_Ok & H).
    apply bind_Ok in H as (n & Hn%or_err_Ok%string_claim & H). do 2 apply bind_Ok in H as ([] & ?%fail_if_Ok & H).
    assert (n = nonce) as -> by (match goal with E : negb (bool_decide (n = nonce)) = false |- _ => by guards in E end).
    apply bind_Ok in H as ([cts cp] & Hc & H). apply bind_Ok in H as ([] & Hcr%fail_if_Ok & H).
    apply bind_Ok in H as ([basic bp] & Hb & H). apply bind_Ok in H as ([] & Hbr%fail_if_Ok & H).
    apply bind_Ok in H as (t & (num & Ht & Hti)%or_err_Ok%int_claim & H). apply bind_Ok in H as ([] & Hpos%fail_if_Ok%Z.leb_gt & H).
    apply bind_Ok in H as ([] & Hwin%fail_if_Ok & H). guards in Hwin.
    apply bind_Ok in H as (pkg & Hpkg%or_err_Ok%string_claim & H). apply bind_Ok in H as ([] & Hpn%fail_if_Ok & H). guards in Hpn. subst pkg.
    apply bind_Ok in H as (texts & Htexts & H). apply bind_Ok in H as (digests & Hdg%or_err_Ok & H).
    apply bind_Ok in H as ([] & Hcd%fail_if_Ok%negb_false_iff%contains_digest & [= <-]).
    destruct (proj1 (digests_claim _ _) (ex_intro _ texts (conj Htexts Hdg))) as (Hdj & Hdl & _).
    apply bind_Ok in Hms as (tree & Htree%of_option_Ok & Hms). destruct tree as [| | | | |ms']; try done.
    + injection Hms as <-. done.
    + apply bind_Ok in Hms as ([] & _ & [= ->]). exists ms. split; [done|]. unfold claims. cbn. split_and!; try done.
      * unfold one_of in Hver. destruct (AllowedVersions policy) as [|a l]; [by left|right].
        cbn [length] in Hver. rewrite bool_decide_eq_false_2 in Hver by done. cbn [negb andb] in Hver. by apply negb_false_iff, bool_decide_eq_true in Hver.
      * apply verdict_Ok. by exists cp.
      * apply verdict_Ok. by exists bp.
      * exists num, t. split_and!; try done; lia.
  - intros (ms & -> & Hver & Hn & (cp & Hc & Hcr)%verdict_Ok & (bp & Hb & Hbr)%verdict_Ok & (num & t & Ht & Hti & Hpos & Hts & Hwin) &
      Hpkg & Hpn & Hdj & Hdl & Hcd & Hv).
    assert (sne_APKCertificateSHA256 e ≠ []) as Hdne by (destruct Hcd as (d & Hd & _); intros E; rewrite E in Hd; by apply not_elem_of_nil in Hd).
    destruct (proj2 (digests_claim _ _) (conj Hdj (conj Hdl Hdne))) as (texts & Htexts & Hdg).
    cbn [of_option mbind result_bind um_struct andb fail_if]. run.
    assert (negb (bool_decide (length (AllowedVersions policy) = 0%nat)) && negb (one_of version (AllowedVersions policy)) = false) as ->.
    { unfold one_of. destruct Hver as [-> | Hin]; [done|]. apply andb_false_iff. right. by guards. }
    run. rewrite (proj2 (string_claim _ _) Hn). run. rewrite (bool_decide_eq_false_2 (nonce = "")), (bool_decide_eq_true_2 (nonce = nonce)) by done. run.
    rewrite Hc. run. rewrite Hcr. run. rewrite Hb. run. rewrite Hbr. run.
    rewrite (proj2 (int_claim _ _) (ex_intro _ num (conj Ht Hti))). run. rewrite (proj2 (Z.leb_gt _ _)) by lia. run.
    rewrite !(proj2 (Z.ltb_ge _ _)) by lia. run. rewrite (proj2 (string_claim _ _) Hpkg). run. rewrite (bool_decide_eq_true_2 (ExpectedAPKPackageName policy = _)) by done. run.
    rewrite Htexts. run. rewrite Hdg. run. rewrite (proj2 (contains_digest _ _) Hcd). run. rewrite <-Hts, <-Hpn, <-Hv. by destruct e.
Qed.

Lemma safetynet_statement st s : parseStatement st = Ok s ↔
  AttStmt.fields_are ["ver"; "response"] st ∧ AttStmt.field st "ver" = SValue (VString (sns_version s)) ∧ sns_version s ≠ "" ∧
  AttStmt.is_bytes (AttStmt.field st "response") (sns_response s).
Proof.
  unfold parseStatement. split.
  - intros H. apply bind_Ok in H as ([] & _ & H). apply bind_Ok in H as ([] & Hk & H). rewrite AttStmt.known_fields_Ok in Hk.
    apply bind_Ok in H as (ver & [Hv Hne]%AttStmt.String_Ok & H). apply bind_Ok in H as (resp & Hr%AttStmt.Bytes_Ok & [= <-]).
    split_and!; try done. apply (AttStmt.fields_present _ _ ["ver"; "response"]); try done.
    repeat constructor; [by rewrite Hv|by destruct Hr as [-> _]].
  - intros (Hf & Hv & Hne & Hr). rewrite (AttStmt.fields_are_size ["ver"; "response"] st) by (done || (repeat constructor; set_solver)).
    change (Z.of_nat (length ["ver"; "response"]) =? 2) with true. run.
    rewrite (proj2 (AttStmt.known_fields_Ok _ _ _ ())) by (intros key; apply Hf). run.
    rewrite (proj2 (AttStmt.String_Ok _ _ (sns_version s))) by done. run. rewrite (proj2 (AttStmt.Bytes_Ok _ _ _) Hr). run. by destruct s.
Qed.

Lemma nonce_not_empty a h : expectedNonce a h ≠ "".
Proof.
  unfold expectedNonce, StdEncodeToString. intros H. apply (f_equal bytes_of_string) in H. rewrite bytes_of_string_of_bytes in H.
  pose proof (length_Sum256 (AttCrypto.SignedData a h)) as Hl. apply (f_equal length) in H. unfold std_encode in H.
  rewrite length_app, length_fmap in H. destruct (Sum256 _) as [|? [|? [|? ?]]]; cbn in Hl; try lia. cbn in H. lia.
Qed.

Lemma safetynet_VerifyAttestation_Ok v ctx request r :
  VerifyAttestation v ctx request = Ok r ↔ safetynet_verified v ctx request r.
Proof.
  unfold VerifyAttestation, safetynet_verified, NewJWSToken. split.
  - intros H. apply bind_Ok in H as ([] & H1%fail_if_Ok & H). guards in H1. destruct H1 as [Hf _].
    apply bind_Ok in H as ([] & Hpol%validatePolicy_Ok & H). apply bind_Ok in H as ([ver tok] & (Hfs & Hv & Hvne & Ht)%safetynet_statement & H).
    apply bind_Ok in H as ([] & He%fail_if_Ok & H). guards in He. destruct He as [Ha Hh].
    apply bind_Ok in H as ([payload chain] & Hj%wrap_err_Ok & H). apply bind_Ok in H as ([] & Hcert & H).
    apply bind_Ok in H as (e & (ms & Hp & Hc)%validatePayload_Ok & [= <-]); [|apply nonce_not_empty].
    cbn in Hcert. destruct chain as [|raw rest]; [done|]. apply bind_Ok in Hcert as (leaf & Hleaf%wrap_err_Ok & Hhost%fail_if_Ok).
    apply negb_false_iff, verify_attest_host in Hhost. destruct (sv_jwsVerifier v) as [| |verify] eqn:Ej; try done.
    split_and!; try done; [by intros E; rewrite E in Hh|]. exists verify, ver, tok, payload, raw, rest, leaf, ms, e. split_and!; done.
  - intros (Hf & Hpol & Hfs & Ha & Hh & verify & ver & tok & payload & raw & rest & leaf & ms & e & Hj & Hv & Hvne & Ht & Hver & Hleaf & Hhost & Hp & Hc & ->).
    rewrite Hj, Hf. change (negb (bool_decide ("android-safetynet" = format)) || IsNil (Iface verify)) with false. run.
    rewrite (proj2 (validatePolicy_Ok _ ()) Hpol). run. rewrite (proj2 (safetynet_statement _ (mkStatement ver tok))) by done. run.
    rewrite (proj2 (Z.eqb_neq _ _) Ha), bool_decide_eq_false_2 by (by destruct (vq_ClientDataHash request)). run.
    cbn [sns_response sns_version]. rewrite Hver. run. cbn [jv_Certificates jv_Payload validateSafetyNetCertificate]. rewrite Hleaf. run.
    change safetyNetAttestDNSName with "attest.android.com". rewrite (proj2 (verify_attest_host _) Hhost). run.
    rewrite (proj2 (validatePayload_Ok payload _ ver (sv_policy v) e (nonce_not_empty _ _))); [done|]. by exists ms.
Qed.

(** ** Properties *)

(** C29: android-safetynet attestation is accepted exactly when the policy pins an
    application, a freshness window and an integrity verdict, the injected
    verifier accepts the statement's token with a leaf certificate for
    attest.android.com, and the signed payload is JSON that carries the hash of
    authenticator data and client data hash as nonce, the required verdicts, a
    timestamp inside the window, the expected package name and only 32-byte
    certificate digests, one of them expected. *)
Theorem safetynet_attestation_exact (v : SafetyNetVerifier) (ctx : context) (request : VerificationRequest) (r : VerificationResult) :
  VerifyAttestation v ctx request = Ok r ↔ safetynet_verified v ctx request r.
Proof. apply safetynet_VerifyAttestation_Ok. Qed.
End SafetyNetLemmas.
