(* ===== verification/Browser.v ===== *)
(** * Browser responses

    Models [src/browser/responses.go] and [src/browser/errors.go]: the JSON a
    browser's [PublicKeyCredential.toJSON] produces for the two ceremonies,
    decoded into the transport-neutral responses.  The wire structs have pointer
    members, so that a missing or null member is told from an empty one;
    unknown members are ignored.  The loop over the extension results visits
    them in the order of the text. *)
From S2P Require Import Prelude Base64 GoStrings Json AuthData ClientData ExtValue Types Extension Registration Authentication JsonText.
Set Default Goal Selector "!".
Local Open Scope Z_scope.

Module Browser.
Definition ErrMalformedJSON : error := Sentinel "browser.ErrMalformedJSON".
Definition ErrInvalidBase64URL : error := Sentinel "browser.ErrInvalidBase64URL".
Definition ErrInvalidProtocolValue : error := Sentinel "browser.ErrInvalidProtocolValue".
Definition MaxResponseJSONBytes : Z := Z.shiftl 1 20.

(** Extension members as value trees. *)
Definition ExtensionJSON : Type := list (string * json).

Record attestationResponseWire := mkAttestationResponseWire {
  aw_ClientDataJSON : option string;
  aw_AuthenticatorData : option string;
  aw_Transports : option (list string);
  aw_PublicKey : option string;
  aw_PublicKeyAlgorithm : option Z;
  aw_AttestationObject : option string;
}.

Record registrationCredentialWire := mkRegistrationCredentialWire {
  rw_ID : option string;
  rw_RawID : option string;
  rw_Type : option string;
  rw_Response : option attestationResponseWire;
  rw_AuthenticatorAttachment : string;
  rw_ClientExtensionResults : option ExtensionJSON;
}.

Record assertionResponseWire := mkAssertionResponseWire {
  sw_ClientDataJSON : option string;
  sw_AuthenticatorData : option string;
  sw_Signature : option string;
  sw_UserHandle : option string;
}.

Record authenticationCredentialWire := mkAuthenticationCredentialWire {
  uw_ID : option string;
  uw_RawID : option string;
  uw_Type : option string;
  uw_Response : option assertionResponseWire;
  uw_AuthenticatorAttachment : string;
  uw_ClientExtensionResults : option ExtensionJSON;
}.

(** ** [json.Unmarshal] into the wire structs *)
Definition um_string_ptr : option json → result (option string) := um_ptr unmarshal_string.

(** [map[string]jsontext.Value]: members are kept as they are. *)
Definition um_raw (v : option json) : result json := Ok (default JNull v).
Definition um_extension_results : option json → result (option ExtensionJSON) := um_ptr (um_map um_raw).

Definition um_attestationResponse (v : option json) : result attestationResponseWire :=
  ms ← um_struct false [] v;
  clientDataJSON ← um_string_ptr (get ms "clientDataJSON");
  authenticatorData ← um_string_ptr (get ms "authenticatorData");
  transports ← um_ptr (um_list unmarshal_string) (get ms "transports");
  publicKey ← um_string_ptr (get ms "publicKey");
  algorithm ← um_ptr um_int64 (get ms "publicKeyAlgorithm");
  attestationObject ← um_string_ptr (get ms "attestationObject");
  Ok (mkAttestationResponseWire clientDataJSON authenticatorData transports publicKey algorithm attestationObject).

Definition um_registrationCredential (v : option json) : result registrationCredentialWire :=
  ms ← um_struct false [] v;
  id ← um_string_ptr (get ms "id");
  rawId ← um_string_ptr (get ms "rawId");
  type ← um_string_ptr (get ms "type");
  response ← um_ptr um_attestationResponse (get ms "response");
  attachment ← unmarshal_string (get ms "authenticatorAttachment");
  results ← um_extension_results (get ms "clientExtensionResults");
  Ok (mkRegistrationCredentialWire id rawId type response attachment results).

Definition um_assertionResponse (v : option json) : result assertionResponseWire :=
  ms ← um_struct false [] v;
  clientDataJSON ← um_string_ptr (get ms "clientDataJSON");
  authenticatorData ← um_string_ptr (get ms "authenticatorData");
  signature ← um_string_ptr (get ms "signature");
  userHandle ← um_string_ptr (get ms "userHandle");
  Ok (mkAssertionResponseWire clientDataJSON authenticatorData signature userHandle).

Definition um_authenticationCredential (v : option json) : result authenticationCredentialWire :=
  ms ← um_struct false [] v;
  id ← um_string_ptr (get ms "id");
  rawId ← um_string_ptr (get ms "rawId");
  type ← um_string_ptr (get ms "type");
  response ← um_ptr um_assertionResponse (get ms "response");
  attachment ← unmarshal_string (get ms "authenticatorAttachment");
  results ← um_extension_results (get ms "clientExtensionResults");
  Ok (mkAuthenticationCredentialWire id rawId type response attachment results).

(** ** Errors and byte members *)
Definition protocolValueError (field : string) (e : error) : error := ErrorWrap (ErrorText ErrInvalidProtocolValue field) e.
Definition requiredMemberError (field : string) : error :=
  protocolValueError field (ErrorNew "required member is missing or null").

Definition validateResponseJSONSize (data : list byte) : result () :=
  fail_if (bool_decide (data = []) || (MaxResponseJSONBytes <? Z.of_nat (length data))) (ErrorText ErrMalformedJSON "response size").

Definition unmarshalBrowserJSON {T} (target : option json → result T) (data : list byte) : result T :=
  wrap_err ErrMalformedJSON (tree ← of_option errUnmarshal (Json.parse data); target (Some tree)).

Definition decodeBase64URL (field : string) (encoded : string) : result (list byte) :=
  bytes ← of_option (ErrorWrap (ErrorText ErrInvalidBase64URL field) errCorruptInput) (DecodeString encoded);
  _ ← fail_if (negb (bool_decide (EncodeToString bytes = encoded))) (ErrorText ErrInvalidBase64URL (field +:+ ": non-canonical encoding"));
  Ok bytes.

(** The six functions of the form [xFromBase64URL]. *)
Definition fromBase64URL (construct : slice byte → result byteValue) (field : string) (encoded : string) : result byteValue :=
  bytes ← decodeBase64URL field encoded;
  map_err (protocolValueError field) (construct (Some bytes)).
Definition rawIDFromBase64URL : string → string → result RawID := fromBase64URL NewRawID.
Definition clientDataJSONFromBase64URL : string → string → result ClientDataJSON := fromBase64URL NewClientDataJSON.
Definition attestationObjectFromBase64URL : string → string → result AttestationObject := fromBase64URL NewAttestationObject.
Definition authenticatorDataFromBase64URL : string → string → result AuthenticatorData := fromBase64URL NewAuthenticatorData.
Definition signatureFromBase64URL : string → string → result Signature := fromBase64URL NewSignature.

Definition optionalUserHandleFromBase64URL (field : string) (encoded : option string) : result UserHandle :=
  match encoded with None => Ok (mkByteValue None) | Some encoded => fromBase64URL NewUserHandle field encoded end.
Definition optionalBytesFromBase64URL (field : string) (encoded : option string) : result (slice byte) :=
  match encoded with None => Ok None | Some encoded => bytes ← decodeBase64URL field encoded; Ok (Some bytes) end.

(** ** Extension results *)
Section Results.
Context {Floats : FloatText} {Ord : MapOrder} {Custom : CustomTypes}.

(** [json.Unmarshal] into an [any]. *)
Fixpoint any_of_json (v : json) : result value :=
  match v with
  | JNull => Ok VNil
  | JBool b => Ok (VBool b)
  | JNumber raw => f ← of_option errUnmarshal (parse_float raw); Ok (VFloat "float64" f)
  | JString s => Ok (VString (string_of_bytes s))
  | JArray vs =>
      items ← (fix go vs := match vs with [] => Ok [] | v :: vs => x ← any_of_json v; xs ← go vs; Ok (x :: xs) end) vs;
      Ok (VSeq slice_any items)
  | JObject ms =>
      entries ← (fix go ms := match ms with
                 | [] => Ok []
                 | (k, v) :: ms => x ← any_of_json v; xs ← go ms; Ok ((KString (string_of_bytes k), x) :: xs)
                 end) ms;
      Ok (VMap map_string_any entries)
  end.

(** [fields, ok := value.(map[string]any)] *)
Definition as_object (v : value) : option (list (mapkey * value)) :=
  match v with VMap ty entries => if bool_decide (ty = map_string_any) then Some entries else None | _ => None end.

(** [fields[name]] and [fields[name] = v] for a present member. *)
Fixpoint entry (name : string) (entries : list (mapkey * value)) : option value :=
  match entries with
  | [] => None
  | (k, v) :: entries => if decide (k = KString name) then Some v else entry name entries
  end.
Definition set_entry (name : string) (v : value) (entries : list (mapkey * value)) : list (mapkey * value) :=
  (λ e, if decide (e.1 = KString name) then (e.1, v) else e) <$> entries.

(** A string member replaced by the bytes it encodes. *)
Definition decodeMember (path name : string) (entries : list (mapkey * value)) : result (list (mapkey * value)) :=
  match entry name entries with
  | Some (VString encoded) => decoded ← decodeBase64URL path encoded; Ok (set_entry name (VBytes (Some decoded)) entries)
  | _ => Ok entries
  end.

Definition prfOutputFromJSON (v : value) : result value :=
  match as_object v with
  | None => Ok v
  | Some out =>
      match entry "results" out with
      | Some results =>
          match as_object results with
          | Some converted =>
              converted ← decodeMember "clientExtensionResults.prf.results.first" "first" converted;
              converted ← decodeMember "clientExtensionResults.prf.results.second" "second" converted;
              Ok (VMap map_string_any (set_entry "results" (VMap map_string_any converted) out))
          | None => Ok (VMap map_string_any out)
          end
      | None => Ok (VMap map_string_any out)
      end
  end.

Definition largeBlobOutputFromJSON (v : value) : result value :=
  match as_object v with
  | None => Ok v
  | Some out =>
      out ← decodeMember "clientExtensionResults.largeBlob.blob" "blob" out;
      Ok (VMap map_string_any out)
  end.

(** The conversion of one result. *)
Definition resultFromJSON (id : string) (encoded : json) : result value :=
  v ← map_err (protocolValueError ("clientExtensionResults." +:+ id)) (any_of_json encoded);
  if negb (bool_decide (id = IDLargeBlob)) then
    if bool_decide (id = IDPRF) then prfOutputFromJSON v else Ok v
  else largeBlobOutputFromJSON v.

Fixpoint results_loop (results : ExtensionJSON) (out : gmap string value) : result (gmap string value) :=
  match results with
  | [] => Ok out
  | (id, encoded) :: results =>
      v ← resultFromJSON id encoded;
      results_loop results (<[id := v]> out)
  end.

Definition clientExtensionResultsFromJSON (results : ExtensionJSON) : result ClientOutputs :=
  if bool_decide (length results = 0%nat) then Ok ∅
  else
    out ← results_loop results ∅;
    map_err (protocolValueError "clientExtensionResults") (ClientOutputsFromRaw out).

(** ** Responses *)
Definition RegistrationResponseFromJSON (data : list byte) : result RegistrationResponse :=
  _ ← validateResponseJSONSize data;
  wire ← unmarshalBrowserJSON um_registrationCredential data;
  rawIDText ← of_option (requiredMemberError "registration response") (rw_RawID wire);
  type ← of_option (requiredMemberError "registration response") (rw_Type wire);
  _ ← map_err (protocolValueError "type") (PublicKeyCredentialType_Validate type);
  rawID ← rawIDFromBase64URL "rawId" rawIDText;
  id ← of_option (requiredMemberError "registration response") (rw_ID wire);
  response ← of_option (requiredMemberError "registration response") (rw_Response wire);
  results ← of_option (requiredMemberError "registration response") (rw_ClientExtensionResults wire);
  clientDataText ← of_option (requiredMemberError "response") (aw_ClientDataJSON response);
  authenticatorDataText ← of_option (requiredMemberError "response") (aw_AuthenticatorData response);
  transports ← of_option (requiredMemberError "response") (aw_Transports response);
  algorithm ← of_option (requiredMemberError "response") (aw_PublicKeyAlgorithm response);
  attestationText ← of_option (requiredMemberError "response") (aw_AttestationObject response);
  _ ← fail_if (negb (bool_decide (id = EncodeToString (slice_list (bv_bytes rawID)))))
        (protocolValueError "id" (ErrorNew "id does not match rawId"));
  clientDataJSON ← clientDataJSONFromBase64URL "response.clientDataJSON" clientDataText;
  authenticatorData ← authenticatorDataFromBase64URL "response.authenticatorData" authenticatorDataText;
  attestationObject ← attestationObjectFromBase64URL "response.attestationObject" attestationText;
  _ ← optionalBytesFromBase64URL "response.publicKey" (aw_PublicKey response);
  _ ← fail_if (algorithm =? 0) (protocolValueError "response.publicKeyAlgorithm" (ErrorNew "algorithm is required"));
  clientExtensions ← clientExtensionResultsFromJSON results;
  Ok {| rr_Type := type; rr_RawID := rawID; rr_ClientDataJSON := clientDataJSON;
        rr_AuthenticatorData := authenticatorData; rr_AttestationObject := attestationObject;
        rr_PublicKeyAlgorithm := algorithm; rr_Transports := transports;
        rr_AuthenticatorAttachment := rw_AuthenticatorAttachment wire; rr_ClientExtensionResults := clientExtensions |}.

Definition AuthenticationResponseFromJSON (data : list byte) : result AuthenticationResponse :=
  _ ← validateResponseJSONSize data;
  wire ← unmarshalBrowserJSON um_authenticationCredential data;
  rawIDText ← of_option (requiredMemberError "authentication response") (uw_RawID wire);
  type ← of_option (requiredMemberError "authentication response") (uw_Type wire);
  _ ← map_err (protocolValueError "type") (PublicKeyCredentialType_Validate type);
  rawID ← rawIDFromBase64URL "rawId" rawIDText;
  id ← of_option (requiredMemberError "authentication response") (uw_ID wire);
  response ← of_option (requiredMemberError "authentication response") (uw_Response wire);
  results ← of_option (requiredMemberError "authentication response") (uw_ClientExtensionResults wire);
  clientDataText ← of_option (requiredMemberError "response") (sw_ClientDataJSON response);
  authenticatorDataText ← of_option (requiredMemberError "response") (sw_AuthenticatorData response);
  signatureText ← of_option (requiredMemberError "response") (sw_Signature response);
  _ ← fail_if (negb (bool_decide (id = EncodeToString (slice_list (bv_bytes rawID)))))
        (protocolValueError "id" (ErrorNew "id does not match rawId"));
  clientDataJSON ← clientDataJSONFromBase64URL "response.clientDataJSON" clientDataText;
  authenticatorData ← authenticatorDataFromBase64URL "response.authenticatorData" authenticatorDataText;
  signature ← signatureFromBase64URL "response.signature" signatureText;
  userHandle ← optionalUserHandleFromBase64URL "response.userHandle" (sw_UserHandle response);
  clientExtensions ← clientExtensionResultsFromJSON results;
  Ok {| ar_Type := type; ar_RawID := rawID; ar_ClientDataJSON := clientDataJSON;
        ar_AuthenticatorData := authenticatorData; ar_Signature := signature; ar_UserHandle := userHandle;
        ar_AuthenticatorAttachment := uw_AuthenticatorAttachment wire; ar_ClientExtensionResults := clientExtensions |}.
End Results.
End Browser.

(** ** Specification *)
Section Spec.
Context {Floats : FloatText} {Ord : MapOrder} {Custom : CustomTypes}.
Import Browser.

(** The member is the canonical text of the bytes. *)
Definition bytes_member (ms : list (list byte * json)) (name : string) (b : byteValue) : Prop :=
  get ms name = Some (jstring (EncodeToString (slice_list (bv_value b)))).
Definition optional_bytes_member (ms : list (list byte * json)) (name : string) : Prop :=
  get ms name = None ∨ get ms name = Some JNull ∨ ∃ b, get ms name = Some (jstring (EncodeToString b)).

(** Members of both kinds of response. *)
Definition credential_members (ms rs results : list (list byte * json)) (type : string) (rawID : RawID) (attachment : string)
    (outputs : ClientOutputs) : Prop :=
  type = CredentialTypePublicKey ∧ get ms "type" = Some (jstring type) ∧
  bytes_member ms "rawId" rawID ∧ bytes_member ms "id" rawID ∧ NewRawID (bv_value rawID) = Ok rawID ∧
  get ms "response" = Some (JObject rs) ∧ unmarshal_string (get ms "authenticatorAttachment") = Ok attachment ∧
  get ms "clientExtensionResults" = Some (JObject results) ∧
  clientExtensionResultsFromJSON ((λ m, (string_of_bytes m.1, m.2)) <$> results) = Ok outputs.

Definition registration_members (ms rs results : list (list byte * json)) (r : RegistrationResponse) : Prop :=
  credential_members ms rs results (rr_Type r) (rr_RawID r) (rr_AuthenticatorAttachment r) (rr_ClientExtensionResults r) ∧
  bytes_member rs "clientDataJSON" (rr_ClientDataJSON r) ∧ NewClientDataJSON (bv_value (rr_ClientDataJSON r)) = Ok (rr_ClientDataJSON r) ∧
  bytes_member rs "authenticatorData" (rr_AuthenticatorData r) ∧
  NewAuthenticatorData (bv_value (rr_AuthenticatorData r)) = Ok (rr_AuthenticatorData r) ∧
  bytes_member rs "attestationObject" (rr_AttestationObject r) ∧
  NewAttestationObject (bv_value (rr_AttestationObject r)) = Ok (rr_AttestationObject r) ∧
  (∃ ts, get rs "transports" = Some (JArray ts) ∧ map_res (λ t, unmarshal_string (Some t)) ts = Ok (rr_Transports r)) ∧
  (∃ raw, get rs "publicKeyAlgorithm" = Some (JNumber raw) ∧ um_int64 (Some (JNumber raw)) = Ok (rr_PublicKeyAlgorithm r)) ∧
  rr_PublicKeyAlgorithm r ≠ 0 ∧ optional_bytes_member rs "publicKey".

Definition authentication_members (ms rs results : list (list byte * json)) (r : AuthenticationResponse) : Prop :=
  credential_members ms rs results (ar_Type r) (ar_RawID r) (ar_AuthenticatorAttachment r) (ar_ClientExtensionResults r) ∧
  bytes_member rs "clientDataJSON" (ar_ClientDataJSON r) ∧ NewClientDataJSON (bv_value (ar_ClientDataJSON r)) = Ok (ar_ClientDataJSON r) ∧
  bytes_member rs "authenticatorData" (ar_AuthenticatorData r) ∧
  NewAuthenticatorData (bv_value (ar_AuthenticatorData r)) = Ok (ar_AuthenticatorData r) ∧
  bytes_member rs "signature" (ar_Signature r) ∧ NewSignature (bv_value (ar_Signature r)) = Ok (ar_Signature r) ∧
  ((get rs "userHandle" = None ∨ get rs "userHandle" = Some JNull) ∧ ar_UserHandle r = mkByteValue None ∨
   bytes_member rs "userHandle" (ar_UserHandle r) ∧ NewUserHandle (bv_value (ar_UserHandle r)) = Ok (ar_UserHandle r)).

(** ** Lemmas *)
Lemma um_ptr_present {A} (f : option json → result A) o x :
  um_ptr f o = Ok (Some x) ↔ ∃ v, o = Some v ∧ v ≠ JNull ∧ f (Some v) = Ok x.
Proof.
  unfold um_ptr. split.
  - intros H. destruct o as [v|]; [|done]. exists v. destruct v; try done; apply bind_Ok in H as (y & Hy & [= ->]); done.
  - intros (v & -> & Hv & Hf). rewrite Hf. by destruct v.
Qed.

Lemma um_ptr_absent {A} (f : option json → result A) o : um_ptr f o = Ok None ↔ o = None ∨ o = Some JNull.
Proof.
  unfold um_ptr. split.
  - intros H. destruct o as [v|]; [|by left]. destruct v; try (by right); apply bind_Ok in H as (y & Hy & [= ?]).
  - by intros [->| ->].
Qed.

Lemma um_string_ptr_present o s : um_string_ptr o = Ok (Some s) ↔ o = Some (jstring s).
Proof.
  unfold um_string_ptr. rewrite um_ptr_present. split.
  - intros (v & -> & Hv & H). destruct v; try done. cbn in H. injection H as <-. unfold jstring. by rewrite bytes_of_string_of_bytes.
  - intros ->. exists (jstring s). split_and!; try done. apply um_string_jstring.
Qed.

Lemma um_struct_any v ms : v ≠ JNull → um_struct false [] (Some v) = Ok ms ↔ v = JObject ms.
Proof. intros Hv. destruct v; try done. cbn. split; [by intros [= ->]|by intros [= ->]]. Qed.

Lemma decodeBase64URL_Ok field t b : decodeBase64URL field t = Ok b ↔ t = EncodeToString b.
Proof.
  unfold decodeBase64URL. split.
  - intros H. apply bind_Ok in H as (c & _ & H). apply bind_Ok in H as ([] & Hc%fail_if_Ok%negb_false_iff%bool_decide_eq_true & [= <-]). done.
  - intros ->. rewrite decode_encode. run. by rewrite bool_decide_eq_true_2.
Qed.

Lemma fromBase64URL_Ok name lo hi field t b : 1 <= lo →
  fromBase64URL (λ v, newByteValue name v lo hi) field t = Ok b ↔
  t = EncodeToString (slice_list (bv_value b)) ∧ newByteValue name (bv_value b) lo hi = Ok b.
Proof.
  intros Hlo. unfold fromBase64URL. split.
  - intros H. apply bind_Ok in H as (raw & ->%decodeBase64URL_Ok & H%map_err_Ok). pose proof H as (-> & _)%newByteValue_Ok. done.
  - intros [-> H]. rewrite (proj2 (decodeBase64URL_Ok _ _ (slice_list (bv_value b))) eq_refl). run.
    pose proof H as (_ & Hmin & _)%newByteValue_Ok. destruct b as [[b|]]; [|unfold slice_len in Hmin; cbn in Hmin; lia]. apply map_err_Ok. exact H.
Qed.

Lemma optionalBytes_Ok field o b : optionalBytesFromBase64URL field o = Ok b ↔
  o = None ∧ b = None ∨ ∃ raw, o = Some (EncodeToString raw) ∧ b = Some raw.
Proof.
  unfold optionalBytesFromBase64URL. destruct o as [t|].
  - split.
    + intros H. apply bind_Ok in H as (raw & ->%decodeBase64URL_Ok & [= <-]). right. by exists raw.
    + intros [[? _]|(raw & [= ->] & ->)]; [done|]. by rewrite (proj2 (decodeBase64URL_Ok _ _ raw) eq_refl).
  - split; [intros [= <-]; by left|]. by intros [[_ ->]|(raw & ? & _)].
Qed.

Lemma um_map_raw ms : um_map um_raw (Some (JObject ms)) = Ok ((λ m, (string_of_bytes m.1, m.2)) <$> ms).
Proof. cbn. apply map_res_Ok. induction ms as [|m ms IH]; constructor; done. Qed.
Lemma um_results_present o l : um_extension_results o = Ok (Some l) ↔
  ∃ ms, o = Some (JObject ms) ∧ l = (λ m, (string_of_bytes m.1, m.2)) <$> ms.
Proof.
  unfold um_extension_results. rewrite um_ptr_present. split.
  - intros (v & -> & Hv & H). destruct v; try done. rewrite um_map_raw in H. injection H as <-. by eexists.
  - intros (ms & -> & ->). exists (JObject ms). split_and!; try done. apply um_map_raw.
Qed.

(** The members of the wire structs. *)
Lemma um_attestationResponse_Ok rs w : um_attestationResponse (Some (JObject rs)) = Ok w ↔
  um_string_ptr (get rs "clientDataJSON") = Ok (aw_ClientDataJSON w) ∧
  um_string_ptr (get rs "authenticatorData") = Ok (aw_AuthenticatorData w) ∧
  um_ptr (um_list unmarshal_string) (get rs "transports") = Ok (aw_Transports w) ∧
  um_string_ptr (get rs "publicKey") = Ok (aw_PublicKey w) ∧
  um_ptr um_int64 (get rs "publicKeyAlgorithm") = Ok (aw_PublicKeyAlgorithm w) ∧
  um_string_ptr (get rs "attestationObject") = Ok (aw_AttestationObject w).
Proof.
  unfold um_attestationResponse. cbn [um_struct andb fail_if mbind result_bind]. split.
  - intros H. res_inv. done.
  - intros (H1 & H2 & H3 & H4 & H5 & H6). rewrite H1, H2, H3, H4, H5, H6. run. by destruct w.
Qed.

Lemma um_assertionResponse_Ok rs w : um_assertionResponse (Some (JObject rs)) = Ok w ↔
  um_string_ptr (get rs "clientDataJSON") = Ok (sw_ClientDataJSON w) ∧
  um_string_ptr (get rs "authenticatorData") = Ok (sw_AuthenticatorData w) ∧
  um_string_ptr (get rs "signature") = Ok (sw_Signature w) ∧
  um_string_ptr (get rs "userHandle") = Ok (sw_UserHandle w).
Proof.
  unfold um_assertionResponse. cbn [um_struct andb fail_if mbind result_bind]. split.
  - intros H. res_inv. done.
  - intros (H1 & H2 & H3 & H4). rewrite H1, H2, H3, H4. run. by destruct w.
Qed.

Lemma um_registrationCredential_Ok tree w x : rw_RawID w = Some x →
  um_registrationCredential (Some tree) = Ok w ↔ ∃ ms, tree = JObject ms ∧
  um_string_ptr (get ms "id") = Ok (rw_ID w) ∧ um_string_ptr (get ms "rawId") = Ok (rw_RawID w) ∧
  um_string_ptr (get ms "type") = Ok (rw_Type w) ∧ um_ptr um_attestationResponse (get ms "response") = Ok (rw_Response w) ∧
  unmarshal_string (get ms "authenticatorAttachment") = Ok (rw_AuthenticatorAttachment w) ∧
  um_extension_results (get ms "clientExtensionResults") = Ok (rw_ClientExtensionResults w).
Proof.
  intros Hx. unfold um_registrationCredential. split.
  - intros H. apply bind_Ok in H as (ms & Hms & H). destruct tree; try done; cbn in Hms; injection Hms as <-.
    + cbn in H. injection H as <-. discriminate Hx.
    + exists members. split; [done|]. res_inv. done.
  - intros (ms & -> & H1 & H2 & H3 & H4 & H5 & H6). cbn [um_struct andb fail_if mbind result_bind].
    rewrite H1, H2, H3, H4, H5, H6. run. by destruct w.
Qed.

Lemma um_authenticationCredential_Ok tree w x : uw_RawID w = Some x →
  um_authenticationCredential (Some tree) = Ok w ↔ ∃ ms, tree = JObject ms ∧
  um_string_ptr (get ms "id") = Ok (uw_ID w) ∧ um_string_ptr (get ms "rawId") = Ok (uw_RawID w) ∧
  um_string_ptr (get ms "type") = Ok (uw_Type w) ∧ um_ptr um_assertionResponse (get ms "response") = Ok (uw_Response w) ∧
  unmarshal_string (get ms "authenticatorAttachment") = Ok (uw_AuthenticatorAttachment w) ∧
  um_extension_results (get ms "clientExtensionResults") = Ok (uw_ClientExtensionResults w).
Proof.
  intros Hx. unfold um_authenticationCredential. split.
  - intros H. apply bind_Ok in H as (ms & Hms & H). destruct tree; try done; cbn in Hms; injection Hms as <-.
    + cbn in H. injection H as <-. discriminate Hx.
    + exists members. split; [done|]. res_inv. done.
  - intros (ms & -> & H1 & H2 & H3 & H4 & H5 & H6). cbn [um_struct andb fail_if mbind result_bind].
    rewrite H1, H2, H3, H4, H5, H6. run. by destruct w.
Qed.

Lemma um_response_present {W} (f : option json → result W) o w : (∀ v, f (Some v) = Ok w → v = JNull ∨ ∃ rs, v = JObject rs) →
  um_ptr f o = Ok (Some w) ↔ ∃ rs, o = Some (JObject rs) ∧ f (Some (JObject rs)) = Ok w.
Proof.
  intros Hf. rewrite um_ptr_present. split.
  - intros (v & -> & Hv & H). destruct (Hf v H) as [->|[rs ->]]; [done|by exists rs].
  - intros (rs & -> & H). by exists (JObject rs).
Qed.

Lemma PublicKeyType_Ok t u : map_err (protocolValueError "type") (PublicKeyCredentialType_Validate t) = Ok u ↔ t = CredentialTypePublicKey.
Proof. by rewrite map_err_Ok, PublicKeyCredentialType_Validate_Ok. Qed.

Lemma attestationResponse_object v w : um_attestationResponse (Some v) = Ok w → v = JNull ∨ ∃ rs, v = JObject rs.
Proof. destruct v; try done; intros _; [by left|right; by eexists]. Qed.
Lemma assertionResponse_object v w : um_assertionResponse (Some v) = Ok w → v = JNull ∨ ∃ rs, v = JObject rs.
Proof. destruct v; try done; intros _; [by left|right; by eexists]. Qed.

(** What the two functions demand of the decoded structs. *)
Definition b64 (b : byteValue) : option string := Some (EncodeToString (slice_list (bv_value b))).

Definition credential_accepts (id rawID type : option string) (results : option ExtensionJSON) (r_type : string) (r_rawID : RawID)
    (outputs : ClientOutputs) : Prop :=
  rawID = b64 r_rawID ∧ id = b64 r_rawID ∧ NewRawID (bv_value r_rawID) = Ok r_rawID ∧ r_type = CredentialTypePublicKey ∧
  type = Some r_type ∧ ∃ l, results = Some l ∧ clientExtensionResultsFromJSON l = Ok outputs.

Definition registration_accepts (w : registrationCredentialWire) (r : RegistrationResponse) : Prop :=
  credential_accepts (rw_ID w) (rw_RawID w) (rw_Type w) (rw_ClientExtensionResults w) (rr_Type r) (rr_RawID r) (rr_ClientExtensionResults r) ∧
  rw_AuthenticatorAttachment w = rr_AuthenticatorAttachment r ∧ ∃ resp, rw_Response w = Some resp ∧
  aw_ClientDataJSON resp = b64 (rr_ClientDataJSON r) ∧ NewClientDataJSON (bv_value (rr_ClientDataJSON r)) = Ok (rr_ClientDataJSON r) ∧
  aw_AuthenticatorData resp = b64 (rr_AuthenticatorData r) ∧
  NewAuthenticatorData (bv_value (rr_AuthenticatorData r)) = Ok (rr_AuthenticatorData r) ∧
  aw_AttestationObject resp = b64 (rr_AttestationObject r) ∧
  NewAttestationObject (bv_value (rr_AttestationObject r)) = Ok (rr_AttestationObject r) ∧
  aw_Transports resp = Some (rr_Transports r) ∧ aw_PublicKeyAlgorithm resp = Some (rr_PublicKeyAlgorithm r) ∧
  rr_PublicKeyAlgorithm r ≠ 0 ∧ (aw_PublicKey resp = None ∨ ∃ b, aw_PublicKey resp = Some (EncodeToString b)).

Definition authentication_accepts (w : authenticationCredentialWire) (r : AuthenticationResponse) : Prop :=
  credential_accepts (uw_ID w) (uw_RawID w) (uw_Type w) (uw_ClientExtensionResults w) (ar_Type r) (ar_RawID r) (ar_ClientExtensionResults r) ∧
  uw_AuthenticatorAttachment w = ar_AuthenticatorAttachment r ∧ ∃ resp, uw_Response w = Some resp ∧
  sw_ClientDataJSON resp = b64 (ar_ClientDataJSON r) ∧ NewClientDataJSON (bv_value (ar_ClientDataJSON r)) = Ok (ar_ClientDataJSON r) ∧
  sw_AuthenticatorData resp = b64 (ar_AuthenticatorData r) ∧
  NewAuthenticatorData (bv_value (ar_AuthenticatorData r)) = Ok (ar_AuthenticatorData r) ∧
  sw_Signature resp = b64 (ar_Signature r) ∧ NewSignature (bv_value (ar_Signature r)) = Ok (ar_Signature r) ∧
  (sw_UserHandle resp = None ∧ ar_UserHandle r = mkByteValue None ∨
   sw_UserHandle resp = b64 (ar_UserHandle r) ∧ NewUserHandle (bv_value (ar_UserHandle r)) = Ok (ar_UserHandle r)).

(** One step of a function that succeeds. *)
Ltac ok_step :=
  apply bind_Ok; eexists; split;
  [solve [apply of_option_Ok; eassumption
         | by apply (PublicKeyType_Ok _ ())
         | apply fromBase64URL_Ok; [done|split; [reflexivity|eassumption]]
         | apply (fail_if_Ok _ _ ()); try apply negb_false_iff; (apply bool_decide_eq_true; reflexivity) || (by apply Z.eqb_neq)
         | eassumption]|].
(** And backwards: the facts a successful step shows. *)
Ltac ok_back H :=
  let x := fresh "x" in let E := fresh "E" in
  apply bind_Ok in H as (x & E & H);
  first [apply of_option_Ok in E
        | apply PublicKeyType_Ok in E; subst
        | apply fromBase64URL_Ok in E as [-> E]; [|done]
        | apply fail_if_Ok in E
        | idtac].

Lemma unmarshal_step {T R} (target : option json → result T) data (k : T → result R) r :
  (_ ← validateResponseJSONSize data; wire ← unmarshalBrowserJSON target data; k wire) = Ok r ↔
  Z.of_nat (length data) <= MaxResponseJSONBytes ∧ ∃ tree w, Json.parse data = Some tree ∧ target (Some tree) = Ok w ∧ k w = Ok r.
Proof.
  unfold validateResponseJSONSize, unmarshalBrowserJSON. split.
  - intros H. apply bind_Ok in H as ([] & Hs%fail_if_Ok & H). apply orb_false_iff in Hs as [_ Hs%Z.ltb_ge].
    apply bind_Ok in H as (w & Hw%wrap_err_Ok & H). apply bind_Ok in Hw as (tree & Ht%of_option_Ok & Hw). split; [done|]. by exists tree, w.
  - intros (Hs & tree & w & Hp & Hw & H). rewrite bool_decide_eq_false_2 by (intros ->; discriminate Hp).
    rewrite (proj2 (Z.ltb_ge _ _)) by done. run. rewrite Hp. run. rewrite Hw. run. exact H.
Qed.

Lemma registration_wire data r : RegistrationResponseFromJSON data = Ok r ↔
  Z.of_nat (length data) <= MaxResponseJSONBytes ∧
  ∃ tree w, Json.parse data = Some tree ∧ um_registrationCredential (Some tree) = Ok w ∧ registration_accepts w r.
Proof.
  unfold RegistrationResponseFromJSON. rewrite unmarshal_step. apply and_iff_compat_l. apply exist_proper. intros tree.
  apply exist_proper. intros w. apply and_iff_compat_l, and_iff_compat_l. split.
  - intros H. repeat ok_back H. injection H as <-. apply negb_false_iff, bool_decide_eq_true in E10. subst x.
    apply optionalBytes_Ok in E14. apply Z.eqb_neq in E15. split; [split_and!; try done; by eexists|].
    split; [done|]. eexists. split; [exact E3|]. split_and!; try done. destruct E14 as [[? _]|(b & ? & _)]; [by left|right; by exists b].
  - intros ((Hr & Hi & Hn & Ht & Hty & l & Hl & Houts) & Ha & resp & Hresp & R1 & C1 & R2 & C2 & R3 & C3 & R4 & R5 & Hne & Hpk).
    assert (∃ b, optionalBytesFromBase64URL "response.publicKey" (aw_PublicKey resp) = Ok b) as [pk Hpk'].
    { destruct Hpk as [->|[b ->]]; [by eexists|]. exists (Some b). apply optionalBytes_Ok. right. by exists b. }
    unfold b64 in *. repeat ok_step. rewrite Ha. by destruct r.
Qed.

Lemma authentication_wire data r : AuthenticationResponseFromJSON data = Ok r ↔
  Z.of_nat (length data) <= MaxResponseJSONBytes ∧
  ∃ tree w, Json.parse data = Some tree ∧ um_authenticationCredential (Some tree) = Ok w ∧ authentication_accepts w r.
Proof.
  unfold AuthenticationResponseFromJSON. rewrite unmarshal_step. apply and_iff_compat_l. apply exist_proper. intros tree.
  apply exist_proper. intros w. apply and_iff_compat_l, and_iff_compat_l. split.
  - intros H. repeat ok_back H. injection H as <-. apply negb_false_iff, bool_decide_eq_true in E8. subst x.
    split; [split_and!; try done; by eexists|].
    split; [done|]. eexists. split; [exact E3|]. split_and!; try done. unfold optionalUserHandleFromBase64URL in E12.
    destruct (sw_UserHandle _) as [t|] eqn:Eu; [right|left; by injection E12 as <-].
    by apply fromBase64URL_Ok in E12 as [-> ?].
  - intros ((Hr & Hi & Hn & Ht & Hty & l & Hl & Houts) & Ha & resp & Hresp & R1 & C1 & R2 & C2 & R3 & C3 & Hu).
    assert (optionalUserHandleFromBase64URL "response.userHandle" (sw_UserHandle resp) = Ok (ar_UserHandle r)) as Hu'.
    { destruct Hu as [[-> ->]|[-> Hu]]; [done|]. by apply fromBase64URL_Ok. }
    unfold b64 in *. repeat ok_step. rewrite Ha. by destruct r.
Qed.

(** Accepted wire structs are exactly the specified members. *)
Lemma optional_member rs o : um_string_ptr (get rs "publicKey") = Ok o →
  (o = None ∨ ∃ b, o = Some (EncodeToString b)) ↔ optional_bytes_member rs "publicKey".
Proof.
  intros H. unfold optional_bytes_member. destruct o as [t|].
  - apply um_string_ptr_present in H. rewrite H. split.
    + intros [?|[b [= ->]]]; [done|]. right; right. by exists b.
    + intros [?|[?|[b Hb]]]; [done|done|]. right. exists b. injection Hb as Hb. by apply bytes_of_string_inj in Hb as ->.
  - apply um_ptr_absent in H. split; [|by left]. intros _. destruct H as [?|?]; [by left|right; by left].
Qed.

Lemma registration_tree tree r :
  (∃ w, um_registrationCredential (Some tree) = Ok w ∧ registration_accepts w r) ↔
  ∃ ms rs results, tree = JObject ms ∧ registration_members ms rs results r.
Proof.
  split.
  - intros (w & Hw & (Hr & Hi & Hn & Ht & Hty & l & Hl & Houts) & Ha & resp & Hresp & R1 & C1 & R2 & C2 & R3 & C3 & R4 & R5 & Hne & Hpk).
    apply (um_registrationCredential_Ok _ _ _ Hr) in Hw as (ms & -> & H1 & H2 & H3 & H4 & H5 & H6).
    rewrite Hr, Hi, Hty, Hresp, Hl in *. apply um_string_ptr_present in H1, H2, H3.
    apply um_response_present in H4 as (rs & H4 & Hrs); [|intros v; apply attestationResponse_object].
    apply um_results_present in H6 as (results & H6 & ->).
    apply um_attestationResponse_Ok in Hrs as (Q1 & Q2 & Q3 & Q4 & Q5 & Q6). rewrite R1, R2, R3, R4, R5 in *.
    apply um_string_ptr_present in Q1, Q2, Q6. apply um_ptr_present in Q3 as (tv & Q3 & Htv & Htl), Q5 as (av & Q5 & Hav & Hal).
    exists ms, rs, results. split; [done|]. rewrite Ha in H5. split; [by split_and!|].
    split_and!; try done; [destruct tv; try done; by eexists|destruct av; try done; by eexists|by apply (optional_member rs _ Q4)].
  - intros (ms & rs & results & -> & ((Hty & H3 & H2 & H1 & Hraw & H4 & H5 & H6 & Houts) & Q1 & Hcd & Q2 & Had & Q6 & Hao & (ts & Q3 & Hts) & (raw & Q5 & Halg) & Ha0 & Q4)).
    assert (∃ pk, um_string_ptr (get rs "publicKey") = Ok pk) as [pk Hpk].
    { destruct Q4 as [->|[->|[b ->]]]; by eexists. }
    set (resp := mkAttestationResponseWire (b64 (rr_ClientDataJSON r)) (b64 (rr_AuthenticatorData r)) (Some (rr_Transports r)) pk
      (Some (rr_PublicKeyAlgorithm r)) (b64 (rr_AttestationObject r))).
    exists (mkRegistrationCredentialWire (b64 (rr_RawID r)) (b64 (rr_RawID r)) (Some (rr_Type r)) (Some resp)
      (rr_AuthenticatorAttachment r) (Some ((λ m, (string_of_bytes m.1, m.2)) <$> results))). split.
    + eapply um_registrationCredential_Ok; [done|]. exists ms. cbn. unfold b64. rewrite !um_string_ptr_present. split_and!; try done.
      * apply um_response_present; [intros v; apply attestationResponse_object|]. exists rs. split; [done|].
        apply um_attestationResponse_Ok. cbn. unfold b64. rewrite !um_string_ptr_present. split_and!; try done;
          apply um_ptr_present; by eexists.
      * apply um_results_present. by exists results.
    + split; [split_and!; try done; by eexists|]. split; [done|]. exists resp. split_and!; try done. by apply (optional_member rs).
Qed.

Lemma authentication_tree tree r :
  (∃ w, um_authenticationCredential (Some tree) = Ok w ∧ authentication_accepts w r) ↔
  ∃ ms rs results, tree = JObject ms ∧ authentication_members ms rs results r.
Proof.
  split.
  - intros (w & Hw & (Hr & Hi & Hn & Ht & Hty & l & Hl & Houts) & Ha & resp & Hresp & R1 & C1 & R2 & C2 & R3 & C3 & Hu).
    apply (um_authenticationCredential_Ok _ _ _ Hr) in Hw as (ms & -> & H1 & H2 & H3 & H4 & H5 & H6).
    rewrite Hr, Hi, Hty, Hresp, Hl in *. apply um_string_ptr_present in H1, H2, H3.
    apply um_response_present in H4 as (rs & H4 & Hrs); [|intros v; apply assertionResponse_object].
    apply um_results_present in H6 as (results & H6 & ->).
    apply um_assertionResponse_Ok in Hrs as (Q1 & Q2 & Q3 & Q4). rewrite R1, R2, R3 in *.
    apply um_string_ptr_present in Q1, Q2, Q3.
    exists ms, rs, results. split; [done|]. rewrite Ha in H5. split; [by split_and!|].
    split_and!; try done. destruct Hu as [[Hu Hn0]|[Hu HN]]; rewrite Hu in Q4; [left; by apply um_ptr_absent in Q4|right].
    by apply um_string_ptr_present in Q4.
  - intros (ms & rs & results & -> & ((Hty & H3 & H2 & H1 & Hraw & H4 & H5 & H6 & Houts) & Q1 & Hcd & Q2 & Had & Q3 & Hsg & Hu)).
    assert (∃ u, um_string_ptr (get rs "userHandle") = Ok u ∧
      (u = None ∧ ar_UserHandle r = mkByteValue None ∨ u = b64 (ar_UserHandle r) ∧ NewUserHandle (bv_value (ar_UserHandle r)) = Ok (ar_UserHandle r)))
      as (u & Hum & Hu').
    { destruct Hu as [[Hg Hn]|[Hg Hn]].
      - exists None. split; [by apply um_ptr_absent|by left].
      - eexists. split; [apply um_string_ptr_present; exact Hg|by right]. }
    set (resp := mkAssertionResponseWire (b64 (ar_ClientDataJSON r)) (b64 (ar_AuthenticatorData r)) (b64 (ar_Signature r)) u).
    exists (mkAuthenticationCredentialWire (b64 (ar_RawID r)) (b64 (ar_RawID r)) (Some (ar_Type r)) (Some resp)
      (ar_AuthenticatorAttachment r) (Some ((λ m, (string_of_bytes m.1, m.2)) <$> results))). split.
    + eapply um_authenticationCredential_Ok; [done|]. exists ms. cbn. unfold b64. rewrite !um_string_ptr_present. split_and!; try done.
      * apply um_response_present; [intros v; apply assertionResponse_object|]. exists rs. split; [done|].
        apply um_assertionResponse_Ok. cbn. unfold b64. rewrite !um_string_ptr_present. by split_and!.
      * apply um_results_present. by exists results.
    + split; [split_and!; try done; by eexists|]. split; [done|]. exists resp. by split_and!.
Qed.

Lemma registration_response_Ok (data : list byte) (r : RegistrationResponse) :
  RegistrationResponseFromJSON data = Ok r ↔
  Z.of_nat (length data) <= MaxResponseJSONBytes ∧
  ∃ ms rs results, Json.parse data = Some (JObject ms) ∧ registration_members ms rs results r.
Proof.
  rewrite registration_wire. apply and_iff_compat_l. split.
  - intros (tree & w & Hp & H). destruct (proj1 (registration_tree tree r)) as (ms & rs & results & -> & Hm); [by exists w|]. by exists ms, rs, results.
  - intros (ms & rs & results & Hp & Hm). exists (JObject ms).
    destruct (proj2 (registration_tree (JObject ms) r)) as (w & Hw); [by exists ms, rs, results|]. exists w. by split.
Qed.

Lemma authentication_response_Ok (data : list byte) (r : AuthenticationResponse) :
  AuthenticationResponseFromJSON data = Ok r ↔
  Z.of_nat (length data) <= MaxResponseJSONBytes ∧
  ∃ ms rs results, Json.parse data = Some (JObject ms) ∧ authentication_members ms rs results r.
Proof.
  rewrite authentication_wire. apply and_iff_compat_l. split.
  - intros (tree & w & Hp & H). destruct (proj1 (authentication_tree tree r)) as (ms & rs & results & -> & Hm); [by exists w|]. by exists ms, rs, results.
  - intros (ms & rs & results & Hp & Hm). exists (JObject ms).
    destruct (proj2 (authentication_tree (JObject ms) r)) as (w & Hw); [by exists ms, rs, results|]. exists w. by split.
Qed.
(** ** Properties *)

(** C35: a browser's response JSON is accepted exactly when it is at most a
    mebibyte of JSON whose required members are present and not null, whose
    type is public-key, whose id and rawId are the same canonical base64url text
    of 1 to 1023 bytes, and whose other binary members are the canonical texts
    of bytes within their bounds; the response carries exactly those bytes.  For
    an authentication the signature and the user handle are included, an absent
    or null user handle being none. *)
Theorem browser_responses_exact (data : list byte) :
  (∀ r : RegistrationResponse, RegistrationResponseFromJSON data = Ok r ↔
     Z.of_nat (length data) <= MaxResponseJSONBytes ∧
     ∃ ms rs results, Json.parse data = Some (JObject ms) ∧ registration_members ms rs results r) ∧
  (∀ r : AuthenticationResponse, AuthenticationResponseFromJSON data = Ok r ↔
     Z.of_nat (length data) <= MaxResponseJSONBytes ∧
     ∃ ms rs results, Json.parse data = Some (JObject ms) ∧ authentication_members ms rs results r).
Proof. split; intros r; [apply registration_response_Ok|apply authentication_response_Ok]. Qed.
End Spec.
