(* ===== verification/BrowserOptions.v ===== *)
(** * Browser options

    Models [src/browser/options.go], [src/browser/extensions.go] and the
    descriptor decoder of [src/browser/responses.go]: the options of the two
    ceremonies as the JSON dictionaries [parseCreationOptionsFromJSON] and
    [parseRequestOptionsFromJSON] of a browser read.  [json_x] is [json.Marshal]
    of the struct [x] by its tags.  Extension inputs of other types than the
    built-in ones are marshalled as [encoding/json/v2] does by reflection; the
    methods of types declared elsewhere are the class [MarshalMethods]. *)
From S2P Require Import Prelude Base64 GoStrings Json AuthData ClientData ExtValue Types Extension Attestation Origin Ceremony State Registration Authentication StoreValue JsonText Storage Browser.
Set Default Goal Selector "!".
Local Open Scope Z_scope.

(** What [json.Marshal] calls outside the program: marshaler methods of named
    types, and the text of 32-bit floats. *)
Class MarshalMethods : Type := {
  marshal_opaque : opaque → result json;
  marshal_named : value → option (result json);
  marshal_key : mapkey → result string;
  format_float32 : float → list byte;
}.

(** No such methods: used to evaluate the definitions on concrete inputs. *)
Definition no_methods : MarshalMethods :=
  {| marshal_opaque := λ _, Err (ErrorNew "json: unsupported type"); marshal_named := λ _, None;
     marshal_key := λ _, Err (ErrorNew "json: unsupported key"); format_float32 := λ _, [] |}.

Module BrowserOptions.
Import Browser.

(** ** The dictionaries *)
Record RPEntityJSON := mkRPEntityJSON { rpj_ID : string; rpj_Name : string }.
Record UserEntityJSON := mkUserEntityJSON { uej_ID : string; uej_Name : string; uej_DisplayName : string }.
Record CredentialParameterJSON := mkParameterJSON { cpj_Type : string; cpj_Algorithm : Z }.
Record CredentialDescriptorJSON := mkDescriptorJSON { cdj_Type : string; cdj_ID : string; cdj_Transports : list string }.
Record AuthenticatorSelectionCriteriaJSON := mkSelectionJSON {
  scj_AuthenticatorAttachment : string; scj_ResidentKey : string; scj_RequireResidentKey : bool; scj_UserVerification : string }.

Record CredentialCreationOptionsJSON := mkCreationOptionsJSON {
  coj_RP : RPEntityJSON;
  coj_User : UserEntityJSON;
  coj_Challenge : string;
  coj_PubKeyCredParams : list CredentialParameterJSON;
  coj_TimeoutMilliseconds : Z;
  coj_ExcludeCredentials : list CredentialDescriptorJSON;
  coj_AuthenticatorSelection : option AuthenticatorSelectionCriteriaJSON;
  coj_Hints : list string;
  coj_Attestation : string;
  coj_AttestationFormats : list string;
  coj_Extensions : ExtensionJSON;
}.

Record CredentialRequestOptionsJSON := mkRequestOptionsJSON {
  roj_Challenge : string;
  roj_TimeoutMilliseconds : Z;
  roj_RPID : string;
  roj_AllowCredentials : list CredentialDescriptorJSON;
  roj_UserVerification : string;
  roj_Hints : list string;
  roj_Extensions : ExtensionJSON;
}.

Record PRFValuesJSON := mkPRFValuesJSON { pvj_First : string; pvj_Second : option string }.
Record PRFInputJSON := mkPRFInputJSON { pij_Eval : option PRFValuesJSON; pij_EvalByCredential : option (list (string * PRFValuesJSON)) }.
Record LargeBlobInputJSON := mkLargeBlobInputJSON { lij_Support : string; lij_Read : option bool; lij_Write : option string }.

(** ** [json.Marshal] of the dictionaries *)
Definition omit_zero (z : Z) : option json := if z =? 0 then None else Some (jint z).

Definition json_rpEntity (e : RPEntityJSON) : json :=
  object [("id", Some (jstring (rpj_ID e))); ("name", Some (jstring (rpj_Name e)))].
Definition json_userEntity (e : UserEntityJSON) : json :=
  object [("id", Some (jstring (uej_ID e))); ("name", Some (jstring (uej_Name e))); ("displayName", Some (jstring (uej_DisplayName e)))].
Definition json_parameter (p : CredentialParameterJSON) : json :=
  object [("type", Some (jstring (cpj_Type p))); ("alg", Some (jint (cpj_Algorithm p)))].
Definition json_descriptor (d : CredentialDescriptorJSON) : json :=
  object [("type", Some (jstring (cdj_Type d))); ("id", Some (jstring (cdj_ID d))); ("transports", omit_list jstring (cdj_Transports d))].
Definition json_selection (s : AuthenticatorSelectionCriteriaJSON) : json :=
  object [("authenticatorAttachment", omit_string (scj_AuthenticatorAttachment s)); ("residentKey", omit_string (scj_ResidentKey s));
          ("requireResidentKey", omit_false (scj_RequireResidentKey s)); ("userVerification", omit_string (scj_UserVerification s))].
Definition omit_extensions (e : ExtensionJSON) : option json := match e with [] => None | _ => Some (json_map id e) end.

Definition json_creationOptions (o : CredentialCreationOptionsJSON) : json :=
  object [("rp", Some (json_rpEntity (coj_RP o))); ("user", Some (json_userEntity (coj_User o)));
          ("challenge", Some (jstring (coj_Challenge o))); ("pubKeyCredParams", Some (jlist json_parameter (coj_PubKeyCredParams o)));
          ("timeout", omit_zero (coj_TimeoutMilliseconds o)); ("excludeCredentials", omit_list json_descriptor (coj_ExcludeCredentials o));
          ("authenticatorSelection", json_selection <$> coj_AuthenticatorSelection o); ("hints", omit_list jstring (coj_Hints o));
          ("attestation", omit_string (coj_Attestation o)); ("attestationFormats", omit_list jstring (coj_AttestationFormats o));
          ("extensions", omit_extensions (coj_Extensions o))].
Definition json_requestOptions (o : CredentialRequestOptionsJSON) : json :=
  object [("challenge", Some (jstring (roj_Challenge o))); ("timeout", omit_zero (roj_TimeoutMilliseconds o));
          ("rpId", omit_string (roj_RPID o)); ("allowCredentials", omit_list json_descriptor (roj_AllowCredentials o));
          ("userVerification", omit_string (roj_UserVerification o)); ("hints", omit_list jstring (roj_Hints o));
          ("extensions", omit_extensions (roj_Extensions o))].

Definition json_prfValues (v : PRFValuesJSON) : json :=
  object [("first", Some (jstring (pvj_First v))); ("second", jstring <$> pvj_Second v)].
Definition json_prfInput (i : PRFInputJSON) : json :=
  object [("eval", json_prfValues <$> pij_Eval i); ("evalByCredential", json_map json_prfValues <$> pij_EvalByCredential i)].
Definition json_largeBlobInput (i : LargeBlobInputJSON) : json :=
  object [("support", omit_string (lij_Support i)); ("read", JBool <$> lij_Read i); ("write", jstring <$> lij_Write i)].

(** ** [json.Marshal] of a value by reflection *)
Section Marshal.
Context {Floats : FloatText} {Ord : MapOrder} {Methods : MarshalMethods}.

Definition errMarshal : error := ErrorNew "json: cannot marshal".

(** Bytes are marshalled with [base64.StdEncoding]. *)
Definition json_bytes (b : slice byte) : json := JString (std_encode (slice_list b)).

Definition json_ptr {A} (f : A → json) (p : option A) : json := match p with Some x => f x | None => JNull end.
Definition struct (fs : list (string * json)) : json := object (prod_map id Some <$> fs).

Definition prfValues_struct (v : PRFValues) : json := struct [("First", json_bytes (First v)); ("Second", json_bytes (Second v))].
Definition prfValues_map (m : option (gmap string PRFValues)) : json := json_map prfValues_struct (range_list (default ∅ m)).
Definition uvmEntry_struct (e : UVMEntry) : json :=
  struct [("UserVerificationMethod", jint (UserVerificationMethod e)); ("KeyProtectionType", jint (KeyProtectionType e));
          ("MatcherProtectionType", jint (MatcherProtectionType e))].

Definition key_name (k : mapkey) : result string :=
  match k with
  | KString s => Ok s
  | KNil => Err errMarshal
  | KScalar ty z =>
      if StoreValue.signed_kind ty || StoreValue.unsigned_kind ty then Ok (string_of_bytes (itoa z))
      else if bool_decide (ty = "bool") then Err errMarshal else marshal_key k
  | _ => marshal_key k
  end.

(** The bytes of a slice or array whose element type is [byte]. *)
Definition byte_items (ty : gotype) (items : list value) : option (list byte) :=
  if bool_decide (elem_type ty = TBasic "uint8")
  then Some ((λ v, match v with VInt _ z => byte_of_Z z | _ => x00 end) <$> items) else None.

Definition type_name (ty : gotype) : string :=
  match ty with TSlice name _ | TArray name _ _ | TMap name _ _ => name | _ => "" end.
Definition method_of (ty : gotype) (v : value) : option (result json) :=
  if bool_decide (type_name ty = "") then None else marshal_named v.

Fixpoint marshal_value (v : value) : result json :=
  match v with
  | VNil => Ok JNull
  | VBool b | VBoolInput b => Ok (JBool b)
  | VString s | VStringInput s => Ok (jstring s)
  | VStringInputPtr p => Ok (json_ptr jstring p)
  | VInt _ z => Ok (jint z)
  | VFloat kind f =>
      _ ← fail_if (negb (StoreValue.finite f)) errMarshal;
      Ok (JNumber (if bool_decide (kind = "float32") then format_float32 f else format_float f))
  | VBytes b => Ok (json_bytes b)
  | VRawInput _ _ => Err errMarshal
  | VPRFInput i =>
      Ok (struct [("Eval", json_ptr prfValues_struct (prf_Eval i)); ("EvalByCredential", prfValues_map (prf_EvalByCredential i));
                  ("AllowCredentials", jlist jstring (prf_AllowCredentials i))])
  | VPRFValues v => Ok (prfValues_struct v)
  | VPRFValuesPtr p => Ok (json_ptr prfValues_struct p)
  | VPRFResult r =>
      Ok (struct [("Eval", json_ptr prfValues_struct (prfr_Eval r)); ("EvalByCredential", prfValues_map (prfr_EvalByCredential r));
                  ("Enabled", json_ptr JBool (prfr_Enabled r)); ("Results", json_ptr prfValues_struct (prfr_Results r))])
  | VLargeBlobInput i =>
      Ok (struct [("Support", jstring (lb_Support i)); ("Read", json_ptr JBool (lb_Read i)); ("Write", json_bytes (lb_Write i))])
  | VLargeBlobResult r =>
      Ok (struct [("Support", jstring (lbr_Support r)); ("Read", json_ptr JBool (lbr_Read r)); ("Write", json_bytes (lbr_Write r));
                  ("Supported", json_ptr JBool (lbr_Supported r)); ("Blob", json_bytes (lbr_Blob r)); ("Written", json_ptr JBool (lbr_Written r))])
  | VCredProps r => Ok (struct [("ResidentKey", json_ptr JBool (ResidentKey r))])
  | VUVMResult r => Ok (struct [("Entries", jlist uvmEntry_struct (Entries r))])
  | VUVMEntries es => Ok (jlist uvmEntry_struct es)
  | VAppIDResult r => Ok (struct [("AppID", jstring (ar_AppID r)); ("Used", JBool (ar_Used r))])
  | VAppIDExcludeResult r => Ok (struct [("AppID", jstring (aer_AppID r)); ("ActedUpon", JBool (ActedUpon r))])
  | VRemoteResult r => Ok (struct [("Used", JBool (rr_Used r))])
  | VSeq ty items =>
      match method_of ty v, byte_items ty items with
      | Some encoded, _ => encoded
      | None, Some bytes => Ok (JString (std_encode bytes))
      | None, None =>
          out ← (fix go items := match items with [] => Ok [] | x :: items => y ← marshal_value x; ys ← go items; Ok (y :: ys) end) items;
          Ok (JArray out)
      end
  | VMap ty entries =>
      match method_of ty v with
      | Some encoded => encoded
      | None =>
          out ← (fix go entries := match entries with
                 | [] => Ok []
                 | (k, x) :: entries => name ← key_name k; y ← marshal_value x; ys ← go entries; Ok ((bytes_of_string name, y) :: ys)
                 end) entries;
          Ok (JObject out)
      end
  | VOpaque o => marshal_opaque o
  end.

(** ** Conversion of extension inputs *)

(** The [any] a conversion returns: a value as it was, one of the dictionaries,
    or a [map[string]any] of such. *)
Inductive converted : Type :=
| CValue (v : value)
| CPRFValues (v : PRFValuesJSON)
| CPRFInput (i : PRFInputJSON)
| CLargeBlobInput (i : LargeBlobInputJSON)
| CObject (entries : list (mapkey * converted)).

Fixpoint marshal_converted (c : converted) : result json :=
  match c with
  | CValue v => marshal_value v
  | CPRFValues v => Ok (json_prfValues v)
  | CPRFInput i => Ok (json_prfInput i)
  | CLargeBlobInput i => Ok (json_largeBlobInput i)
  | CObject entries =>
      out ← (fix go entries := match entries with
             | [] => Ok []
             | (k, x) :: entries => name ← key_name k; y ← marshal_converted x; ys ← go entries; Ok ((bytes_of_string name, y) :: ys)
             end) entries;
      Ok (JObject out)
  end.

Definition encodeLargeBlobByteField (fields : list (mapkey * value)) (name : string) : list (mapkey * value) :=
  match entry name fields with
  | Some (VBytes b) => set_entry name (VString (EncodeToString (slice_list b))) fields
  | _ => fields
  end.

Definition prfValuesToJSON (values : PRFValues) : PRFValuesJSON :=
  mkPRFValuesJSON (EncodeToString (slice_list (First values))) (EncodeToString <$> Second values).

Definition prfValuesAnyToJSON (v : value) : converted :=
  match v with
  | VPRFValues values => CPRFValues (prfValuesToJSON values)
  | _ =>
      match as_object v with
      | Some values =>
          let out := encodeLargeBlobByteField values "first" in
          let out := encodeLargeBlobByteField out "second" in
          CValue (VMap map_string_any out)
      | None => CValue v
      end
  end.

(** [byCredential], entry by entry. *)
Definition byCredentialToJSON (raw : value) : converted :=
  match as_object raw with
  | Some byCredential => CObject (prod_map id prfValuesAnyToJSON <$> byCredential)
  | None => CValue raw
  end.

(** [out["eval"]] and [out["evalByCredential"]]; other members stay. *)
Definition prfMemberToJSON (key : mapkey) (raw : value) : converted :=
  if decide (key = KString "eval") then prfValuesAnyToJSON raw
  else if decide (key = KString "evalByCredential") then byCredentialToJSON raw
  else CValue raw.

Definition prfInputToJSON (v : value) : converted :=
  match v with
  | VPRFInput input =>
      CPRFInput (mkPRFInputJSON (prfValuesToJSON <$> prf_Eval input)
        ((λ m, prod_map id prfValuesToJSON <$> range_list m) <$> prf_EvalByCredential input))
  | _ =>
      match as_object v with
      | Some input =>
          CObject ((λ e, (e.1, prfMemberToJSON e.1 e.2)) <$> input)
      | None => CValue v
      end
  end.

Definition largeBlobInputToJSON (v : value) : converted :=
  match v with
  | VLargeBlobInput input => CLargeBlobInput (mkLargeBlobInputJSON (lb_Support input) (lb_Read input) (EncodeToString <$> lb_Write input))
  | _ =>
      match as_object v with
      | Some input => CValue (VMap map_string_any (encodeLargeBlobByteField input "write"))
      | None => CValue v
      end
  end.
End Marshal.

(** ** Options *)
Definition CredentialDescriptorToJSON (d : CredentialDescriptor) : CredentialDescriptorJSON :=
  mkDescriptorJSON (cdr_Type d) (EncodeToString (slice_list (bv_bytes (cdr_ID d)))) (cdr_Transports d).

Definition credentialParametersToJSON (parameters : list CredentialParameter) : list CredentialParameterJSON :=
  (λ p, mkParameterJSON (cp_Type p) (cp_Algorithm p)) <$> parameters.

Definition credentialDescriptorsToJSON (descriptors : list CredentialDescriptor) : list CredentialDescriptorJSON :=
  CredentialDescriptorToJSON <$> descriptors.

Definition CredentialDescriptorFromJSON (dto : CredentialDescriptorJSON) : result CredentialDescriptor :=
  credentialIDBytes ← decodeBase64URL "id" (cdj_ID dto);
  credentialID ← map_err (protocolValueError "id") (NewCredentialID (Some credentialIDBytes));
  let descriptor := mkDescriptor (cdj_Type dto) credentialID (cdj_Transports dto) in
  _ ← map_err (protocolValueError "credential descriptor") (CredentialDescriptor_Validate descriptor);
  Ok descriptor.

Section Options.
Context {Floats : FloatText} {Ord : MapOrder} {Methods : MarshalMethods} {Custom : CustomTypes}.

(** [case] by identifier. *)
Definition convertInput (id : string) (v : value) : converted :=
  if bool_decide (id = IDLargeBlob) then largeBlobInputToJSON v
  else if bool_decide (id = IDPRF) then prfInputToJSON v
  else CValue v.

(** The body of the loop over the inputs; the encoded value is kept as its tree. *)
Definition extensionInputToJSON (id : string) (input : value) : result json :=
  map_err (protocolValueError ("extensions." +:+ id))
    (v ← InputValue input;
     tree ← marshal_converted (convertInput id v);
     _ ← of_option errMarshal (Marshal tree);
     Ok tree).

Definition extensionInputsToJSON (inputs : ExtensionInputs) : result ExtensionJSON :=
  if map_len inputs =? 0 then Ok []
  else
    _ ← fail_if (MaxEntries <? map_len inputs) (protocolValueError "extensions" ErrTooManyEntries);
    map_res (λ e, tree ← extensionInputToJSON e.1 e.2; Ok (e.1, tree)) (range_list inputs).

Definition CredentialCreationOptionsFromProtocol (options : PublicKeyCredentialCreationOptions) : result CredentialCreationOptionsJSON :=
  _ ← map_err (protocolValueError "authenticatorSelection") (AuthenticatorSelectionCriteria_Validate (co_AuthenticatorSelection options));
  extensions ← extensionInputsToJSON (co_Extensions options);
  Ok {| coj_RP := mkRPEntityJSON (rp_ID (co_RP options)) (rp_Name (co_RP options));
        coj_User := mkUserEntityJSON (EncodeToString (slice_list (bv_bytes (user_ID (co_User options)))))
                      (user_Name (co_User options)) (user_DisplayName (co_User options));
        coj_Challenge := EncodeToString (slice_list (bv_bytes (co_Challenge options)));
        coj_PubKeyCredParams := credentialParametersToJSON (co_PubKeyCredParams options);
        coj_TimeoutMilliseconds := co_TimeoutMilliseconds options;
        coj_ExcludeCredentials := credentialDescriptorsToJSON (co_ExcludeCredentials options);
        coj_AuthenticatorSelection :=
          (λ s, mkSelectionJSON (sel_AuthenticatorAttachment s) (sel_ResidentKey s) (sel_RequireResidentKey s) (sel_UserVerification s))
          <$> co_AuthenticatorSelection options;
        coj_Hints := co_Hints options;
        coj_Attestation := co_Attestation options;
        coj_AttestationFormats := co_AttestationFormats options;
        coj_Extensions := extensions |}.

Definition CredentialRequestOptionsFromProtocol (options : PublicKeyCredentialRequestOptions) : result CredentialRequestOptionsJSON :=
  extensions ← extensionInputsToJSON (ro_Extensions options);
  Ok {| roj_Challenge := EncodeToString (slice_list (bv_bytes (ro_Challenge options)));
        roj_TimeoutMilliseconds := ro_TimeoutMilliseconds options;
        roj_RPID := ro_RPID options;
        roj_AllowCredentials := credentialDescriptorsToJSON (ro_AllowCredentials options);
        roj_UserVerification := ro_UserVerification options;
        roj_Hints := ro_Hints options;
        roj_Extensions := extensions |}.
End Options.
End BrowserOptions.

(** ** Specification: what a browser reads

    A member that is absent reads as the zero value of its type. *)
Section Spec.
Context {Floats : FloatText} {Ord : MapOrder} {Methods : MarshalMethods} {Custom : CustomTypes}.
Import Browser BrowserOptions.

(** The names of the members, all of them, in order: those of [fs] that are
    marked present. *)
Definition has_members (ms : list (list byte * json)) (fs : list (string * bool)) : Prop :=
  ms.*1 = bytes_of_string <$> (filter (λ f, f.2 = true) fs).*1.
Definition nonempty {A} (l : list A) : bool := match l with [] => false | _ => true end.
Definition nonblank (s : string) : bool := negb (bool_decide (s = "")).

Definition string_member (ms : list (list byte * json)) (name s : string) : Prop := unmarshal_string (get ms name) = Ok s.
Definition strings_member (ms : list (list byte * json)) (name : string) (l : list string) : Prop :=
  um_list unmarshal_string (get ms name) = Ok l.
(** An array whose elements are objects with the given members. *)
Definition objects_member {A} (reads : list (list byte * json) → A → Prop) (ms : list (list byte * json)) (name : string) (l : list A) : Prop :=
  ∃ vs, um_list um_raw (get ms name) = Ok vs ∧ Forall2 (λ v x, ∃ rs, v = JObject rs ∧ reads rs x) vs l.

Definition descriptor_members (ms : list (list byte * json)) (d : CredentialDescriptor) : Prop :=
  has_members ms [("type", true); ("id", true); ("transports", nonempty (cdr_Transports d))] ∧
  string_member ms "type" (cdr_Type d) ∧ bytes_member ms "id" (cdr_ID d) ∧ strings_member ms "transports" (cdr_Transports d).
Definition parameter_members (ms : list (list byte * json)) (p : CredentialParameter) : Prop :=
  has_members ms [("type", true); ("alg", true)] ∧
  string_member ms "type" (cp_Type p) ∧ (- 2 ^ 63 <= cp_Algorithm p < 2 ^ 63 → um_int64 (get ms "alg") = Ok (cp_Algorithm p)).
Definition timeout_member (ms : list (list byte * json)) (t : Z) : Prop := 0 <= t < 2 ^ 32 → um_uint32 (get ms "timeout") = Ok t.

Definition selection_member (ms : list (list byte * json)) (c : option AuthenticatorSelectionCriteria) : Prop :=
  match c with
  | None => get ms "authenticatorSelection" = None
  | Some s => ∃ rs, get ms "authenticatorSelection" = Some (JObject rs) ∧
      has_members rs [("authenticatorAttachment", nonblank (sel_AuthenticatorAttachment s)); ("residentKey", nonblank (sel_ResidentKey s));
                      ("requireResidentKey", sel_RequireResidentKey s); ("userVerification", nonblank (sel_UserVerification s))] ∧
      string_member rs "authenticatorAttachment" (sel_AuthenticatorAttachment s) ∧ string_member rs "residentKey" (sel_ResidentKey s) ∧
      um_bool (get rs "requireResidentKey") = Ok (sel_RequireResidentKey s) ∧ string_member rs "userVerification" (sel_UserVerification s)
  end.

(** Every input, and nothing else, has a member with its encoding. *)
Definition extensions_member (ms : list (list byte * json)) (inputs : ExtensionInputs) : Prop :=
  inputs = ∅ ∧ get ms "extensions" = None ∨
  inputs ≠ ∅ ∧ ∃ es, get ms "extensions" = Some (JObject es) ∧ NoDup es.*1 ∧
    es.*1 ≡ₚ bytes_of_string <$> (map_to_list inputs).*1 ∧
    ∀ id tree, get es id = Some tree ↔ ∃ input, inputs !! id = Some input ∧ extensionInputToJSON id input = Ok tree.

Definition creation_members (ms : list (list byte * json)) (o : PublicKeyCredentialCreationOptions) : Prop :=
  has_members ms
    [("rp", true); ("user", true); ("challenge", true); ("pubKeyCredParams", true);
     ("timeout", negb (co_TimeoutMilliseconds o =? 0)); ("excludeCredentials", nonempty (co_ExcludeCredentials o));
     ("authenticatorSelection", bool_decide (is_Some (co_AuthenticatorSelection o))); ("hints", nonempty (co_Hints o));
     ("attestation", nonblank (co_Attestation o)); ("attestationFormats", nonempty (co_AttestationFormats o));
     ("extensions", negb (bool_decide (co_Extensions o = ∅)))] ∧
  (∃ rs, get ms "rp" = Some (JObject rs) ∧ has_members rs [("id", true); ("name", true)] ∧
     string_member rs "id" (rp_ID (co_RP o)) ∧ string_member rs "name" (rp_Name (co_RP o))) ∧
  (∃ us, get ms "user" = Some (JObject us) ∧ has_members us [("id", true); ("name", true); ("displayName", true)] ∧
     bytes_member us "id" (user_ID (co_User o)) ∧ string_member us "name" (user_Name (co_User o)) ∧
     string_member us "displayName" (user_DisplayName (co_User o))) ∧
  bytes_member ms "challenge" (co_Challenge o) ∧ objects_member parameter_members ms "pubKeyCredParams" (co_PubKeyCredParams o) ∧
  timeout_member ms (co_TimeoutMilliseconds o) ∧ objects_member descriptor_members ms "excludeCredentials" (co_ExcludeCredentials o) ∧
  selection_member ms (co_AuthenticatorSelection o) ∧ strings_member ms "hints" (co_Hints o) ∧
  string_member ms "attestation" (co_Attestation o) ∧ strings_member ms "attestationFormats" (co_AttestationFormats o) ∧
  extensions_member ms (co_Extensions o).

Definition request_members (ms : list (list byte * json)) (o : PublicKeyCredentialRequestOptions) : Prop :=
  has_members ms
    [("challenge", true); ("timeout", negb (ro_TimeoutMilliseconds o =? 0)); ("rpId", nonblank (ro_RPID o));
     ("allowCredentials", nonempty (ro_AllowCredentials o)); ("userVerification", nonblank (ro_UserVerification o));
     ("hints", nonempty (ro_Hints o)); ("extensions", negb (bool_decide (ro_Extensions o = ∅)))] ∧
  bytes_member ms "challenge" (ro_Challenge o) ∧ timeout_member ms (ro_TimeoutMilliseconds o) ∧ string_member ms "rpId" (ro_RPID o) ∧
  objects_member descriptor_members ms "allowCredentials" (ro_AllowCredentials o) ∧
  string_member ms "userVerification" (ro_UserVerification o) ∧ strings_member ms "hints" (ro_Hints o) ∧
  extensions_member ms (ro_Extensions o).

(** ** Lemmas *)

(** Rewrites with the member a struct was given. *)
Ltac read_member :=
  match goal with
  | |- context [get (members_of_fields ?fs) ?name] =>
      rewrite (get_fields fs name _ ltac:(cbn [fmap list_fmap fst]; apply (bool_decide_unpack _); vm_compute; exact I)
                 ltac:(repeat first [apply list_elem_of_here | apply list_elem_of_further]))
  end.

Lemma has_members_fields (fs : list (string * option json)) (bs : list (string * bool)) :
  Forall2 (λ f b, f.1 = b.1 ∧ bool_decide (is_Some f.2) = b.2) fs bs → has_members (members_of_fields fs) bs.
Proof.
  unfold has_members, members_of_fields. induction 1 as [|[n v] [n' b] fs bs [Hn Hb] _ IH]; [done|]. cbn [fst snd] in *. subst n' b.
  rewrite filter_cons. destruct v as [v|]; cbn [omap list_omap fmap option_fmap option_map fst snd]; [|exact IH].
  rewrite decide_True by done. cbn. by rewrite <-IH.
Qed.

Lemma omit_list_present {A} (f : A → json) l : bool_decide (is_Some (omit_list f l)) = nonempty l.
Proof. by destruct l. Qed.
Lemma omit_string_present s : bool_decide (is_Some (omit_string s)) = nonblank s.
Proof. unfold omit_string, nonblank. by destruct (bool_decide (s = "")). Qed.
Lemma omit_false_present b : bool_decide (is_Some (omit_false b)) = b.
Proof. by destruct b. Qed.
Lemma omit_zero_present z : bool_decide (is_Some (omit_zero z)) = negb (z =? 0).
Proof. unfold omit_zero. by destruct (z =? 0). Qed.
Lemma fmap_present {A B} (f : A → B) o : bool_decide (is_Some (f <$> o)) = bool_decide (is_Some o).
Proof. by destruct o. Qed.
Lemma nonempty_fmap {A B} (f : A → B) l : nonempty (f <$> l) = nonempty l.
Proof. by destruct l. Qed.

(** Lists the members of a struct. *)
Ltac list_members :=
  apply has_members_fields;
  repeat lazymatch goal with |- Forall2 _ (_ :: _) _ => apply Forall2_cons_2; [split; [reflexivity|cbn [fst snd]]|] | |- Forall2 _ [] _ => apply Forall2_nil_2 end;
  try reflexivity;
  first [apply omit_string_present | apply omit_false_present | apply omit_zero_present | apply omit_list_present | idtac].

Lemma um_list_raw vs : um_list um_raw (Some (JArray vs)) = Ok vs.
Proof. cbn. apply map_res_Ok. induction vs; constructor; done. Qed.

Lemma objects_of {A} (f : A → json) (reads : list (list byte * json) → A → Prop) (l : list A) v :
  v = Some (jlist f l) ∨ v = omit_list f l → (∀ x, ∃ rs, f x = JObject rs ∧ reads rs x) →
  ∃ vs, um_list um_raw v = Ok vs ∧ Forall2 (λ v x, ∃ rs, v = JObject rs ∧ reads rs x) vs l.
Proof.
  intros Hv Hf. exists (f <$> l). split.
  - destruct Hv as [-> | ->]; [apply um_list_raw|]. destruct l; [done|apply um_list_raw].
  - apply Forall2_fmap_l. clear Hv. induction l; constructor; [apply Hf|done].
Qed.

Lemma omit_list_fmap {A B} (f : B → json) (g : A → B) (l : list A) : omit_list f (g <$> l) = omit_list (λ x, f (g x)) l.
Proof. destruct l as [|x l]; [done|]. unfold omit_list, jlist. cbn. by rewrite <-list_fmap_compose. Qed.

Lemma descriptor_object d : ∃ rs, json_descriptor (CredentialDescriptorToJSON d) = JObject rs ∧ descriptor_members rs d.
Proof.
  eexists. split; [reflexivity|]. split; [list_members|]. unfold string_member, bytes_member, strings_member.
  repeat read_member. split_and!; [apply um_string_jstring|done|apply um_strings_omit].
Qed.

Lemma parameter_object p :
  ∃ rs, json_parameter (mkParameterJSON (cp_Type p) (cp_Algorithm p)) = JObject rs ∧ parameter_members rs p.
Proof.
  eexists. split; [reflexivity|]. split; [list_members|]. unfold string_member. repeat read_member.
  split; [apply um_string_jstring|]. intros H. cbn. apply um_int_jint; lia.
Qed.

Lemma get_map {A} (f : A → json) (l : list (string * A)) id tree : NoDup l.*1 →
  get ((λ e, (bytes_of_string e.1, f e.2)) <$> l) id = Some tree ↔ ∃ x, (id, x) ∈ l ∧ f x = tree.
Proof.
  unfold get. induction l as [|[k x] l IH]; intros Hnd; cbn.
  - split; [done|]. intros (x & Hx & _). by apply not_elem_of_nil in Hx.
  - apply NoDup_cons in Hnd as [Hk Hnd]. case_decide as Heq.
    + apply bytes_of_string_inj in Heq as ->. split.
      * intros [= <-]. exists x. by rewrite elem_of_cons; auto.
      * intros (y & [[= ->]|Hy]%elem_of_cons & <-); [done|]. destruct Hk. apply list_elem_of_fmap. by exists (id, y).
    + rewrite (IH Hnd). split; intros (y & Hy & Hf); exists y; (split; [|done]).
      * by apply elem_of_cons; right.
      * apply elem_of_cons in Hy as [[= -> ->]|Hy]; done.
Qed.

Lemma extensionInputsToJSON_Ok inputs es : extensionInputsToJSON inputs = Ok es →
  (inputs = ∅ ∧ es = []) ∨
  inputs ≠ ∅ ∧ es ≠ [] ∧ es.*1 = (range_list inputs).*1 ∧ ∀ id tree, get ((λ e, (bytes_of_string e.1, e.2)) <$> es) id = Some tree ↔
    ∃ input, inputs !! id = Some input ∧ extensionInputToJSON id input = Ok tree.
Proof.
  unfold extensionInputsToJSON, ExtensionInputs in *. intros H. destruct (Z.eqb_spec (map_len inputs) 0) as [Hz|Hnz].
  { injection H as <-. left. split; [|done]. apply map_size_empty_inv. unfold map_len in Hz. lia. }
  right. apply bind_Ok in H as ([] & _ & H). apply map_res_Ok in H.
  assert (range_list inputs ≠ []) as Hne.
  { intros E. apply Hnz. unfold map_len. rewrite <-length_map_to_list, <-range_list_perm, E. done. }
  assert (es.*1 = (range_list inputs).*1 ∧
    ∀ id tree, (id, tree) ∈ es ↔ ∃ input, (id, input) ∈ range_list inputs ∧ extensionInputToJSON id input = Ok tree) as [Hkeys Hes].
  { clear Hnz Hne. induction H as [|[id input] e l es He _ [IHk IH]].
    - split; [done|]. intros id tree. split; [by intros ?%not_elem_of_nil|]. intros (? & ?%not_elem_of_nil & _). done.
    - apply bind_Ok in He as (tree & He & [= <-]). cbn [fmap list_fmap fst snd] in *. split; [by rewrite IHk|].
      intros id' tree'. rewrite elem_of_cons, IH. setoid_rewrite elem_of_cons. split.
      + intros [[= -> ->]|(i & Hi & Ht)]; [by exists input; auto|by exists i; auto].
      + intros (i & [[= -> ->]|Hi] & Ht); [left; congruence|right; by exists i]. }
  split; [intros ->; by apply Hnz|]. split; [intros ->; by destruct (range_list inputs)|]. split; [done|].
  intros id tree. rewrite (get_map (λ t, t)) by (rewrite Hkeys; apply NoDup_range_keys). setoid_rewrite Hes. split.
  - intros (? & (input & Hin%elem_of_range_list & Ht) & <-). by exists input.
  - intros (input & Hin%elem_of_range_list & Ht). exists tree. split; [by exists input|done].
Qed.

Lemma extensions_of ms inputs es : extensionInputsToJSON inputs = Ok es → get ms "extensions" = omit_extensions es → extensions_member ms inputs.
Proof.
  intros [[-> ->]|(Hi & He & Hkeys & Hall)]%extensionInputsToJSON_Ok Hg; [by left|right]. split; [done|].
  assert (((λ e, (bytes_of_string e.1, e.2)) <$> es).*1 = bytes_of_string <$> (range_list inputs).*1) as Hnames.
  { rewrite <-Hkeys, <-!list_fmap_compose. by apply list_fmap_ext. }
  exists ((λ e, (bytes_of_string e.1, e.2)) <$> es). split; [rewrite Hg; by destruct es|]. rewrite Hnames. split_and!; [| |done].
  - apply NoDup_fmap_2; [intros ? ?; apply bytes_of_string_inj|]. apply NoDup_range_keys.
  - by rewrite range_list_perm.
Qed.

Lemma extensions_present inputs es : extensionInputsToJSON inputs = Ok es →
  bool_decide (is_Some (omit_extensions es)) = negb (bool_decide (inputs = ∅)).
Proof.
  intros [[-> ->]|(Hi & He & _)]%extensionInputsToJSON_Ok; [done|]. rewrite (bool_decide_eq_false_2 (inputs = ∅)) by done. by destruct es.
Qed.

Lemma timeout_of ms t : get ms "timeout" = omit_zero t → timeout_member ms t.
Proof. intros Hg Ht. rewrite Hg. unfold omit_zero. destruct (Z.eqb_spec t 0) as [->|]; [done|]. apply um_int_jint; lia. Qed.

Lemma selection_of ms c :
  get ms "authenticatorSelection" = json_selection <$> ((λ s, mkSelectionJSON (sel_AuthenticatorAttachment s) (sel_ResidentKey s)
    (sel_RequireResidentKey s) (sel_UserVerification s)) <$> c) → selection_member ms c.
Proof.
  intros Hg. destruct c as [s|]; [|exact Hg]. eexists. split; [exact Hg|]. split; [list_members|]. unfold string_member. repeat read_member.
  by rewrite !um_string_omit, um_bool_omit.
Qed.

(** The tree of the options has the members of the dictionary. *)
Lemma creation_tree o dto : CredentialCreationOptionsFromProtocol o = Ok dto →
  ∃ ms, json_creationOptions dto = JObject ms ∧ creation_members ms o.
Proof.
  intros H. apply bind_Ok in H as ([] & _ & H). apply bind_Ok in H as (es & Hes & [= <-]).
  eexists. split; [unfold json_creationOptions, object; reflexivity|].
  split; [list_members; [rewrite omit_list_present; apply nonempty_fmap|rewrite fmap_present; apply fmap_present|by apply extensions_present]|].
  split; [eexists; split; [read_member; reflexivity|]; split; [list_members|]; unfold string_member; repeat read_member; split; apply um_string_jstring|].
  split; [eexists; split; [read_member; reflexivity|]; split; [list_members|]; unfold string_member, bytes_member; repeat read_member; split_and!; done || apply um_string_jstring|].
  split; [unfold bytes_member; by read_member|].
  split; [apply objects_of with (f := λ p, json_parameter (mkParameterJSON (cp_Type p) (cp_Algorithm p)));
          [left; read_member; unfold jlist, credentialParametersToJSON; cbn [coj_PubKeyCredParams]; by rewrite <-list_fmap_compose|apply parameter_object]|].
  split; [apply timeout_of; by read_member|].
  split; [apply objects_of with (f := λ d, json_descriptor (CredentialDescriptorToJSON d)); [right; read_member|apply descriptor_object]|].
  { cbn [coj_ExcludeCredentials]. unfold credentialDescriptorsToJSON. apply omit_list_fmap. }
  split; [apply selection_of; by read_member|]. unfold strings_member, string_member.
  split; [read_member; apply um_strings_omit|]. split; [read_member; apply um_string_omit|]. split; [read_member; apply um_strings_omit|].
  eapply extensions_of; [exact Hes|by read_member].
Qed.

Lemma request_tree o dto : CredentialRequestOptionsFromProtocol o = Ok dto →
  ∃ ms, json_requestOptions dto = JObject ms ∧ request_members ms o.
Proof.
  intros H. apply bind_Ok in H as (es & Hes & [= <-]).
  eexists. split; [unfold json_requestOptions, object; reflexivity|].
  split; [list_members; [rewrite omit_list_present; apply nonempty_fmap|by apply extensions_present]|].
  split; [unfold bytes_member; by read_member|]. split; [apply timeout_of; by read_member|]. unfold strings_member, string_member.
  split; [read_member; apply um_string_omit|].
  split; [apply objects_of with (f := λ d, json_descriptor (CredentialDescriptorToJSON d)); [right; read_member; apply omit_list_fmap|apply descriptor_object]|].
  split; [read_member; apply um_string_omit|]. split; [read_member; apply um_strings_omit|].
  eapply extensions_of; [exact Hes|by read_member].
Qed.

(** Objects, entry by entry. *)
Definition marshal_entry {A} (f : A → result json) (e : mapkey * A) : result (list byte * json) :=
  name ← key_name e.1; y ← f e.2; Ok (bytes_of_string name, y).

Lemma marshal_object entries : marshal_converted (CObject entries) = (out ← map_res (marshal_entry marshal_converted) entries; Ok (JObject out)).
Proof.
  cbn [marshal_converted]. apply (f_equal (λ r, out ← r; Ok (JObject out))). induction entries as [|[k x] entries IH]; [done|].
  cbn [map_res]. rewrite IH. unfold marshal_entry. cbn [fst snd]. destruct (key_name k); [|done]. cbn. by destruct (marshal_converted x).
Qed.

Lemma marshal_map entries : marshal_value (VMap map_string_any entries) = (out ← map_res (marshal_entry marshal_value) entries; Ok (JObject out)).
Proof.
  cbn [marshal_value]. change (method_of map_string_any _) with (@None (result json)). cbv iota. apply (f_equal (λ r, out ← r; Ok (JObject out))). induction entries as [|[k x] entries IH]; [done|].
  cbn [map_res]. rewrite IH. unfold marshal_entry. cbn [fst snd]. destruct (key_name k); [|done]. cbn. by destruct (marshal_value x).
Qed.

(** The dictionaries of the two extensions. *)
Definition bytes_text (b : slice byte) : json := jstring (EncodeToString (slice_list b)).
Definition prf_values_json (v : PRFValues) : json :=
  object [("first", Some (bytes_text (First v))); ("second", match Second v with Some _ => Some (bytes_text (Second v)) | None => None end)].
Definition prf_input_members (i : PRFInput) : list (list byte * json) :=
  members_of_fields [("eval", prf_values_json <$> prf_Eval i);
    ("evalByCredential", (λ m, json_map prf_values_json (range_list m)) <$> prf_EvalByCredential i)].
Definition blob_input_members (i : LargeBlobInput) : list (list byte * json) :=
  members_of_fields [("support", if bool_decide (lb_Support i = "") then None else Some (jstring (lb_Support i)));
    ("read", JBool <$> lb_Read i); ("write", match lb_Write i with Some _ => Some (bytes_text (lb_Write i)) | None => None end)].
(** The raw form keeps the allowed credentials of a stored input. *)
Definition allow_member (i : PRFInput) : list (list byte * json) :=
  match prf_AllowCredentials i with [] => [] | l => [(bytes_of_string "allowCredentials", JArray (jstring <$> l))] end.

Lemma typed_prf_values v : json_prfValues (prfValuesToJSON v) = prf_values_json v.
Proof. by destruct v as [f [s|]]. Qed.

Lemma raw_prf_values v : marshal_converted (prfValuesAnyToJSON (StoreValue.prfValuesObject v)) = Ok (prf_values_json v).
Proof. by destruct v as [f [s|]]. Qed.

Lemma typed_by_credential l : json_map json_prfValues (prod_map id prfValuesToJSON <$> l) = json_map prf_values_json l.
Proof. unfold json_map. rewrite <-list_fmap_compose. f_equal. apply list_fmap_ext. intros _ [k v] _. cbn. by rewrite typed_prf_values. Qed.

Lemma raw_by_credential l :
  marshal_converted (byCredentialToJSON (VMap map_string_any ((λ e, (KString e.1, StoreValue.prfValuesObject e.2)) <$> l))) =
  Ok (json_map prf_values_json l).
Proof.
  unfold byCredentialToJSON. cbn [as_object]. rewrite bool_decide_eq_true_2 by done. rewrite marshal_object.
  rewrite (proj2 (map_res_Ok _ _ ((λ e, (bytes_of_string e.1, prf_values_json e.2)) <$> l))); [done|].
  rewrite <-list_fmap_compose. apply Forall2_fmap_2. induction l as [|[k v] l IH]; constructor; [|done].
  unfold marshal_entry. cbn [compose prod_map fst snd id key_name]. by rewrite raw_prf_values.
Qed.

Lemma marshal_strings l : marshal_value (VSeq (TSlice "" (TBasic "string")) (VString <$> l)) = Ok (JArray (jstring <$> l)).
Proof.
  cbn [marshal_value]. change (method_of _ _) with (@None (result json)). change (byte_items _ _) with (@None (list byte)). cbv iota.
  change (Ok (JArray (jstring <$> l))) with (out ← Ok (jstring <$> l); Ok (JArray out)).
  apply (f_equal (λ r, out ← r; Ok (JArray out))). induction l as [|x l IH]; [done|]. cbn [fmap list_fmap]. by rewrite IH.
Qed.

Lemma typed_prf_input i : marshal_converted (prfInputToJSON (VPRFInput i)) = Ok (JObject (prf_input_members i)).
Proof.
  destruct i as [[e|] [m|] a]; unfold prfInputToJSON, prf_input_members; cbn [marshal_converted prf_Eval prf_EvalByCredential];
    unfold json_prfInput, object; cbn [pij_Eval pij_EvalByCredential fmap option_fmap option_map];
    by rewrite ?typed_by_credential, ?typed_prf_values.
Qed.

Lemma raw_members e m a :
  marshal_entry marshal_converted (KString "eval", prfMemberToJSON (KString "eval") (StoreValue.prfValuesObject e)) =
    Ok (bytes_of_string "eval", prf_values_json e) ∧
  marshal_entry marshal_converted (KString "evalByCredential", prfMemberToJSON (KString "evalByCredential")
    (VMap map_string_any ((λ e, (KString e.1, StoreValue.prfValuesObject e.2)) <$> m))) =
    Ok (bytes_of_string "evalByCredential", json_map prf_values_json m) ∧
  marshal_entry marshal_converted (KString "allowCredentials", prfMemberToJSON (KString "allowCredentials")
    (VSeq (TSlice "" (TBasic "string")) (VString <$> a))) = Ok (bytes_of_string "allowCredentials", JArray (jstring <$> a)).
Proof.
  unfold marshal_entry, prfMemberToJSON. cbn [fst snd key_name mbind result_bind].
  rewrite decide_True, raw_prf_values by done. split; [done|]. rewrite decide_False, decide_True, raw_by_credential by done. split; [done|].
  rewrite !decide_False by done. cbn [marshal_converted]. by rewrite marshal_strings.
Qed.

Lemma raw_prf_input i : marshal_converted (prfInputToJSON (StoreValue.normalizeBuiltInValue (VPRFInput i))) =
  Ok (JObject (prf_input_members i ++ allow_member i)).
Proof.
  destruct i as [e m a]. unfold prfInputToJSON, StoreValue.normalizeBuiltInValue, StoreValue.members, prf_input_members, allow_member.
  cbn [prf_Eval prf_EvalByCredential prf_AllowCredentials as_object]. rewrite (bool_decide_eq_true_2 (map_string_any = _)) by done.
  rewrite marshal_object.
  destruct (raw_members (default (mkPRFValues None None) e) (range_list (default ∅ m)) a) as (He & Hm & Ha).
  destruct a as [|x a]; [rewrite (bool_decide_eq_true_2 ([] = [])) by done|rewrite (bool_decide_eq_false_2 (x :: a = [])) by done];
    destruct e as [e|], m as [m|]; cbn [fmap option_fmap option_map list_fmap omap list_omap id fst snd map_res default from_option] in *;
    rewrite ?He, ?Hm, ?Ha; reflexivity.
Qed.

Lemma blob_input i :
  marshal_converted (largeBlobInputToJSON (VLargeBlobInput i)) = Ok (JObject (blob_input_members i)) ∧
  marshal_converted (largeBlobInputToJSON (StoreValue.normalizeBuiltInValue (VLargeBlobInput i))) = Ok (JObject (blob_input_members i)).
Proof.
  destruct i as [s r w]. unfold StoreValue.normalizeBuiltInValue, StoreValue.members, blob_input_members. cbn [lb_Support lb_Read lb_Write].
  cbn [largeBlobInputToJSON as_object lb_Support lb_Read lb_Write]. rewrite (bool_decide_eq_true_2 (map_string_any = _)) by done.
  cbn [marshal_converted]. rewrite marshal_map. unfold json_largeBlobInput, omit_string, object. cbn [lij_Support lij_Read lij_Write].
  destruct (bool_decide (s = "")), r as [r|], w as [w|]; split; reflexivity.
Qed.

(** The options carry the challenge of the state. *)
Lemma started_registration_challenge {RT : Runtime} ctx options r :
  StartRegistration ctx options = Ok r → co_Challenge (rsr_Options r) = rs_Challenge (rsr_State r).
Proof.
  unfold StartRegistration. intros H. do 8 apply bind_Ok in H as (? & _ & H). apply bind_Ok in H as ([? ?] & _ & H).
  do 4 apply bind_Ok in H as (? & _ & H). apply bind_Ok in H as ([? ?] & _ & H). apply bind_Ok in H as (? & _ & H). apply Ok_inj in H. by subst r.
Qed.

Lemma started_authentication_challenge {RT : Runtime} ctx options r :
  StartAuthentication ctx options = Ok r → ro_Challenge (asr_Options r) = as_Challenge (asr_State r).
Proof.
  unfold StartAuthentication. intros H. do 6 apply bind_Ok in H as (? & _ & H). apply bind_Ok in H as ([? ?] & _ & H).
  do 4 apply bind_Ok in H as (? & _ & H). apply bind_Ok in H as ([? ?] & _ & H). apply bind_Ok in H as (? & _ & H). apply Ok_inj in H. by subst r.
Qed.

(** Client data that is right but for its challenge. *)
Definition client_data_but_challenge (raw : ClientDataJSON) (d : CollectedClientData) (t : ClientDataType) (policy : OriginPolicy) : Prop :=
  ParseCollectedClientData raw = Ok d ∧ cd_Type d = t ∧ verifyCollectedClientOrigin policy d = Ok ().

Lemma challenge_text_checked raw d t policy challenge : client_data_but_challenge raw d t policy →
  (∃ hash, verifyClientData raw t challenge policy = Ok hash) ↔ cd_Challenge d = EncodeToString (slice_list (bv_value challenge)).
Proof.
  intros (Hd & Ht & Ho). apply verifyCollectedClientOrigin_Ok in Ho. split.
  - intros [h Hh]. apply verifyClientData_Ok in Hh as [(d' & Hd' & _ & Hc & _) _]. rewrite Hd in Hd'. by injection Hd' as <-.
  - intros Hc. eexists. apply verifyClientData_Ok. split; [|reflexivity]. by exists d.
Qed.

Lemma descriptor_exact dto d : CredentialDescriptorFromJSON dto = Ok d ↔
  dto = CredentialDescriptorToJSON d ∧ cdr_Type d = CredentialTypePublicKey ∧ 1 <= slice_len (bv_value (cdr_ID d)) <= 1023.
Proof.
  unfold CredentialDescriptorFromJSON, CredentialDescriptorToJSON. split.
  - intros H. apply bind_Ok in H as (b & Hb%decodeBase64URL_Ok & H).
    apply bind_Ok in H as (id & (-> & Hlo & Hhi)%map_err_Ok%newByteValue_Ok & H).
    apply bind_Ok in H as ([] & Hv%map_err_Ok & [= <-]). cbn in *. unfold CredentialDescriptor_Validate in Hv.
    apply bind_Ok in Hv as ([] & Hty%PublicKeyCredentialType_Validate_Ok & _).
    split; [destruct dto; cbn in *; by rewrite Hb|]. split; [done|]. unfold MaxCredentialIDLength in Hhi. lia.
  - intros (-> & Hty & Hlen). cbn. rewrite (proj2 (decodeBase64URL_Ok _ _ (slice_list (bv_bytes (cdr_ID d)))) eq_refl). run.
    destruct d as [ty [[b|]] ts]; cbn in *; [|unfold slice_len in Hlen; cbn in Hlen; lia].
    unfold NewCredentialID. rewrite (proj2 (newByteValue_Ok _ _ _ _ (mkByteValue (Some b)))) by (unfold MaxCredentialIDLength; split_and!; done || lia). run.
    unfold CredentialDescriptor_Validate. cbn [cdr_Type cdr_ID]. rewrite (proj2 (PublicKeyCredentialType_Validate_Ok ty ()) Hty). run.
    by rewrite (proj2 (Z.eqb_neq (bv_len _) 0)) by (unfold bv_len; cbn; lia).
Qed.

(** ** Properties *)

(** C36: the JSON text of ceremony options, parsed by any reader, has exactly the
    members of the WebAuthn dictionaries, and no others, at every level: the
    required ones always, the optional ones when they are not empty, in the order
    of the dictionaries, with the values of the options.  The challenge, user and
    credential identifiers are canonical base64url texts; every parameter,
    descriptor, hint and selection criterion is there; and there is one member
    per extension input, with its encoding. *)
Theorem browser_options_wire (text : list byte) :
  (∀ (o : PublicKeyCredentialCreationOptions) dto, CredentialCreationOptionsFromProtocol o = Ok dto →
     Marshal (json_creationOptions dto) = Some text → ∃ ms, Json.parse text = Some (JObject ms) ∧ creation_members ms o) ∧
  (∀ (o : PublicKeyCredentialRequestOptions) dto, CredentialRequestOptionsFromProtocol o = Ok dto →
     Marshal (json_requestOptions dto) = Some text → ∃ ms, Json.parse text = Some (JObject ms) ∧ request_members ms o).
Proof.
  split; intros o dto Hdto Htext%parse_print.
  - destruct (creation_tree _ _ Hdto) as (ms & Hms & H). rewrite Hms in Htext. by exists ms.
  - destruct (request_tree _ _ Hdto) as (ms & Hms & H). rewrite Hms in Htext. by exists ms.
Qed.

(** The typed PRF and large blob inputs and the raw objects they are stored
    as are sent to the browser as the same dictionary, with every byte string in
    base64url; only a raw PRF input can also carry the allowed credentials it
    was stored with. *)
Theorem browser_input_forms (p : PRFInput) (b : LargeBlobInput) :
  marshal_converted (convertInput IDPRF (VPRFInput p)) = Ok (JObject (prf_input_members p)) ∧
  marshal_converted (convertInput IDPRF (StoreValue.normalizeBuiltInValue (VPRFInput p))) =
    Ok (JObject (prf_input_members p ++ allow_member p)) ∧
  marshal_converted (convertInput IDLargeBlob (VLargeBlobInput b)) = Ok (JObject (blob_input_members b)) ∧
  marshal_converted (convertInput IDLargeBlob (StoreValue.normalizeBuiltInValue (VLargeBlobInput b))) = Ok (JObject (blob_input_members b)).
Proof. split; [apply typed_prf_input|]. split; [apply raw_prf_input|]. apply blob_input. Qed.

(** Descriptors round trip: a descriptor is read from browser JSON exactly when
    the JSON is what it is written as and it is a public-key descriptor with an
    identifier of 1 to 1023 bytes. *)
Theorem descriptor_json_exact (dto : CredentialDescriptorJSON) (d : CredentialDescriptor) :
  CredentialDescriptorFromJSON dto = Ok d ↔
  dto = CredentialDescriptorToJSON d ∧ cdr_Type d = CredentialTypePublicKey ∧ 1 <= slice_len (bv_value (cdr_ID d)) <= 1023.
Proof. apply descriptor_exact. Qed.

(** C37: from start to finish through the browser: client data that is right
    otherwise passes the check against the stored state of a ceremony exactly
    when its challenge is, character for character, the challenge of the options
    JSON that start produced for the browser. *)
Theorem issued_challenge_echoed {RT : Runtime} ctx (ro : RegistrationStartOptions) (ao : AuthenticationStartOptions) rr ar rdto adto raw d t policy
    (Hr : StartRegistration ctx ro = Ok rr) (Ha : StartAuthentication ctx ao = Ok ar)
    (Hrd : CredentialCreationOptionsFromProtocol (rsr_Options rr) = Ok rdto)
    (Had : CredentialRequestOptionsFromProtocol (asr_Options ar) = Ok adto)
    (Hd : client_data_but_challenge raw d t policy) :
  ((∃ hash, verifyClientData raw t (rs_Challenge (rsr_State rr)) policy = Ok hash) ↔ cd_Challenge d = coj_Challenge rdto) ∧
  ((∃ hash, verifyClientData raw t (as_Challenge (asr_State ar)) policy = Ok hash) ↔ cd_Challenge d = roj_Challenge adto).
Proof.
  rewrite !(challenge_text_checked _ _ _ _ _ Hd), <-(started_registration_challenge _ _ _ Hr), <-(started_authentication_challenge _ _ _ Ha).
  apply bind_Ok in Hrd as ([] & _ & Hrd). apply bind_Ok in Hrd as (es & _ & [= <-]).
  apply bind_Ok in Had as (es' & _ & [= <-]). done.
Qed.
End Spec.

(** ** Witnesses *)
#[local] Existing Instance no_custom_types.
#[local] Existing Instance default_order.
#[local] Existing Instance sample_floats.
#[local] Existing Instance sample_runtime.
#[local] Existing Instance no_methods.

Definition sample_creation : PublicKeyCredentialCreationOptions := {|
  co_RP := mkRPEntity "example.com" "Example"; co_User := sample_user; co_Challenge := mkByteValue (Some (replicate 16 xff));
  co_PubKeyCredParams := [mkParameter CredentialTypePublicKey AlgorithmES256]; co_TimeoutMilliseconds := 60000;
  co_ExcludeCredentials := [Descriptor sample_credential]; co_AuthenticatorSelection := Some (mkSelection "" "required" true "required");
  co_Hints := ["hybrid"]; co_Attestation := "none"; co_AttestationFormats := [];
  co_Extensions := {[ IDPRF := VPRFInput (mkPRFInput (Some (mkPRFValues (Some [xfb]) None)) None []) ]} |}.

Lemma browser_options_wire_witness : ∃ dto text ms,
  BrowserOptions.CredentialCreationOptionsFromProtocol sample_creation = Ok dto ∧
  Marshal (BrowserOptions.json_creationOptions dto) = Some text ∧ Json.parse text = Some (JObject ms) ∧ creation_members ms sample_creation.
Proof.
  destruct (BrowserOptions.CredentialCreationOptionsFromProtocol sample_creation) as [dto|e] eqn:E; [|vm_compute in E; discriminate E].
  destruct (Marshal (BrowserOptions.json_creationOptions dto)) as [text|] eqn:Et.
  - destruct (proj1 (browser_options_wire text) sample_creation dto E Et) as (ms & Hp & Hm).
    exists dto, text, ms. split; [reflexivity|]. split; [exact Et|]. split; [exact Hp|exact Hm].
  - vm_compute in E. injection E as E. rewrite <-E in Et. vm_compute in Et. discriminate Et.
Defined.

Lemma issued_challenge_echoed_witness : ∃ rr ar rdto adto d,
  StartRegistration None sample_start = Ok rr ∧ StartAuthentication None sample_auth_start = Ok ar ∧
  ((∃ hash, verifyClientData (rr_ClientDataJSON sample_response) ClientDataTypeCreate (rs_Challenge (rsr_State rr)) example_policy = Ok hash) ↔
   cd_Challenge d = BrowserOptions.coj_Challenge rdto) ∧
  ((∃ hash, verifyClientData (rr_ClientDataJSON sample_response) ClientDataTypeCreate (as_Challenge (asr_State ar)) example_policy = Ok hash) ↔
   cd_Challenge d = BrowserOptions.roj_Challenge adto).
Proof.
  destruct (StartRegistration None sample_start) as [rr|e] eqn:Er; [|vm_compute in Er; discriminate Er].
  destruct (StartAuthentication None sample_auth_start) as [ar|e] eqn:Ea; [|vm_compute in Ea; discriminate Ea].
  destruct (BrowserOptions.CredentialCreationOptionsFromProtocol (rsr_Options rr)) as [rdto|e] eqn:Erd;
    [|vm_compute in Er; injection Er as Er; rewrite <-Er in Erd; vm_compute in Erd; discriminate Erd].
  destruct (BrowserOptions.CredentialRequestOptionsFromProtocol (asr_Options ar)) as [adto|e] eqn:Ead;
    [|vm_compute in Ea; injection Ea as Ea; rewrite <-Ea in Ead; vm_compute in Ead; discriminate Ead].
  destruct (ParseCollectedClientData (rr_ClientDataJSON sample_response)) as [d|e] eqn:Ed; [|vm_compute in Ed; discriminate Ed].
  exists rr, ar, rdto, adto, d. split; [reflexivity|]. split; [reflexivity|].
  apply (issued_challenge_echoed None sample_start sample_auth_start rr ar rdto adto _ d ClientDataTypeCreate example_policy Er Ea Erd Ead).
  split; [exact Ed|]. vm_compute in Ed. injection Ed as Ed. rewrite <-Ed. split; vm_compute; reflexivity.
Defined.
