(* ===== verification/Transport.v ===== *)
(** * HTTP transport

    Models [src/transport/http/http.go].  A response writer is what its [Write]
    method does with the bytes it is given, together with the response it has
    produced so far: header, status and body.  A request body is the bytes its
    reader yields and the error, if any, that the read after the last byte
    reports in place of the end of the stream. *)
From S2P Require Import Prelude GoStrings Json ExtValue Types Registration Authentication JsonText Storage Browser BrowserOptions.
Set Default Goal Selector "!".
Local Open Scope Z_scope.

(** ** Package [net/http] *)
Module NetHttp.

(** [http.StatusText] *)
Definition status_texts : list (Z * string) :=
  [(100, "Continue"); (101, "Switching Protocols"); (102, "Processing"); (103, "Early Hints");
   (200, "OK"); (201, "Created"); (202, "Accepted"); (203, "Non-Authoritative Information"); (204, "No Content");
   (205, "Reset Content"); (206, "Partial Content"); (207, "Multi-Status"); (208, "Already Reported"); (226, "IM Used");
   (300, "Multiple Choices"); (301, "Moved Permanently"); (302, "Found"); (303, "See Other"); (304, "Not Modified");
   (305, "Use Proxy"); (307, "Temporary Redirect"); (308, "Permanent Redirect");
   (400, "Bad Request"); (401, "Unauthorized"); (402, "Payment Required"); (403, "Forbidden"); (404, "Not Found");
   (405, "Method Not Allowed"); (406, "Not Acceptable"); (407, "Proxy Authentication Required"); (408, "Request Timeout");
   (409, "Conflict"); (410, "Gone"); (411, "Length Required"); (412, "Precondition Failed"); (413, "Request Entity Too Large");
   (414, "Request URI Too Long"); (415, "Unsupported Media Type"); (416, "Requested Range Not Satisfiable");
   (417, "Expectation Failed"); (418, "I'm a teapot"); (421, "Misdirected Request"); (422, "Unprocessable Entity");
   (423, "Locked"); (424, "Failed Dependency"); (425, "Too Early"); (426, "Upgrade Required"); (428, "Precondition Required");
   (429, "Too Many Requests"); (431, "Request Header Fields Too Large"); (451, "Unavailable For Legal Reasons");
   (500, "Internal Server Error"); (501, "Not Implemented"); (502, "Bad Gateway"); (503, "Service Unavailable");
   (504, "Gateway Timeout"); (505, "HTTP Version Not Supported"); (506, "Variant Also Negotiates"); (507, "Insufficient Storage");
   (508, "Loop Detected"); (510, "Not Extended"); (511, "Network Authentication Required")].

Definition StatusOK : Z := 200.
Definition StatusBadRequest : Z := 400.
Definition StatusInternalServerError : Z := 500.

Definition StatusText (status : Z) : string :=
  from_option snd "" (find (λ e, e.1 =? status) status_texts).

(** The response so far; [None] is a status not yet written. *)
Record Response := mkResponse { hr_ContentType : option string; hr_Status : option Z; hr_Body : list byte }.
Definition fresh : Response := mkResponse None None [].

Definition set_content_type (v : string) (r : Response) : Response := mkResponse (Some v) (hr_Status r) (hr_Body r).
(** Only the first call of [WriteHeader] counts. *)
Definition WriteHeader (status : Z) (r : Response) : Response :=
  mkResponse (hr_ContentType r) (Some (default status (hr_Status r))) (hr_Body r).

(** [Write]: how many of the bytes were taken, and an error. *)
Definition ResponseWriter : Type := iface (list byte → nat * option error).
Definition append (bytes : list byte) (r : Response) : Response := mkResponse (hr_ContentType r) (hr_Status r) (hr_Body r ++ bytes).

Record Body := mkBody { b_bytes : list byte; b_err : option error }.
(** A nil request, a request without a body, or one with a body. *)
Definition Request : Type := option (option Body).

(** [io.ReadAll] of an [io.LimitedReader] with [n] bytes left. *)
Definition ReadAllLimited (n : Z) (body : Body) : result (list byte) :=
  if n <=? Z.of_nat (length (b_bytes body)) then Ok (take (Z.to_nat n) (b_bytes body))
  else match b_err body with Some e => Err e | None => Ok (b_bytes body) end.
End NetHttp.

Module WebauthnHttp.
Import NetHttp Browser BrowserOptions.

Definition DefaultMaxBodyBytes : Z := MaxResponseJSONBytes.
Definition ErrRequestBodyTooLarge : error := Sentinel "webauthnhttp.ErrRequestBodyTooLarge".
Definition ErrReadRequest : error := Sentinel "webauthnhttp.ErrReadRequest".
Definition ErrWriteResponse : error := Sentinel "webauthnhttp.ErrWriteResponse".
Definition ErrInvalidBodyLimit : error := Sentinel "webauthnhttp.ErrInvalidBodyLimit".
Definition ErrShortWrite : error := Sentinel "io.ErrShortWrite".

Record ErrorResponse := mkErrorResponse { er_Error : string }.
Definition json_errorResponse (e : ErrorResponse) : json := object [("error", Some (jstring (er_Error e)))].

Definition normalizeStatus (status : Z) : Z :=
  if (status <? 100) || (999 <? status) then StatusInternalServerError else status.

(** [value] is the tree of the marshalled value; an encoder ends its text with
    a newline. *)
Definition WriteJSON (response : ResponseWriter) (status : Z) (value : json) (r : Response) : Response * result () :=
  match response with
  | Iface write =>
      match @Marshal html_text value with
      | None => (r, Err (ErrorWrap ErrWriteResponse errMarshal))
      | Some text =>
          let encoded := text ++ [x0a] in
          let status := normalizeStatus status in
          let r := set_content_type "application/json" r in
          let r := WriteHeader status r in
          let '(written, err) := write encoded in
          let r := append (take written encoded) r in
          match err with
          | Some e => (r, Err (ErrorWrap ErrWriteResponse e))
          | None => (r, fail_if (negb (bool_decide (written = length encoded))) (ErrorWrap ErrWriteResponse ErrShortWrite))
          end
      end
  | _ => (r, Err (ErrorText ErrWriteResponse "response writer is nil"))
  end.

Definition WriteError (response : ResponseWriter) (status : Z) (_ : error) (r : Response) : Response * result () :=
  let status := if status <? StatusBadRequest then StatusInternalServerError else status in
  let message := StatusText status in
  let message := if bool_decide (message = "") then "error" else message in
  WriteJSON response status (json_errorResponse (mkErrorResponse message)) r.

Definition readRequestBody (request : Request) (maxBodyBytes : Z) : result (list byte) :=
  match request with
  | Some (Some body) =>
      let limit := if maxBodyBytes <=? 0 then DefaultMaxBodyBytes else maxBodyBytes in
      _ ← fail_if (MaxResponseJSONBytes <? limit) ErrInvalidBodyLimit;
      data ← wrap_err ErrReadRequest (ReadAllLimited (limit + 1) body);
      _ ← fail_if (limit <? Z.of_nat (length data)) ErrRequestBodyTooLarge;
      Ok data
  | _ => Err (ErrorText ErrReadRequest "request body is nil")
  end.

Section Browser.
Context {Floats : FloatText} {Ord : MapOrder} {Methods : MarshalMethods} {Custom : CustomTypes}.

Definition WriteCreationOptions (response : ResponseWriter) (options : PublicKeyCredentialCreationOptions) (r : Response) :
    Response * result () :=
  match CredentialCreationOptionsFromProtocol options with
  | Err e => (r, Err (ErrorWrap ErrWriteResponse e))
  | Ok dto => WriteJSON response StatusOK (json_creationOptions dto) r
  end.

Definition WriteRequestOptions (response : ResponseWriter) (options : PublicKeyCredentialRequestOptions) (r : Response) :
    Response * result () :=
  match CredentialRequestOptionsFromProtocol options with
  | Err e => (r, Err (ErrorWrap ErrWriteResponse e))
  | Ok dto => WriteJSON response StatusOK (json_requestOptions dto) r
  end.

Definition ReadRegistrationResponse (request : Request) (maxBodyBytes : Z) : result RegistrationResponse :=
  data ← readRequestBody request maxBodyBytes;
  RegistrationResponseFromJSON data.

Definition ReadAuthenticationResponse (request : Request) (maxBodyBytes : Z) : result AuthenticationResponse :=
  data ← readRequestBody request maxBodyBytes;
  AuthenticationResponseFromJSON data.
End Browser.
End WebauthnHttp.

(** ** Text without HTML characters *)
Definition html_free (l : list byte) : Prop := Forall (λ c, html_char c = false) l.

Lemma digits_html_free l : ∀ d r, take_digits l = (d, r) → html_free d.
Proof.
  induction l as [|c l IH]; intros d r H; cbn in H; [by simplify_eq; constructor|].
  destruct (is_digit c) eqn:Ec; [|by simplify_eq; constructor]. destruct (take_digits l) as [d' r'] eqn:E. simplify_eq.
  constructor; [by destruct c|by eapply IH].
Qed.

Lemma exponent_html_free l d r : parse_exponent l = Some (d, r) → html_free d.
Proof.
  destruct l as [|e l]; [by intros [= <- _]; constructor|]. cbn [parse_exponent]. case_bool_decide as He; [|by intros [= <- _]; constructor].
  assert (html_char e = false) by (rewrite !elem_of_cons, elem_of_nil in He; by destruct He as [->|[->|[]]]).
  destruct l as [|s l]; [done|]. case_bool_decide as Hs.
  - destruct (take_digits l) as [ds r'] eqn:E. case_bool_decide; [done|]. intros [= <- _].
    constructor; [done|]. constructor; [|by eapply digits_html_free]. rewrite !elem_of_cons, elem_of_nil in Hs. by destruct Hs as [->|[->|[]]].
  - destruct (take_digits (s :: l)) as [ds r'] eqn:E. case_bool_decide; [done|]. intros [= <- _]. constructor; [done|by eapply digits_html_free].
Qed.

Lemma fraction_html_free l d r : parse_fraction l = Some (d, r) → html_free d.
Proof.
  destruct l as [|c l]; [by intros [= <- _]; constructor|]. cbn [parse_fraction]. case_decide as Hc; [|by intros [= <- _]; constructor]. subst c.
  destruct (take_digits l) as [ds r'] eqn:E. case_bool_decide; [done|]. intros [= <- _]. constructor; [done|by eapply digits_html_free].
Qed.

Lemma integer_html_free l d r : parse_integer l = Some (d, r) → html_free d.
Proof.
  destruct l as [|z l]; [done|]. cbn [parse_integer]. case_decide as Hz; [subst z; intros [= <- _]; by repeat constructor|].
  destruct (take_digits (z :: l)) as [ds r'] eqn:E. case_bool_decide; [done|]. intros [= <- _]. by eapply digits_html_free.
Qed.

Lemma number_html_free l d r : parse_number l = Some (d, r) → html_free d.
Proof.
  rewrite parse_number_split. destruct l as [|s l]; [done|].
  assert (∀ sign l1, html_free sign → ('(int, l2) ← parse_integer l1; '(frac, l3) ← parse_fraction l2; '(exp, l4) ← parse_exponent l3;
     Some (sign ++ int ++ frac ++ exp, l4)) = Some (d, r) → html_free d) as Hgen.
  { intros sign l1 Hsign H. apply bind_Some in H as ([int l2] & Hi & H). apply bind_Some in H as ([frac l3] & Hf & H).
    apply bind_Some in H as ([exp l4] & He & [= <- _]). unfold html_free. rewrite !Forall_app. split_and!; [done|..].
    - by eapply integer_html_free.
    - by eapply fraction_html_free.
    - by eapply exponent_html_free. }
  case_decide as Hs; apply Hgen; [subst s; by repeat constructor|constructor].
Qed.

Lemma quote_html_free l : html_free (@quote html_text l).
Proof.
  unfold quote, html_free. constructor; [done|]. apply Forall_app. split; [|by repeat constructor].
  induction l as [|c l IH]; [constructor|]. cbn [escaped flat_map]. apply Forall_app. split; [|exact IH].
  destruct c; repeat constructor.
Qed.

Lemma separated_html_free texts : Forall html_free texts → html_free (separated texts).
Proof.
  destruct 1 as [|t texts Ht Hts]; [constructor|]. rewrite separated_cons. apply Forall_app. split; [done|].
  induction Hts as [|u texts Hu _ IH]; [constructor|]. cbn [flat_map]. constructor; [done|]. by apply Forall_app.
Qed.

Lemma print_html_free v : ∀ depth, json_ok depth v = true → html_free (@print html_text v).
Proof.
  induction v as [v Hv|vs IH|ms IH] using json_ind'; intros depth Hok.
  - destruct v as [|b|raw|s| |]; try done; [by repeat constructor|by destruct b; repeat constructor| |apply quote_html_free].
    apply bool_decide_eq_true in Hok. by eapply number_html_free.
  - cbn [json_ok] in Hok. destruct depth as [|depth]; [done|]. cbn [print]. constructor; [done|]. apply Forall_app.
    split; [|by repeat constructor]. apply separated_html_free, Forall_fmap.
    rewrite forallb_forall in Hok. rewrite Forall_forall in IH |- *. intros v Hv. apply (IH v Hv depth). by apply Hok, list_elem_of_In.
  - cbn [json_ok] in Hok. destruct depth as [|depth]; [done|]. cbn [print]. constructor; [done|]. apply Forall_app.
    split; [|by repeat constructor]. apply separated_html_free, Forall_fmap. apply andb_true_iff in Hok as [_ Hok].
    rewrite forallb_forall in Hok. rewrite Forall_forall in IH |- *. intros m Hm.
    assert (valid_utf8 m.1 && json_ok depth m.2 = true) as [_ ?]%andb_true_iff by (by apply Hok, list_elem_of_In).
    cbn [compose]. apply Forall_app. split; [apply quote_html_free|]. constructor; [done|]. by eapply IH.
Qed.

(** ** Responses and requests *)
Section Spec.
Import NetHttp Browser BrowserOptions WebauthnHttp.
Context {Floats : FloatText} {Ord : MapOrder} {Methods : MarshalMethods} {Custom : CustomTypes}.

(** A complete JSON response with the given status and object. *)
Definition delivered (r : Response) (status : Z) (ms : list (list byte * json)) : Prop :=
  hr_ContentType r = Some "application/json" ∧ hr_Status r = Some status ∧ Json.parse (hr_Body r) = Some (JObject ms) ∧ html_free (hr_Body r).

Lemma WriteJSON_delivered w status ms r u : WriteJSON w status (JObject ms) fresh = (r, Ok u) → delivered r (normalizeStatus status) ms.
Proof.
  unfold WriteJSON. destruct w as [| |write]; try done. destruct (@Marshal html_text (JObject ms)) as [text|] eqn:Em; [|done].
  destruct (write (text ++ [x0a])) as [n err]. destruct err as [e|]; [done|]. intros [= <- Hn].
  apply fail_if_Ok in Hn. guards in Hn. subst n. unfold delivered. cbn [hr_ContentType hr_Status hr_Body append set_content_type WriteHeader fresh default].
  rewrite firstn_all. cbn [app]. split_and!; try done; [by apply (@parse_print_line html_text)|].
  unfold Marshal in Em. destruct (json_ok max_depth (JObject ms)) eqn:Hok; [|done]. injection Em as <-.
  apply Forall_app. split; [by eapply (print_html_free (JObject ms))|by repeat constructor].
Qed.

Definition body_limit (maxBodyBytes : Z) : Z := if maxBodyBytes <=? 0 then 1048576 else maxBodyBytes.

Lemma readRequestBody_Ok request maxBodyBytes data : readRequestBody request maxBodyBytes = Ok data ↔
  request = Some (Some (mkBody data None)) ∧ Z.of_nat (length data) <= body_limit maxBodyBytes <= 1048576.
Proof.
  unfold readRequestBody. change (if maxBodyBytes <=? 0 then DefaultMaxBodyBytes else maxBodyBytes) with (body_limit maxBodyBytes).
  change MaxResponseJSONBytes with 1048576. set (limit := body_limit maxBodyBytes). unfold ReadAllLimited.
  assert (0 < limit) as Hpos by (unfold limit, body_limit; destruct (Z.leb_spec maxBodyBytes 0); lia). split.
  - destruct request as [[[bytes err]|]|]; try done. intros H. apply bind_Ok in H as ([] & Hl%fail_if_Ok%Z.ltb_ge & H).
    apply bind_Ok in H as (d & Hd%wrap_err_Ok & H). apply bind_Ok in H as ([] & Hlen%fail_if_Ok%Z.ltb_ge & [= <-]).
    cbn [b_bytes b_err] in Hd. destruct (Z.leb_spec (limit + 1) (Z.of_nat (length bytes))).
    + injection Hd as <-. rewrite length_take in Hlen. lia.
    + destruct err; [done|]. injection Hd as <-. done.
  - intros (-> & Hlen & Hl). rewrite (proj2 (Z.ltb_ge _ _)) by lia. run. cbn [b_bytes b_err].
    rewrite (proj2 (Z.leb_gt _ _)) by lia. run. by rewrite (proj2 (Z.ltb_ge _ _)) by lia.
Qed.

(** An error response never depends on the error: a status of at least 400 and
    the standard text of that status. *)
Theorem error_response_generic (w : ResponseWriter) (status : Z) (e : error) (r : Response)
    (H : WriteError w status e fresh = (r, Ok ())) :
  ∃ code text, delivered r code [(bytes_of_string "error", jstring text)] ∧ 400 <= code <= 999 ∧
  (text = StatusText code ∨ text = "error").
Proof.
  unfold WriteError in H. set (s := if status <? StatusBadRequest then StatusInternalServerError else status) in *.
  assert (400 <= s) as Hs by (unfold s, StatusBadRequest, StatusInternalServerError; destruct (Z.ltb_spec status 400); lia).
  apply WriteJSON_delivered in H. exists (normalizeStatus s). eexists. split; [exact H|].
  unfold normalizeStatus, StatusInternalServerError. rewrite (proj2 (Z.ltb_ge s 100)) by lia. cbn [orb].
  destruct (Z.ltb_spec 999 s) as [Hbig|Hsmall]; (split; [lia|]).
  - case_bool_decide as Ht; [by right|]. exfalso. apply Ht. unfold StatusText.
    destruct (find _ status_texts) as [[k t]|] eqn:E; [|done]. apply find_some in E as [Hin Hk%Z.eqb_eq]. cbn in Hk. subst k.
    assert (Forall (λ e, e.1 <= 999) status_texts) as Hall by (apply (bool_decide_unpack _); vm_compute; exact I).
    rewrite Forall_forall in Hall. apply list_elem_of_In in Hin. specialize (Hall _ Hin). cbn in Hall. lia.
  - case_bool_decide; [by right|by left].
Qed.

(** ** Properties *)

(** Options written over HTTP reach the browser completely or an error is
    returned: a successful write is a 200 JSON response whose body, free of the
    characters that HTML would interpret, parses to the dictionary of the
    options. *)
Theorem http_options_delivered (w : ResponseWriter) (r : Response) :
  (∀ o : PublicKeyCredentialCreationOptions, WriteCreationOptions w o fresh = (r, Ok ()) → ∃ ms, delivered r 200 ms ∧ creation_members ms o) ∧
  (∀ o : PublicKeyCredentialRequestOptions, WriteRequestOptions w o fresh = (r, Ok ()) → ∃ ms, delivered r 200 ms ∧ request_members ms o).
Proof.
  split; intros o H.
  - unfold WriteCreationOptions in H. destruct (CredentialCreationOptionsFromProtocol o) as [dto|] eqn:E; [|done].
    destruct (creation_tree _ _ E) as (ms & Hms & Hm). rewrite Hms in H. exists ms. split; [by apply WriteJSON_delivered in H|done].
  - unfold WriteRequestOptions in H. destruct (CredentialRequestOptionsFromProtocol o) as [dto|] eqn:E; [|done].
    destruct (request_tree _ _ E) as (ms & Hms & Hm). rewrite Hms in H. exists ms. split; [by apply WriteJSON_delivered in H|done].
Qed.

(** C34: a response is read from a request exactly when its whole body was read
    without an error, is no longer than the limit (one mebibyte by default and
    at most), and decodes as the browser's JSON. *)
Theorem http_read_bounded (request : Request) (maxBodyBytes : Z) :
  (∀ r, ReadRegistrationResponse request maxBodyBytes = Ok r ↔
     ∃ data, request = Some (Some (mkBody data None)) ∧ Z.of_nat (length data) <= body_limit maxBodyBytes <= 1048576 ∧
             RegistrationResponseFromJSON data = Ok r) ∧
  (∀ r, ReadAuthenticationResponse request maxBodyBytes = Ok r ↔
     ∃ data, request = Some (Some (mkBody data None)) ∧ Z.of_nat (length data) <= body_limit maxBodyBytes <= 1048576 ∧
             AuthenticationResponseFromJSON data = Ok r).
Proof.
  unfold ReadRegistrationResponse, ReadAuthenticationResponse.
  split; intros r; rewrite bind_Ok; setoid_rewrite readRequestBody_Ok; naive_solver.
Qed.
End Spec.

(** ** Witness *)
#[local] Existing Instance no_custom_types.
#[local] Existing Instance default_order.
#[local] Existing Instance sample_floats.
#[local] Existing Instance no_methods.

Definition sample_writer : NetHttp.ResponseWriter := Iface (λ bytes, (length bytes, None)).

Lemma http_options_delivered_witness : ∃ r ms,
  WebauthnHttp.WriteCreationOptions sample_writer sample_creation NetHttp.fresh = (r, Ok ()) ∧ delivered r 200 ms ∧ creation_members ms sample_creation.
Proof.
  destruct (WebauthnHttp.WriteCreationOptions sample_writer sample_creation NetHttp.fresh) as [r [[]|e]] eqn:E;
    [|vm_compute in E; discriminate E].
  destruct (proj1 (http_options_delivered sample_writer r) sample_creation E) as (ms & Hd & Hm).
  exists r, ms. split; [reflexivity|]. split; [exact Hd|exact Hm].
Defined.

Lemma error_response_generic_witness : ∃ r, WebauthnHttp.WriteError sample_writer 0 NilDereference NetHttp.fresh = (r, Ok ()) ∧
  ∃ code text, delivered r code [(bytes_of_string "error", jstring text)] ∧ 400 <= code <= 999 ∧ (text = NetHttp.StatusText code ∨ text = "error").
Proof.
  destruct (WebauthnHttp.WriteError sample_writer 0 NilDereference NetHttp.fresh) as [r [[]|e]] eqn:E; [|vm_compute in E; discriminate E].
  exists r. split; [reflexivity|]. exact (error_response_generic sample_writer 0 NilDereference r E).
Defined.
