(* ===== verification/Concurrent.v ===== *)
(** * Concurrent request handlers over shared stores

    The example applications serve each request in a goroutine of its own and
    share their stores under mutexes.  A handler is a [prog]: a sequence of
    critical sections, each a function of the environment at that moment (clock
    and random source) and the shared state, with ordinary computation between
    them.  A section may log events, which is how theorems speak about the order
    of what happened; the log is not read by the code.

    [cstep] interleaves the handlers of any number of requests, and [wp] is a
    rely-guarantee logic for it: a handler keeps an invariant of the shared
    state and the log in each of its sections, whatever the others do between
    them, and [wp_sound] carries this to every reachable configuration. *)
From S2P Require Import Prelude Ceremony.

Section Prog.
Context {S L : Type}.

Inductive prog (A : Type) : Type :=
| Ret (a : A)
| Act {B : Type} (section : Runtime → S → S * B) (log : B → list L) (k : B → prog A).
Arguments Ret {A} a.
Arguments Act {A B} section log k.

Fixpoint prog_bind {A B} (f : A → prog B) (p : prog A) : prog B :=
  match p with Ret a => f a | Act sec log k => Act sec log (λ b, prog_bind f (k b)) end.

(** A critical section, one that is not logged, and reading the environment. *)
Definition logged {B} (sec : Runtime → S → S * B) (log : B → list L) : prog B := Act sec log Ret.
Definition locked {B} (sec : Runtime → S → S * B) : prog B := logged sec (λ _, []).
Definition environment : prog Runtime := locked (λ rt s, (s, rt)).

(** [if err != nil { return err }] after a step. *)
Definition try {A B} (p : prog (result A)) (f : A → prog (result B)) : prog (result B) :=
  prog_bind (λ r, match r with Ok a => f a | Err e => Ret (Err e) end) p.

(** Ordinary computation in the environment of the moment. *)
Definition compute {A} (f : Runtime → A) : prog A := prog_bind (λ rt, Ret (f rt)) environment.

(** One critical section of a handler. *)
Definition step {A} (rt : Runtime) (s : S) (p : prog A) : option (S * list L * prog A) :=
  match p with
  | Ret _ => None
  | Act sec log k => let '(s', b) := sec rt s in Some (s', log b, k b)
  end.

(** A handler that nothing interferes with: the state it leaves, what it logged
    and its result. *)
Fixpoint alone {A} (rt : Runtime) (s : S) (p : prog A) : S * list L * A :=
  match p with
  | Ret a => (s, [], a)
  | Act sec log k =>
      let '(s1, b) := sec rt s in
      let '(s2, evs, a) := alone rt s1 (k b) in (s2, log b ++ evs, a)
  end.

Lemma alone_bind {A B} (f : A → prog B) rt (p : prog A) s :
  alone rt s (prog_bind f p) =
    let '(s1, evs, a) := alone rt s p in let '(s2, evs', b) := alone rt s1 (f a) in (s2, evs ++ evs', b).
Proof.
  revert s. induction p as [a|C sec log k IH]; intros s; cbn; [by destruct (alone rt s (f a)) as [[? ?] ?]|].
  destruct (sec rt s) as [s1 b]. rewrite IH. destruct (alone rt s1 (k b)) as [[s2 evs] a].
  destruct (alone rt s2 (f a)) as [[s3 evs'] b']. by rewrite app_assoc.
Qed.

(** A handler that succeeds alone went through each of its calls. *)
Lemma alone_try_Ok {A B} (p : prog (result A)) (f : A → prog (result B)) rt s s' evs b :
  alone rt s (try p f) = (s', evs, Ok b) ↔
  ∃ s1 evs1 evs2 a, alone rt s p = (s1, evs1, Ok a) ∧ alone rt s1 (f a) = (s', evs2, Ok b) ∧ evs = evs1 ++ evs2.
Proof.
  unfold try. rewrite alone_bind. destruct (alone rt s p) as [[s1 evs1] [a|e]]; cbn.
  - destruct (alone rt s1 (f a)) as [[s2 evs2] r] eqn:Hf. split; [intros [= -> <- ->]; eauto 10|].
    intros (? & ? & ? & ? & [= <- <- <-] & Heq & ->). by rewrite Hf in Heq; injection Heq as -> -> ->.
  - split; [done|]. by intros (? & ? & ? & ? & ? & _).
Qed.

Lemma alone_value_Ok {A B} (r : result A) (f : A → prog (result B)) rt s s' evs b :
  alone rt s (try (Ret r) f) = (s', evs, Ok b) ↔ ∃ a, r = Ok a ∧ alone rt s (f a) = (s', evs, Ok b).
Proof.
  rewrite alone_try_Ok. cbn. split.
  - intros (? & ? & ? & a & [= <- <- ->] & Hf & ->). eauto.
  - intros (a & -> & Hf). eauto 10.
Qed.

Lemma alone_compute_Ok {A B} (g : Runtime → result A) (f : A → prog (result B)) rt s s' evs b :
  alone rt s (try (compute g) f) = (s', evs, Ok b) ↔ ∃ a, g rt = Ok a ∧ alone rt s (f a) = (s', evs, Ok b).
Proof.
  rewrite alone_try_Ok. cbn. split.
  - intros (? & ? & ? & a & [= <- <- ->] & Hf & ->). eauto.
  - intros (a & -> & Hf). eauto 10.
Qed.

Lemma alone_logged_Ok {A B} (sec : Runtime → S → S * result A) log (f : A → prog (result B)) rt s s' evs b :
  alone rt s (try (logged sec log) f) = (s', evs, Ok b) ↔
  ∃ s1 a evs2, sec rt s = (s1, Ok a) ∧ alone rt s1 (f a) = (s', evs2, Ok b) ∧ evs = log (Ok a) ++ evs2.
Proof.
  rewrite alone_try_Ok. cbn. destruct (sec rt s) as [s1 r]. split.
  - intros (? & ? & evs2 & a & [= <- <- ->] & Hf & ->). rewrite app_nil_r. eauto 10.
  - intros (? & a & evs2 & [= <- ->] & Hf & ->). do 4 eexists. split_and!; [done|done|by rewrite app_nil_r].
Qed.

Lemma alone_logged {A} (sec : Runtime → S → S * A) log rt s s' evs a :
  alone rt s (logged sec log) = (s', evs, a) ↔ sec rt s = (s', a) ∧ evs = log a.
Proof.
  cbn. destruct (sec rt s) as [s1 b]. rewrite app_nil_r. split; [by intros [= -> <- ->]|by intros [[= -> ->] ->]].
Qed.
End Prog.
Arguments prog S L A : clear implicits.
Arguments Ret {S L A} a.
Arguments Act {S L A B} section log k.

Declare Scope prog_scope.
Notation "x ←! p ; q" := (try p (λ x, q)) (at level 100, p at next level, q at level 200, right associativity) : prog_scope.
Notation "x ←? r ; q" := (try (Ret r) (λ x, q)) (at level 100, r at next level, q at level 200, right associativity) : prog_scope.
Notation "x ⇐ p ; q" := (prog_bind (λ x, q) p) (at level 100, p at next level, q at level 200, right associativity) : prog_scope.

(** ** Interleaving *)
Section System.
Context {S L R A : Type} (handle : R → prog S L A).

(** The shared state, the log, and the requests received so far, each with what
    is left of its handler. *)
Record config := mkConfig { shared : S; history : list L; pool : list (R * prog S L A) }.

Definition initial (s : S) : config := mkConfig s [] [].

Inductive cstep : config → config → Prop :=
| cstep_request s h ts r : cstep (mkConfig s h ts) (mkConfig s h (ts ++ [(r, handle r)]))
| cstep_section s h ts i r p rt s' ev p' :
    ts !! i = Some (r, p) → step rt s p = Some (s', ev, p') →
    cstep (mkConfig s h ts) (mkConfig s' (h ++ ev) (<[i := (r, p')]> ts)).

Definition reachable (s : S) (c : config) : Prop := rtc cstep (initial s) c.

(** A request has been answered. *)
Definition answered (c : config) (r : R) (a : A) : Prop := (r, Ret a) ∈ pool c.

(** *** Executable schedules *)
Inductive action := Arrive (r : R) | Enter (i : nat) (rt : Runtime).

Definition transition (c : config) (a : action) : config :=
  match a with
  | Arrive r => mkConfig (shared c) (history c) (pool c ++ [(r, handle r)])
  | Enter i rt =>
      match pool c !! i with
      | Some (r, p) =>
          match step rt (shared c) p with
          | Some (s', ev, p') => mkConfig s' (history c ++ ev) (<[i := (r, p')]> (pool c))
          | None => c
          end
      | None => c
      end
  end.

Definition schedule (s : S) (l : list action) : config := foldl transition (initial s) l.

Lemma transition_rtc c a : rtc cstep c (transition c a).
Proof.
  destruct c as [s h ts], a as [r|i rt]; cbn.
  - apply rtc_once. constructor.
  - destruct (ts !! i) as [[r p]|] eqn:Hi; [|done]. destruct (step rt s p) as [[[s' ev] p']|] eqn:Hs; [|done].
    apply rtc_once. by eapply cstep_section.
Qed.

Lemma transitions_rtc c l : rtc cstep c (foldl transition c l).
Proof. revert c. induction l as [|a l IH]; intros c; [done|]. cbn. etrans; [apply transition_rtc|apply IH]. Qed.

Lemma schedule_reachable s l : reachable s (schedule s l).
Proof. apply transitions_rtc. Qed.

Lemma schedule_later s l l' : rtc cstep (schedule s l) (schedule s (l ++ l')).
Proof. unfold schedule. rewrite foldl_app. apply transitions_rtc. Qed.

(** ** The logic *)
Context (Inv : S → list L → Prop) (later : S → list L → S → list L → Prop).
Context (later_refl : ∀ s h, later s h s h).
Context (later_trans : ∀ s1 h1 s2 h2 s3 h3, later s1 h1 s2 h2 → later s2 h2 s3 h3 → later s1 h1 s3 h3).

Fixpoint wp {B} (p : prog S L B) (Q : B → S → list L → Prop) (s : S) (h : list L) : Prop :=
  match p with
  | Ret a => Q a s h
  | Act sec log k => ∀ s1 h1 rt, later s h s1 h1 → Inv s1 h1 →
      ∀ s2 b, sec rt s1 = (s2, b) →
        Inv s2 (h1 ++ log b) ∧ later s1 h1 s2 (h1 ++ log b) ∧ wp (k b) Q s2 (h1 ++ log b)
  end.

Definition stable {B} (Q : B → S → list L → Prop) : Prop :=
  ∀ b s h s' h', later s h s' h' → Q b s h → Q b s' h'.

Lemma wp_later {B} (p : prog S L B) Q s h s' h' : stable Q → later s h s' h' → wp p Q s h → wp p Q s' h'.
Proof.
  destruct p as [a|C sec log k]; cbn; [intros HQ Hl; by apply HQ|].
  intros _ Hl H s1 h1 rt Hl1. apply H. by eapply later_trans.
Qed.

Lemma wp_bind {B C} (p : prog S L B) (f : B → prog S L C) Q s h :
  wp p (λ b, wp (f b) Q) s h → wp (prog_bind f p) Q s h.
Proof.
  revert s h. induction p as [b|D sec log k IH]; intros s h; cbn; [done|].
  intros H s1 h1 rt Hl Hi s2 b Hs. destruct (H s1 h1 rt Hl Hi s2 b Hs) as (Hi2 & Hl2 & Hw). eauto.
Qed.

Lemma wp_mono {B} (p : prog S L B) (Q Q' : B → S → list L → Prop) s h :
  (∀ b s' h', Q b s' h' → Q' b s' h') → wp p Q s h → wp p Q' s h.
Proof.
  intros HQ. revert s h. induction p as [b|D sec log k IH]; intros s h; cbn; [apply HQ|].
  intros H s1 h1 rt Hl Hi s2 b Hs. destruct (H s1 h1 rt Hl Hi s2 b Hs) as (Hi2 & Hl2 & Hw). eauto.
Qed.

(** A step whose error ends the handler with that error. *)
Lemma wp_try {B C} (p : prog S L (result B)) (f : B → prog S L (result C)) Q s h :
  wp p (λ r s' h', match r with Ok b => wp (f b) Q s' h' | Err e => Q (Err e) s' h' end) s h → wp (try p f) Q s h.
Proof. intros H. apply wp_bind. eapply wp_mono; [|exact H]. by intros [b|e] s' h' Hq. Qed.

Lemma wp_compute {B} (f : Runtime → B) Q s h :
  (∀ rt s1 h1, later s h s1 h1 → Inv s1 h1 → Q (f rt) s1 h1) → wp (compute f) Q s h.
Proof.
  intros H s1 h1 rt Hl Hi s2 b [= -> ->]. rewrite app_nil_r. split_and!; [done|apply later_refl|by apply H].
Qed.

Context (Q : R → A → S → list L → Prop).

Definition safe (c : config) : Prop :=
  Inv (shared c) (history c) ∧ Forall (λ t, wp t.2 (Q t.1) (shared c) (history c)) (pool c).

Lemma cstep_safe c c' :
  (∀ r, stable (Q r)) → (∀ r s h, Inv s h → wp (handle r) (Q r) s h) → cstep c c' → safe c → safe c'.
Proof.
  intros HQ Hh Hs [Hi Hp]. destruct Hs as [s h ts r|s h ts i r p rt s' ev p' Hl Hst]; split; cbn in *.
  - done.
  - apply Forall_app. split; [done|]. constructor; [by apply Hh|constructor].
  - pose proof (Forall_lookup_1 _ _ _ _ Hp Hl) as Hw. destruct p as [a|B sec log k]; [done|]. cbn in Hst, Hw.
    destruct (sec rt s) as [s2 b] eqn:Hsec. injection Hst as <- <- <-.
    by destruct (Hw s h rt (later_refl _ _) Hi s2 b Hsec).
  - pose proof (Forall_lookup_1 _ _ _ _ Hp Hl) as Hw. destruct p as [a|B sec log k]; [done|]. cbn in Hst, Hw.
    destruct (sec rt s) as [s2 b] eqn:Hsec. injection Hst as <- <- <-.
    destruct (Hw s h rt (later_refl _ _) Hi s2 b Hsec) as (_ & Hlt & Hw').
    apply Forall_insert; [|done]. eapply Forall_impl; [exact Hp|]. intros [r' p'] H. cbn in *. by eapply wp_later.
Qed.

(** If every handler satisfies its specification, every reachable configuration
    keeps the invariant and every answered request satisfies its own. *)
Lemma wp_sound s0 c :
  (∀ r, stable (Q r)) → (∀ r s h, Inv s h → wp (handle r) (Q r) s h) → Inv s0 [] → reachable s0 c →
  Inv (shared c) (history c) ∧ (∀ r a, answered c r a → Q r a (shared c) (history c)).
Proof.
  intros HQ Hh H0 Hr.
  assert (safe c) as [Hi Hp].
  { unfold reachable in Hr. assert (safe (initial s0)) as Hs by (split; [done|constructor]). revert Hs.
    induction Hr as [c|c1 c2 c3 H12 _ IH]; [done|]. intros Hs. apply IH. by eapply cstep_safe. }
  split; [done|]. intros r a Ha. rewrite Forall_forall in Hp. exact (Hp _ Ha).
Qed.

(** ** Progress: handlers take finitely many sections *)
Lemma handler_completes c i r p :
  pool c !! i = Some (r, p) → ∀ rt : Runtime, ∃ c' a, rtc cstep c c' ∧ pool c' !! i = Some (r, Ret a).
Proof.
  intros Hi rt. revert c Hi. induction p as [a|B sec log k IH]; intros [s h ts] Hi; cbn in Hi; [eauto using rtc_refl|].
  destruct (sec rt s) as [s' b] eqn:Hs.
  destruct (IH b (mkConfig s' (h ++ log b) (<[i := (r, k b)]> ts))) as (c' & a & Hc & Ha).
  - cbn. apply list_lookup_insert_eq. by eapply lookup_lt_Some.
  - exists c', a. split; [|done]. eapply rtc_l; [|exact Hc]. eapply cstep_section; [done|]. cbn. by rewrite Hs.
Qed.
End System.
Arguments config S L R A : clear implicits.
Arguments action R : clear implicits.

(** ** Histories

    What must have happened before an event of a history, and facts that hold
    since an event until another one cancels them. *)
Section Histories.
Context {L : Type}.
Implicit Types (h : list L) (e : L).

(** Every event is justified by what came before it. *)
Definition justified_history (justified : list L → L → Prop) h : Prop := ∀ h1 e h2, h = h1 ++ e :: h2 → justified h1 e.

Lemma justified_nil justified : justified_history justified [].
Proof. intros h1 e h2 H. by destruct h1. Qed.

Lemma justified_snoc justified h e : justified_history justified h → justified h e → justified_history justified (h ++ [e]).
Proof.
  intros Ht He h1 e' h2 Heq. destruct h2 as [|e2 h2 _] using rev_ind.
  - apply app_inj_tail in Heq as [<- <-]. done.
  - rewrite app_comm_cons, app_assoc in Heq. apply app_inj_tail in Heq as [-> _]. by eapply Ht.
Qed.

Lemma justified_elem justified h e : justified_history justified h → e ∈ h → ∃ h1 h2, h = h1 ++ e :: h2 ∧ justified h1 e.
Proof. intros Ht (h1 & h2 & ->)%list_elem_of_split. eauto. Qed.

(** [e] happened, and no event that cancels it since. *)
Definition holds_since (e : L) (cancels : L → Prop) h : Prop := ∃ h1 h2, h = h1 ++ e :: h2 ∧ Forall (λ x, ¬ cancels x) h2.

Lemma holds_since_now e cancels h : holds_since e cancels (h ++ [e]).
Proof. exists h, []. by split. Qed.

Lemma holds_since_snoc e cancels h x : ¬ cancels x → holds_since e cancels h → holds_since e cancels (h ++ [x]).
Proof.
  intros Hx (h1 & h2 & -> & Hn). exists h1, (h2 ++ [x]). rewrite <-app_assoc. split; [done|]. by apply Forall_app; split; [|constructor].
Qed.

Lemma holds_since_elem e cancels h : holds_since e cancels h → e ∈ h.
Proof. intros (h1 & h2 & -> & _). apply elem_of_app. right. by left. Qed.

(** If it holds after an event that cancels it, it happened after that event. *)
Lemma holds_since_after e cancels h1 x h2 : cancels x → e ≠ x → holds_since e cancels (h1 ++ x :: h2) → e ∈ h2.
Proof.
  intros Hx Hne (g1 & g2 & Hg & Hn). apply app_eq_app in Hg as (l & [[-> Hg]|[-> Hg]]).
  - destruct l as [|y l]; [by injection Hg as -> _|]. injection Hg as -> ->. apply Forall_app in Hn as [_ Hn]. by inversion Hn.
  - destruct l as [|y l]; [by injection Hg as -> _|]. injection Hg as <- ->. apply elem_of_app. right. by left.
Qed.

Lemma elem_of_snoc e h : e ∈ h ++ [e].
Proof. apply elem_of_app. right. by left. Qed.

Lemma prefix_subseteq h h' : h `prefix_of` h' → h ⊆ h'.
Proof. intros [k ->] e He. apply elem_of_app. by left. Qed.

Lemma prefix_snoc h h' e : h `prefix_of` h' → h `prefix_of` h' ++ [e].
Proof. intros [k ->]. exists (k ++ [e]). by rewrite app_assoc. Qed.

Lemma sublist_prefix (l h h' : list L) : l `sublist_of` h → h `prefix_of` h' → l `sublist_of` h'.
Proof. intros Hl [k ->]. by apply sublist_inserts_r. Qed.

Lemma sublist_snoc (l h h' : list L) e : l `sublist_of` h → h `prefix_of` h' → l ++ [e] `sublist_of` h' ++ [e].
Proof. intros Hl Hp. apply sublist_app; [by eapply sublist_prefix|done]. Qed.

Lemma sublist_one e h : e ∈ h → [e] `sublist_of` h.
Proof. intros (h1 & h2 & ->)%list_elem_of_split. apply sublist_inserts_l, sublist_skip, sublist_nil_l. Qed.
End Histories.

(** ** Tables of pending ceremonies

    A map whose entries were logged when saved and are logged when consumed. *)
Section Tables.
Context {L St : Type} (saved consumed : string → St → L).
Context (saved_consumed : ∀ id id' x y, saved id x ≠ consumed id' y).
Implicit Types (m : gmap string St) (h : list L).

Definition pending (id : string) (x : St) h : Prop := holds_since (saved id x) (λ e, ∃ y, e = consumed id y) h.
Definition table_logged m h : Prop := ∀ id x, m !! id = Some x → pending id x h.

Lemma table_empty : table_logged ∅ [].
Proof. intros id x H. by rewrite lookup_empty in H. Qed.

Lemma table_shrinks m m' h : m' ⊆ m → table_logged m h → table_logged m' h.
Proof. intros Hs Ht id x H. apply Ht. by eapply lookup_weaken. Qed.

Lemma table_event m h e : (∀ id x, e ≠ consumed id x) → table_logged m h → table_logged m (h ++ [e]).
Proof. intros He Ht id x H. apply holds_since_snoc; [by intros [y ->]; eapply He|by apply Ht]. Qed.

Lemma table_saved m h id x : table_logged m h → table_logged (<[id := x]> m) (h ++ [saved id x]).
Proof.
  intros Ht i y. rewrite lookup_insert_Some. intros [[<- <-]|[_ H]]; [apply holds_since_now|].
  apply holds_since_snoc; [by intros [z ?%saved_consumed]|by apply Ht].
Qed.

Lemma table_consumed m h id x : (∀ i j y z, consumed i y = consumed j z → i = j) →
  table_logged m h → table_logged (delete id m) (h ++ [consumed id x]).
Proof.
  intros Hinj Ht i y. rewrite lookup_delete_Some. intros [Hne H]. apply holds_since_snoc; [|by apply Ht].
  intros [z Hz%Hinj]. congruence.
Qed.
End Tables.
