(* ===== verification/Memory.v ===== *)
(** * The stores of the integration example

    Models [src/examples/integration/memory.go] and the store types of
    [src/examples/integration/app.go].  Each operation is the critical section
    of its method: it takes the environment and the store and returns the store
    and the method's result.  What a method does before it takes the lock reads
    no store, so that the method is one section. *)
From S2P Require Import Prelude Base64 AuthData ExtValue Types Extension Json JsonText Ceremony State Registration Authentication RelyingParty StoreValue Storage.
Local Open Scope Z_scope.

Module Integration.

Definition errDenied : error := Sentinel "application: request denied".
Definition errRisk : error := Sentinel "application: additional authentication required".
Definition errDuplicate : error := Sentinel "application: credential already registered".

(** [ctx.Err()] at the head of a store method. *)
Definition ctx_Err (ctx : context) (method : string) : result () :=
  match ctx method 0%nat with Some e => Err e | None => Ok () end.

(** [string(id.Bytes())] *)
Definition bytes_key (id : byteValue) : string := string_of_bytes (slice_list (bv_bytes id)).

(** ** Accounts *)
Record memoryAccounts := mkAccounts { ma_users : gmap string UserEntity; ma_grants : gmap string string }.

Definition EnrollmentUser (s : memoryAccounts) (ctx : context) (session : string) : result UserEntity :=
  _ ← ctx_Err ctx "EnrollmentUser";
  let granted := ma_grants s !! session in
  let user := ma_users s !! default "" granted in
  _ ← fail_if (bool_decide (session = "") || bool_decide (granted = None) || bool_decide (user = None)) errDenied;
  of_option errDenied user.

Definition UserByName (s : memoryAccounts) (ctx : context) (name : string) : result UserEntity :=
  _ ← ctx_Err ctx "UserByName";
  of_option errDenied (ma_users s !! name).

(** ** Ceremonies *)
Inductive ceremonyKind := registration | authentication.
#[export] Instance ceremonyKind_eq_dec : EqDecision ceremonyKind.
Proof. solve_decision. Defined.

Record savedCeremony := mkSaved {
  sc_kind : ceremonyKind;
  sc_session : string;
  sc_account : UserHandle;
  sc_expires : Z;
  sc_payload : list byte;
}.

(** The field [now] is a clock: a function of the environment. *)
Record memoryCeremonies := mkCeremonies { mc_entries : gmap string savedCeremony; mc_now : Runtime → Z }.

Definition with_entries (s : memoryCeremonies) (m : gmap string savedCeremony) : memoryCeremonies := mkCeremonies m (mc_now s).

(** The loop that deletes what has expired. *)
Definition prune (now : Z) (m : gmap string savedCeremony) : gmap string savedCeremony :=
  filter (λ kv, now < sc_expires kv.2) m.

Definition Save (ctx : context) (id : string) (saved : savedCeremony) (rt : Runtime) (s : memoryCeremonies) :
    memoryCeremonies * result () :=
  match ctx_Err ctx "Save" with
  | Err e => (s, Err e)
  | Ok _ =>
      let now := mc_now s rt in
      let entries := prune now (mc_entries s) in
      if bool_decide (is_Some (entries !! id)) then (with_entries s entries, Err errDenied)
      else if bool_decide (id = "") || bool_decide (sc_session saved = "") || negb (now <? sc_expires saved) || (128 <=? map_len entries)
      then (with_entries s entries, Err errDenied)
      else (with_entries s (<[id := saved]> entries), Ok ())
  end.

Definition Consume (ctx : context) (id session : string) (kind : ceremonyKind) (account : option UserHandle)
    (rt : Runtime) (s : memoryCeremonies) : memoryCeremonies * result savedCeremony :=
  match ctx_Err ctx "Consume" with
  | Err e => (s, Err e)
  | Ok _ =>
      match mc_entries s !! id with
      | None => (s, Err errDenied)
      | Some saved =>
          if bool_decide (session = "") || negb (bool_decide (sc_session saved = session)) || negb (bool_decide (sc_kind saved = kind))
             || match account with Some a => negb (bv_Equal (sc_account saved) a) | None => false end
          then (s, Err errDenied)
          else
            let s := with_entries s (delete id (mc_entries s)) in
            if negb (mc_now s rt <? sc_expires saved) then (s, Err ErrCeremonyExpired) else (s, Ok saved)
      end
  end.

(** ** Credentials *)
Record savedCredential := mkSavedCredential { sd_payload : list byte; sd_version : Z }.
Record memoryCredentials := mkCredentials { md_entries : gmap string savedCredential; md_decoder : COSEKeyDecoder }.
Record credentialSnapshot := mkSnapshot { cs_record : CredentialRecord; cs_version : Z }.

Definition MaxUint64 : Z := 2 ^ 64 - 1.

(** ** Sessions *)
Record memorySessions := mkSessions { ms_entries : gmap string UserHandle }.

Definition ceremonyID (rt : Runtime) : result string :=
  raw ← rand_Reader 32;
  Ok (EncodeToString raw).

Definition Create (ctx : context) (user : UserHandle) (rt : Runtime) (s : memorySessions) : memorySessions * result string :=
  match (_ ← ctx_Err ctx "Create"; ceremonyID rt) with
  | Err e => (s, Err e)
  | Ok id => (mkSessions (<[id := user]> (ms_entries s)), Ok id)
  end.

Section Credentials.
Context {Floats : FloatText} {Ord : MapOrder} {Custom : CustomTypes}.

(** One turn of the loop over the entries. *)
Definition list_entry (decoder : COSEKeyDecoder) (user : UserHandle) (entry : savedCredential) : result (list CredentialDescriptor) :=
  record ← Storage.UnmarshalCredentialRecord (sd_payload entry) decoder;
  Ok (if bv_Equal (cr_UserHandle record) user then [Descriptor record] else []).

Definition List (ctx : context) (user : UserHandle) (s : memoryCredentials) : result (list CredentialDescriptor) :=
  _ ← ctx_Err ctx "List";
  out ← map_res (λ kv, list_entry (md_decoder s) user kv.2) (range_list (md_entries s));
  Ok (concat out).

Definition Lookup (ctx : context) (id : RawID) (user : UserHandle) (s : memoryCredentials) : result credentialSnapshot :=
  _ ← ctx_Err ctx "Lookup";
  entry ← of_option errDenied (md_entries s !! bytes_key id);
  record ← Storage.UnmarshalCredentialRecord (sd_payload entry) (md_decoder s);
  _ ← fail_if (negb (bv_Equal (cr_UserHandle record) user)) errDenied;
  Ok (mkSnapshot record (sd_version entry)).

Definition set_credential (key : string) (entry : savedCredential) (s : memoryCredentials) : memoryCredentials :=
  mkCredentials (<[key := entry]> (md_entries s)) (md_decoder s).

Definition Insert (ctx : context) (record : CredentialRecord) (s : memoryCredentials) : memoryCredentials * result () :=
  match (_ ← ctx_Err ctx "Insert"; Storage.MarshalCredentialRecord record) with
  | Err e => (s, Err e)
  | Ok payload =>
      let key := bytes_key (cr_ID record) in
      if bool_decide (is_Some (md_entries s !! key)) then (s, Err errDuplicate)
      else (set_credential key (mkSavedCredential payload 1) s, Ok ())
  end.

(** What [Update] writes for an entry. *)
Definition next_entry (decoder : COSEKeyDecoder) (update : CredentialUpdate) (version : Z) (entry : savedCredential) : result savedCredential :=
  record ← Storage.UnmarshalCredentialRecord (sd_payload entry) decoder;
  next ← ApplyTo update record;
  payload ← Storage.MarshalCredentialRecord next;
  Ok (mkSavedCredential payload ((version + 1) mod 2 ^ 64)).

Definition Update (ctx : context) (update : CredentialUpdate) (version : Z) (s : memoryCredentials) : memoryCredentials * result () :=
  match ctx_Err ctx "Update" with
  | Err e => (s, Err e)
  | Ok _ =>
      let key := bytes_key (cu_ID update) in
      match md_entries s !! key with
      | None => (s, Err ErrCredentialUpdateConflict)
      | Some entry =>
          if negb (sd_version entry =? version) || (version =? MaxUint64) then (s, Err ErrCredentialUpdateConflict)
          else match next_entry (md_decoder s) update version entry with
               | Err e => (s, Err e)
               | Ok entry => (set_credential key entry s, Ok ())
               end
      end
  end.
End Credentials.

(** ** What each operation does *)
Section Specs.
Context {Floats : FloatText} {Ord : MapOrder} {Custom : CustomTypes}.

Lemma EnrollmentUser_Ok s ctx session user :
  EnrollmentUser s ctx session = Ok user →
  session ≠ "" ∧ ∃ name, ma_grants s !! session = Some name ∧ ma_users s !! name = Some user.
Proof.
  intros H. apply bind_Ok in H as ([] & _ & H). apply bind_Ok in H as ([] & Hg%fail_if_Ok & H%of_option_Ok).
  guards in Hg. destruct Hg as [[Hs Hg] _]. split; [done|]. destruct (ma_grants s !! session) as [name|]; [eauto|done].
Qed.

(** Entries only leave the store, except the one saved. *)
Lemma Save_spec ctx id saved rt s s' r :
  Save ctx id saved rt s = (s', r) →
  mc_now s' = mc_now s ∧
  match r with
  | Ok _ => sc_session saved ≠ "" ∧ id ≠ "" ∧ mc_now s rt < sc_expires saved ∧ mc_entries s' !! id = Some saved ∧
            map_len (mc_entries s') <= 128 ∧
            (∀ i c, mc_entries s' !! i = Some c → i = id ∧ c = saved ∨ i ≠ id ∧ mc_entries s !! i = Some c)
  | Err _ => mc_entries s' ⊆ mc_entries s
  end.
Proof.
  unfold Save. destruct (ctx_Err ctx "Save") as [[]|e]; [|intros [= <- <-]; split; [done|reflexivity]].
  set (entries := prune _ _). assert (entries ⊆ mc_entries s) as Hsub by apply map_filter_subseteq.
  case_bool_decide as Hex; [intros [= <- <-]; by split|].
  destruct (_ || _) eqn:Hg; [intros [= <- <-]; by split|].
  intros [= <- <-]. split; [done|]. apply eq_None_not_Some in Hex.
  apply orb_false_iff in Hg as [Hg Hn%Z.leb_gt]. guards in Hg. destruct Hg as [[Hid Hs] Ht].
  cbn [with_entries mc_entries]. split_and!; try done.
  - by rewrite lookup_insert_eq.
  - unfold map_len in *. rewrite map_size_insert_None by done. lia.
  - intros i c Hi. destruct (decide (i = id)) as [-> |Hne].
    + rewrite lookup_insert_eq in Hi. injection Hi as <-. by left.
    + rewrite lookup_insert_ne in Hi by done. right. split; [done|]. by eapply lookup_weaken.
Qed.

Lemma Consume_spec ctx id session kind account rt s s' r :
  Consume ctx id session kind account rt s = (s', r) →
  mc_now s' = mc_now s ∧ mc_entries s' ⊆ mc_entries s ∧
  (∀ c, r = Ok c → mc_entries s !! id = Some c ∧ mc_entries s' = delete id (mc_entries s) ∧
     session ≠ "" ∧ sc_session c = session ∧ sc_kind c = kind ∧ mc_now s rt < sc_expires c ∧
     (∀ a, account = Some a → bv_Equal (sc_account c) a = true)).
Proof.
  unfold Consume. destruct (ctx_Err ctx "Consume") as [[]|e]; [|intros [= <- <-]; split_and!; done].
  destruct (mc_entries s !! id) as [c|] eqn:He; [|intros [= <- <-]; split_and!; done].
  destruct (_ || _) eqn:Hg; [intros [= <- <-]; split_and!; done|].
  apply orb_false_iff in Hg as [Hg Ha]. guards in Hg. destruct Hg as [[Hs Hss] Hk].
  cbn [with_entries mc_now].
  destruct (negb _) eqn:Ht; intros [= <- <-]; (split_and!; [done|apply delete_subseteq|]); [done|].
  intros c' [= <-]. guards in Ht. split_and!; try done. intros a ->. by apply negb_false_iff.
Qed.

Lemma Lookup_Ok ctx id user s snapshot :
  Lookup ctx id user s = Ok snapshot →
  ∃ entry, md_entries s !! bytes_key id = Some entry ∧ cs_version snapshot = sd_version entry ∧
    Storage.UnmarshalCredentialRecord (sd_payload entry) (md_decoder s) = Ok (cs_record snapshot) ∧
    bv_Equal (cr_UserHandle (cs_record snapshot)) user = true.
Proof.
  intros H. apply bind_Ok in H as ([] & _ & H). apply bind_Ok in H as (entry & He%of_option_Ok & H).
  apply bind_Ok in H as (record & Hr & H). apply bind_Ok in H as ([] & Hu%fail_if_Ok%negb_false_iff & [= <-]). eauto.
Qed.

Lemma List_Ok ctx user s out :
  List ctx user s = Ok out → Forall (λ d, ∃ key entry record, md_entries s !! key = Some entry ∧
    Storage.UnmarshalCredentialRecord (sd_payload entry) (md_decoder s) = Ok record ∧
    bv_Equal (cr_UserHandle record) user = true ∧ d = Descriptor record) out.
Proof.
  intros H. apply bind_Ok in H as ([] & _ & H). apply bind_Ok in H as (ls & Hls & [= <-]).
  apply Forall_concat, Forall_forall. intros l Hl. apply map_res_Ok in Hls.
  apply list_elem_of_lookup in Hl as [i Hi]. destruct (Forall2_lookup_r _ _ _ _ _ Hls Hi) as ([key entry] & Hk & He).
  apply list_elem_of_lookup_2, elem_of_range_list in Hk. cbn in He. apply bind_Ok in He as (record & Hr & [= <-]).
  destruct (bv_Equal _ user) eqn:Hu; [|constructor]. constructor; [|constructor]. eauto 10.
Qed.

Lemma Insert_spec ctx record s s' r :
  Insert ctx record s = (s', r) →
  match r with
  | Ok _ => md_entries s !! bytes_key (cr_ID record) = None ∧ ∃ payload, Storage.MarshalCredentialRecord record = Ok payload ∧
            s' = set_credential (bytes_key (cr_ID record)) (mkSavedCredential payload 1) s
  | Err _ => s' = s
  end.
Proof.
  unfold Insert. destruct (_ ← ctx_Err _ _; _) as [payload|e] eqn:Hp; [|by intros [= <- <-]].
  apply bind_Ok in Hp as ([] & _ & Hp). case_bool_decide as Hex; intros [= <- <-]; [done|].
  apply eq_None_not_Some in Hex. eauto.
Qed.

(** An update writes over the entry of exactly the given version. *)
Lemma Update_spec ctx update version s s' r :
  Update ctx update version s = (s', r) →
  match r with
  | Ok _ => version ≠ MaxUint64 ∧
            ∃ payload record next payload',
              md_entries s !! bytes_key (cu_ID update) = Some (mkSavedCredential payload version) ∧
              Storage.UnmarshalCredentialRecord payload (md_decoder s) = Ok record ∧ ApplyTo update record = Ok next ∧
              Storage.MarshalCredentialRecord next = Ok payload' ∧
              s' = set_credential (bytes_key (cu_ID update)) (mkSavedCredential payload' ((version + 1) mod 2 ^ 64)) s
  | Err _ => s' = s
  end.
Proof.
  unfold Update. destruct (ctx_Err ctx "Update") as [[]|e]; [|by intros [= <- <-]].
  destruct (md_entries s !! _) as [[payload v]|] eqn:He; [|by intros [= <- <-]].
  destruct (_ || _) eqn:Hg; [by intros [= <- <-]|]. guards in Hg. cbn in Hg. destruct Hg as [-> Hm].
  destruct (next_entry _ _ _ _) as [entry|e] eqn:Hn; intros [= <- <-]; [|done]. split; [done|].
  apply bind_Ok in Hn as (record & Hr & Hn). apply bind_Ok in Hn as (next & Hx & Hn). apply bind_Ok in Hn as (p' & Hp & [= <-]).
  eauto 10.
Qed.

Lemma Create_spec ctx user rt s s' r :
  Create ctx user rt s = (s', r) →
  match r with
  | Ok token => ceremonyID rt = Ok token ∧ s' = mkSessions (<[token := user]> (ms_entries s))
  | Err _ => s' = s
  end.
Proof.
  unfold Create. destruct (_ ← ctx_Err _ _; _) as [token|e] eqn:Hp; intros [= <- <-]; [|done].
  by apply bind_Ok in Hp as ([] & _ & Hp).
Qed.

(** *** Exactly when each succeeds *)
Lemma ctx_Err_Ok ctx method : ctx_Err ctx method = Ok () ↔ ctx method 0%nat = None.
Proof. unfold ctx_Err. by destruct (ctx method 0%nat). Qed.

Lemma Consume_Ok ctx id session kind rt s s' c :
  Consume ctx id session kind None rt s = (s', Ok c) ↔
  ctx "Consume" 0%nat = None ∧ mc_entries s !! id = Some c ∧ session ≠ "" ∧ sc_session c = session ∧ sc_kind c = kind ∧
  mc_now s rt < sc_expires c ∧ s' = with_entries s (delete id (mc_entries s)).
Proof.
  rewrite <-ctx_Err_Ok. unfold Consume. destruct (ctx_Err ctx "Consume") as [[]|e]; [|split; [done|by intros [? _]]].
  destruct (mc_entries s !! id) as [c'|]; [|split; [done|by intros (_ & ? & _)]]. rewrite orb_false_r.
  cbn [with_entries mc_now]. split.
  - destruct (_ || _) eqn:Hg; [done|]. guards in Hg. destruct Hg as [[Hs Hss] Hk]. destruct (negb _) eqn:Ht; intros [= <- <-].
    guards in Ht. done.
  - intros (_ & [= ->] & Hs & -> & -> & Ht & ->). rewrite (bool_decide_eq_false_2 (session = "")) by done.
    rewrite (bool_decide_eq_true_2 (session = session)), (bool_decide_eq_true_2 (kind = kind)) by done. cbn [negb orb].
    by rewrite (proj2 (Z.ltb_lt _ _) Ht).
Qed.

Lemma Lookup_Ok_iff ctx id user s snapshot :
  Lookup ctx id user s = Ok snapshot ↔ ctx "Lookup" 0%nat = None ∧
  ∃ entry, md_entries s !! bytes_key id = Some entry ∧ cs_version snapshot = sd_version entry ∧
    Storage.UnmarshalCredentialRecord (sd_payload entry) (md_decoder s) = Ok (cs_record snapshot) ∧
    bv_Equal (cr_UserHandle (cs_record snapshot)) user = true.
Proof.
  rewrite <-ctx_Err_Ok. split.
  - intros H. split; [|by eapply Lookup_Ok]. by apply bind_Ok in H as ([] & Hc & _).
  - intros (Hc & entry & He & Hv & Hr & Hu). unfold Lookup. rewrite Hc. run. rewrite He. run. rewrite Hr. run. rewrite Hu. run.
    destruct snapshot as [r v]. cbn in *. by rewrite Hv.
Qed.

Lemma Update_Ok_iff ctx update version s s' :
  Update ctx update version s = (s', Ok ()) ↔ ctx "Update" 0%nat = None ∧ version ≠ MaxUint64 ∧
  ∃ payload record next payload',
    md_entries s !! bytes_key (cu_ID update) = Some (mkSavedCredential payload version) ∧
    Storage.UnmarshalCredentialRecord payload (md_decoder s) = Ok record ∧ ApplyTo update record = Ok next ∧
    Storage.MarshalCredentialRecord next = Ok payload' ∧
    s' = set_credential (bytes_key (cu_ID update)) (mkSavedCredential payload' ((version + 1) mod 2 ^ 64)) s.
Proof.
  rewrite <-ctx_Err_Ok. split.
  - intros H. split; [|by apply Update_spec in H]. unfold Update in H. by destruct (ctx_Err ctx "Update") as [[]|e].
  - intros (Hc & Hm & p & r & next & p' & He & Hu & Ha & Hp & ->). unfold Update, next_entry. rewrite Hc, He. cbn [sd_version sd_payload].
    rewrite Z.eqb_refl, (proj2 (Z.eqb_neq _ _) Hm). cbn [negb orb]. rewrite Hu. run. rewrite Ha. run. rewrite Hp. done.
Qed.

Lemma Create_Ok ctx user rt s s' token :
  Create ctx user rt s = (s', Ok token) ↔
  ctx "Create" 0%nat = None ∧ ceremonyID rt = Ok token ∧ s' = mkSessions (<[token := user]> (ms_entries s)).
Proof.
  rewrite <-ctx_Err_Ok. unfold Create. destruct (ctx_Err ctx "Create") as [[]|e]; cbn [mbind result_bind]; [|split; [done|by intros [? _]]].
  destruct (ceremonyID rt) as [id|e]; [|split; [done|by intros (_ & ? & _)]]. split; [by intros [= <- ->]|by intros (_ & [= ->] & ->)].
Qed.
End Specs.

End Integration.
