(* ===== verification/Application.v ===== *)
(** * The integration example: accounts, ceremonies, credentials, sessions

    Models the handlers of [src/examples/integration/app.go] as programs over
    the stores of [Memory], interleaved as [Concurrent] describes: any number of
    requests are served at once, in any order of their critical sections, while
    the host changes accounts and enrollment grants as it likes. *)
From S2P Require Import Prelude Base64 Sha2 AuthData ClientData Origin ExtValue Types Extension Attestation Json JsonText Ceremony State Registration Authentication RelyingParty StoreValue Storage Browser BrowserOptions Concurrent Memory.
Local Open Scope Z_scope.
Local Open Scope prog_scope.

Module App.
Import Browser BrowserOptions Integration.

(** ** The shared state and the log *)
Record stores := mkStores {
  st_accounts : memoryAccounts;
  st_ceremonies : memoryCeremonies;
  st_credentials : memoryCredentials;
  st_sessions : memorySessions;
}.

(** What a successful store call did, and what the host did.  An authorization
    is logged with the ceremony it is asked for: none yet when an enrollment
    begins, the id of the request when it is finished. *)
Inductive event :=
| HostChanged (accounts : memoryAccounts)
| Authorized (finishing : option string) (session : string) (user : UserEntity)
| Saved (id : string) (ceremony : savedCeremony)
| Consumed (id : string) (ceremony : savedCeremony)
| Inserted (record : CredentialRecord)
| Updated (update : CredentialUpdate) (version : Z)
| Session (token : string) (user : UserHandle).

Definition on_ok {B} (log : B → event) (r : result B) : list event :=
  match r with Ok b => [log b] | Err _ => [] end.

Definition on_ceremonies {B} (f : Runtime → memoryCeremonies → memoryCeremonies * B) (rt : Runtime) (s : stores) : stores * B :=
  let '(m, b) := f rt (st_ceremonies s) in (mkStores (st_accounts s) m (st_credentials s) (st_sessions s), b).
Definition on_credentials {B} (f : memoryCredentials → memoryCredentials * B) (rt : Runtime) (s : stores) : stores * B :=
  let '(m, b) := f (st_credentials s) in (mkStores (st_accounts s) (st_ceremonies s) m (st_sessions s), b).
Definition on_sessions {B} (f : Runtime → memorySessions → memorySessions * B) (rt : Runtime) (s : stores) : stores * B :=
  let '(m, b) := f rt (st_sessions s) in (mkStores (st_accounts s) (st_ceremonies s) (st_credentials s) m, b).
Definition reading {B} (f : stores → B) (rt : Runtime) (s : stores) : stores * B := (s, f s).

Definition handler (A : Type) : Type := prog stores event (result A).

Section Handlers.
Context {Floats : FloatText} {Ord : MapOrder} {Custom : CustomTypes} {CE : CustomEvidence} {Methods : MarshalMethods}.

(** *** The store interfaces, as calls of a handler *)
Definition accounts_EnrollmentUser (finishing : option string) (ctx : context) (session : string) : handler UserEntity :=
  logged (reading (λ s, EnrollmentUser (st_accounts s) ctx session)) (on_ok (Authorized finishing session)).
Definition accounts_UserByName (ctx : context) (name : string) : handler UserEntity :=
  locked (reading (λ s, UserByName (st_accounts s) ctx name)).
Definition ceremonies_Save (ctx : context) (id : string) (saved : savedCeremony) : handler () :=
  logged (on_ceremonies (Save ctx id saved)) (on_ok (λ _, Saved id saved)).
Definition ceremonies_Consume (ctx : context) (id session : string) (kind : ceremonyKind) (account : option UserHandle) :
    handler savedCeremony :=
  logged (on_ceremonies (Consume ctx id session kind account)) (on_ok (Consumed id)).
Definition credentials_List (ctx : context) (user : UserHandle) : handler (list CredentialDescriptor) :=
  locked (reading (λ s, List ctx user (st_credentials s))).
Definition credentials_Lookup (ctx : context) (id : RawID) (user : UserHandle) : handler credentialSnapshot :=
  locked (reading (λ s, Lookup ctx id user (st_credentials s))).
Definition credentials_Insert (ctx : context) (record : CredentialRecord) : handler () :=
  logged (on_credentials (Insert ctx record)) (on_ok (λ _, Inserted record)).
Definition credentials_Update (ctx : context) (update : CredentialUpdate) (version : Z) : handler () :=
  logged (on_credentials (Update ctx update version)) (on_ok (λ _, Updated update version)).
Definition sessions_Create (ctx : context) (user : UserHandle) : handler string :=
  logged (on_sessions (Create ctx user)) (on_ok (λ token, Session token user)).

(** *** The handlers *)
Record application := mkApplication { a_rp : option RelyingParty }.
Context (a : application).

Definition save (ctx : context) (saved : savedCeremony) : handler string :=
  _ ←? fail_if (bool_decide (sc_session saved = "")) errDenied;
  id ←! compute ceremonyID;
  _ ←! ceremonies_Save ctx id saved;
  Ret (Ok id).

Definition beginEnrollment (ctx : context) (session : string) : handler (string * CredentialCreationOptionsJSON) :=
  user ←! accounts_EnrollmentUser None ctx session;
  credentials ←! credentials_List ctx (user_ID user);
  start ←! compute (λ RT, RelyingParty_StartRegistration (a_rp a) (Some ctx) (mkRegistrationRequest user credentials ∅ [] false));
  dto ←? CredentialCreationOptionsFromProtocol (rsr_Options start);
  payload ←? Storage.MarshalRegistrationState (rsr_State start);
  id ←! save ctx (mkSaved registration session (user_ID user) (rs_ExpiresAt (rsr_State start)) payload);
  Ret (Ok (id, dto)).

Definition finishEnrollment (ctx : context) (session id : string) (body : list byte) : handler () :=
  user ←! accounts_EnrollmentUser (Some id) ctx session;
  saved ←! ceremonies_Consume ctx id session registration (Some (user_ID user));
  state ←? Storage.UnmarshalRegistrationState (sc_payload saved);
  _ ←? fail_if (negb (bv_Equal (rs_UserHandle state) (sc_account saved)) || negb (rs_ExpiresAt state =? sc_expires saved))
        ErrInvalidCeremonyState;
  response ←? RegistrationResponseFromJSON body;
  result ←! compute (λ RT, RelyingParty_FinishRegistration (a_rp a) (Some ctx) (mkRegistrationVerification state response));
  credentials_Insert ctx (rres_Credential result).

(** The request of [beginLogin]: discoverable, or for the named user. *)
Definition loginRequest (ctx : context) (username : string) : handler AuthenticationRequest :=
  if bool_decide (username = "") then Ret (Ok (mkAuthenticationRequest [] zeroByteValue ∅ []))
  else
    user ←! accounts_UserByName ctx username;
    allowed ←! credentials_List ctx (user_ID user);
    _ ←? fail_if (bool_decide (allowed = [])) errDenied;
    Ret (Ok (mkAuthenticationRequest allowed (user_ID user) ∅ [])).

Definition beginLogin (ctx : context) (session username : string) : handler (string * CredentialRequestOptionsJSON) :=
  request ←! loginRequest ctx username;
  start ←! compute (λ RT, RelyingParty_StartAuthentication (a_rp a) (Some ctx) request);
  dto ←? CredentialRequestOptionsFromProtocol (asr_Options start);
  payload ←? Storage.MarshalAuthenticationState (asr_State start);
  let state := asr_State start in
  id ←! save ctx (mkSaved authentication session (as_ExpectedUserHandle state) (as_ExpiresAt state) payload);
  Ret (Ok (id, dto)).

Definition finishLogin (ctx : context) (session id : string) (body : list byte) : handler string :=
  saved ←! ceremonies_Consume ctx id session authentication None;
  state ←? Storage.UnmarshalAuthenticationState (sc_payload saved);
  _ ←? fail_if (negb (bv_Equal (as_ExpectedUserHandle state) (sc_account saved)) || negb (as_ExpiresAt state =? sc_expires saved))
        ErrInvalidCeremonyState;
  response ←? AuthenticationResponseFromJSON body;
  let lookupUser := if bv_len (as_ExpectedUserHandle state) =? 0 then ar_UserHandle response else as_ExpectedUserHandle state in
  _ ←? fail_if (bv_len lookupUser =? 0) errDenied;
  stored ←! credentials_Lookup ctx (ar_RawID response) lookupUser;
  result ←! compute (λ RT, RelyingParty_FinishAuthentication (a_rp a) (Some ctx)
                             (mkAuthenticationVerification state response (cs_record stored) false));
  _ ←? fail_if (cn_CloneRisk (ares_Counter result) || ares_UVInitializationPending result) errRisk;
  _ ←! credentials_Update ctx (ares_Update result) (cs_version stored);
  sessions_Create ctx (ares_AuthenticatedAs result).

(** ** Requests

    [Provision] stands for the host, which owns the accounts and the grants. *)
Inductive request :=
| BeginEnrollment (ctx : context) (session : string)
| FinishEnrollment (ctx : context) (session id : string) (body : list byte)
| BeginLogin (ctx : context) (session username : string)
| FinishLogin (ctx : context) (session id : string) (body : list byte)
| Provision (accounts : memoryAccounts).

Inductive reply :=
| EnrollmentBegun (id : string) (options : CredentialCreationOptionsJSON)
| Enrolled
| LoginBegun (id : string) (options : CredentialRequestOptionsJSON)
| LoggedIn (token : string)
| Provisioned.

Definition handle (r : request) : handler reply :=
  match r with
  | BeginEnrollment ctx session => x ←! beginEnrollment ctx session; Ret (Ok (EnrollmentBegun x.1 x.2))
  | FinishEnrollment ctx session id body => _ ←! finishEnrollment ctx session id body; Ret (Ok Enrolled)
  | BeginLogin ctx session username => x ←! beginLogin ctx session username; Ret (Ok (LoginBegun x.1 x.2))
  | FinishLogin ctx session id body => token ←! finishLogin ctx session id body; Ret (Ok (LoggedIn token))
  | Provision accounts =>
      logged (λ _ s, (mkStores accounts (st_ceremonies s) (st_credentials s) (st_sessions s), Ok Provisioned))
        (λ _, [HostChanged accounts])
  end.
End Handlers.

End App.

(** ** What the log tells *)
Section Log.
Import Browser BrowserOptions Integration App.
Context {Floats : FloatText} {Ord : MapOrder} {Custom : CustomTypes} {CE : CustomEvidence} {Methods : MarshalMethods}.
Context (a : application) (decoder : COSEKeyDecoder) (accounts : memoryAccounts).

(** The accounts and grants in force after a history: what the host set last,
    the initial ones before that. *)
Definition accounts_at (h : list event) : memoryAccounts :=
  foldl (λ m e, match e with HostChanged m' => m' | _ => m end) accounts h.

Lemma accounts_at_snoc h e : accounts_at (h ++ [e]) = match e with HostChanged m => m | _ => accounts_at h end.
Proof. unfold accounts_at. by rewrite foldl_app. Qed.

(** A ceremony was saved under [id] and nobody has consumed it since. *)
Definition outstanding (h : list event) (id : string) (c : savedCeremony) : Prop :=
  holds_since (Saved id c) (λ e, ∃ c', e = Consumed id c') h.

(** How a saved ceremony came about: a registration for the user the session was
    authorized to enroll, or an authentication, in the state the library started. *)
Definition begun (h : list event) (c : savedCeremony) : Prop :=
  match sc_kind c with
  | registration => ∃ (RT : Runtime) ctx user credentials start,
      Authorized None (sc_session c) user ∈ h ∧
      RelyingParty_StartRegistration (a_rp a) (Some ctx) (mkRegistrationRequest user credentials ∅ [] false) = Ok start ∧
      Storage.MarshalRegistrationState (rsr_State start) = Ok (sc_payload c) ∧
      sc_account c = user_ID user ∧ sc_expires c = rs_ExpiresAt (rsr_State start)
  | authentication => ∃ (RT : Runtime) ctx allowed user start,
      RelyingParty_StartAuthentication (a_rp a) (Some ctx) (mkAuthenticationRequest allowed user ∅ []) = Ok start ∧
      Storage.MarshalAuthenticationState (asr_State start) = Ok (sc_payload c) ∧
      sc_account c = as_ExpectedUserHandle (asr_State start) ∧ sc_expires c = as_ExpiresAt (asr_State start)
  end.

(** Writes of a credential. *)
Definition inserts (key : string) (e : event) : bool :=
  match e with Inserted r => bool_decide (bytes_key (cr_ID r) = key) | _ => false end.
Definition updates (key : string) (e : event) : bool :=
  match e with Updated u _ => bool_decide (bytes_key (cu_ID u) = key) | _ => false end.
Definition count (f : event → bool) (h : list event) : Z := Z.of_nat (length (filter (λ e, f e = true) h)).

(** What is stored under a key at a version: the inserted record, then each
    update applied to what the version before it held. *)
Inductive lineage (h : list event) (key : string) : list byte → Z → Prop :=
| lineage_inserted r payload :
    Inserted r ∈ h → bytes_key (cr_ID r) = key → Storage.MarshalCredentialRecord r = Ok payload → lineage h key payload 1
| lineage_updated payload v u r next payload' :
    lineage h key payload v → Updated u v ∈ h → bytes_key (cu_ID u) = key →
    Storage.UnmarshalCredentialRecord payload decoder = Ok r → ApplyTo u r = Ok next →
    Storage.MarshalCredentialRecord next = Ok payload' → lineage h key payload' (v + 1).

(** A registration response that was verified in the state of a registration
    ceremony of this session and user. *)
Definition verified_for (c : savedCeremony) (session : string) (user : UserEntity) (record : CredentialRecord) : Prop :=
  ∃ (RT : Runtime) ctx state response result,
    sc_kind c = registration ∧ sc_session c = session ∧
    slice_list (bv_value (sc_account c)) = slice_list (bv_value (user_ID user)) ∧
    Storage.UnmarshalRegistrationState (sc_payload c) = Ok state ∧
    slice_list (bv_value (rs_UserHandle state)) = slice_list (bv_value (sc_account c)) ∧ rs_ExpiresAt state = sc_expires c ∧
    RelyingParty_FinishRegistration (a_rp a) (Some ctx) (mkRegistrationVerification state response) = Ok result ∧
    record = rres_Credential result.

(** The session was authorized again to finish the ceremony it then consumed. *)
Definition enrolled (h : list event) (record : CredentialRecord) : Prop :=
  ∃ id c session user,
    [Authorized (Some id) session user; Consumed id c] `sublist_of` h ∧ verified_for c session user record.

(** An assertion that was verified against the record stored at [version], for a
    ceremony consumed before, without a risk signal. *)
Definition asserted (h : list event) (id : string) (c : savedCeremony) (state : AuthenticationState)
    (response : AuthenticationResponse) (record : CredentialRecord) (version : Z) (result : AuthenticationResult) : Prop :=
  ∃ (RT : Runtime) ctx payload,
    Consumed id c ∈ h ∧ sc_kind c = authentication ∧
    Storage.UnmarshalAuthenticationState (sc_payload c) = Ok state ∧
    slice_list (bv_value (as_ExpectedUserHandle state)) = slice_list (bv_value (sc_account c)) ∧ as_ExpiresAt state = sc_expires c ∧
    lineage h (bytes_key (cu_ID (ares_Update result))) payload version ∧
    Storage.UnmarshalCredentialRecord payload decoder = Ok record ∧
    RelyingParty_FinishAuthentication (a_rp a) (Some ctx) (mkAuthenticationVerification state response record false) = Ok result ∧
    cn_CloneRisk (ares_Counter result) = false ∧ ares_UVInitializationPending result = false.

(** What must have happened before each event. *)
Definition justified (h : list event) (e : event) : Prop :=
  match e with
  | HostChanged _ => True
  | Authorized _ session user => session ≠ "" ∧ ∃ name,
      ma_grants (accounts_at h) !! session = Some name ∧ ma_users (accounts_at h) !! name = Some user
  | Saved _ c => sc_session c ≠ "" ∧ begun h c
  | Consumed id c => outstanding h id c
  | Inserted r => enrolled h r ∧ count (inserts (bytes_key (cr_ID r))) h = 0
  | Updated u v => v = 1 + count (updates (bytes_key (cu_ID u))) h ∧ v < MaxUint64 ∧
                   ∃ id c state response record result, asserted h id c state response record v result ∧ u = ares_Update result
  | Session token user => ∃ id c state response record v result,
      asserted h id c state response record v result ∧ Updated (ares_Update result) v ∈ h ∧ user = ares_AuthenticatedAs result
  end.

Definition traced (h : list event) : Prop := justified_history justified h.

(** The stores agree with the log. *)
Definition credential_logged (h : list event) (key : string) (entry : option savedCredential) : Prop :=
  match entry with
  | None => count (inserts key) h = 0 ∧ count (updates key) h = 0
  | Some e => count (inserts key) h = 1 ∧ sd_version e = 1 + count (updates key) h ∧ sd_version e <= MaxUint64 ∧
              lineage h key (sd_payload e) (sd_version e)
  end.

Record invariant (s : stores) (h : list event) : Prop := {
  inv_accounts : st_accounts s = accounts_at h;
  inv_decoder : md_decoder (st_credentials s) = decoder;
  inv_outstanding : ∀ id c, mc_entries (st_ceremonies s) !! id = Some c → outstanding h id c;
  inv_credentials : ∀ key, credential_logged h key (md_entries (st_credentials s) !! key);
  inv_traced : traced h;
}.

(** How the world moves on: the log grows, credentials stay, and an entry whose
    version is unchanged is unchanged. *)
Definition later (s : stores) (h : list event) (s' : stores) (h' : list event) : Prop :=
  h `prefix_of` h' ∧
  ∀ key e, md_entries (st_credentials s) !! key = Some e →
    ∃ e', md_entries (st_credentials s') !! key = Some e' ∧ sd_version e <= sd_version e' ∧ (sd_version e' = sd_version e → e' = e).

Lemma later_refl s h : later s h s h.
Proof. split; [done|]. intros key e He. exists e. split_and!; [done|lia|done]. Qed.

Lemma later_trans s1 h1 s2 h2 s3 h3 : later s1 h1 s2 h2 → later s2 h2 s3 h3 → later s1 h1 s3 h3.
Proof.
  intros [Hp1 H1] [Hp2 H2]. split; [by etrans|]. intros key e He. destruct (H1 _ _ He) as (e2 & He2 & Hle2 & Heq2).
  destruct (H2 _ _ He2) as (e3 & He3 & Hle3 & Heq3). exists e3. split_and!; [done|lia|]. intros Hv.
  assert (sd_version e2 = sd_version e) as Hv2 by lia. rewrite <-(Heq2 Hv2). apply Heq3. lia.
Qed.

(** *** Facts about the log stay true *)
Lemma lineage_mono h h' key payload v : h ⊆ h' → lineage h key payload v → lineage h' key payload v.
Proof. intros Hs. induction 1; [eapply lineage_inserted|eapply lineage_updated]; eauto. Qed.

Lemma begun_mono h h' c : h ⊆ h' → begun h c → begun h' c.
Proof. unfold begun. intros Hs. destruct (sc_kind c); [|done]. intros (RT & ctx & user & cs & start & H & ?). exists RT, ctx, user, cs, start. eauto. Qed.

Lemma asserted_mono h h' id c state response record v result :
  h ⊆ h' → asserted h id c state response record v result → asserted h' id c state response record v result.
Proof.
  intros Hs (RT & ctx & p & H1 & H2 & H3 & H4 & H5 & H6 & ?). exists RT, ctx, p.
  eauto 10 using lineage_mono.
Qed.

Lemma outstanding_snoc h id c e : (∀ c', e ≠ Consumed id c') → outstanding h id c → outstanding (h ++ [e]) id c.
Proof. intros He. apply holds_since_snoc. intros [c' ->]. by eapply He. Qed.

Lemma count_snoc f h e : count f (h ++ [e]) = count f h + (if f e then 1 else 0).
Proof.
  unfold count. rewrite filter_app, length_app, Nat2Z.inj_add. f_equal. rewrite filter_cons, filter_nil.
  destruct (f e); case_decide; done.
Qed.

Lemma credential_logged_snoc h e key entry :
  inserts key e = false → updates key e = false → credential_logged h key entry → credential_logged (h ++ [e]) key entry.
Proof.
  intros Hi Hu. unfold credential_logged. rewrite !count_snoc, Hi, Hu, !Z.add_0_r.
  destruct entry as [x|]; [|done]. intros (? & ? & ? & Hl). split_and!; try done. eapply lineage_mono; [|exact Hl].
  intros e' He. apply elem_of_app. by left.
Qed.

(** *** The specification of each store call *)
Abbreviation app_wp := (wp invariant later).

(** The world after a call that logged [e]. *)
Definition then_logged (s : stores) (h : list event) (e : event) (s' : stores) (h' : list event) : Prop :=
  later s h s' h' ∧ invariant s' h' ∧ ∃ h0, h `prefix_of` h0 ∧ h' = h0 ++ [e].

Lemma wp_reading {B} (f : stores → result B) (Q : result B → stores → list event → Prop) s h :
  (∀ s1 h1, later s h s1 h1 → invariant s1 h1 → Q (f s1) s1 h1) → app_wp (locked (reading f)) Q s h.
Proof.
  intros H s1 h1 rt Hl Hi s2 b [= <- <-]. rewrite app_nil_r. split_and!; [done|apply later_refl|by apply H].
Qed.

Lemma later_snoc s h s1 h1 s2 (e : event) :
  later s h s1 h1 → (∀ key x, md_entries (st_credentials s1) !! key = Some x →
    ∃ x', md_entries (st_credentials s2) !! key = Some x' ∧ sd_version x <= sd_version x' ∧ (sd_version x' = sd_version x → x' = x)) →
  later s1 h1 s2 (h1 ++ [e]) ∧ later s h s2 (h1 ++ [e]).
Proof. intros Hl H. assert (later s1 h1 s2 (h1 ++ [e])) as Hl' by (split; [by eexists|done]). eauto using later_trans. Qed.

Lemma later_same s h s1 h1 s2 h2 : later s h s1 h1 → st_credentials s2 = st_credentials s1 → h1 `prefix_of` h2 →
  later s1 h1 s2 h2 ∧ later s h s2 h2.
Proof.
  intros Hl Hc Hp. assert (later s1 h1 s2 h2) as Hl'; [|eauto using later_trans].
  split; [done|]. intros key e He. rewrite Hc. exists e. split_and!; [done|lia|done].
Qed.

Lemma wp_EnrollmentUser finishing ctx session (Q : result UserEntity → stores → list event → Prop) s h :
  (∀ user s1 h1, then_logged s h (Authorized finishing session user) s1 h1 → Q (Ok user) s1 h1) →
  (∀ e s1 h1, later s h s1 h1 → Q (Err e) s1 h1) → app_wp (accounts_EnrollmentUser finishing ctx session) Q s h.
Proof.
  intros Hok Herr s1 h1 rt Hl Hi s2 b [= <- <-].
  destruct (EnrollmentUser _ _ _) as [user|e] eqn:He; cbn [on_ok].
  2:{ rewrite app_nil_r. split_and!; [done|apply later_refl|by apply Herr]. }
  apply EnrollmentUser_Ok in He.
  assert (invariant s1 (h1 ++ [Authorized finishing session user])) as Hi'.
  { destruct Hi as [Hacc0 Hd Ho Hc Ht]. constructor; [by rewrite accounts_at_snoc|done| | |].
    - intros id c Hid. apply outstanding_snoc; [done|by apply Ho].
    - intros key. by apply credential_logged_snoc.
    - apply justified_snoc; [done|]. cbn [justified]. by rewrite <-Hacc0. }
  destruct (later_same s h s1 h1 s1 (h1 ++ [Authorized finishing session user])) as [Hl1 Hl2]; [done|done|by eexists|].
  split_and!; [done|done|]. apply Hok. split_and!; [done|done|]. exists h1. split; [apply Hl|done].
Qed.

Lemma wp_Save ctx id saved (Q : result () → stores → list event → Prop) s h :
  begun h saved →
  (∀ s1 h1, then_logged s h (Saved id saved) s1 h1 → Q (Ok ()) s1 h1) →
  (∀ e s1 h1, later s h s1 h1 → Q (Err e) s1 h1) → app_wp (ceremonies_Save ctx id saved) Q s h.
Proof.
  intros Hb Hok Herr s1 h1 rt Hl Hi s2 b Hsec. unfold on_ceremonies in Hsec.
  destruct (Save ctx id saved rt (st_ceremonies s1)) as [m r] eqn:Hm. injection Hsec as <- <-.
  apply Save_spec in Hm as [Hnow Hm]. destruct Hi as [Hacc0 Hd Ho Hc Ht]. destruct r as [[]|e]; cbn [on_ok].
  - destruct Hm as (Hs & _ & _ & _ & _ & Hents).
    set (s2 := mkStores _ m _ _). set (e := Saved id saved) in *.
    destruct (later_same s h s1 h1 s2 (h1 ++ [e])) as [Hl1 Hl2]; [done|done|by eexists|].
    assert (invariant s2 (h1 ++ [e])) as Hi'.
    { constructor; [by rewrite accounts_at_snoc|done| | |apply justified_snoc; [done|]].
      - intros i c Hic. destruct (Hents _ _ Hic) as [[-> ->]|[Hne Hic']].
        + apply holds_since_now.
        + apply outstanding_snoc; [done|by apply Ho].
      - intros key. by apply credential_logged_snoc.
      - split; [done|]. eapply begun_mono; [|exact Hb]. apply prefix_subseteq, Hl. }
    split_and!; [done|done|]. apply Hok. split_and!; [done|done|]. exists h1. split; [apply Hl|done].
  - rewrite app_nil_r. set (s2 := mkStores _ m _ _).
    destruct (later_same s h s1 h1 s2 h1) as [Hl1 Hl2]; [done|done|done|]. split_and!; [|done|by apply Herr].
    constructor; [done|done| |done|done]. intros i c Hic. apply Ho. by eapply lookup_weaken.
Qed.

Lemma wp_Consume ctx id session kind account (Q : result savedCeremony → stores → list event → Prop) s h :
  (∀ c s1 h1, then_logged s h (Consumed id c) s1 h1 → sc_session c = session → sc_kind c = kind →
     (∀ u, account = Some u → slice_list (bv_value (sc_account c)) = slice_list (bv_value u)) → Q (Ok c) s1 h1) →
  (∀ e s1 h1, later s h s1 h1 → Q (Err e) s1 h1) → app_wp (ceremonies_Consume ctx id session kind account) Q s h.
Proof.
  intros Hok Herr s1 h1 rt Hl Hi s2 b Hsec. unfold on_ceremonies in Hsec.
  destruct (Consume ctx id session kind account rt (st_ceremonies s1)) as [m r] eqn:Hm. injection Hsec as <- <-.
  apply Consume_spec in Hm as (Hnow & Hsub & Hm). destruct Hi as [Hacc0 Hd Ho Hc Ht]. destruct r as [c|e]; cbn [on_ok].
  - destruct (Hm c eq_refl) as (Hid & Hdel & Hne & Hs & Hk & _ & Hacc).
    set (s2 := mkStores _ m _ _). set (e := Consumed id c) in *.
    destruct (later_same s h s1 h1 s2 (h1 ++ [e])) as [Hl1 Hl2]; [done|done|by eexists|].
    assert (invariant s2 (h1 ++ [e])) as Hi'.
    { constructor; [by rewrite accounts_at_snoc|done| | |apply justified_snoc; [done|by apply Ho]].
      - intros i x Hix. cbn in Hix. rewrite Hdel, lookup_delete_Some in Hix. destruct Hix as [Hne' Hix].
        apply outstanding_snoc; [intros c' [= -> ->]; done|by apply Ho].
      - intros key. by apply credential_logged_snoc. }
    split_and!; [done|done|]. apply Hok; [|done|done|].
    + split_and!; [done|done|]. exists h1. split; [apply Hl|done].
    + intros u Hu. by apply bv_Equal_spec, Hacc.
  - rewrite app_nil_r. set (s2 := mkStores _ m _ _).
    destruct (later_same s h s1 h1 s2 h1) as [Hl1 Hl2]; [done|done|done|]. split_and!; [|done|by apply Herr].
    constructor; [done|done| |done|done]. intros i x Hix. apply Ho. by eapply lookup_weaken.
Qed.

Lemma enrolled_prefix h h' r : h `prefix_of` h' → enrolled h r → enrolled h' r.
Proof.
  intros Hp (id & c & session & user & H & ?). exists id, c, session, user. split; [by eapply sublist_prefix|done].
Qed.

Lemma count_nonneg f h : 0 <= count f h.
Proof. unfold count. lia. Qed.

Lemma wp_Insert ctx record (Q : result () → stores → list event → Prop) s h :
  enrolled h record →
  (∀ s1 h1, then_logged s h (Inserted record) s1 h1 → Q (Ok ()) s1 h1) →
  (∀ e s1 h1, later s h s1 h1 → Q (Err e) s1 h1) → app_wp (credentials_Insert ctx record) Q s h.
Proof.
  intros Hb Hok Herr s1 h1 rt Hl Hi s2 b Hsec. unfold on_credentials in Hsec.
  destruct (Insert ctx record (st_credentials s1)) as [m r] eqn:Hm. injection Hsec as <- <-.
  apply Insert_spec in Hm. destruct r as [[]|x]; cbn [on_ok].
  2:{ subst m. rewrite app_nil_r. destruct s1. split_and!; [done|apply later_refl|by apply Herr]. }
  destruct Hm as (Hnone & payload & Hp & ->). destruct Hi as [Hacc0 Hd Ho Hc Ht]. set (key := bytes_key (cr_ID record)) in *.
  set (e := Inserted record). set (s2 := mkStores _ _ _ _).
  destruct (later_snoc s h s1 h1 s2 e Hl) as [Hl1 Hl2].
  { intros k x Hx. exists x. cbn. rewrite lookup_insert_ne by congruence. split_and!; [done|lia|done]. }
  pose proof (Hc key) as Hk. rewrite Hnone in Hk. destruct Hk as [Hk1 Hk2].
  assert (invariant s2 (h1 ++ [e])) as Hi'.
  { constructor; [by rewrite accounts_at_snoc|done| | |apply justified_snoc; [done|]].
    - intros i c Hic. apply outstanding_snoc; [done|by apply Ho].
    - intros k. cbn. destruct (decide (k = key)) as [-> |Hne].
      + rewrite lookup_insert_eq. cbn. rewrite !count_snoc, Hk1, Hk2. cbn. rewrite bool_decide_eq_true_2 by done.
        split_and!; [done|done|done|]. eapply lineage_inserted; [|done|done]. apply elem_of_snoc.
      + rewrite lookup_insert_ne by done. apply credential_logged_snoc; [|done|by apply Hc]. by apply bool_decide_eq_false_2.
    - split; [|done]. eapply enrolled_prefix; [apply Hl|done]. }
  split_and!; [done|done|]. apply Hok. split_and!; [done|done|]. exists h1. split; [apply Hl|done].
Qed.

(** An update that succeeds writes over the entry that was read, whatever
    happened since. *)
Lemma wp_Update ctx update entry s0 h0 (Q : result () → stores → list event → Prop) s h :
  later s0 h0 s h → md_entries (st_credentials s0) !! bytes_key (cu_ID update) = Some entry →
  (∀ h1, h `prefix_of` h1 → lineage h1 (bytes_key (cu_ID update)) (sd_payload entry) (sd_version entry) →
     ∃ id c state response record result, asserted h1 id c state response record (sd_version entry) result ∧ update = ares_Update result) →
  (∀ s1 h1, then_logged s h (Updated update (sd_version entry)) s1 h1 →
     lineage h1 (bytes_key (cu_ID update)) (sd_payload entry) (sd_version entry) → Q (Ok ()) s1 h1) →
  (∀ e s1 h1, later s h s1 h1 → Q (Err e) s1 h1) → app_wp (credentials_Update ctx update (sd_version entry)) Q s h.
Proof.
  intros Hl0 He0 Hb Hok Herr s1 h1 rt Hl Hi s2 b Hsec. unfold on_credentials in Hsec.
  destruct (Update ctx update (sd_version entry) (st_credentials s1)) as [m r] eqn:Hm. injection Hsec as <- <-.
  apply Update_spec in Hm. destruct r as [[]|x]; cbn [on_ok].
  2:{ subst m. rewrite app_nil_r. destruct s1. split_and!; [done|apply later_refl|by apply Herr]. }
  destruct Hm as (Hmax & payload & record & next & payload' & Hentry & Hun & Happly & Hmar & ->).
  destruct Hi as [Hacc0 Hd Ho Hc Ht]. set (key := bytes_key (cu_ID update)) in *.
  assert (mkSavedCredential payload (sd_version entry) = entry) as Heq.
  { destruct (later_trans _ _ _ _ _ _ Hl0 Hl) as [_ Hlate]. destruct (Hlate _ _ He0) as (e' & He' & _ & Hsame).
    rewrite Hentry in He'. injection He' as <-. by apply Hsame. }
  pose proof (Hc key) as Hk. rewrite Hentry in Hk. destruct Hk as (Hk1 & Hk2 & Hk3 & Hlin). cbn in Hk2, Hk3, Hlin.
  assert (payload = sd_payload entry) as -> by (by rewrite <-Heq).
  pose proof (count_nonneg (updates key) h1) as Hpos. unfold MaxUint64 in Hmax, Hk3.
  rewrite Z.mod_small by lia. set (v := sd_version entry) in *.
  set (e := Updated update v). set (s2 := mkStores _ _ _ _).
  destruct (later_snoc s h s1 h1 s2 e Hl) as [Hl1 Hl2].
  { intros k x Hx. cbn. destruct (decide (k = key)) as [-> |Hne].
    - rewrite lookup_insert_eq. eexists. split; [done|]. rewrite Hentry in Hx. injection Hx as <-. cbn. split; [lia|]. intros ?. lia.
    - rewrite lookup_insert_ne by done. exists x. split_and!; [done|lia|done]. }
  assert (lineage (h1 ++ [e]) key (sd_payload entry) v) as Hlin'.
  { eapply lineage_mono; [|exact Hlin]. intros e' He'. apply elem_of_app. by left. }
  assert (invariant s2 (h1 ++ [e])) as Hi'.
  { constructor; [by rewrite accounts_at_snoc|done| | |apply justified_snoc; [done|]].
    - intros i c Hic. apply outstanding_snoc; [done|by apply Ho].
    - intros k. cbn. destruct (decide (k = key)) as [-> |Hne].
      + rewrite lookup_insert_eq. cbn. rewrite !count_snoc. cbn. rewrite bool_decide_eq_true_2 by done. unfold MaxUint64.
        split_and!; [lia|lia|lia|]. eapply lineage_updated; [exact Hlin'| |done|by rewrite Hd in Hun|done|done].
        apply elem_of_snoc.
      + rewrite lookup_insert_ne by done. apply credential_logged_snoc; [done| |by apply Hc]. by apply bool_decide_eq_false_2.
    - unfold justified. fold key. unfold MaxUint64. split_and!; [done|lia|]. apply Hb; [apply Hl|done]. }
  split_and!; [done|done|]. apply Hok; [|done]. split_and!; [done|done|]. exists h1. split; [apply Hl|done].
Qed.

Lemma wp_Create ctx user (Q : result string → stores → list event → Prop) s h :
  (∃ id c state response record v result, asserted h id c state response record v result ∧ Updated (ares_Update result) v ∈ h ∧
     user = ares_AuthenticatedAs result) →
  (∀ token s1 h1, then_logged s h (Session token user) s1 h1 → Q (Ok token) s1 h1) →
  (∀ e s1 h1, later s h s1 h1 → Q (Err e) s1 h1) → app_wp (sessions_Create ctx user) Q s h.
Proof.
  intros (id & c & state & response & record & v & result & Hb & Hu & Has) Hok Herr s1 h1 rt Hl Hi s2 b Hsec. unfold on_sessions in Hsec.
  destruct (Create ctx user rt (st_sessions s1)) as [m r] eqn:Hm. injection Hsec as <- <-.
  apply Create_spec in Hm. destruct r as [token|x]; cbn [on_ok].
  2:{ subst m. rewrite app_nil_r. destruct s1. split_and!; [done|apply later_refl|by apply Herr]. }
  destruct Hi as [Hacc0 Hd Ho Hc Ht]. set (e := Session token user). set (s2 := mkStores _ _ _ _).
  destruct (later_same s h s1 h1 s2 (h1 ++ [e])) as [Hl1 Hl2]; [done|done|by eexists|].
  assert (invariant s2 (h1 ++ [e])) as Hi'.
  { constructor; [by rewrite accounts_at_snoc|done| | |apply justified_snoc; [done|]].
    - intros i c' Hic. apply outstanding_snoc; [done|by apply Ho].
    - intros k. by apply credential_logged_snoc.
    - exists id, c, state, response, record, v, result. assert (h ⊆ h1) as Hs by apply prefix_subseteq, Hl. eauto using asserted_mono. }
  split_and!; [done|done|]. apply Hok. split_and!; [done|done|]. exists h1. split; [apply Hl|done].
Qed.

(** *** The handlers *)

(** Nothing is promised of a handler that reports an error. *)
Definition succeeds {B} (P : B → stores → list event → Prop) (r : result B) (s : stores) (h : list event) : Prop :=
  match r with Ok b => P b s h | Err _ => True end.

Lemma wp_call {B C} (p : handler B) (f : B → handler C) P s h :
  app_wp p (succeeds (λ b, app_wp (f b) (succeeds P))) s h → app_wp (try p f) (succeeds P) s h.
Proof. intros H. apply wp_try. eapply wp_mono; [|exact H]. by intros [b|e]. Qed.

Lemma wp_value {B C} (r : result B) (f : B → handler C) P s h :
  (∀ b, r = Ok b → app_wp (f b) (succeeds P) s h) → app_wp (try (Ret r) f) (succeeds P) s h.
Proof. intros H. destruct r as [b|e]; [by apply H|done]. Qed.

Lemma wp_computed {B C} (g : Runtime → result B) (f : B → handler C) P s h :
  (∀ RT b s1 h1, later s h s1 h1 → invariant s1 h1 → g RT = Ok b → app_wp (f b) (succeeds P) s1 h1) →
  app_wp (try (compute g) f) (succeeds P) s h.
Proof.
  intros H. apply wp_call, wp_compute; [apply later_refl|]. intros RT s1 h1 Hl Hi.
  destruct (g RT) as [b|e] eqn:Hg; [by eapply H|done].
Qed.

Lemma finish_result (RT : Runtime) ctx request result :
  RelyingParty_FinishAuthentication (a_rp a) (Some ctx) request = Ok result →
  bytes_key (cu_ID (ares_Update result)) = bytes_key (ar_RawID (av_Response request)) ∧
  ares_AuthenticatedAs result = cr_UserHandle (av_Credential request) ∧
  ApplyTo (ares_Update result) (av_Credential request) = Ok (ares_Credential result).
Proof.
  intros H. apply bind_Ok in H as (rp & _ & H). cbv zeta in H. apply bind_Ok in H as ([] & _ & H).
  apply bind_Ok in H as ([] & _ & H). apply bind_Ok in H as ([] & _ & H). apply FinishAuthentication_sound in H.
  pose proof (verified_apply_self _ _ _ H) as Happly.
  destruct H as (_ & (_ & _ & Hid & _) & _ & _ & _ & _ & parsed & ext & _ & _ & _ & _ & Hr).
  split_and!; [|by rewrite Hr|exact Happly]. rewrite Hr. unfold bytes_key, bv_bytes. f_equal. exact Hid.
Qed.

Lemma wp_save ctx saved (P : string → stores → list event → Prop) s h :
  begun h saved → (∀ id s1 h1, then_logged s h (Saved id saved) s1 h1 → P id s1 h1) → app_wp (save ctx saved) (succeeds P) s h.
Proof.
  intros Hb H. apply wp_value. intros [] _. apply wp_computed. intros RT id s1 h1 Hl Hi _. apply wp_call.
  apply wp_Save; [eapply begun_mono; [apply prefix_subseteq, Hl|done]| |done].
  intros s2 h2 (Hl2 & Hi2 & h0 & Hp & ->). cbn. apply H. split; [by eapply later_trans|]. split; [done|].
  exists h0. split; [|done]. etrans; [apply Hl|done].
Qed.

(** What a successful answer to each request means. *)
Definition begun_for (c : savedCeremony) (session : string) (kind : ceremonyKind) (id : string) (h : list event) : Prop :=
  Saved id c ∈ h ∧ sc_session c = session ∧ sc_kind c = kind.

Definition enrollment_verified (session id : string) (body : list byte) (h : list event) : Prop :=
  ∃ (RT : Runtime) ctx user c state response result,
    [Authorized (Some id) session user; Consumed id c; Inserted (rres_Credential result)] `sublist_of` h ∧
    sc_session c = session ∧ sc_kind c = registration ∧
    slice_list (bv_value (rs_UserHandle state)) = slice_list (bv_value (user_ID user)) ∧
    Storage.UnmarshalRegistrationState (sc_payload c) = Ok state ∧ RegistrationResponseFromJSON body = Ok response ∧
    RelyingParty_FinishRegistration (a_rp a) (Some ctx) (mkRegistrationVerification state response) = Ok result.

Definition login_verified (session id : string) (body : list byte) (token : string) (h : list event) : Prop :=
  ∃ c state response record v result,
    [Consumed id c; Updated (ares_Update result) v; Session token (ares_AuthenticatedAs result)] `sublist_of` h ∧
    sc_session c = session ∧ AuthenticationResponseFromJSON body = Ok response ∧ asserted h id c state response record v result.

Definition outcome (r : request) (x : result reply) (s : stores) (h : list event) : Prop :=
  match r, x with
  | BeginEnrollment ctx session, Ok (EnrollmentBegun id dto) =>
      ∃ c (RT : Runtime) user credentials start,
        Saved id c ∈ h ∧ sc_session c = session ∧ sc_kind c = registration ∧
        RelyingParty_StartRegistration (a_rp a) (Some ctx) (mkRegistrationRequest user credentials ∅ [] false) = Ok start ∧
        Storage.MarshalRegistrationState (rsr_State start) = Ok (sc_payload c) ∧
        CredentialCreationOptionsFromProtocol (rsr_Options start) = Ok dto
  | BeginLogin ctx session username, Ok (LoginBegun id dto) =>
      ∃ c (RT : Runtime) request start,
        Saved id c ∈ h ∧ sc_session c = session ∧ sc_kind c = authentication ∧
        RelyingParty_StartAuthentication (a_rp a) (Some ctx) request = Ok start ∧
        Storage.MarshalAuthenticationState (asr_State start) = Ok (sc_payload c) ∧
        CredentialRequestOptionsFromProtocol (asr_Options start) = Ok dto
  | FinishEnrollment ctx session id body, Ok Enrolled => enrollment_verified session id body h
  | FinishLogin ctx session id body, Ok (LoggedIn token) => login_verified session id body token h
  | _, _ => True
  end.

Lemma outcome_stable r : stable later (outcome r).
Proof.
  intros x s h s' h' [Hp _]. pose proof (prefix_subseteq _ _ Hp) as Hs. destruct r, x as [[]|]; cbn; try done.
  - intros (c & RT & user & cs & start & H & ?). exists c, RT, user, cs, start. split; [by apply Hs|done].
  - intros (RT & ctx' & user & c & state & response & result & H & ?). exists RT, ctx', user, c, state, response, result.
    split; [by eapply sublist_prefix|done].
  - intros (c & RT & req & start & H & ?). exists c, RT, req, start. split; [by apply Hs|done].
  - intros (c & state & response & record & v & result & H & ? & ? & ?). exists c, state, response, record, v, result.
    split; [by eapply sublist_prefix|]. eauto using asserted_mono.
Qed.

Lemma wp_finishLogin ctx session id body s h :
  app_wp (finishLogin a ctx session id body) (succeeds (λ token _ h', login_verified session id body token h')) s h.
Proof.
  apply wp_call, wp_Consume; [|done]. intros c s1 h1 (_ & _ & h0 & _ & ->) Hs Hk _. cbn [succeeds].
  apply wp_value. intros state Hstate. apply wp_value. intros [] Hbind%fail_if_Ok.
  apply orb_false_iff in Hbind as [Hacc%negb_false_iff%bv_Equal_spec Hexp%negb_false_iff%Z.eqb_eq].
  apply wp_value. intros response Hresp. cbv zeta. apply wp_value. intros [] _.
  apply wp_call, wp_reading. intros s2 h2 Hl2 Hi2. destruct (Lookup _ _ _ _) as [stored|] eqn:Hlookup; [|done].
  apply Lookup_Ok in Hlookup as (entry & Hentry & Hver & Hrec & _). rewrite (inv_decoder _ _ Hi2) in Hrec. cbn [succeeds].
  apply wp_computed. intros RT result s3 h3 Hl3 _ Hfin. destruct (finish_result _ _ _ _ Hfin) as (Hkey & _ & _).
  apply wp_value. intros [] [Hrisk Hpend]%fail_if_Ok%orb_false_iff. apply wp_call. rewrite Hver.
  assert (∀ h', h3 `prefix_of` h' → lineage h' (bytes_key (cu_ID (ares_Update result))) (sd_payload entry) (sd_version entry) →
    asserted h' id c state response (cs_record stored) (sd_version entry) result) as Hass.
  { intros h' Hp Hlin. exists RT, ctx, (sd_payload entry). split_and!; try done.
    apply (prefix_subseteq h3); [done|]. apply (prefix_subseteq (h0 ++ [Consumed id c])); [by etrans; [apply Hl2|apply Hl3]|].
    apply elem_of_snoc. }
  apply (wp_Update _ _ entry s2 h2); [done|by rewrite Hkey|eauto 10| |done].
  intros s4 h4 (Hl4 & _ & h5 & Hp5 & ->) Hlin. cbn [succeeds]. specialize (Hass _ (proj1 Hl4) Hlin). apply wp_Create.
  { exists id, c, state, response, (cs_record stored), (sd_version entry), result. split_and!; [done| |done]. apply elem_of_snoc. }
  2:{ done. }
  intros token s6 h6 (Hl6 & _ & h7 & Hp7 & ->). cbn [succeeds]. exists c, state, response, (cs_record stored), (sd_version entry), result. split_and!; [|done|done|].
  - apply (sublist_snoc [_; _] (h5 ++ [Updated (ares_Update result) (sd_version entry)])); [|done].
    apply (sublist_snoc [_] (h0 ++ [Consumed id c])); [|etrans; [apply Hl2|etrans; [apply Hl3|done]]].
    apply sublist_one. apply elem_of_snoc.
  - eapply asserted_mono; [|exact Hass]. apply prefix_subseteq. etrans; [apply Hp7|by eexists].
Qed.

Lemma wp_finishEnrollment ctx session id body s h :
  app_wp (finishEnrollment a ctx session id body) (succeeds (λ _ _ h', enrollment_verified session id body h')) s h.
Proof.
  apply wp_call, wp_EnrollmentUser; [|done]. intros user s1 h1 (_ & _ & h0 & _ & ->). cbn [succeeds].
  apply wp_call, wp_Consume; [|done]. intros c s2 h2 (Hl2 & _ & h3 & Hp3 & ->) Hs Hk Hacc. cbn [succeeds].
  specialize (Hacc _ eq_refl). apply wp_value. intros state Hstate. apply wp_value. intros [] Hbind%fail_if_Ok.
  apply orb_false_iff in Hbind as [Huser%negb_false_iff%bv_Equal_spec Hexp%negb_false_iff%Z.eqb_eq].
  apply wp_value. intros response Hresp. apply wp_computed. intros RT result s4 h4 Hl4 _ Hfin.
  assert ([Authorized (Some id) session user; Consumed id c] `sublist_of` h4) as Hsub.
  { eapply sublist_prefix; [|apply Hl4]. apply (sublist_snoc [_] (h0 ++ [Authorized (Some id) session user])); [|done].
    apply sublist_one, elem_of_snoc. }
  apply wp_Insert; [| |done].
  - exists id, c, session, user. split; [done|]. exists RT, ctx, state, response, result. split_and!; done.
  - intros s5 h5 (_ & _ & h6 & Hp6 & ->). cbn [succeeds]. exists RT, ctx, user, c, state, response, result.
    split_and!; try done; [|by rewrite Huser, Hacc]. by apply (sublist_snoc [_; _] h4).
Qed.

Lemma wp_beginEnrollment ctx session s h :
  app_wp (beginEnrollment a ctx session)
    (succeeds (λ x s' h', outcome (BeginEnrollment ctx session) (Ok (EnrollmentBegun x.1 x.2)) s' h')) s h.
Proof.
  apply wp_call, wp_EnrollmentUser; [|done]. intros user s1 h1 (_ & _ & h0 & _ & ->). cbn [succeeds].
  apply wp_call, wp_reading. intros s2 h2 Hl2 _. destruct (List _ _ _) as [credentials|]; [|done]. cbn [succeeds].
  apply wp_computed. intros RT start s3 h3 Hl3 _ Hstart. apply wp_value. intros dto Hdto. apply wp_value. intros payload Hpay.
  apply wp_call. apply wp_save.
  - exists RT, ctx, user, credentials, start. split_and!; try done.
    apply (prefix_subseteq (h0 ++ [Authorized None session user])); [by etrans; [apply Hl2|apply Hl3]|].
    apply elem_of_snoc.
  - intros id s4 h4 (_ & _ & h5 & _ & ->). cbn [succeeds wp outcome fst snd]. eexists _, RT, user, credentials, start.
    split_and!; [apply elem_of_snoc|done..].
Qed.

Lemma wp_loginRequest ctx username (P : AuthenticationRequest → stores → list event → Prop) s h :
  (∀ allowed user s1 h1, later s h s1 h1 → P (mkAuthenticationRequest allowed user ∅ []) s1 h1) →
  app_wp (loginRequest ctx username) (succeeds P) s h.
Proof.
  intros H. unfold loginRequest. case_bool_decide; [apply H, later_refl|].
  apply wp_call, wp_reading. intros s1 h1 Hl1 _. destruct (UserByName _ _ _) as [user|]; [|done]. cbn [succeeds].
  apply wp_call, wp_reading. intros s2 h2 Hl2 _. destruct (List _ _ _) as [allowed|]; [|done]. cbn [succeeds].
  apply wp_value. intros [] _. apply H. by eapply later_trans.
Qed.

Lemma wp_beginLogin ctx session username s h :
  app_wp (beginLogin a ctx session username)
    (succeeds (λ x s' h', outcome (BeginLogin ctx session username) (Ok (LoginBegun x.1 x.2)) s' h')) s h.
Proof.
  apply wp_call, wp_loginRequest. intros allowed user s1 h1 Hl1. apply wp_computed. intros RT start s2 h2 Hl2 _ Hstart.
  apply wp_value. intros dto Hdto. apply wp_value. intros payload Hpay. cbv zeta. apply wp_call. apply wp_save.
  - exists RT, ctx, allowed, user, start. split_and!; done.
  - intros id s4 h4 (_ & _ & h5 & _ & ->). cbn [succeeds wp outcome fst snd]. eexists _, RT, _, start.
    split_and!; [apply elem_of_snoc|done..].
Qed.

Lemma wp_handle r s h : app_wp (handle a r) (outcome r) s h.
Proof.
  destruct r as [ctx session|ctx session id body|ctx session username|ctx session id body|m]; cbn [handle].
  - apply wp_try. eapply wp_mono; [|apply wp_beginEnrollment]. by intros [x|e].
  - apply wp_try. eapply wp_mono; [|apply wp_finishEnrollment]. by intros [x|e].
  - apply wp_try. eapply wp_mono; [|apply wp_beginLogin]. by intros [x|e].
  - apply wp_try. eapply wp_mono; [|apply wp_finishLogin]. by intros [x|e].
  - intros s1 h1 rt Hl [_ Hd Ho Hc Ht] s2 b [= <- <-].
    destruct (later_same s h s1 h1 (mkStores m (st_ceremonies s1) (st_credentials s1) (st_sessions s1)) (h1 ++ [HostChanged m]))
      as [Hl1 _]; [done|done|by eexists|]. split_and!; [|done|done].
    constructor; [by rewrite accounts_at_snoc|done| | |by apply justified_snoc].
    + intros id c Hid. apply outstanding_snoc; [done|by apply Ho].
    + intros key. by apply credential_logged_snoc.
Qed.

(** Before any request: accounts and sessions of the host, nothing else. *)
Definition fresh_stores (initial : memoryAccounts) (clock : Runtime → Z) : stores :=
  mkStores initial (mkCeremonies ∅ clock) (mkCredentials ∅ decoder) (mkSessions ∅).

Lemma fresh_invariant clock : invariant (fresh_stores accounts clock) [].
Proof.
  constructor; [done|done|..].
  - intros id c H. cbn in H. by rewrite lookup_empty in H.
  - intros key. cbn. by rewrite lookup_empty.
  - apply justified_nil.
Qed.

Lemma application_sound clock c :
  reachable (handle a) (fresh_stores accounts clock) c →
  invariant (shared c) (history c) ∧ ∀ r x, answered c r x → outcome r x (shared c) (history c).
Proof.
  apply wp_sound with (later := later).
  - apply later_refl.
  - apply later_trans.
  - apply outcome_stable.
  - intros r s h _. apply wp_handle.
  - apply fresh_invariant.
Qed.

(** A consumed ceremony was saved, and not consumed before. *)
Lemma consumed_begun h h1 id c h2 :
  traced h → h = h1 ++ Consumed id c :: h2 → outstanding h1 id c ∧ sc_session c ≠ "" ∧ begun h1 c.
Proof.
  intros Ht ->. pose proof (Ht _ _ _ eq_refl) as Hout. cbn in Hout. split; [done|]. destruct Hout as (g1 & g2 & -> & Hn).
  destruct (Ht g1 (Saved id c) (g2 ++ Consumed id c :: h2)) as [Hs Hb]; [by rewrite <-app_assoc|]. split; [done|].
  eapply begun_mono; [|exact Hb]. intros e He. apply elem_of_app. by left.
Qed.

(** The state a ceremony is finished in is the one the library started, but for
    the form of its extension inputs. *)
Definition started_state (c : savedCeremony) (state : AuthenticationState) : Prop :=
  ∃ (RT : Runtime) ctx allowed user start,
    RelyingParty_StartAuthentication (a_rp a) (Some ctx) (mkAuthenticationRequest allowed user ∅ []) = Ok start ∧
    (authentication_state_wf (asr_State start) → ∃ inputs, state = auth_with_inputs (asr_State start) inputs).

Lemma begun_started h c state : begun h c → sc_kind c = authentication →
  Storage.UnmarshalAuthenticationState (sc_payload c) = Ok state → started_state c state.
Proof.
  unfold begun. intros Hb Hk. rewrite Hk in Hb. destruct Hb as (RT & ctx & allowed & user & start & Hs & Hm & _ & _). intros Hu.
  exists RT, ctx, allowed, user, start. split; [done|]. intros Hwf.
  destruct (authentication_state_restored _ _ Hwf Hm) as (inputs & Hin & _). exists inputs. congruence.
Qed.

(** C10: in any interleaving of requests, a login that was answered with a session
    token is earned.  The session of the request had begun an authentication
    ceremony under that id, in the state the library started, and nobody had
    consumed it before this login did; the body is a response the relying party
    verified in that state against the record stored for the credential at some
    version, without a risk signal; the conditional update of exactly that
    version succeeded before the session was created; and the session is for the
    owner of the credential. *)
Theorem login_session_earned clock c ctx session id body token :
  reachable (handle a) (fresh_stores accounts clock) c → answered c (FinishLogin ctx session id body) (Ok (LoggedIn token)) →
  ∃ ceremony state response record version result h1 h2,
    history c = h1 ++ Consumed id ceremony :: h2 ∧ outstanding h1 id ceremony ∧
    sc_session ceremony = session ∧ session ≠ "" ∧ started_state ceremony state ∧
    AuthenticationResponseFromJSON body = Ok response ∧
    asserted (history c) id ceremony state response record version result ∧
    [Updated (ares_Update result) version; Session token (cr_UserHandle record)] `sublist_of` h2.
Proof.
  intros Hr Ha. destruct (application_sound _ _ Hr) as [Hi Ho].
  specialize (Ho _ _ Ha) as (cer & state & response & record & v & result & Hsub & Hs & Hresp & Hass).
  apply sublist_cons_l in Hsub as (h1 & h2 & Hh & Hsub).
  destruct (consumed_begun _ _ _ _ _ (inv_traced _ _ Hi) Hh) as (Hout & Hne & Hb).
  exists cer, state, response, record, v, result, h1, h2.
  pose proof Hass as (RT & ctx' & payload & _ & Hk & Hun & _ & _ & _ & _ & Hfin & _).
  destruct (finish_result _ _ _ _ Hfin) as (_ & Has & _). cbn in Has. rewrite Has in Hsub.
  split_and!; try done; [by rewrite <-Hs|by eapply begun_started].
Qed.

(** C12: a ceremony is consumed at most once.  Between two successful
    consumptions of an id it was saved again, and what the store still holds was
    saved and not consumed since, whatever requests run concurrently. *)
Theorem ceremony_single_use clock c id :
  reachable (handle a) (fresh_stores accounts clock) c →
  (∀ h1 x h2 y h3, history c = h1 ++ Consumed id x :: h2 ++ Consumed id y :: h3 → Saved id y ∈ h2) ∧
  (∀ x, mc_entries (st_ceremonies (shared c)) !! id = Some x → outstanding (history c) id x).
Proof.
  intros Hr. destruct (application_sound _ _ Hr) as [Hi _]. split; [|apply (inv_outstanding _ _ Hi)].
  intros h1 x h2 y h3 Hh. rewrite app_comm_cons, app_assoc in Hh.
  pose proof (inv_traced _ _ Hi _ _ _ Hh) as Hout. eapply holds_since_after in Hout; [exact Hout|by eexists|done].
Qed.

(** *** The versions of a credential *)
Lemma lineage_version h key payload v : lineage h key payload v → 1 <= v.
Proof. induction 1; lia. Qed.

Lemma count_app f h1 h2 : count f (h1 ++ h2) = count f h1 + count f h2.
Proof. unfold count. rewrite filter_app, length_app. lia. Qed.

Lemma count_cons f e h : count f (e :: h) = (if f e then 1 else 0) + count f h.
Proof. unfold count. rewrite filter_cons. destruct (f e); case_decide; try done. cbn [length]. lia. Qed.

(** Two events counted alike at the same count are the same. *)
Lemma counted_once f h (h1 h2 g1 g2 : list event) e e' :
  h = h1 ++ e :: h2 → h = g1 ++ e' :: g2 → f e = true → f e' = true → count f h1 = count f g1 → e = e'.
Proof.
  intros -> Hg He He' Hc. apply app_eq_app in Hg as (l & [[-> Hg]|[-> Hg]]); (destruct l as [|x l]; [by injection Hg|]).
  - injection Hg as <- ->. rewrite count_app, count_cons, He' in Hc. pose proof (count_nonneg f l). lia.
  - injection Hg as <- ->. rewrite count_app, count_cons, He in Hc. pose proof (count_nonneg f l). lia.
Qed.

Lemma lineage_functional h key payload payload' v :
  traced h → lineage h key payload v → lineage h key payload' v → payload = payload'.
Proof.
  intros Ht H. revert payload'. induction H as [r p Hin Hk Hm|p v u r next p' Hl IH Hin Hk Hun Happ Hm]; intros q Hq.
  - inversion Hq as [r' q' Hin' Hk' Hm'|q' w u ? ? ? Hl Hin' Hk' Hun Happ Hm' Hq1 Hv]; subst.
    + destruct (justified_elem _ _ _ Ht Hin) as (h1 & h2 & Hh & _ & Hc). destruct (justified_elem _ _ _ Ht Hin') as (g1 & g2 & Hg & _ & Hc').
      rewrite Hk' in Hc'. assert (Inserted r = Inserted r') as [= ->]; [|congruence].
      eapply (counted_once (inserts (bytes_key (cr_ID r)))); [exact Hh|exact Hg|by apply bool_decide_eq_true_2..|congruence].
    + apply lineage_version in Hl. lia.
  - inversion Hq as [r' q' Hin' Hk' Hm' Hq1 Hv|q' w u' r' next' ? Hl' Hin' Hk' Hun' Happ' Hm' Hq1 Hv].
    + apply lineage_version in Hl. lia.
    + subst. assert (w = v) as -> by lia. specialize (IH _ Hl') as <-.
      destruct (justified_elem _ _ _ Ht Hin) as (h1 & h2 & Hh & Hc & _). destruct (justified_elem _ _ _ Ht Hin') as (g1 & g2 & Hg & Hc' & _).
      rewrite Hk' in Hc'. assert (Updated u v = Updated u' v) as [= ->]; [|congruence].
      eapply (counted_once (updates (bytes_key (cu_ID u)))); [exact Hh|exact Hg|by apply bool_decide_eq_true_2..|lia].
Qed.

(** C11: no update of a credential is lost or overwritten.  The successful updates
    of a credential carry the versions 1, 2, 3 and so on in the order they
    happen, well below the bound of the counter; every version has exactly one
    content; each update was computed by an authentication that was verified
    against the content of exactly the version it replaces; and what the store
    holds is the content of the last version. *)
Theorem credential_updates_serialized clock c :
  reachable (handle a) (fresh_stores accounts clock) c →
  (∀ h1 u v h2, history c = h1 ++ Updated u v :: h2 →
     v = 1 + count (updates (bytes_key (cu_ID u))) h1 ∧ v < MaxUint64 ∧
     ∃ id ceremony state response record result,
       asserted h1 id ceremony state response record v result ∧ u = ares_Update result) ∧
  (∀ key payload payload' v, lineage (history c) key payload v → lineage (history c) key payload' v → payload = payload') ∧
  (∀ key entry, md_entries (st_credentials (shared c)) !! key = Some entry →
     sd_version entry = 1 + count (updates key) (history c) ∧ lineage (history c) key (sd_payload entry) (sd_version entry)).
Proof.
  intros Hr. destruct (application_sound _ _ Hr) as [Hi _]. split_and!.
  - intros h1 u v h2 Hh. exact (inv_traced _ _ Hi _ _ _ Hh).
  - intros key p p' v. apply lineage_functional, (inv_traced _ _ Hi).
  - intros key entry He. pose proof (inv_credentials _ _ Hi key) as Hc. rewrite He in Hc. cbn in Hc. tauto.
Qed.

(** *** Enrolled credentials *)
Lemma verified_owner c session user record : verified_for c session user record →
  slice_list (bv_value (cr_UserHandle record)) = slice_list (bv_value (user_ID user)).
Proof.
  intros (RT & ctx & state & response & result & _ & _ & Hacc & _ & Hu & _ & H & ->). rewrite <-Hacc, <-Hu.
  apply bind_Ok in H as (rp & _ & H). cbv zeta in H. apply bind_Ok in H as ([] & _ & H).
  apply FinishRegistration_sound in H as (_ & _ & decode & decoded & parsed & attested & key & ext & ar & trust & H).
  destruct H as (_ & _ & _ & _ & _ & _ & _ & _ & _ & _ & _ & _ & -> & _). done.
Qed.


(** ** A handler that runs alone

    What [finishLogin] does to the stores when nothing interferes. *)
Definition login_accepted (ctx : context) (session id : string) (body : list byte) (rt : Runtime) (s s' : stores)
    (evs : list event) (token : string) : Prop :=
  ∃ saved state response entry record result payload,
    let user := if bv_len (as_ExpectedUserHandle state) =? 0 then ar_UserHandle response else as_ExpectedUserHandle state in
    let key := bytes_key (ar_RawID response) in
    (* the ceremony *)
    (∀ method, method ∈ ["Consume"; "Lookup"; "Update"; "Create"] → ctx method 0%nat = None) ∧
    mc_entries (st_ceremonies s) !! id = Some saved ∧ session ≠ "" ∧ sc_session saved = session ∧
    sc_kind saved = authentication ∧ mc_now (st_ceremonies s) rt < sc_expires saved ∧
    Storage.UnmarshalAuthenticationState (sc_payload saved) = Ok state ∧
    bv_Equal (as_ExpectedUserHandle state) (sc_account saved) = true ∧ as_ExpiresAt state = sc_expires saved ∧
    (* the credential *)
    AuthenticationResponseFromJSON body = Ok response ∧ bv_len user ≠ 0 ∧
    md_entries (st_credentials s) !! key = Some entry ∧
    Storage.UnmarshalCredentialRecord (sd_payload entry) (md_decoder (st_credentials s)) = Ok record ∧
    bv_Equal (cr_UserHandle record) user = true ∧
    RelyingParty_FinishAuthentication (a_rp a) (Some ctx) (mkAuthenticationVerification state response record false) = Ok result ∧
    cn_CloneRisk (ares_Counter result) = false ∧ ares_UVInitializationPending result = false ∧
    (* its update and the session *)
    sd_version entry ≠ MaxUint64 ∧ Storage.MarshalCredentialRecord (ares_Credential result) = Ok payload ∧
    ceremonyID rt = Ok token ∧
    s' = mkStores (st_accounts s) (with_entries (st_ceremonies s) (delete id (mc_entries (st_ceremonies s))))
           (set_credential key (mkSavedCredential payload ((sd_version entry + 1) mod 2 ^ 64)) (st_credentials s))
           (mkSessions (<[token := cr_UserHandle record]> (ms_entries (st_sessions s)))) ∧
    evs = [Consumed id saved; Updated (ares_Update result) (sd_version entry); Session token (cr_UserHandle record)].

Lemma on_ceremonies_Ok {B} (f : Runtime → memoryCeremonies → memoryCeremonies * result B) rt s s' b :
  on_ceremonies f rt s = (s', Ok b) ↔
  ∃ m, f rt (st_ceremonies s) = (m, Ok b) ∧ s' = mkStores (st_accounts s) m (st_credentials s) (st_sessions s).
Proof.
  unfold on_ceremonies. destruct (f rt (st_ceremonies s)) as [m r]. split; [intros [= <- ->]; eauto|by intros (? & [= -> ->] & ->)].
Qed.
Lemma on_credentials_Ok {B} (f : memoryCredentials → memoryCredentials * result B) rt s s' b :
  on_credentials f rt s = (s', Ok b) ↔
  ∃ m, f (st_credentials s) = (m, Ok b) ∧ s' = mkStores (st_accounts s) (st_ceremonies s) m (st_sessions s).
Proof.
  unfold on_credentials. destruct (f (st_credentials s)) as [m r]. split; [intros [= <- ->]; eauto|by intros (? & [= -> ->] & ->)].
Qed.
Lemma on_sessions_Ok {B} (f : Runtime → memorySessions → memorySessions * result B) rt s s' b :
  on_sessions f rt s = (s', Ok b) ↔
  ∃ m, f rt (st_sessions s) = (m, Ok b) ∧ s' = mkStores (st_accounts s) (st_ceremonies s) (st_credentials s) m.
Proof.
  unfold on_sessions. destruct (f rt (st_sessions s)) as [m r]. split; [intros [= <- ->]; eauto|by intros (? & [= -> ->] & ->)].
Qed.
Lemma reading_Ok {B} (f : stores → result B) rt s s' b : reading f rt s = (s', Ok b) ↔ s' = s ∧ f s = Ok b.
Proof. unfold reading. split; [by intros [= -> ->]|by intros [-> ->]]. Qed.

Lemma finishLogin_accepted ctx session id body rt s s' evs token :
  alone rt s (finishLogin a ctx session id body) = (s', evs, Ok token) → login_accepted ctx session id body rt s s' evs token.
Proof.
  unfold finishLogin. intros H. apply alone_logged_Ok in H as (s1 & saved & e1 & Hc & H & ->).
  apply on_ceremonies_Ok in Hc as (m & (Hx1 & Hsaved & Hne & Hss & Hk & Ht & ->)%Consume_Ok & ->).
  apply alone_value_Ok in H as (state & Hstate & H). apply alone_value_Ok in H as ([] & Hb%fail_if_Ok & H).
  apply orb_false_iff in Hb as [Hu%negb_false_iff He%negb_false_iff%Z.eqb_eq].
  apply alone_value_Ok in H as (response & Hresp & H). cbv zeta in H. apply alone_value_Ok in H as ([] & Hl%fail_if_Ok%Z.eqb_neq & H).
  apply alone_logged_Ok in H as (s2 & stored & e2 & [-> Hlook]%reading_Ok & H & ->).
  apply Lookup_Ok_iff in Hlook as (Hx2 & entry & Hentry & Hver & Hrec & Howner). cbn in Hentry, Hrec.
  apply alone_compute_Ok in H as (result & Hfin & H). apply alone_value_Ok in H as ([] & [Hrisk Hpend]%fail_if_Ok%orb_false_iff & H).
  destruct (finish_result _ _ _ _ Hfin) as (Hkey & Has & Happ). cbn in Hkey, Has, Happ.
  apply alone_logged_Ok in H as (s3 & [] & e3 & Hup & H & ->).
  apply on_credentials_Ok in Hup as (m3 & (Hx3 & Hmax & p & r & next & p' & Hp & Hun & Happ' & Hmar & ->)%Update_Ok_iff & ->).
  apply alone_logged in H as [Hcr ->]. apply on_sessions_Ok in Hcr as (m4 & (Hx4 & Htok & ->)%Create_Ok & ->).
  cbn [st_credentials] in Hp, Hun. rewrite Hkey, Hentry, Hver in Hp. injection Hp as Hp. apply (f_equal sd_payload) in Hp. cbn in Hp. subst p.
  assert (r = cs_record stored) as -> by congruence. assert (next = ares_Credential result) as -> by congruence.
  exists saved, state, response, entry, (cs_record stored), result, p'.
  rewrite Hver in *. split_and!; try done.
  - intros method Hm. rewrite !elem_of_cons, elem_of_nil in Hm. by destruct Hm as [-> |[-> |[-> |[-> |[]]]]].
  - cbn. by rewrite Hkey, Has.
  - cbn. by rewrite Has.
Qed.

Lemma accepted_finishLogin ctx session id body rt s s' evs token :
  login_accepted ctx session id body rt s s' evs token → alone rt s (finishLogin a ctx session id body) = (s', evs, Ok token).
Proof.
  unfold finishLogin. intros (saved & state & response & entry & record & result & payload & Hctx & Hsaved & Hne & Hss & Hk & Ht & Hstate & Hu & He &
    Hresp & Hl & Hentry & Hrec & Howner & Hfin & Hrisk & Hpend & Hmax & Hmar & Htok & -> & ->).
  destruct (finish_result _ _ _ _ Hfin) as (Hkey & Has & Happ). cbn in Hkey, Has, Happ.
  apply alone_logged_Ok. eexists _, saved, _. split_and!; [|  |reflexivity].
  { apply on_ceremonies_Ok. eexists. split; [|reflexivity]. apply Consume_Ok. split_and!; try done. apply Hctx. by left. }
  apply alone_value_Ok. exists state. split; [done|]. apply alone_value_Ok. exists (). split; [by rewrite Hu, He, Z.eqb_refl|].
  apply alone_value_Ok. exists response. split; [done|]. cbv zeta. apply alone_value_Ok. exists ().
  split; [by rewrite (proj2 (Z.eqb_neq _ _) Hl)|].
  apply alone_logged_Ok. eexists _, (mkSnapshot record (sd_version entry)), _. split_and!; [|  |reflexivity].
  { apply reading_Ok. split; [reflexivity|]. apply Lookup_Ok_iff. split; [apply Hctx; by right; left|]. exists entry. done. }
  cbn [cs_record cs_version]. apply alone_compute_Ok. exists result. split; [done|]. apply alone_value_Ok. exists ().
  split; [by rewrite Hrisk, Hpend|]. apply alone_logged_Ok. eexists _, (), _. split_and!; [|  |reflexivity].
  { apply on_credentials_Ok. eexists. split; [|reflexivity]. apply Update_Ok_iff. split_and!; [apply Hctx; by do 2 right; left|done|].
    exists (sd_payload entry), record, (ares_Credential result), payload. cbn [st_credentials]. rewrite Hkey. destruct entry. done. }
  apply alone_logged. split; [|cbn; by rewrite Has]. apply on_sessions_Ok. eexists. split; [|reflexivity].
  apply Create_Ok. rewrite <-Has. split_and!; [apply Hctx; by do 3 right; left|done|done].
Qed.

(** C14: without interference a login succeeds exactly when its ceremony is saved
    for the session and not expired, the body is a response the relying party
    verifies against the credential stored for that user, no risk is signalled
    and the stores accept the update and the session; the stores then hold the
    record the library returned at the next version, the ceremony is gone, and
    the new session is the owner's. *)
Theorem finishLogin_exact ctx session id body rt s s' evs token :
  alone rt s (finishLogin a ctx session id body) = (s', evs, Ok token) ↔ login_accepted ctx session id body rt s s' evs token.
Proof. split; [apply finishLogin_accepted|apply accepted_finishLogin]. Qed.
End Log.

(** ** A run of the application, from the bytes of the requests to a session *)
Module Run.
Import Browser BrowserOptions Integration App.
#[local] Existing Instance no_custom_types.
#[local] Existing Instance default_order.
#[local] Existing Instance plain_evidence.
#[local] Existing Instance sample_runtime.
#[local] Existing Instance sample_floats.
#[local] Existing Instance no_methods.

Definition hash : list byte := Eval vm_compute in Sum256 (bytes_of_string "example.com").
Definition app_config : Config := {|
  c_RP := c_RP sample_config; c_OriginPolicy := example_policy; c_PubKeyCredParams := [];
  c_AttestationObjectDecoder := Iface (λ _, Ok (sample_decoded hash)); c_CredentialPublicKeyDecoder := Iface (λ _, Ok sample_key);
  c_ExtensionMapDecoder := Iface (λ _, Ok ∅); c_SignatureVerifier := Iface (λ _ _, Ok ());
  c_AlgorithmPolicy := c_AlgorithmPolicy sample_config;
  c_AttestationRegistry := c_AttestationRegistry sample_config; c_AttestationTrustPolicy := AcceptNone;
  c_ExtensionRegistry := None; c_Registration := c_Registration sample_config; c_Authentication := c_Authentication sample_config;
  c_Timeout := 0; c_StateTTL := 0; c_ChallengeGenerator := NilIface; c_Now := None |}.
Definition app : application := mkApplication (match New app_config with Ok rp => Some rp | Err _ => None end).
Definition key_decoder : COSEKeyDecoder := Iface (λ _, Ok sample_key).
Definition accounts : memoryAccounts := mkAccounts {[ "user" := sample_user ]} {[ "s" := "user" ]}.
Definition clock : Runtime → Z := λ rt, @time_Now rt.
Definition start : stores := fresh_stores key_decoder accounts clock.

(** Random sources that repeat a byte, so that ids differ. *)
Definition at_byte (b : byte) : Runtime := {| rand_Reader := λ n, Ok (replicate (Z.to_nat n) b); time_Now := 2 |}.
Definition id_of (b : byte) : string := EncodeToString (replicate 32 b).

Definition credential_text (response : list (string * option json)) : list byte := default [] (Marshal (object
  [("id", Some (jstring "Cgs")); ("rawId", Some (jstring "Cgs")); ("type", Some (jstring "public-key"));
   ("clientExtensionResults", Some (JObject [])); ("response", Some (object response))])).
Definition base64 (v : byteValue) : option json := Some (jstring (EncodeToString (slice_list (bv_value v)))).
Definition registration_body : list byte := credential_text
  [("clientDataJSON", base64 (rr_ClientDataJSON sample_response)); ("authenticatorData", base64 (sample_authdata hash));
   ("transports", Some (JArray [jstring "internal"])); ("publicKeyAlgorithm", Some (jint (-7)));
   ("attestationObject", base64 sample_object)].
Definition assertion_body (challenge : byte) (counter : Z) : list byte := credential_text
  [("clientDataJSON", base64 (mkByteValue (Some (object_text
      (ceremony_members ClientDataTypeGet "https://example.com" (replicate 32 challenge) false)))));
   ("authenticatorData", base64 (mkByteValue (Some (encodeAuthData hash x05 counter None None))));
   ("signature", Some (jstring "MA")); ("userHandle", Some (jstring "Bw"))].

Definition sections (i n : nat) (b : byte) : list (action request) := replicate n (Enter i (at_byte b)).

(** Enrollment, then two logins of which the second finishes while the first has
    not yet updated the credential. *)
Definition requests : list (action request) :=
  Arrive (BeginEnrollment background "s") :: sections 0 6 x00 ++
  Arrive (FinishEnrollment background "s" (id_of x00) registration_body) :: sections 1 5 x00 ++
  Arrive (BeginLogin background "t" "user") :: sections 2 6 x01 ++
  Arrive (BeginLogin background "u" "") :: sections 3 4 x02 ++
  Arrive (FinishLogin background "t" (id_of x01) (assertion_body x01 8)) ::
  Arrive (FinishLogin background "u" (id_of x02) (assertion_body x02 9)) ::
  sections 4 3 x03 ++ sections 5 6 x04 ++ sections 4 3 x03.
Definition final : config stores event request (result reply) := schedule (handle app) start requests.

(** The moment at which both logins have begun. *)
Definition waiting : config stores event request (result reply) := schedule (handle app) start (take 25 requests).

Definition replies : list (option (result reply)) := (λ t, match t.2 with Ret x => Some x | _ => None end) <$> pool final.
Definition by_host (e : event) : bool := match e with HostChanged _ => true | _ => false end.
Definition is_ok (r : option (result reply)) : bool := match r with Some (Ok _) => true | _ => false end.

(** Everything succeeds but the login that was overtaken. *)
Example run_replies :
  is_ok <$> replies = [true; true; true; true; false; true] ∧
  replies !! 4%nat = Some (Some (Err ErrCredentialUpdateConflict)) ∧
  replies !! 5%nat = Some (Some (Ok (LoggedIn (id_of x04)))).
Proof. vm_compute. done. Qed.
End Run.

#[local] Existing Instance no_custom_types.
#[local] Existing Instance default_order.
#[local] Existing Instance plain_evidence.
#[local] Existing Instance sample_floats.
#[local] Existing Instance no_methods.

Lemma run_reachable : reachable (App.handle Run.app) (fresh_stores Run.key_decoder Run.accounts Run.clock) Run.final.
Proof. apply schedule_reachable. Qed.

Lemma run_logged_in :
  answered Run.final (App.FinishLogin background "u" (Run.id_of x02) (Run.assertion_body x02 9)) (Ok (App.LoggedIn (Run.id_of x04))).
Proof. apply (list_elem_of_lookup_2 _ 5). vm_compute. reflexivity. Qed.

Lemma login_session_earned_witness :
  ∃ ceremony h1 h2, history Run.final = h1 ++ App.Consumed (Run.id_of x02) ceremony :: h2 ∧ outstanding h1 (Run.id_of x02) ceremony.
Proof.
  destruct (login_session_earned Run.app Run.key_decoder Run.accounts Run.clock Run.final background "u" (Run.id_of x02)
    (Run.assertion_body x02 9) (Run.id_of x04) run_reachable run_logged_in) as (cer & ? & ? & ? & ? & ? & h1 & h2 & H & Ho & _).
  exists cer, h1, h2. split; [exact H|exact Ho].
Defined.

Lemma ceremony_single_use_witness :
  ∃ x, Integration.mc_entries (App.st_ceremonies (shared Run.waiting)) !! Run.id_of x02 = Some x ∧
       outstanding (history Run.waiting) (Run.id_of x02) x.
Proof.
  destruct (Integration.mc_entries (App.st_ceremonies (shared Run.waiting)) !! Run.id_of x02) as [x|] eqn:E.
  - exists x. split; [reflexivity|]. exact (proj2 (ceremony_single_use Run.app Run.key_decoder Run.accounts Run.clock Run.waiting
      (Run.id_of x02) (schedule_reachable _ _ _)) x E).
  - exfalso. vm_compute in E. discriminate E.
Defined.

Lemma credential_updates_serialized_witness :
  ∃ entry, Integration.md_entries (App.st_credentials (shared Run.final)) !! string_of_bytes [x0a; x0b] = Some entry ∧
    Integration.sd_version entry = 1 + count (updates (string_of_bytes [x0a; x0b])) (history Run.final) ∧ Integration.sd_version entry = 2.
Proof.
  destruct (Integration.md_entries (App.st_credentials (shared Run.final)) !! string_of_bytes [x0a; x0b]) as [entry|] eqn:E.
  - exists entry. split; [reflexivity|]. split.
    + exact (proj1 (proj2 (proj2 (credential_updates_serialized Run.app Run.key_decoder Run.accounts Run.clock Run.final run_reachable)) _ _ E)).
    + vm_compute in E. injection E as <-. reflexivity.
  - exfalso. vm_compute in E. discriminate E.
Defined.

