(* ===== verification/HttpServer.v ===== *)
(** * Requests, replies and cookies of a server

    What the example servers use of [net/http] beyond [Transport]: a request as
    its handler reads it, a reply with its headers and cookies, and the match of
    the request multiplexer on method and path. *)
From S2P Require Import Prelude GoStrings Json JsonText Ceremony Transport Concurrent.
Local Open Scope Z_scope.

Module HttpServer.
Export NetHttp WebauthnHttp.

Definition StatusCreated : Z := 201.
Definition StatusUnauthorized : Z := 401.
Definition StatusForbidden : Z := 403.
Definition StatusNotFound : Z := 404.
Definition StatusConflict : Z := 409.
Definition StatusTooManyRequests : Z := 429.

Inductive SameSite := SameSiteLaxMode | SameSiteStrictMode.
Record Cookie := mkCookie {
  ck_Name : string; ck_Value : string; ck_Path : string; ck_MaxAge : Z; ck_Secure : bool; ck_HttpOnly : bool; ck_SameSite : SameSite }.

(** The headers a handler reads, after the server parsed them; a missing header
    is the empty string. *)
Record HttpRequest := mkHttpRequest {
  q_Context : context;
  q_Method : string;
  q_Host : string;
  q_Path : string;
  q_Origin : string;
  q_ContentType : string;
  q_Query : list (string * string);
  q_Cookies : list (string * string);
  q_Body : option Body;
}.

(** [request.Cookie(name)]: the first cookie of that name, or [ErrNoCookie]. *)
Definition RequestCookie (r : HttpRequest) (name : string) : option string :=
  snd <$> find (λ c, bool_decide (c.1 = name)) (q_Cookies r).

(** [request.URL.Query().Get(name)] *)
Definition QueryGet (r : HttpRequest) (name : string) : string :=
  from_option snd "" (find (λ c, bool_decide (c.1 = name)) (q_Query r)).

(** Headers set before the status was written are sent. *)
Record Reply := mkReply { rep_Headers : list (string * string); rep_Cookies : list Cookie; rep_Response : Response }.
Definition no_reply : Reply := mkReply [] [] fresh.

Definition unsent (rep : Reply) : bool := match hr_Status (rep_Response rep) with None => true | Some _ => false end.
Definition SetHeader (name value : string) (rep : Reply) : Reply :=
  if unsent rep then mkReply (filter (λ e, e.1 ≠ name) (rep_Headers rep) ++ [(name, value)]) (rep_Cookies rep) (rep_Response rep) else rep.
Definition SetCookie (c : Cookie) (rep : Reply) : Reply :=
  if unsent rep then mkReply (rep_Headers rep) (rep_Cookies rep ++ [c]) (rep_Response rep) else rep.

(** A call that writes the response and whose error is dropped ([_ = ...]). *)
Definition respond (write : Response → Response * result ()) (rep : Reply) : Reply :=
  mkReply (rep_Headers rep) (rep_Cookies rep) (write (rep_Response rep)).1.

(** A [ServeMux] pattern: a method and a literal path.  [GET] also serves [HEAD]. *)
Definition pattern_matches (pattern : string * string) (r : HttpRequest) : bool :=
  bool_decide (q_Path r = pattern.2)
  && (bool_decide (q_Method r = pattern.1) || bool_decide (pattern.1 = "GET" ∧ q_Method r = "HEAD")).
Definition ServeMux {E} (patterns : list ((string * string) * E)) (r : HttpRequest) : option E :=
  snd <$> find (λ p, pattern_matches p.1 r) patterns.

(** A step whose error ends the handler with the given reply. *)
Definition or_reply {S L A B} (p : prog S L (result A)) (other : B) (f : A → prog S L B) : prog S L B :=
  prog_bind (λ r, match r with Ok a => f a | Err _ => Ret other end) p.

Lemma wp_or_reply {S L A B} (Inv : S → list L → Prop) later (p : prog S L (result A)) (other : B) f (Q : B → S → list L → Prop) s h :
  wp Inv later p (λ r s' h', match r with Ok a => wp Inv later (f a) Q s' h' | Err _ => Q other s' h' end) s h →
  wp Inv later (or_reply p other f) Q s h.
Proof. intros H. apply wp_bind. eapply wp_mono; [|exact H]. by intros [a|e] s' h' Hq. Qed.

(** *** Handlers whose log only grows

    The rely condition of the servers: other requests extend the log. *)
Section Growing.
Context {S L : Type} (Inv : S → list L → Prop).

Definition extends (s : S) (h : list L) (s' : S) (h' : list L) : Prop := h `prefix_of` h'.
Lemma extends_refl s h : extends s h s h.
Proof. by unfold extends. Qed.
Lemma extends_trans s1 h1 s2 h2 s3 h3 : extends s1 h1 s2 h2 → extends s2 h2 s3 h3 → extends s1 h1 s3 h3.
Proof. unfold extends. by intros; etrans. Qed.

Lemma wp_section {B} (sec : Runtime → S → S * B) log (Q : B → S → list L → Prop) s h :
  (∀ s1 h1 rt s2 b, h `prefix_of` h1 → Inv s1 h1 → sec rt s1 = (s2, b) → Inv s2 (h1 ++ log b)) →
  (∀ s1 h1 b, h `prefix_of` h1 → Inv s1 (h1 ++ log b) → Q b s1 (h1 ++ log b)) →
  wp Inv extends (logged sec log) Q s h.
Proof.
  intros Hk HQ s1 h1 rt Hl Hi s2 b Hs. pose proof (Hk _ _ _ _ _ Hl Hi Hs) as H2. split_and!; [done|by eexists|]. by apply HQ.
Qed.

Lemma wp_read {B} (f : S → B) (Q : B → S → list L → Prop) s h :
  (∀ s1 h1, h `prefix_of` h1 → Inv s1 h1 → Q (f s1) s1 h1) → wp Inv extends (locked (λ _ s, (s, f s))) Q s h.
Proof.
  intros HQ s1 h1 rt Hl Hi s2 b [= <- <-]. rewrite app_nil_r. split_and!; [done|apply extends_refl|by apply HQ].
Qed.

Lemma wp_computed_or {B C} (g : Runtime → result B) (rep : C) (f : B → prog S L C) Q s h :
  (∀ RT b s1 h1, h `prefix_of` h1 → Inv s1 h1 → g RT = Ok b → wp Inv extends (f b) Q s1 h1) →
  (∀ s1 h1, h `prefix_of` h1 → Q rep s1 h1) → wp Inv extends (or_reply (compute g) rep f) Q s h.
Proof.
  intros H He. apply wp_or_reply, wp_compute; [apply extends_refl|]. intros RT s1 h1 Hl Hi.
  destruct (g RT) as [b|e] eqn:Hg; [by eapply H|by apply He].
Qed.
End Growing.

Lemma ServeMux_Some {E} (patterns : list ((string * string) * E)) r e :
  ServeMux patterns r = Some e → ∃ p, (p, e) ∈ patterns ∧ pattern_matches p r = true.
Proof.
  intros ([p e'] & Hf & ->)%fmap_Some. apply find_some in Hf as [Hin Hm]. exists p. split; [by apply list_elem_of_In|done].
Qed.

(** An error reply never has a success status. *)
Lemma WriteError_status w status e r : hr_Status r = None →
  hr_Status (WriteError w status e r).1 = None ∨ ∃ n, hr_Status (WriteError w status e r).1 = Some n ∧ 400 <= n.
Proof.
  intros Hr. unfold WriteError, WriteJSON. cbv zeta. set (st := if status <? StatusBadRequest then _ else _).
  assert (400 <= normalizeStatus st) as Hst.
  { subst st. unfold normalizeStatus, StatusBadRequest, StatusInternalServerError.
    destruct (status <? 400) eqn:E; [done|]. apply Z.ltb_ge in E. destruct (_ || _); lia. }
  destruct w as [| |write]; [by left..|]. destruct (Marshal _) as [text|]; [|by left]. right. exists (normalizeStatus st).
  destruct (write _) as [n [err|]]; cbn; by rewrite Hr.
Qed.

Lemma respond_cookies write rep : rep_Cookies (respond write rep) = rep_Cookies rep.
Proof. done. Qed.
End HttpServer.

Declare Scope server_scope.
Notation "x ←! p 'else' r ; q" := (HttpServer.or_reply p r (λ x, q))
  (at level 100, p at next level, r at next level, q at level 200, right associativity) : server_scope.
