(* ===== verification/QuickStart.v ===== *)
(** * The quick-start server

    Models [src/examples/quickstart/store.go] and [app.go]: one demo account,
    ceremonies bound to cookies, sessions with an expiry.  The handlers are
    programs over the store ([Concurrent]); the sections they take under the
    store's mutex are the code between [Lock] and [Unlock]. *)
From S2P Require Import Prelude Base64 AuthData ExtValue Types Extension Origin Attestation X509 Standard Cbor Json JsonText Ceremony State Registration Authentication RelyingParty Preset Storage Browser BrowserOptions Transport Concurrent Application HttpServer.
Local Open Scope Z_scope.
Local Open Scope prog_scope.
Local Open Scope server_scope.

(** [mime.ParseMediaType] of the standard library: the media type of a header
    value, without its parameters. *)
Class MediaTypes : Type := { ParseMediaType : string → result string }.

Module QuickStart.
Import HttpServer.

(** ** store.go *)
Record memoryStore := mkStore {
  ms_registration : gmap string RegistrationState;
  ms_authentication : gmap string AuthenticationState;
  ms_credentials : gmap string CredentialRecord;
  ms_sessions : gmap string Z;
}.

Definition newMemoryStore : memoryStore := mkStore ∅ ∅ ∅ ∅.

Definition token (rt : Runtime) : result string :=
  raw ← rand_Reader 32;
  Ok (EncodeToString raw).

Definition prune (now : Z) (s : memoryStore) : memoryStore :=
  mkStore (filter (λ kv, now < rs_ExpiresAt kv.2) (ms_registration s))
          (filter (λ kv, now < as_ExpiresAt kv.2) (ms_authentication s))
          (ms_credentials s)
          (filter (λ kv, now < kv.2) (ms_sessions s)).

Definition with_registration (m : gmap string RegistrationState) (s : memoryStore) : memoryStore :=
  mkStore m (ms_authentication s) (ms_credentials s) (ms_sessions s).
Definition with_authentication (m : gmap string AuthenticationState) (s : memoryStore) : memoryStore :=
  mkStore (ms_registration s) m (ms_credentials s) (ms_sessions s).
Definition with_credentials (m : gmap string CredentialRecord) (s : memoryStore) : memoryStore :=
  mkStore (ms_registration s) (ms_authentication s) m (ms_sessions s).
Definition with_sessions (m : gmap string Z) (s : memoryStore) : memoryStore :=
  mkStore (ms_registration s) (ms_authentication s) (ms_credentials s) m.

(** [string(id.Bytes())] *)
Definition id_key (id : byteValue) : string := string_of_bytes (slice_list (bv_bytes id)).

Definition insert (record : CredentialRecord) (s : memoryStore) : memoryStore * bool :=
  let key := id_key (cr_ID record) in
  if bool_decide (is_Some (ms_credentials s !! key)) || (64 <=? map_len (ms_credentials s)) then (s, false)
  else (with_credentials (<[key := CredentialRecord_Clone record]> (ms_credentials s)) s, true).

(** The record and the flag it is returned with. *)
Definition lookup_record (id : RawID) (user : UserHandle) (s : memoryStore) : option CredentialRecord :=
  record ← ms_credentials s !! id_key id;
  if bv_Equal (cr_UserHandle record) user then Some (CredentialRecord_Clone record) else None.

Definition descriptors {Ord : MapOrder} (s : memoryStore) : list CredentialDescriptor :=
  (λ kv, Descriptor kv.2) <$> range_list (ms_credentials s).

Definition update (u : CredentialUpdate) (s : memoryStore) : memoryStore * bool :=
  let key := id_key (cu_ID u) in
  match ms_credentials s !! key with
  | None => (s, false)
  | Some c =>
      match ApplyTo u c with
      | Err _ => (s, false)
      | Ok next => (with_credentials (<[key := next]> (ms_credentials s)) s, true)
      end
  end.

(** ** app.go *)
Definition demoOrigin : string := "http://localhost:8080".
Definition registrationCookie : string := "demo-registration".
Definition authenticationCookie : string := "demo-authentication".
Definition sessionCookie : string := "demo-session".

Record app := mkApp { a_rp : RelyingParty; a_user : UserEntity }.

(** What a section did, for the log. *)
Inductive event :=
| RegistrationSaved (id : string) (state : RegistrationState)
| RegistrationConsumed (id : string) (state : RegistrationState)
| AuthenticationSaved (id : string) (state : AuthenticationState)
| AuthenticationConsumed (id : string) (state : AuthenticationState)
| Inserted (record : CredentialRecord)
| Updated (u : CredentialUpdate)
| SessionOpened (id : string) (expiry : Z)
| SessionClosed (id : string).

Definition handler : Type := prog memoryStore event Reply.

(** [if len(...) >= 128] after pruning and deleting the caller's own entry. *)
Definition bounded_insert {A} (id : string) (a : A) (m : gmap string A) : option (gmap string A) :=
  if 128 <=? map_len m then None else Some (<[id := a]> m).

Definition saveRegistration (cookie id : string) (state : RegistrationState) (rt : Runtime) (s : memoryStore) : memoryStore * bool :=
  let s := prune time_Now s in
  let s := with_registration (delete cookie (ms_registration s)) s in
  match bounded_insert id state (ms_registration s) with
  | None => (s, false)
  | Some m => (with_registration m s, true)
  end.

Definition consumeRegistration (id : string) (rt : Runtime) (s : memoryStore) : memoryStore * option RegistrationState :=
  let s := prune time_Now s in
  (with_registration (delete id (ms_registration s)) s, ms_registration s !! id).

Definition saveAuthentication (cookie id : string) (state : AuthenticationState) (rt : Runtime) (s : memoryStore) : memoryStore * bool :=
  let s := prune time_Now s in
  let s := with_authentication (delete cookie (ms_authentication s)) s in
  match bounded_insert id state (ms_authentication s) with
  | None => (s, false)
  | Some m => (with_authentication m s, true)
  end.

Definition consumeAuthentication (id : string) (rt : Runtime) (s : memoryStore) : memoryStore * option AuthenticationState :=
  let s := prune time_Now s in
  (with_authentication (delete id (ms_authentication s)) s, ms_authentication s !! id).

(** The session's expiry is an hour from the section's moment. *)
Definition openSession (cookie id : string) (rt : Runtime) (s : memoryStore) : memoryStore * option Z :=
  let s := prune time_Now s in
  let s := with_sessions (delete cookie (ms_sessions s)) s in
  let expiry := time_Now + 3600 * 1000000000 in
  match bounded_insert id expiry (ms_sessions s) with
  | None => (s, None)
  | Some m => (with_sessions m s, Some expiry)
  end.

Definition fail (w : ResponseWriter) (status : Z) (rep : Reply) : Reply := respond (WriteError w status (Sentinel "nil")) rep.
Definition cookieID (r : HttpRequest) (name : string) : string := default "" (RequestCookie r name).
Definition setCookie (name id : string) (seconds : Z) (rep : Reply) : Reply :=
  SetCookie (mkCookie name id "/" seconds false true SameSiteStrictMode) rep.
(** [map[string]bool{name: value}] *)
Definition json_flag (name : string) (value : bool) : json := object [(name, Some (JBool value))].

Inductive endpoint :=
| BeginRegistration | FinishRegistration | BeginAuthentication | FinishAuthentication | Logout | Me.
Definition endpoints : list ((string * string) * endpoint) :=
  [(("POST", "/register/options"), BeginRegistration); (("POST", "/register/finish"), FinishRegistration);
   (("POST", "/login/options"), BeginAuthentication); (("POST", "/login/finish"), FinishAuthentication);
   (("POST", "/logout"), Logout); (("GET", "/me"), Me)].

Section Server.
Context {Floats : FloatText} {Ord : MapOrder} {Custom : CustomTypes} {CE : CustomEvidence} {Methods : MarshalMethods}.

Definition newApp {L : CborLibrary} {P : Primitives} (rt : Runtime) : result app :=
  config ← PasskeyConfig (mkRPEntity "localhost" "Passkey demo") (mkOriginPolicy [demoOrigin] [] false false);
  rp ← New config;
  raw ← rand_Reader 32;
  handle ← NewUserHandle (Some raw);
  Ok (mkApp rp (mkUserEntity handle "demo" "Local demo account")).

Context (a : app) (w : ResponseWriter).

Definition ttl_seconds : Z := DefaultChallengeTTL / 1000000000.

Definition beginRegistration (r : HttpRequest) (rep : Reply) : handler :=
  excluded ⇐ locked (λ _ s, (s, descriptors s));
  start ←! compute (λ RT, RelyingParty_StartRegistration (Some (a_rp a)) (Some (q_Context r))
                            (mkRegistrationRequest (a_user a) excluded ∅ [] false)) else fail w StatusInternalServerError rep;
  id ←! compute token else fail w StatusInternalServerError rep;
  ok ⇐ logged (saveRegistration (cookieID r registrationCookie) id (rsr_State start))
              (λ ok : bool, if ok then [RegistrationSaved id (rsr_State start)] else []);
  if ok : bool then
    Ret (respond (WriteCreationOptions w (rsr_Options start)) (setCookie registrationCookie id ttl_seconds rep))
  else Ret (fail w StatusTooManyRequests rep).

Definition finishRegistration (r : HttpRequest) (rep : Reply) : handler :=
  let id := cookieID r registrationCookie in
  found ⇐ logged (consumeRegistration id) (λ found, match found with Some state => [RegistrationConsumed id state] | None => [] end);
  let rep := setCookie registrationCookie "" (-1) rep in
  match found with
  | None => Ret (fail w StatusUnauthorized rep)
  | Some state =>
      response ←! Ret (ReadRegistrationResponse (Some (q_Body r)) 0) else fail w StatusBadRequest rep;
      result ←! compute (λ RT, RelyingParty_FinishRegistration (Some (a_rp a)) (Some (q_Context r))
                                 (mkRegistrationVerification state response)) else fail w StatusUnauthorized rep;
      ok ⇐ logged (λ _, insert (rres_Credential result)) (λ ok : bool, if ok then [Inserted (rres_Credential result)] else []);
      if ok : bool then Ret (respond (WriteJSON w StatusCreated (json_flag "registered" true)) rep)
      else Ret (fail w StatusConflict rep)
  end.

Definition beginAuthentication (r : HttpRequest) (rep : Reply) : handler :=
  start ←! compute (λ RT, RelyingParty_StartAuthentication (Some (a_rp a)) (Some (q_Context r))
                            (mkAuthenticationRequest [] zeroByteValue ∅ [])) else fail w StatusInternalServerError rep;
  id ←! compute token else fail w StatusInternalServerError rep;
  ok ⇐ logged (saveAuthentication (cookieID r authenticationCookie) id (asr_State start))
              (λ ok : bool, if ok then [AuthenticationSaved id (asr_State start)] else []);
  if ok : bool then
    Ret (respond (WriteRequestOptions w (asr_Options start)) (setCookie authenticationCookie id ttl_seconds rep))
  else Ret (fail w StatusTooManyRequests rep).

(** The end of [finishAuthentication], after the update. *)
Definition startSession (r : HttpRequest) (rep : Reply) : handler :=
  id ←! compute token else fail w StatusInternalServerError rep;
  expiry ⇐ logged (openSession (cookieID r sessionCookie) id) (λ e, match e with Some e => [SessionOpened id e] | None => [] end);
  match expiry with
  | Some _ => Ret (respond (WriteJSON w StatusOK (json_flag "authenticated" true)) (setCookie sessionCookie id 3600 rep))
  | None => Ret (fail w StatusTooManyRequests rep)
  end.

Definition finishAuthentication (r : HttpRequest) (rep : Reply) : handler :=
  let id := cookieID r authenticationCookie in
  found ⇐ logged (consumeAuthentication id) (λ found, match found with Some state => [AuthenticationConsumed id state] | None => [] end);
  let rep := setCookie authenticationCookie "" (-1) rep in
  match found with
  | None => Ret (fail w StatusUnauthorized rep)
  | Some state =>
      response ←! Ret (ReadAuthenticationResponse (Some (q_Body r)) 0) else fail w StatusBadRequest rep;
      credential ⇐ locked (λ _ s, (s, lookup_record (ar_RawID response) (ar_UserHandle response) s));
      match credential with
      | None => Ret (fail w StatusUnauthorized rep)
      | Some credential =>
          result ←! compute (λ RT, RelyingParty_FinishAuthentication (Some (a_rp a)) (Some (q_Context r))
                                     (mkAuthenticationVerification state response credential false)) else fail w StatusUnauthorized rep;
          if cn_CloneRisk (ares_Counter result) || ares_UVInitializationPending result then Ret (fail w StatusUnauthorized rep)
          else
            ok ⇐ logged (λ _, update (ares_Update result)) (λ ok : bool, if ok then [Updated (ares_Update result)] else []);
            if ok : bool then startSession r rep else Ret (fail w StatusConflict rep)
      end
  end.

Definition me (r : HttpRequest) (rep : Reply) : handler :=
  ok ⇐ locked (λ rt s, let s := prune time_Now s in (s, bool_decide (is_Some (ms_sessions s !! cookieID r sessionCookie))));
  Ret (respond (WriteJSON w StatusOK (json_flag "authenticated" ok)) rep).

Definition logout (r : HttpRequest) (rep : Reply) : handler :=
  let id := cookieID r sessionCookie in
  _ ⇐ logged (λ _ s, (with_sessions (delete id (ms_sessions s)) s, ())) (λ _, [SessionClosed id]);
  Ret (respond (WriteJSON w StatusOK (json_flag "authenticated" false)) (setCookie sessionCookie "" (-1) rep)).

(** [routes]: the multiplexer ([endpoints]) behind the guard of host, origin and media type.
    What is not one of the six endpoints is served by [other]: the embedded
    files, or an error page of the multiplexer. *)
Definition serve (e : endpoint) : HttpRequest → Reply → handler :=
  match e with
  | BeginRegistration => beginRegistration
  | FinishRegistration => finishRegistration
  | BeginAuthentication => beginAuthentication
  | FinishAuthentication => finishAuthentication
  | Logout => logout
  | Me => me
  end.

Definition security_headers (rep : Reply) : Reply :=
  SetHeader "Content-Security-Policy" "default-src 'self'; frame-ancestors 'none'; base-uri 'none'; form-action 'self'"
    (SetHeader "X-Content-Type-Options" "nosniff" (SetHeader "Cache-Control" "no-store" rep)).

Definition routes {MT : MediaTypes} (other : HttpRequest → Response → Response) (r : HttpRequest) : handler :=
  let rep := security_headers no_reply in
  if negb (bool_decide (q_Host r = "localhost:8080")) then Ret (fail w StatusForbidden rep)
  else if bool_decide (q_Method r = "POST")
          && (negb (bool_decide (q_Origin r = demoOrigin))
              || match ParseMediaType (q_ContentType r) with Ok media => negb (bool_decide (media = "application/json")) | Err _ => true end)
  then Ret (fail w StatusForbidden rep)
  else match ServeMux endpoints r with
       | Some e => serve e r rep
       | None => Ret (respond (λ x, (other r x, Ok ())) rep)
       end.
End Server.

End QuickStart.

(** ** What the server promises *)
Section Promises.
Import HttpServer QuickStart.
Context {Floats : FloatText} {Ord : MapOrder} {Custom : CustomTypes} {CE : CustomEvidence} {Methods : MarshalMethods} {MT : MediaTypes}.
Context (a : app) (w : ResponseWriter) (other : HttpRequest → Response → Response).

(** An assertion verified in the state of a consumed ceremony, without a risk
    signal. *)
Definition demo_verified (id : string) (state : AuthenticationState) (result : AuthenticationResult) : Prop :=
  ∃ (RT : Runtime) ctx response record,
    RelyingParty_FinishAuthentication (Some (a_rp a)) (Some ctx) (mkAuthenticationVerification state response record false) = Ok result ∧
    cn_CloneRisk (ares_Counter result) = false ∧ ares_UVInitializationPending result = false.
Definition demo_asserted (h : list event) (result : AuthenticationResult) : Prop :=
  ∃ id state, AuthenticationConsumed id state ∈ h ∧ demo_verified id state result.

(** A state the server started. *)
Definition demo_started (state : AuthenticationState) : Prop := ∃ (RT : Runtime) ctx start,
  RelyingParty_StartAuthentication (Some (a_rp a)) (Some ctx) (mkAuthenticationRequest [] zeroByteValue ∅ []) = Ok start ∧
  state = asr_State start.

(** What must have happened before each event. *)
Definition demo_justified (h : list event) (e : event) : Prop :=
  match e with
  | RegistrationSaved id state => ∃ (RT : Runtime) ctx excluded start,
      RelyingParty_StartRegistration (Some (a_rp a)) (Some ctx) (mkRegistrationRequest (a_user a) excluded ∅ [] false) = Ok start ∧
      state = rsr_State start
  | RegistrationConsumed id state => holds_since (RegistrationSaved id state) (λ x, ∃ y, x = RegistrationConsumed id y) h
  | AuthenticationSaved id state => demo_started state
  | AuthenticationConsumed id state => holds_since (AuthenticationSaved id state) (λ x, ∃ y, x = AuthenticationConsumed id y) h
  | Inserted record => ∃ (RT : Runtime) ctx id state response result,
      RegistrationConsumed id state ∈ h ∧
      RelyingParty_FinishRegistration (Some (a_rp a)) (Some ctx) (mkRegistrationVerification state response) = Ok result ∧
      record = rres_Credential result
  | Updated u => ∃ result, demo_asserted h result ∧ u = ares_Update result
  | SessionOpened _ _ => ∃ result, demo_asserted h result ∧ Updated (ares_Update result) ∈ h
  | SessionClosed _ => True
  end.

(** A session that was opened and not closed since. *)
Definition session_open (h : list event) (id : string) (expiry : Z) : Prop :=
  holds_since (SessionOpened id expiry) (λ x, x = SessionClosed id) h.

Record demo_invariant (s : memoryStore) (h : list event) : Prop := {
  demo_registration : ∀ id state, ms_registration s !! id = Some state →
    holds_since (RegistrationSaved id state) (λ x, ∃ y, x = RegistrationConsumed id y) h;
  demo_authentication : ∀ id state, ms_authentication s !! id = Some state →
    holds_since (AuthenticationSaved id state) (λ x, ∃ y, x = AuthenticationConsumed id y) h;
  demo_sessions : ∀ id expiry, ms_sessions s !! id = Some expiry → session_open h id expiry;
  demo_credentials : ∀ key r, ms_credentials s !! key = Some r → id_key (cr_ID r) = key ∧ CredentialRecord_Validate r = Ok () ∧
    slice_list (bv_value (cr_UserHandle r)) = slice_list (bv_value (user_ID (a_user a)));
  demo_bounded : map_len (ms_registration s) <= 128 ∧ map_len (ms_authentication s) <= 128 ∧
    map_len (ms_credentials s) <= 64 ∧ map_len (ms_sessions s) <= 128;
  demo_history : justified_history demo_justified h;
}.


Abbreviation demo_wp := (wp demo_invariant extends).

(** *** Sections that only drop entries *)
Definition shrinks (s s' : memoryStore) : Prop :=
  ms_registration s' ⊆ ms_registration s ∧ ms_authentication s' ⊆ ms_authentication s ∧
  ms_credentials s' = ms_credentials s ∧ ms_sessions s' ⊆ ms_sessions s.

Lemma shrinks_trans s1 s2 s3 : shrinks s1 s2 → shrinks s2 s3 → shrinks s1 s3.
Proof. intros (?&?&E1&?) (?&?&E2&?). unfold shrinks. rewrite E2. split_and!; [by etrans|by etrans|done|by etrans]. Qed.

Lemma shrinks_prune now s : shrinks s (prune now s).
Proof. split_and!; [apply map_filter_subseteq|apply map_filter_subseteq|done|apply map_filter_subseteq]. Qed.
Lemma shrinks_delete_registration id s : shrinks s (with_registration (delete id (ms_registration s)) s).
Proof. split_and!; [apply delete_subseteq|done..]. Qed.
Lemma shrinks_delete_authentication id s : shrinks s (with_authentication (delete id (ms_authentication s)) s).
Proof. split_and!; [done|apply delete_subseteq|done..]. Qed.
Lemma shrinks_delete_session id s : shrinks s (with_sessions (delete id (ms_sessions s)) s).
Proof. split_and!; [done..|apply delete_subseteq]. Qed.

Lemma map_len_subseteq {A} (m m' : gmap string A) : m ⊆ m' → map_len m <= map_len m'.
Proof. intros H. unfold map_len. apply map_subseteq_size in H. lia. Qed.

Lemma shrinks_invariant s s' h : shrinks s s' → demo_invariant s h → demo_invariant s' h.
Proof.
  intros (Hr & Ha & Hc & Hs) [Ir Ia Is Ic (B1 & B2 & B3 & B4) Ih]. constructor.
  - intros id state H. apply Ir. by eapply lookup_weaken.
  - intros id state H. apply Ia. by eapply lookup_weaken.
  - intros id e H. apply Is. by eapply lookup_weaken.
  - by rewrite Hc.
  - rewrite Hc. pose proof (map_len_subseteq _ _ Hr). pose proof (map_len_subseteq _ _ Ha). pose proof (map_len_subseteq _ _ Hs). lia.
  - done.
Qed.

(** An event that cancels nothing the store relies on. *)
Definition harmless (s : memoryStore) (e : event) : Prop :=
  match e with
  | RegistrationConsumed id _ => ms_registration s !! id = None
  | AuthenticationConsumed id _ => ms_authentication s !! id = None
  | SessionClosed id => ms_sessions s !! id = None
  | _ => True
  end.

Lemma harmless_invariant s h e : harmless s e → demo_justified h e → demo_invariant s h → demo_invariant s (h ++ [e]).
Proof.
  intros He Hj [Ir Ia Is Ic Ib Ih]. constructor; [..|by apply justified_snoc]; [| | |done|done].
  - intros id state H. apply holds_since_snoc; [|by apply Ir]. intros [y ->]. cbn in He. congruence.
  - intros id state H. apply holds_since_snoc; [|by apply Ia]. intros [y ->]. cbn in He. congruence.
  - intros id expiry H. apply holds_since_snoc; [|by apply Is]. intros ->. cbn in He. congruence.
Qed.

(** *** Sections that add an entry *)
Lemma map_len_insert {A} (m : gmap string A) k x : map_len (<[k := x]> m) <= map_len m + 1.
Proof. unfold map_len. rewrite map_size_insert. destruct (m !! k); cbn [id]; lia. Qed.

Lemma bounded_insert_Some {A} id (x : A) m m' : bounded_insert id x m = Some m' → m' = <[id := x]> m ∧ map_len m' <= 128.
Proof.
  unfold bounded_insert. destruct (128 <=? map_len m) eqn:H; intros [= <-]. apply Z.leb_gt in H.
  pose proof (map_len_insert m id x). split; [done|lia].
Qed.

Lemma add_registration s h id state m : demo_invariant s h → bounded_insert id state (ms_registration s) = Some m →
  holds_since (RegistrationSaved id state) (λ x, ∃ y, x = RegistrationConsumed id y) h → demo_invariant (with_registration m s) h.
Proof.
  intros [Ir Ia Is Ic Ib Ih] [-> Hm]%bounded_insert_Some Hh. constructor; [|done..|destruct Ib as (?&?&?&?); by split_and!|done]. intros i st. cbn.
  rewrite lookup_insert_Some. intros [[<- <-]|[_ H]]; [done|by apply Ir].
Qed.
Lemma add_authentication s h id state m : demo_invariant s h → bounded_insert id state (ms_authentication s) = Some m →
  holds_since (AuthenticationSaved id state) (λ x, ∃ y, x = AuthenticationConsumed id y) h → demo_invariant (with_authentication m s) h.
Proof.
  intros [Ir Ia Is Ic Ib Ih] [-> Hm]%bounded_insert_Some Hh. constructor; [done| |done..|destruct Ib as (?&?&?&?); by split_and!|done]. intros i st. cbn.
  rewrite lookup_insert_Some. intros [[<- <-]|[_ H]]; [done|by apply Ia].
Qed.
Lemma add_session s h id expiry m : demo_invariant s h → bounded_insert id expiry (ms_sessions s) = Some m →
  session_open h id expiry → demo_invariant (with_sessions m s) h.
Proof.
  intros [Ir Ia Is Ic Ib Ih] [-> Hm]%bounded_insert_Some Hh. constructor; [done|done| |done|destruct Ib as (?&?&?&?); by split_and!|done]. intros i st. cbn.
  rewrite lookup_insert_Some. intros [[<- <-]|[_ H]]; [done|by apply Is].
Qed.
Lemma set_credential s h key r : demo_invariant s h → id_key (cr_ID r) = key → CredentialRecord_Validate r = Ok () →
  slice_list (bv_value (cr_UserHandle r)) = slice_list (bv_value (user_ID (a_user a))) →
  map_len (<[key := r]> (ms_credentials s)) <= 64 → demo_invariant (with_credentials (<[key := r]> (ms_credentials s)) s) h.
Proof.
  intros [Ir Ia Is Ic Ib Ih] Hk Hv Hu Hm. constructor; [done..| |destruct Ib as (?&?&?&?); by split_and!|done]. intros k r'. cbn.
  rewrite lookup_insert_Some. intros [[<- <-]|[_ H]]; [done|by apply Ic].
Qed.

(** *** The handlers' sections keep the invariant *)
Lemma saveRegistration_keeps cookie id state rt s s' ok h :
  saveRegistration cookie id state rt s = (s', ok) → demo_invariant s h → demo_justified h (RegistrationSaved id state) →
  demo_invariant s' (h ++ if ok then [RegistrationSaved id state] else []).
Proof.
  unfold saveRegistration. set (s1 := with_registration _ _). intros H Hi Hj.
  assert (demo_invariant s1 h) as H1.
  { eapply shrinks_invariant; [|exact Hi]. eapply shrinks_trans; [apply shrinks_prune|apply shrinks_delete_registration]. }
  destruct (bounded_insert _ _ _) as [m|] eqn:Hb; injection H as <- <-; [|by rewrite app_nil_r].
  eapply add_registration; [|exact Hb|apply holds_since_now]. by apply harmless_invariant.
Qed.

Lemma saveAuthentication_keeps cookie id state rt s s' ok h :
  saveAuthentication cookie id state rt s = (s', ok) → demo_invariant s h → demo_justified h (AuthenticationSaved id state) →
  demo_invariant s' (h ++ if ok then [AuthenticationSaved id state] else []).
Proof.
  unfold saveAuthentication. set (s1 := with_authentication _ _). intros H Hi Hj.
  assert (demo_invariant s1 h) as H1.
  { eapply shrinks_invariant; [|exact Hi]. eapply shrinks_trans; [apply shrinks_prune|apply shrinks_delete_authentication]. }
  destruct (bounded_insert _ _ _) as [m|] eqn:Hb; injection H as <- <-; [|by rewrite app_nil_r].
  eapply add_authentication; [|exact Hb|apply holds_since_now]. by apply harmless_invariant.
Qed.

Lemma openSession_keeps cookie id rt s s' expiry h :
  openSession cookie id rt s = (s', expiry) → demo_invariant s h → (∀ e, demo_justified h (SessionOpened id e)) →
  demo_invariant s' (h ++ match expiry with Some e => [SessionOpened id e] | None => [] end).
Proof.
  unfold openSession. set (s1 := with_sessions _ _). intros H Hi Hj.
  assert (demo_invariant s1 h) as H1.
  { eapply shrinks_invariant; [|exact Hi]. eapply shrinks_trans; [apply shrinks_prune|apply shrinks_delete_session]. }
  destruct (bounded_insert _ _ _) as [m|] eqn:Hb; injection H as <- <-; [|by rewrite app_nil_r].
  eapply add_session; [|exact Hb|apply holds_since_now]. apply harmless_invariant; [done|apply Hj|done].
Qed.

Lemma consumeRegistration_keeps id rt s s' found h :
  consumeRegistration id rt s = (s', found) → demo_invariant s h →
  demo_invariant s' (h ++ match found with Some state => [RegistrationConsumed id state] | None => [] end).
Proof.
  unfold consumeRegistration. intros [= <- <-] Hi.
  assert (demo_invariant (prune (@time_Now rt) s) h) as H1 by (eapply shrinks_invariant; [apply shrinks_prune|done]).
  pose proof (shrinks_invariant _ _ _ (shrinks_delete_registration id _) H1) as H2. cbn in H2 |- *.
  destruct (filter _ (ms_registration s) !! id) as [state|] eqn:E; [|by rewrite app_nil_r].
  apply harmless_invariant; [by apply lookup_delete_eq|by apply (demo_registration _ _ H1)|done].
Qed.

Lemma consumeAuthentication_keeps id rt s s' found h :
  consumeAuthentication id rt s = (s', found) → demo_invariant s h →
  demo_invariant s' (h ++ match found with Some state => [AuthenticationConsumed id state] | None => [] end).
Proof.
  unfold consumeAuthentication. intros [= <- <-] Hi.
  assert (demo_invariant (prune (@time_Now rt) s) h) as H1 by (eapply shrinks_invariant; [apply shrinks_prune|done]).
  pose proof (shrinks_invariant _ _ _ (shrinks_delete_authentication id _) H1) as H2. cbn in H2 |- *.
  destruct (filter _ (ms_authentication s) !! id) as [state|] eqn:E; [|by rewrite app_nil_r].
  apply harmless_invariant; [by apply lookup_delete_eq|by apply (demo_authentication _ _ H1)|done].
Qed.

(** A registered record is valid and the demo user's. *)
Lemma registered_for_user h record : justified_history demo_justified h → demo_justified h (Inserted record) →
  CredentialRecord_Validate record = Ok () ∧ slice_list (bv_value (cr_UserHandle record)) = slice_list (bv_value (user_ID (a_user a))).
Proof.
  intros Hh (RT & ctx & id & state & response & result & Hc & Hfin & ->).
  apply bind_Ok in Hfin as (rp & _ & H). cbv zeta in H. apply bind_Ok in H as ([] & _ & H). apply FinishRegistration_sound in H.
  split; [by apply CredentialRecord_Validate_Ok, (registration_verified_record _ _ _ H)|].
  destruct H as (_ & _ & decode & decoded & parsed & attested & key & ext & ar & trust & H).
  destruct H as (_ & _ & _ & _ & _ & _ & _ & _ & _ & _ & _ & _ & -> & _). cbn [registered_credential cr_UserHandle].
  destruct (justified_elem _ _ _ Hh Hc) as (h1 & h2 & -> & (g1 & g2 & -> & _)).
  destruct (Hh g1 (RegistrationSaved id state) (g2 ++ RegistrationConsumed id state :: h2)) as (RT' & ctx' & ds & start & Hst & ->);
    [by rewrite <-app_assoc|].
  cbn [registrationFinishOptions rfo_State rv_State]. by rewrite (started_user _ _ _ _ Hst).
Qed.

Lemma insert_keeps record s s' ok h :
  insert record s = (s', ok) → demo_invariant s h → demo_justified h (Inserted record) →
  demo_invariant s' (h ++ if ok then [Inserted record] else []).
Proof.
  unfold insert. intros H Hi Hj. destruct (_ || _) eqn:Hg; injection H as <- <-; [by rewrite app_nil_r|].
  apply orb_false_iff in Hg as [_ Hlen%Z.leb_gt]. destruct (registered_for_user h record (demo_history _ _ Hi) Hj) as [Hv Hu].
  pose proof (map_len_insert (ms_credentials s) (id_key (cr_ID record)) (CredentialRecord_Clone record)).
  apply set_credential; [by apply harmless_invariant|done|done|done|lia].
Qed.

Lemma ApplyTo_keeps u c next : ApplyTo u c = Ok next →
  cr_ID next = cr_ID c ∧ cr_UserHandle next = cr_UserHandle c ∧ CredentialRecord_Validate next = Ok () ∧ id_key (cr_ID c) = id_key (cu_ID u).
Proof.
  intros H. apply bind_Ok in H as ([] & _ & H). apply bind_Ok in H as ([] & Hm%fail_if_Ok%update_guard & H). cbv zeta in H.
  apply bind_Ok in H as ([] & Hv%wrap_err_Ok & [= <-]). split_and!; [done|done|done|]. unfold id_key, bv_bytes. by destruct Hm as [-> _].
Qed.

Lemma update_keeps u s s' ok h :
  update u s = (s', ok) → demo_invariant s h → demo_justified h (Updated u) → demo_invariant s' (h ++ if ok then [Updated u] else []).
Proof.
  unfold update. intros H Hi Hj. destruct (ms_credentials s !! id_key (cu_ID u)) as [c|] eqn:Hc; [|injection H as <- <-; by rewrite app_nil_r].
  destruct (ApplyTo u c) as [next|] eqn:Ha; injection H as <- <-; [|by rewrite app_nil_r].
  destruct (ApplyTo_keeps _ _ _ Ha) as (Hid & Hu & Hv & Hk). destruct (demo_credentials _ _ Hi _ _ Hc) as (_ & _ & Howner).
  apply set_credential; [by apply harmless_invariant|by rewrite Hid|done|by rewrite Hu|].
  unfold map_len. rewrite map_size_insert_Some by (by eexists). apply (demo_bounded _ _ Hi).
Qed.

(** *** Handlers *)
(** A session cookie is only set for a session that was opened. *)
Definition cookies_honest (rep : Reply) (h : list event) : Prop :=
  ∀ c, c ∈ rep_Cookies rep → ck_Name c = sessionCookie → ck_Value c ≠ "" → ∃ expiry, SessionOpened (ck_Value c) expiry ∈ h.

Lemma honest_fail status rep h : cookies_honest rep h → cookies_honest (fail w status rep) h.
Proof. done. Qed.
Lemma honest_respond write rep h : cookies_honest rep h → cookies_honest (respond write rep) h.
Proof. done. Qed.
Lemma honest_setCookie name id seconds rep h : cookies_honest rep h →
  (name = sessionCookie → id ≠ "" → ∃ expiry, SessionOpened id expiry ∈ h) → cookies_honest (setCookie name id seconds rep) h.
Proof.
  intros Hr Hn c. unfold setCookie, SetCookie. destruct (unsent rep); [|by apply Hr]. cbn.
  rewrite elem_of_app, list_elem_of_singleton. intros [Hc| ->]; [by apply Hr|apply Hn].
Qed.
Lemma honest_prefix rep h h' : h `prefix_of` h' → cookies_honest rep h → cookies_honest rep h'.
Proof.
  intros Hp Hr c Hc Hn Hv. destruct (Hr c Hc Hn Hv) as [e He]. exists e. by eapply prefix_subseteq.
Qed.

Definition honest_outcome (rep : Reply) (s : memoryStore) (h : list event) : Prop := cookies_honest rep h.

Lemma wp_beginRegistration r rep s h : cookies_honest rep [] → demo_wp (beginRegistration a w r rep) honest_outcome s h.
Proof.
  intros Hrep. assert (∀ h', cookies_honest rep h') as Hr by (intros h'; eapply honest_prefix; [apply prefix_nil|done]).
  apply wp_bind, wp_section; [intros s1 h1 rt s2 b _ Hi [= <- <-]; by rewrite app_nil_r|]. intros s1 h1 excluded _ _.
  apply wp_computed_or; [|by intros; apply honest_fail]. intros RT start s2 h2 _ _ Hstart.
  apply wp_computed_or; [|by intros; apply honest_fail]. intros RT' id s3 h3 _ _ _.
  apply wp_bind, wp_section.
  - intros s4 h4 rt s5 ok _ Hi Hs. eapply saveRegistration_keeps; [exact Hs|done|]. by exists RT, (q_Context r), excluded, start.
  - intros s4 h4 [] _ _; [|by apply honest_fail]. apply honest_respond, honest_setCookie; done.
Qed.

Lemma wp_finishRegistration r rep s h : cookies_honest rep [] → demo_wp (finishRegistration a w r rep) honest_outcome s h.
Proof.
  intros Hrep. unfold finishRegistration. cbv zeta. set (id := cookieID r registrationCookie).
  assert (∀ h', cookies_honest (setCookie registrationCookie "" (-1) rep) h') as Hr.
  { intros h'. apply honest_setCookie; [|done]. eapply honest_prefix; [apply prefix_nil|done]. }
  apply wp_bind, wp_section; [intros s1 h1 rt s2 b _ Hi Hs; by eapply consumeRegistration_keeps|].
  intros s1 h1 [state|] _ Hi1; [|apply Hr]. apply wp_or_reply.
  destruct (ReadRegistrationResponse _ _) as [response|]; [|apply Hr].
  apply wp_computed_or; [|by intros; apply honest_fail]. intros RT result s2 h2 Hp2 _ Hfin. apply wp_bind, wp_section.
  - intros s3 h3 rt s4 ok Hp3 Hi Hs. eapply insert_keeps; [exact Hs|done|].
    exists RT, (q_Context r), id, state, response, result. split_and!; [|done|done].
    apply (prefix_subseteq (h1 ++ [RegistrationConsumed id state])); [by etrans|apply elem_of_snoc].
  - intros s3 h3 [] _ _; [by apply honest_respond|by apply honest_fail].
Qed.

Lemma wp_beginAuthentication r rep s h : cookies_honest rep [] → demo_wp (beginAuthentication a w r rep) honest_outcome s h.
Proof.
  intros Hrep. assert (∀ h', cookies_honest rep h') as Hr by (intros h'; eapply honest_prefix; [apply prefix_nil|done]).
  apply wp_computed_or; [|by intros; apply honest_fail]. intros RT start s2 h2 _ _ Hstart.
  apply wp_computed_or; [|by intros; apply honest_fail]. intros RT' id s3 h3 _ _ _.
  apply wp_bind, wp_section.
  - intros s4 h4 rt s5 ok _ Hi Hs. eapply saveAuthentication_keeps; [exact Hs|done|]. by exists RT, (q_Context r), start.
  - intros s4 h4 [] _ _; [|by apply honest_fail]. apply honest_respond, honest_setCookie; done.
Qed.

Lemma demo_asserted_prefix h h' result : h `prefix_of` h' → demo_asserted h result → demo_asserted h' result.
Proof.
  intros Hp (id & state & Hc & ?). exists id, state. split; [by eapply prefix_subseteq|done].
Qed.

Lemma wp_startSession r rep result s h :
  (∀ h', cookies_honest rep h') → demo_asserted h result → Updated (ares_Update result) ∈ h →
  demo_wp (startSession w r rep) honest_outcome s h.
Proof.
  intros Hr Hass Hup. apply wp_computed_or; [|by intros; apply honest_fail]. intros RT id s1 h1 Hp1 _ _.
  apply wp_bind, wp_section.
  - intros s2 h2 rt s3 e Hp2 Hi Hs. eapply openSession_keeps; [exact Hs|done|]. intros e'. exists result.
    assert (h `prefix_of` h2) as Hp by (by etrans). split; [by eapply demo_asserted_prefix|by eapply prefix_subseteq].
  - intros s2 h2 [e|] _ _; [|by apply honest_fail]. apply honest_respond, honest_setCookie; [done|]. intros _ _.
    exists e. apply elem_of_snoc.
Qed.

Lemma wp_finishAuthentication r rep s h : cookies_honest rep [] → demo_wp (finishAuthentication a w r rep) honest_outcome s h.
Proof.
  intros Hrep. unfold finishAuthentication. cbv zeta. set (id := cookieID r authenticationCookie).
  assert (∀ h', cookies_honest (setCookie authenticationCookie "" (-1) rep) h') as Hr.
  { intros h'. apply honest_setCookie; [|done]. eapply honest_prefix; [apply prefix_nil|done]. }
  apply wp_bind, wp_section; [intros s1 h1 rt s2 b _ Hi Hs; by eapply consumeAuthentication_keeps|].
  intros s1 h1 [state|] _ Hi1; [|apply Hr]. apply wp_or_reply.
  destruct (ReadAuthenticationResponse _ _) as [response|]; [|apply Hr].
  apply wp_bind, wp_section; [intros s2 h2 rt s3 b _ Hi [= <- <-]; by rewrite app_nil_r|].
  intros s2 h2 [credential|] Hp2 _; [|apply Hr]. rewrite app_nil_r.
  apply wp_computed_or; [|by intros; apply honest_fail]. intros RT result s3 h3 Hp3 _ Hfin.
  destruct (_ || _) eqn:Hrisk; [apply Hr|]. apply orb_false_iff in Hrisk as [Hrisk Hpend].
  assert (demo_asserted h3 result) as Hass.
  { exists id, state. split; [|by exists RT, (q_Context r), response, credential].
    apply (prefix_subseteq (h1 ++ [AuthenticationConsumed id state])); [by etrans|apply elem_of_snoc]. }
  apply wp_bind, wp_section.
  - intros s4 h4 rt s5 ok Hp4 Hi Hs. eapply update_keeps; [exact Hs|done|]. exists result. split; [by eapply demo_asserted_prefix|done].
  - intros s4 h4 [] Hp4 _; [|by apply honest_fail]. apply (wp_startSession _ _ result); [done| |apply elem_of_snoc].
    eapply demo_asserted_prefix; [|exact Hass]. by apply prefix_snoc.
Qed.

(** [me] answers whether the session of the cookie is open. *)
Definition me_answer (r : HttpRequest) (rep0 rep : Reply) (h : list event) : Prop :=
  ∃ ok : bool, rep = respond (WriteJSON w StatusOK (json_flag "authenticated" ok)) rep0 ∧
    (ok = true → ∃ h1 expiry, h1 `prefix_of` h ∧ session_open h1 (cookieID r sessionCookie) expiry).

Lemma wp_me r rep s h : demo_wp (me w r rep) (λ rep' _ h', me_answer r rep rep' h') s h.
Proof.
  intros s1 h1 rt Hp Hi s2 ok [= <- <-]. rewrite app_nil_r.
  assert (demo_invariant (prune (@time_Now rt) s1) h1) as H1 by (eapply shrinks_invariant; [apply shrinks_prune|done]).
  split_and!; [done|by unfold extends|]. eexists. split; [done|]. rewrite bool_decide_eq_true. intros [expiry He].
  exists h1, expiry. split; [done|]. by apply (demo_sessions _ _ H1).
Qed.

Lemma wp_logout r rep s h : cookies_honest rep [] → demo_wp (logout w r rep) honest_outcome s h.
Proof.
  intros Hrep. apply wp_bind, wp_section.
  - intros s1 h1 rt s2 [] _ Hi [= <-]. apply harmless_invariant; [by apply lookup_delete_eq|done|].
    eapply shrinks_invariant; [apply shrinks_delete_session|done].
  - intros s1 h1 [] _ _. apply honest_respond, honest_setCookie; [|done]. eapply honest_prefix; [apply prefix_nil|done].
Qed.

(** *** The server *)
Definition is_me (r : HttpRequest) : Prop := q_Host r = "localhost:8080" ∧ ServeMux endpoints r = Some Me.

Definition demo_outcome (r : HttpRequest) (rep : Reply) (s : memoryStore) (h : list event) : Prop :=
  cookies_honest rep h ∧ (is_me r → me_answer r (security_headers no_reply) rep h).

Lemma demo_outcome_stable r : stable extends (demo_outcome r).
Proof.
  intros rep s h s' h' Hp [Hc Hm]. split; [by eapply honest_prefix|]. intros (ok & Hrep & Hok)%Hm. exists ok. split; [done|].
  intros (h1 & e & Hp1 & Ho)%Hok. exists h1, e. split; [by etrans|done].
Qed.

Lemma plain_headers_honest h : cookies_honest (security_headers no_reply) h.
Proof. intros c Hc. by apply elem_of_nil in Hc. Qed.

Lemma me_not_post r : ServeMux endpoints r = Some Me → q_Method r ≠ "POST".
Proof.
  intros (p & Hin & Hm)%ServeMux_Some Hpost. unfold endpoints in Hin.
  assert (p = ("GET", "/me")) as ->.
  { rewrite !elem_of_cons, elem_of_nil in Hin. by destruct_or! Hin; simplify_eq. }
  unfold pattern_matches in Hm. rewrite Hpost in Hm. apply andb_true_iff in Hm as [_ Hm]. by vm_compute in Hm.
Qed.

Lemma wp_serve e r rep s h : (∀ h', cookies_honest rep h') →
  demo_wp (serve a w e r rep) (λ rep' _ h', cookies_honest rep' h' ∧ (e = Me → me_answer r rep rep' h')) s h.
Proof.
  intros Hr. destruct e; cbn [serve]; (eapply wp_mono; [|first [by apply wp_beginRegistration|by apply wp_finishRegistration
    |by apply wp_beginAuthentication|by apply wp_finishAuthentication|by apply wp_logout|apply wp_me]]); [by intros; split..|].
  intros rep' s' h' Hm. split; [|done]. destruct Hm as (ok & -> & _). by apply honest_respond.
Qed.

Lemma wp_routes r s h : demo_wp (routes a w other r) (demo_outcome r) s h.
Proof.
  unfold routes. cbv zeta. case_bool_decide as Hhost; cbn [negb].
  2:{ split; [apply honest_fail, plain_headers_honest|by intros [? _]]. }
  destruct (_ && _) eqn:Hg.
  { apply andb_true_iff in Hg as [Hpost%bool_decide_eq_true _].
    split; [apply honest_fail, plain_headers_honest|intros [_ Hme]; by apply me_not_post in Hme]. }
  destruct (ServeMux endpoints r) as [e|] eqn:Hm.
  - eapply wp_mono; [|apply wp_serve, plain_headers_honest]. intros rep' s' h' [Hc Hme]. split; [done|].
    intros [_ Hr]. apply Hme. congruence.
  - split; [apply honest_respond, plain_headers_honest|]. intros [_ Hr]. congruence.
Qed.

Lemma demo_fresh : demo_invariant newMemoryStore [].
Proof. constructor; try (intros ? ? H; cbn in H; by rewrite lookup_empty in H); [done|apply justified_nil]. Qed.

Lemma demo_sound c : reachable (routes a w other) newMemoryStore c →
  demo_invariant (shared c) (history c) ∧ ∀ r rep, answered c r rep → demo_outcome r rep (shared c) (history c).
Proof.
  apply wp_sound with (later := extends).
  - apply extends_refl.
  - apply extends_trans.
  - apply demo_outcome_stable.
  - intros r s h _. apply wp_routes.
  - apply demo_fresh.
Qed.

(** A session of the demo server is earned.  Whenever a reply sets a session
    cookie, the session was opened after the conditional update of an
    authentication that the relying party verified, without a risk signal, in the
    state of an authentication ceremony the server had started and that nobody
    had consumed before; and [me] reports a session as authenticated only while
    one that was opened, and not logged out since, is stored under the cookie. *)
Theorem demo_session_earned c r rep :
  reachable (routes a w other) newMemoryStore c → answered c r rep →
  (∀ cookie, cookie ∈ rep_Cookies rep → ck_Name cookie = sessionCookie → ck_Value cookie ≠ "" →
     ∃ h1 expiry h2 id state result g1 g2,
       history c = h1 ++ SessionOpened (ck_Value cookie) expiry :: h2 ∧ Updated (ares_Update result) ∈ h1 ∧
       demo_verified id state result ∧ h1 = g1 ++ AuthenticationConsumed id state :: g2 ∧
       holds_since (AuthenticationSaved id state) (λ x, ∃ y, x = AuthenticationConsumed id y) g1 ∧ demo_started state) ∧
  (is_me r → me_answer r (security_headers no_reply) rep (history c)).
Proof.
  intros [Hi Ho]%demo_sound Ha. destruct (Ho _ _ Ha) as [Hc Hm]. split; [|done].
  intros cookie Hin Hn Hv. destruct (Hc cookie Hin Hn Hv) as [expiry He].
  destruct (justified_elem _ _ _ (demo_history _ _ Hi) He) as (h1 & h2 & Hh & (result & (id & state & Hcon & Hver) & Hup)).
  apply list_elem_of_split in Hcon as (g1 & g2 & ->).
  assert (holds_since (AuthenticationSaved id state) (λ x, ∃ y, x = AuthenticationConsumed id y) g1) as Hs.
  { eapply (demo_history _ _ Hi g1 (AuthenticationConsumed id state)). rewrite Hh, <-app_assoc. done. }
  exists (g1 ++ AuthenticationConsumed id state :: g2), expiry, h2, id, state, result, g1, g2. split_and!; try done.
  destruct Hs as (k1 & k2 & -> & _). eapply (demo_history _ _ Hi k1 (AuthenticationSaved id state)). rewrite Hh, <-!app_assoc. done.
Qed.

(** C33: the demo server's memory is bounded whatever requests arrive in whatever
    order: at most 128 pending registrations, 128 pending authentications and 128
    sessions, and at most 64 credentials, each of them valid, filed under its own
    ID and owned by the demo account. *)
Theorem demo_store_bounded c :
  reachable (routes a w other) newMemoryStore c →
  map_len (ms_registration (shared c)) <= 128 ∧ map_len (ms_authentication (shared c)) <= 128 ∧
  map_len (ms_sessions (shared c)) <= 128 ∧ map_len (ms_credentials (shared c)) <= 64 ∧
  ∀ key record, ms_credentials (shared c) !! key = Some record →
    id_key (cr_ID record) = key ∧ CredentialRecord_Validate record = Ok () ∧
    slice_list (bv_value (cr_UserHandle record)) = slice_list (bv_value (user_ID (a_user a))).
Proof.
  intros [Hi _]%demo_sound. destruct (demo_bounded _ _ Hi) as (B1 & B2 & B3 & B4). split_and!; try done. apply (demo_credentials _ _ Hi).
Qed.

(** No request touches the store unless it is addressed to the demo host, and
    a request that is not a read unless it also carries the demo origin and a
    JSON media type: everything else is answered at once. *)
Theorem demo_guarded r :
  match routes a w other r with
  | Ret _ => True
  | Act _ _ _ => q_Host r = "localhost:8080" ∧
      (q_Method r = "POST" → q_Origin r = demoOrigin ∧ ParseMediaType (q_ContentType r) = Ok "application/json") ∧
      ∃ e, ServeMux endpoints r = Some e
  end.
Proof.
  unfold routes. cbv zeta. case_bool_decide as Hhost; cbn [negb]; [|done]. destruct (_ && _) eqn:Hg; [done|].
  destruct (ServeMux endpoints r) as [e|] eqn:Hm; [|done]. destruct (serve a w e r _); [done|]. split_and!; [done| |by eexists].
  intros Hpost. rewrite (bool_decide_eq_true_2 _ Hpost) in Hg. apply orb_false_iff in Hg as [Ho Ht]. guards in Ho. split; [done|].
  destruct (ParseMediaType _) as [media|]; [|done]. guards in Ht. by subst.
Qed.
End Promises.

(** ** A run of the server: registration, login and the session's state *)
Module DemoRun.
Import HttpServer QuickStart.
#[local] Existing Instance no_custom_types.
#[local] Existing Instance default_order.
#[local] Existing Instance plain_evidence.
#[local] Existing Instance sample_floats.
#[local] Existing Instance no_methods.
#[local] Instance plain_media : MediaTypes := {| ParseMediaType s := Ok s |}.

Definition demo_rp : RelyingParty := Eval cbv delta [Run.app App.a_rp Run.app_config] beta iota in
  match App.a_rp Run.app with Some rp => rp | None => mkRelyingParty Run.app_config [] false end.
Definition demo_app : app := mkApp demo_rp sample_user.
Definition writer : ResponseWriter := Iface (λ bytes, (length bytes, None)).
Definition pages (r : HttpRequest) (x : Response) : Response := x.

Definition ask (method path : string) (cookies : list (string * string)) (body : list byte) : HttpRequest :=
  mkHttpRequest background method "localhost:8080" path demoOrigin "application/json" [] cookies (Some (mkBody body None)).
Definition requests : list (action HttpRequest) :=
  Arrive (ask "POST" "/register/options" [] []) :: replicate 4 (Enter 0 (Run.at_byte x00)) ++
  Arrive (ask "POST" "/register/finish" [(registrationCookie, Run.id_of x00)] Run.registration_body) :: replicate 3 (Enter 1 (Run.at_byte x00)) ++
  Arrive (ask "POST" "/login/options" [] []) :: replicate 3 (Enter 2 (Run.at_byte x01)) ++
  Arrive (ask "POST" "/login/finish" [(authenticationCookie, Run.id_of x01)] (Run.assertion_body x01 9)) :: replicate 6 (Enter 3 (Run.at_byte x02)) ++
  Arrive (ask "GET" "/me" [(sessionCookie, Run.id_of x02)] []) :: replicate 1 (Enter 4 (Run.at_byte x02)).
Definition final : config memoryStore event HttpRequest Reply := schedule (routes demo_app writer pages) newMemoryStore requests.

Definition reply (i : nat) : Reply :=
  match pool final !! i with Some (_, Ret rep) => rep | _ => no_reply end.

Example demo_run :
  (λ i, hr_Status (rep_Response (reply i))) <$> [0; 1; 2; 3; 4]%nat = [Some 200; Some 201; Some 200; Some 200; Some 200] ∧
  (λ c, (ck_Name c, ck_Value c)) <$> rep_Cookies (reply 3) = [(authenticationCookie, ""); (sessionCookie, Run.id_of x02)] ∧
  Json.parse (hr_Body (rep_Response (reply 4))) = Some (json_flag "authenticated" true).
Proof. vm_compute. done. Qed.
End DemoRun.

#[local] Existing Instance no_custom_types.
#[local] Existing Instance default_order.
#[local] Existing Instance plain_evidence.
#[local] Existing Instance sample_floats.
#[local] Existing Instance no_methods.
#[local] Existing Instance DemoRun.plain_media.

Lemma demo_run_reachable :
  reachable (QuickStart.routes DemoRun.demo_app DemoRun.writer DemoRun.pages) QuickStart.newMemoryStore DemoRun.final.
Proof. apply schedule_reachable. Qed.

Lemma demo_run_answered :
  answered DemoRun.final (DemoRun.ask "POST" "/login/finish" [(QuickStart.authenticationCookie, Run.id_of x01)] (Run.assertion_body x01 9))
    (DemoRun.reply 3).
Proof. apply (list_elem_of_lookup_2 _ 3). vm_compute. reflexivity. Qed.

Lemma demo_session_earned_witness :
  ∃ h1 expiry h2, history DemoRun.final = h1 ++ QuickStart.SessionOpened (Run.id_of x02) expiry :: h2.
Proof.
  pose (cookie := HttpServer.mkCookie QuickStart.sessionCookie (Run.id_of x02) "/" 3600 false true HttpServer.SameSiteStrictMode).
  assert (cookie ∈ HttpServer.rep_Cookies (DemoRun.reply 3)) as Hin by (apply (list_elem_of_lookup_2 _ 1); vm_compute; reflexivity).
  assert (HttpServer.ck_Value cookie ≠ "") as Hne by (vm_compute; discriminate).
  destruct (proj1 (demo_session_earned DemoRun.demo_app DemoRun.writer DemoRun.pages DemoRun.final _ _ demo_run_reachable demo_run_answered)
    cookie Hin eq_refl Hne) as (h1 & expiry & h2 & ? & ? & ? & ? & ? & H & _).
  exists h1, expiry, h2. exact H.
Defined.

Lemma demo_store_bounded_witness :
  map_len (QuickStart.ms_credentials (shared DemoRun.final)) = 1 ∧ map_len (QuickStart.ms_credentials (shared DemoRun.final)) <= 64.
Proof.
  split; [vm_compute; reflexivity|].
  exact (proj1 (proj2 (proj2 (proj2 (demo_store_bounded DemoRun.demo_app DemoRun.writer DemoRun.pages DemoRun.final demo_run_reachable))))).
Defined.
