(* ===== verification/HttpExample.v ===== *)
(** * The HTTP example

    Models [src/examples/http/main.go]: the two ceremonies behind four routes of
    a server with one demo account, states bound to cookies, records in a map.
    The handlers are programs over the store ([Concurrent]). *)
From S2P Require Import Prelude Base64 AuthData ExtValue Types Extension ExtHandlers Origin Attestation X509 Standard Cbor Json JsonText Ceremony ExtVerify State Registration Authentication RelyingParty Preset Storage Browser BrowserOptions Transport Concurrent Application HttpServer.
Local Open Scope Z_scope.
Local Open Scope prog_scope.
Local Open Scope server_scope.

Module HttpExample.
Import HttpServer.

Definition registrationStateCookie : string := "webauthn-registration-state".
Definition authenticationStateCookie : string := "webauthn-authentication-state".

(** The maps of the handler, under its mutex, and its other fields. *)
Record store := mkStore {
  registrationStates : gmap string RegistrationState;
  authenticationStates : gmap string AuthenticationState;
  records : gmap string CredentialRecord;
}.
Record server := mkServer {
  h_rp : RelyingParty;
  h_userHandle : UserHandle;
  h_random : Runtime → Z → result (list byte);
  h_now : Runtime → Z;
}.

Definition new_store : store := mkStore ∅ ∅ ∅.
Definition with_registrations (m : gmap string RegistrationState) (s : store) : store := mkStore m (authenticationStates s) (records s).
Definition with_authentications (m : gmap string AuthenticationState) (s : store) : store := mkStore (registrationStates s) m (records s).
Definition with_records (m : gmap string CredentialRecord) (s : store) : store := mkStore (registrationStates s) (authenticationStates s) m.

Definition credentialKey (raw : list byte) : string := EncodeToString raw.
Definition key_of (id : byteValue) : string := credentialKey (slice_list (bv_bytes id)).

(** A state without an expiry is kept. *)
Definition pruneExpiredLocked (now : Z) (s : store) : store :=
  mkStore (filter (λ kv, IsZero (rs_ExpiresAt kv.2) = true ∨ now < rs_ExpiresAt kv.2) (registrationStates s))
          (filter (λ kv, IsZero (as_ExpiresAt kv.2) = true ∨ now < as_ExpiresAt kv.2) (authenticationStates s))
          (records s).

(** What a section did, for the log. *)
Inductive event :=
| RegistrationSaved (id : string) (state : RegistrationState)
| RegistrationConsumed (id : string) (state : RegistrationState)
| AuthenticationSaved (id : string) (state : AuthenticationState)
| AuthenticationConsumed (id : string) (state : AuthenticationState)
| Inserted (record : CredentialRecord)
| Updated (u : CredentialUpdate).

Definition handler : Type := prog store event Reply.

Section Server.
Context {Floats : FloatText} {Ord : MapOrder} {Custom : CustomTypes} {CE : CustomEvidence} {Methods : MarshalMethods}.

Definition newHandler {L : CborLibrary} {P : Primitives} (rt : Runtime) : result server :=
  verifiers ← NewAttRegistry [Iface Attestation.None.New];
  extensions ← NewLevel3Registry;
  decoder ← Cbor.NewDecoder;
  signatures ← Standard.NewVerifier [AlgorithmEdDSA; AlgorithmES256; AlgorithmRS256];
  userHandleBytes ← rand_Reader MaxUserHandleLength;
  userHandle ← NewUserHandle (Some userHandleBytes);
  rp ← New {|
    c_RP := mkRPEntity "example.com" "Example"; c_OriginPolicy := mkOriginPolicy ["https://example.com"] [] false false;
    c_PubKeyCredParams := RecommendedLevel3CredentialParameters;
    c_AttestationObjectDecoder := pointer_iface decoder (Cbor.DecodeAttestationObject decoder);
    c_CredentialPublicKeyDecoder := pointer_iface decoder (Cbor.DecodeCredentialPublicKey decoder);
    c_ExtensionMapDecoder := pointer_iface decoder (Cbor.DecodeExtensionMap decoder);
    c_SignatureVerifier := pointer_iface signatures (Standard.VerifySignature signatures);
    c_AlgorithmPolicy := pointer_iface signatures (Standard.AcceptsAlgorithm signatures);
    c_AttestationRegistry := verifiers; c_AttestationTrustPolicy := AcceptNone; c_ExtensionRegistry := extensions;
    c_Registration := mkRegistrationConfig None "" [] (mkInputPolicy false) (mkRegistrationPolicy false false);
    c_Authentication := mkAuthenticationConfig "" (mkInputPolicy false) (mkAuthenticationPolicy false false "") (mkCounterPolicy false false);
    c_Timeout := 0; c_StateTTL := 0; c_ChallengeGenerator := NilIface; c_Now := Some (λ rt, @time_Now rt) |};
  Ok (mkServer rp userHandle (λ rt, @rand_Reader rt) (λ rt, @time_Now rt)).

Context (h : server) (w : ResponseWriter).

(** *** The store, under the lock *)
Definition saveRegistrationState (id : string) (state : RegistrationState) (rt : Runtime) (s : store) : store * () :=
  let s := pruneExpiredLocked (h_now h rt) s in
  (with_registrations (<[id := state]> (registrationStates s)) s, ()).
Definition consumeRegistrationState (id : string) (rt : Runtime) (s : store) : store * option RegistrationState :=
  let s := pruneExpiredLocked (h_now h rt) s in
  (with_registrations (delete id (registrationStates s)) s, registrationStates s !! id).
Definition saveAuthenticationState (id : string) (state : AuthenticationState) (rt : Runtime) (s : store) : store * () :=
  let s := pruneExpiredLocked (h_now h rt) s in
  (with_authentications (<[id := state]> (authenticationStates s)) s, ()).
Definition consumeAuthenticationState (id : string) (rt : Runtime) (s : store) : store * option AuthenticationState :=
  let s := pruneExpiredLocked (h_now h rt) s in
  (with_authentications (delete id (authenticationStates s)) s, authenticationStates s !! id).

Definition insertCredential (record : CredentialRecord) (s : store) : store * bool :=
  let key := key_of (cr_ID record) in
  if bool_decide (is_Some (records s !! key)) then (s, false)
  else (with_records (<[key := CredentialRecord_Clone record]> (records s)) s, true).
Definition credentialByRawID (id : RawID) (s : store) : option CredentialRecord := CredentialRecord_Clone <$> records s !! key_of id.
(** The first record the iteration yields. *)
Definition firstCredential (s : store) : option CredentialRecord :=
  match range_list (records s) with kv :: _ => Some (CredentialRecord_Clone kv.2) | [] => None end.
Definition credentialDescriptors (s : store) : list CredentialDescriptor := (λ kv, Descriptor kv.2) <$> range_list (records s).
Definition applyCredentialUpdate (u : CredentialUpdate) (s : store) : store * bool :=
  let key := key_of (cu_ID u) in
  match records s !! key with
  | None => (s, false)
  | Some record =>
      match ApplyTo u record with
      | Err _ => (s, false)
      | Ok next => (with_records (<[key := next]> (records s)) s, true)
      end
  end.

(** *** Cookies *)
Definition newStateID (rt : Runtime) : result string :=
  raw ← h_random h rt 32;
  Ok (EncodeToString raw).
Definition stateCookie (r : HttpRequest) (name : string) : option string :=
  match RequestCookie r name with
  | Some value => if bool_decide (value = "") then None else Some value
  | None => None
  end.
Definition setStateCookie (name value : string) (rep : Reply) : Reply :=
  SetCookie (mkCookie name value "/" (DefaultChallengeTTL / 1000000000) true true SameSiteStrictMode) rep.
Definition clearStateCookie (name : string) (rep : Reply) : Reply :=
  SetCookie (mkCookie name "" "/" (-1) true true SameSiteStrictMode) rep.

Definition fail (status : Z) (rep : Reply) : Reply := respond (WriteError w status (Sentinel "err")) rep.
(** [map[string]string{"status": text}] *)
Definition json_status (text : string) : json := object [("status", Some (jstring text))].

(** *** The handlers *)
Definition beginRegistration (r : HttpRequest) (rep : Reply) : handler :=
  excluded ⇐ locked (λ _ s, (s, credentialDescriptors s));
  start ←! compute (λ RT, RelyingParty_StartRegistration (Some (h_rp h)) (Some (q_Context r))
    (mkRegistrationRequest (mkUserEntity (h_userHandle h) "demo@example.com" "Demo User") excluded
       {[ IDCredProps := VBoolInput true ]} [] false)) else fail StatusBadRequest rep;
  stateID ←! compute newStateID else fail StatusInternalServerError rep;
  _ ⇐ logged (saveRegistrationState stateID (rsr_State start)) (λ _, [RegistrationSaved stateID (rsr_State start)]);
  Ret (respond (WriteCreationOptions w (rsr_Options start)) (setStateCookie registrationStateCookie stateID rep)).

Definition finishRegistration (r : HttpRequest) (rep : Reply) : handler :=
  match stateCookie r registrationStateCookie with
  | None => Ret (fail StatusUnauthorized rep)
  | Some stateID =>
      found ⇐ logged (consumeRegistrationState stateID)
                     (λ found, match found with Some state => [RegistrationConsumed stateID state] | None => [] end);
      let rep := clearStateCookie registrationStateCookie rep in
      match found with
      | None => Ret (fail StatusUnauthorized rep)
      | Some state =>
          response ←! Ret (ReadRegistrationResponse (Some (q_Body r)) 0) else fail StatusBadRequest rep;
          result ←! compute (λ RT, RelyingParty_FinishRegistration (Some (h_rp h)) (Some (q_Context r))
                                     (mkRegistrationVerification state response)) else fail StatusUnauthorized rep;
          ok ⇐ logged (λ _, insertCredential (rres_Credential result)) (λ ok : bool, if ok then [Inserted (rres_Credential result)] else []);
          if ok : bool then Ret (respond (WriteJSON w StatusCreated (json_status "registered")) rep)
          else Ret (fail StatusConflict rep)
      end
  end.

Definition beginAuthentication (r : HttpRequest) (rep : Reply) : handler :=
  credential ⇐ locked (λ _ s, (s, firstCredential s));
  match credential with
  | None => Ret (fail StatusUnauthorized rep)
  | Some credential =>
      start ←! compute (λ RT, RelyingParty_StartAuthentication (Some (h_rp h)) (Some (q_Context r))
        (mkAuthenticationRequest [mkDescriptor CredentialTypePublicKey (cr_ID credential) (cr_Transports credential)]
           (cr_UserHandle credential) ∅ [])) else fail StatusBadRequest rep;
      stateID ←! compute newStateID else fail StatusInternalServerError rep;
      _ ⇐ logged (saveAuthenticationState stateID (asr_State start)) (λ _, [AuthenticationSaved stateID (asr_State start)]);
      Ret (respond (WriteRequestOptions w (asr_Options start)) (setStateCookie authenticationStateCookie stateID rep))
  end.

Definition finishAuthentication (r : HttpRequest) (rep : Reply) : handler :=
  match stateCookie r authenticationStateCookie with
  | None => Ret (fail StatusUnauthorized rep)
  | Some stateID =>
      found ⇐ logged (consumeAuthenticationState stateID)
                     (λ found, match found with Some state => [AuthenticationConsumed stateID state] | None => [] end);
      let rep := clearStateCookie authenticationStateCookie rep in
      match found with
      | None => Ret (fail StatusUnauthorized rep)
      | Some state =>
          assertion ←! Ret (ReadAuthenticationResponse (Some (q_Body r)) 0) else fail StatusBadRequest rep;
          credential ⇐ locked (λ _ s, (s, credentialByRawID (ar_RawID assertion) s));
          match credential with
          | None => Ret (fail StatusUnauthorized rep)
          | Some credential =>
              result ←! compute (λ RT, RelyingParty_FinishAuthentication (Some (h_rp h)) (Some (q_Context r))
                                         (mkAuthenticationVerification state assertion credential false)) else fail StatusUnauthorized rep;
              ok ⇐ logged (λ _, applyCredentialUpdate (ares_Update result)) (λ ok : bool, if ok then [Updated (ares_Update result)] else []);
              if ok : bool then Ret (respond (WriteJSON w StatusOK (json_status "authenticated")) rep)
              else Ret (fail StatusConflict rep)
          end
      end
  end.

Inductive endpoint := BeginRegistration | FinishRegistration | BeginAuthentication | FinishAuthentication.
Definition endpoints : list ((string * string) * endpoint) :=
  [(("POST", "/register/options"), BeginRegistration); (("POST", "/register/finish"), FinishRegistration);
   (("POST", "/login/options"), BeginAuthentication); (("POST", "/login/finish"), FinishAuthentication)].
Definition serve (e : endpoint) : HttpRequest → Reply → handler :=
  match e with
  | BeginRegistration => beginRegistration
  | FinishRegistration => finishRegistration
  | BeginAuthentication => beginAuthentication
  | FinishAuthentication => finishAuthentication
  end.
(** What matches no pattern gets an error page of the multiplexer. *)
Definition routes (other : HttpRequest → Response → Response) (r : HttpRequest) : handler :=
  match ServeMux endpoints r with
  | Some e => serve e r no_reply
  | None => Ret (respond (λ x, (other r x, Ok ())) no_reply)
  end.
End Server.
End HttpExample.

(** ** What the server promises *)
Section Promises.
Import HttpServer HttpExample.
Context {Floats : FloatText} {Ord : MapOrder} {Custom : CustomTypes} {CE : CustomEvidence} {Methods : MarshalMethods}.
Context (a : server) (w : ResponseWriter) (other : HttpRequest → Response → Response).

Abbreviation pending_registration := (pending RegistrationSaved RegistrationConsumed).
Abbreviation pending_authentication := (pending AuthenticationSaved AuthenticationConsumed).

(** A response that was verified in the state of a ceremony, against a record. *)
Definition example_verified (state : AuthenticationState) (response : AuthenticationResponse) (record : CredentialRecord)
    (result : AuthenticationResult) : Prop := ∃ (RT : Runtime) ctx,
  RelyingParty_FinishAuthentication (Some (h_rp a)) (Some ctx) (mkAuthenticationVerification state response record false) = Ok result.
Definition example_registered (state : RegistrationState) (response : RegistrationResponse) (result : RegistrationResult) : Prop :=
  ∃ (RT : Runtime) ctx,
  RelyingParty_FinishRegistration (Some (h_rp a)) (Some ctx) (mkRegistrationVerification state response) = Ok result.

(** States the server started, a registration for its account. *)
Definition registration_started_by (state : RegistrationState) : Prop := ∃ (RT : Runtime) ctx request start,
  RelyingParty_StartRegistration (Some (h_rp a)) (Some ctx) request = Ok start ∧
  user_ID (rq_User request) = h_userHandle a ∧ state = rsr_State start.
Definition authentication_started_by (state : AuthenticationState) : Prop := ∃ (RT : Runtime) ctx request start,
  RelyingParty_StartAuthentication (Some (h_rp a)) (Some ctx) request = Ok start ∧ state = asr_State start.

(** What must have happened before each event. *)
Definition example_justified (h : list event) (e : event) : Prop :=
  match e with
  | RegistrationSaved _ state => registration_started_by state
  | RegistrationConsumed id state => pending_registration id state h
  | AuthenticationSaved _ state => authentication_started_by state
  | AuthenticationConsumed id state => pending_authentication id state h
  | Inserted record => ∃ id state response result,
      RegistrationConsumed id state ∈ h ∧ example_registered state response result ∧ record = rres_Credential result
  | Updated u => ∃ id state response record result,
      AuthenticationConsumed id state ∈ h ∧ example_verified state response record result ∧ u = ares_Update result
  end.

Record example_invariant (s : store) (h : list event) : Prop := {
  ex_registrations : table_logged RegistrationSaved RegistrationConsumed (registrationStates s) h;
  ex_authentications : table_logged AuthenticationSaved AuthenticationConsumed (authenticationStates s) h;
  ex_records : ∀ key r, records s !! key = Some r → key_of (cr_ID r) = key ∧ CredentialRecord_Validate r = Ok ();
  ex_history : justified_history example_justified h;
}.

Abbreviation example_wp := (wp example_invariant extends).

(** *** The sections keep the invariant *)
Lemma prune_keeps now s h : example_invariant s h → example_invariant (pruneExpiredLocked now s) h.
Proof.
  intros [Ir Ia Ic Ih]. constructor; [| |done|done]; (eapply table_shrinks; [apply map_filter_subseteq|done]).
Qed.

Lemma saved_registration id state rt s h : example_invariant s h → example_justified h (RegistrationSaved id state) →
  example_invariant (saveRegistrationState a id state rt s).1 (h ++ [RegistrationSaved id state]).
Proof.
  intros [Ir Ia Ic Ih]%(prune_keeps (h_now a rt)) Hj. constructor; [by apply table_saved|by apply table_event|done|by apply justified_snoc].
Qed.
Lemma saved_authentication id state rt s h : example_invariant s h → example_justified h (AuthenticationSaved id state) →
  example_invariant (saveAuthenticationState a id state rt s).1 (h ++ [AuthenticationSaved id state]).
Proof.
  intros [Ir Ia Ic Ih]%(prune_keeps (h_now a rt)) Hj. constructor; [by apply table_event|by apply table_saved|done|by apply justified_snoc].
Qed.

Lemma consumed_registration id rt s s' found h : consumeRegistrationState a id rt s = (s', found) → example_invariant s h →
  example_invariant s' (h ++ match found with Some state => [RegistrationConsumed id state] | None => [] end).
Proof.
  intros [= <- <-] [Ir Ia Ic Ih]%(prune_keeps (h_now a rt)). cbn in Ir, Ia |- *. destruct (filter _ _ !! id) as [state|] eqn:E.
  - constructor; [apply table_consumed; [by intros ???? [= ->]|done]|by apply table_event|done|].
    apply justified_snoc; [done|]. by apply Ir.
  - rewrite app_nil_r. constructor; [|done..]. eapply table_shrinks; [apply delete_subseteq|done].
Qed.
Lemma consumed_authentication id rt s s' found h : consumeAuthenticationState a id rt s = (s', found) → example_invariant s h →
  example_invariant s' (h ++ match found with Some state => [AuthenticationConsumed id state] | None => [] end).
Proof.
  intros [= <- <-] [Ir Ia Ic Ih]%(prune_keeps (h_now a rt)). cbn in Ir, Ia |- *. destruct (filter _ _ !! id) as [state|] eqn:E.
  - constructor; [by apply table_event|apply table_consumed; [by intros ???? [= ->]|done]|done|].
    apply justified_snoc; [done|]. by apply Ia.
  - rewrite app_nil_r. constructor; [done| |done..]. eapply table_shrinks; [apply delete_subseteq|done].
Qed.

Lemma insert_record s h key r e : example_invariant s h → example_justified h e →
  (∀ id x, e ≠ RegistrationConsumed id x) → (∀ id x, e ≠ AuthenticationConsumed id x) →
  key_of (cr_ID r) = key → CredentialRecord_Validate r = Ok () →
  example_invariant (with_records (<[key := r]> (records s)) s) (h ++ [e]).
Proof.
  intros [Ir Ia Ic Ih] Hj H1 H2 Hk Hv. constructor; [by apply table_event|by apply table_event| |by apply justified_snoc].
  intros k r'. cbn. rewrite lookup_insert_Some. intros [[<- <-]|[_ H]]; [done|by apply Ic].
Qed.

Lemma inserted_credential record s s' ok h : insertCredential record s = (s', ok) → example_invariant s h →
  example_justified h (Inserted record) → example_invariant s' (h ++ if ok then [Inserted record] else []).
Proof.
  unfold insertCredential. intros H Hi Hj. case_bool_decide; injection H as <- <-; [by rewrite app_nil_r|].
  apply insert_record; try done. destruct Hj as (id & state & response & result & _ & (RT & ctx & Hfin) & ->).
  apply bind_Ok in Hfin as (rp & _ & Hfin). cbv zeta in Hfin. apply bind_Ok in Hfin as ([] & _ & Hfin). apply FinishRegistration_sound in Hfin.
  by apply CredentialRecord_Validate_Ok, (registration_verified_record _ _ _ Hfin).
Qed.

Lemma updated_credential u s s' ok h : applyCredentialUpdate u s = (s', ok) → example_invariant s h →
  example_justified h (Updated u) → example_invariant s' (h ++ if ok then [Updated u] else []).
Proof.
  unfold applyCredentialUpdate. intros H Hi Hj. destruct (records s !! _) as [c|] eqn:Hc; [|injection H as <- <-; by rewrite app_nil_r].
  destruct (ApplyTo u c) as [next|] eqn:Ha; injection H as <- <-; [|by rewrite app_nil_r].
  apply bind_Ok in Ha as ([] & _ & Ha). apply bind_Ok in Ha as ([] & Hm & Ha). cbv zeta in Ha.
  apply bind_Ok in Ha as ([] & Hv%wrap_err_Ok & [= <-]). destruct (ex_records _ _ Hi _ _ Hc) as [Hk _].
  apply insert_record; try done.
Qed.

(** *** Handlers *)

(** A success status of a finish request means that its ceremony was consumed and
    its response verified, and that the store took the result. *)
Definition login_done (r : HttpRequest) (h : list event) : Prop :=
  ∃ id state response record result,
    stateCookie r authenticationStateCookie = Some id ∧ ReadAuthenticationResponse (Some (q_Body r)) 0 = Ok response ∧
    example_verified state response record result ∧
    [AuthenticationConsumed id state; Updated (ares_Update result)] `sublist_of` h.
Definition registration_done (r : HttpRequest) (h : list event) : Prop :=
  ∃ id state response result,
    stateCookie r registrationStateCookie = Some id ∧ ReadRegistrationResponse (Some (q_Body r)) 0 = Ok response ∧
    example_registered state response result ∧
    [RegistrationConsumed id state; Inserted (rres_Credential result)] `sublist_of` h.

Definition successful (rep : Reply) : Prop := ∃ n, hr_Status (rep_Response rep) = Some n ∧ n < 400.

Lemma fail_unsuccessful status rep : hr_Status (rep_Response rep) = None → ¬ successful (fail w status rep).
Proof.
  intros Hr (n & Hn & Hlt). cbn in Hn. destruct (WriteError_status w status (Sentinel "err") _ Hr) as [H|(m & H & Hm)]; rewrite H in Hn; [done|].
  injection Hn as ->. lia.
Qed.

Definition done_if (P : list event → Prop) (rep : Reply) (s : store) (h : list event) : Prop := successful rep → P h.

Lemma done_fail P status rep s h : hr_Status (rep_Response rep) = None → done_if P (fail w status rep) s h.
Proof. intros Hr Hs. by apply fail_unsuccessful in Hs. Qed.

Lemma cleared_unsent name rep : hr_Status (rep_Response rep) = None → hr_Status (rep_Response (clearStateCookie name rep)) = None.
Proof. intros Hr. unfold clearStateCookie, SetCookie. by destruct (unsent rep). Qed.

Lemma wp_example_beginRegistration r rep s h : example_wp (beginRegistration a w r rep) (λ _ _ _, True) s h.
Proof.
  apply wp_bind, wp_read. intros s1 h1 _ _. apply wp_computed_or; [|done]. intros RT start s2 h2 _ _ Hstart.
  apply wp_computed_or; [|done]. intros RT' id s3 h3 _ _ _. apply wp_bind, wp_section; [|done].
  intros s4 h4 rt s5 b _ Hi [= <- <-]. apply saved_registration; [done|].
  eexists RT, (q_Context r), _, start. split_and!; [exact Hstart|reflexivity|reflexivity].
Qed.
Lemma wp_example_beginAuthentication r rep s h : example_wp (beginAuthentication a w r rep) (λ _ _ _, True) s h.
Proof.
  apply wp_bind, wp_read. intros s1 h1 _ _. destruct (firstCredential s1) as [credential|]; [|done].
  apply wp_computed_or; [|done]. intros RT start s2 h2 _ _ Hstart.
  apply wp_computed_or; [|done]. intros RT' id s3 h3 _ _ _. apply wp_bind, wp_section; [|done].
  intros s4 h4 rt s5 b _ Hi [= <- <-]. apply saved_authentication; [done|].
  eexists RT, (q_Context r), _, start. split; [exact Hstart|reflexivity].
Qed.

Lemma wp_example_finishRegistration r rep s h : hr_Status (rep_Response rep) = None →
  example_wp (finishRegistration a w r rep) (done_if (registration_done r)) s h.
Proof.
  intros Hrep. unfold finishRegistration. destruct (stateCookie r _) as [id|] eqn:Hid; [|by apply done_fail].
  apply wp_bind, wp_section; [intros s1 h1 rt s2 b _ Hi Hs; by eapply consumed_registration|].
  pose proof (cleared_unsent registrationStateCookie _ Hrep) as Hrep'. cbv zeta. set (rep' := clearStateCookie _ _) in *.
  intros s1 h1 [state|] Hp1 _; [|by apply done_fail]. apply wp_or_reply.
  destruct (ReadRegistrationResponse _ _) as [response|] eqn:Hread; [|by apply done_fail].
  apply wp_computed_or; [|by intros; apply done_fail]. intros RT result s2 h2 Hp2 _ Hfin.
  assert (example_registered state response result) as Hver by (by exists RT, (q_Context r)).
  apply wp_bind, wp_section.
  - intros s3 h3 rt s4 ok Hp3 Hi Hs. eapply inserted_credential; [exact Hs|done|]. exists id, state, response, result.
    split_and!; [|done|done]. apply (prefix_subseteq (h1 ++ [RegistrationConsumed id state])); [by etrans|apply elem_of_snoc].
  - intros s3 h3 [] Hp3 _; [|by apply done_fail]. intros _. exists id, state, response, result. split_and!; try done.
    apply (sublist_snoc [_] (h1 ++ [RegistrationConsumed id state])); [|by etrans]. apply sublist_one, elem_of_snoc.
Qed.

Lemma wp_example_finishAuthentication r rep s h : hr_Status (rep_Response rep) = None →
  example_wp (finishAuthentication a w r rep) (done_if (login_done r)) s h.
Proof.
  intros Hrep. unfold finishAuthentication. destruct (stateCookie r _) as [id|] eqn:Hid; [|by apply done_fail].
  apply wp_bind, wp_section; [intros s1 h1 rt s2 b _ Hi Hs; by eapply consumed_authentication|].
  pose proof (cleared_unsent authenticationStateCookie _ Hrep) as Hrep'. cbv zeta. set (rep' := clearStateCookie _ _) in *.
  intros s1 h1 [state|] Hp1 _; [|by apply done_fail]. apply wp_or_reply.
  destruct (ReadAuthenticationResponse _ _) as [response|] eqn:Hread; [|by apply done_fail].
  apply wp_bind, wp_read. intros s2 h2 Hp2 _. destruct (credentialByRawID _ s2) as [credential|]; [|by apply done_fail].
  apply wp_computed_or; [|by intros; apply done_fail]. intros RT result s3 h3 Hp3 _ Hfin.
  assert (example_verified state response credential result) as Hver by (by exists RT, (q_Context r)).
  apply wp_bind, wp_section.
  - intros s4 h4 rt s5 ok Hp4 Hi Hs. eapply updated_credential; [exact Hs|done|]. exists id, state, response, credential, result.
    split_and!; [|done|done]. apply (prefix_subseteq (h1 ++ [AuthenticationConsumed id state])); [by do 2 (etrans; [done|])|apply elem_of_snoc].
  - intros s4 h4 [] Hp4 _; [|by apply done_fail]. intros _. exists id, state, response, credential, result. split_and!; try done.
    apply (sublist_snoc [_] (h1 ++ [AuthenticationConsumed id state])); [|by do 2 (etrans; [done|])]. apply sublist_one, elem_of_snoc.
Qed.

Definition example_outcome (r : HttpRequest) (rep : Reply) (s : store) (h : list event) : Prop :=
  successful rep →
  match ServeMux endpoints r with
  | Some FinishRegistration => registration_done r h
  | Some FinishAuthentication => login_done r h
  | _ => True
  end.

Lemma example_outcome_stable r : stable extends (example_outcome r).
Proof.
  intros rep s h s' h' Hp H Hs. specialize (H Hs). destruct (ServeMux endpoints r) as [[]|]; try done.
  - destruct H as (id & state & response & result & ? & ? & ? & Hl). exists id, state, response, result. eauto using sublist_prefix.
  - destruct H as (id & state & response & record & result & ? & ? & ? & Hl). exists id, state, response, record, result. eauto using sublist_prefix.
Qed.

Lemma wp_example_routes r s h : example_wp (routes a w other r) (example_outcome r) s h.
Proof.
  unfold routes, example_outcome. destruct (ServeMux endpoints r) as [[]|]; cbn [serve].
  - eapply wp_mono; [|apply wp_example_beginRegistration]. done.
  - eapply wp_mono; [|by apply wp_example_finishRegistration]. done.
  - eapply wp_mono; [|apply wp_example_beginAuthentication]. done.
  - eapply wp_mono; [|by apply wp_example_finishAuthentication]. done.
  - done.
Qed.

Lemma example_sound c : reachable (routes a w other) new_store c →
  example_invariant (shared c) (history c) ∧ ∀ r rep, answered c r rep → example_outcome r rep (shared c) (history c).
Proof.
  apply wp_sound with (later := extends).
  - intros s h. by unfold extends.
  - intros s1 h1 s2 h2 s3 h3. unfold extends. by intros; etrans.
  - apply example_outcome_stable.
  - intros r s h _. apply wp_example_routes.
  - constructor; [apply table_empty|apply table_empty| |apply justified_nil]. intros key r H. cbn in H. by rewrite lookup_empty in H.
Qed.

(** C30: a finish request to the example server that is answered with a success
    status is earned: the state under its cookie was started by the server, was
    pending and is consumed by this request; the response in its body was
    verified in that state; and the store took the credential or its conditional
    update. *)
Theorem example_success_earned c r rep :
  reachable (routes a w other) new_store c → answered c r rep → successful rep →
  (ServeMux endpoints r = Some FinishAuthentication →
   ∃ id state response record result h1 h2, history c = h1 ++ AuthenticationConsumed id state :: h2 ∧
     pending_authentication id state h1 ∧ authentication_started_by state ∧ stateCookie r authenticationStateCookie = Some id ∧
     ReadAuthenticationResponse (Some (q_Body r)) 0 = Ok response ∧ example_verified state response record result ∧
     Updated (ares_Update result) ∈ h2) ∧
  (ServeMux endpoints r = Some FinishRegistration →
   ∃ id state response result h1 h2, history c = h1 ++ RegistrationConsumed id state :: h2 ∧
     pending_registration id state h1 ∧ registration_started_by state ∧ stateCookie r registrationStateCookie = Some id ∧
     ReadRegistrationResponse (Some (q_Body r)) 0 = Ok response ∧ example_registered state response result ∧
     Inserted (rres_Credential result) ∈ h2).
Proof.
  intros [Hi Ho]%example_sound Ha Hs. specialize (Ho _ _ Ha Hs). split; intros Hm; rewrite Hm in Ho.
  - destruct Ho as (id & state & response & record & result & Hid & Hread & Hver & Hsub).
    apply sublist_cons_l in Hsub as (h1 & h2 & Hh & Hsub). pose proof (ex_history _ _ Hi _ _ _ Hh) as Hpend.
    exists id, state, response, record, result, h1, h2. split_and!; try done.
    + destruct Hpend as (g1 & g2 & -> & _). rewrite <-app_assoc in Hh. exact (ex_history _ _ Hi _ _ _ Hh).
    + apply (sublist_subseteq _ _ Hsub). by left.
  - destruct Ho as (id & state & response & result & Hid & Hread & Hver & Hsub).
    apply sublist_cons_l in Hsub as (h1 & h2 & Hh & Hsub). pose proof (ex_history _ _ Hi _ _ _ Hh) as Hpend.
    exists id, state, response, result, h1, h2. split_and!; try done.
    + destruct Hpend as (g1 & g2 & -> & _). rewrite <-app_assoc in Hh. exact (ex_history _ _ Hi _ _ _ Hh).
    + apply (sublist_subseteq _ _ Hsub). by left.
Qed.
End Promises.

(** ** A run of the server *)
Module ExampleRun.
Import HttpServer HttpExample.
#[local] Existing Instance no_custom_types.
#[local] Existing Instance default_order.
#[local] Existing Instance plain_evidence.
#[local] Existing Instance sample_floats.
#[local] Existing Instance no_methods.

Definition example_config : Config := {|
  c_RP := c_RP sample_config; c_OriginPolicy := example_policy; c_PubKeyCredParams := [];
  c_AttestationObjectDecoder := c_AttestationObjectDecoder Run.app_config; c_CredentialPublicKeyDecoder := Run.key_decoder;
  c_ExtensionMapDecoder := Iface (λ _, Ok ∅); c_SignatureVerifier := Iface (λ _ _, Ok ());
  c_AlgorithmPolicy := c_AlgorithmPolicy sample_config;
  c_AttestationRegistry := c_AttestationRegistry sample_config; c_AttestationTrustPolicy := AcceptNone;
  c_ExtensionRegistry := sample_registry; c_Registration := c_Registration sample_config; c_Authentication := c_Authentication sample_config;
  c_Timeout := 0; c_StateTTL := 0; c_ChallengeGenerator := NilIface; c_Now := Some Run.clock |}.
Definition example_server : server :=
  mkServer (match New example_config with Ok rp => rp | Err _ => mkRelyingParty example_config [] false end)
    (user_ID sample_user) (λ rt, @rand_Reader rt) Run.clock.
Definition writer : ResponseWriter := Iface (λ bytes, (length bytes, None)).
Definition pages (r : HttpRequest) (x : Response) : Response := x.

Definition post (path : string) (cookies : list (string * string)) (body : list byte) : HttpRequest :=
  mkHttpRequest background "POST" "example.com" path "https://example.com" "application/json" [] cookies (Some (mkBody body None)).
Definition requests : list (action HttpRequest) :=
  Arrive (post "/register/options" [] []) :: replicate 4 (Enter 0 (Run.at_byte x00)) ++
  Arrive (post "/register/finish" [(registrationStateCookie, Run.id_of x00)] Run.registration_body) :: replicate 3 (Enter 1 (Run.at_byte x00)) ++
  Arrive (post "/login/options" [] []) :: replicate 4 (Enter 2 (Run.at_byte x01)) ++
  Arrive (post "/login/finish" [(authenticationStateCookie, Run.id_of x01)] (Run.assertion_body x01 9)) :: replicate 4 (Enter 3 (Run.at_byte x02)).
Definition final : config store event HttpRequest Reply := schedule (routes example_server writer pages) new_store requests.
Definition reply (i : nat) : Reply := match pool final !! i with Some (_, Ret rep) => rep | _ => no_reply end.

Example example_run :
  (λ i, hr_Status (rep_Response (reply i))) <$> [0; 1; 2; 3]%nat = [Some 200; Some 201; Some 200; Some 200] ∧
  Json.parse (hr_Body (rep_Response (reply 3))) = Some (json_status "authenticated").
Proof. vm_compute. done. Qed.
End ExampleRun.

#[local] Existing Instance no_custom_types.
#[local] Existing Instance default_order.
#[local] Existing Instance plain_evidence.
#[local] Existing Instance sample_floats.
#[local] Existing Instance no_methods.

Lemma example_success_earned_witness :
  ∃ id state h1 h2, history ExampleRun.final = h1 ++ HttpExample.AuthenticationConsumed id state :: h2.
Proof.
  pose (r := ExampleRun.post "/login/finish" [(HttpExample.authenticationStateCookie, Run.id_of x01)] (Run.assertion_body x01 9)).
  assert (answered ExampleRun.final r (ExampleRun.reply 3)) as Ha by (apply (list_elem_of_lookup_2 _ 3); vm_compute; reflexivity).
  assert (successful (ExampleRun.reply 3)) as Hs by (exists 200; vm_compute; split; reflexivity).
  destruct (proj1 (example_success_earned ExampleRun.example_server ExampleRun.writer ExampleRun.pages ExampleRun.final r _
    (schedule_reachable _ _ _) Ha Hs)) as (id & state & ? & ? & ? & h1 & h2 & H & _); [vm_compute; reflexivity|].
  exists id, state, h1, h2. exact H.
Defined.
