(* ===== verification/E2eStore.v ===== *)
(** * The store of the end-to-end application

    Models [src/internal/e2eapp/store.go].  Credential records are allocated
    once and shared by two indexes, one by credential ID and one by user handle;
    an update writes through the pointer found in the first and is seen through
    the second.  The heap of records is a list and a pointer an index into it, so
    the sharing is explicit.  Users are never written after their creation and
    are kept as values.  Each operation is the critical section of its method. *)
From S2P Require Import Prelude Base64 Sha2 AuthData ExtValue Types Extension Ceremony ExtVerify State Registration Authentication.
Local Open Scope Z_scope.

Module E2e.

Record user := mkUser { u_Handle : UserHandle; u_Email : string; u_DisplayName : string; u_CreatedAt : Z }.
Record credentialRecord := mkCredential { e_Credential : CredentialRecord; e_CreatedAt : Z; e_UpdatedAt : Z }.
Record registrationState := mkRegistration { rg_Email : string; rg_State : RegistrationState }.
Record authenticationState := mkAuthentication { au_Email : string; au_State : AuthenticationState }.

Record store := mkStore {
  usersByEmail : gmap string user;
  usersByHandle : gmap string user;
  heap : list credentialRecord;
  credentialsByID : gmap string nat;
  credentialsByUserHandle : gmap string (list nat);
  registrationStates : gmap string registrationState;
  authenticationStates : gmap string authenticationState;
  sessions : gmap string string;
}.

Definition newStore : store := mkStore ∅ ∅ [] ∅ ∅ ∅ ∅ ∅.

Definition with_users (e h : gmap string user) (s : store) : store :=
  mkStore e h (heap s) (credentialsByID s) (credentialsByUserHandle s) (registrationStates s) (authenticationStates s) (sessions s).
Definition with_credentials (h : list credentialRecord) (i : gmap string nat) (u : gmap string (list nat)) (s : store) : store :=
  mkStore (usersByEmail s) (usersByHandle s) h i u (registrationStates s) (authenticationStates s) (sessions s).
Definition with_registrationStates (m : gmap string registrationState) (s : store) : store :=
  mkStore (usersByEmail s) (usersByHandle s) (heap s) (credentialsByID s) (credentialsByUserHandle s) m (authenticationStates s) (sessions s).
Definition with_authenticationStates (m : gmap string authenticationState) (s : store) : store :=
  mkStore (usersByEmail s) (usersByHandle s) (heap s) (credentialsByID s) (credentialsByUserHandle s) (registrationStates s) m (sessions s).
Definition with_sessions (m : gmap string string) (s : store) : store :=
  mkStore (usersByEmail s) (usersByHandle s) (heap s) (credentialsByID s) (credentialsByUserHandle s) (registrationStates s) (authenticationStates s) m.

Definition randomBytes (length : Z) (rt : Runtime) : result (list byte) := rand_Reader length.
Definition randomToken (rt : Runtime) : result string :=
  bytes ← randomBytes 32 rt;
  Ok (EncodeToString bytes).
Definition credentialKey (bytes : list byte) : string := EncodeToString bytes.
Definition handleKey (handle : UserHandle) : string := EncodeToString (slice_list (bv_bytes handle)).

(** ** Users *)
Definition getOrCreateUser (email displayName : string) (rt : Runtime) (s : store) : store * result user :=
  match usersByEmail s !! email with
  | Some u => (s, Ok u)
  | None =>
      match (handleBytes ← randomBytes 32 rt; NewUserHandle (Some handleBytes)) with
      | Err e => (s, Err e)
      | Ok handle =>
          let displayName := if bool_decide (displayName = "") then email else displayName in
          let u := mkUser handle email displayName time_Now in
          (with_users (<[email := u]> (usersByEmail s)) (<[handleKey handle := u]> (usersByHandle s)) s, Ok u)
      end
  end.
Definition userByEmail (email : string) (s : store) : option user := usersByEmail s !! email.
Definition userByHandle (handle : UserHandle) (s : store) : option user := usersByHandle s !! handleKey handle.

(** ** Ceremony states *)
Definition saveRegistrationState (id : string) (state : registrationState) (s : store) : store :=
  with_registrationStates (<[id := state]> (registrationStates s)) s.
Definition consumeRegistrationState (id : string) (s : store) : store * option registrationState :=
  match registrationStates s !! id with
  | Some state => (with_registrationStates (delete id (registrationStates s)) s, Some state)
  | None => (s, None)
  end.
Definition saveAuthenticationState (id : string) (state : authenticationState) (s : store) : store :=
  with_authenticationStates (<[id := state]> (authenticationStates s)) s.
Definition consumeAuthenticationState (id : string) (s : store) : store * option authenticationState :=
  match authenticationStates s !! id with
  | Some state => (with_authenticationStates (delete id (authenticationStates s)) s, Some state)
  | None => (s, None)
  end.

(** ** Credentials *)
Definition id_of (record : CredentialRecord) : string := credentialKey (slice_list (bv_bytes (cr_ID record))).

Definition insertCredential (record : CredentialRecord) (rt : Runtime) (s : store) : store * bool :=
  let now := time_Now in
  let key := id_of record in
  if bool_decide (is_Some (credentialsByID s !! key)) then (s, false)
  else
    let credential := length (heap s) in
    let userKey := handleKey (cr_UserHandle record) in
    (with_credentials (heap s ++ [mkCredential (CredentialRecord_Clone record) now now])
       (<[key := credential]> (credentialsByID s))
       (<[userKey := default [] (credentialsByUserHandle s !! userKey) ++ [credential]]> (credentialsByUserHandle s)) s, true).

Definition credentialByID (id : list byte) (s : store) : option CredentialRecord :=
  p ← credentialsByID s !! credentialKey id;
  c ← heap s !! p;
  Some (CredentialRecord_Clone (e_Credential c)).

Definition credentialsForUser (handle : UserHandle) (s : store) : list CredentialRecord :=
  omap (λ p, (λ c, CredentialRecord_Clone (e_Credential c)) <$> heap s !! p) (default [] (credentialsByUserHandle s !! handleKey handle)).

(** The record after the writes of the changed fields. *)
Definition write_update (u : CredentialUpdate) (r : CredentialRecord) : CredentialRecord := {|
  cr_Type := cr_Type r; cr_ID := cr_ID r; cr_PublicKey := cr_PublicKey r; cr_UserHandle := cr_UserHandle r;
  cr_RPID := cr_RPID r; cr_AAGUID := cr_AAGUID r;
  cr_SignCount := if cu_SignCountChanged u then cu_SignCount u else cr_SignCount r;
  cr_Transports := cr_Transports r; cr_BackupEligible := cr_BackupEligible r;
  cr_BackupState := if cu_BackupStateChanged u then cu_BackupState u else cr_BackupState r;
  cr_UVInitialized := if cu_UVInitializedChanged u then cu_UVInitialized u else cr_UVInitialized r;
  cr_AuthenticatorAttachment := if cu_AuthenticatorAttachmentChanged u then cu_AuthenticatorAttachment u else cr_AuthenticatorAttachment r;
  cr_AttestationType := cr_AttestationType r |}.

Definition updateCredential (u : CredentialUpdate) (rt : Runtime) (s : store) : store * bool :=
  match (p ← credentialsByID s !! credentialKey (slice_list (bv_bytes (cu_ID u))); c ← heap s !! p; Some (p, c)) with
  | None => (s, false)
  | Some (p, c) =>
      let record := e_Credential c in
      if negb (cr_SignCount record =? cu_PreviousSignCount u)
         || negb (Bool.eqb (cr_BackupState record) (cu_PreviousBackupState u))
         || negb (Bool.eqb (cr_UVInitialized record) (cu_PreviousUVInitialized u))
         || negb (bool_decide (cr_AuthenticatorAttachment record = cu_PreviousAuthenticatorAttachment u))
      then (s, false)
      else (with_credentials (<[p := mkCredential (write_update u record) (e_CreatedAt c) time_Now]> (heap s))
              (credentialsByID s) (credentialsByUserHandle s) s, true)
  end.

(** ** Sessions *)
Definition createSession (handle : UserHandle) (rt : Runtime) (s : store) : store * result string :=
  match randomToken rt with
  | Err e => (s, Err e)
  | Ok id => (with_sessions (<[id := handleKey handle]> (sessions s)) s, Ok id)
  end.
Definition deleteSession (id : string) (s : store) : store := with_sessions (delete id (sessions s)) s.
Definition sessionUser (id : string) (s : store) : option user :=
  handle ← sessions s !! id;
  usersByHandle s !! handle.
Definition debugCredential (id : list byte) (s : store) : option CredentialRecord := credentialByID id s.
End E2e.

(** ** The indexes and the records

    The specification of the store: the list of its records, in the order they
    were inserted, with distinct IDs. *)
Section Refinement.
Import E2e.

Definition records (s : store) : list CredentialRecord := e_Credential <$> heap s.

Definition find_record (key : string) (l : list CredentialRecord) : option CredentialRecord :=
  List.find (λ r, bool_decide (id_of r = key)) l.
Definition owned_by (userKey : string) (l : list CredentialRecord) : list CredentialRecord :=
  filter (λ r, handleKey (cr_UserHandle r) = userKey) l.

(** The positions of a list at which a predicate holds. *)
Definition positions (P : CredentialRecord → bool) (l : list CredentialRecord) : list nat :=
  imap (λ i r, if P r then [i] else []) l ≫= id.

(** Both indexes point at exactly the records they are for. *)
Record indexed (s : store) : Prop := {
  ix_id : ∀ key p, credentialsByID s !! key = Some p ↔ ∃ r, records s !! p = Some r ∧ id_of r = key;
  ix_user : ∀ key, default [] (credentialsByUserHandle s !! key) =
                   positions (λ r, bool_decide (handleKey (cr_UserHandle r) = key)) (records s);
}.

Lemma positions_snoc P l r : positions P (l ++ [r]) = positions P l ++ if P r then [length l] else [].
Proof.
  unfold positions. rewrite imap_app, bind_app. f_equal. cbn. rewrite Nat.add_0_r. by destruct (P r).
Qed.
Lemma positions_lt P l p : p ∈ positions P l → (p < length l)%nat.
Proof.
  induction l as [|r l IH] using rev_ind; [by rewrite elem_of_nil|]. rewrite positions_snoc, length_app, elem_of_app. cbn.
  intros [H%IH|H]; [lia|]. destruct (P r); [apply list_elem_of_singleton in H; lia|by apply elem_of_nil in H].
Qed.
Lemma positions_fmap P f l : (∀ r, P (f r) = P r) → positions P (f <$> l) = positions P l.
Proof.
  intros HP. induction l as [|r l IH] using rev_ind; [done|]. rewrite fmap_app. change (f <$> [r]) with [f r].
  by rewrite !positions_snoc, IH, HP, length_fmap.
Qed.
Lemma positions_filter P l : omap (λ p, l !! p) (positions P l) = filter (λ r, P r = true) l.
Proof.
  induction l as [|r l IH] using rev_ind; [done|]. rewrite positions_snoc, omap_app, filter_app. f_equal.
  - rewrite <-IH. apply list_omap_ext, Forall_Forall2_diag, Forall_forall. intros p Hp%positions_lt.
    by rewrite lookup_app_l.
  - rewrite filter_cons, filter_nil. destruct (P r); [|by rewrite decide_False].
    cbn. by rewrite list_lookup_middle, decide_True.
Qed.

(** Distinct records of an indexed store have distinct IDs. *)
Lemma indexed_unique s p q r r' : indexed s → records s !! p = Some r → records s !! q = Some r' → id_of r = id_of r' → p = q.
Proof.
  intros [Hid _] Hp Hq Heq. assert (credentialsByID s !! id_of r = Some p) as H1 by (apply Hid; eauto).
  assert (credentialsByID s !! id_of r = Some q) as H2 by (apply Hid; eauto). congruence.
Qed.

Lemma find_record_Some s key r : indexed s →
  find_record key (records s) = Some r ↔ ∃ p, credentialsByID s !! key = Some p ∧ records s !! p = Some r.
Proof.
  intros Hi. unfold find_record. split.
  - intros [Hin%list_elem_of_In He%bool_decide_eq_true]%find_some. apply list_elem_of_lookup_1 in Hin as (p & Hp).
    exists p. split; [|done]. apply (ix_id _ Hi). eauto.
  - intros (p & Hk & Hp). apply (ix_id _ Hi) in Hk as (r' & Hp' & He). assert (r' = r) as -> by congruence.
    destruct (find _ _) as [r'|] eqn:Hf.
    + apply find_some in Hf as [Hin%list_elem_of_In He'%bool_decide_eq_true]. apply list_elem_of_lookup_1 in Hin as (q & Hq).
      assert (q = p) as -> by (eapply indexed_unique; [done|done|done|congruence]). congruence.
    + apply list_elem_of_lookup_2, list_elem_of_In in Hp. apply (find_none _ _ Hf) in Hp. by rewrite bool_decide_eq_false in Hp.
Qed.

Lemma newStore_indexed : indexed newStore.
Proof. split; [|done]. intros key p. cbn. rewrite lookup_empty. split; [done|]. by intros (r & [=] & _). Qed.

Lemma credentialByID_record id s : indexed s → credentialByID id s = find_record (credentialKey id) (records s).
Proof.
  intros Hi. apply option_eq. intros r. rewrite find_record_Some by done. unfold credentialByID.
  rewrite bind_Some. split.
  - intros (p & Hp & (c & Hc & [= <-])%bind_Some). exists p. split; [done|]. unfold records. rewrite list_lookup_fmap, Hc. cbn.
    by rewrite CredentialRecord_Clone_id.
  - intros (p & Hp & Hr). exists p. split; [done|]. unfold records in Hr. rewrite list_lookup_fmap in Hr.
    apply fmap_Some in Hr as (c & Hc & ->). rewrite Hc. cbn. by rewrite CredentialRecord_Clone_id.
Qed.

Lemma credentialsForUser_owned handle s : indexed s → credentialsForUser handle s = owned_by (handleKey handle) (records s).
Proof.
  intros Hi. unfold credentialsForUser. rewrite (ix_user _ Hi). etrans; [|etrans; [apply positions_filter|]].
  - apply list_omap_ext, Forall_Forall2_diag, Forall_forall. intros p _. unfold records. rewrite list_lookup_fmap.
    destruct (heap s !! p); cbn; [by rewrite CredentialRecord_Clone_id|done].
  - apply list_filter_iff. intros r. apply bool_decide_eq_true.
Qed.

Lemma insertCredential_record record rt s s' ok : indexed s → insertCredential record rt s = (s', ok) →
  indexed s' ∧ ok = bool_decide (find_record (id_of record) (records s) = None) ∧
  records s' = if ok then records s ++ [record] else records s.
Proof.
  intros Hi. unfold insertCredential. cbv zeta. case_bool_decide as Hk; intros [= <- <-].
  - destruct Hk as [p Hp]. pose proof Hp as (r & Hr & _)%(ix_id _ Hi). split_and!; [done| |done]. symmetry.
    apply bool_decide_eq_false. rewrite eq_None_not_Some. intros Hn. apply Hn. exists r. apply find_record_Some; eauto.
  - assert (Hnone : find_record (id_of record) (records s) = None).
    { apply eq_None_not_Some. intros [r (p & Hp & _)%find_record_Some]; [|done]. apply Hk. eauto. }
    rewrite CredentialRecord_Clone_id. set (c := mkCredential _ _ _).
    assert (Hrec : e_Credential <$> (heap s ++ [c]) = records s ++ [record]) by (by rewrite fmap_app).
    split_and!; [|symmetry; by apply bool_decide_eq_true|exact Hrec].
    assert (length (heap s) = length (records s)) as Hlen by (symmetry; apply length_fmap).
    constructor; unfold records; cbn [heap credentialsByID credentialsByUserHandle with_credentials]; rewrite Hrec.
    + intros key p. rewrite lookup_insert_Some, (ix_id _ Hi), Hlen. split.
      * intros [[<- <-]|[Hne (r & Hr & He)]]; [exists record; by rewrite list_lookup_middle|].
        exists r. split; [by apply lookup_app_l_Some|done].
      * intros (r & [Hr|[Hge Hr]]%lookup_app_Some & He).
        -- right. split; [|eauto]. intros <-. apply Hk. exists p. apply (ix_id _ Hi). eauto.
        -- apply list_lookup_singleton_Some in Hr as [H0 <-]. left. split; [done|lia].
    + intros key. rewrite positions_snoc, <-(ix_user _ Hi), <-Hlen. destruct (decide (handleKey (cr_UserHandle record) = key)) as [<-|Hne].
      * rewrite lookup_insert_eq, bool_decide_eq_true_2 by done. done.
      * rewrite lookup_insert_ne, bool_decide_eq_false_2 by done. by rewrite app_nil_r.
Qed.

(** A store whose records are those of [s] changed by [f] at one ID, with the
    indexes of [s]. *)
Definition change_record (key : string) (f : CredentialRecord → CredentialRecord) (l : list CredentialRecord) : list CredentialRecord :=
  (λ r, if bool_decide (id_of r = key) then f r else r) <$> l.

Lemma insert_change s p r f : indexed s → records s !! p = Some r → <[p := f r]> (records s) = change_record (id_of r) f (records s).
Proof.
  intros Hi Hp. apply list_eq. intros q. unfold change_record. rewrite list_lookup_fmap. destruct (decide (p = q)) as [<-|Hne].
  - rewrite list_lookup_insert_eq by (by eapply lookup_lt_Some). rewrite Hp. cbn. by rewrite bool_decide_eq_true_2.
  - rewrite list_lookup_insert_ne by done. destruct (records s !! q) as [r'|] eqn:Hq; [|done]. cbn.
    rewrite bool_decide_eq_false_2; [done|]. intros He. by eapply Hne, indexed_unique.
Qed.

Lemma indexed_change s h key f : indexed s →
  (∀ r, id_of (f r) = id_of r) → (∀ r, cr_UserHandle (f r) = cr_UserHandle r) →
  e_Credential <$> h = change_record key f (records s) →
  indexed (with_credentials h (credentialsByID s) (credentialsByUserHandle s) s).
Proof.
  intros Hi Hf Hu Hh. constructor; unfold records; cbn [heap credentialsByID credentialsByUserHandle with_credentials]; rewrite Hh; unfold change_record.
  - intros k p. rewrite (ix_id _ Hi), list_lookup_fmap. split.
    + intros (r & Hr & He). rewrite Hr. eexists. split; [done|]. case_bool_decide; [by rewrite Hf|done].
    + intros (r & (r' & Hr & ->)%fmap_Some & He). exists r'. split; [done|]. revert He. case_bool_decide; [by rewrite Hf|done].
  - intros k. rewrite (ix_user _ Hi), positions_fmap; [done|]. intros r. destruct (bool_decide (id_of r = key)); [by rewrite Hu|done].
Qed.

Lemma id_of_matches u r : id_of r = credentialKey (slice_list (bv_bytes (cu_ID u))) ↔
  slice_list (bv_value (cr_ID r)) = slice_list (bv_value (cu_ID u)).
Proof. unfold id_of, credentialKey, bv_bytes. split; [apply EncodeToString_inj|]. by intros ->. Qed.

Lemma updateCredential_record u rt s s' ok : indexed s → updateCredential u rt s = (s', ok) →
  indexed s' ∧
  ok = match find_record (credentialKey (slice_list (bv_bytes (cu_ID u)))) (records s) with
       | Some r => bool_decide (update_matches u r)
       | None => false
       end ∧
  records s' = if ok then change_record (credentialKey (slice_list (bv_bytes (cu_ID u)))) (write_update u) (records s) else records s.
Proof.
  intros Hi. unfold updateCredential. set (key := credentialKey _).
  destruct (find_record key (records s)) as [r|] eqn:Hf.
  - pose proof Hf as (p & Hp & Hr)%find_record_Some; [|done]. pose proof Hp as (r' & Hr' & Hid)%(ix_id _ Hi).
    assert (r' = r) as -> by congruence. unfold records in Hr. rewrite list_lookup_fmap in Hr. apply fmap_Some in Hr as (c & Hc & ->).
    rewrite Hp. cbn [mbind option_bind]. rewrite Hc. cbn [mbind option_bind]. cbv zeta.
    pose proof (update_guard u (e_Credential c)) as Hg. rewrite (proj2 (bv_Equal_spec _ _)) in Hg by (by apply id_of_matches).
    cbn [negb orb] in Hg. destruct (_ || _) eqn:E; intros [= <- <-].
    + split_and!; [done| |done]. symmetry. apply bool_decide_eq_false. by rewrite <-Hg.
    + assert (Hrec : e_Credential <$> <[p := mkCredential (write_update u (e_Credential c)) (e_CreatedAt c) time_Now]> (heap s)
                     = change_record key (write_update u) (records s)).
      { rewrite list_fmap_insert. cbn [e_Credential]. rewrite <-Hid. by apply insert_change. }
      split_and!; [|symmetry; apply bool_decide_eq_true; by apply Hg|exact Hrec]. by eapply (indexed_change _ _ key (write_update u)).
  - destruct (credentialsByID s !! key) as [p|] eqn:Hp; cbn; [|by intros [= <- <-]].
    pose proof Hp as (r & Hr & _)%(ix_id _ Hi). assert (find_record key (records s) = Some r) by (apply find_record_Some; eauto). congruence.
Qed.

(** The calls on the credentials of the store, and their meaning on a list of
    records with distinct IDs. *)
Inductive call :=
| Insert (record : CredentialRecord)
| UpdateWith (u : CredentialUpdate)
| ByID (id : list byte)
| ForUser (handle : UserHandle).
Inductive answer := Changed (ok : bool) | One (record : option CredentialRecord) | Many (l : list CredentialRecord).

Definition perform (c : call) (rt : Runtime) (s : store) : store * answer :=
  match c with
  | Insert record => let '(s', ok) := insertCredential record rt s in (s', Changed ok)
  | UpdateWith u => let '(s', ok) := updateCredential u rt s in (s', Changed ok)
  | ByID id => (s, One (credentialByID id s))
  | ForUser handle => (s, Many (credentialsForUser handle s))
  end.

Definition meaning (c : call) (l : list CredentialRecord) : list CredentialRecord * answer :=
  match c with
  | Insert record =>
      if find_record (id_of record) l then (l, Changed false) else (l ++ [record], Changed true)
  | UpdateWith u =>
      let key := credentialKey (slice_list (bv_bytes (cu_ID u))) in
      match find_record key l with
      | Some r => if bool_decide (update_matches u r) then (change_record key (write_update u) l, Changed true) else (l, Changed false)
      | None => (l, Changed false)
      end
  | ByID id => (l, One (find_record (credentialKey id) l))
  | ForUser handle => (l, Many (owned_by (handleKey handle) l))
  end.

Fixpoint answers {S} (f : call → Runtime → S → S * answer) (calls : list (call * Runtime)) (s : S) : S * list answer :=
  match calls with
  | [] => (s, [])
  | (c, rt) :: calls => let '(s, x) := f c rt s in let '(s, xs) := answers f calls s in (s, x :: xs)
  end.

Lemma perform_meaning c rt s : indexed s →
  indexed (perform c rt s).1 ∧ meaning c (records s) = (records (perform c rt s).1, (perform c rt s).2).
Proof.
  intros Hi. destruct c as [record|u|id|handle]; cbn [perform meaning].
  - destruct (insertCredential record rt s) as [s' ok] eqn:H. apply insertCredential_record in H as (Hi' & -> & Hr); [|done].
    cbn [fst snd]. split; [done|]. revert Hr. destruct (find_record (id_of record) (records s)); cbn; by intros ->.
  - destruct (updateCredential u rt s) as [s' ok] eqn:H. apply updateCredential_record in H as (Hi' & -> & Hr); [|done].
    cbn [fst snd]. split; [done|]. revert Hr. destruct (find_record _ (records s)) as [r|]; [|by intros ->].
    case_bool_decide; by intros ->.
  - cbn [fst snd]. by rewrite credentialByID_record.
  - cbn [fst snd]. by rewrite credentialsForUser_owned.
Qed.

(** Whatever calls are made on a new store, with its records shared by the
    index of IDs and the index of users, every answer is the one of the list of
    records in the order they were inserted: an insertion is refused exactly on
    a known ID, an update is a compare-and-set of the record with its ID, and
    both lookups see every change. *)
Theorem e2e_store_refines calls :
  indexed (answers perform calls newStore).1 ∧
  answers (λ c _, meaning c) calls [] =
    (records (answers perform calls newStore).1, (answers perform calls newStore).2).
Proof.
  assert (∀ s, indexed s → indexed (answers perform calls s).1 ∧ answers (λ c _, meaning c) calls (records s) =
    (records (answers perform calls s).1, (answers perform calls s).2)) as H; [|exact (H _ newStore_indexed)].
  induction calls as [|[c rt] calls IH]; intros s Hi; [done|]. cbn [answers].
  destruct (perform_meaning c rt s Hi) as [Hi' ->]. destruct (perform c rt s) as [s1 x]. cbn [fst snd] in *.
  destruct (IH s1 Hi') as [Hi1 ->]. by destruct (answers perform calls s1).
Qed.

(** On an update of a verified authentication the store writes what [ApplyTo]
    returns, and refuses it exactly on a conflict. *)
Lemma write_update_applied {Ord : MapOrder} {Custom : CustomTypes} {RT : Runtime} ctx options result current :
  authentication_verified ctx options result → record_valid current →
  cr_BackupEligible current = cr_BackupEligible (afo_Credential options) → update_matches (ares_Update result) current →
  ApplyTo (ares_Update result) current = Ok (write_update (ares_Update result) current).
Proof.
  intros Hv Hr He Hm. rewrite (verified_apply _ _ _ _ Hv Hr He).
  destruct (verified_update _ _ _ Hv) as (_ & Hiff & Hw). pose proof (proj1 (Hiff current) Hm) as Hd. rewrite decide_True by done.
  destruct (Hw current (proj2 Hd)) as (H1 & H2 & H3 & H4). unfold with_mutable, write_update. by rewrite H1, H2, H3, H4.
Qed.
End Refinement.

(** The store's own update of a verified authentication is the library's
    [ApplyTo] on the stored record, as long as that record is valid and has the
    backup eligibility the assertion was verified with. *)
Lemma verified_update_applied {Ord : MapOrder} {Custom : CustomTypes} {RT : Runtime} ctx options result rt s current s' ok :
  authentication_verified ctx options result → indexed s →
  find_record (E2e.id_of (afo_Credential options)) (records s) = Some current → record_valid current →
  cr_BackupEligible current = cr_BackupEligible (afo_Credential options) →
  E2e.updateCredential (ares_Update result) rt s = (s', ok) →
  ok = bool_decide (same_mutable current (afo_Credential options)) ∧
  match ApplyTo (ares_Update result) current with
  | Ok next => ok = true ∧ records s' = change_record (E2e.id_of (afo_Credential options)) (λ _, next) (records s)
  | Err e => ok = false ∧ e = ErrCredentialUpdateConflict ∧ records s' = records s
  end.
Proof.
  intros H Hi Hf Hr He Hu.
  apply updateCredential_record in Hu as (_ & Hok & Hrec); [|done]. destruct (verified_update _ _ _ H) as (Hid & Hiff & _).
  rewrite Hid in Hok, Hrec. fold (E2e.id_of (afo_Credential options)) in Hok, Hrec. rewrite Hf in Hok.
  pose proof Hf as (p & Hp & Hcur)%find_record_Some; [|done]. apply (ix_id _ Hi) in Hp as (r' & Hp & Hk').
  assert (r' = current) as -> by congruence. split.
  { rewrite Hok. apply bool_decide_ext. rewrite Hiff. split; [by intros [_ ?]|]. intros ?. split; [|done].
    by apply EncodeToString_inj in Hk'. }
  case_bool_decide as Hm; subst ok; [|by rewrite (ApplyTo_conflict _ _ Hr Hm)].
  rewrite (write_update_applied _ _ _ _ H Hr He Hm). split; [done|]. rewrite Hrec. apply list_fmap_ext. intros q r Hq.
  case_bool_decide as Hk; [|done]. f_equal.
  assert (q = p) as -> by (eapply indexed_unique; [done|done|done|congruence]). congruence.
Qed.
