(* ===== verification/JsonRaw.v ===== *)
(** * Raw members of a JSON object

    A field of type [jsontext.Value] keeps the text of its member.  [raw_object]
    splits the text of an object into the names and texts of its members, the
    way the decoder walks through it; it is used on texts [Json.parse] accepts. *)
From S2P Require Import Prelude GoStrings Json.
Set Default Goal Selector "!".
Local Open Scope Z_scope.

Implicit Types (c : byte) (l : list byte).

(** What was consumed between two positions of the text. *)
Definition consumed_text (l rest : list byte) : list byte := take (length l - length rest) l.

Fixpoint raw_members (fuel depth : nat) l : option (list (list byte * list byte)) :=
  match fuel with
  | O => None
  | S fuel =>
      match skip_ws l with
      | [] => None
      | q :: l1 =>
          if negb (bool_decide (q = x22)) then None else
          '(name, l2) ← parse_string l1;
          match skip_ws l2 with
          | [] => None
          | c :: l3 =>
              if negb (bool_decide (c = x3a)) then None else
              '(_, l4) ← parse_value fuel depth l3;
              match skip_ws l4 with
              | [] => None
              | e :: l5 =>
                  let m := (name, consumed_text (skip_ws l3) l4) in
                  if decide (e = x2c) then ms ← raw_members fuel depth l5; Some (m :: ms)
                  else if decide (e = x7d) then Some [m]
                  else None
              end
          end
      end
  end.

Definition raw_object l : option (list (list byte * list byte)) :=
  match skip_ws l with
  | [] => None
  | c :: l1 =>
      if decide (c = x7b) then
        match skip_ws l1 with
        | [] => None
        | d :: l2 => if decide (d = x7d) then Some [] else raw_members (2 * length l + 1) (max_depth - 1) (d :: l2)
        end
      else None
  end.

(** The text of a member, empty if there is none. *)
Definition raw_member l (name : string) : list byte :=
  match raw_object l with
  | Some ms => from_option snd [] (find (λ m, bool_decide (m.1 = bytes_of_string name)) ms)
  | None => []
  end.

Example raw_vectors :
  raw_member (bytes_of_string "{ 'a' : [ 1, 2 ] , 'b':{} }") "a" = [] ∧
  let text := (λ c, if decide (c = x27) then x22 else c) <$> bytes_of_string "{ 'a' : [ 1, 2 ] , 'b':{} }" in
  raw_member text "a" = bytes_of_string "[ 1, 2 ]" ∧ raw_member text "b" = bytes_of_string "{}" ∧ raw_member text "c" = [].
Proof. by vm_compute. Qed.

(** ** Locality of the readers

    A reader that succeeds has consumed a prefix of its input, and looks at no
    more of the rest than its first byte. *)
Definition follows (rest rest' : list byte) : Prop := rest' = [] ∨ ∃ c r r', rest = c :: r ∧ rest' = c :: r'.

Lemma follows_app t rest rest' : follows rest rest' → follows (t ++ rest) (t ++ rest').
Proof. destruct t as [|c t]; [done|]. intros _. right. by exists c, (t ++ rest), (t ++ rest'). Qed.

Lemma skip_ws_local l : ∃ ws, l = ws ++ skip_ws l ∧ ∀ l', skip_ws (ws ++ l') = skip_ws l'.
Proof.
  induction l as [|c l (ws & Hl & Hs)]; [by exists []|]. cbn. destruct (is_ws c) eqn:E; [|by exists []].
  exists (c :: ws). split; [cbn; by rewrite <-Hl|]. intros l'. cbn. by rewrite E.
Qed.
Lemma skip_ws_idem l : skip_ws (skip_ws l) = skip_ws l.
Proof. induction l as [|c l IH]; [done|]. cbn. destruct (is_ws c) eqn:E; [done|]. cbn. by rewrite E. Qed.

(** The whitespace before a token, and the text from the token on replaced. *)
Lemma skip_ws_token l c l1 : skip_ws l = c :: l1 → ∃ ws, l = ws ++ c :: l1 ∧ ∀ l', skip_ws (ws ++ c :: l') = c :: l'.
Proof.
  intros H. destruct (skip_ws_local l) as (ws & Hl & Hs). exists ws. rewrite H in Hl. split; [done|]. intros l'. rewrite Hs. cbn.
  assert (is_ws c = false) as ->; [|done]. pose proof (skip_ws_idem l) as Hi. rewrite H in Hi. cbn in Hi. destruct (is_ws c); [|done].
  pose proof (skip_ws_length l1) as Hn. rewrite Hi in Hn. cbn in Hn. lia.
Qed.

Lemma utf8_seq_local l n l' : utf8_seq l = Some n → take n l' = take n l → utf8_seq l' = Some n.
Proof.
  unfold utf8_seq. intros H Ht. destruct l as [|a [|b rest]]; [done..|].
  destruct (in_range 194 223 a && is_cont b) eqn:E1.
  { injection H as <-. destruct l' as [|a' [|b' rest']]; [done..|]. injection Ht as -> ->. by rewrite E1. }
  destruct rest as [|c rest]; [done|]. destruct (in_range 224 239 a && _ && _) eqn:E2.
  { injection H as <-. destruct l' as [|a' [|b' [|c' rest']]]; [done..|]. injection Ht as -> -> ->. by rewrite E1, E2. }
  destruct rest as [|d rest]; [done|]. destruct (in_range 240 244 a && _ && _ && _) eqn:E3; [|done].
  injection H as <-. destruct l' as [|a' [|b' [|c' [|d' rest']]]]; [done..|]. injection Ht as -> -> -> ->. by rewrite E1, E2, E3.
Qed.

Definition string_local l (s rest : list byte) : Prop := ∃ t, l = t ++ rest ∧ ∀ rest', parse_string (t ++ rest') = Some (s, rest').

Lemma push_local p r o s rest : push r o = Some (s, rest) →
  (∀ s', o = Some (s', rest) → ∃ t, p = t ++ rest ∧ ∀ rest', parse_string (t ++ rest') = Some (s', rest')) →
  ∃ t s', p = t ++ rest ∧ s = r ++ s' ∧ ∀ rest', parse_string (t ++ rest') = Some (s', rest').
Proof.
  unfold push. destruct o as [[s' r']|]; [|done]. cbn. intros [= <- <-] H. destruct (H s' eq_refl) as (t & Hp & Ht).
  by exists t, s'.
Qed.

(** The step of [parse_string] on a nonempty text. *)
Definition string_step c l1 : option (list byte * list byte) :=
  if decide (c = x22) then Some ([], l1)
  else if decide (c = x5c) then
    match l1 with
    | e :: l2 =>
        if decide (e = x75) then
          match l2 with
          | h1 :: h2 :: h3 :: h4 :: l3 =>
              match hex4 h1 h2 h3 h4 with
              | None => None
              | Some r =>
                  if (55296 <=? r) && (r <=? 56319) then
                    match l3 with
                    | b :: u :: g1 :: g2 :: g3 :: g4 :: l4 =>
                        match hex4 g1 g2 g3 g4 with
                        | Some r2 =>
                            if bool_decide (b = x5c) && bool_decide (u = x75)
                               && (56320 <=? r2) && (r2 <=? 57343)
                            then push (encode_rune (65536 + (r - 55296) * 1024 + (r2 - 56320))) (parse_string l4)
                            else None
                        | None => None
                        end
                    | _ => None
                    end
                  else if (56320 <=? r) && (r <=? 57343) then None
                  else push (encode_rune r) (parse_string l3)
              end
          | _ => None
          end
        else match simple_escape e with
             | Some r => push [r] (parse_string l2)
             | None => None
             end
    | [] => None
    end
  else if byte_val c <? 32 then None
  else if byte_val c <? 128 then push [c] (parse_string l1)
  else match utf8_seq (c :: l1), l1 with
       | Some 2%nat, b :: l2 => push [c; b] (parse_string l2)
       | Some 3%nat, b :: d :: l3 => push [c; b; d] (parse_string l3)
       | Some 4%nat, b :: d :: e :: l4 => push [c; b; d; e] (parse_string l4)
       | _, _ => None
       end.
Lemma parse_string_cons c l1 : parse_string (c :: l1) = string_step c l1.
Proof. done. Qed.

Lemma parse_string_local n : ∀ l s rest, (length l <= n)%nat → parse_string l = Some (s, rest) → string_local l s rest.
Proof.
  induction n as [|n IH]; intros [|c l1] s rest Hn H; try done; [cbn in Hn; lia|].
  rewrite parse_string_cons in H. unfold string_step in H. cbn [length] in Hn.
  repeat (case_match; try discriminate H);
    try (apply push_local with (p := ltac:(match type of H with push _ (parse_string ?p) = _ => exact p end)) in H as (t & s' & -> & -> & Ht);
         [|intros ? ?; eapply IH; [cbn [length] in *; lia|done]];
         rewrite !app_comm_cons; eexists; split; [reflexivity|]; intros rest'; cbn [app]; rewrite parse_string_cons; unfold string_step;
         repeat match goal with
         | E : utf8_seq _ = Some ?k |- context [utf8_seq ?l'] =>
             rewrite (utf8_seq_local _ k l' E) by reflexivity
         | E : ?x = _ |- context [?x] => rewrite E
         end; rewrite ?Ht; reflexivity).
  injection H as <- <-. subst. by exists [x22].
Qed.

Lemma take_digits_local l : ∀ d r, take_digits l = (d, r) → l = d ++ r ∧ ∀ r', follows r r' → take_digits (d ++ r') = (d, r').
Proof.
  induction l as [|c l IH]; intros d r; cbn; [intros [= <- <-]; split; [done|]; by intros r' [-> |(? & ? & ? & [=] & _)]|].
  destruct (is_digit c) eqn:E.
  - destruct (take_digits l) as [d' r'] eqn:E'. intros [= <- <-]. destruct (IH _ _ eq_refl) as [-> H]. split; [done|].
    intros r'' Hf. cbn. by rewrite E, H.
  - intros [= <- <-]. split; [done|]. intros r' [-> |(x & y & z & [= <- <-] & ->)]; [done|]. cbn. by rewrite E.
Qed.

Lemma parse_fraction_local l f r : parse_fraction l = Some (f, r) →
  l = f ++ r ∧ ∀ r', follows r r' → parse_fraction (f ++ r') = Some (f, r').
Proof.
  unfold parse_fraction. destruct l as [|d l1]; [intros [= <- <-]; split; [done|]; by intros r' [-> |(? & ? & ? & [=] & _)]|].
  destruct (decide (d = x2e)) as [->|Hd].
  - destruct (take_digits l1) as [ds rest] eqn:E. case_bool_decide as Hn; [done|]. intros [= <- <-].
    apply take_digits_local in E as [-> H]. split; [done|]. intros r' Hf. cbn [app]. rewrite decide_True by done.
    rewrite (H _ Hf). by rewrite bool_decide_eq_false_2.
  - intros [= <- <-]. split; [done|]. intros r' [-> |(x & y & z & [= <- <-] & ->)]; [done|]. cbn. by rewrite decide_False.
Qed.

Lemma parse_exponent_local l f r : parse_exponent l = Some (f, r) →
  l = f ++ r ∧ ∀ r', follows r r' → parse_exponent (f ++ r') = Some (f, r').
Proof.
  unfold parse_exponent. destruct l as [|e l1]; [intros [= <- <-]; split; [done|]; by intros r' [-> |(? & ? & ? & [=] & _)]|].
  destruct (bool_decide (e ∈ [x65; x45])) eqn:He.
  - destruct (match l1 with [] => _ | _ :: _ => _ end) as [sign l2] eqn:Es. destruct (take_digits l2) as [ds rest] eqn:E.
    destruct (bool_decide (ds = [])) eqn:Hn; [done|]. apply bool_decide_eq_false in Hn. intros [= <- <-]. apply take_digits_local in E as [-> H].
    assert (l1 = sign ++ ds ++ rest) as ->.
    { destruct l1 as [|x l1]; [by injection Es as <- <-|]. destruct (bool_decide (x ∈ [x2b; x2d])); injection Es as <- <-; done. }
    split; [cbn; by rewrite <-app_assoc|]. intros r' Hf. cbn [app]. rewrite He.
    destruct ds as [|d ds]; [done|]. rewrite <-app_assoc.
    assert (match sign ++ (d :: ds) ++ r' with [] => ([], []) | s :: l2 => if bool_decide (s ∈ [x2b; x2d]) then ([s], l2) else ([], sign ++ (d :: ds) ++ r') end
            = (sign, (d :: ds) ++ r')) as ->; [|rewrite (H _ Hf); by rewrite bool_decide_eq_false_2].
    destruct sign as [|x sign]; cbn [app] in Es |- *.
    + destruct (bool_decide (d ∈ _)) eqn:Ed; [by injection Es|done].
    + destruct (bool_decide (x ∈ [x2b; x2d])) eqn:Ex; [|done]. injection Es as <- _. done.
  - intros [= <- <-]. split; [done|]. intros r' [-> |(x & y & z & [= <- <-] & ->)]; [done|]. cbn [app]. by rewrite He.
Qed.

Lemma parse_number_local l f r : parse_number l = Some (f, r) →
  l = f ++ r ∧ ∀ r', follows r r' → parse_number (f ++ r') = Some (f, r').
Proof.
  unfold parse_number. intros H.
  destruct (match l with [] => _ | _ :: _ => _ end) as [sign l1] eqn:Es.
  apply bind_Some in H as ([int l2] & Hint & H). apply bind_Some in H as ([fr l3] & Hfr & H).
  apply bind_Some in H as ([ex l4] & Hex & [= <- <-]).
  apply parse_fraction_local in Hfr as [-> Hfr]. apply parse_exponent_local in Hex as [-> Hex].
  assert (Hl1 : l1 = int ++ fr ++ ex ++ l4 ∧ int ≠ [] ∧ (∀ r', follows (fr ++ ex ++ l4) r' →
    match int ++ r' with
    | [] => None
    | z :: l2 => if decide (z = x30) then Some ([z], l2) else
        let '(ds, r) := take_digits (int ++ r') in if bool_decide (ds = []) then None else Some (ds, r)
    end = Some (int, r'))).
  { destruct l1 as [|z l1]; [done|]. destruct (decide (z = x30)) as [->|Hz].
    - injection Hint as <- ->. done.
    - destruct (take_digits (z :: l1)) as [ds rr] eqn:E. case_bool_decide as Hn; [done|]. injection Hint as -> ->.
      apply take_digits_local in E as [E Hd]. split; [done|]. split; [done|]. intros r' Hf. destruct int as [|z' int]; [done|].
      injection E as <- _. cbn [app]. rewrite decide_False by done. change (z :: int ++ r') with ((z :: int) ++ r').
      rewrite (Hd _ Hf). by rewrite bool_decide_eq_false_2. }
  destruct Hl1 as (-> & Hne & Hint'). clear Hint.
  assert (l = sign ++ int ++ fr ++ ex ++ l4) as ->.
  { destruct l as [|x l]; [by injection Es as <- <-|]. destruct (decide _); by injection Es as <- <-. }
  split; [by rewrite <-!app_assoc|]. intros r' Hf. rewrite <-!app_assoc.
  assert (match sign ++ int ++ fr ++ ex ++ r' with [] => ([], []) | s :: l1 => if decide (s = x2d) then ([s], l1) else ([], sign ++ int ++ fr ++ ex ++ r') end
          = (sign, int ++ fr ++ ex ++ r')) as ->.
  { destruct sign as [|x sign].
    - cbn [app] in *. destruct int as [|z int]; [done|]. cbn [app] in *. destruct (decide (z = x2d)); [by injection Es|done].
    - cbn [app] in *. destruct (decide (x = x2d)) as [->|]; [|done]. injection Es as <- _. done. }
  rewrite Hint' by (by apply follows_app, follows_app). cbn [mbind option_bind].
  rewrite Hfr by (by apply follows_app). cbn [mbind option_bind]. by rewrite Hex.
Qed.

Definition reads_locally (read : list byte → option (json * list byte)) : Prop := ∀ l v r, read l = Some (v, r) →
  ∃ t, l = t ++ r ∧ ∀ r', follows r r' → read (t ++ r') = Some (v, r').

Lemma has_prefix_local p : ∀ l, has_prefix p l = true → ∃ r, l = p ++ r ∧ ∀ r', has_prefix p (p ++ r') = true.
Proof.
  induction p as [|x p IH]; intros [|y l] H; try done; [by exists []|by exists (y :: l)|].
  cbn in H. apply andb_true_iff in H as [H1%bool_decide_eq_true H2]. subst y. destruct (IH _ H2) as (r & -> & Hr).
  exists r. split; [done|]. intros r'. cbn. by rewrite bool_decide_eq_true_2, Hr.
Qed.

Lemma elements_local fuel depth acc : reads_locally (parse_value fuel depth) →
  (∀ acc, reads_locally (parse_elements fuel depth acc)) → reads_locally (parse_elements (S fuel) depth acc).
Proof.
  intros IHv IHe l v r H. cbn [parse_elements] in H. apply bind_Some in H as ([w l1] & Hw & H).
  apply IHv in Hw as (t1 & -> & Hw). destruct (skip_ws l1) as [|c l2] eqn:Hs; [done|].
  apply skip_ws_token in Hs as (ws & -> & Hs).
  assert (Hstep : ∀ x, parse_value fuel depth (t1 ++ ws ++ c :: x) = Some (w, ws ++ c :: x)).
  { intros x. apply Hw, follows_app. right. by exists c, l2, x. }
  destruct (decide (c = x2c)) as [->|Hc].
  - apply IHe in H as (t2 & -> & H). exists (t1 ++ ws ++ x2c :: t2). split; [by rewrite <-!app_assoc|].
    intros r' Hf. rewrite <-!app_assoc. cbn [parse_elements app]. rewrite Hstep. cbn [mbind option_bind].
    rewrite Hs, decide_True by done. by apply H.
  - destruct (decide (c = x5d)) as [->|]; [|done]. injection H as <- <-. exists (t1 ++ ws ++ [x5d]). split; [by rewrite <-!app_assoc|].
    intros r' Hf. rewrite <-!app_assoc. cbn [parse_elements app]. rewrite Hstep. cbn [mbind option_bind].
    rewrite Hs, decide_False, decide_True by done. done.
Qed.

Lemma members_local fuel depth acc : reads_locally (parse_value fuel depth) →
  (∀ acc, reads_locally (parse_members fuel depth acc)) → reads_locally (parse_members (S fuel) depth acc).
Proof.
  intros IHv IHm l v r H. cbn [parse_members] in H. destruct (skip_ws l) as [|q l1] eqn:Hs0; [done|].
  apply skip_ws_token in Hs0 as (ws0 & -> & Hs0). destruct (negb (bool_decide (q = x22))) eqn:Hq; [done|].
  apply bind_Some in H as ([name l2] & Hn & H). apply (parse_string_local _ _ _ _ (le_n _)) in Hn as (t0 & -> & Hn).
  destruct (bool_decide (name ∈ acc.*1)) eqn:Ha; [done|].
  destruct (skip_ws l2) as [|c l3] eqn:Hs1; [done|]. apply skip_ws_token in Hs1 as (ws1 & -> & Hs1).
  destruct (negb (bool_decide (c = x3a))) eqn:Hc; [done|]. apply bind_Some in H as ([w l4] & Hw & H).
  apply IHv in Hw as (t1 & -> & Hw). destruct (skip_ws l4) as [|e l5] eqn:Hs; [done|]. apply skip_ws_token in Hs as (ws & -> & Hs).
  assert (Hstep : ∀ x, parse_members (S fuel) depth acc (ws0 ++ q :: t0 ++ ws1 ++ c :: t1 ++ ws ++ e :: x) =
    if decide (e = x2c) then parse_members fuel depth (acc ++ [(name, w)]) x
    else if decide (e = x7d) then Some (JObject (acc ++ [(name, w)]), x) else None).
  { intros x. cbn [parse_members]. rewrite Hs0, Hq, Hn. cbn [mbind option_bind]. rewrite Ha, Hs1, Hc.
    rewrite Hw by (apply follows_app; right; by exists e, l5, x). cbn [mbind option_bind]. by rewrite Hs. }
  destruct (decide (e = x2c)) as [->|He].
  - apply IHm in H as (t2 & -> & H). exists (ws0 ++ q :: t0 ++ ws1 ++ c :: t1 ++ ws ++ x2c :: t2). split; [by simplify_list_eq|].
    intros r' Hf. rewrite <-(H _ Hf), <-(Hstep (t2 ++ r')). f_equal. by simplify_list_eq.
  - destruct (decide (e = x7d)) as [->|]; [|done]. injection H as <- <-.
    exists (ws0 ++ q :: t0 ++ ws1 ++ c :: t1 ++ ws ++ [x7d]). split; [by simplify_list_eq|].
    intros r' _. rewrite <-(Hstep r'). f_equal. by simplify_list_eq.
Qed.

Definition is_literal l : bool :=
  has_prefix (bytes_of_string "null") l || has_prefix (bytes_of_string "true") l || has_prefix (bytes_of_string "false") l.

Lemma number_not_literal c l l' x : parse_number (c :: l) = Some x → is_literal (c :: l') = false.
Proof.
  intros H. destruct (decide (c = x6e ∨ c = x74 ∨ c = x66)) as [[-> |[-> | ->]]|Hc]; [done..|].
  unfold is_literal. cbn [has_prefix bytes_of_string]. cbn. rewrite !bool_decide_eq_false_2 by (intros <-; tauto). done.
Qed.

Lemma number_nonempty l f r : parse_number l = Some (f, r) → f ≠ [].
Proof.
  intros H ->. pose proof (parse_number_length _ _ _ H) as Hl. apply parse_number_local in H as [-> _]. cbn in Hl. lia.
Qed.

(** A value that is neither an object nor an array. *)
Definition parse_scalar c l1 : option (json * list byte) :=
  if decide (c = x22) then '(s, rest) ← parse_string l1; Some (JString s, rest)
  else if has_prefix (bytes_of_string "null") (c :: l1) then Some (JNull, drop 4 (c :: l1))
  else if has_prefix (bytes_of_string "true") (c :: l1) then Some (JBool true, drop 4 (c :: l1))
  else if has_prefix (bytes_of_string "false") (c :: l1) then Some (JBool false, drop 5 (c :: l1))
  else '(n, rest) ← parse_number (c :: l1); Some (JNumber n, rest).

Lemma scalar_local c l1 v r : parse_scalar c l1 = Some (v, r) →
  ∃ t, l1 = t ++ r ∧ ∀ r', follows r r' → parse_scalar c (t ++ r') = Some (v, r').
Proof.
  unfold parse_scalar. destruct (decide (c = x22)) as [->|Hq].
  { intros ([s rest] & Hs & [= <- <-])%bind_Some. apply (parse_string_local _ _ _ _ (le_n _)) in Hs as (t & -> & Hs).
    exists t. split; [done|]. intros r' _. by rewrite Hs. }
  destruct (has_prefix (bytes_of_string "null") (c :: l1)) eqn:E1.
  { intros [= <- <-]. apply has_prefix_local in E1 as (x & E1 & H1). injection E1 as -> ->. exists (bytes_of_string "ull").
    split; [done|]. intros r' _. specialize (H1 r'). cbn in H1 |- *. done. }
  destruct (has_prefix (bytes_of_string "true") (c :: l1)) eqn:E2.
  { intros [= <- <-]. apply has_prefix_local in E2 as (x & E2 & H2). injection E2 as -> ->. by exists (bytes_of_string "rue"). }
  destruct (has_prefix (bytes_of_string "false") (c :: l1)) eqn:E3.
  { intros [= <- <-]. apply has_prefix_local in E3 as (x & E3 & H3). injection E3 as -> ->. by exists (bytes_of_string "alse"). }
  intros ([n rest] & Hn & [= <- <-])%bind_Some. pose proof (number_nonempty _ _ _ Hn) as Hne.
  assert (Hlit : ∀ y, is_literal (c :: y) = false) by (intros y; by eapply number_not_literal).
  apply parse_number_local in Hn as [Hl Hn]. destruct n as [|z n]; [done|]. injection Hl as <- ->. exists n. split; [done|].
  intros r' Hf. specialize (Hlit (n ++ r')). unfold is_literal in Hlit.
  apply orb_false_iff in Hlit as [[-> ->]%orb_false_iff ->].
  change (c :: n ++ r') with ((c :: n) ++ r'). by rewrite Hn.
Qed.

(** What follows an opening bracket. *)
Definition after_bracket (close : byte) (empty : json) (read : list byte → option (json * list byte)) l1 : option (json * list byte) :=
  match skip_ws l1 with
  | [] => None
  | d :: l2 => if decide (d = close) then Some (empty, l2) else read (d :: l2)
  end.

Lemma bracket_local close empty read : read [] = None → reads_locally read → reads_locally (after_bracket close empty read).
Proof.
  intros Hnil Hread l v r H. unfold after_bracket in *. destruct (skip_ws l) as [|d l2] eqn:Hs; [done|].
  apply skip_ws_token in Hs as (ws & -> & Hs). destruct (decide (d = close)) as [->|Hd].
  - injection H as <- <-. exists (ws ++ [close]). split; [by rewrite <-app_assoc|]. intros r' _. rewrite <-app_assoc. cbn [app].
    by rewrite Hs, decide_True.
  - apply Hread in H as (t & E & H). destruct t as [|d' t].
    + pose proof (H [] (or_introl eq_refl)) as Hx. cbn in Hx. by rewrite Hnil in Hx.
    + injection E as <- ->. exists (ws ++ d :: t). split; [by rewrite <-app_assoc|]. intros r' Hf. rewrite <-app_assoc. cbn [app].
      rewrite Hs, decide_False by done. by apply H.
Qed.

Lemma parse_value_eq fuel depth l : parse_value (S fuel) depth l =
  match skip_ws l with
  | [] => None
  | c :: l1 =>
      if decide (c = x7b) then match depth with O => None | S depth => after_bracket x7d (JObject []) (parse_members fuel depth []) l1 end
      else if decide (c = x5b) then match depth with O => None | S depth => after_bracket x5d (JArray []) (parse_elements fuel depth []) l1 end
      else parse_scalar c l1
  end.
Proof. done. Qed.

Lemma parse_local fuel :
  (∀ depth, reads_locally (parse_value fuel depth)) ∧ (∀ depth acc, reads_locally (parse_elements fuel depth acc)) ∧
  (∀ depth acc, reads_locally (parse_members fuel depth acc)).
Proof.
  induction fuel as [|fuel (IHv & IHe & IHm)]; [done|]. split_and!; [|by intros; apply elements_local|by intros; apply members_local].
  intros depth l v r. rewrite parse_value_eq. destruct (skip_ws l) as [|c l1] eqn:Hs; [done|]. intros H.
  apply skip_ws_token in Hs as (ws & -> & Hs).
  assert (Hgoal : (∃ t, l1 = t ++ r ∧ ∀ r', follows r r' → parse_value (S fuel) depth (ws ++ c :: t ++ r') = Some (v, r')) →
    ∃ t, ws ++ c :: l1 = t ++ r ∧ ∀ r', follows r r' → parse_value (S fuel) depth (t ++ r') = Some (v, r')).
  { intros (t & -> & Ht). exists (ws ++ c :: t). split; [by rewrite <-app_assoc|]. intros r' Hf. rewrite <-app_assoc. by apply Ht. }
  apply Hgoal. clear Hgoal. setoid_rewrite parse_value_eq. setoid_rewrite Hs.
  destruct (decide (c = x7b)) as [->|H1]; [|destruct (decide (c = x5b)) as [->|H2]; [|by apply scalar_local]].
  - destruct depth as [|depth]; [done|]. eapply bracket_local; [|apply IHm|done]. by destruct fuel.
  - destruct depth as [|depth]; [done|]. eapply bracket_local; [|apply IHe|done]. by destruct fuel as [|[|fuel]].
Qed.

(** More depth allows more texts. *)
Lemma parse_deeper fuel : ∀ depth depth', (depth <= depth')%nat →
  (∀ l x, parse_value fuel depth l = Some x → parse_value fuel depth' l = Some x) ∧
  (∀ acc l x, parse_elements fuel depth acc l = Some x → parse_elements fuel depth' acc l = Some x) ∧
  (∀ acc l x, parse_members fuel depth acc l = Some x → parse_members fuel depth' acc l = Some x).
Proof.
  induction fuel as [|fuel IH]; intros depth depth' Hd; [done|]. split_and!.
  - intros l x. rewrite !parse_value_eq. destruct (skip_ws l) as [|c l1]; [done|]. unfold after_bracket.
    destruct (decide _); [|destruct (decide _); [|done]]; destruct depth as [|depth]; try done; (destruct depth' as [|depth']; [lia|]);
      (destruct (skip_ws l1); [done|]); (destruct (decide _); [done|]); apply (IH depth depth'); lia.
  - intros acc l x. cbn [parse_elements]. intros ([v l1] & Hv & H)%bind_Some. rewrite (proj1 (IH _ _ Hd) _ _ Hv). cbn [mbind option_bind].
    destruct (skip_ws l1); [done|]. destruct (decide _); [by apply (IH _ _ Hd)|done].
  - intros acc l x. cbn [parse_members]. destruct (skip_ws l); [done|]. destruct (negb _); [done|].
    intros ([name l2] & -> & H)%bind_Some. cbn [mbind option_bind]. destruct (bool_decide _); [done|].
    destruct (skip_ws l2); [done|]. destruct (negb _); [done|]. apply bind_Some in H as ([v l4] & Hv & H).
    rewrite (proj1 (IH _ _ Hd) _ _ Hv). cbn [mbind option_bind]. destruct (skip_ws l4); [done|].
    destruct (decide _); [by apply (IH _ _ Hd)|done].
Qed.

(** The text of a value, alone, is a JSON text with that value. *)
Lemma consumed_text_app (t r : list byte) : consumed_text (t ++ r) r = t.
Proof. unfold consumed_text. rewrite length_app, Nat.add_sub. by rewrite take_app_length. Qed.

Lemma parse_value_skip fuel depth l : parse_value fuel depth (skip_ws l) = parse_value fuel depth l.
Proof. destruct fuel; [done|]. rewrite !parse_value_eq. by rewrite skip_ws_idem. Qed.

Lemma consumed_parse fuel depth l v r : (depth <= max_depth)%nat → parse_value fuel depth l = Some (v, r) → (2 * length l + 2 <= fuel)%nat →
  parse (consumed_text (skip_ws l) r) = Some v.
Proof.
  intros Hd H Hf. rewrite <-parse_value_skip in H. apply (proj1 (parse_local fuel)) in H as (t & Ht & H). rewrite Ht.
  specialize (H [] (or_introl eq_refl)). rewrite app_nil_r in H. rewrite consumed_text_app.
  apply (proj1 (parse_deeper _ _ _ Hd)) in H. rewrite (parse_enough_fuel fuel); [by rewrite H|].
  pose proof (skip_ws_length l) as Hl. rewrite Ht, length_app in Hl. lia.
Qed.

Lemma raw_members_spec fuel : ∀ depth acc l v r, (depth <= max_depth)%nat → (2 * length l + 2 <= fuel)%nat →
  parse_members fuel depth acc l = Some (v, r) →
  ∃ raws ms, raw_members fuel depth l = Some raws ∧ v = JObject (acc ++ ms) ∧
    Forall2 (λ raw m, raw.1 = m.1 ∧ parse raw.2 = Some m.2) raws ms.
Proof.
  induction fuel as [|fuel IH]; intros depth acc l v r Hd Hf H; [done|]. cbn [parse_members] in H. cbn [raw_members].
  destruct (skip_ws l) as [|q l1] eqn:Hs0; [done|]. destruct (negb (bool_decide (q = x22))); [done|].
  apply bind_Some in H as ([name l2] & Hn & H). rewrite Hn. cbn [mbind option_bind]. destruct (bool_decide (name ∈ _)); [done|].
  destruct (skip_ws l2) as [|c l3] eqn:Hs1; [done|]. destruct (negb (bool_decide (c = x3a))); [done|].
  apply bind_Some in H as ([w l4] & Hw & H). rewrite Hw. cbn [mbind option_bind].
  assert (length l3 + 3 <= length l)%nat as Hl3.
  { pose proof (skip_ws_length l) as Hl. rewrite Hs0 in Hl. cbn in Hl. apply (parse_string_length _ _ _ _ (le_n _)) in Hn.
    pose proof (skip_ws_length l2) as Hl2. rewrite Hs1 in Hl2. cbn in Hl2. lia. }
  pose proof (consumed_parse _ _ _ _ _ Hd Hw ltac:(lia)) as Hp. pose proof (proj1 (parse_progress _) _ _ _ _ Hw) as Hl4.
  destruct (skip_ws l4) as [|e l5] eqn:Hs2; [done|]. pose proof (skip_ws_length l4) as Hl5. rewrite Hs2 in Hl5. cbn in Hl5.
  destruct (decide (e = x2c)).
  - apply IH in H as (raws & ms & -> & -> & HF); [|done|lia]. cbn [mbind option_bind].
    eexists _, ((name, w) :: ms). split_and!; [done|by rewrite <-app_assoc|]. by constructor.
  - destruct (decide (e = x7d)); [|done]. injection H as <- <-. eexists _, [(name, w)]. split_and!; [done..|]. by repeat constructor.
Qed.

Lemma parse_elements_array fuel : ∀ depth acc l v r, parse_elements fuel depth acc l = Some (v, r) → ∃ vs, v = JArray vs.
Proof.
  induction fuel as [|fuel IH]; intros depth acc l v r H; [done|]. cbn [parse_elements] in H.
  apply bind_Some in H as ([w l1] & _ & H). destruct (skip_ws l1) as [|c l2]; [done|].
  destruct (decide _); [by eapply IH|]. destruct (decide _); [|done]. injection H as <- _. by eexists.
Qed.
Lemma scalar_not_object c l ms r : parse_scalar c l ≠ Some (JObject ms, r).
Proof.
  unfold parse_scalar. destruct (decide _); [by intros ([s rest] & _ & [=])%bind_Some|].
  repeat (destruct (has_prefix _ _); [done|]). by intros ([x rest] & _ & [=])%bind_Some.
Qed.

(** The members of an object and their texts: the names in order, and each text
    a JSON text of the member's value. *)
Theorem raw_object_exact l ms : parse l = Some (JObject ms) →
  ∃ raws, raw_object l = Some raws ∧ Forall2 (λ raw m, raw.1 = m.1 ∧ parse raw.2 = Some m.2) raws ms.
Proof.
  unfold parse. intros ([v rest] & Hv & H)%bind_Some. case_bool_decide; [|done]. injection H as ->.
  replace (2 * length l + 2)%nat with (S (2 * length l + 1)) in Hv by lia. rewrite parse_value_eq in Hv. unfold raw_object.
  destruct (skip_ws l) as [|c l1] eqn:Hs; [done|]. destruct (decide (c = x7b)) as [->|].
  - change max_depth with (S (max_depth - 1)) in Hv at 1. unfold after_bracket in Hv. destruct (skip_ws l1) as [|d l2] eqn:Hs1; [done|].
    destruct (decide (d = x7d)); [injection Hv as <- _; exists []; split; [done|constructor]|].
    apply raw_members_spec in Hv as (raws & ms' & -> & [= ->] & HF); [by exists raws|lia|].
    pose proof (skip_ws_length l) as Hl. pose proof (skip_ws_length l1) as Hl1. rewrite Hs in Hl. rewrite Hs1 in Hl1. cbn in *. lia.
  - destruct (decide (c = x5b)).
    + change max_depth with (S (max_depth - 1)) in Hv at 1. unfold after_bracket in Hv. destruct (skip_ws l1); [done|].
      destruct (decide _); [done|]. by apply parse_elements_array in Hv as (vs & [=]).
    + by apply scalar_not_object in Hv.
Qed.

(** The text of a member is empty exactly if there is none, and otherwise a JSON
    text of its value. *)
Lemma raw_member_parse l ms name v : parse l = Some (JObject ms) → member (bytes_of_string name) ms = Some v →
  parse (raw_member l name) = Some v.
Proof.
  intros (raws & Hr & HF)%raw_object_exact Hm. unfold raw_member. rewrite Hr. clear Hr.
  induction HF as [|[k t] [k' v'] raws ms [Hk Ht] _ IH]; [done|]. cbn in Hk. subst k'. cbn [member] in Hm. cbn [find fst].
  destruct (decide (k = bytes_of_string name)) as [->|Hne].
  - rewrite bool_decide_eq_true_2 by done. injection Hm as ->. done.
  - rewrite bool_decide_eq_false_2 by done. by apply IH.
Qed.
Lemma raw_member_missing l ms name : parse l = Some (JObject ms) → member (bytes_of_string name) ms = None → raw_member l name = [].
Proof.
  intros (raws & Hr & HF)%raw_object_exact Hm. unfold raw_member. rewrite Hr. clear Hr.
  induction HF as [|[k t] [k' v'] raws ms [Hk Ht] _ IH]; [done|]. cbn in Hk. subst k'. cbn [member] in Hm. cbn [find fst].
  destruct (decide (k = bytes_of_string name)) as [->|Hne]; [done|]. rewrite bool_decide_eq_false_2 by done. by apply IH.
Qed.
