(* ===== verification/E2eApp.v ===== *)
(** * The end-to-end application

    Models [src/internal/e2eapp]: [server.go], [handlers_register.go],
    [handlers_login.go], [handlers_session.go], [responses.go] and
    [playwright_compat.go], over the store of [E2eStore].  Handlers are programs
    over the store ([Concurrent]).  The TLS setup and the embedded pages are not
    modelled; what the pages answer is a parameter of the routes. *)
From S2P Require Import Prelude Base64 Sha2 GoStrings AuthData ClientData ExtValue Types Extension ExtHandlers Origin Attestation X509 Standard Cbor Json JsonText JsonRaw Ceremony ExtVerify State Registration Authentication RelyingParty Preset Storage Browser BrowserOptions Transport Concurrent Application HttpServer E2eStore.
Local Open Scope Z_scope.
Local Open Scope prog_scope.
Local Open Scope server_scope.

Module E2eApp.
Import HttpServer E2e Browser.

Definition registrationCookie : string := "e2e_registration".
Definition authenticationCookie : string := "e2e_authentication".
Definition sessionCookie : string := "e2e_session".

(** The CBOR decoder of the application, through its three interfaces. *)
Record decoder := mkDecoder {
  d_AttestationObject : AttestationObjectDecoder;
  d_CredentialPublicKey : COSEKeyDecoder;
  d_ExtensionMap : ExtensionMapDecoder;
}.
Record app := mkApp {
  a_rpID : string;
  a_origin : string;
  a_decoder : decoder;
  a_attesters : attRegistry;
  a_extensions : Registry;
}.

(** *** Request bodies *)
Definition decodeJSON {T} (target : list byte → json → result T) (r : HttpRequest) : result T :=
  body ← of_option NilDereference (q_Body r);
  data ← ReadAllLimited (DefaultMaxBodyBytes + 1) body;
  _ ← fail_if (DefaultMaxBodyBytes <? Z.of_nat (length data)) ErrRequestBodyTooLarge;
  v ← of_option errUnmarshal (Json.parse data);
  target data v.

Record registerOptionsRequest := mkRegisterOptions { ro_Email : string; ro_DisplayName : string; ro_Mode : string }.
Record loginOptionsRequest := mkLoginOptions { lo_Email : string; lo_Mode : string }.
(** The two finish requests have the same fields. *)
Record finishRequest := mkFinishRequest { fr_Email : string; fr_Credential : list byte }.

Definition um_registerOptionsRequest (_ : list byte) (v : json) : result registerOptionsRequest :=
  ms ← um_struct false ["email"; "displayName"; "mode"] (Some v);
  email ← unmarshal_string (get ms "email");
  displayName ← unmarshal_string (get ms "displayName");
  mode ← unmarshal_string (get ms "mode");
  Ok (mkRegisterOptions email displayName mode).
Definition um_loginOptionsRequest (_ : list byte) (v : json) : result loginOptionsRequest :=
  ms ← um_struct false ["email"; "mode"] (Some v);
  email ← unmarshal_string (get ms "email");
  mode ← unmarshal_string (get ms "mode");
  Ok (mkLoginOptions email mode).
Definition um_finishRequest (data : list byte) (v : json) : result finishRequest :=
  ms ← um_struct false ["email"; "credential"] (Some v);
  email ← unmarshal_string (get ms "email");
  Ok (mkFinishRequest email (raw_member data "credential")).

(** *** Responses *)
Record userResponse := mkUserResponse { ur_Email : string }.
Record sessionResponse := mkSessionResponse { sr_Authenticated : bool; sr_User : option userResponse }.
Record authenticationResponse := mkAuthenticationResponse { arp_OK : bool; arp_User : userResponse }.
Record debugCredentialResponse := mkDebugResponse { dr_OK : bool; dr_Email : string; dr_SignCount : Z }.
Record errorResponse := mkErrorResponse { erp_OK : bool; erp_Error : string }.

Definition json_user (u : userResponse) : json := object [("email", Some (jstring (ur_Email u)))].
Definition json_session (x : sessionResponse) : json :=
  object [("authenticated", Some (JBool (sr_Authenticated x))); ("user", json_user <$> sr_User x)].
Definition json_authentication (x : authenticationResponse) : json :=
  object [("ok", Some (JBool (arp_OK x))); ("user", Some (json_user (arp_User x)))].
Definition json_debug (x : debugCredentialResponse) : json :=
  object [("ok", Some (JBool (dr_OK x))); ("email", Some (jstring (dr_Email x))); ("signCount", Some (jint (dr_SignCount x)))].
Definition json_error (x : errorResponse) : json :=
  object [("ok", Some (JBool (erp_OK x))); ("error", Some (jstring (erp_Error x)))].
(** [map[string]bool{"ok": true}] *)
Definition json_ok_true : json := object [("ok", Some (JBool true))].

(** *** Signatures *)
Definition ec2CurveAndHash (algorithm : Z) (curveName : string) : result (curve * hash) :=
  if (algorithm =? AlgorithmES256) && bool_decide (curveName = EC2CurveP256) then Ok (P256, SHA256)
  else if (algorithm =? AlgorithmES384) && bool_decide (curveName = EC2CurveP384) then Ok (P384, SHA384)
  else if (algorithm =? AlgorithmES512) && bool_decide (curveName = EC2CurveP521) then Ok (P521, SHA512)
  else Err (ErrorNew "unsupported EC2 algorithm").

Definition digest (signed : list byte) (h : hash) : list byte :=
  match h with SHA256 => Sum256 signed | SHA384 => Sum384 signed | SHA512 => Sum512 signed end.

Definition VerifySignature {P : Primitives} (publicKey : CredentialPublicKey) (_ : context) (input : SignatureInput) : result () :=
  match mat_EC2 (PublicKeyMaterial publicKey) with
  | Some ec2 =>
      '(c, h) ← ec2CurveAndHash (si_Algorithm input) (ec2_Curve ec2);
      let coordinateLength := curve_bytes c in
      _ ← fail_if (negb (bool_decide (length (ec2_X ec2) = coordinateLength))
                   || negb (bool_decide (length (ec2_Y ec2) = coordinateLength))) (ErrorNew "invalid EC2 coordinate length");
      let encoded := x04 :: ec2_X ec2 ++ ec2_Y ec2 in
      '(x, y) ← of_option (ErrorNew "invalid EC2 coordinates") (Standard.parseUncompressed c encoded);
      fail_if (negb (ecdsa_VerifyASN1 c x y (digest (si_Signed input) h) (slice_list (bv_bytes (si_Signature input)))))
        (ErrorNew "ECDSA signature rejected")
  | None => Err (ErrorNew "unsupported algorithm")
  end.

(** [base64.RawURLEncoding.DecodeString]: trailing bits are not checked. *)
Fixpoint lax_sextets (l : list Z) : option (list byte) :=
  match l with
  | [] => Some []
  | [_] => None
  | [p; q] => Some [byte_of_Z ((p * 262144 + q * 4096) / 65536)]
  | [p; q; r] => let v := p * 262144 + q * 4096 + r * 64 in Some [byte_of_Z (v / 65536); byte_of_Z (v / 256)]
  | p :: q :: r :: s :: rest =>
      let v := p * 262144 + q * 4096 + r * 64 + s in
      tail ← lax_sextets rest;
      Some (byte_of_Z (v / 65536) :: byte_of_Z (v / 256) :: byte_of_Z v :: tail)
  end.
Definition RawURLDecodeString (s : string) : option (list byte) :=
  sextets ← mapM dec_char (List.filter (λ c, negb (is_newline c)) (bytes_of_string s));
  lax_sextets sextets.

(** *** The registration shim

    A map of raw values is the map of their trees; marshalling one writes the
    values compactly in the order the map is iterated. *)
Section Shim.
Context {Ord : MapOrder}.

Definition raw_map (v : json) : result (option (gmap string json)) :=
  match v with
  | JNull => Ok None
  | JObject ms => Ok (Some (list_to_map ((λ m, (string_of_bytes m.1, m.2)) <$> ms)))
  | _ => Err errUnmarshal
  end.
Definition json_raw_map (m : gmap string json) : json := json_map id (range_list m).

(** [json.Unmarshal] of a raw value into a string; a missing value is no text. *)
Definition raw_string (v : option json) : result string :=
  match v with Some v => unmarshal_string (Some v) | None => Err errUnmarshal end.

Definition sameJSONString (left right : option json) : bool :=
  match raw_string left, raw_string right with
  | Ok leftValue, Ok rightValue => bool_decide (leftValue = rightValue)
  | _, _ => false
  end.

Definition normalizePlaywrightRegistrationJSON (data : list byte) (decoder : AttestationObjectDecoder) : result (list byte) :=
  match decoder with
  | NilIface | TypedNil => Err (ErrorNew "attestation object decoder is required")
  | Iface decode =>
      v ← of_option errUnmarshal (Json.parse data);
      root ← raw_map v;
      let root := default ∅ root in
      let missing := ErrorNew "registration response is required" in
      response ← match root !! "response" with
                 | Some r => match raw_map r with Ok (Some m) => Ok m | _ => Err missing end
                 | None => Err missing
                 end;
      if (match response !! "authenticatorData" with
          | Some raw => negb (sameJSONString (Some raw) (response !! "attestationObject"))
          | None => false
          end) then Ok data
      else
        encodedAttestationObject ← match raw_string (response !! "attestationObject") with
          | Ok e => if bool_decide (e = "") then Err (ErrorNew "attestation object is required") else Ok e
          | Err _ => Err (ErrorNew "attestation object is required")
          end;
        rawAttestationObject ← match DecodeString encodedAttestationObject with
          | Some raw => if bool_decide (EncodeToString raw = encodedAttestationObject) then Ok raw
                        else Err (ErrorNew "attestation object encoding is invalid")
          | None => Err (ErrorNew "attestation object encoding is invalid")
          end;
        attestationObject ← NewAttestationObject (Some rawAttestationObject);
        decoded ← decode attestationObject;
        let encodedAuthenticatorData := jstring (EncodeToString (slice_list (bv_bytes (do_AuthenticatorData decoded)))) in
        let response := json_raw_map (<["authenticatorData" := encodedAuthenticatorData]> response) in
        _ ← of_option (ErrorNew "json: cannot marshal") (Marshal response);
        of_option (ErrorNew "json: cannot marshal") (Marshal (json_raw_map (<["response" := response]> root)))
  end.
End Shim.

(** *** Steps of the store, for the log *)
Inductive event :=
| UserKnown (u : user)
| RegistrationSaved (id : string) (state : registrationState)
| RegistrationConsumed (id : string) (state : registrationState)
| AuthenticationSaved (id : string) (state : authenticationState)
| AuthenticationConsumed (id : string) (state : authenticationState)
| Inserted (record : CredentialRecord)
| Updated (u : CredentialUpdate)
| SessionOpened (id : string) (handle : UserHandle)
| SessionClosed (id : string).

Definition handler : Type := prog store event Reply.

Section Server.
Context {Floats : FloatText} {Ord : MapOrder} {Custom : CustomTypes} {CE : CustomEvidence} {Methods : MarshalMethods} {P : Primitives}.

Definition newApp {L : CborLibrary} (host : string) : result (app * store) :=
  decoder ← Cbor.NewDecoder;
  attesters ← NewAttRegistry [Iface Attestation.None.New];
  extensions ← NewLevel3RegistryWithDeprecated;
  Ok (mkApp host ("https://" +:+ host +:+ ":8443")
        (mkDecoder (pointer_iface decoder (Cbor.DecodeAttestationObject decoder))
                   (pointer_iface decoder (Cbor.DecodeCredentialPublicKey decoder))
                   (pointer_iface decoder (Cbor.DecodeExtensionMap decoder)))
        attesters extensions, newStore).

Context (a : app) (w : ResponseWriter).

Definition originPolicy : OriginPolicy := mkOriginPolicy [a_origin a] [] false false.
Definition cookie (name value : string) (maxAge : Z) : Cookie := mkCookie name value "/" maxAge true true SameSiteLaxMode.
Definition clearCookie (name : string) : Cookie := cookie name "" (-1).
Definition writeGenericError (status : Z) (rep : Reply) : Reply :=
  respond (WriteJSON w status (json_error (mkErrorResponse false (StatusText status)))) rep.

Definition setSession (handle : UserHandle) (rep : Reply) : prog store event (result Reply) :=
  r ⇐ logged (createSession handle) (λ r : result string, match r with Ok id => [SessionOpened id handle] | Err _ => [] end);
  Ret (id ← r; Ok (SetCookie (cookie sessionCookie id 3600) rep)).

Definition healthz (_ : HttpRequest) (rep : Reply) : handler := Ret (respond (WriteJSON w StatusOK json_ok_true) rep).

(** *** Registration *)
Definition selection_for (mode : string) : AuthenticatorSelectionCriteria * list string :=
  if bool_decide (mode = "roaming")
  then (mkSelection "cross-platform" "discouraged" false UserVerificationPreferred, ["security-key"])
  else (mkSelection "platform" ResidentKeyRequired true UserVerificationRequired, ["client-device"]).

Definition registration_options (u : user) (mode : string) : RegistrationStartOptions := {|
  rso_RP := mkRPEntity (a_rpID a) "WebAuthn E2E"; rso_User := mkUserEntity (u_Handle u) (u_Email u) (u_DisplayName u);
  rso_OriginPolicy := originPolicy; rso_ConditionalMediation := false; rso_Challenge := mkByteValue None; rso_ChallengeGenerator := NilIface;
  rso_PubKeyCredParams := [mkParameter CredentialTypePublicKey AlgorithmES256]; rso_Timeout := 30 * 1000000000; rso_StateTTL := 0;
  rso_ExcludeCredentials := []; rso_AuthenticatorSelection := Some (selection_for mode).1; rso_Hints := (selection_for mode).2;
  rso_Attestation := AttestationNone; rso_AttestationFormats := []; rso_Extensions := ∅; rso_ExtensionRegistry := None;
  rso_ExtensionInputPolicy := mkInputPolicy false; rso_Now := None |}.

Definition registerOptions (r : HttpRequest) (rep : Reply) : handler :=
  match decodeJSON um_registerOptionsRequest r with
  | Err _ => Ret (writeGenericError StatusBadRequest rep)
  | Ok input =>
      if bool_decide (ro_Email input = "") then Ret (writeGenericError StatusBadRequest rep) else
      u ←! logged (getOrCreateUser (ro_Email input) (ro_DisplayName input))
             (λ u : result user, match u with Ok u => [UserKnown u] | Err _ => [] end) else writeGenericError StatusInternalServerError rep;
      start ←! compute (λ RT, StartRegistration (Some (q_Context r)) (registration_options u (ro_Mode input)))
        else writeGenericError StatusBadRequest rep;
      stateID ←! compute randomToken else writeGenericError StatusInternalServerError rep;
      _ ⇐ logged (λ _ s, (saveRegistrationState stateID (mkRegistration (u_Email u) (rsr_State start)) s, ()))
                 (λ _, [RegistrationSaved stateID (mkRegistration (u_Email u) (rsr_State start))]);
      Ret (respond (WriteCreationOptions w (rsr_Options start))
             (SetCookie (cookie registrationCookie stateID (DefaultChallengeTTL / 1000000000)) rep))
  end.

Definition registration_finish (state : RegistrationState) (response : RegistrationResponse) : RegistrationFinishOptions := {|
  rfo_State := state; rfo_Response := response;
  rfo_AttestationObjectDecoder := d_AttestationObject (a_decoder a); rfo_CredentialPublicKeyDecoder := d_CredentialPublicKey (a_decoder a);
  rfo_ExtensionMapDecoder := d_ExtensionMap (a_decoder a); rfo_AttestationRegistry := a_attesters a;
  rfo_AttestationTrustPolicy := AcceptNone; rfo_ExtensionRegistry := a_extensions a;
  rfo_ExtensionPolicy := mkRegistrationPolicy false false; rfo_Now := None |}.

Definition registerFinish (r : HttpRequest) (rep : Reply) : handler :=
  match decodeJSON um_finishRequest r with
  | Err _ => Ret (writeGenericError StatusBadRequest rep)
  | Ok input =>
      if bool_decide (fr_Email input = "") || bool_decide (length (fr_Credential input) = 0%nat)
      then Ret (writeGenericError StatusBadRequest rep) else
      match RequestCookie r registrationCookie with
      | None => Ret (writeGenericError StatusUnauthorized rep)
      | Some value =>
          found ⇐ logged (λ _, consumeRegistrationState value)
                         (λ found, match found with Some state => [RegistrationConsumed value state] | None => [] end);
          let rep := SetCookie (clearCookie registrationCookie) rep in
          match found with
          | None => Ret (writeGenericError StatusUnauthorized rep)
          | Some state =>
              if negb (bool_decide (rg_Email state = fr_Email input)) then Ret (writeGenericError StatusUnauthorized rep) else
              normalized ←! Ret (normalizePlaywrightRegistrationJSON (fr_Credential input) (d_AttestationObject (a_decoder a)))
                else writeGenericError StatusBadRequest rep;
              response ←! Ret (RegistrationResponseFromJSON normalized) else writeGenericError StatusBadRequest rep;
              result ←! compute (λ RT, FinishRegistration (Some (q_Context r)) (registration_finish (rg_State state) response))
                else writeGenericError StatusUnauthorized rep;
              ok ⇐ logged (insertCredential (rres_Credential result)) (λ ok : bool, if ok then [Inserted (rres_Credential result)] else []);
              if negb ok then Ret (writeGenericError StatusConflict rep) else
              rep ←! setSession (cr_UserHandle (rres_Credential result)) rep else writeGenericError StatusInternalServerError rep;
              Ret (respond (WriteJSON w StatusOK (json_authentication (mkAuthenticationResponse true (mkUserResponse (fr_Email input))))) rep)
          end
      end
  end.

(** *** Login *)
Definition descriptorsFromCredentials (credentials : list CredentialRecord) : list CredentialDescriptor :=
  (λ c, mkDescriptor CredentialTypePublicKey (cr_ID c) (cr_Transports c)) <$> credentials.
Definition userVerificationForMode (mode : string) : string :=
  if bool_decide (mode = "roaming") then UserVerificationPreferred else UserVerificationRequired.

Definition authentication_options (allow : list CredentialDescriptor) (handle : UserHandle) (mode : string) : AuthenticationStartOptions := {|
  aso_RPID := a_rpID a; aso_OriginPolicy := originPolicy; aso_Challenge := mkByteValue None; aso_ChallengeGenerator := NilIface;
  aso_Timeout := 0; aso_StateTTL := 0; aso_AllowCredentials := allow; aso_UserVerification := userVerificationForMode mode;
  aso_Hints := []; aso_Extensions := ∅; aso_ExtensionRegistry := None; aso_ExtensionInputPolicy := mkInputPolicy false;
  aso_ExpectedUserHandle := handle; aso_Now := None |}.

(** The rest of [loginOptions], once the account is known. *)
Definition start_login (r : HttpRequest) (rep : Reply) (email : string) (allow : list CredentialDescriptor) (handle : UserHandle) (mode : string) : handler :=
  start ←! compute (λ RT, StartAuthentication (Some (q_Context r)) (authentication_options allow handle mode))
    else writeGenericError StatusBadRequest rep;
  stateID ←! compute randomToken else writeGenericError StatusInternalServerError rep;
  _ ⇐ logged (λ _ s, (saveAuthenticationState stateID (mkAuthentication email (asr_State start)) s, ()))
             (λ _, [AuthenticationSaved stateID (mkAuthentication email (asr_State start))]);
  Ret (respond (WriteRequestOptions w (asr_Options start))
         (SetCookie (cookie authenticationCookie stateID (DefaultChallengeTTL / 1000000000)) rep)).

Definition loginOptions (r : HttpRequest) (rep : Reply) : handler :=
  match decodeJSON um_loginOptionsRequest r with
  | Err _ => Ret (writeGenericError StatusBadRequest rep)
  | Ok input =>
      if bool_decide (lo_Mode input = "roaming") then
        found ⇐ locked (λ _ s, (s, userByEmail (lo_Email input) s));
        match found with
        | None => Ret (writeGenericError StatusUnauthorized rep)
        | Some u =>
            credentials ⇐ locked (λ _ s, (s, credentialsForUser (u_Handle u) s));
            if bool_decide (length credentials = 0%nat) then Ret (writeGenericError StatusUnauthorized rep)
            else start_login r rep (u_Email u) (descriptorsFromCredentials credentials) (u_Handle u) (lo_Mode input)
        end
      else start_login r rep "" [] (mkByteValue None) (lo_Mode input)
  end.

Definition authentication_finish (state : AuthenticationState) (assertion : AuthenticationResponse) (credential : CredentialRecord) :
    AuthenticationFinishOptions := {|
  afo_State := state; afo_Response := assertion; afo_Credential := credential; afo_ExtensionMapDecoder := d_ExtensionMap (a_decoder a);
  afo_SignatureVerifier := Iface (VerifySignature (cr_PublicKey credential)); afo_AlgorithmPolicy := NilIface;
  afo_ExtensionRegistry := a_extensions a; afo_ExtensionPolicy := mkAuthenticationPolicy false false "";
  afo_CounterPolicy := mkCounterPolicy true false; afo_UVInitializationAuthorized := false; afo_Now := None |}.

Definition loginFinish (r : HttpRequest) (rep : Reply) : handler :=
  match decodeJSON um_finishRequest r with
  | Err _ => Ret (writeGenericError StatusBadRequest rep)
  | Ok input =>
      if bool_decide (length (fr_Credential input) = 0%nat) then Ret (writeGenericError StatusBadRequest rep) else
      match RequestCookie r authenticationCookie with
      | None => Ret (writeGenericError StatusUnauthorized rep)
      | Some value =>
          found ⇐ logged (λ _, consumeAuthenticationState value)
                         (λ found, match found with Some state => [AuthenticationConsumed value state] | None => [] end);
          let rep := SetCookie (clearCookie authenticationCookie) rep in
          match found with
          | None => Ret (writeGenericError StatusUnauthorized rep)
          | Some state =>
              if negb (bool_decide (au_Email state = "")) && negb (bool_decide (au_Email state = fr_Email input))
              then Ret (writeGenericError StatusUnauthorized rep) else
              assertion ←! Ret (AuthenticationResponseFromJSON (fr_Credential input)) else writeGenericError StatusBadRequest rep;
              credential ⇐ locked (λ _ s, (s, credentialByID (slice_list (bv_bytes (ar_RawID assertion))) s));
              match credential with
              | None => Ret (writeGenericError StatusUnauthorized rep)
              | Some credential =>
                  result ←! compute (λ RT, FinishAuthentication (Some (q_Context r)) (authentication_finish (au_State state) assertion credential))
                    else writeGenericError StatusUnauthorized rep;
                  ok ⇐ logged (updateCredential (ares_Update result)) (λ ok : bool, if ok then [Updated (ares_Update result)] else []);
                  if negb ok then Ret (writeGenericError StatusConflict rep) else
                  rep' ←! setSession (ares_AuthenticatedAs result) rep else writeGenericError StatusInternalServerError rep;
                  u ⇐ locked (λ _ s, (s, userByHandle (ares_AuthenticatedAs result) s));
                  match u with
                  | None => Ret (writeGenericError StatusInternalServerError rep')
                  | Some u => Ret (respond (WriteJSON w StatusOK (json_authentication (mkAuthenticationResponse true (mkUserResponse (u_Email u))))) rep')
                  end
              end
          end
      end
  end.

(** *** Sessions *)
Definition me (r : HttpRequest) (rep : Reply) : handler :=
  let anonymous := respond (WriteJSON w StatusOK (json_session (mkSessionResponse false None))) rep in
  match RequestCookie r sessionCookie with
  | None => Ret anonymous
  | Some value =>
      u ⇐ locked (λ _ s, (s, sessionUser value s));
      match u with
      | None => Ret anonymous
      | Some u => Ret (respond (WriteJSON w StatusOK (json_session (mkSessionResponse true (Some (mkUserResponse (u_Email u)))))) rep)
      end
  end.

Definition logout (r : HttpRequest) (rep : Reply) : handler :=
  let out := respond (WriteJSON w StatusOK json_ok_true) (SetCookie (clearCookie sessionCookie) rep) in
  match RequestCookie r sessionCookie with
  | None => Ret out
  | Some value => _ ⇐ logged (λ _ s, (deleteSession value s, ())) (λ _, [SessionClosed value]); Ret out
  end.

Definition credentialIDQuery (r : HttpRequest) : option (list byte) :=
  let id := QueryGet r "id" in
  if bool_decide (id = "") then None else RawURLDecodeString id.

Definition debugCredential (r : HttpRequest) (rep : Reply) : handler :=
  match credentialIDQuery r with
  | None => Ret (writeGenericError StatusBadRequest rep)
  | Some id =>
      credential ⇐ locked (λ _ s, (s, E2e.debugCredential id s));
      match credential with
      | None => Ret (writeGenericError StatusNotFound rep)
      | Some credential =>
          u ⇐ locked (λ _ s, (s, userByHandle (cr_UserHandle credential) s));
          let email := from_option u_Email "" u in
          Ret (respond (WriteJSON w StatusOK (json_debug (mkDebugResponse true email (cr_SignCount credential)))) rep)
      end
  end.

Inductive endpoint := Healthz | RegisterOptions | RegisterFinish | LoginOptions | LoginFinish | Me | Logout | DebugCredential.
Definition endpoints : list ((string * string) * endpoint) :=
  [(("GET", "/healthz"), Healthz); (("POST", "/register/options"), RegisterOptions); (("POST", "/register/finish"), RegisterFinish);
   (("POST", "/login/options"), LoginOptions); (("POST", "/login/finish"), LoginFinish); (("GET", "/me"), Me);
   (("POST", "/logout"), Logout); (("GET", "/debug/credential"), DebugCredential)].
Definition serve (e : endpoint) : HttpRequest → Reply → handler :=
  match e with
  | Healthz => healthz
  | RegisterOptions => registerOptions
  | RegisterFinish => registerFinish
  | LoginOptions => loginOptions
  | LoginFinish => loginFinish
  | Me => me
  | Logout => logout
  | DebugCredential => debugCredential
  end.
(** Everything else is served from the embedded pages. *)
Definition routes (pages : HttpRequest → Response → Response) (r : HttpRequest) : handler :=
  match ServeMux endpoints r with
  | Some e => serve e r no_reply
  | None => Ret (respond (λ x, (pages r x, Ok ())) no_reply)
  end.
End Server.
End E2eApp.

(** ** The registration shim *)
Section ShimLemmas.
Import E2eApp.
Context {Ord : MapOrder}.

(** The entries of an object, by name. *)
Definition entries (v : json) : gmap string json := match raw_map v with Ok (Some m) => m | _ => ∅ end.

Lemma raw_map_json_raw_map (m : gmap string json) : raw_map (json_raw_map m) = Ok (Some m).
Proof.
  unfold raw_map, json_raw_map, json_map. do 2 f_equal. rewrite <-list_fmap_compose.
  rewrite (list_fmap_ext _ id) by (intros i [k x] _; unfold compose; cbn [fst snd id]; by rewrite string_of_bytes_of_string).
  rewrite list_fmap_id. apply map_eq. intros k. apply option_eq. intros x. rewrite <-elem_of_list_to_map.
  - rewrite (range_list_perm m). by rewrite elem_of_map_to_list.
  - rewrite (range_list_perm m). apply NoDup_fst_map_to_list.
Qed.

(** The shim returns the response as it was supplied, when it has an
    [authenticatorData] member that is not a copy of [attestationObject]; or else
    a JSON text that differs from it only in this member, which is then the
    authenticator data inside the decoded attestation object. *)
Theorem shim_exact data decoder out : normalizePlaywrightRegistrationJSON data decoder = Ok out →
  ∃ decode root response, decoder = Iface decode ∧ Json.parse data = Some root ∧ entries root !! "response" = Some response ∧
    ((out = data ∧ ∃ x, entries response !! "authenticatorData" = Some x ∧
        sameJSONString (Some x) (entries response !! "attestationObject") = false) ∨
     (∃ object decoded root' response',
        entries response !! "attestationObject" = Some (jstring (EncodeToString object)) ∧
        decode (mkByteValue (Some object)) = Ok decoded ∧
        Json.parse out = Some root' ∧ entries root' = <["response" := response']> (entries root) ∧
        entries response' = <["authenticatorData" := jstring (EncodeToString (slice_list (bv_value (do_AuthenticatorData decoded))))]>
          (entries response))).
Proof.
  unfold normalizePlaywrightRegistrationJSON. destruct decoder as [| |decode]; [done..|]. intros H.
  apply bind_Ok in H as (v & Hv%of_option_Ok & H). apply bind_Ok in H as (root & Hroot & H). cbv zeta in H.
  apply bind_Ok in H as (m & Hm & H). assert (entries v = default ∅ root) as He by (unfold entries; by rewrite Hroot; destruct root).
  destruct (default ∅ root !! "response") as [rv|] eqn:Hrv; [|done].
  destruct (raw_map rv) as [[m'|]|] eqn:Hrm; try done. injection Hm as ->.
  assert (entries rv = m) as Hem by (unfold entries; by rewrite Hrm).
  exists decode, v, rv. split_and!; [done|done|by rewrite He|]. rewrite Hem.
  destruct (match m !! "authenticatorData" with Some _ => _ | None => _ end) eqn:Hkeep.
  { left. injection H as <-. split; [done|]. destruct (m !! "authenticatorData") as [x|]; [|done]. exists x. by apply negb_true_iff in Hkeep. }
  right. apply bind_Ok in H as (enc & Henc & H). apply bind_Ok in H as (raw & Hraw & H).
  apply bind_Ok in H as (obj & Hobj & H). apply bind_Ok in H as (decoded & Hdec & H). apply bind_Ok in H as (_ & _ & H%of_option_Ok).
  destruct (m !! "attestationObject") as [ao|]; [|done]. unfold raw_string in Henc.
  destruct (unmarshal_string (Some ao)) as [e|] eqn:Hao; [|done]. case_bool_decide as Hne; [done|]. injection Henc as ->.
  destruct (DecodeString enc) as [raw'|]; [|done]. case_bool_decide as Hc; [|done]. injection Hraw as ->.
  apply newByteValue_Ok in Hobj as [-> _].
  eexists raw, decoded, _, _. split_and!; [|done|by apply parse_print in H| |].
  - destruct ao as [| | |t| |]; try done; cbn in Hao; injection Hao as <-; [done|]. rewrite Hc. unfold jstring. by rewrite bytes_of_string_of_bytes.
  - unfold entries at 1. rewrite raw_map_json_raw_map, He. reflexivity.
  - unfold entries. by rewrite raw_map_json_raw_map.
Qed.
End ShimLemmas.

(** ** What the application promises *)
Section Promises.
Import HttpServer E2e Browser E2eApp.
Context {Floats : FloatText} {Ord : MapOrder} {Custom : CustomTypes} {CE : CustomEvidence} {Methods : MarshalMethods} {P : Primitives}.
Context (a : app) (w : ResponseWriter) (pages : HttpRequest → Response → Response).

Abbreviation pending_registration := (pending RegistrationSaved RegistrationConsumed).
Abbreviation pending_authentication := (pending AuthenticationSaved AuthenticationConsumed).

(** A response the library verified with the options of the application. *)
Definition e2e_registered (state : RegistrationState) (response : RegistrationResponse) (result : RegistrationResult) : Prop :=
  ∃ (RT : Runtime) ctx, FinishRegistration (Some ctx) (registration_finish a state response) = Ok result.
Definition e2e_verified (state : AuthenticationState) (response : AuthenticationResponse) (record : CredentialRecord)
    (result : AuthenticationResult) : Prop :=
  ∃ (RT : Runtime) ctx, FinishAuthentication (Some ctx) (authentication_finish a state response record) = Ok result.

(** States the application started: a registration for a user it knows, a login
    for a user or for whoever holds a discoverable credential. *)
Definition e2e_registration_started (h : list event) (st : registrationState) : Prop := ∃ (RT : Runtime) ctx u mode start,
  UserKnown u ∈ h ∧ StartRegistration (Some ctx) (registration_options a u mode) = Ok start ∧ st = mkRegistration (u_Email u) (rsr_State start).
Definition e2e_authentication_started (st : authenticationState) : Prop := ∃ (RT : Runtime) ctx allow handle mode start,
  StartAuthentication (Some ctx) (authentication_options a allow handle mode) = Ok start ∧ au_State st = asr_State start.

Definition enrolled (h : list event) (handle : UserHandle) : Prop := ∃ r, Inserted r ∈ h ∧ cr_UserHandle r = handle.

(** What entitles to a session for a user handle. *)
Definition session_earned (h : list event) (handle : UserHandle) : Prop :=
  (∃ id st response result, e2e_registered (rg_State st) response result ∧ handle = cr_UserHandle (rres_Credential result) ∧
     [RegistrationConsumed id st; Inserted (rres_Credential result)] `sublist_of` h) ∨
  (∃ id st response record result, e2e_verified (au_State st) response record result ∧ handle = ares_AuthenticatedAs result ∧
     enrolled h handle ∧ [AuthenticationConsumed id st; Updated (ares_Update result)] `sublist_of` h).

Definition e2e_justified (h : list event) (e : event) : Prop :=
  match e with
  | UserKnown _ | SessionClosed _ => True
  | RegistrationSaved _ st => e2e_registration_started h st
  | RegistrationConsumed id st => pending_registration id st h
  | AuthenticationSaved _ st => e2e_authentication_started st
  | AuthenticationConsumed id st => pending_authentication id st h
  | Inserted record => ∃ id st response result,
      RegistrationConsumed id st ∈ h ∧ e2e_registered (rg_State st) response result ∧ record = rres_Credential result
  | Updated u => ∃ id st response record result,
      AuthenticationConsumed id st ∈ h ∧ e2e_verified (au_State st) response record result ∧ u = ares_Update result
  | SessionOpened _ handle => session_earned h handle
  end.

(** What never changes of a stored credential. *)
Definition same_origin (r r' : CredentialRecord) : Prop :=
  id_of r = id_of r' ∧ cr_UserHandle r = cr_UserHandle r' ∧ cr_BackupEligible r = cr_BackupEligible r'.
Definition stored_from (h : list event) (r : CredentialRecord) : Prop := ∃ r', Inserted r' ∈ h ∧ same_origin r' r.

Definition handle_known (s : store) (handle : UserHandle) : Prop :=
  ∃ u, usersByHandle s !! handleKey handle = Some u ∧ handleKey (u_Handle u) = handleKey handle.
Record e2e_invariant (s : store) (h : list event) : Prop := {
  ei_registrations : table_logged RegistrationSaved RegistrationConsumed (registrationStates s) h;
  ei_authentications : table_logged AuthenticationSaved AuthenticationConsumed (authenticationStates s) h;
  ei_indexed : indexed s;
  ei_records : ∀ r, r ∈ records s → record_valid r ∧ stored_from h r;
  ei_inserted : ∀ r', Inserted r' ∈ h → ∃ r, r ∈ records s ∧ same_origin r' r;
  ei_emails : ∀ email u, usersByEmail s !! email = Some u → u_Email u = email ∧ handle_known s (u_Handle u);
  ei_users : ∀ u, UserKnown u ∈ h → handle_known s (u_Handle u);
  ei_sessions : ∀ id k, sessions s !! id = Some k → ∃ handle, SessionOpened id handle ∈ h ∧ k = handleKey handle;
  ei_history : justified_history e2e_justified h;
}.
Abbreviation e2e_wp := (wp e2e_invariant extends).

(** *** The sections keep the invariant *)
Lemma enrolled_later h h' handle : h ⊆ h' → enrolled h handle → enrolled h' handle.
Proof. intros Hs (r & Hr & ?). exists r. auto. Qed.
Lemma stored_later h e r : stored_from h r → stored_from (h ++ [e]) r.
Proof. intros (r' & Hr & ?). exists r'. split; [apply elem_of_app; by left|done]. Qed.
Lemma stored_enrolled h r : stored_from h r → enrolled h (cr_UserHandle r).
Proof. intros (r' & Hr & _ & ? & _). by exists r'. Qed.

(** The indexes only depend on the records and the two maps. *)
Lemma indexed_same s s' : indexed s → heap s' = heap s → credentialsByID s' = credentialsByID s →
  credentialsByUserHandle s' = credentialsByUserHandle s → indexed s'.
Proof. intros [H1 H2] E1 E2 E3. constructor; unfold records in *; by rewrite E1, ?E2, ?E3. Qed.

(** Replacing the credentials of the store and logging an event that neither
    consumes a state nor makes a user known. *)
Lemma log_credentials s h e hp i u : e2e_invariant s h → e2e_justified h e →
  (∀ id x, e ≠ RegistrationConsumed id x) → (∀ id x, e ≠ AuthenticationConsumed id x) → (∀ u, e ≠ UserKnown u) →
  let s' := with_credentials hp i u s in indexed s' →
  (∀ r, r ∈ records s' → record_valid r ∧ stored_from (h ++ [e]) r) →
  (∀ r', Inserted r' ∈ h ++ [e] → ∃ r, r ∈ records s' ∧ same_origin r' r) → e2e_invariant s' (h ++ [e]).
Proof.
  intros [Ir Ia Ii Ic Io Ie Iu Is Ih] Hj H1 H2 H3 s' Hi Hr Ho.
  constructor; [by apply table_event|by apply table_event|done|done|done|done| | |by apply justified_snoc].
  - intros x [Hu|Hu%list_elem_of_singleton]%elem_of_app; [by apply Iu|by destruct (H3 x)].
  - intros id k (handle & Hs & ->)%Is. exists handle. split; [apply elem_of_app; by left|done].
Qed.

Lemma log_event s h e : e2e_invariant s h → e2e_justified h e →
  (∀ id x, e ≠ RegistrationConsumed id x) → (∀ id x, e ≠ AuthenticationConsumed id x) → (∀ u, e ≠ UserKnown u) → (∀ r, e ≠ Inserted r) →
  e2e_invariant s (h ++ [e]).
Proof.
  intros Hi Hj H1 H2 H3 H4.
  pose proof (log_credentials s h e (heap s) (credentialsByID s) (credentialsByUserHandle s) Hi Hj H1 H2 H3) as H.
  assert (with_credentials (heap s) (credentialsByID s) (credentialsByUserHandle s) s = s) as E by (by destruct s). cbv zeta in H. rewrite E in H.
  apply H; [apply (ei_indexed _ _ Hi)| |].
  - intros r [Hv He]%(ei_records _ _ Hi). split; [done|]. by apply stored_later.
  - intros r' [Hr|Hr%list_elem_of_singleton]%elem_of_app; [by apply (ei_inserted _ _ Hi)|by destruct (H4 r')].
Qed.

Lemma known_insert s handle u e m : handle_known s handle → usersByHandle s = m → handleKey (u_Handle u) = e →
  ∃ v, <[e := u]> m !! handleKey handle = Some v ∧ handleKey (u_Handle v) = handleKey handle.
Proof.
  intros (v & Hv & Hk) <- <-. destruct (decide (handleKey (u_Handle u) = handleKey handle)) as [E|Hne].
  - exists u. rewrite E, lookup_insert_eq. done.
  - exists v. by rewrite lookup_insert_ne.
Qed.

Lemma getOrCreateUser_keeps email name rt s s' r h : getOrCreateUser email name rt s = (s', r) → e2e_invariant s h →
  e2e_invariant s' (h ++ match r with Ok u => [UserKnown u] | Err _ => [] end).
Proof.
  unfold getOrCreateUser. intros H Hi.
  assert (Hlog : ∀ u s1, handle_known s1 (u_Handle u) → registrationStates s1 = registrationStates s → authenticationStates s1 = authenticationStates s →
    heap s1 = heap s → credentialsByID s1 = credentialsByID s → credentialsByUserHandle s1 = credentialsByUserHandle s → sessions s1 = sessions s →
    (∀ x, handle_known s x → handle_known s1 x) → (∀ email u, usersByEmail s1 !! email = Some u → u_Email u = email ∧ handle_known s1 (u_Handle u)) →
    e2e_invariant s1 (h ++ [UserKnown u])).
  { intros u s1 Hk E1 E2 E3 E4 E5 E6 Hm He. destruct Hi as [Ir Ia Ii Ic Io Ie Iu Is Ih].
    assert (h ⊆ h ++ [UserKnown u]) as Hsub by (intros x Hx; apply elem_of_app; by left).
    constructor; rewrite ?E1, ?E2; [by apply table_event|by apply table_event| | | |done| | |by apply justified_snoc].
    - by eapply indexed_same.
    - intros x Hx. unfold records in Hx. rewrite E3 in Hx. destruct (Ic x Hx) as [Hv Hen]. split; [done|]. by apply stored_later.
    - intros r' [Hx|[=]%list_elem_of_singleton]%elem_of_app. unfold records in *. rewrite E3. by apply Io.
    - intros x [Hx|Hx%list_elem_of_singleton]%elem_of_app; [by apply Hm, Iu|by injection Hx as ->].
    - intros id k. rewrite E6. intros (handle & Hs & ->)%Is. exists handle. auto. }
  destruct (usersByEmail s !! email) as [u|] eqn:Hu.
  - injection H as <- <-. apply Hlog; try done; [|apply (ei_emails _ _ Hi)]. by eapply (ei_emails _ _ Hi).
  - destruct (_ ≫= _) as [handle|e]; injection H as <- <-; [|by rewrite app_nil_r].
    assert (Hnew : ∀ x, handle_known s x → handle_known (with_users (<[email := mkUser handle email (if bool_decide (name = "") then email else name) time_Now]> (usersByEmail s))
       (<[handleKey handle := mkUser handle email (if bool_decide (name = "") then email else name) time_Now]> (usersByHandle s)) s) x)
      by (intros x Hx; by apply (known_insert s)).
    apply Hlog; try done.
    + eexists. split; [apply lookup_insert_eq|done].
    + intros e u. cbn [usersByEmail with_users]. rewrite lookup_insert_Some. intros [[<- <-]|[_ He]].
      * split; [done|]. eexists. split; [apply lookup_insert_eq|done].
      * destruct (ei_emails _ _ Hi _ _ He) as [? ?]. split; [done|]. by apply Hnew.
Qed.

Lemma e2e_saveRegistration_keeps id st s h : e2e_invariant s h → e2e_registration_started h st →
  e2e_invariant (saveRegistrationState id st s) (h ++ [RegistrationSaved id st]).
Proof.
  intros Hi Hj. destruct (log_event _ _ (RegistrationSaved id st) Hi Hj) as [_ Ia Ii Ic Io Ie Iu Is Ih]; [done..|].
  constructor; try done; [|by eapply indexed_same]. by apply table_saved, (ei_registrations _ _ Hi).
Qed.
Lemma e2e_saveAuthentication_keeps id st s h : e2e_invariant s h → e2e_authentication_started st →
  e2e_invariant (saveAuthenticationState id st s) (h ++ [AuthenticationSaved id st]).
Proof.
  intros Hi Hj. destruct (log_event _ _ (AuthenticationSaved id st) Hi Hj) as [Ir _ Ii Ic Io Ie Iu Is Ih]; [done..|].
  constructor; try done; [|by eapply indexed_same]. by apply table_saved, (ei_authentications _ _ Hi).
Qed.
Lemma e2e_consumeRegistration_keeps id s s' found h : consumeRegistrationState id s = (s', found) → e2e_invariant s h →
  e2e_invariant s' (h ++ match found with Some st => [RegistrationConsumed id st] | None => [] end).
Proof.
  unfold consumeRegistrationState. intros H [Ir Ia Ii Ic Io Ie Iu Is Ih].
  destruct (registrationStates s !! id) as [st|] eqn:E; injection H as <- <-; [|by rewrite app_nil_r].
  assert (h ⊆ h ++ [RegistrationConsumed id st]) as Hsub by (intros x Hx; apply elem_of_app; by left).
  constructor; cbn [registrationStates authenticationStates usersByEmail sessions with_registrationStates]; [..|apply justified_snoc; [done|]].
  - apply table_consumed; [by intros ???? [= ->]|done].
  - by apply table_event.
  - by eapply indexed_same.
  - intros r [Hv He]%Ic. split; [done|]. by apply stored_later.
  - intros r' [Hr|[=]%list_elem_of_singleton]%elem_of_app. by apply Io.
  - done.
  - intros u [Hu|[=]%list_elem_of_singleton]%elem_of_app. by apply Iu.
  - intros i k (handle & Hs & ->)%Is. exists handle. auto.
  - by apply Ir.
Qed.
Lemma e2e_consumeAuthentication_keeps id s s' found h : consumeAuthenticationState id s = (s', found) → e2e_invariant s h →
  e2e_invariant s' (h ++ match found with Some st => [AuthenticationConsumed id st] | None => [] end).
Proof.
  unfold consumeAuthenticationState. intros H [Ir Ia Ii Ic Io Ie Iu Is Ih].
  destruct (authenticationStates s !! id) as [st|] eqn:E; injection H as <- <-; [|by rewrite app_nil_r].
  assert (h ⊆ h ++ [AuthenticationConsumed id st]) as Hsub by (intros x Hx; apply elem_of_app; by left).
  constructor; cbn [registrationStates authenticationStates usersByEmail sessions with_authenticationStates]; [..|apply justified_snoc; [done|]].
  - by apply table_event.
  - apply table_consumed; [by intros ???? [= ->]|done].
  - by eapply indexed_same.
  - intros r [Hv He]%Ic. split; [done|]. by apply stored_later.
  - intros r' [Hr|[=]%list_elem_of_singleton]%elem_of_app. by apply Io.
  - done.
  - intros u [Hu|[=]%list_elem_of_singleton]%elem_of_app. by apply Iu.
  - intros i k (handle & Hs & ->)%Is. exists handle. auto.
  - by apply Ia.
Qed.

Lemma insertCredential_keeps record rt s s' ok h : insertCredential record rt s = (s', ok) → e2e_invariant s h →
  e2e_justified h (Inserted record) → e2e_invariant s' (h ++ if ok then [Inserted record] else []).
Proof.
  intros H Hi Hj. pose proof H as (Hx & _ & Hrec)%insertCredential_record; [|apply (ei_indexed _ _ Hi)].
  unfold insertCredential in H. cbv zeta in H. destruct (bool_decide _); injection H as <- <-; [by rewrite app_nil_r|].
  apply log_credentials; [done..| |].
  - intros r Hr. rewrite Hrec in Hr. apply elem_of_app in Hr as [Hr|Hr%list_elem_of_singleton].
    + destruct (ei_records _ _ Hi _ Hr) as [Hv He]. split; [done|]. by apply stored_later.
    + subst r. split; [|exists record; by split; [apply elem_of_snoc|]].
      destruct Hj as (id & st & response & result & _ & (RT & ctx & Hfin) & ->). apply FinishRegistration_sound in Hfin.
      by apply (registration_verified_record _ _ _ Hfin).
  - intros r' [Hr|[= ->]%list_elem_of_singleton]%elem_of_app; rewrite Hrec.
    + destruct (ei_inserted _ _ Hi _ Hr) as (r & Hr' & ?). exists r. split; [apply elem_of_app; by left|done].
    + exists record. by split; [apply elem_of_snoc|].
Qed.

(** The stored record with a given ID is the one the ID was inserted with, up to
    its mutable part. *)
Lemma stored_unique s h r r' : e2e_invariant s h → r ∈ records s → stored_from h r' → id_of r = id_of r' → same_origin r r'.
Proof.
  intros Hi Hr (r0 & Hin & Hk0 & Hu0 & Hb0) Hk. destruct (ei_inserted _ _ Hi _ Hin) as (r1 & Hr1 & Hk1 & Hu1 & Hb1).
  apply list_elem_of_lookup_1 in Hr as (p & Hp). apply list_elem_of_lookup_1 in Hr1 as (q & Hq).
  assert (p = q) as -> by (eapply indexed_unique; [apply (ei_indexed _ _ Hi)|done|done|congruence]).
  assert (r = r1) as -> by congruence. unfold same_origin. split_and!; congruence.
Qed.

Lemma updateCredential_keeps u rt s s' ok h : updateCredential u rt s = (s', ok) → e2e_invariant s h →
  e2e_justified h (Updated u) →
  (∀ r, r ∈ records s → update_matches u r → record_valid (write_update u r)) →
  e2e_invariant s' (h ++ if ok then [Updated u] else []).
Proof.
  intros H Hi Hj Hval. pose proof H as (Hx & Hok & Hrec)%updateCredential_record; [|apply (ei_indexed _ _ Hi)].
  unfold updateCredential in H. destruct (_ ≫= _) as [[p c]|] eqn:Hc; [|injection H as <- <-; by rewrite app_nil_r].
  destruct (_ || _); injection H as <- <-; [by rewrite app_nil_r|].
  apply log_credentials; [done..| |]; rewrite Hrec.
  - intros r (r0 & -> & Hr0)%list_elem_of_fmap. destruct (ei_records _ _ Hi _ Hr0) as [Hv He]. apply (stored_later _ (Updated u)) in He.
    destruct (bool_decide (id_of r0 = _)) eqn:Hid; [|done]. apply bool_decide_eq_true in Hid. split; [|done]. apply Hval; [done|].
    destruct (find_record _ (records s)) as [r1|] eqn:Hf; [|done]. symmetry in Hok. apply bool_decide_eq_true in Hok.
    pose proof Hf as (q & Hq & Hr1)%find_record_Some; [|apply (ei_indexed _ _ Hi)].
    apply (ix_id _ (ei_indexed _ _ Hi)) in Hq as (r2 & Hr2 & Hid2). assert (r2 = r1) as -> by congruence.
    apply list_elem_of_lookup_1 in Hr0 as (q0 & Hq0).
    assert (q0 = q) as -> by (eapply indexed_unique; [apply (ei_indexed _ _ Hi)|done|done|congruence]). congruence.
  - intros r' [Hr|[=]%list_elem_of_singleton]%elem_of_app. destruct (ei_inserted _ _ Hi _ Hr) as (r & Hr' & Ho).
    eexists. split; [apply list_elem_of_fmap; by exists r|]. by destruct (bool_decide _).
Qed.

Lemma createSession_keeps handle rt s s' r h : createSession handle rt s = (s', r) → e2e_invariant s h → session_earned h handle →
  e2e_invariant s' (h ++ match r with Ok id => [SessionOpened id handle] | Err _ => [] end).
Proof.
  unfold createSession. intros H Hi Hj. destruct (randomToken rt) as [id|e]; injection H as <- <-; [|by rewrite app_nil_r].
  destruct (log_event _ _ (SessionOpened id handle) Hi Hj) as [Ir Ia Ii Ic Io Ie Iu Is Ih]; [done..|].
  constructor; try done; [by eapply indexed_same|]. intros i k. cbn [sessions with_sessions]. rewrite lookup_insert_Some.
  intros [[<- <-]|[_ Hs]]; [|by apply Is]. exists handle. split; [apply elem_of_snoc|done].
Qed.
Lemma deleteSession_keeps id s h : e2e_invariant s h → e2e_invariant (deleteSession id s) (h ++ [SessionClosed id]).
Proof.
  intros Hi. destruct (log_event _ _ (SessionClosed id) Hi I) as [Ir Ia Ii Ic Io Ie Iu Is Ih]; [done..|].
  constructor; try done; [by eapply indexed_same|]. intros i k. cbn [sessions with_sessions deleteSession]. rewrite lookup_delete_Some.
  intros [_ Hs]. by apply Is.
Qed.
(** *** Handlers *)

(** A reply sets a session cookie only for a session that was opened. *)
Definition sets_opened (rep : Reply) (s : store) (h : list event) : Prop :=
  ∀ c, c ∈ rep_Cookies rep → ck_Name c = sessionCookie → ck_Value c ≠ "" → ∃ handle, SessionOpened (ck_Value c) handle ∈ h.
Definition clean (rep : Reply) : Prop := ∀ c, c ∈ rep_Cookies rep → ck_Name c = sessionCookie → ck_Value c = "".

Lemma clean_sets rep s h : clean rep → sets_opened rep s h.
Proof. intros Hc c Hin Hn Hv. by destruct (Hv (Hc c Hin Hn)). Qed.
Lemma clean_same rep : clean rep → ∀ rep' s h, rep_Cookies rep' = rep_Cookies rep → sets_opened rep' s h.
Proof. intros Hc rep' s h E c Hin Hn Hv. rewrite E in Hin. by destruct (Hv (Hc c Hin Hn)). Qed.
Lemma clean_cookie c rep : clean rep → (ck_Name c = sessionCookie → ck_Value c = "") → clean (SetCookie c rep).
Proof.
  intros Hr Hc x. unfold SetCookie. destruct (unsent rep); [|by apply Hr]. cbn. rewrite elem_of_app, list_elem_of_singleton.
  intros [Hx| ->]; [by apply Hr|done].
Qed.
Lemma sets_session id handle rep s h : clean rep → SessionOpened id handle ∈ h → sets_opened (SetCookie (cookie sessionCookie id 3600) rep) s h.
Proof.
  intros Hr Hs c. unfold SetCookie. destruct (unsent rep); [|exact (clean_sets rep s h Hr c)]. cbn. rewrite elem_of_app, list_elem_of_singleton.
  intros [Hc| ->]; [by apply (clean_sets rep s h Hr c)|]. by exists handle.
Qed.
Lemma sets_prefix rep s s' h h' : h `prefix_of` h' → sets_opened rep s h → sets_opened rep s' h'.
Proof. intros Hp Hr c Hc Hn Hv. destruct (Hr c Hc Hn Hv) as [x Hx]. exists x. by eapply prefix_subseteq. Qed.

Lemma earned_prefix h h' handle : h `prefix_of` h' → session_earned h handle → session_earned h' handle.
Proof.
  intros Hp [(id & st & response & result & ? & ? & Hs)|(id & st & response & record & result & ? & ? & He & Hs)]; [left|right].
  - exists id, st, response, result. eauto using sublist_prefix.
  - exists id, st, response, record, result. split_and!; [done..| |by eapply sublist_prefix].
    eapply enrolled_later; [by apply prefix_subseteq|done].
Qed.

Lemma wp_setSession handle rep (Q : result Reply → store → list event → Prop) s h : clean rep → session_earned h handle →
  (∀ rep' s1 h1, h `prefix_of` h1 → sets_opened rep' s1 h1 → Q (Ok rep') s1 h1) → (∀ e s1 h1, Q (Err e) s1 h1) →
  e2e_wp (setSession handle rep) Q s h.
Proof.
  intros Hrep He HQ HE. apply wp_bind, wp_section.
  - intros s1 h1 rt s2 r Hp Hi Hs. eapply createSession_keeps; [done|done|]. by eapply earned_prefix.
  - intros s1 h1 [id|e] Hp _; [|by apply HE]. apply HQ; [by apply prefix_snoc|]. eapply (sets_session id handle); [done|]. apply elem_of_snoc.
Qed.

Lemma wp_registerOptions r rep s h : clean rep → e2e_wp (registerOptions a w r rep) sets_opened s h.
Proof.
  intros Hrep. pose proof (clean_same rep Hrep) as Hr.
  unfold registerOptions. destruct (decodeJSON _ r) as [input|e]; [|by apply Hr]. destruct (bool_decide _); [by apply Hr|].
  apply wp_or_reply, wp_section; [intros s1 h1 rt s2 u _ Hi Hs; by eapply getOrCreateUser_keeps|].
  intros s1 h1 [u|e] _ _; [|by apply Hr]. apply wp_computed_or; [|intros; by apply Hr]. intros RT start s2 h2 Hp2 _ Hstart.
  apply wp_computed_or; [|intros; by apply Hr]. intros RT' id s3 h3 Hp3 _ _. apply wp_bind, wp_section.
  - intros s4 h4 rt s5 b Hp4 Hi [= <- <-]. apply e2e_saveRegistration_keeps; [done|]. exists RT, (q_Context r), u, (ro_Mode input), start.
    split_and!; [|done|done]. apply (prefix_subseteq (h1 ++ [UserKnown u])); [by do 2 (etrans; [done|])|apply elem_of_snoc].
  - intros s4 h4 [] _ _. eapply clean_same; [|done]. by apply clean_cookie.
Qed.

Lemma wp_start_login r rep email allow handle mode s h : clean rep →
  e2e_wp (start_login a w r rep email allow handle mode) sets_opened s h.
Proof.
  intros Hrep. pose proof (clean_same rep Hrep) as Hr.
  apply wp_computed_or; [|intros; by apply Hr]. intros RT start s2 h2 _ _ Hstart.
  apply wp_computed_or; [|intros; by apply Hr]. intros RT' id s3 h3 _ _ _. apply wp_bind, wp_section.
  - intros s4 h4 rt s5 b _ Hi [= <- <-]. apply e2e_saveAuthentication_keeps; [done|].
    by exists RT, (q_Context r), allow, handle, mode, start.
  - intros s4 h4 [] _ _. eapply clean_same; [|done]. by apply clean_cookie.
Qed.
Lemma wp_loginOptions r rep s h : clean rep → e2e_wp (loginOptions a w r rep) sets_opened s h.
Proof.
  intros Hrep. pose proof (clean_same rep Hrep) as Hr.
  unfold loginOptions. destruct (decodeJSON _ r) as [input|e]; [|by apply Hr]. destruct (bool_decide _); [|by apply wp_start_login].
  apply wp_bind, wp_read. intros s1 h1 _ _. destruct (userByEmail _ s1) as [u|]; [|by apply Hr].
  apply wp_bind, wp_read. intros s2 h2 _ _. destruct (bool_decide _); [by apply Hr|by apply wp_start_login].
Qed.

Lemma wp_registerFinish r rep s h : clean rep → e2e_wp (registerFinish a w r rep) sets_opened s h.
Proof.
  intros Hrep. pose proof (clean_same rep Hrep) as Hr.
  unfold registerFinish. destruct (decodeJSON _ r) as [input|e]; [|by apply Hr]. destruct (_ || _); [by apply Hr|].
  destruct (RequestCookie r _) as [value|]; [|by apply Hr].
  apply wp_bind, wp_section; [intros s1 h1 rt s2 b _ Hi Hs; by eapply e2e_consumeRegistration_keeps|]. cbv zeta.
  assert (clean (SetCookie (clearCookie registrationCookie) rep)) as Hclean by (by apply clean_cookie).
  clear Hr Hrep. revert Hclean. generalize (SetCookie (clearCookie registrationCookie) rep). clear rep. intros rep Hrep.
  pose proof (clean_same rep Hrep) as Hr.
  intros s1 h1 [st|] Hp1 _; [|by apply Hr]. destruct (negb _); [by apply Hr|]. apply wp_or_reply.
  destruct (normalizePlaywrightRegistrationJSON _ _) as [normalized|]; [|by apply Hr]. apply wp_or_reply.
  destruct (RegistrationResponseFromJSON normalized) as [response|]; [|by apply Hr].
  apply wp_computed_or; [|intros; by apply Hr]. intros RT result s2 h2 Hp2 _ Hfin.
  assert (e2e_registered (rg_State st) response result) as Hreg by (by exists RT, (q_Context r)).
  assert ([RegistrationConsumed value st] `sublist_of` h2) as Hcons by (eapply sublist_prefix; [apply sublist_one, elem_of_snoc|done]).
  apply wp_bind, wp_section.
  - intros s3 h3 rt s4 ok Hp3 Hi Hs. eapply insertCredential_keeps; [done|done|]. exists value, st, response, result.
    split_and!; [|done|done]. apply (prefix_subseteq h2); [done|]. apply (sublist_subseteq _ _ Hcons). by left.
  - intros s3 h3 [] Hp3 _; [|by apply Hr]. cbn [negb]. apply wp_or_reply, wp_setSession; [done| | |intros; by apply Hr].
    + left. exists value, st, response, result. split_and!; [done|done|]. by apply (sublist_snoc [_] h2).
    + intros rep' s4 h4 _ H. exact H.
Qed.

(** The update of an assertion verified against a record that was read from the
    store keeps the stored record valid. *)
Lemma verified_update_valid s h st response credential result r : e2e_invariant s h → stored_from h credential →
  e2e_verified st response credential result → r ∈ records s → update_matches (ares_Update result) r →
  record_valid (write_update (ares_Update result) r).
Proof.
  intros Hi Hst (RT & ctx & Hfin%FinishAuthentication_sound) Hr Hm. destruct (ei_records _ _ Hi _ Hr) as [Hv _].
  assert (id_of r = id_of credential) as Hid.
  { unfold id_of, bv_bytes. destruct Hm as [-> _]. by destruct (verified_update _ _ _ Hfin) as [-> _]. }
  destruct (stored_unique _ _ _ _ Hi Hr Hst Hid) as (_ & _ & Hb).
  pose proof (write_update_applied _ _ _ _ Hfin Hv Hb Hm) as Ha. unfold ApplyTo in Ha.
  apply bind_Ok in Ha as ([] & _ & Ha). apply bind_Ok in Ha as ([] & _ & Ha). cbv zeta in Ha.
  apply bind_Ok in Ha as ([] & Hval%wrap_err_Ok & Ha). apply Ok_inj in Ha. rewrite <-Ha. by apply CredentialRecord_Validate_Ok in Hval.
Qed.

Lemma wp_loginFinish r rep s h : clean rep → e2e_wp (loginFinish a w r rep) sets_opened s h.
Proof.
  intros Hrep. pose proof (clean_same rep Hrep) as Hr.
  unfold loginFinish. destruct (decodeJSON _ r) as [input|e]; [|by apply Hr]. destruct (bool_decide _); [by apply Hr|].
  destruct (RequestCookie r _) as [value|]; [|by apply Hr].
  apply wp_bind, wp_section; [intros s1 h1 rt s2 b _ Hi Hs; by eapply e2e_consumeAuthentication_keeps|]. cbv zeta.
  assert (clean (SetCookie (clearCookie authenticationCookie) rep)) as Hclean by (by apply clean_cookie).
  clear Hr Hrep. revert Hclean. generalize (SetCookie (clearCookie authenticationCookie) rep). clear rep. intros rep Hrep.
  pose proof (clean_same rep Hrep) as Hr.
  intros s1 h1 [st|] Hp1 _; [|by apply Hr]. destruct (_ && _); [by apply Hr|]. apply wp_or_reply.
  destruct (AuthenticationResponseFromJSON _) as [assertion|]; [|by apply Hr].
  apply wp_bind, wp_read. intros s2 h2 Hp2 Hi2. destruct (credentialByID _ s2) as [credential|] eqn:Hc; [|by apply Hr].
  assert (stored_from h2 credential) as Hst.
  { rewrite (credentialByID_record _ _ (ei_indexed _ _ Hi2)) in Hc. apply find_some in Hc as [Hc%list_elem_of_In _].
    by apply (ei_records _ _ Hi2). }
  apply wp_computed_or; [|intros; by apply Hr]. intros RT result s3 h3 Hp3 _ Hfin.
  assert (e2e_verified (au_State st) assertion credential result) as Hver by (by exists RT, (q_Context r)).
  assert ([AuthenticationConsumed value st] `sublist_of` h3) as Hcons.
  { eapply sublist_prefix; [apply sublist_one, elem_of_snoc|by etrans]. }
  assert (stored_from h3 credential) as Hst3.
  { destruct Hst as (r' & Hin & Ho). exists r'. split; [by eapply prefix_subseteq|done]. }
  apply wp_bind, wp_section.
  - intros s4 h4 rt s5 ok Hp4 Hi Hs. eapply updateCredential_keeps; [done|done| |].
    + exists value, st, assertion, credential, result. split_and!; [|done|done].
      apply (prefix_subseteq h3); [done|]. apply (sublist_subseteq _ _ Hcons). by left.
    + intros r' Hr' Hm. eapply verified_update_valid; [done| |done|done|done].
      destruct Hst3 as (x & Hin & Ho). exists x. split; [by eapply prefix_subseteq|done].
  - intros s4 h4 [] Hp4 _; [|by apply Hr]. cbn [negb]. apply wp_or_reply, wp_setSession; [done| | |intros; by apply Hr].
    + right. exists value, st, assertion, credential, result. split_and!; [done|done| |by apply (sublist_snoc [_] h3)].
      assert (ares_AuthenticatedAs result = cr_UserHandle credential) as ->.
      { apply FinishAuthentication_sound in Hfin as (_ & _ & _ & _ & _ & _ & parsed & ext & _ & _ & _ & _ & ->). done. }
      eapply enrolled_later; [|by apply stored_enrolled]. apply prefix_subseteq. by apply prefix_snoc.
    + intros rep' s5 h5 _ Ho. apply wp_bind, wp_read. intros s6 h6 Hp6 _.
      destruct (userByHandle _ s6); exact (sets_prefix rep' s5 s6 h5 h6 Hp6 Ho).
Qed.

Lemma wp_e2e_session r rep s h : clean rep → e2e_wp (me w r rep) sets_opened s h ∧ e2e_wp (logout w r rep) sets_opened s h ∧
  e2e_wp (debugCredential w r rep) sets_opened s h.
Proof.
  intros Hrep. pose proof (clean_same rep Hrep) as Hr. split_and!.
  - unfold me. destruct (RequestCookie r _) as [value|]; [|by apply Hr]. apply wp_bind, wp_read. intros s1 h1 _ _.
    destruct (sessionUser value s1); by apply Hr.
  - unfold logout. assert (clean (SetCookie (clearCookie sessionCookie) rep)) as Hc by (by apply clean_cookie).
    destruct (RequestCookie r _) as [value|]; [|by eapply clean_same]. apply wp_bind, wp_section.
    + intros s1 h1 rt s2 b _ Hi [= <- <-]. by apply deleteSession_keeps.
    + intros s1 h1 [] _ _. by eapply clean_same.
  - unfold debugCredential. destruct (credentialIDQuery r) as [id|]; [|by apply Hr]. apply wp_bind, wp_read. intros s1 h1 _ _.
    destruct (E2e.debugCredential id s1) as [c|]; [|by apply Hr]. apply wp_bind, wp_read. intros s2 h2 _ _. by apply Hr.
Qed.

Lemma wp_e2e_routes r s h : e2e_wp (routes a w pages r) sets_opened s h.
Proof.
  assert (clean no_reply) as Hc by (intros c Hin; by apply elem_of_nil in Hin).
  unfold routes. destruct (ServeMux endpoints r) as [[]|]; cbn [serve]; try (by apply wp_e2e_session); try (by intros c Hin; apply elem_of_nil in Hin).
  - by apply wp_registerOptions.
  - by apply wp_registerFinish.
  - by apply wp_loginOptions.
  - by apply wp_loginFinish.
Qed.

Lemma e2e_fresh : e2e_invariant newStore [].
Proof.
  constructor; [apply table_empty|apply table_empty|apply newStore_indexed| | | | | |apply justified_nil].
  - intros r Hr. by apply elem_of_nil in Hr.
  - intros r' Hr. by apply elem_of_nil in Hr.
  - intros e u H. cbn in H. by rewrite lookup_empty in H.
  - intros u Hu. by apply elem_of_nil in Hu.
  - intros i k H. cbn in H. by rewrite lookup_empty in H.
Qed.

Lemma e2e_sound c : reachable (routes a w pages) newStore c →
  e2e_invariant (shared c) (history c) ∧ ∀ r rep, answered c r rep → sets_opened rep (shared c) (history c).
Proof.
  apply wp_sound with (later := extends).
  - apply extends_refl.
  - apply extends_trans.
  - intros rep s h s' h' Hp H. by eapply sets_prefix.
  - intros r s h _. apply wp_e2e_routes.
  - apply e2e_fresh.
Qed.
(** *** Accounts *)
Lemma consumed_registration_started s h id st : e2e_invariant s h → RegistrationConsumed id st ∈ h → e2e_registration_started h st.
Proof.
  intros Hi Hc. destruct (justified_elem _ _ _ (ei_history _ _ Hi) Hc) as (h1 & h2 & -> & Hp).
  assert (RegistrationSaved id st ∈ h1 ++ RegistrationConsumed id st :: h2) as Hs.
  { apply elem_of_app. left. by eapply holds_since_elem. }
  destruct (justified_elem _ _ _ (ei_history _ _ Hi) Hs) as (g1 & g2 & Hg & (RT & ctx & u & mode & start & Hu & Hstart & ->)).
  exists RT, ctx, u, mode, start. split_and!; [|done|done]. rewrite Hg. apply elem_of_app. by left.
Qed.
Lemma consumed_authentication_started s h id st : e2e_invariant s h → AuthenticationConsumed id st ∈ h → e2e_authentication_started st.
Proof.
  intros Hi Hc. destruct (justified_elem _ _ _ (ei_history _ _ Hi) Hc) as (h1 & h2 & -> & Hp).
  assert (AuthenticationSaved id st ∈ h1 ++ AuthenticationConsumed id st :: h2) as Hs.
  { apply elem_of_app. left. by eapply holds_since_elem. }
  destruct (justified_elem _ _ _ (ei_history _ _ Hi) Hs) as (g1 & g2 & Hg & Hj). exact Hj.
Qed.

(** A registration enrolls the user its state was started for. *)
Lemma registered_user s h id st response result : e2e_invariant s h → RegistrationConsumed id st ∈ h →
  e2e_registered (rg_State st) response result →
  ∃ u, UserKnown u ∈ h ∧ rg_Email st = u_Email u ∧ cr_UserHandle (rres_Credential result) = u_Handle u.
Proof.
  intros Hi Hc (RT & ctx & Hfin). destruct (consumed_registration_started _ _ _ _ Hi Hc) as (RT' & ctx' & u & mode & start & Hu & Hstart & ->).
  exists u. split_and!; [done|done|]. apply FinishRegistration_sound in Hfin as (_ & _ & Hfin).
  destruct Hfin as (decode & decoded & parsed & attested & key & ext & vr & trust & _ & _ & _ & _ & _ & _ & _ & _ & _ & _ & _ & _ & -> & _).
  cbn. exact (StartRegistration_user _ _ _ Hstart).
Qed.

Lemma enrolled_known s h handle : e2e_invariant s h → enrolled h handle → handle_known s handle.
Proof.
  intros Hi (r & Hr & <-). destruct (justified_elem _ _ _ (ei_history _ _ Hi) Hr) as (h1 & h2 & Hh & Hj).
  destruct Hj as (id & st & response & result & Hc & Hreg & ->).
  destruct (registered_user s h id st response result) as (u & Hu & _ & ->); [done| |done|by apply (ei_users _ _ Hi)].
  rewrite Hh. apply elem_of_app. by left.
Qed.

(** The session that an earned session cookie names, told in full. *)
Definition e2e_earned (h : list event) (handle : UserHandle) : Prop :=
  (∃ id st response result u h1 h2, h = h1 ++ RegistrationConsumed id st :: h2 ∧ pending_registration id st h1 ∧
     e2e_registration_started h1 st ∧ UserKnown u ∈ h1 ∧ rg_Email st = u_Email u ∧
     e2e_registered (rg_State st) response result ∧ Inserted (rres_Credential result) ∈ h2 ∧
     cr_UserHandle (rres_Credential result) = handle ∧ u_Handle u = handle) ∨
  (∃ id st response record result h1 h2, h = h1 ++ AuthenticationConsumed id st :: h2 ∧ pending_authentication id st h1 ∧
     e2e_authentication_started st ∧ e2e_verified (au_State st) response record result ∧
     Updated (ares_Update result) ∈ h2 ∧ ares_AuthenticatedAs result = handle ∧ enrolled h handle).
Lemma earned_told s h id handle h1 h2 : e2e_invariant s h → h = h1 ++ SessionOpened id handle :: h2 → e2e_earned h1 handle.
Proof.
  intros Hi Hh. destruct (ei_history _ _ Hi _ _ _ Hh) as
    [(i & st & response & result & Hreg & -> & Hs)|(i & st & response & record & result & Hver & -> & Hen & Hs)].
  - left. apply sublist_cons_l in Hs as (g1 & g2 & -> & Hs). rewrite <-app_assoc in Hh.
    assert (pending_registration i st g1) as Hp by exact (ei_history _ _ Hi _ _ _ Hh).
    assert (RegistrationSaved i st ∈ g1) as Hsv by (by eapply holds_since_elem).
    apply list_elem_of_split in Hsv as (k1 & k2 & ->). rewrite <-app_assoc in Hh. cbn [Datatypes.app] in Hh.
    destruct (ei_history _ _ Hi _ _ _ Hh) as (RT & ctx & u & mode & start & Hu & Hstart & Est).
    exists i, st, response, result, u, (k1 ++ RegistrationSaved i st :: k2), g2. split_and!; try done.
    + exists RT, ctx, u, mode, start. split_and!; [|done|done]. apply elem_of_app. by left.
    + apply elem_of_app. by left.
    + by rewrite Est.
    + apply (sublist_subseteq _ _ Hs). by left.
    + subst st. destruct Hreg as (RT' & ctx' & Hfin). apply FinishRegistration_sound in Hfin as (_ & _ & Hfin).
      destruct Hfin as (decode & decoded & parsed & attested & key & ext & vr & trust & _ & _ & _ & _ & _ & _ & _ & _ & _ & _ & _ & _ & -> & _).
      cbn. symmetry. exact (StartRegistration_user _ _ _ Hstart).
  - right. apply sublist_cons_l in Hs as (g1 & g2 & -> & Hs). rewrite <-app_assoc in Hh.
    exists i, st, response, record, result, g1, g2. split_and!; try done.
    + exact (ei_history _ _ Hi _ _ _ Hh).
    + eapply consumed_authentication_started; [exact Hi|]. rewrite Hh. apply elem_of_app. right. by left.
    + apply (sublist_subseteq _ _ Hs). by left.
Qed.

(** C31: a session of the end-to-end application is earned.  When a reply sets a
    session cookie, the session was opened for a user handle, and before that
    either a registration ceremony that the application had started for the user
    with this handle was consumed, its response verified and the credential
    inserted, or a login ceremony that the application had started was consumed,
    its response verified for this handle, which had been enrolled, and the
    credential update applied; and the application knows the user. *)
Theorem e2e_session_earned c r rep ck :
  reachable (routes a w pages) newStore c → answered c r rep →
  ck ∈ rep_Cookies rep → ck_Name ck = sessionCookie → ck_Value ck ≠ "" →
  ∃ handle h1 h2, history c = h1 ++ SessionOpened (ck_Value ck) handle :: h2 ∧ e2e_earned h1 handle ∧ handle_known (shared c) handle.
Proof.
  intros [Hi Ho]%e2e_sound Ha Hc Hn Hv. destruct (Ho _ _ Ha ck Hc Hn Hv) as (handle & (h1 & h2 & Hh)%list_elem_of_split).
  exists handle, h1, h2. split; [done|]. pose proof (earned_told _ _ _ _ _ _ Hi Hh) as He. split; [done|]. apply (enrolled_known _ _ _ Hi).
  destruct He as [(i & st & response & result & u & g1 & g2 & -> & _ & _ & _ & _ & _ & Hins & <- & _)|(i & st & response & record & result & g1 & g2 & -> & _ & _ & _ & _ & _ & Hen)].
  - exists (rres_Credential result). split; [|done]. rewrite Hh. apply elem_of_app. left. apply elem_of_app. right. by right.
  - eapply enrolled_later; [|done]. rewrite Hh. intros x Hx. apply elem_of_app. by left.
Qed.

(** At any time the indexes of the store agree with its records, every stored
    credential is valid and belongs to a user the application knows, so that a
    login never ends for want of its user, and a live session finds its user. *)
Theorem e2e_accounts_known c : reachable (routes a w pages) newStore c →
  indexed (shared c) ∧ (∀ r, r ∈ records (shared c) → record_valid r ∧ handle_known (shared c) (cr_UserHandle r)) ∧
  (∀ id k, sessions (shared c) !! id = Some k → is_Some (sessionUser id (shared c))).
Proof.
  intros [Hi _]%e2e_sound. split_and!; [apply (ei_indexed _ _ Hi)| |].
  - intros r [Hv Hs]%(ei_records _ _ Hi). split; [done|]. by apply (enrolled_known _ _ _ Hi), stored_enrolled.
  - intros id k Hk. destruct (ei_sessions _ _ Hi _ _ Hk) as (handle & Hin & ->).
    destruct (justified_elem _ _ _ (ei_history _ _ Hi) Hin) as (h1 & h2 & Hh & Hj).
    assert (enrolled (history c) handle) as Hen.
    { rewrite Hh. eapply enrolled_later; [intros x Hx; apply elem_of_app; by left|].
      destruct Hj as [(i & st & response & result & _ & -> & Hs)|(i & st & response & record & result & _ & -> & Hen & _)]; [|done].
      exists (rres_Credential result). split; [|done]. apply (sublist_subseteq _ _ Hs). by right; left. }
    destruct (enrolled_known _ _ _ Hi Hen) as (u & Hu & _). unfold sessionUser. rewrite Hk. cbn. by rewrite Hu.
Qed.
(** *** The hand-written credential update *)
Lemma e2e_steps_extend c1 c2 : rtc (cstep (routes a w pages)) c1 c2 → history c1 `prefix_of` history c2.
Proof.
  induction 1 as [c|c1 c2 c3 H12 _ IH]; [done|]. etrans; [|exact IH].
  destruct H12; cbn; [done|]. by apply prefix_app_r.
Qed.

(** C32: the store of the end-to-end application writes the changed fields of an
    update itself and checks less than the library's [ApplyTo].  In the running
    application the two never differ.  Let a credential be read from the store,
    an assertion be verified against it, and any requests be served, in any
    interleaving, before the update is made: a record with this ID is still
    stored, the store accepts the update exactly when the four mutable fields of
    that record are those that were read, it then holds what [ApplyTo] returns
    for it, and otherwise [ApplyTo] reports a conflict and no record changes. *)
Theorem e2e_update_is_ApplyTo {RT : Runtime} c1 c2 id credential ctx options result rt :
  reachable (routes a w pages) newStore c1 → credentialByID id (shared c1) = Some credential →
  FinishAuthentication ctx options = Ok result → afo_Credential options = credential →
  rtc (cstep (routes a w pages)) c1 c2 →
  ∃ current s' ok, credentialByID id (shared c2) = Some current ∧
    updateCredential (ares_Update result) rt (shared c2) = (s', ok) ∧
    ok = bool_decide (same_mutable current credential) ∧
    match ApplyTo (ares_Update result) current with
    | Ok next => ok = true ∧ records s' = change_record (credentialKey id) (λ _, next) (records (shared c2))
    | Err e => ok = false ∧ e = ErrCredentialUpdateConflict ∧ records s' = records (shared c2)
    end.
Proof.
  intros Hr1 Hc Hfin%FinishAuthentication_sound <- Hsteps.
  assert (reachable (routes a w pages) newStore c2) as Hr2 by (unfold reachable in *; by etrans).
  apply e2e_sound in Hr1 as [Hi1 _]. apply e2e_sound in Hr2 as [Hi2 _].
  rewrite (credentialByID_record _ _ (ei_indexed _ _ Hi1)) in Hc. unfold find_record in Hc.
  apply find_some in Hc as [Hin%list_elem_of_In Hid%bool_decide_eq_true].
  destruct (ei_records _ _ Hi1 _ Hin) as [_ (r0 & Hins & Ho)].
  apply (prefix_subseteq _ _ (e2e_steps_extend _ _ Hsteps)) in Hins.
  destruct (ei_inserted _ _ Hi2 _ Hins) as (current & Hcur & Ho').
  assert (same_origin current (afo_Credential options)) as (Hk & _ & Hb).
  { destruct Ho as (? & ? & ?), Ho' as (? & ? & ?). unfold same_origin. split_and!; congruence. }
  assert (find_record (id_of (afo_Credential options)) (records (shared c2)) = Some current) as Hf.
  { apply list_elem_of_lookup_1 in Hcur as (p & Hp). apply find_record_Some; [apply (ei_indexed _ _ Hi2)|].
    exists p. split; [|done]. apply (ix_id _ (ei_indexed _ _ Hi2)). by exists current. }
  destruct (updateCredential (ares_Update result) rt (shared c2)) as [s' ok] eqn:Hu. exists current, s', ok.
  rewrite (credentialByID_record _ _ (ei_indexed _ _ Hi2)), <-Hid. do 2 (split; [done|]).
  eapply verified_update_applied; [done|apply (ei_indexed _ _ Hi2)|done|by apply (ei_records _ _ Hi2)|done|done].
Qed.
End Promises.

(** ** A run of the application *)
Module E2eRun.
Import HttpServer E2eApp.
#[local] Existing Instance no_custom_types.
#[local] Existing Instance default_order.
#[local] Existing Instance plain_evidence.
#[local] Existing Instance sample_floats.
#[local] Existing Instance no_methods.

(** The base point of P-256 as the key, and primitives that accept it with the
    signature of the sample. *)
Definition key : CredentialPublicKey := NewCredentialPublicKey AlgorithmES256 [xa1; x01]
  (mkMaterial (Some (mkEC2 EC2CurveP256
     (put_be 32 0x6b17d1f2e12c4247f8bce6e563a440f277037d812deb33a0f4a13945d898c296)
     (put_be 32 0x4fe342e2fe1a7f9b8ee7eb4a7c0f9e162bce33576b315ececbb6406837bf51f5))) None None).
#[local] Instance accepting : Primitives := {|
  ecdsa_VerifyASN1 _ _ _ _ signature := bool_decide (signature = [x30]);
  rsa_VerifyPKCS1v15 _ _ _ _ _ := Err Standard.ErrInvalidSignature;
  rsa_VerifyPSS _ _ _ _ _ := Err Standard.ErrInvalidSignature;
  ed25519_Verify _ _ _ := false |}.

Definition e2e_app : app := mkApp "example.com" "https://example.com"
  (mkDecoder (c_AttestationObjectDecoder Run.app_config) (Iface (λ _, Ok key)) (Iface (λ _, Ok ∅)))
  (c_AttestationRegistry sample_config) sample_registry.
Definition writer : ResponseWriter := Iface (λ bytes, (length bytes, None)).
Definition pages (r : HttpRequest) (x : Response) : Response := x.

Definition request (method path : string) (cookies : list (string * string)) (body : list byte) : HttpRequest :=
  mkHttpRequest background method "example.com" path "https://example.com" "application/json" [] cookies (Some (mkBody body None)).
Definition text (fields : list (string * option json)) : list byte := default [] (Marshal (object fields)).
Definition email : option json := Some (jstring "ann@example.com").
Definition assertion_body (challenge : byte) (counter : Z) : list byte := Run.credential_text
  [("clientDataJSON", Run.base64 (mkByteValue (Some (object_text
      (ceremony_members ClientDataTypeGet "https://example.com" (replicate 32 challenge) false)))));
   ("authenticatorData", Run.base64 (mkByteValue (Some (encodeAuthData Run.hash x05 counter None None))));
   ("signature", Some (jstring "MA")); ("userHandle", Some (jstring (Run.id_of x00)))].

(** The registration response without the member that the shim fills in. *)
Definition shim_body : list byte := Run.credential_text
  [("clientDataJSON", Run.base64 (rr_ClientDataJSON sample_response)); ("transports", Some (JArray [jstring "internal"]));
   ("publicKeyAlgorithm", Some (jint (-7))); ("attestationObject", Run.base64 sample_object)].

Definition requests : list (action HttpRequest) :=
  Arrive (request "POST" "/register/options" [] (text [("email", email)])) :: replicate 4 (Enter 0 (Run.at_byte x00)) ++
  Arrive (request "POST" "/register/finish" [(registrationCookie, Run.id_of x00)] (text [("email", email); ("credential", Json.parse shim_body)])) ::
    replicate 4 (Enter 1 (Run.at_byte x00)) ++
  Arrive (request "POST" "/login/options" [] (text [])) :: replicate 3 (Enter 2 (Run.at_byte x01)) ++
  Arrive (request "POST" "/login/finish" [(authenticationCookie, Run.id_of x01)] (text [("credential", Json.parse (assertion_body x01 9))])) ::
    replicate 6 (Enter 3 (Run.at_byte x02)) ++
  Arrive (request "GET" "/me" [(sessionCookie, Run.id_of x02)] []) :: replicate 1 (Enter 4 (Run.at_byte x02)).
Definition final : config E2e.store event HttpRequest Reply := schedule (routes e2e_app writer pages) E2e.newStore requests.
Definition reply (i : nat) : Reply := match pool final !! i with Some (_, Ret rep) => rep | _ => no_reply end.

Example e2e_run :
  (λ i, hr_Status (rep_Response (reply i))) <$> [0; 1; 2; 3; 4]%nat = replicate 5 (Some 200) ∧
  Json.parse (hr_Body (rep_Response (reply 4))) = Some (json_session (mkSessionResponse true (Some (mkUserResponse "ann@example.com")))).
Proof. vm_compute. done. Qed.
End E2eRun.

#[local] Existing Instance no_custom_types.
#[local] Existing Instance default_order.
#[local] Existing Instance plain_evidence.
#[local] Existing Instance sample_floats.
#[local] Existing Instance no_methods.
#[local] Existing Instance E2eRun.accepting.

Lemma e2e_session_earned_witness :
  ∃ handle h1 h2, history E2eRun.final = h1 ++ E2eApp.SessionOpened (Run.id_of x02) handle :: h2.
Proof.
  pose (ck := E2eApp.cookie E2eApp.sessionCookie (Run.id_of x02) 3600).
  pose (r := E2eRun.request "POST" "/login/finish" [(E2eApp.authenticationCookie, Run.id_of x01)]
               (E2eRun.text [("credential", Json.parse (E2eRun.assertion_body x01 9))])).
  assert (answered E2eRun.final r (E2eRun.reply 3)) as Ha by (apply (list_elem_of_lookup_2 _ 3); vm_compute; reflexivity).
  assert (ck ∈ HttpServer.rep_Cookies (E2eRun.reply 3)) as Hc by (apply (list_elem_of_lookup_2 _ 1); vm_compute; reflexivity).
  assert (HttpServer.ck_Value ck ≠ "") as Hv by (vm_compute; discriminate).
  destruct (e2e_session_earned E2eRun.e2e_app E2eRun.writer E2eRun.pages E2eRun.final r _ ck (schedule_reachable _ _ _) Ha Hc eq_refl Hv)
    as (handle & h1 & h2 & H & _). exists handle, h1, h2. exact H.
Defined.

(** The credential of the run as the login reads it, and the login's assertion:
    its update is accepted before the login and refused as a conflict after it. *)
Definition run_id : list byte := slice_list (bv_value (cr_ID (sample_record false))).
Definition before_login :=
  schedule (E2eApp.routes E2eRun.e2e_app E2eRun.writer E2eRun.pages) E2e.newStore (take 14 E2eRun.requests).

Lemma e2e_update_is_ApplyTo_witness :
  ∃ credential state response result next,
    E2e.credentialByID run_id (shared before_login) = Some credential ∧
    E2e.authenticationStates (shared before_login) !! Run.id_of x01 = Some state ∧
    Browser.AuthenticationResponseFromJSON (E2eRun.assertion_body x01 9) = Ok response ∧
    FinishAuthentication (RT := Run.at_byte x02) (Some background) (E2eApp.authentication_finish E2eRun.e2e_app (E2e.au_State state) response credential) = Ok result ∧
    ApplyTo (ares_Update result) credential = Ok next ∧
    (E2e.updateCredential (ares_Update result) (Run.at_byte x02) (shared before_login)).2 = true ∧
    (E2e.updateCredential (ares_Update result) (Run.at_byte x02) (shared E2eRun.final)).2 = false.
Proof.
  assert (reachable (E2eApp.routes E2eRun.e2e_app E2eRun.writer E2eRun.pages) E2e.newStore before_login) as Hr by apply schedule_reachable.
  assert (rtc (cstep (E2eApp.routes E2eRun.e2e_app E2eRun.writer E2eRun.pages)) before_login E2eRun.final) as Hlater.
  { unfold E2eRun.final. rewrite <-(take_drop 14 E2eRun.requests). apply schedule_later. }
  destruct (E2e.credentialByID run_id (shared before_login)) as [credential|] eqn:Hc; [|vm_compute in Hc; discriminate Hc].
  destruct (E2e.authenticationStates (shared before_login) !! Run.id_of x01) as [state|] eqn:Hs; [|vm_compute in Hs; discriminate Hs].
  destruct (Browser.AuthenticationResponseFromJSON (E2eRun.assertion_body x01 9)) as [response|] eqn:Hj;
    [|vm_compute in Hj; discriminate Hj].
  destruct (FinishAuthentication (RT := Run.at_byte x02) (Some background)
    (E2eApp.authentication_finish E2eRun.e2e_app (E2e.au_State state) response credential)) as [result|] eqn:Hf.
  2: { exfalso. revert Hf. vm_compute in Hc, Hs, Hj. injection Hc as <-. injection Hs as <-. injection Hj as <-. vm_compute. discriminate. }
  destruct (e2e_update_is_ApplyTo (RT := Run.at_byte x02) E2eRun.e2e_app E2eRun.writer E2eRun.pages before_login before_login run_id credential (Some background) _ result
    (Run.at_byte x02) Hr Hc Hf eq_refl (rtc_refl _ _)) as (current & s1 & ok1 & Hc1 & Hu1 & Hok1 & Ha1).
  destruct (e2e_update_is_ApplyTo (RT := Run.at_byte x02) E2eRun.e2e_app E2eRun.writer E2eRun.pages before_login E2eRun.final run_id credential (Some background) _ result
    (Run.at_byte x02) Hr Hc Hf eq_refl Hlater) as (current2 & s2 & ok2 & Hc2 & Hu2 & Hok2 & _).
  assert (current = credential) as -> by congruence.
  rewrite bool_decide_eq_true_2 in Hok1 by (by split_and!).
  destruct (ApplyTo (ares_Update result) credential) as [next|e] eqn:Ha; [|destruct Ha1 as [E _]; congruence].
  exists credential, state, response, result, next. do 5 (split; [first [exact Hc|reflexivity|exact Hf|exact Ha]|]).
  rewrite Hu1, Hu2. split; [exact Hok1|]. cbn [snd]. rewrite Hok2. apply bool_decide_eq_false.
  intros (Hcount & _). clear -Hc Hc2 Hcount. vm_compute in Hc, Hc2. injection Hc as <-. injection Hc2 as <-.
  vm_compute in Hcount. discriminate Hcount.
Defined.
