(* ===== verification/Examples.v ===== *)
(** * The smaller examples and the license check

    Models [src/examples/manual/main.go] (both ceremonies without the facade,
    over three maps), [src/examples/passkey/main.go] (a login against a store the
    application supplies), [src/examples/attestation/main.go] (a registry and a
    trust policy) and the check of [src/tools/checklicenses/main.go]. *)
From S2P Require Import Prelude Base64 Sha2 GoStrings AuthData ClientData ExtValue Types Extension ExtHandlers Origin Attestation X509 Formats Standard Cbor Json JsonText Ceremony ExtVerify State Registration Authentication RelyingParty Preset Storage Browser BrowserOptions Transport Concurrent Application HttpServer.
Local Open Scope Z_scope.
Local Open Scope prog_scope.

(** ** Ceremonies without the facade *)
Module Manual.
Import Browser BrowserOptions.

(** The maps of the server, under its mutex, and its other fields. *)
Record maps := mkMaps {
  registrationStates : gmap string RegistrationState;
  authenticationStates : gmap string AuthenticationState;
  credentials : gmap string CredentialRecord;
}.
Record server := mkServer {
  m_attestations : attRegistry;
  m_extensions : Registry;
  m_signatures : SignatureVerifier;
  m_algorithms : AlgorithmPolicy;
  m_attestationObjects : AttestationObjectDecoder;
  m_credentialPublicKeys : COSEKeyDecoder;
  m_extensionMaps : ExtensionMapDecoder;
}.
Definition no_maps : maps := mkMaps ∅ ∅ ∅.

Inductive event :=
| RegistrationSaved (sessionID : string) (state : RegistrationState)
| RegistrationConsumed (sessionID : string) (state : RegistrationState)
| AuthenticationSaved (sessionID : string) (state : AuthenticationState)
| AuthenticationConsumed (sessionID : string) (state : AuthenticationState)
| Inserted (record : CredentialRecord)
| Updated (u : CredentialUpdate).
Inductive answer :=
| CreationOptions (options : CredentialCreationOptionsJSON)
| Registered (record : CredentialRecord)
| RequestOptions (options : CredentialRequestOptionsJSON)
| Authenticated (result : AuthenticationResult).

Definition handler : Type := prog maps event (result answer).

(** *** Critical sections *)
Definition save_registration (sessionID : string) (state : RegistrationState) (s : maps) : maps :=
  mkMaps (<[sessionID := state]> (registrationStates s)) (authenticationStates s) (credentials s).
Definition save_authentication (sessionID : string) (state : AuthenticationState) (s : maps) : maps :=
  mkMaps (registrationStates s) (<[sessionID := state]> (authenticationStates s)) (credentials s).
Definition take_registration (sessionID : string) (s : maps) : maps * option RegistrationState :=
  (mkMaps (delete sessionID (registrationStates s)) (authenticationStates s) (credentials s), registrationStates s !! sessionID).
Definition take_authentication (sessionID : string) (s : maps) : maps * option AuthenticationState :=
  (mkMaps (registrationStates s) (delete sessionID (authenticationStates s)) (credentials s), authenticationStates s !! sessionID).

(** The key of a credential is the text of its bytes. *)
Definition raw_key (id : byteValue) : string := string_of_bytes (slice_list (bv_bytes id)).
Definition lookup_credential (id : byteValue) (s : maps) : option CredentialRecord := CredentialRecord_Clone <$> credentials s !! raw_key id.
Definition insert_credential (record : CredentialRecord) (s : maps) : maps * result () :=
  let key := raw_key (cr_ID record) in
  if bool_decide (is_Some (credentials s !! key)) then (s, Err (ErrorNew "credential already registered"))
  else (mkMaps (registrationStates s) (authenticationStates s) (<[key := CredentialRecord_Clone record]> (credentials s)), Ok ()).
Definition apply_update (u : CredentialUpdate) (s : maps) : maps * result () :=
  let key := raw_key (cu_ID u) in
  match credentials s !! key with
  | None => (s, Err ErrCredentialUpdateConflict)
  | Some current =>
      match ApplyTo u current with
      | Err e => (s, Err e)
      | Ok next => (mkMaps (registrationStates s) (authenticationStates s) (<[key := next]> (credentials s)), Ok ())
      end
  end.

Section Server.
Context {Floats : FloatText} {Ord : MapOrder} {Custom : CustomTypes} {CE : CustomEvidence} {Methods : MarshalMethods}.

Definition newServer {L : CborLibrary} {P : Primitives} : result (server * maps) :=
  attestations ← NewAttRegistry [Iface Attestation.None.New];
  signatures ← Standard.NewVerifier [AlgorithmEdDSA; AlgorithmES256; AlgorithmRS256];
  extensions ← NewLevel3Registry;
  decoder ← Cbor.NewDecoder;
  Ok (mkServer attestations extensions (pointer_iface signatures (Standard.VerifySignature signatures))
        (pointer_iface signatures (Standard.AcceptsAlgorithm signatures))
        (pointer_iface decoder (Cbor.DecodeAttestationObject decoder)) (pointer_iface decoder (Cbor.DecodeCredentialPublicKey decoder))
        (pointer_iface decoder (Cbor.DecodeExtensionMap decoder)), no_maps).

Context (s : server).

Definition example_origins : OriginPolicy := mkOriginPolicy ["https://example.com"] [] false false.

Definition manual_registration_options (user : UserEntity) : RegistrationStartOptions := {|
  rso_RP := mkRPEntity "example.com" "Example"; rso_User := user; rso_OriginPolicy := example_origins; rso_ConditionalMediation := false;
  rso_Challenge := mkByteValue None; rso_ChallengeGenerator := NilIface; rso_PubKeyCredParams := RecommendedLevel3CredentialParameters;
  rso_Timeout := 0; rso_StateTTL := 0; rso_ExcludeCredentials := []; rso_AuthenticatorSelection := None; rso_Hints := [];
  rso_Attestation := AttestationNone; rso_AttestationFormats := []; rso_Extensions := {[ IDCredProps := VBoolInput true ]};
  rso_ExtensionRegistry := m_extensions s; rso_ExtensionInputPolicy := mkInputPolicy false; rso_Now := None |}.
Definition manual_registration_finish (state : RegistrationState) (response : RegistrationResponse) : RegistrationFinishOptions := {|
  rfo_State := state; rfo_Response := response; rfo_AttestationObjectDecoder := m_attestationObjects s;
  rfo_CredentialPublicKeyDecoder := m_credentialPublicKeys s; rfo_ExtensionMapDecoder := m_extensionMaps s;
  rfo_AttestationRegistry := m_attestations s; rfo_AttestationTrustPolicy := AcceptNone; rfo_ExtensionRegistry := m_extensions s;
  rfo_ExtensionPolicy := mkRegistrationPolicy false false; rfo_Now := None |}.
Definition manual_authentication_options (credential : CredentialRecord) : AuthenticationStartOptions := {|
  aso_RPID := cr_RPID credential; aso_OriginPolicy := example_origins; aso_Challenge := mkByteValue None; aso_ChallengeGenerator := NilIface;
  aso_Timeout := 0; aso_StateTTL := 0;
  aso_AllowCredentials := [mkDescriptor CredentialTypePublicKey (cr_ID credential) (cr_Transports credential)];
  aso_UserVerification := UserVerificationPreferred; aso_Hints := []; aso_Extensions := ∅; aso_ExtensionRegistry := None;
  aso_ExtensionInputPolicy := mkInputPolicy false; aso_ExpectedUserHandle := cr_UserHandle credential; aso_Now := None |}.
Definition manual_authentication_finish (state : AuthenticationState) (response : AuthenticationResponse) (credential : CredentialRecord) :
    AuthenticationFinishOptions := {|
  afo_State := state; afo_Response := response; afo_Credential := credential; afo_ExtensionMapDecoder := m_extensionMaps s;
  afo_SignatureVerifier := m_signatures s; afo_AlgorithmPolicy := m_algorithms s; afo_ExtensionRegistry := m_extensions s;
  afo_ExtensionPolicy := mkAuthenticationPolicy false false ""; afo_CounterPolicy := mkCounterPolicy false false;
  afo_UVInitializationAuthorized := false; afo_Now := None |}.

Definition beginRegistration (ctx : context) (sessionID : string) (user : UserEntity) : handler :=
  start ←! compute (λ RT, StartRegistration (Some ctx) (manual_registration_options user));
  _ ⇐ logged (λ _ m, (save_registration sessionID (rsr_State start) m, ())) (λ _, [RegistrationSaved sessionID (rsr_State start)]);
  dto ←? CredentialCreationOptionsFromProtocol (rsr_Options start);
  Ret (Ok (CreationOptions dto)).

Definition finishRegistration (ctx : context) (sessionID : string) (body : list byte) : handler :=
  found ⇐ logged (λ _, take_registration sessionID)
                 (λ found, match found with Some state => [RegistrationConsumed sessionID state] | None => [] end);
  state ←? of_option (ErrorNew "registration state not found") found;
  response ←? RegistrationResponseFromJSON body;
  result ←! compute (λ RT, FinishRegistration (Some ctx) (manual_registration_finish state response));
  _ ←! logged (λ _, insert_credential (rres_Credential result))
              (λ r : Prelude.result (), match r with Ok _ => [Inserted (rres_Credential result)] | Err _ => [] end);
  Ret (Ok (Registered (rres_Credential result))).

Definition beginAuthentication (ctx : context) (sessionID : string) (credential : CredentialRecord) : handler :=
  start ←! compute (λ RT, StartAuthentication (Some ctx) (manual_authentication_options credential));
  _ ⇐ logged (λ _ m, (save_authentication sessionID (asr_State start) m, ())) (λ _, [AuthenticationSaved sessionID (asr_State start)]);
  dto ←? CredentialRequestOptionsFromProtocol (asr_Options start);
  Ret (Ok (RequestOptions dto)).

Definition finishAuthentication (ctx : context) (sessionID : string) (body : list byte) : handler :=
  found ⇐ logged (λ _, take_authentication sessionID)
                 (λ found, match found with Some state => [AuthenticationConsumed sessionID state] | None => [] end);
  state ←? of_option (ErrorNew "authentication state not found") found;
  response ←? AuthenticationResponseFromJSON body;
  credential ⇐ locked (λ _ m, (m, lookup_credential (ar_RawID response) m));
  credential ←? of_option (ErrorNew "credential not found") credential;
  result ←! compute (λ RT, FinishAuthentication (Some ctx) (manual_authentication_finish state response credential));
  _ ←! logged (λ _, apply_update (ares_Update result))
              (λ r : Prelude.result (), match r with Ok _ => [Updated (ares_Update result)] | Err _ => [] end);
  Ret (Ok (Authenticated result)).

(** The calls of the application. *)
Inductive request :=
| BeginRegistration (ctx : context) (sessionID : string) (user : UserEntity)
| FinishRegistrationOf (ctx : context) (sessionID : string) (body : list byte)
| BeginAuthentication (ctx : context) (sessionID : string) (credential : CredentialRecord)
| FinishAuthenticationOf (ctx : context) (sessionID : string) (body : list byte).
Definition handle (r : request) : handler :=
  match r with
  | BeginRegistration ctx sessionID user => beginRegistration ctx sessionID user
  | FinishRegistrationOf ctx sessionID body => finishRegistration ctx sessionID body
  | BeginAuthentication ctx sessionID credential => beginAuthentication ctx sessionID credential
  | FinishAuthenticationOf ctx sessionID body => finishAuthentication ctx sessionID body
  end.
End Server.
End Manual.

Section ManualPromises.
Import Manual Browser BrowserOptions.
Context {Floats : FloatText} {Ord : MapOrder} {Custom : CustomTypes} {CE : CustomEvidence} {Methods : MarshalMethods}.
Context (srv : server).

Abbreviation pending_registration := (pending RegistrationSaved RegistrationConsumed).
Abbreviation pending_authentication := (pending AuthenticationSaved AuthenticationConsumed).

Definition manual_registered (state : RegistrationState) (response : RegistrationResponse) (result : RegistrationResult) : Prop :=
  ∃ (RT : Runtime) ctx, FinishRegistration (Some ctx) (manual_registration_finish srv state response) = Ok result.
Definition manual_verified (state : AuthenticationState) (response : AuthenticationResponse) (record : CredentialRecord)
    (result : AuthenticationResult) : Prop :=
  ∃ (RT : Runtime) ctx, FinishAuthentication (Some ctx) (manual_authentication_finish srv state response record) = Ok result.

(** The answer to a finish call was earned in the ceremony of its session. *)
Definition manual_earned (r : request) (x : result answer) (h : list event) : Prop :=
  match r, x with
  | FinishRegistrationOf _ sessionID body, Ok (Registered record) => ∃ state response result,
      RegistrationResponseFromJSON body = Ok response ∧ manual_registered state response result ∧ record = rres_Credential result ∧
      [RegistrationConsumed sessionID state; Inserted record] `sublist_of` h
  | FinishAuthenticationOf _ sessionID body, Ok (Authenticated result) => ∃ state response record,
      AuthenticationResponseFromJSON body = Ok response ∧ manual_verified state response record result ∧
      [AuthenticationConsumed sessionID state; Updated (ares_Update result)] `sublist_of` h
  | _, _ => True
  end.

Definition manual_justified (h : list event) (e : event) : Prop :=
  match e with
  | RegistrationConsumed id state => pending_registration id state h
  | AuthenticationConsumed id state => pending_authentication id state h
  | _ => True
  end.
Record manual_invariant (s : maps) (h : list event) : Prop := {
  mi_registrations : table_logged RegistrationSaved RegistrationConsumed (registrationStates s) h;
  mi_authentications : table_logged AuthenticationSaved AuthenticationConsumed (authenticationStates s) h;
  mi_records : ∀ key r, credentials s !! key = Some r → raw_key (cr_ID r) = key ∧ record_valid r;
  mi_history : justified_history manual_justified h;
}.
Abbreviation manual_wp := (wp manual_invariant HttpServer.extends).

Lemma wp_manual_computed {B} (g : Runtime → result B) (f : B → handler) Q s h :
  (∀ RT b s1 h1, h `prefix_of` h1 → g RT = Ok b → manual_wp (f b) Q s1 h1) → (∀ e s1 h1, Q (Err e) s1 h1) →
  manual_wp (try (compute g) f) Q s h.
Proof.
  intros H He. apply wp_try, wp_compute; [apply HttpServer.extends_refl|]. intros RT s1 h1 Hl Hi.
  destruct (g RT) as [b|e] eqn:Hg; [by eapply H|apply He].
Qed.

Lemma manual_record s h key r e : manual_invariant s h → raw_key (cr_ID r) = key → record_valid r →
  e = Inserted r ∨ (∃ u, e = Updated u) →
  manual_invariant (mkMaps (registrationStates s) (authenticationStates s) (<[key := r]> (credentials s))) (h ++ [e]).
Proof.
  intros [Ir Ia Ic Ih] Hk Hv He. assert (manual_justified h e) as Hj by (by destruct He as [-> |[u ->]]).
  constructor; [apply table_event; [|done]|apply table_event; [|done]| |by apply justified_snoc];
    [by destruct He as [-> |[u ->]]..|].
  intros k x. cbn. rewrite lookup_insert_Some. intros [[<- <-]|[_ H]]; [done|by apply Ic].
Qed.
Lemma insert_credential_keeps record s s' r h : insert_credential record s = (s', r) → manual_invariant s h → record_valid record →
  manual_invariant s' (h ++ match r with Ok _ => [Inserted record] | Err _ => [] end).
Proof.
  unfold insert_credential. intros H Hi Hv. destruct (bool_decide _); injection H as <- <-; [by rewrite app_nil_r|].
  rewrite CredentialRecord_Clone_id. apply manual_record; auto.
Qed.
Lemma apply_update_keeps u s s' r h : apply_update u s = (s', r) → manual_invariant s h →
  manual_invariant s' (h ++ match r with Ok _ => [Updated u] | Err _ => [] end).
Proof.
  unfold apply_update. intros H Hi. destruct (credentials s !! _) as [c|] eqn:Hc; [|injection H as <- <-; by rewrite app_nil_r].
  destruct (ApplyTo u c) as [next|] eqn:Ha; injection H as <- <-; [|by rewrite app_nil_r].
  destruct (mi_records _ _ Hi _ _ Hc) as [Hk _]. apply bind_Ok in Ha as ([] & _ & Ha). apply bind_Ok in Ha as ([] & Hm & Ha).
  cbv zeta in Ha. apply bind_Ok in Ha as ([] & Hv%wrap_err_Ok & [= <-]). apply manual_record; [done|done| |by eauto].
  by apply CredentialRecord_Validate_Ok in Hv.
Qed.
Lemma take_registration_keeps id s h : manual_invariant s h →
  manual_invariant (take_registration id s).1 (h ++ match registrationStates s !! id with Some x => [RegistrationConsumed id x] | None => [] end).
Proof.
  intros [Ir Ia Ic Ih]. cbn. destruct (registrationStates s !! id) as [x|] eqn:E.
  - constructor; [apply table_consumed; [by intros ???? [= ->]|done]|by apply table_event|done|].
    apply justified_snoc; [done|]. by apply Ir.
  - rewrite app_nil_r. constructor; [|done..]. eapply table_shrinks; [apply delete_subseteq|done].
Qed.
Lemma take_authentication_keeps id s h : manual_invariant s h →
  manual_invariant (take_authentication id s).1 (h ++ match authenticationStates s !! id with Some x => [AuthenticationConsumed id x] | None => [] end).
Proof.
  intros [Ir Ia Ic Ih]. cbn. destruct (authenticationStates s !! id) as [x|] eqn:E.
  - constructor; [by apply table_event|apply table_consumed; [by intros ???? [= ->]|done]|done|].
    apply justified_snoc; [done|]. by apply Ia.
  - rewrite app_nil_r. constructor; [done| |done..]. eapply table_shrinks; [apply delete_subseteq|done].
Qed.

Lemma wp_manual_begin r s h : match r with BeginRegistration _ _ _ | BeginAuthentication _ _ _ => True | _ => False end →
  manual_wp (handle srv r) (λ x _ h, manual_earned r x h) s h.
Proof.
  destruct r as [ctx id user|ctx id body|ctx id c|ctx id body]; [intros _|done|intros _|done]; cbn [handle].
  - apply wp_manual_computed; [|done]. intros RT start s1 h1 _ _. apply wp_bind, HttpServer.wp_section.
    + intros s2 h2 rt s3 b _ [Ir Ia Ic Ih] [= <- <-]. constructor; [by apply table_saved|by apply table_event|done|by apply justified_snoc].
    + intros s2 h2 [] _ _. apply wp_try. by destruct (CredentialCreationOptionsFromProtocol _).
  - apply wp_manual_computed; [|done]. intros RT start s1 h1 _ _. apply wp_bind, HttpServer.wp_section.
    + intros s2 h2 rt s3 b _ [Ir Ia Ic Ih] [= <- <-]. constructor; [by apply table_event|by apply table_saved|done|by apply justified_snoc].
    + intros s2 h2 [] _ _. apply wp_try. by destruct (CredentialRequestOptionsFromProtocol _).
Qed.

Lemma wp_manual_finishRegistration ctx id body s h :
  manual_wp (finishRegistration srv ctx id body) (λ x _ h, manual_earned (FinishRegistrationOf ctx id body) x h) s h.
Proof.
  apply wp_bind, HttpServer.wp_section; [intros s1 h1 rt s2 b _ Hi [= <- <-]; by apply take_registration_keeps|].
  intros s1 h1 [state|] _ _; [|done]. apply wp_try. cbn [of_option wp]. apply wp_try. cbn [wp].
  destruct (RegistrationResponseFromJSON body) as [response|] eqn:Hread; [|done].
  apply wp_manual_computed; [|done]. intros RT result s2 h2 Hp2 Hfin. apply wp_try, HttpServer.wp_section.
  - intros s3 h3 rt s4 r _ Hi Hs. eapply insert_credential_keeps; [done|done|].
    apply FinishRegistration_sound in Hfin. by apply (registration_verified_record _ _ _ Hfin).
  - intros s3 h3 [[]|] Hp3 _; [|done]. exists state, response, result. split_and!; [done|by exists RT, ctx|done|].
    apply (sublist_snoc [_] h2); [|done]. eapply sublist_prefix; [apply sublist_one, elem_of_snoc|done].
Qed.

Lemma wp_manual_finishAuthentication ctx id body s h :
  manual_wp (finishAuthentication srv ctx id body) (λ x _ h, manual_earned (FinishAuthenticationOf ctx id body) x h) s h.
Proof.
  apply wp_bind, HttpServer.wp_section; [intros s1 h1 rt s2 b _ Hi [= <- <-]; by apply take_authentication_keeps|].
  intros s1 h1 [state|] _ _; [|done]. apply wp_try. cbn [of_option wp]. apply wp_try. cbn [wp].
  destruct (AuthenticationResponseFromJSON body) as [response|] eqn:Hread; [|done].
  apply wp_bind, HttpServer.wp_read. intros s2 h2 Hp2 _. apply wp_try. cbn [wp].
  destruct (lookup_credential _ s2) as [credential|]; [|done]. cbn [of_option].
  apply wp_manual_computed; [|done]. intros RT result s3 h3 Hp3 Hfin. apply wp_try, HttpServer.wp_section.
  - intros s4 h4 rt s5 r _ Hi Hs. by eapply apply_update_keeps.
  - intros s4 h4 [[]|] Hp4 _; [|done]. exists state, response, credential. split_and!; [done|by exists RT, ctx|].
    apply (sublist_snoc [_] h3); [|done]. eapply sublist_prefix; [apply sublist_one, elem_of_snoc|by etrans].
Qed.

Lemma manual_sound c : reachable (handle srv) no_maps c →
  manual_invariant (shared c) (history c) ∧ ∀ r x, answered c r x → manual_earned r x (history c).
Proof.
  apply wp_sound with (later := HttpServer.extends) (Q := λ r x _ h, manual_earned r x h).
  - apply HttpServer.extends_refl.
  - apply HttpServer.extends_trans.
  - intros r x s h s' h' Hp. destruct r as [| | |], x as [[]|]; try done; cbn.
    + intros (state & response & result & ? & ? & ? & Hs). exists state, response, result. eauto using sublist_prefix.
    + intros (state & response & record & ? & ? & Hs). exists state, response, record. eauto using sublist_prefix.
  - intros [] s h _; [by apply wp_manual_begin|apply wp_manual_finishRegistration|by apply wp_manual_begin|apply wp_manual_finishAuthentication].
  - constructor; [apply table_empty|apply table_empty| |apply justified_nil]. intros key r H. cbn in H. by rewrite lookup_empty in H.
Qed.

(** Whatever calls run concurrently, a registration or login the manual server
    reports as successful consumed the state that was pending under its session,
    its body was verified in that state, and the map of credentials took the
    result; and every stored record is valid and filed under its own ID. *)
Theorem manual_results_earned c : reachable (handle srv) no_maps c →
  (∀ r x, answered c r x → manual_earned r x (history c)) ∧
  (∀ id state h1 h2, history c = h1 ++ RegistrationConsumed id state :: h2 → pending_registration id state h1) ∧
  (∀ id state h1 h2, history c = h1 ++ AuthenticationConsumed id state :: h2 → pending_authentication id state h1) ∧
  (∀ key r, credentials (shared c) !! key = Some r → raw_key (cr_ID r) = key ∧ record_valid r).
Proof.
  intros [Hi Ho]%manual_sound. split_and!; [done| | |apply (mi_records _ _ Hi)]; intros id state h1 h2 Hh; exact (mi_history _ _ Hi _ _ _ Hh).
Qed.
End ManualPromises.

(** ** A passkey login against the application's store *)
Module PasskeyExample.
Import Browser BrowserOptions.

(** [passkeyStore]: the operations the application supplies, on a state of its own. *)
Class passkeyStore (S : Type) := {
  LookupByUserHandleAndCredentialID : UserHandle → RawID → S → S * result CredentialRecord;
  UpdateCredential : CredentialUpdate → S → S * result ();
}.

Section Functions.
Context {Floats : FloatText} {Ord : MapOrder} {Custom : CustomTypes} {CE : CustomEvidence} {Methods : MarshalMethods}.

Definition newPasskeyRP {L : CborLibrary} {P : Primitives} : result RelyingParty :=
  config ← PasskeyConfig (mkRPEntity "example.com" "Example") (mkOriginPolicy ["https://example.com"] [] false false);
  New config.

Definition beginPasskeyAuthentication {RT : Runtime} (ctx : context) (rp : option RelyingParty) :
    result (CredentialRequestOptionsJSON * AuthenticationState) :=
  start ← RelyingParty_StartAuthentication rp (Some ctx) (mkAuthenticationRequest [] (mkByteValue None) ∅ []);
  dto ← CredentialRequestOptionsFromProtocol (asr_Options start);
  Ok (dto, asr_State start).

Definition finishPasskeyAuthentication {S} `{passkeyStore S} (ctx : context) (rp : option RelyingParty) (state : AuthenticationState)
    (body : list byte) : prog S () (result AuthenticationResult) :=
  response ←? AuthenticationResponseFromJSON body;
  _ ←? fail_if (bv_len (ar_UserHandle response) =? 0) (ErrorNew "discoverable credential response did not include a user handle");
  credential ←! locked (λ _, LookupByUserHandleAndCredentialID (ar_UserHandle response) (ar_RawID response));
  result ←! compute (λ RT, RelyingParty_FinishAuthentication rp (Some ctx) (mkAuthenticationVerification state response credential false));
  _ ←! locked (λ _, UpdateCredential (ares_Update result));
  Ret (Ok result).
End Functions.
End PasskeyExample.

Section PasskeyLogin.
Import PasskeyExample Browser.
Context {Floats : FloatText} {Ord : MapOrder} {Custom : CustomTypes} {CE : CustomEvidence} {Methods : MarshalMethods}.

(** With any store, and whatever happens to it between the calls: a login that
    succeeds names a user handle, was verified against the credential the store
    has for this handle and ID, as the user of this handle, and ends with the
    store accepting the update. *)
Theorem passkey_login_exact {S} `{passkeyStore S} ctx rp state body (s : S) :
  wp (λ _ _, True) (λ _ _ _ _, True) (finishPasskeyAuthentication ctx rp state body)
    (λ x s' _, ∀ result, x = Ok result →
       ∃ (RT : Runtime) response credential s1 s1' s2,
         AuthenticationResponseFromJSON body = Ok response ∧ slice_list (bv_value (ar_UserHandle response)) ≠ [] ∧
         LookupByUserHandleAndCredentialID (ar_UserHandle response) (ar_RawID response) s1 = (s1', Ok credential) ∧
         RelyingParty_FinishAuthentication rp (Some ctx) (mkAuthenticationVerification state response credential false) = Ok result ∧
         ares_AuthenticatedAs result = cr_UserHandle credential ∧
         UpdateCredential (ares_Update result) s2 = (s', Ok ())) s [].
Proof.
  apply wp_try. cbn [wp]. destruct (AuthenticationResponseFromJSON body) as [response|] eqn:Hread; [|done].
  apply wp_try. cbn [wp]. destruct (fail_if _ _) as [[]|] eqn:Hu; [|done]. apply fail_if_Ok, Z.eqb_neq in Hu. rewrite bv_len_0 in Hu.
  apply wp_try. intros s1 h1 rt1 _ _ s1' r1 Hlook. split_and!; [done|done|]. cbn [wp]. destruct r1 as [credential|]; [|done].
  apply wp_try, wp_compute; [done|]. intros RT s3 h3 _ _. destruct (RelyingParty_FinishAuthentication _ _ _) as [result|] eqn:Hfin; [|done].
  apply wp_try. intros s2 h2 rt2 _ _ s' r2 Hup. split_and!; [done|done|]. cbn [wp]. destruct r2 as [[]|]; [|done].
  intros x [= <-]. exists RT, response, credential, s1, s1', s2. split_and!; try done.
  apply bind_Ok in Hfin as (rp' & _ & Hfin). cbv zeta in Hfin. do 3 apply bind_Ok in Hfin as ([] & _ & Hfin).
  apply FinishAuthentication_sound in Hfin as (_ & _ & _ & _ & _ & _ & parsed & ext & _ & _ & _ & _ & ->). done.
Qed.
End PasskeyLogin.

(** ** A registry and a trust policy *)
Module AttestationExample.
Definition selectedAttestationFormats {Ord : MapOrder} {X : X509} {P : Primitives} : result attRegistry :=
  signatureVerifier ← Standard.NewVerifier [AlgorithmEdDSA; AlgorithmES256; AlgorithmRS256];
  NewAttRegistry [Iface Attestation.None.New; Iface (Packed.New (pointer_iface signatureVerifier (Standard.VerifySignature signatureVerifier)))].

Definition restrictedEnrollmentPolicy {CE : CustomEvidence} (allowedAAGUID : AAGUID) (certificateVerifier : CertificateVerifier)
    (verificationContext : CertificateVerificationContext) (statusProvider : CertificateStatusProvider) : TrustPolicy :=
  AllOf [RejectNone; AllowFormats ["packed"]; AllowTypes [TypeUncertain]; RequireAAGUID [allowedAAGUID];
         RequireTrustedRoots certificateVerifier verificationContext; RequireCertificateStatus statusProvider []].
End AttestationExample.

Section AttestationPolicy.
Import AttestationExample.

(** The registry has exactly the two formats. *)
Theorem selected_formats {Ord : MapOrder} {X : X509} {P : Primitives} :
  ∃ r, selectedAttestationFormats = Ok (Some r) ∧ dom r = {[ "none"; "packed" ]}.
Proof. eexists. split; [reflexivity|]. vm_compute. reflexivity. Qed.

Lemma child_accepts_iface {CE : CustomEvidence} ctx request f :
  child_accepts ctx request (Iface f) ↔ ∃ r, f ctx (cloneTrustRequest request) = Ok r ∧ ts_Accepted r = true.
Proof. split; [intros (g & r & [= <-] & H); by exists r|]. intros (r & H). by exists f, r. Qed.

Lemma accepted_if (b : bool) x y : (∃ r, Ok (if b then accepted x else rejected y) = Ok r ∧ ts_Accepted r = true) ↔ b = true.
Proof. destruct b; split; try done; [by eexists|]. intros (r & H%Ok_inj & Ha). by subst r. Qed.
Lemma accepted_unless (b : bool) x y : (∃ r, Ok (if b then rejected y else accepted x) = Ok r ∧ ts_Accepted r = true) ↔ b = false.
Proof. destruct b; split; try done; [|by eexists]. intros (r & H%Ok_inj & Ha). by subst r. Qed.

Lemma roots_accept {CE : CustomEvidence} verify vctx ctx request :
  child_accepts ctx request (RequireTrustedRoots (Iface verify) vctx) ↔ has_x5c (cloneTrustRequest request) = true ∧
  ∃ v, verify ctx (tp_Certificates (vr_TrustPath (tq_Result (cloneTrustRequest request)))) vctx = Ok v ∧ cv_Trusted v = true.
Proof.
  unfold RequireTrustedRoots. rewrite child_accepts_iface. destruct (has_x5c _); cbn [negb].
  - split.
    + intros (r & H & Ha). apply bind_Ok in H as (v & Hv & H%Ok_inj). subst r. split; [done|]. exists v. by destruct (cv_Trusted v).
    + intros (_ & v & Hv & Ht). rewrite Hv. cbn [mbind result_bind]. rewrite Ht. by eexists.
  - split; [|by intros [? _]]. intros (r & H%Ok_inj & Ha). by subst r.
Qed.
Lemma status_accept {CE : CustomEvidence} check ctx request :
  child_accepts ctx request (RequireCertificateStatus (Iface check) []) ↔ has_x5c (cloneTrustRequest request) = true ∧
  ∃ st, check ctx (let q := cloneTrustRequest request in let path := cloneTrustPath (vr_TrustPath (tq_Result q)) in
           mkStatusRequest (tq_Format q) (vr_Type (tq_Result q)) (tq_AAGUID q) path (tp_Certificates path) (cloneEvidence (vr_Evidence (tq_Result q)))) = Ok st ∧
         sr_Status st = CertificateStatusGood.
Proof.
  unfold RequireCertificateStatus. rewrite child_accepts_iface. cbv zeta. destruct (has_x5c _); cbn [negb].
  - assert (∀ st, (if bool_decide (sr_Status st = "") then CertificateStatusUnknown else sr_Status st)
      ∈ stringSet (if bool_decide (@nil string = []) then [CertificateStatusGood] else []) ↔ sr_Status st = CertificateStatusGood) as Hst.
    { intros st. rewrite (bool_decide_eq_true_2 (@nil string = [])) by done. unfold stringSet. rewrite elem_of_list_to_set, list_elem_of_singleton. case_bool_decide as E; [|done]. by rewrite E. }
    split.
    + intros (r & H & Ha). apply bind_Ok in H as (st & Hv & H%Ok_inj). split; [done|]. exists st. split; [done|]. apply Hst.
      destruct (bool_decide (_ ∈ _)) eqn:E in H; [by apply bool_decide_eq_true in E|]. by subst r.
    + intros (_ & st & Hv & Ht). rewrite Hv. cbn [mbind result_bind]. rewrite bool_decide_eq_true_2 by (by apply Hst). by eexists.
  - split; [|by intros [? _]]. intros (r & H%Ok_inj & Ha). by subst r.
Qed.

(** The enrollment policy accepts exactly packed attestations of uncertain type
    from the one authenticator model, whose certificate chain the verifier
    trusts and whose status is good. *)
Theorem enrollment_policy_exact {CE : CustomEvidence} aaguid verify vctx check ctx request :
  (∃ r, evaluate (restrictedEnrollmentPolicy aaguid (Iface verify) vctx (Iface check)) ctx request = Ok r ∧ ts_Accepted r = true) ↔
  tq_Format request = "packed" ∧ vr_Type (tq_Result request) = TypeUncertain ∧ tq_AAGUID request = aaguid ∧
  let chain := tp_Certificates (vr_TrustPath (tq_Result (cloneTrustRequest request))) in
  has_x5c (cloneTrustRequest request) = true ∧
  (∃ v, verify ctx chain vctx = Ok v ∧ cv_Trusted v = true) ∧
  (∃ st, check ctx (let q := cloneTrustRequest request in let path := cloneTrustPath (vr_TrustPath (tq_Result q)) in
           mkStatusRequest (tq_Format q) (vr_Type (tq_Result q)) (tq_AAGUID q) path (tp_Certificates path) (cloneEvidence (vr_Evidence (tq_Result q)))) = Ok st ∧
         sr_Status st = CertificateStatusGood).
Proof.
  cbn [evaluate restrictedEnrollmentPolicy AllOf fail_if mbind result_bind].
  transitivity (Forall (child_accepts ctx request) [RejectNone; AllowFormats ["packed"]; AllowTypes [TypeUncertain]; RequireAAGUID [aaguid];
         RequireTrustedRoots (Iface verify) vctx; RequireCertificateStatus (Iface check) []]).
  { split; [intros (r & H & Ha); by eapply allOf_loop_accepts|]. intros H. apply (allOf_loop_complete _ _ _ [] H). }
  rewrite !Forall_cons, roots_accept, status_accept. unfold RejectNone, AllowFormats, AllowTypes, RequireAAGUID, rejectTypesPolicy,
    allowFormatsPolicy, allowTypesPolicy. rewrite !child_accepts_iface, !accepted_if, accepted_unless, !bool_decide_eq_true, bool_decide_eq_false.
  assert (vr_Type (tq_Result (cloneTrustRequest request)) = vr_Type (tq_Result request)) as -> by (by destruct request as [? [] ? ? ? ?]).
  unfold stringSet, aaguidSet. rewrite !elem_of_list_to_set, !list_elem_of_singleton. cbv zeta. cbn [tq_Format tq_AAGUID cloneTrustRequest].
  split.
  - intros (_ & Hf & Ht & Ha & [Hx Hv] & [_ Hs] & _). done.
  - intros (Hf & Ht & Ha & Hx & Hv & Hs). split_and!; try done. by rewrite Ht.
Qed.
End AttestationPolicy.

(** ** The license check

    The file and the output of [go list] are inputs of the model; the messages
    are not modelled beyond their case. *)
Module Licenses.
Record manifestModule := mkManifestModule { mm_Path : string; mm_Version : string; mm_License : string; mm_Scope : string; mm_Notes : string }.
Record listedModule := mkListed { lm_Path : string; lm_Version : string; lm_Main : bool }.

Definition um_manifestModule (v : option json) : result manifestModule :=
  ms ← um_struct false ["path"; "version"; "license"; "scope"; "notes"] v;
  path ← unmarshal_string (get ms "path");
  version ← unmarshal_string (get ms "version");
  license ← unmarshal_string (get ms "license");
  scope ← unmarshal_string (get ms "scope");
  notes ← unmarshal_string (get ms "notes");
  Ok (mkManifestModule path version license scope notes).
Definition um_manifest (v : option json) : result (list manifestModule) :=
  ms ← um_struct false ["modules"] v;
  um_list um_manifestModule (get ms "modules").

Fixpoint declare (modules : list manifestModule) (out : gmap string manifestModule) : result (gmap string manifestModule) :=
  match modules with
  | [] => Ok out
  | m :: modules =>
      _ ← fail_if (bool_decide (mm_Path m = "") || bool_decide (mm_Version m = "")) (ErrorNew "license manifest entries must include path and version");
      _ ← fail_if (bool_decide (is_Some (out !! mm_Path m))) (ErrorNew "license manifest duplicates module");
      declare modules (<[mm_Path m := m]> out)
  end.
Definition readManifest (data : list byte) : result (gmap string manifestModule) :=
  v ← of_option errUnmarshal (Json.parse data);
  modules ← um_manifest (Some v);
  declare modules ∅.

Fixpoint cover (declared : gmap string manifestModule) (modules : list listedModule) (seen : gset string) : result (gset string) :=
  match modules with
  | [] => Ok seen
  | m :: modules =>
      if lm_Main m then cover declared modules seen else
      entry ← of_option (ErrorNew "license manifest missing module") (declared !! lm_Path m);
      _ ← fail_if (negb (bool_decide (mm_Version entry = lm_Version m))) (ErrorNew "license manifest version mismatch");
      _ ← fail_if (bool_decide (mm_License entry = "") || bool_decide (mm_Scope entry = "")) (ErrorNew "license manifest entry must include license and scope");
      cover declared modules (seen ∪ {[lm_Path m]})
  end.
Definition um_listedModule (v : json) : result listedModule :=
  ms ← um_struct false ["Path"; "Version"; "Main"] (Some v);
  path ← unmarshal_string (get ms "Path");
  version ← unmarshal_string (get ms "Version");
  main ← um_bool (get ms "Main");
  Ok (mkListed path version main).
(** A sequence of JSON values up to the end of the input; every value is at least
    one byte long. *)
Fixpoint decode_values (fuel : nat) (l : list byte) : result (list listedModule) :=
  match fuel with
  | O => Err errUnmarshal
  | S fuel =>
      if bool_decide (skip_ws l = []) then Ok [] else
      '(v, rest) ← of_option errUnmarshal (parse_value (2 * length l + 2) max_depth l);
      m ← um_listedModule v;
      ms ← decode_values fuel rest;
      Ok (m :: ms)
  end.
Definition decodeModules (output : list byte) : result (list listedModule) := decode_values (S (length output)) output.

(** [goList] is what the command returned. *)
Definition goListModules (goList : result (list byte)) : result (list listedModule) :=
  output ← goList;
  decodeModules output.
Definition run {Ord : MapOrder} (data : list byte) (goList : result (list byte)) : result () :=
  declared ← readManifest data;
  modules ← goListModules goList;
  seen ← cover declared modules ∅;
  for_each (λ e, fail_if (negb (bool_decide (e.1 ∈ seen))) (ErrorNew "license manifest contains stale module")) (range_list declared).
End Licenses.

Section LicenseCheck.
Import Licenses.

Definition entry_named (m : manifestModule) : Prop := mm_Path m ≠ "" ∧ mm_Version m ≠ "".
Definition entry_covers (e : manifestModule) (m : listedModule) : Prop :=
  mm_Path e = lm_Path m ∧ mm_Version e = lm_Version m ∧ mm_License e ≠ "" ∧ mm_Scope e ≠ "".
Definition dependency_paths (modules : list listedModule) : list string := lm_Path <$> filter (λ m, lm_Main m = false) modules.

Lemma declare_Ok modules : ∀ out d, declare modules out = Ok d →
  Forall entry_named modules ∧ NoDup (mm_Path <$> modules) ∧ (∀ m, m ∈ modules → out !! mm_Path m = None) ∧
  ∀ path e, d !! path = Some e ↔ (e ∈ modules ∧ mm_Path e = path) ∨ out !! path = Some e.
Proof.
  induction modules as [|m modules IH]; intros out d H; cbn [declare] in H.
  - apply Ok_inj in H. subst d. split_and!; [constructor|constructor|by intros m Hm%elem_of_nil|].
    intros path e. rewrite elem_of_nil. naive_solver.
  - apply bind_Ok in H as ([] & H1%fail_if_Ok & H). apply bind_Ok in H as ([] & H2%fail_if_Ok%bool_decide_eq_false & H).
    apply orb_false_iff in H1 as [H1%bool_decide_eq_false H1'%bool_decide_eq_false]. apply eq_None_not_Some in H2.
    apply IH in H as (Hn & Hd & Hf & Hl). split_and!.
    + by constructor.
    + constructor; [|done]. intros (m' & E & Hm')%list_elem_of_fmap. specialize (Hf m' Hm'). by rewrite <-E, lookup_insert_eq in Hf.
    + intros m' [->|Hm']%elem_of_cons; [done|]. specialize (Hf m' Hm'). by apply lookup_insert_None in Hf as [? _].
    + intros path e. rewrite Hl, elem_of_cons, lookup_insert_Some. split.
      * intros [[? ?]|[[<- <-]|[? ?]]]; eauto.
      * intros [[[->|?] <-]|?]; [by right; left|by left|]. right. destruct (decide (mm_Path m = path)) as [<-|]; [congruence|by right].
Qed.
Lemma declare_complete modules : ∀ out, Forall entry_named modules → NoDup (mm_Path <$> modules) →
  (∀ m, m ∈ modules → out !! mm_Path m = None) → ∃ d, declare modules out = Ok d.
Proof.
  induction modules as [|m modules IH]; intros out Hn Hd Hf; [by eexists|]. cbn [declare].
  apply Forall_cons in Hn as [[H1 H2] Hn]. apply NoDup_cons in Hd as [Hnin Hd].
  rewrite (bool_decide_eq_false_2 (mm_Path m = "")), (bool_decide_eq_false_2 (mm_Version m = "")) by done.
  cbn [orb fail_if mbind result_bind]. rewrite (Hf m) by (by left). rewrite bool_decide_eq_false_2 by (by intros [? [=]]). cbn [fail_if mbind result_bind].
  apply IH; [done|done|]. intros m' Hm'. apply lookup_insert_None. split; [by apply Hf; right|].
  intros E. apply Hnin. rewrite E. apply list_elem_of_fmap. by exists m'.
Qed.

Lemma cover_Ok d modules : ∀ seen seen', cover d modules seen = Ok seen' ↔
  (∀ m, m ∈ modules → lm_Main m = false → ∃ e, d !! lm_Path m = Some e ∧ mm_Version e = lm_Version m ∧ mm_License e ≠ "" ∧ mm_Scope e ≠ "") ∧
  seen' = seen ∪ list_to_set (dependency_paths modules).
Proof.
  induction modules as [|m modules IH]; intros seen seen'; cbn [cover].
  - split; [intros [= <-]|intros [_ ->]; f_equal; set_solver]. split; [by intros m Hm%elem_of_nil|]. set_solver.
  - unfold dependency_paths in *. rewrite filter_cons. destruct (lm_Main m) eqn:Hm.
    + rewrite decide_False by done. rewrite IH. split; intros [H ->]; (split; [|done]); [|intros x Hx; apply H; by right].
      intros x [->|Hx]%elem_of_cons Hx'; [congruence|by apply H].
    + rewrite decide_True by done. cbn [fmap list_fmap list_to_set]. split.
      * intros H. apply bind_Ok in H as (e & He%of_option_Ok & H). apply bind_Ok in H as ([] & H1%fail_if_Ok & H).
        apply bind_Ok in H as ([] & H2%fail_if_Ok & H). guards in H1. guards in H2. apply IH in H as [Hc ->]. split; [|set_solver].
        intros x [->|Hx]%elem_of_cons Hx'; [|by apply Hc]. exists e. destruct H2. done.
      * intros [H ->]. destruct (H m) as (e & He & Hv & Hl & Hs); [by left|done|]. rewrite He. cbn [of_option mbind result_bind].
        rewrite Hv, (bool_decide_eq_true_2 (lm_Version m = _)) by done. cbn [negb fail_if mbind result_bind].
        rewrite !bool_decide_eq_false_2 by done. cbn [orb fail_if mbind result_bind]. apply IH. split; [|set_solver].
        intros x Hx Hx'. apply H; [by right|done].
Qed.

(** The fuel of [decodeModules] is enough: more changes nothing. *)
Lemma decode_values_fuel f1 : ∀ f2 l, (length l < f1)%nat → (length l < f2)%nat → decode_values f1 l = decode_values f2 l.
Proof.
  induction f1 as [|f1 IH]; intros [|f2] l H1 H2; [lia..|]. cbn [decode_values]. destruct (bool_decide _); [done|].
  destruct (parse_value _ _ l) as [[v rest]|] eqn:E; [|done]. apply (proj1 (parse_progress _)) in E. cbn [of_option mbind result_bind].
  destruct (um_listedModule v); [|done]. cbn [mbind result_bind]. by rewrite (IH f2) by lia.
Qed.

(** The license check passes exactly when the manifest is well formed, with one
    entry per path, every dependency has an entry with its version, a license and
    a scope, and every entry is of a dependency. *)
Theorem license_check_exact {Ord : MapOrder} data goList :
  run data goList = Ok () ↔
  ∃ v entries modules, goListModules goList = Ok modules ∧ Json.parse data = Some v ∧ um_manifest (Some v) = Ok entries ∧
    Forall entry_named entries ∧ NoDup (mm_Path <$> entries) ∧
    (∀ m, m ∈ modules → lm_Main m = false → ∃ e, e ∈ entries ∧ entry_covers e m) ∧
    (∀ e, e ∈ entries → mm_Path e ∈ dependency_paths modules).
Proof.
  unfold run, readManifest. split.
  - intros H. apply bind_Ok in H as (d & Hd & H). apply bind_Ok in Hd as (v & Hv%of_option_Ok & Hd). apply bind_Ok in Hd as (es & Hes & Hd).
    apply declare_Ok in Hd as (Hn & Hu & _ & Hl). apply bind_Ok in H as (modules & Hg & H). apply bind_Ok in H as (seen & [Hc ->]%cover_Ok & H).
    apply for_each_Ok in H. rewrite Forall_forall in H. exists v, es, modules. split_and!; try done.
    + intros m Hm Hm'. destruct (Hc m Hm Hm') as (e & He & ? & ? & ?). apply Hl in He as [[Hin Hp]|He]; [|by rewrite lookup_empty in He].
      by exists e.
    + intros e He. assert ((mm_Path e, e) ∈ range_list d) as Hin.
      { rewrite (range_list_perm d). apply elem_of_map_to_list, Hl. by left. }
      apply H in Hin. apply fail_if_Ok, negb_false_iff, bool_decide_eq_true in Hin. set_solver.
  - intros (v & es & modules & Hg & Hv & Hes & Hn & Hu & Hc & Hs). rewrite Hv. cbn [of_option mbind result_bind]. rewrite Hes. cbn [mbind result_bind].
    destruct (declare_complete es ∅ Hn Hu) as [d Hd]; [intros; apply lookup_empty|]. rewrite Hd. cbn [mbind result_bind]. rewrite Hg. cbn [mbind result_bind].
    apply declare_Ok in Hd as (_ & _ & _ & Hl).
    assert (cover d modules ∅ = Ok (∅ ∪ list_to_set (dependency_paths modules))) as ->.
    { apply cover_Ok. split; [|done]. intros m Hm Hm'. destruct (Hc m Hm Hm') as (e & He & Hp & Hcov). exists e. split; [|done]. apply Hl. by left. }
    cbn [mbind result_bind]. apply for_each_Ok, Forall_forall. intros [path e] Hin. rewrite (range_list_perm d) in Hin.
    apply elem_of_map_to_list, Hl in Hin as [[Hin <-]|Hin]; [|by rewrite lookup_empty in Hin].
    apply fail_if_Ok, negb_false_iff, bool_decide_eq_true. specialize (Hs e Hin). set_solver.
Qed.
End LicenseCheck.

(** ** Runs *)
Module ExamplesRun.
#[local] Existing Instance no_custom_types.
#[local] Existing Instance default_order.
#[local] Existing Instance plain_evidence.
#[local] Existing Instance sample_floats.
#[local] Existing Instance no_methods.

Definition manual_server : Manual.server := Manual.mkServer (c_AttestationRegistry sample_config) sample_registry
  (Iface (λ _ _, Ok ())) (c_AlgorithmPolicy sample_config) (c_AttestationObjectDecoder Run.app_config) Run.key_decoder (Iface (λ _, Ok ∅)).
Definition enroll : list (action Manual.request) :=
  Arrive (Manual.BeginRegistration background "t" sample_user) :: replicate 2 (Enter 0 (Run.at_byte x00)) ++
  Arrive (Manual.FinishRegistrationOf background "t" Run.registration_body) :: replicate 3 (Enter 1 (Run.at_byte x00)).
Definition after_enrolling := schedule (Manual.handle manual_server) Manual.no_maps enroll.
Definition enrolled_record : CredentialRecord :=
  match Manual.credentials (shared after_enrolling) !! string_of_bytes [x0a; x0b] with Some r => r | None => sample_credential end.
Definition calls : list (action Manual.request) := enroll ++
  Arrive (Manual.BeginAuthentication background "u" enrolled_record) :: replicate 2 (Enter 2 (Run.at_byte x01)) ++
  Arrive (Manual.FinishAuthenticationOf background "u" (Run.assertion_body x01 9)) :: replicate 4 (Enter 3 (Run.at_byte x02)).
Definition final := schedule (Manual.handle manual_server) Manual.no_maps calls.

Example manual_run :
  match (λ t, t.2) <$> pool final with
  | [Ret (Ok _); Ret (Ok (Manual.Registered r)); Ret (Ok _); Ret (Ok (Manual.Authenticated result))] =>
      cr_ID r = mkByteValue (Some [x0a; x0b]) ∧ ares_AuthenticatedAs result = user_ID sample_user
  | _ => False
  end.
Proof. vm_compute. done. Qed.

Definition module_entry (path version license scope : string) : json :=
  object [("path", Some (jstring path)); ("version", Some (jstring version)); ("license", Some (jstring license)); ("scope", Some (jstring scope))].
Definition manifest (l : list json) : list byte := default [] (Marshal (object [("modules", Some (JArray l))])).
Definition listed (path version : string) (main : bool) : list byte :=
  default [] (Marshal (object [("Path", Some (jstring path)); ("Version", Some (jstring version)); ("Main", Some (JBool main))])) ++ [x0a].

Example license_vectors :
  let go_list := Ok (listed "m" "" true ++ listed "a" "v1" false) in
  Licenses.run (manifest [module_entry "a" "v1" "MIT" "runtime"]) go_list = Ok () ∧
  Licenses.run (manifest [module_entry "a" "v2" "MIT" "runtime"]) go_list ≠ Ok () ∧
  Licenses.run (manifest [module_entry "a" "v1" "MIT" "runtime"; module_entry "b" "v1" "MIT" "test"]) go_list ≠ Ok () ∧
  Licenses.run (manifest []) go_list ≠ Ok ().
Proof. vm_compute. split_and!; done. Qed.
End ExamplesRun.
